(* ===== verification/_CoqProject ===== *)
-Q . S2P
Prelude.v
GoStrings.v
Postgres.v
Usecase.v
Graph.v
Outbox.v
OutboxProperties.v
Consumer.v
ConsumerProperties.v
TenantDomain.v
TenantStore.v
TenantRepository.v
TenantService.v
TenantEffects.v
TenantMutations.v
TenantInvariants.v
Concrete.v
TenantScenario.v
TenantProperties.v
TenantRefinement.v
PolicyEngine.v
PolicyEngineProperties.v
PolicyStore.v
PolicyRepository.v
PolicyService.v
PolicyReachable.v
PolicyProperties.v
PolicyExamples.v
Provisioning.v
ProvisioningProperties.v
ProvisioningServices.v
ProvisioningExamples.v
GatewayStore.v
GatewayAuth.v
GatewayService.v
GatewayProperties.v
OrganizationDomain.v
OrganizationStore.v
OrganizationRepository.v
OrganizationService.v
OrganizationHierarchy.v
OrganizationEffects.v
OrganizationInvariant.v
OrganizationSystem.v
OrganizationProperties.v
OrganizationExamples.v
ProjectionDomain.v
ProjectionStore.v
ProjectionRepository.v
ProjectionService.v
ProjectionHistory.v
ProjectionCurrent.v
ProjectionConvergence.v
ProjectionIsolation.v
ProjectionPaging.v
ProjectionDelivery.v
ProjectionProperties.v
ProjectionExamples.v
Identity.v
IdentityAccess.v
IdentityProperties.v
AccessStore.v
AccessRepository.v
AccessCatalog.v
AccessService.v
AccessBindings.v
AccessOfferings.v
AccessSystem.v
AccessProperties.v
AccessPlans.v
AccessExamples.v
WorkDomain.v
WorkStore.v
WorkRepository.v
WorkService.v
WorkTasks.v
WorkDependencies.v
WorkProperties.v
WorkLifecycle.v
WorkExamples.v
