(* ===== verification/Prelude.v ===== *)
(** * Gereh: a verification development of the platform's core services

    Gereh is a set of Go services that hold the state of companies run by human and
    artificial members. Each service keeps its own PostgreSQL schema, guards it with row
    security, changes it in one transaction per call, and announces every change through
    a transactional outbox whose relay feeds Kafka. This library models that machinery
    and the services written on top of it, and proves what they promise.

    ** The parts, and how they interact

    A request reaches a service's application layer (input checks, the tenant service's
    authorization decision, the lifecycle rules of the domain), which calls its
    repository. A repository method opens a transaction scoped to a user and a tenant,
    runs its statements, inserts an event in the outbox and commits. The relay claims
    outbox rows under a lease, produces them and marks them. Other services ask the
    tenant service whether a user has a permission before they act. A consumer group
    hands the events to other services: a tenant's creation starts the execution
    orchestrator's Temporal workflow, which provisions the tenant through the services'
    interfaces. The model gateway serves the requests of agents over the routes of a plan
    and journals each of them. The projection service consumes the events of all services into
    read models, from which it answers the reads of the user interface. People log in through
    the identity service, which keeps login transactions and browser sessions in Redis.

    ** The files

    Shared ground:
    - [Prelude]: Go's fallible functions as [result], machine integers with their wrap,
      lists, sorting, the tactics of the library.
    - [GoStrings]: Go's string and base64 functions; the class [Platform] of third-party
      functions ([uuid.Parse], PostgreSQL's [uuid] input, Unicode tables), and its laws.
    - [Postgres] (platform/go/postgres): scopes, [Begin], [ApplyScope], commit and
      rollback. A repository method is a computation in [tx] over a private copy of the
      tables; each statement may lose its connection ([session_budget]).
      [Section Sql]: casts and row security settings that all schemas share.
    - [Usecase]: methods whose connection works, for theorems that say a call succeeds; the
      application layer's computations ([app]): pure checks and repository calls, between
      which the tables may change ([world_interfere]); [safe] and [triple] are the rules to
      reason about them.
    - [Outbox], [OutboxProperties] (platform/go/events/kafka, the outbox and relay of
      services/tenant): envelopes, the producer, claim, mark, release, a relay batch. The
      outbox of every other service is this one, on its own table.
    - [Graph]: acyclic relations, shared by task dependencies and the agents' hierarchy.
    - [Consumer], [ConsumerProperties] (platform/go/events/kafka/consumer.go): the poll
      loop of a consumer, and the runs of a group over the broker's partitions, each started
      at the committed offset or, without one, where the configuration says.
    - [Concrete]: an instance of every class of foreign code, for the examples.

    The tenant service (services/tenant/internal):
    - [TenantDomain] (domain), [TenantStore] (migrations and the SQL of
      adapters/postgres), [TenantRepository] (adapters/postgres, ports),
      [TenantService] (application): one definition per Go function or statement, under
      the Go name.
    - [TenantEffects], [TenantMutations]: every mutation inverted into an abstract
      [effect]; [TenantInvariants]: the transition system of reachable tables;
      [TenantProperties]; [TenantRefinement]: the contract of the service on an abstract
      account of its tenants ([promise]), and that every request honours it;
      [TenantScenario]: concrete histories.

    The policy service (services/policy-approval/internal):
    - [PolicyEngine] (domain, engine), [PolicyStore] (migrations, SQL),
      [PolicyRepository] (adapters/postgres), [PolicyService] (application, security/signer.go, adapters/authorization).
    - [PolicyEngineProperties]: what an evaluation means, without cache, order or early
      return, and what follows of it; [PolicyReachable]: the transition system;
      [PolicyProperties]; [PolicyExamples].

    Work management (services/work-management/internal):
    - [WorkDomain] (domain and the lifecycles), [WorkStore] (migrations, SQL),
      [WorkRepository] (adapters/postgres), [WorkService] (goals and projects of
      application), [WorkTasks] (tasks, dependencies and checklists of application).
    - [WorkDependencies]: the recursive query of [dependencyCycleExists]; transactions that add dependencies, statement by statement, among
      all other methods, and the invariant of that system; [WorkProperties];
      [WorkLifecycle]: changes of status, every use case as a run of the system;
      [WorkExamples].

    The execution orchestrator (services/execution-orchestrator/internal):
    - [Provisioning] (domain, ports, application: workflow and activities, over a class of
      Temporal, and application/trigger.go), [ProvisioningProperties] (against interfaces of the onboarding service), [ProvisioningServices] (the modelled
      tenant and policy services behind the ports), [ProvisioningExamples].

    The model gateway (services/model-gateway/internal):
    - [GatewayStore] (domain, routes, migrations, adapters/postgres, adapters/outbox),
      [GatewayService] (application, ports), [GatewayAuth] (auth), [GatewayProperties].

    Organization (services/organization-agent/internal):
    - [OrganizationDomain] (domain, validation, pagination), [OrganizationStore]
      (migrations, SQL), [OrganizationRepository] (adapters/postgres),
      [OrganizationService] (application, protoutil, adapters/authorization).
    - [OrganizationHierarchy]: the two recursive queries of the reporting lines;
      [OrganizationEffects]: every mutation inverted; [OrganizationInvariant]: the
      invariant of the tables; [OrganizationSystem]: all requests, each between its read
      and its write, as one transition system; [OrganizationProperties]: every use case as
      a run of it, and what follows; [OrganizationExamples].

    The projection service (services/projection/internal):
    - [ProjectionDomain] (domain, the messages of the events, adapters/projection/mapping.go),
      [ProjectionStore] (migrations, the upserts of adapters/postgres,
      adapters/projection/ingest.go), [ProjectionRepository] (adapters/postgres: applying an
      event, the reads), [ProjectionService] (application, adapters/projection/worker.go,
      transport/grpc).
    - [ProjectionHistory]: one delivery of a message in closed form, by the statements that
      its event means; [ProjectionCurrent]: the tables after any deliveries ([reached]);
      [ProjectionConvergence]: why the order and time of deliveries do not matter;
      [ProjectionDelivery]: deliveries on a working connection, and the handler behind the
      consumer of [ConsumerProperties]; [ProjectionIsolation];
      [ProjectionPaging]: the types of rows, keyset pages and the walk over a list;
      [ProjectionProperties]; [ProjectionExamples].

    Identity and sessions (services/identity-access/internal):
    - [Identity] (domain, ports, adapters/redis, each command a step of its own,
      application, transport/grpc),
      [IdentityAccess] (adapters/oidc, adapters/postgres over the tables of the migration),
      [IdentityProperties]: the commands of the service's callers on its stores
      ([store_step]), every request as a sequence of them, the properties and examples.

    Model access (services/model-access/internal):
    - [AccessStore] (domain, the migration of the catalog, the SQL of adapters/postgres),
      [AccessRepository] (adapters/postgres: catalog.go, bindings.go, gateway.go, reads of
      connections and keys), [AccessCatalog] (adapters/catalog, adapters/provider/catalog.go),
      [AccessService] (application: bindings, catalog and its worker, events, validation;
      adapters/authorization, adapters/organization, protoutil, transport/grpc).
    - [AccessBindings], [AccessOfferings]: every mutation inverted; [AccessSystem]: the
      transactions as steps ([access_step]) and their invariant ([access_ok]);
      [AccessProperties]: what requests, worker and resolver lead to ([served]) and the
      bindings; [AccessPlans]: plans, refreshes and their jobs; [AccessExamples].

    ** What the theorems show

    - Tenant service: in every reachable state a tenant has an owner, its status agrees
      with its onboarding operation, and each of its versions has its event; mutations
      are guarded by version and permission in their own transaction, isolated, and
      change nothing when they fail; updates are never lost; creation is idempotent;
      authorization decides what the permission tables say; under interference and
      failures every request is refused without a change or does what an abstract contract
      promises, which names no parameter, statement or transaction ([use_cases_refine]).
    - Outbox: a row is marked only when the broker has its event; claims exclude each
      other while their lease lasts; a healthy batch publishes what it claims.
    - Policy service: an evaluation is the strictest of what bears on it, errors fail
      closed, autonomy binds, policies only restrict; decisions are final, announced and
      replayed. Theorems named for what does not work ([no_policy_takes_effect],
      [management_never_succeeds], [stored_policies_never_allow]) state bugs.
    - Work management: under every interleaving the dependency graph stays acyclic and
      within projects; the cycle query ends and is exact; status changes follow the
      lifecycle from the status that was read, at the expected version, and are committed
      over the prerequisites and checklist of that moment.
    - Organization: however transactions interleave, no agent is above itself along managers
      that are not deleted, every version of an agent has its revision, agents have active
      companies; an update that succeeds
      replaced the row it was computed from; onboarding is idempotent; the cycle query is
      exact. Agents never leave draft but by deletion ([pause_resume_unreachable]), and
      the tree is never returned ([get_hierarchy_empty]).
    - Projections: whatever the deliveries, each versioned read model holds the newest event
      of every entity, and the inbox holds each applied event once; two consumers of the same
      events hold the same six versioned read models, when no two events carry one version of
      one entity, and the same activity and watermarks; a repeated event moves only a
      checkpoint; no record between the first offset the group commits and its position is
      left unprojected; tenants cannot tell each other's events; the lists show every row once but never end ([lists_walk]). The search
      documents are the newest only for events in order ([search_documents_current],
      [document_revived]); dependencies and assignments, which have no version, are outside
      of these theorems but for their isolation.
    - Identity: however the commands of the service's calls interleave, a login state
      completes one login, of two calls that overlap as well, for the browser that began it,
      with the provider's verified answer to its own nonce; a session stands for the login
      that minted it, lives until it expires and is revoked with its CSRF token only. These are proved against the interface of the repository of users; with the
      repository of the source, whose lock PostgreSQL refuses, no login completes
      ([logins_never_complete]), and past that lock a disabled user would log in as a new
      one ([resolved_users]).
    - Model access: however requests, the worker and the resolver interleave, a binding is
      what its gapless history says and names offerings of its tenant; the gateway's plan is
      read off the tables ([plan_resolved]); a refresh makes a connection's available
      offerings those that were discovered ([catalog_refreshed]) and a pending refresh keeps
      its job. A binding without fallbacks cannot be set, none can be removed
      ([bindings_need_fallbacks]), and one model without curated metadata blocks the refresh
      of a provider's connections ([uncurated_model_blocks_refresh]).
    - Consumer: across crashes, restarts and failed commits every record from the first
      committed offset on is handled, in the order of its partition; from the start of the
      partition for a group that starts at the earliest offset. One that starts at the latest,
      the default, may skip records before its first commit ([latest_start_skips]).
    - Provisioning: a creation event starts one workflow for its tenant; a workflow that
      succeeds left the tenant active, and one that fails recorded why, unless its first
      activity failed, which records nothing, or its error says that it could not; with the
      policy service as it is, none succeeds ([provisioning_never_succeeds]).
    - Model gateway: a request identifier is served once; the first route that answers is
      used; a stream never changes routes, and succeeds only on the first
      ([stream_success_first_route]); tokens are signed, current and short-lived; the
      relay's delay overflows ([gateway_backoff_overflows]).

    ** Errors, integers, fuel

    An error of the source is the sentinel it wraps, as [errors.Is] sees it. [int32],
    [int64] and PostgreSQL's integers keep their ranges. The fuels of the library are
    those of recursive queries: a round of [recursive_union] (WorkStore) that adds a row
    adds an edge's end, so one round more than there are edges reaches the fixpoint
    ([cycle_query_total]); a round of [chain_from] or [hierarchy_from] (OrganizationStore)
    visits an agent, or a level of agents, not visited before, so one round more than there
    are agents is enough ([cycle_check_exact]). A statement count bounds a transaction
    ([session_budget]); the connection may fail before any of them.

    ** Assumptions

    Third-party functions are fields of classes ([Platform], the protobuf, JSON, CEL and
    signing classes of the services, the answers of go-oidc); their laws are classes of their own with a concrete
    instance in [Concrete] and the example files. A method's transaction takes effect as
    one step, on what was committed when it began; for the methods with a locking read or
    one guarded statement that is what READ COMMITTED gives, and [AddDependency], where
    it is not, is followed statement by statement. Every change of an agent, and the
    archiving of a company, locks the company's row first, which the atomic steps take for
    granted. [FailOnboarding], whose read is not
    locked, has its race stated as a theorem. The guards of [ChangeTaskStatus],
    [ChangeProjectStatus] and [ChangeGoalStatus] take no lock either: their theorems speak
    of the tables the transaction read. Temporal refuses a second workflow with the
    identifier of one it keeps, executes an activity as often as its policy says, and
    replays nothing that the workflow observes ([TemporalLaws], [TemporalClientLaws]).

    ** Not modelled

    - Transports, clients and wiring: translation between protobuf or HTTP messages and
      inputs, process start-up, configuration from the environment, metrics and logging.
      The API front end (services/api-bff) is such translation throughout, the platform
      libraries (auth, authz, grpcx, observability, service) are thin layers over
      third-party code.
    - Work management's assignments, comments, artifacts and schedules: append-and-list
      features next to the modelled ones, whose use cases repeat the pattern of the
      checklists (permission, validation, one insertion with its event).
    - Of model access, the life cycle of connections and of customers' keys: calls to a
      secret store that is not under src/. The model lets connections and keys change freely
      between the modelled transactions.
    - Stubs, generated code, runtime connectors, the web application and the
      infrastructure files. *)

From stdpp Require Import base tactics strings list gmap.
From Stdlib Require Import ZArith Lia Ascii String.

#[global] Open Scope Z_scope.
Set Default Goal Selector "!".

(** ** Fallible Go functions

    A Go function returning [(T, error)] is a [result]: [Ok v] when the error is
    nil, [Err e] otherwise. Wrapped errors ([fmt.Errorf("%w: ...", e)]) are
    identified with the sentinel error they wrap, which is what the callers
    test with [errors.Is]. *)
Inductive result (E A : Type) : Type :=
| Ok (a : A)
| Err (e : E).
Arguments Ok {E A} a.
Arguments Err {E A} e.

#[global] Instance result_ret E : MRet (result E) := λ A a, Ok a.
#[global] Instance result_bind E : MBind (result E) := λ A B f m,
  match m with Ok a => f a | Err e => Err e end.
#[global] Instance result_fmap E : FMap (result E) := λ A B f m,
  match m with Ok a => Ok (f a) | Err e => Err e end.

#[global] Instance result_eq_dec `{EqDecision E, EqDecision A} :
  EqDecision (result E A).
Proof. solve_decision. Defined.

(** [if cond { return err }] as a statement of a sequence. *)
Definition fail_if {E} (cond : bool) (e : E) : result E unit :=
  if cond then Err e else Ok tt.

(** [is_ok r]: the call returned a nil error. *)
Definition is_ok {E A} (r : result E A) : bool :=
  match r with Ok _ => true | Err _ => false end.

Definition from_option_err {E A} (e : E) (o : option A) : result E A :=
  match o with Some a => Ok a | None => Err e end.

Lemma result_bind_Ok {E A B} (m : result E A) (f : A → result E B) b :
  m ≫= f = Ok b ↔ ∃ a, m = Ok a ∧ f a = Ok b.
Proof.
  destruct m as [a|e]; cbn; split; [eauto| |done|].
  - intros (? & [= <-] & ?); done.
  - by intros (? & ? & _).
Qed.

Lemma fail_if_Ok {E} cond (e : E) u : fail_if cond e = Ok u ↔ cond = false.
Proof. destruct cond, u; cbn; naive_solver. Qed.

Lemma from_option_err_Ok {E A} (e : E) (o : option A) a :
  from_option_err e o = Ok a ↔ o = Some a.
Proof. destruct o; cbn; naive_solver. Qed.

(** Invert a successful chain of [result] binds. *)
Ltac result_inv H :=
  repeat match type of H with
  | _ ≫= _ = Ok _ =>
      let a := fresh "v" in let E := fresh "E" in
      apply result_bind_Ok in H as (a & E & H); try result_inv_leaf E
  end
with result_inv_leaf E :=
  first
    [ apply fail_if_Ok in E
    | apply from_option_err_Ok in E
    | idtac ].

(** Turn the boolean guards among the hypotheses into propositions. *)
Ltac bool_facts :=
  repeat match goal with
  | H : negb _ = false |- _ => apply negb_false_iff in H
  | H : negb _ = true |- _ => apply negb_true_iff in H
  | H : String.eqb _ _ = true |- _ => apply String.eqb_eq in H
  | H : String.eqb _ _ = false |- _ => apply String.eqb_neq in H
  | H : (_ =? _) = true |- _ => apply Z.eqb_eq in H
  | H : (_ =? _) = false |- _ => apply Z.eqb_neq in H
  | H : (_ <=? _) = true |- _ => apply Z.leb_le in H
  | H : (_ <=? _) = false |- _ => apply Z.leb_gt in H
  | H : (_ <? _) = true |- _ => apply Z.ltb_lt in H
  | H : (_ <? _) = false |- _ => apply Z.ltb_ge in H
  | H : _ && _ = true |- _ => apply andb_true_iff in H as [? ?]
  | H : _ || _ = false |- _ => apply orb_false_iff in H as [? ?]
  end.

(** ** Machine integers

    [int64] and [int32] values are integers in range; arithmetic that the source
    performs on them wraps around. *)
Definition int64_min : Z := - 2 ^ 63.
Definition int64_max : Z := 2 ^ 63 - 1.
Definition int64_wrap (z : Z) : Z := (z + 2 ^ 63) mod 2 ^ 64 - 2 ^ 63.

(** Go's [v++] and [v + 1] on an [int64]. *)
Definition int64_incr (v : Z) : Z := int64_wrap (v + 1).

Lemma int64_wrap_small z : int64_min ≤ z ≤ int64_max → int64_wrap z = z.
Proof.
  unfold int64_wrap, int64_min, int64_max. intros.
  rewrite Z.mod_small; lia.
Qed.

Lemma int64_wrap_range z : int64_min ≤ int64_wrap z ≤ int64_max.
Proof.
  unfold int64_wrap, int64_min, int64_max.
  pose proof (Z.mod_pos_bound (z + 2 ^ 63) (2 ^ 64) eq_refl). lia.
Qed.

(** An increment of an in-range value that stays positive did not wrap. *)
Lemma int64_incr_pos v :
  int64_min ≤ v ≤ int64_max → 0 < int64_incr v → int64_incr v = v + 1.
Proof.
  intros Hv Hpos. destruct (decide (v = int64_max)) as [->|].
  - by vm_compute in Hpos.
  - apply int64_wrap_small. unfold int64_max, int64_min in *. lia.
Qed.

(** ** Lists *)

Lemma elem_of_filter_b {A} (p : A → bool) l x :
  x ∈ List.filter p l ↔ x ∈ l ∧ p x = true.
Proof. by rewrite !list_elem_of_In, filter_In. Qed.

Lemma NoDup_fmap_filter {A B} (f : A → B) (p : A → bool) l :
  NoDup (f <$> l) → NoDup (f <$> List.filter p l).
Proof.
  induction l as [|x l IH]; cbn; [done|].
  intros [Hx Hl]%NoDup_cons. destruct (p x); [|by apply IH].
  cbn. apply NoDup_cons. split; [|by apply IH].
  intros (y & Hy & [Hin _]%elem_of_filter_b)%list_elem_of_fmap.
  apply Hx. rewrite Hy. by apply list_elem_of_fmap_2.
Qed.

(** Two elements of a duplicate-free list: one of them is not [x]. *)
Lemma NoDup_other `{EqDecision A} (l : list A) (x : A) :
  NoDup l → (1 < List.length l)%nat → ∃ y, y ∈ l ∧ y ≠ x.
Proof.
  destruct l as [|a [|b l]]; cbn; [lia|lia|].
  intros [Hab _]%NoDup_cons _. destruct (decide (a = x)) as [->|Hx].
  - exists b. split; [set_solver|]. intros ->. set_solver.
  - exists a. split; [set_solver|done].
Qed.

(** The value of a call that is known to succeed. *)
Definition get_ok {E A} (r : result E A) : is_ok r = true → A :=
  match r with
  | Ok a => λ _, a
  | Err _ => λ H, False_rect A (Bool.diff_false_true H)
  end.

Lemma get_ok_Ok {E A} (r : result E A) (H : is_ok r = true) : r = Ok (get_ok r H).
Proof. by destruct r. Qed.

Lemma get_ok_ind {E A} (P : A → Prop) (r : result E A) (H : is_ok r = true) :
  (∀ a, r = Ok a → P a) → P (get_ok r H).
Proof. intros HP. apply HP, get_ok_Ok. Qed.

(** ** [slices.SortFunc]

    Insertion by a three-way comparison. The source's comparisons only return
    zero for equal elements of the lists they sort, so any sorting algorithm
    gives this list. *)
Section SortFunc.
Context {A : Type} (cmp : A → A → comparison).

Fixpoint sort_insert (x : A) (l : list A) : list A :=
  match l with
  | [] => [x]
  | y :: l' => match cmp x y with Gt => y :: sort_insert x l' | _ => x :: l end
  end.

Definition slices_SortFunc (l : list A) : list A := foldr sort_insert [] l.

Lemma sort_insert_perm x l : sort_insert x l ≡ₚ x :: l.
Proof.
  induction l as [|y l IH]; cbn; [done|].
  destruct (cmp x y); [done..|]. rewrite IH. apply Permutation_swap.
Qed.

Lemma slices_SortFunc_perm l : slices_SortFunc l ≡ₚ l.
Proof.
  induction l as [|x l IH]; cbn; [done|]. by rewrite sort_insert_perm, IH.
Qed.
End SortFunc.
