(* ===== verification/GoStrings.v ===== *)
(** * Go's string and base64 operations, and the platform's foreign functions

    Strings are byte strings ([Stdlib.Strings.String.string], one [ascii] per
    byte), as in Go. Standard library operations the services use
    ([strings.TrimSpace], [strings.HasPrefix], [base64.RawURLEncoding], ...) are
    defined here; third-party code the services call ([uuid.Parse], PostgreSQL's
    [uuid] input, Unicode case tables) is a field of the class [Platform]. *)

From S2P Require Import Prelude.
From stdpp Require Import strings list.
From Stdlib Require Import String Ascii Lia.
Open Scope string_scope.
Open Scope list_scope.
Open Scope Z_scope.

(** Foreign functions the services rely on.
    - [uuid_Parse s]: google/uuid's [Parse], [Some u] with [u] the result of
      [String()] on the parsed value, [None] when it returns an error;
    - [uuid_in s]: PostgreSQL's reading of a [$n::uuid] parameter, [Some u] with
      [u] the [::text] form of the value, [None] when the cast fails;
    - [unicode_ToLower]: [strings.ToLower] on a string with a non-ASCII byte. *)
Class Platform := {
  uuid_Parse : string → option string;
  uuid_in : string → option string;
  unicode_ToLower : string → string;
}.

(** ** ASCII classes *)

Definition byte_of (c : ascii) : Z := Z.of_nat (nat_of_ascii c).
Definition in_range (lo hi : Z) (c : ascii) : bool :=
  (lo <=? byte_of c) && (byte_of c <=? hi).
Definition is_upper : ascii → bool := in_range 65 90.
Definition is_lower_alnum (c : ascii) : bool :=
  in_range 97 122 c || in_range 48 57 c.
Definition is_ascii_byte : ascii → bool := in_range 0 127.

Definition forall_bytes (p : ascii → bool) (s : string) : bool :=
  forallb p (list_ascii_of_string s).

(** ** [strings] *)

Definition ascii_to_lower (c : ascii) : ascii :=
  if is_upper c then ascii_of_nat (nat_of_ascii c + 32) else c.

Fixpoint map_bytes (f : ascii → ascii) (s : string) : string :=
  match s with
  | EmptyString => EmptyString
  | String c s' => String (f c) (map_bytes f s')
  end.

Definition ToLower `{Platform} (s : string) : string :=
  if forall_bytes is_ascii_byte s then map_bytes ascii_to_lower s
  else unicode_ToLower s.

(** The UTF-8 encodings of the code points [unicode.IsSpace] accepts. *)
Definition bytes (l : list nat) : string :=
  string_of_list_ascii (ascii_of_nat <$> l).
Definition space_runes : list string :=
  (bytes <$> [[9]; [10]; [11]; [12]; [13]; [32]; [194; 133]; [194; 160];
              [225; 154; 128]; [226; 128; 168]; [226; 128; 169];
              [226; 128; 175]; [226; 129; 159]; [227; 128; 128]]%nat) ++
  ((λ k, bytes [226; 128; k]%nat) <$> seq 128 11).

(** [strings.HasPrefix] *)
Definition HasPrefix (s p : string) : bool := String.prefix p s.

Fixpoint string_rev (s acc : string) : string :=
  match s with
  | EmptyString => acc
  | String c s' => string_rev s' (String c acc)
  end.
Definition reverse (s : string) : string := string_rev s EmptyString.

(** [strings.HasSuffix] *)
Definition HasSuffix (s p : string) : bool := HasPrefix (reverse s) (reverse p).

Fixpoint drop_bytes (n : nat) (s : string) : string :=
  match n, s with
  | S n', String _ s' => drop_bytes n' s'
  | _, _ => s
  end.

(** [strings.TrimSuffix] *)
Definition TrimSuffix (s p : string) : string :=
  if HasSuffix s p then reverse (drop_bytes (String.length p) (reverse s)) else s.

(** Drop the leading runes of [runes]; each iteration drops at least one byte,
    so the length of the string bounds the iterations. *)
Fixpoint trim_left (runes : list string) (fuel : nat) (s : string) : string :=
  match fuel with
  | O => s
  | S fuel' =>
      match List.find (λ r, HasPrefix s r) runes with
      | Some r => trim_left runes fuel' (drop_bytes (String.length r) s)
      | None => s
      end
  end.

(** [strings.TrimSpace] *)
Definition TrimSpace (s : string) : string :=
  let l := trim_left space_runes (String.length s) s in
  reverse (trim_left (reverse <$> space_runes) (String.length l) (reverse l)).

(** What the services rely on: PostgreSQL's [uuid] input accepts hexadecimal
    digits, hyphens and braces only, hence no surrounding space and not the empty
    string, and it reads the text form of a value back as that value. *)
Class PlatformLaws `{Platform} : Prop := {
  uuid_in_trimmed : ∀ s u, uuid_in s = Some u → TrimSpace s = s;
  uuid_in_canonical : ∀ s u, uuid_in s = Some u → uuid_in u = Some u;
  uuid_in_empty : uuid_in EmptyString = None;
}.

(** [len(s)] *)
Definition len (s : string) : Z := Z.of_nat (String.length s).

(** [strings.Count] of a one-byte separator. *)
Fixpoint CountByte (c : ascii) (s : string) : Z :=
  match s with
  | EmptyString => 0
  | String d s' => (if Ascii.eqb c d then 1 else 0) + CountByte c s'
  end.

(** [slices.Contains] on strings. *)
Definition slices_Contains (l : list string) (v : string) : bool :=
  existsb (String.eqb v) l.
#[global] Arguments slices_Contains _ _ : simpl never.

Lemma slices_Contains_true l v : slices_Contains l v = true ↔ v ∈ l.
Proof.
  unfold slices_Contains. rewrite existsb_exists, list_elem_of_In.
  split.
  - intros (x & Hin & E%String.eqb_eq). by subst.
  - intros Hin. exists v. split; [done|apply String.eqb_refl].
Qed.

Lemma slices_Contains_false l v : slices_Contains l v = false ↔ v ∉ l.
Proof.
  rewrite <-slices_Contains_true. by destruct (slices_Contains l v).
Qed.

Lemma slices_Contains_subset l1 l2 v :
  forallb (slices_Contains l2) l1 = true →
  slices_Contains l1 v = true → slices_Contains l2 v = true.
Proof.
  rewrite forallb_forall, slices_Contains_true, list_elem_of_In. auto.
Qed.

(** ** [base64.RawURLEncoding]

    A sextet is six booleans, least significant first. *)
Definition sextet : Type := bool * bool * bool * bool * bool * bool.

Definition sextet_value (x : sextet) : nat :=
  let '(b0, b1, b2, b3, b4, b5) := x in
  (Nat.b2n b0 + 2 * Nat.b2n b1 + 4 * Nat.b2n b2 + 8 * Nat.b2n b3
   + 16 * Nat.b2n b4 + 32 * Nat.b2n b5)%nat.

Definition sextet_of_nat (n : nat) : sextet :=
  (Nat.testbit n 0, Nat.testbit n 1, Nat.testbit n 2,
   Nat.testbit n 3, Nat.testbit n 4, Nat.testbit n 5).

Definition base64url_alphabet : string :=
  "ABCDEFGHIJKLMNOPQRSTUVWXYZabcdefghijklmnopqrstuvwxyz0123456789-_".

Definition encode_sextet (x : sextet) : ascii :=
  match String.get (sextet_value x) base64url_alphabet with
  | Some c => c
  | None => "A"%char
  end.

Definition decode_sextet (c : ascii) : option sextet :=
  match index 0 (String c EmptyString) base64url_alphabet with
  | Some n => Some (sextet_of_nat n)
  | None => None
  end.

Fixpoint EncodeToString (s : string) : string :=
  match s with
  | String (Ascii a0 a1 a2 a3 a4 a5 a6 a7)
      (String (Ascii b0 b1 b2 b3 b4 b5 b6 b7)
         (String (Ascii c0 c1 c2 c3 c4 c5 c6 c7) s')) =>
      String (encode_sextet (a2, a3, a4, a5, a6, a7))
        (String (encode_sextet (b4, b5, b6, b7, a0, a1))
           (String (encode_sextet (c6, c7, b0, b1, b2, b3))
              (String (encode_sextet (c0, c1, c2, c3, c4, c5))
                 (EncodeToString s'))))
  | String (Ascii a0 a1 a2 a3 a4 a5 a6 a7)
      (String (Ascii b0 b1 b2 b3 b4 b5 b6 b7) EmptyString) =>
      String (encode_sextet (a2, a3, a4, a5, a6, a7))
        (String (encode_sextet (b4, b5, b6, b7, a0, a1))
           (String (encode_sextet (false, false, b0, b1, b2, b3)) EmptyString))
  | String (Ascii a0 a1 a2 a3 a4 a5 a6 a7) EmptyString =>
      String (encode_sextet (a2, a3, a4, a5, a6, a7))
        (String (encode_sextet (false, false, false, false, a0, a1)) EmptyString)
  | EmptyString => EmptyString
  end.

Fixpoint decode_sextets (l : list sextet) : option string :=
  match l with
  | [] => Some EmptyString
  | [_] => None
  | [(a2, a3, a4, a5, a6, a7); (_, _, _, _, a0, a1)] =>
      Some (String (Ascii a0 a1 a2 a3 a4 a5 a6 a7) EmptyString)
  | [(a2, a3, a4, a5, a6, a7); (b4, b5, b6, b7, a0, a1); (_, _, b0, b1, b2, b3)] =>
      Some (String (Ascii a0 a1 a2 a3 a4 a5 a6 a7)
              (String (Ascii b0 b1 b2 b3 b4 b5 b6 b7) EmptyString))
  | (a2, a3, a4, a5, a6, a7) :: (b4, b5, b6, b7, a0, a1)
      :: (c6, c7, b0, b1, b2, b3) :: (c0, c1, c2, c3, c4, c5) :: l' =>
      rest ← decode_sextets l';
      Some (String (Ascii a0 a1 a2 a3 a4 a5 a6 a7)
              (String (Ascii b0 b1 b2 b3 b4 b5 b6 b7)
                 (String (Ascii c0 c1 c2 c3 c4 c5 c6 c7) rest)))
  end.

(** Go's decoder skips carriage returns and line feeds. *)
Definition is_newline (c : ascii) : bool :=
  Ascii.eqb c "010"%char || Ascii.eqb c "013"%char.

Definition DecodeString (s : string) : option string :=
  l ← mapM decode_sextet
        (List.filter (λ c, negb (is_newline c)) (list_ascii_of_string s));
  decode_sextets l.

Lemma decode_encode_sextet x : decode_sextet (encode_sextet x) = Some x.
Proof. by destruct x as [[[[[[] []] []] []] []] []]. Qed.

Lemma encode_sextet_not_newline x : is_newline (encode_sextet x) = false.
Proof. by destruct x as [[[[[[] []] []] []] []] []]. Qed.

Lemma string_ind3 (P : string → Prop) :
  P EmptyString → (∀ a, P (String a EmptyString)) →
  (∀ a b, P (String a (String b EmptyString))) →
  (∀ a b c s, P s → P (String a (String b (String c s)))) → ∀ s, P s.
Proof.
  intros H0 H1 H2 H3. fix IH 1.
  intros [|a [|b [|c s]]]; [done|apply H1|apply H2|apply H3, IH].
Qed.

Lemma DecodeString_cons x s :
  DecodeString (String (encode_sextet x) s) =
  (l ← mapM decode_sextet
        (List.filter (λ c, negb (is_newline c)) (list_ascii_of_string s));
   decode_sextets (x :: l)).
Proof.
  unfold DecodeString. cbn [list_ascii_of_string List.filter].
  rewrite encode_sextet_not_newline. cbn -[decode_sextet].
  rewrite decode_encode_sextet. cbn.
  by destruct (mapM _ _).
Qed.

(** Decoding an encoded byte string gives it back. *)
Lemma DecodeString_EncodeToString s : DecodeString (EncodeToString s) = Some s.
Proof.
  assert (Hgen : ∃ l,
    mapM decode_sextet (List.filter (λ c, negb (is_newline c))
      (list_ascii_of_string (EncodeToString s))) = Some l ∧
    decode_sextets l = Some s).
  { induction s as [|a|a b|a b c s (l & Hl & Hs)] using string_ind3;
      repeat match goal with x : ascii |- _ => destruct x end;
      cbn [EncodeToString list_ascii_of_string List.filter];
      rewrite ?encode_sextet_not_newline; cbn [negb mapM];
      rewrite ?decode_encode_sextet; cbn [mbind option_bind].
    - by exists [].
    - eexists. by split.
    - eexists. by split.
    - rewrite Hl. cbn. eexists. split; [done|]. cbn.
      destruct l; cbn in *; [by injection Hs as <-|].
      by rewrite Hs. }
  destruct Hgen as (l & Hl & Hs). unfold DecodeString. by rewrite Hl.
Qed.

(** ** [TrimSpace] leaves a token of printable ASCII bytes alone *)

Definition is_graphic (c : ascii) : bool := in_range 33 126 c.

Definition head_not_graphic (r : string) : bool :=
  match r with EmptyString => false | String c _ => negb (is_graphic c) end.

Lemma trim_left_graphic runes fuel s :
  forallb head_not_graphic runes = true →
  forall_bytes is_graphic s = true → trim_left runes fuel s = s.
Proof.
  intros Hr Hs. destruct fuel as [|fuel]; [done|]. cbn.
  destruct (List.find _ runes) as [r|] eqn:E; [exfalso|done].
  apply find_some in E as [Hin Hp].
  rewrite forallb_forall in Hr. specialize (Hr _ Hin).
  destruct r as [|c r]; [done|]. destruct s as [|d s]; [done|].
  unfold HasPrefix in Hp. cbn in Hp. destruct (ascii_dec c d) as [->|]; [|done].
  unfold forall_bytes in Hs. cbn in Hs, Hr.
  apply andb_prop in Hs as [Hd _]. by rewrite Hd in Hr.
Qed.

Lemma string_rev_list s acc :
  list_ascii_of_string (string_rev s acc) =
  rev_append (list_ascii_of_string s) (list_ascii_of_string acc).
Proof.
  revert acc. induction s as [|c s IH]; intros acc; cbn; [done|]. apply IH.
Qed.

Lemma list_ascii_of_reverse s :
  list_ascii_of_string (reverse s) = rev (list_ascii_of_string s).
Proof. unfold reverse. rewrite string_rev_list. symmetry. apply rev_alt. Qed.

Lemma forall_bytes_reverse p s : forall_bytes p (reverse s) = forall_bytes p s.
Proof.
  unfold forall_bytes. rewrite list_ascii_of_reverse.
  apply eq_true_iff_eq. rewrite !forallb_forall.
  setoid_rewrite <-in_rev. done.
Qed.

Lemma reverse_involutive s : reverse (reverse s) = s.
Proof.
  rewrite <-(string_of_list_ascii_of_string (reverse (reverse s))).
  by rewrite !list_ascii_of_reverse, rev_involutive, string_of_list_ascii_of_string.
Qed.

Lemma TrimSpace_graphic s : forall_bytes is_graphic s = true → TrimSpace s = s.
Proof.
  intros Hs. unfold TrimSpace.
  rewrite (trim_left_graphic space_runes) by done.
  rewrite trim_left_graphic; [apply reverse_involutive|done|].
  by rewrite forall_bytes_reverse.
Qed.

Lemma encode_sextet_graphic x : is_graphic (encode_sextet x) = true.
Proof. by destruct x as [[[[[[] []] []] []] []] []]. Qed.

Lemma EncodeToString_graphic s : forall_bytes is_graphic (EncodeToString s) = true.
Proof.
  unfold forall_bytes.
  induction s using string_ind3;
    repeat match goal with x : ascii |- _ => destruct x end;
    cbn [EncodeToString list_ascii_of_string forallb];
    rewrite ?encode_sextet_graphic; done.
Qed.

Lemma EncodeToString_nonempty s : s ≠ EmptyString → EncodeToString s ≠ EmptyString.
Proof. destruct s as [|[] [|[] [|[]]]]; done. Qed.

(** ** Prefixes and suffixes *)

Lemma HasPrefix_cons a p b s :
  HasPrefix (String b s) (String a p) = if ascii_dec a b then HasPrefix s p else false.
Proof. done. Qed.

Lemma HasPrefix_spec s p : HasPrefix s p = true ↔ ∃ t, s = p +:+ t.
Proof.
  revert s. induction p as [|a p IH]; intros [|b s]; [by split; [exists ""%string|]| | |].
  - split; [by exists (String b s)|done].
  - split; [done|]. by intros (t & [=]).
  - rewrite HasPrefix_cons. destruct (ascii_dec a b) as [->|Hab].
    + rewrite IH. split; [by intros (t & ->); exists t|].
      intros (t & [= ->]). by exists t.
    + split; [done|]. by intros (t & [= -> _]).
Qed.

Lemma append_cons x (a b : string) : String x a +:+ b = String x (a +:+ b).
Proof. done. Qed.
Lemma append_assoc (a b c : string) : (a +:+ b) +:+ c = a +:+ (b +:+ c).
Proof. induction a as [|x a IH]; [done|]. by rewrite !append_cons, IH. Qed.
Lemma append_nil (a : string) : a +:+ EmptyString = a.
Proof. induction a as [|x a IH]; [done|]. by rewrite append_cons, IH. Qed.
Lemma append_length (a b : string) :
  String.length (a +:+ b) = (String.length a + String.length b)%nat.
Proof. induction a as [|x a IH]; [done|]. rewrite append_cons. cbn. by rewrite IH. Qed.

Lemma string_rev_app s acc : string_rev s acc = string_rev s EmptyString +:+ acc.
Proof.
  revert acc. induction s as [|c s IH]; intros acc; cbn; [done|].
  rewrite IH, (IH (String c EmptyString)). by rewrite append_assoc.
Qed.

Lemma reverse_cons c s : reverse (String c s) = reverse s +:+ String c EmptyString.
Proof. apply (string_rev_app s (String c EmptyString)). Qed.

Lemma reverse_app s t : reverse (s +:+ t) = reverse t +:+ reverse s.
Proof.
  induction s as [|c s IH]; [by rewrite append_nil|].
  by rewrite append_cons, !reverse_cons, IH, append_assoc.
Qed.

Lemma HasSuffix_spec s p : HasSuffix s p = true ↔ ∃ t, s = t +:+ p.
Proof.
  unfold HasSuffix. rewrite HasPrefix_spec. split.
  - intros (t & E). exists (reverse t).
    by rewrite <-(reverse_involutive s), E, reverse_app, reverse_involutive.
  - intros (t & ->). exists (reverse t). apply reverse_app.
Qed.

Lemma drop_bytes_app p t : drop_bytes (String.length p) (p +:+ t) = t.
Proof. induction p as [|c p IH]; [by destruct t|]. apply IH. Qed.

Lemma reverse_length s : String.length (reverse s) = String.length s.
Proof.
  induction s as [|c s IH]; [done|].
  rewrite reverse_cons, append_length, IH. cbn. lia.
Qed.

Lemma TrimSuffix_app t p : TrimSuffix (t +:+ p) p = t.
Proof.
  unfold TrimSuffix. rewrite (proj2 (HasSuffix_spec _ _)) by eauto.
  rewrite reverse_app, <-(reverse_length p), drop_bytes_app. apply reverse_involutive.
Qed.
