(* ===== verification/Postgres.v ===== *)
(** * Scoped PostgreSQL transactions

    Models [platform/go/postgres]: the security scope ([scope.go]) and the
    transaction discipline of [Database.Begin] and [ApplyScope]
    ([database.go]). A repository method is a computation in [tx]: it owns a
    private copy of the tables, every statement may fail because the connection
    is lost, and only an explicit [commit] publishes the copy. Leaving the
    method without a commit is the source's deferred [Rollback]. *)

From S2P Require Import Prelude GoStrings.
From stdpp Require Import strings list gmap sorting.
From Stdlib Require Import String Lia Ascii.
Open Scope string_scope.
Open Scope list_scope.
Open Scope Z_scope.

(** ** scope.go *)

Definition ScopeKind := string.
Definition ScopeKindTenant : ScopeKind := "tenant".
Definition ScopeKindPrincipal : ScopeKind := "principal".

Definition PrincipalType := string.
Definition PrincipalTypeUser : PrincipalType := "user".
Definition PrincipalTypeService : PrincipalType := "service".
Definition PrincipalTypeAgent : PrincipalType := "agent".

Record Scope := {
  scope_Kind : ScopeKind;
  scope_TenantID : string;
  scope_PrincipalID : string;
  scope_PrincipalType : PrincipalType;
  scope_RequestID : string;
  scope_CorrelationID : string;
}.

(** What a statement or the scope check can fail with. [ErrConnection] stands
    for every failure of the network or the server that is not a verdict on the
    data. *)
Inductive db_error :=
| ErrInvalidScope
| ErrConnection
| ErrNoRows
| ErrUniqueViolation (constraint : string)
| ErrCheckViolation (constraint : string)
| ErrForeignKeyViolation (table : string)
| ErrRowSecurity (table : string)
| ErrInvalidUUID
| ErrOutOfRange
| ErrReadOnlyTransaction
| ErrTxClosed
| ErrUndefinedColumn (column : string)
| ErrNotNullViolation (column : string)
| ErrInvalidText.

#[global] Instance db_error_eq_dec : EqDecision db_error.
Proof. solve_decision. Defined.

Definition TenantScope (tenantID principalID requestID correlationID : string) : Scope := {|
  scope_Kind := ScopeKindTenant;
  scope_TenantID := TrimSpace tenantID;
  scope_PrincipalID := TrimSpace principalID;
  scope_PrincipalType := PrincipalTypeUser;
  scope_RequestID := TrimSpace requestID;
  scope_CorrelationID := TrimSpace correlationID
|}.

Definition PrincipalScope (principalID requestID correlationID : string) : Scope := {|
  scope_Kind := ScopeKindPrincipal;
  scope_TenantID := "";
  scope_PrincipalID := TrimSpace principalID;
  scope_PrincipalType := PrincipalTypeUser;
  scope_RequestID := TrimSpace requestID;
  scope_CorrelationID := TrimSpace correlationID
|}.

Definition ServiceTenantScope (tenantID principalID requestID correlationID : string) : Scope := {|
  scope_Kind := ScopeKindTenant;
  scope_TenantID := TrimSpace tenantID;
  scope_PrincipalID := TrimSpace principalID;
  scope_PrincipalType := PrincipalTypeService;
  scope_RequestID := TrimSpace requestID;
  scope_CorrelationID := TrimSpace correlationID
|}.

Section Validate.
Context `{Platform}.

Definition is_uuid (s : string) : bool :=
  match uuid_Parse s with Some _ => true | None => false end.

Definition Scope_Validate (scope : Scope) : result db_error unit :=
  fail_if (negb (is_uuid (scope_PrincipalID scope))) ErrInvalidScope;;
  fail_if (negb (String.eqb (scope_PrincipalType scope) PrincipalTypeUser
                 || String.eqb (scope_PrincipalType scope) PrincipalTypeService
                 || String.eqb (scope_PrincipalType scope) PrincipalTypeAgent))
    ErrInvalidScope;;
  (if String.eqb (scope_Kind scope) ScopeKindTenant then
     fail_if (negb (is_uuid (scope_TenantID scope))) ErrInvalidScope
   else if String.eqb (scope_Kind scope) ScopeKindPrincipal then
     fail_if (negb (String.eqb (scope_TenantID scope) "")) ErrInvalidScope
   else Err ErrInvalidScope);;
  fail_if (256 <? len (scope_RequestID scope)) ErrInvalidScope;;
  fail_if (256 <? len (scope_CorrelationID scope)) ErrInvalidScope.

End Validate.

(** The zero value of [Scope]. *)
Definition no_scope : Scope := {|
  scope_Kind := ""; scope_TenantID := ""; scope_PrincipalID := "";
  scope_PrincipalType := ""; scope_RequestID := ""; scope_CorrelationID := ""
|}.

(** ** Transactions

    [session_clock] is what [clock_timestamp()] reads during the transaction;
    [session_budget] is the environment's choice of where the connection fails:
    [None] never, [Some n] after [n] more statements. *)
Record session (DB : Type) := {
  session_db : DB;
  session_committed : option DB;
  session_scope : Scope;
  session_read_only : bool;
  session_clock : Z;
  session_budget : option nat;
}.
Arguments session_db {DB} _.
Arguments session_committed {DB} _.
Arguments session_scope {DB} _.
Arguments session_read_only {DB} _.
Arguments session_clock {DB} _.
Arguments session_budget {DB} _.

(** The environment of one call: the time the server reads from
    [clock_timestamp()] and where the connection fails. *)
Record env := { env_clock : Z; env_budget : option nat }.

Class DbError (E : Type) := db_err : db_error → E.

Definition tx (DB E A : Type) : Type := session DB → result E A * session DB.

#[global] Instance tx_ret DB E : MRet (tx DB E) := λ A a s, (Ok a, s).
#[global] Instance tx_bind DB E : MBind (tx DB E) := λ A B f m s,
  match m s with
  | (Ok a, s') => f a s'
  | (Err e, s') => (Err e, s')
  end.

Section Tx.
Context {DB E : Type} `{Platform, DbError E}.
Implicit Type s : session DB.

Definition consume (b : option nat) : option (option nat) :=
  match b with
  | None => Some None
  | Some O => None
  | Some (S n) => Some (Some n)
  end.

Definition set_budget (b : option nat) s : session DB := {|
  session_db := session_db s; session_committed := session_committed s;
  session_scope := session_scope s; session_read_only := session_read_only s;
  session_clock := session_clock s; session_budget := b |}.

(** A step given as a function of the session. *)
Definition raw {A} (f : session DB → result E A * session DB) : tx DB E A := f.

(** One round trip to the server. A transaction that has been committed takes no
    further statement: pgx answers [ErrTxClosed]. *)
Definition statement : tx DB E unit := λ s,
  match session_committed s with
  | Some _ => (Err (db_err ErrTxClosed), s)
  | None =>
      match consume (session_budget s) with
      | Some b => (Ok tt, set_budget b s)
      | None => (Err (db_err ErrConnection), s)
      end
  end.

(** A pure step of the Go code between two statements. *)
Definition lift {A} (r : result E A) : tx DB E A := λ s, (r, s).

Definition lift_db {A} (r : result db_error A) : tx DB E A := λ s,
  (match r with Ok a => Ok a | Err e => Err (db_err e) end, s).

(** [return mapError(err)] around a step. *)
Definition map_err {A} (f : E → E) (m : tx DB E A) : tx DB E A := λ s,
  match m s with
  | (Ok a, s') => (Ok a, s')
  | (Err e, s') => (Err (f e), s')
  end.

(** A [SELECT]. *)
Definition query {A} (q : Scope → DB → result db_error A) : tx DB E A :=
  statement;; raw (λ s, lift_db (q (session_scope s) (session_db s)) s).

(** An [INSERT], [UPDATE] or [DELETE]; the value is the affected-row count or
    the returned rows. *)
Definition exec {A} (w : Scope → DB → result db_error (A * DB)) : tx DB E A :=
  statement;; raw (λ s,
    if session_read_only s then (Err (db_err ErrReadOnlyTransaction), s)
    else match w (session_scope s) (session_db s) with
         | Ok (a, db') => (Ok a, {|
             session_db := db'; session_committed := session_committed s;
             session_scope := session_scope s;
             session_read_only := session_read_only s;
             session_clock := session_clock s; session_budget := session_budget s |})
         | Err e => (Err (db_err e), s)
         end).

(** [ApplyScope]: validate, then set the transaction-local settings. *)
Definition ApplyScope (scope : Scope) : tx DB E unit :=
  lift_db (Scope_Validate scope);; statement;; raw (λ s, (Ok tt, {|
    session_db := session_db s; session_committed := session_committed s;
    session_scope := scope; session_read_only := session_read_only s;
    session_clock := session_clock s; session_budget := session_budget s |})).

(** [Database.Begin]: validate, open the transaction, set its scope. *)
Definition Begin (scope : Scope) (read_only : bool) : tx DB E unit :=
  lift_db (Scope_Validate scope);; statement;;
  raw (λ s, (Ok tt, {|
    session_db := session_db s; session_committed := session_committed s;
    session_scope := no_scope; session_read_only := read_only;
    session_clock := session_clock s; session_budget := session_budget s |}));;
  ApplyScope scope.

Definition commit : tx DB E unit :=
  statement;; raw (λ s, (Ok tt, {|
    session_db := session_db s; session_committed := Some (session_db s);
    session_scope := session_scope s; session_read_only := session_read_only s;
    session_clock := session_clock s; session_budget := session_budget s |})).

Definition new_session (db : DB) (e : env) : session DB := {|
  session_db := db; session_committed := None; session_scope := no_scope;
  session_read_only := true; session_clock := env_clock e;
  session_budget := env_budget e |}.

(** SQL's [clock_timestamp()] inside the statement that follows. *)
Definition clock_timestamp : tx DB E Z := λ s, (Ok (session_clock s), s).

(** A whole method: what it returns and the tables it leaves behind. *)
Definition run {A} (m : tx DB E A) (db : DB) (ev : env) : result E A * DB :=
  let '(r, s) := m (new_session db ev) in
  (r, default db (session_committed s)).

(** ** Inversion of successful steps *)

Lemma tx_bind_Ok {A B} (m : tx DB E A) (f : A → tx DB E B) s b s' :
  (m ≫= f) s = (Ok b, s') ↔ ∃ a s1, m s = (Ok a, s1) ∧ f a s1 = (Ok b, s').
Proof.
  unfold mbind, tx_bind. destruct (m s) as [[a|e] s1].
  - split; [eauto|]. by intros (? & ? & [= <- <-] & ?).
  - split; [done|]. by intros (? & ? & ? & _).
Qed.

(** The part of a session that a [SELECT] leaves alone. *)
Definition same_view s s' : Prop :=
  session_db s' = session_db s ∧ session_scope s' = session_scope s ∧
  session_committed s' = session_committed s ∧
  session_read_only s' = session_read_only s.

Lemma statement_Ok s u s' : statement s = (Ok u, s') → same_view s s'.
Proof. unfold statement, same_view. intros. by repeat case_match; simplify_eq. Qed.

Lemma lift_Ok {A} (r : result E A) s a s' : lift r s = (Ok a, s') → r = Ok a ∧ s' = s.
Proof. unfold lift. naive_solver. Qed.

Lemma lift_db_Ok {A} (r : result db_error A) s a s' :
  lift_db r s = (Ok a, s') → r = Ok a ∧ s' = s.
Proof. unfold lift_db. destruct r; naive_solver. Qed.

Lemma ret_Ok {A} (a b : A) s s' :
  (mret a : tx DB E A) s = (Ok b, s') → b = a ∧ s' = s.
Proof. unfold mret, tx_ret. naive_solver. Qed.

Lemma clock_Ok s a s' : clock_timestamp s = (Ok a, s') → s' = s.
Proof. unfold clock_timestamp. naive_solver. Qed.

Lemma map_err_Ok {A} f (m : tx DB E A) s a s' :
  map_err f m s = (Ok a, s') ↔ m s = (Ok a, s').
Proof. unfold map_err. destruct (m s) as [[]]; naive_solver. Qed.

Lemma query_Ok {A} (q : Scope → DB → result db_error A) s a s' :
  query q s = (Ok a, s') →
  q (session_scope s) (session_db s) = Ok a ∧ same_view s s'.
Proof.
  unfold query, raw. intros (u & s1 & (Hd & Hs & Hc & Hr)%statement_Ok & Hq)%tx_bind_Ok.
  apply lift_db_Ok in Hq as [Hq ->]. by rewrite Hd, Hs in Hq.
Qed.

Lemma exec_Ok {A} (w : Scope → DB → result db_error (A * DB)) s a s' :
  exec w s = (Ok a, s') →
  session_read_only s = false ∧
  w (session_scope s) (session_db s) = Ok (a, session_db s') ∧
  session_scope s' = session_scope s ∧ session_committed s' = session_committed s ∧
  session_read_only s' = false.
Proof.
  unfold exec, raw. intros (u & s1 & (Hd & Hs & Hc & Hr)%statement_Ok & Hw)%tx_bind_Ok.
  destruct (session_read_only s1) eqn:Hro; [done|]. rewrite Hd, Hs in Hw.
  destruct (w _ _) as [[a' db']|e] eqn:Ew; simplify_eq. cbn. naive_solver.
Qed.

Lemma commit_Ok s u s' :
  commit s = (Ok u, s') →
  session_committed s' = Some (session_db s) ∧ session_db s' = session_db s ∧
  session_scope s' = session_scope s.
Proof.
  unfold commit, raw. intros (v & s1 & (Hd & Hs & Hc & Hr)%statement_Ok & Hq)%tx_bind_Ok.
  simplify_eq. cbn. by rewrite Hd, Hs.
Qed.

Lemma ApplyScope_Ok scope s u s' :
  ApplyScope scope s = (Ok u, s') →
  Scope_Validate scope = Ok tt ∧ session_db s' = session_db s ∧
  session_scope s' = scope ∧ session_committed s' = session_committed s ∧
  session_read_only s' = session_read_only s.
Proof.
  unfold ApplyScope, raw.
  intros (v & s1 & [Hv ->]%lift_db_Ok &
          (v2 & s2 & (Hd & Hs & Hc & Hr)%statement_Ok & Hq)%tx_bind_Ok)%tx_bind_Ok.
  destruct v. simplify_eq. cbn. naive_solver.
Qed.

Lemma Begin_Ok scope ro s u s' :
  Begin scope ro s = (Ok u, s') →
  Scope_Validate scope = Ok tt ∧ session_db s' = session_db s ∧
  session_scope s' = scope ∧ session_committed s' = session_committed s ∧
  session_read_only s' = ro.
Proof.
  unfold Begin, raw.
  intros (v & s1 & [Hv ->]%lift_db_Ok &
          (v2 & s2 & (Hd & Hs & Hc & Hr)%statement_Ok &
           (v3 & s3 & Hq & (? & Hd' & Hs' & Hc' & Hr')%ApplyScope_Ok)
             %tx_bind_Ok)%tx_bind_Ok)%tx_bind_Ok.
  simplify_eq. cbn in *. destruct v. rewrite Hd', Hc'. naive_solver.
Qed.

(** ** Where an error came from *)

Lemma tx_bind_Err {A B} (m : tx DB E A) (f : A → tx DB E B) s e s' :
  (m ≫= f) s = (Err e, s') →
  m s = (Err e, s') ∨ ∃ a s1, m s = (Ok a, s1) ∧ f a s1 = (Err e, s').
Proof. unfold mbind, tx_bind. destruct (m s) as [[a|e'] s1]; naive_solver. Qed.

(** What a statement fails with, whatever it does. *)
Definition lost (x : db_error) : Prop := x = ErrConnection ∨ x = ErrTxClosed.

Lemma statement_Err s e s' :
  statement s = (Err e, s') → ∃ x, e = db_err x ∧ lost x.
Proof. unfold statement, lost. intros. repeat case_match; simplify_eq; eauto. Qed.

(** A closed transaction takes no statement. *)
Lemma statement_closed s db :
  session_committed s = Some db → statement s = (Err (db_err ErrTxClosed), s).
Proof. unfold statement. by intros ->. Qed.

Lemma lift_db_Err {A} (r : result db_error A) s e s' :
  lift_db r s = (Err e, s') → ∃ x, r = Err x ∧ e = db_err x.
Proof. unfold lift_db. destruct r; naive_solver. Qed.

Lemma query_Err {A} (q : Scope → DB → result db_error A) s e s' :
  query q s = (Err e, s') →
  ∃ x, e = db_err x ∧ (lost x ∨ q (session_scope s) (session_db s) = Err x).
Proof.
  unfold query, raw.
  intros [(x & ? & ?)%statement_Err|(u & s1 & (Hd & Hs & _)%statement_Ok & Hq)]
    %tx_bind_Err; [by exists x; auto|].
  apply lift_db_Err in Hq as (x & Hq & ->). rewrite Hd, Hs in Hq. eauto.
Qed.

Lemma ApplyScope_Err scope s e s' : ApplyScope scope s = (Err e, s') → ∃ x, e = db_err x.
Proof.
  unfold ApplyScope, raw.
  intros [(x & _ & ->)%lift_db_Err|(? & ? & _ & [(x & -> & _)%statement_Err|(? & ? & _ & ?)]
    %tx_bind_Err)]%tx_bind_Err; [eauto..|by simplify_eq].
Qed.

Lemma Begin_Err scope ro s e s' : Begin scope ro s = (Err e, s') → ∃ x, e = db_err x.
Proof.
  unfold Begin, raw.
  intros [(x & _ & ->)%lift_db_Err|(? & ? & _ & [(x & -> & _)%statement_Err|(? & ? & _ &
    [?|(? & ? & _ & ?%ApplyScope_Err)]%tx_bind_Err)]%tx_bind_Err)]%tx_bind_Err;
    [eauto..|by simplify_eq|done].
Qed.

Lemma commit_Err s e s' : commit s = (Err e, s') → ∃ x, e = db_err x ∧ lost x.
Proof.
  unfold commit, raw.
  intros [Hs%statement_Err|(? & ? & _ & ?)]%tx_bind_Err; [done|by simplify_eq].
Qed.

Lemma map_err_Err {A} f (m : tx DB E A) s e s' :
  map_err f m s = (Err e, s') → ∃ e0, m s = (Err e0, s') ∧ e = f e0.
Proof. unfold map_err. destruct (m s) as [[]]; naive_solver. Qed.

(** ** Atomicity

    [commit_last m]: when [m] fails, it has not published anything. It holds of
    every computation that commits, if at all, as its last step. *)
Class commit_free {A} (m : tx DB E A) : Prop :=
  commit_free_spec : ∀ s, session_committed (m s).2 = session_committed s.
Class commit_last {A} (m : tx DB E A) : Prop :=
  commit_last_spec : ∀ s e s',
    m s = (Err e, s') → session_committed s' = session_committed s.

#[global] Instance commit_free_last {A} (m : tx DB E A) : commit_free m → commit_last m.
Proof. intros Hm s e s' Hs. specialize (Hm s). by rewrite Hs in Hm. Qed.

#[global] Instance commit_free_ret {A} (a : A) : commit_free (mret a : tx DB E A).
Proof. by intros s. Qed.
#[global] Instance commit_free_lift {A} (r : result E A) : commit_free (lift r).
Proof. by intros s. Qed.
#[global] Instance commit_free_lift_db {A} (r : result db_error A) : commit_free (lift_db r).
Proof. by intros s. Qed.
#[global] Instance commit_free_statement : commit_free statement.
Proof. intros s. unfold statement. by repeat case_match. Qed.

#[global] Instance commit_free_clock : commit_free clock_timestamp.
Proof. by intros s. Qed.

#[global] Instance commit_free_bind {A B} (m : tx DB E A) (f : A → tx DB E B) :
  commit_free m → (∀ a, commit_free (f a)) → commit_free (m ≫= f).
Proof.
  intros Hm Hf s. unfold mbind, tx_bind. specialize (Hm s).
  destruct (m s) as [[a|e] s']; cbn in *; [|done]. by rewrite (Hf a s').
Qed.

#[global] Instance commit_last_bind {A B} (m : tx DB E A) (f : A → tx DB E B) :
  commit_free m → (∀ a, commit_last (f a)) → commit_last (m ≫= f).
Proof.
  intros Hm Hf s e s'. unfold mbind, tx_bind. specialize (Hm s).
  destruct (m s) as [[a|e'] s1]; cbn in *.
  - intros Hs%Hf. congruence.
  - by intros [= <- <-].
Qed.

(** The usual ending [commit(); return v, nil]. *)
#[global] Instance commit_last_commit_ret {A} (a : A) :
  commit_last (commit ≫= λ _, mret a).
Proof.
  intros s e s'. unfold mbind, tx_bind, commit, raw, mbind, tx_bind, mret, tx_ret, statement.
  destruct (session_committed s) eqn:Ed; [by intros [= <- <-]|].
  destruct (consume _) eqn:Ec; intros Hs; cbn in Hs; [discriminate|]. by injection Hs as <- <-.
Qed.
#[global] Instance commit_last_commit : commit_last commit.
Proof.
  intros s e s'. unfold commit, raw, mbind, tx_bind, mret, tx_ret, statement.
  destruct (session_committed s) eqn:Ed; [by intros [= <- <-]|].
  destruct (consume _) eqn:Ec; intros Hs; cbn in Hs; [discriminate|]. by injection Hs as <- <-.
Qed.

#[global] Instance commit_free_map_err {A} f (m : tx DB E A) :
  commit_free m → commit_free (map_err f m).
Proof. intros Hm s. unfold map_err. specialize (Hm s). by destruct (m s) as [[]]. Qed.
#[global] Instance commit_last_map_err {A} f (m : tx DB E A) :
  commit_last m → commit_last (map_err f m).
Proof.
  intros Hm s e s'. unfold map_err. destruct (m s) as [[a|e'] s1] eqn:Hs.
  - done.
  - intros [= <- <-]. by apply Hm in Hs.
Qed.
#[global] Instance commit_free_query {A} (q : Scope → DB → result db_error A) :
  commit_free (query q).
Proof. apply commit_free_bind; [apply _|]. by intros _ s. Qed.
#[global] Instance commit_free_exec {A} (w : Scope → DB → result db_error (A * DB)) :
  commit_free (exec w).
Proof.
  unfold exec. apply commit_free_bind; [apply _|].
  intros _ s. unfold raw. by repeat case_match.
Qed.
#[global] Instance commit_free_ApplyScope scope : commit_free (ApplyScope scope).
Proof. do 2 (apply commit_free_bind; [apply _|intros _]). by intros s. Qed.
#[global] Instance commit_free_Begin scope ro : commit_free (Begin scope ro).
Proof.
  do 3 (apply commit_free_bind; [apply _ || by intros s|intros _]). apply _.
Qed.
#[global] Instance commit_last_if {A} (b : bool) (m1 m2 : tx DB E A) :
  commit_last m1 → commit_last m2 → commit_last (if b then m1 else m2).
Proof. by destruct b. Qed.
#[global] Instance commit_free_if {A} (b : bool) (m1 m2 : tx DB E A) :
  commit_free m1 → commit_free m2 → commit_free (if b then m1 else m2).
Proof. by destruct b. Qed.

(** A method that fails leaves the tables as they were. *)
Lemma run_Err {A} (m : tx DB E A) db ev e db' :
  commit_last m → run m db ev = (Err e, db') → db' = db.
Proof.
  unfold run. intros Hm Hr. destruct (m _) as [r s] eqn:Hs. simplify_eq.
  apply Hm in Hs. by rewrite Hs.
Qed.

Lemma run_Ok {A} (m : tx DB E A) db ev a db' :
  run m db ev = (Ok a, db') →
  ∃ s', m (new_session db ev) = (Ok a, s') ∧ db' = default db (session_committed s').
Proof. unfold run. intros Hr. destruct (m _) as [r s] eqn:Hs. naive_solver. Qed.

(** ** What a method publishes

    [committed_by m s db]: run from [s], [m] commits the tables [db]. *)
Definition committed_by {A} (m : tx DB E A) s (db : DB) : Prop :=
  session_committed (m s).2 = Some db.

Lemma committed_bind {A B} (m : tx DB E A) (f : A → tx DB E B) s db :
  commit_free m → session_committed s = None → committed_by (m ≫= f) s db →
  ∃ a s1, m s = (Ok a, s1) ∧ session_committed s1 = None ∧ committed_by (f a) s1 db.
Proof.
  intros Hm Hs. unfold committed_by, mbind, tx_bind. specialize (Hm s).
  destruct (m s) as [[a|e] s1] eqn:E1; cbn in *; [|congruence].
  intros. exists a, s1. split_and!; [done|congruence|done].
Qed.

Lemma committed_commit s db :
  session_committed s = None → committed_by commit s db → db = session_db s.
Proof.
  unfold committed_by, commit, raw, mbind, tx_bind, mret, tx_ret, statement.
  intros Hs. rewrite Hs. destruct (consume _); cbn; congruence.
Qed.

(** What follows the commit does not change what was published. *)
Lemma committed_commit_then {B} (f : unit → tx DB E B) s db :
  (∀ u, commit_free (f u)) → session_committed s = None →
  committed_by (commit ≫= f) s db → db = session_db s.
Proof.
  intros Hf Hs Hc. apply (committed_commit s); [done|]. revert Hc.
  unfold committed_by, mbind, tx_bind. destruct (commit s) as [[u|e] s1]; [|done].
  by rewrite (Hf u s1).
Qed.

Lemma run_committed {A} (m : tx DB E A) db ev :
  (run m db ev).2 = db ∨ committed_by m (new_session db ev) (run m db ev).2.
Proof.
  unfold run, committed_by. destruct (m _) as [r s]. cbn.
  destruct (session_committed s); [by right|by left].
Qed.

(** ** Methods that take the tables along a relation

    [along R m]: wherever [m] starts, the tables it reaches and those it publishes
    are related by [R] to tables that the former ones were related to. *)
Definition kept (R : relation DB) (db : DB) s : Prop :=
  R db (session_db s) ∧
  (session_committed s = None ∨ ∃ c, session_committed s = Some c ∧ R db c).

Class along (R : relation DB) {A} (m : tx DB E A) : Prop :=
  along_spec : ∀ db s, kept R db s → kept R db (m s).2.

Section Along.
Context (R : relation DB).

#[global] Instance along_ret {A} (a : A) : along R (mret a : tx DB E A).
Proof. by intros db s. Qed.
#[global] Instance along_lift {A} (r : result E A) : along R (lift r).
Proof. by intros db s. Qed.
#[global] Instance along_lift_db {A} (r : result db_error A) : along R (lift_db r).
Proof. by intros db s. Qed.
#[global] Instance along_clock : along R clock_timestamp.
Proof. by intros db s. Qed.
#[global] Instance along_bind {A B} (m : tx DB E A) (f : A → tx DB E B) :
  along R m → (∀ a, along R (f a)) → along R (m ≫= f).
Proof.
  intros Hm Hf db s Hs. unfold mbind, tx_bind. specialize (Hm db s Hs).
  destruct (m s) as [[a|e] s']; cbn in *; [|done]. by apply Hf.
Qed.
#[global] Instance along_map_err {A} f (m : tx DB E A) : along R m → along R (map_err f m).
Proof. intros Hm db s Hs%Hm. unfold map_err. by destruct (m s) as [[]]. Qed.
#[global] Instance along_statement : along R statement.
Proof. intros db s Hs. unfold statement. by repeat case_match. Qed.
#[global] Instance along_query {A} (q : Scope → DB → result db_error A) :
  along R (query q).
Proof. apply along_bind; [apply _|]. by intros _ db s. Qed.
#[global] Instance along_commit : along R commit.
Proof.
  apply along_bind; [apply _|]. intros _ db s [Hd _]. split; cbn; [done|].
  right. eauto.
Qed.
#[global] Instance along_ApplyScope scope : along R (ApplyScope scope).
Proof. do 2 (apply along_bind; [apply _|intros _]). by intros db s. Qed.
#[global] Instance along_Begin scope ro : along R (Begin scope ro).
Proof.
  do 3 (apply along_bind; [apply _ || by intros db s|intros _]). apply _.
Qed.
#[global] Instance along_if {A} (b : bool) (m1 m2 : tx DB E A) :
  along R m1 → along R m2 → along R (if b then m1 else m2).
Proof. by destruct b. Qed.

Lemma along_exec `{!Transitive R} {A} (w : Scope → DB → result db_error (A * DB)) :
  (∀ sc db a db', w sc db = Ok (a, db') → R db db') → along R (exec w).
Proof.
  intros Hw. apply along_bind; [apply _|]. intros _ db s [Hd Hc]. unfold raw.
  destruct (session_read_only s); [done|].
  destruct (w _ _) as [[a db']|e] eqn:E1; [|done]. split; [|done]. cbn. etrans; eauto.
Qed.

Lemma run_along `{!Reflexive R} {A} (m : tx DB E A) db ev :
  along R m → R db (run m db ev).2.
Proof.
  intros Hm. unfold run.
  assert (kept R db (new_session db ev)) as Hs%Hm by (split; [done|by left]).
  destruct (m _) as [r s]. destruct Hs as [_ [Hc|(c & Hc & Hr)]]; cbn in *; by rewrite Hc.
Qed.
End Along.

(** A read-only method publishes the tables it found, if any. *)
Notation readonly := (along eq).

Lemma run_readonly {A} (m : tx DB E A) db ev : readonly m → (run m db ev).2 = db.
Proof. intros Hm. symmetry. by apply run_along. Qed.

End Tx.

(** A read-only method publishes the tables it found, if any. *)
Notation readonly := (along eq).

(** ** Inverting a chain of statements

    Sessions are taken apart so that the equations between their fields substitute
    away. *)
Ltac session_destruct s :=
  let db := fresh "db" in let com := fresh "com" in let sc := fresh "sc" in
  let ro := fresh "ro" in let cl := fresh "cl" in let b := fresh "b" in
  destruct s as [db com sc ro cl b]; cbn in *.

(** The facts of one successful step, [E : step s0 = (Ok _, s)]. *)
Ltac tx_leaf_core E s :=
  lazymatch type of E with
  | map_err _ _ _ = (Ok _, _) => apply map_err_Ok in E; tx_leaf_core E s
  | query _ _ = (Ok _, _) =>
      apply query_Ok in E as (E & ? & ? & ? & ?); session_destruct s; subst
  | exec _ _ = (Ok _, _) =>
      apply exec_Ok in E as (? & E & ? & ? & ?); session_destruct s; subst
  | commit _ = (Ok _, _) =>
      apply commit_Ok in E as (? & ? & ?); session_destruct s; subst
  | Begin _ _ _ = (Ok _, _) =>
      apply Begin_Ok in E as (? & ? & ? & ? & ?); session_destruct s; subst
  | ApplyScope _ _ = (Ok _, _) =>
      apply ApplyScope_Ok in E as (? & ? & ? & ? & ?); session_destruct s; subst
  | lift _ _ = (Ok _, _) => apply lift_Ok in E as [E ->];
      first [apply fail_if_Ok in E | apply from_option_err_Ok in E | idtac]
  | mret _ _ = (Ok _, _) => apply ret_Ok in E as [-> ->]
  | _ => idtac
  end.

(** Invert a successful chain of statements, one step after the other. *)
Ltac tx_inv_core H :=
  cbv beta iota in H;
  lazymatch type of H with
  | (_ ≫= _) _ = (Ok _, _) =>
      let a := fresh "a" in let s := fresh "s" in let E := fresh "E" in
      apply tx_bind_Ok in H as (a & s & E & H); tx_leaf_core E s; tx_inv_core H
  | _ ?s0 = (Ok _, ?s) => tx_leaf_core H s
  | _ => idtac
  end.

(** Follow a method that published its tables to its commit. *)
Ltac committed_inv H :=
  cbv beta iota in H;
  lazymatch type of H with
  | committed_by (_ ≫= _) _ _ =>
      let a := fresh "a" in let s := fresh "s" in let E := fresh "E" in
      let Hc := fresh "Hc" in
      tryif (apply committed_bind in H as (a & s & E & Hc & H); [|apply _|done])
      then (tx_leaf_core E s; committed_inv H) else idtac
  | _ => idtac
  end.

(** ** SQL shared by the services' tables

    Pieces of the schemas and statements of every service: PostgreSQL's
    [char_length], casts of parameters to [uuid], and the settings that the row
    security policies read ([app.scope_kind()], [app.current_tenant_id()], ...,
    the same functions in each service's first migration). *)

(** [char_length]: the bytes that start a UTF-8 sequence. *)
Definition char_length (s : string) : Z :=
  Z.of_nat (List.length
    (List.filter (λ c, negb (in_range 128 191 c)) (list_ascii_of_string s))).

Definition in_bounds (lo hi v : Z) : bool := (lo <=? v) && (v <=? hi).

Definition is_some {A} (o : option A) : bool :=
  match o with Some _ => true | None => false end.

Definition table_any {K V} `{Countable K} (p : V → bool) (m : gmap K V) : bool :=
  existsb (λ kv, p kv.2) (map_to_list m).

(** A [timestamptz] column holds microseconds. *)
Definition timestamptz (t : Z) : Z := t / 1000 * 1000.

Lemma timestamptz_idem t : timestamptz (timestamptz t) = timestamptz t.
Proof. unfold timestamptz. by rewrite Z.div_mul. Qed.

(** ** Pages of rows: [WHERE ... ORDER BY id LIMIT n] *)

Definition id_le {R} (id : R → string) (a b : R) : Prop := String.leb (id a) (id b) = true.
#[export] Instance id_le_dec {R} (id : R → string) : RelDecision (id_le id).
Proof. intros a b. unfold id_le. apply _. Defined.

Definition sql_page {R} (id : R → string) (limit : Z) (cond : R → bool) (rows : list R)
  : list R :=
  take (Z.to_nat limit) (merge_sort (id_le id) (List.filter cond rows)).

Definition after (cursor : option string) (id : string) : bool :=
  match cursor with Some c => String.ltb c id | None => true end.

Section Sql.
Context `{Platform}.

(** ** Row security *)

Record rls := {
  rls_kind : string;
  rls_tenant : option string;
  rls_principal : option string;
  rls_type : string;
}.

(** [NULLIF(current_setting(...), '')::UUID] *)
Definition rls_setting (s : string) : result db_error (option string) :=
  if String.eqb s "" then Ok None
  else u ← from_option_err ErrInvalidUUID (uuid_in s); Ok (Some u).

Definition rls_of (sc : Scope) : result db_error rls :=
  t ← rls_setting (scope_TenantID sc);
  p ← rls_setting (scope_PrincipalID sc);
  Ok {| rls_kind := scope_Kind sc; rls_tenant := t; rls_principal := p;
        rls_type := scope_PrincipalType sc |}.

Definition is_id (o : option string) (id : string) : bool :=
  match o with Some v => String.eqb v id | None => false end.

Definition tenant_scoped (r : rls) (tenantID : string) : bool :=
  String.eqb (rls_kind r) ScopeKindTenant && is_id (rls_tenant r) tenantID.
Definition user_scoped (r : rls) : bool :=
  String.eqb (rls_kind r) ScopeKindPrincipal
  && String.eqb (rls_type r) PrincipalTypeUser.

Definition cast (s : string) : result db_error string :=
  from_option_err ErrInvalidUUID (uuid_in s).

Definition cast_option (o : option string) : result db_error (option string) :=
  match o with
  | Some s => u ← cast s; Ok (Some u)
  | None => Ok None
  end.

(** A query that found no row of a table. *)
Lemma table_any_false {K V} `{Countable K} (p : V → bool) (m : gmap K V) k v :
  table_any p m = false → m !! k = Some v → p v = false.
Proof.
  unfold table_any. intros Hf Hk%elem_of_map_to_list%list_elem_of_In.
  destruct (p v) eqn:Hp; [|done].
  assert (existsb (λ kv, p kv.2) (map_to_list m) = true) as Ht
    by (apply existsb_exists; by exists (k, v)).
  congruence.
Qed.

Lemma rls_of_Ok sc r :
  rls_of sc = Ok r →
  rls_kind r = scope_Kind sc ∧ rls_type r = scope_PrincipalType sc ∧
  (∀ t, rls_tenant r = Some t → uuid_in (scope_TenantID sc) = Some t).
Proof.
  unfold rls_of, rls_setting. intros Hr. result_inv Hr.
  injection Hr as <-. cbn. split_and!; [done..|]. intros t ->.
  destruct (String.eqb (scope_TenantID sc) ""); [done|].
  result_inv E. by simplify_eq.
Qed.

Lemma rls_of_Err sc e : rls_of sc = Err e → e = ErrInvalidUUID.
Proof.
  unfold rls_of, rls_setting. repeat case_match; cbn; intros; simplify_eq; try done;
    repeat match goal with
    | Hx : context [from_option_err _ ?o] |- _ => destruct o; cbn in *; simplify_eq
    end; done.
Qed.

Lemma tenant_scoped_true r t :
  tenant_scoped r t = true ↔ rls_kind r = ScopeKindTenant ∧ rls_tenant r = Some t.
Proof.
  unfold tenant_scoped, is_id. rewrite andb_true_iff, String.eqb_eq.
  destruct (rls_tenant r); rewrite ?String.eqb_eq; naive_solver.
Qed.

End Sql.
