(* ===== verification/Usecase.v ===== *)
(** * Use cases

    First, methods on a working connection, whose steps the programs of the second half
    are made of: a use case is a sequence of repository methods, reads of the clock and
    remote calls, between which other requests change the tables.


    What a repository method returns when no statement fails because of the
    connection: each step in closed form, so that a theorem can state that a method
    succeeds and not only what follows when it does. *)

From S2P Require Import Prelude GoStrings Postgres.
From stdpp Require Import strings list relations.
From Stdlib Require Import String Lia.
Open Scope string_scope.
Open Scope list_scope.
Open Scope Z_scope.

Section Progress.
Context {DB E : Type} `{Platform, DbError E}.

(** A session under way on a connection that does not fail. *)
Definition at_work (db : DB) (sc : Scope) (ro : bool) (clock : Z) : session DB := {|
  session_db := db; session_committed := None; session_scope := sc;
  session_read_only := ro; session_clock := clock; session_budget := None |}.

Lemma new_session_at_work db ev :
  env_budget ev = None → new_session db ev = at_work db no_scope true (env_clock ev).
Proof. unfold new_session, at_work. by intros ->. Qed.

Lemma tx_bind_step {A B} (m : tx DB E A) (f : A → tx DB E B) s a s' :
  m s = (Ok a, s') → (m ≫= f) s = f a s'.
Proof. unfold mbind, tx_bind. by intros ->. Qed.

Lemma tx_bind_stop {A B} (m : tx DB E A) (f : A → tx DB E B) s e s' :
  m s = (Err e, s') → (m ≫= f) s = (Err e, s').
Proof. unfold mbind, tx_bind. by intros ->. Qed.

Lemma Begin_at_work scope ro db sc ro' clock :
  Scope_Validate scope = Ok tt →
  (Begin scope ro : tx DB E unit) (at_work db sc ro' clock)
    = (Ok tt, at_work db scope ro clock).
Proof.
  intros Hv. unfold Begin, ApplyScope, lift_db, raw, mbind, tx_bind. by rewrite Hv.
Qed.

Lemma query_at_work {A} (q : Scope → DB → result db_error A) db sc ro clock a :
  q sc db = Ok a →
  (query q : tx DB E A) (at_work db sc ro clock) = (Ok a, at_work db sc ro clock).
Proof. intros Hq. unfold query, raw, lift_db, mbind, tx_bind. cbn. by rewrite Hq. Qed.

Lemma exec_at_work {A} (w : Scope → DB → result db_error (A * DB)) db sc clock a db' :
  w sc db = Ok (a, db') →
  (exec w : tx DB E A) (at_work db sc false clock) = (Ok a, at_work db' sc false clock).
Proof. intros Hw. unfold exec, raw, mbind, tx_bind. cbn. by rewrite Hw. Qed.

Lemma map_err_at_work {A} f (m : tx DB E A) s a s' :
  m s = (Ok a, s') → map_err f m s = (Ok a, s').
Proof. unfold map_err. by intros ->. Qed.

(** A method that ends with [commit(); return v, nil]. *)
Lemma run_commits {A} (m : tx DB E A) db ev s db' sc clock a :
  s = at_work db' sc false clock → env_budget ev = None →
  m (at_work db no_scope true (env_clock ev)) = (commit;; mret a) s →
  run m db ev = (Ok a, db').
Proof. intros -> Hev Hm. unfold run. by rewrite new_session_at_work, Hm. Qed.

Lemma run_fails {A} (m : tx DB E A) db ev e s :
  session_committed s = None → env_budget ev = None →
  m (at_work db no_scope true (env_clock ev)) = (Err e, s) → run m db ev = (Err e, db).
Proof. intros Hs Hev Hm. unfold run. by rewrite new_session_at_work, Hm, Hs. Qed.

End Progress.

(** Follow a method step by step; each step leaves the goal that it succeeds. *)
Ltac at_work_step :=
  etrans; [eapply tx_bind_step;
           first [ apply Begin_at_work
                 | apply map_err_at_work, query_at_work
                 | apply map_err_at_work, exec_at_work
                 | apply query_at_work
                 | apply exec_at_work
                 | idtac ] | cbv beta].

(** ** Use cases of a service

    The application layer of every service is a sequence of pure checks and of
    repository calls, each call a transaction of its own. A use case is a
    computation in [app]; between two of its calls the tables may change
    ([world_interfere]). *)

(** The request metadata carried by a [context.Context]. *)
Record Ctx := {
  ctx_RequestID : string;
  ctx_CorrelationID : string;
  ctx_TraceID : string;
}.

(** The world around one call of the service: the environment of its [n]th
    transaction, what other transactions do to the tables before it, the
    identifiers and the readings of the clock it obtains. *)
Record world (DB : Type) := {
  world_env : nat → env;
  world_interfere : nat → DB → DB;
  world_ids : nat → option string;
  world_now : nat → Z;
}.
Arguments world_env {DB} _.
Arguments world_interfere {DB} _.
Arguments world_ids {DB} _.
Arguments world_now {DB} _.

Definition app (DB E A : Type) : Type :=
  world DB → nat * DB → result E A * (nat * DB).

#[global] Instance app_ret DB E : MRet (app DB E) := λ A a w s, (Ok a, s).
#[global] Instance app_bind DB E : MBind (app DB E) := λ A B f m w s,
  match m w s with
  | (Ok a, s') => f a w s'
  | (Err e, s') => (Err e, s')
  end.

Section App.
Context {DB E : Type}.

(** A repository call whose error the caller inspects. *)
Definition try_call {A} (m : tx DB E A) : app DB E (result E A) := λ w s,
  let '(r, db') := run m (world_interfere w s.1 s.2) (world_env w s.1) in
  (Ok r, (S s.1, db')).

Definition call {A} (m : tx DB E A) : app DB E A := λ w s,
  let '(r, db') := run m (world_interfere w s.1 s.2) (world_env w s.1) in
  (r, (S s.1, db')).

Definition pure {A} (f : world DB → result E A) : app DB E A := λ w s, (f w, s).

Definition perform {A} (m : app DB E A) (w : world DB) (db : DB) : result E A * DB :=
  let '(r, s) := m w (O, db) in (r, s.2).

(** The world of a call that is cut off from its stores after its first [n] transactions: the
    tables it leaves are those after its first [n] transactions in [w]. *)
Definition cut (n : nat) (w : world DB) : world DB := {|
  world_env i :=
    if Nat.ltb i n then world_env w i
    else {| env_clock := env_clock (world_env w i); env_budget := Some O |};
  world_interfere i db := if Nat.ltb i n then world_interfere w i db else db;
  world_ids := world_ids w;
  world_now := world_now w |}.

(** ** Successful steps *)

Lemma app_bind_Ok {A B} (m : app DB E A) (f : A → app DB E B) w s b s' :
  (m ≫= f) w s = (Ok b, s') ↔ ∃ a s1, m w s = (Ok a, s1) ∧ f a w s1 = (Ok b, s').
Proof.
  unfold mbind, app_bind. destruct (m w s) as [[a|e] s1].
  - split; [eauto|]. by intros (? & ? & [= <- <-] & ?).
  - split; [done|]. by intros (? & ? & ? & _).
Qed.

Lemma pure_Ok {A} (f : world DB → result E A) w s a s' :
  pure f w s = (Ok a, s') → f w = Ok a ∧ s' = s.
Proof. unfold pure. naive_solver. Qed.

Lemma call_run {A} (m : tx DB E A) w s r s' :
  call m w s = (r, s') →
  run m (world_interfere w s.1 s.2) (world_env w s.1) = (r, s'.2) ∧ s'.1 = S s.1.
Proof. unfold call. destruct (run _ _ _) as [r' db']. by intros [= <- <-]. Qed.

Lemma try_call_run {A} (m : tx DB E A) w s r s' :
  try_call m w s = (Ok r, s') →
  run m (world_interfere w s.1 s.2) (world_env w s.1) = (r, s'.2) ∧ s'.1 = S s.1.
Proof. unfold try_call. destruct (run _ _ _) as [r' db']. by intros [= <- <-]. Qed.

Lemma perform_Ok {A} (m : app DB E A) w db r db' :
  perform m w db = (r, db') → ∃ s, m w (0%nat, db) = (r, s) ∧ s.2 = db'.
Proof. unfold perform. destruct (m w _) as [r' s]. intros [= <- <-]. eauto. Qed.

(** ** Use cases that take the tables along a relation

    [safe w R m]: in the world [w], whatever [m] does is allowed by [R], a
    reflexive and transitive relation between tables. *)
Section Safe.
Context `{Platform} `{!DbError E} (R : relation DB) `{!PreOrder R}.
Context (w : world DB) (Hw : ∀ n db, R db (world_interfere w n db)).

Definition safe {A} (m : app DB E A) : Prop := ∀ s, R s.2 (m w s).2.2.

Lemma safe_ret {A} (a : A) : safe (mret a).
Proof. intros s. cbn. reflexivity. Qed.
Lemma safe_pure {A} (f : world DB → result E A) : safe (pure f).
Proof. intros s. cbn. reflexivity. Qed.

Lemma safe_bind {A B} (m : app DB E A) (f : A → app DB E B) :
  safe m → (∀ a, safe (f a)) → safe (m ≫= f).
Proof.
  intros Hm Hf s. unfold mbind, app_bind. specialize (Hm s).
  destruct (m w s) as [[a|e] s']; cbn in *; [|done]. etrans; [exact Hm|apply Hf].
Qed.

(** The rest of the use case knows what a pure step computed. *)
Lemma safe_bind_pure {A B} (f : world DB → result E A) (g : A → app DB E B) :
  (∀ a, f w = Ok a → safe (g a)) → safe (pure f ≫= g).
Proof.
  intros Hg s. unfold mbind, app_bind, pure. destruct (f w) as [a|e] eqn:Hf; cbn.
  - by apply Hg.
  - reflexivity.
Qed.

Lemma safe_call {A} (m : tx DB E A) :
  (∀ db ev, R db (run m db ev).2) → safe (call m).
Proof.
  intros Hm s. unfold call. specialize (Hm (world_interfere w s.1 s.2) (world_env w s.1)).
  destruct (run _ _ _) as [r db']. cbn in *. etrans; [apply Hw|exact Hm].
Qed.

Lemma safe_try_call {A} (m : tx DB E A) :
  (∀ db ev, R db (run m db ev).2) → safe (try_call m).
Proof.
  intros Hm s. unfold try_call.
  specialize (Hm (world_interfere w s.1 s.2) (world_env w s.1)).
  destruct (run _ _ _) as [r db']. cbn in *. etrans; [apply Hw|exact Hm].
Qed.

Lemma safe_read {A} (m : tx DB E A) : readonly m → safe (call m).
Proof. intros Hm. apply safe_call. intros db ev. by rewrite run_readonly. Qed.

Lemma safe_try_read {A} (m : tx DB E A) : readonly m → safe (try_call m).
Proof. intros Hm. apply safe_try_call. intros db ev. by rewrite run_readonly. Qed.

Lemma safe_perform {A} (m : app DB E A) db : safe m → R db (perform m w db).2.
Proof. intros Hm. specialize (Hm (0%nat, db)). unfold perform. by destruct (m w _). Qed.

End Safe.

(** ** Hoare triples of use cases

    [triple w I m Q]: in the world [w], [m] takes tables that satisfy [I] to
    tables that satisfy [I], and a value it returns satisfies [Q]. *)
Section Triple.
Context (I : DB → Prop) (w : world DB) (Hw : ∀ n db, I db → I (world_interfere w n db)).

Definition triple {A} (m : app DB E A) (Q : A → Prop) : Prop := ∀ s,
  I s.2 → I (m w s).2.2 ∧ ∀ a, (m w s).1 = Ok a → Q a.

Lemma triple_ret {A} (a : A) (Q : A → Prop) : Q a → triple (mret a) Q.
Proof. intros HQ s HI. split; [done|]. by intros ? [= <-]. Qed.

Lemma triple_pure {A} (f : world DB → result E A) (Q : A → Prop) :
  (∀ a, f w = Ok a → Q a) → triple (pure f) Q.
Proof. intros HQ s HI. by split. Qed.

Lemma triple_bind {A B} (m : app DB E A) (f : A → app DB E B) (P : A → Prop)
    (Q : B → Prop) :
  triple m P → (∀ a, P a → triple (f a) Q) → triple (m ≫= f) Q.
Proof.
  intros Hm Hf s HI. unfold mbind, app_bind. destruct (Hm s HI) as [HI1 HP].
  destruct (m w s) as [[a|e] s1]; cbn in *; [|done]. apply (Hf a); auto.
Qed.

Lemma triple_weaken {A} (m : app DB E A) (P Q : A → Prop) :
  triple m P → (∀ a, P a → Q a) → triple m Q.
Proof. intros Hm HPQ s HI. destruct (Hm s HI) as [HI1 HP]. auto. Qed.

Lemma triple_call {A} (m : tx DB E A) (Q : A → Prop) :
  (∀ db ev, I db → I (run m db ev).2 ∧ ∀ a, (run m db ev).1 = Ok a → Q a) →
  triple (call m) Q.
Proof.
  intros Hm s HI. unfold call.
  specialize (Hm (world_interfere w s.1 s.2) (world_env w s.1) (Hw _ _ HI)).
  by destruct (run _ _ _) as [r db'].
Qed.

Lemma triple_try_call {A} (m : tx DB E A) (Q : result E A → Prop) :
  (∀ db ev, I db → I (run m db ev).2 ∧ Q (run m db ev).1) →
  triple (try_call m) Q.
Proof.
  intros Hm s HI. unfold try_call.
  destruct (Hm (world_interfere w s.1 s.2) (world_env w s.1) (Hw _ _ HI)) as [HI1 HQ].
  destruct (run _ _ _) as [r db']. cbn in *. split; [done|]. by intros a [= <-].
Qed.

Lemma triple_perform {A} (m : app DB E A) (Q : A → Prop) db :
  triple m Q → I db → I (perform m w db).2 ∧ ∀ a, (perform m w db).1 = Ok a → Q a.
Proof. intros Hm HI. specialize (Hm (0%nat, db) HI). unfold perform. by destruct (m w _). Qed.

End Triple.
End App.

(** ** Use cases that read and then write

    The tables as the world alone leaves them before each transaction of a use case, and
    what a use case does to them: its reads and its failures nothing, its last transaction
    what a contract allows. *)
Section Reads.
Context {DB E : Type} `{Platform, DbError E} (w : world DB) (db0 : DB).

Fixpoint interfered (n : nat) : DB :=
  match n with
  | O => db0
  | S k => world_interfere w k (interfered k)
  end.

(** From its [k]th transaction on, [m] changes nothing, and what it returns at its [k']th
    satisfies [Q]. *)
Definition reads (k : nat) {A} (m : app DB E A) (Q : A → nat → Prop) : Prop := ∀ r s',
  m w (k, interfered k) = (r, s') →
  s'.2 = interfered s'.1 ∧ ∀ a, r = Ok a → Q a s'.1.

(** From its [k]th transaction on, [m] changes nothing when it fails, and what [P] allows
    when it returns. *)
Definition performs (k : nat) {A} (m : app DB E A) (P : DB → DB → Prop) : Prop := ∀ r s',
  m w (k, interfered k) = (r, s') →
  match r with Ok _ => P (interfered s'.1) s'.2 | Err _ => s'.2 = interfered s'.1 end.

Lemma reads_ret k {A} (a : A) (Q : A → nat → Prop) : Q a k → reads k (mret a) Q.
Proof. intros HQ r s' [= <- <-]. split; [done|]. by intros ? [= <-]. Qed.

Lemma reads_pure k {A} (f : world DB → result E A) (Q : A → nat → Prop) :
  (∀ a, f w = Ok a → Q a k) → reads k (pure f) Q.
Proof. intros HQ r s' [= <- <-]. split; [done|]. apply HQ. Qed.

Lemma reads_bind k {A B} (m : app DB E A) (f : A → app DB E B) Q (Q' : B → nat → Prop) :
  reads k m Q → (∀ a k', Q a k' → reads k' (f a) Q') → reads k (m ≫= f) Q'.
Proof.
  intros Hm Hf r s' Hr. unfold mbind, app_bind in Hr.
  destruct (m w (k, interfered k)) as [[a|e] [k1 s1]] eqn:Hm1;
    destruct (Hm _ _ Hm1) as [Hs Ha]; cbn in Hs, Ha; subst s1.
  - by eapply Hf; [apply Ha|].
  - injection Hr as <- <-. by split.
Qed.

Lemma reads_call k {A} (m : tx DB E A) (Q : A → nat → Prop) :
  readonly m →
  (∀ a db', run m (interfered (S k)) (world_env w k) = (Ok a, db') → Q a (S k)) →
  reads k (call m) Q.
Proof.
  intros Hm HQ r s' [Hr Hk]%call_run. cbn in Hr, Hk.
  pose proof (run_readonly m (interfered (S k)) (world_env w k) Hm) as Hs.
  cbn in Hs. rewrite Hr in Hs. cbn in Hs. rewrite Hk. split; [done|]. intros a ->. by eapply HQ.
Qed.

Lemma reads_try_call k {A} (m : tx DB E A) : readonly m → reads k (try_call m) (λ _ _, True).
Proof.
  intros Hm r s' Hr. unfold try_call in Hr. cbn in Hr.
  pose proof (run_readonly m (interfered (S k)) (world_env w k) Hm) as Hs. cbn in Hs.
  destruct (run _ _ _) as [x db']. cbn in Hs. subst db'. by injection Hr as <- <-.
Qed.

Lemma reads_weaken k {A} (m : app DB E A) (Q Q' : A → nat → Prop) :
  reads k m Q → (∀ a k', Q a k' → Q' a k') → reads k m Q'.
Proof. intros Hm HQ r s' Hr. destruct (Hm _ _ Hr) as [Hs Ha]. auto. Qed.

Lemma reads_performs k {A} (m : app DB E A) (P : DB → DB → Prop) :
  reads k m (λ _ k', P (interfered k') (interfered k')) → performs k m P.
Proof. intros Hm r s' Hr. destruct (Hm _ _ Hr) as [-> Ha]. destruct r; eauto. Qed.

Lemma performs_bind k {A B} (m : app DB E A) (f : A → app DB E B) Q (P : DB → DB → Prop) :
  reads k m Q → (∀ a k', Q a k' → performs k' (f a) P) → performs k (m ≫= f) P.
Proof.
  intros Hm Hf r s' Hr. unfold mbind, app_bind in Hr.
  destruct (m w (k, interfered k)) as [[a|e] [k1 s1]] eqn:Hm1;
    destruct (Hm _ _ Hm1) as [Hs Ha]; cbn in Hs, Ha; subst s1.
  - by eapply Hf; [apply Ha|].
  - by injection Hr as <- <-.
Qed.

Lemma performs_call k {A} (m : tx DB E A) (P : DB → DB → Prop) :
  commit_last m →
  (∀ a db', run m (interfered (S k)) (world_env w k) = (Ok a, db') →
     P (interfered (S k)) db') →
  performs k (call m) P.
Proof.
  intros Hm HP r s' [Hr Hk]%call_run. cbn in Hr, Hk. rewrite Hk.
  destruct r as [a|e]; [by eapply HP|]. by apply run_Err in Hr.
Qed.

Lemma performs_then k {A B} (m : app DB E A) (f : A → B) (P : DB → DB → Prop) :
  performs k m P → performs k (a ← m; mret (f a)) P.
Proof.
  intros Hm r s' Hr. unfold mbind, app_bind in Hr.
  destruct (m w (k, interfered k)) as [[a|e] s1] eqn:Hm1; specialize (Hm _ _ Hm1);
    by injection Hr as <- <-.
Qed.

End Reads.

(** Invert a successful use case, one step after the other. *)
Ltac app_inv H :=
  cbv beta iota in H;
  lazymatch type of H with
  | (_ ≫= _) _ _ = (Ok _, _) =>
      let a := fresh "a" in let s := fresh "s" in let E := fresh "E" in
      apply app_bind_Ok in H as (a & s & E & H);
      lazymatch type of E with
      | pure _ _ _ = _ => apply pure_Ok in E as [E ->]
      | call _ _ _ = _ => apply call_run in E as [E ?]
      | try_call _ _ _ = _ => apply try_call_run in E as [E ?]
      | _ => idtac
      end; app_inv H
  | _ => idtac
  end.

(** Split a use case into its calls; a pure step is remembered by its result. *)
Ltac use_case :=
  repeat match goal with
  | |- triple _ _ (mret _) _ => by apply triple_ret
  | |- triple _ _ (pure _) _ => by apply triple_pure
  | |- triple _ ?w (pure ?f ≫= _) _ =>
      eapply (triple_bind _ _ _ _ (λ a, f w = Ok a)); [by apply triple_pure|intros ? ?]
  | |- triple _ _ (call _ ≫= _) _ =>
      eapply (triple_bind _ _ _ _ (λ _, True)); [|intros ? _]
  | |- triple _ _ ((_ ≫= _) ≫= _) _ =>
      eapply (triple_bind _ _ _ _ (λ _, True)); [|intros ? _]
  end.
