(* ===== verification/Graph.v ===== *)
(** * Graphs on identifiers

    Acyclic relations and what one more edge does to them, shared by the dependencies of
    tasks and the hierarchy of agents. *)

From S2P Require Import Prelude.
From stdpp Require Import strings relations.
From Stdlib Require Import String.

(** No node has a path to itself. *)
Definition acyclic (R : relation string) : Prop := ∀ x, ¬ tc R x x.

Lemma tc_subrel (R S : relation string) x y :
  (∀ a b, R a b → S a b) → tc R x y → tc S x y.
Proof. intros HRS. induction 1; [apply tc_once|eapply tc_l]; eauto. Qed.

Lemma acyclic_subrel (R S : relation string) :
  (∀ a b, R a b → S a b) → acyclic S → acyclic R.
Proof. intros HRS HS x Hx. by apply (HS x), (tc_subrel R). Qed.

(** A path in a graph with one more edge either avoids it or ends after its last
    use with a path of the old graph. *)
Lemma tc_new_edge (R : relation string) i p x y :
  tc (λ a b, R a b ∨ (a, b) = (i, p)) x y → tc R x y ∨ rtc R x i ∧ rtc R p y.
Proof.
  induction 1 as [x y [Hxy|[= -> ->]]|x y z [Hxy|[= -> ->]] _ IH].
  - left. by apply tc_once.
  - right. by split.
  - destruct IH as [IH|[??]]; [left; by eapply tc_l|]. right. split; [by eapply rtc_l|done].
  - right. split; [done|]. destruct IH as [IH|[??]]; [by apply tc_rtc|done].
Qed.

Lemma acyclic_new_edge (R : relation string) i p :
  acyclic R → ¬ tc R p i → i ≠ p → acyclic (λ a b, R a b ∨ (a, b) = (i, p)).
Proof.
  intros HR Hpi Hne x [Hx|[Hxi Hpx]]%tc_new_edge; [by apply (HR x)|].
  assert (rtc R p i) as [->|?]%rtc_tc by (by trans x); done.
Qed.

(** Paths stay inside a set of nodes that the edges do not leave. *)
Lemma tc_invariant (R : relation string) (P : string → Prop) x y :
  (∀ a b, R a b → P a → P b) → P x → tc R x y → P y.
Proof. intros HP Hx Hxy. revert Hx. induction Hxy; eauto. Qed.

Lemma tc_avoids_edge (R : relation string) (P : string → Prop) i p x y :
  (∀ a b, R a b → P a → P b) → P x → ¬ P i →
  tc (λ a b, R a b ∨ (a, b) = (i, p)) x y → tc R x y.
Proof.
  intros HP Hx Hi Hxy. revert Hx. induction Hxy as [x y [?|[= -> ->]]|x y z [?|[= -> ->]] _ IH];
    intros; [by apply tc_once|done|eapply tc_l; eauto|done].
Qed.
