(* ===== verification/Outbox.v ===== *)
(** * Events, the transactional outbox and its relay

    Models the event envelope ([contracts/proto/gereh/common/v1]), the
    producer's checks ([platform/go/events/kafka]), the outbox table operations
    ([services/tenant/internal/adapters/postgres/outbox.go]) and the relay
    ([services/tenant/internal/adapters/outbox/relay.go]). The other services
    hold copies of the same outbox and relay. *)

From S2P Require Import Prelude GoStrings Postgres.
From stdpp Require Import strings gmap list sorting.
From Stdlib Require Import String Lia.
Open Scope string_scope.
Open Scope list_scope.
Open Scope Z_scope.

(** [gereh.common.v1.EventEnvelope]; [W] is the type of serialized bytes. *)
Record EventEnvelope (W : Type) := {
  envelope_EventId : string;
  envelope_EventType : string;
  envelope_EventVersion : Z;
  envelope_TenantId : string;
  envelope_AggregateType : string;
  envelope_AggregateId : string;
  envelope_AggregateVersion : Z;
  envelope_OccurredAt : option Z;
  envelope_Producer : string;
  envelope_TraceId : string;
  envelope_CorrelationId : string;
  envelope_CausationId : string;
  envelope_Payload : W;
}.
Arguments envelope_EventId {W} _.
Arguments envelope_EventType {W} _.
Arguments envelope_EventVersion {W} _.
Arguments envelope_TenantId {W} _.
Arguments envelope_AggregateType {W} _.
Arguments envelope_AggregateId {W} _.
Arguments envelope_AggregateVersion {W} _.
Arguments envelope_OccurredAt {W} _.
Arguments envelope_Producer {W} _.
Arguments envelope_TraceId {W} _.
Arguments envelope_CorrelationId {W} _.
Arguments envelope_CausationId {W} _.
Arguments envelope_Payload {W} _.

(** The protobuf runtime: serialized bytes, [proto.Marshal] and
    [proto.Unmarshal] of an envelope, and [timestamppb]'s [CheckValid]. *)
Class Proto := {
  wire : Type;
  marshal_envelope : EventEnvelope wire → option wire;
  unmarshal_envelope : wire → option (EventEnvelope wire);
  timestamp_valid : Z → bool;
}.

(** What the services rely on: unmarshalling inverts marshalling. *)
Class ProtoLaws `{Proto} : Prop :=
  unmarshal_marshal : ∀ e w,
    marshal_envelope e = Some w → unmarshal_envelope w = Some e.

(** ** The outbox table *)

Section Outbox.
Context `{Platform, Proto}.

Record OutboxEvent := {
  event_ID : string;
  event_Topic : string;
  event_Key : string;
  event_Envelope : wire;
  event_OccurredAt : Z;
}.

Record OutboxRecord := {
  record_OutboxID : Z;
  record_Event : OutboxEvent;
  record_Attempts : Z;
}.

Record outbox_row := {
  outbox_TenantID : string;
  outbox_Event : OutboxEvent;
  outbox_AvailableAt : Z;
  outbox_ClaimedAt : option Z;
  outbox_PublishedAt : option Z;
  outbox_Attempts : Z;
  outbox_LastError : option string;
}.

(** The rows by [outbox_id], and the next value of the identity column. *)
Record outbox_table := {
  outbox_rows : gmap Z outbox_row;
  outbox_next : Z;
}.

Definition outbox_has_event (ob : outbox_table) (eventID : string) : bool :=
  existsb (λ r, String.eqb (event_ID (outbox_Event r.2)) eventID)
    (map_to_list (outbox_rows ob)).

(** The [INSERT] of [insertOutbox] at time [clock]. *)
Definition sql_insert_outbox (clock : Z) (tenantID : string) (event : OutboxEvent)
    (ob : outbox_table) : result db_error outbox_table :=
  tid ← from_option_err ErrInvalidUUID (uuid_in tenantID);
  eid ← from_option_err ErrInvalidUUID (uuid_in (event_ID event));
  fail_if (outbox_has_event ob eid) (ErrUniqueViolation "tenant_outbox_event_id_unique");;
  let row := {|
    outbox_TenantID := tid;
    outbox_Event := {| event_ID := eid; event_Topic := event_Topic event;
                       event_Key := event_Key event;
                       event_Envelope := event_Envelope event;
                       event_OccurredAt := event_OccurredAt event |};
    outbox_AvailableAt := clock; outbox_ClaimedAt := None;
    outbox_PublishedAt := None; outbox_Attempts := 0; outbox_LastError := None |} in
  Ok {| outbox_rows := <[outbox_next ob := row]> (outbox_rows ob);
        outbox_next := outbox_next ob + 1 |}.

(** ** outbox.go

    [Milliseconds] truncates a duration in nanoseconds towards zero. *)
Definition Milliseconds (d : Z) : Z := Z.quot d 1000000.

(** The [WHERE] clause of the claim; [locked] says which rows another
    transaction holds, which [SKIP LOCKED] passes over. *)
Definition claimable (clock lease : Z) (locked : Z → bool) (r : Z * outbox_row) : bool :=
  match outbox_PublishedAt r.2 with Some _ => false | None => true end
  && (outbox_AvailableAt r.2 <=? clock)
  && match outbox_ClaimedAt r.2 with
     | None => true
     | Some t => t <? clock - Milliseconds lease * 1000000
     end
  && negb (locked r.1).

(** [ORDER BY outbox_id] *)
Definition row_le (a b : Z * outbox_row) : Prop := a.1 ≤ b.1.
#[export] Instance row_le_dec : RelDecision row_le.
Proof. intros a b. apply Z_le_dec. Defined.

Definition rows_in_order (ob : outbox_table) : list (Z * outbox_row) :=
  merge_sort row_le (map_to_list (outbox_rows ob)).

Definition claim_candidates (clock lease limit : Z) (locked : Z → bool)
    (ob : outbox_table) : list (Z * outbox_row) :=
  take (Z.to_nat limit)
    (List.filter (claimable clock lease locked) (rows_in_order ob)).

Definition claim_row (clock : Z) (r : outbox_row) : outbox_row := {|
  outbox_TenantID := outbox_TenantID r; outbox_Event := outbox_Event r;
  outbox_AvailableAt := outbox_AvailableAt r; outbox_ClaimedAt := Some clock;
  outbox_PublishedAt := outbox_PublishedAt r;
  outbox_Attempts := outbox_Attempts r + 1;
  outbox_LastError := outbox_LastError r |}.

Definition record_of_row (r : Z * outbox_row) : OutboxRecord := {|
  record_OutboxID := r.1; record_Event := outbox_Event r.2;
  record_Attempts := outbox_Attempts r.2 |}.

(** [ClaimOutbox]: one statement that selects the candidates and stamps them.
    SQL does not promise an order for the returned rows: [arrange] is the order
    the server picks. *)
Definition ClaimOutbox (arrange : list OutboxRecord → list OutboxRecord)
    (clock lease limit : Z) (locked : Z → bool) (ob : outbox_table)
  : list OutboxRecord * outbox_table :=
  let claimed := prod_map id (claim_row clock) <$>
                 claim_candidates clock lease limit locked ob in
  (arrange (record_of_row <$> claimed),
   {| outbox_rows := list_to_map claimed ∪ outbox_rows ob;
      outbox_next := outbox_next ob |}).

Definition alter_row (f : outbox_row → outbox_row) (outboxID : Z) (ob : outbox_table)
  : outbox_table :=
  {| outbox_rows := alter f outboxID (outbox_rows ob); outbox_next := outbox_next ob |}.

Definition MarkOutboxPublished (clock outboxID : Z) : outbox_table → outbox_table :=
  alter_row (λ r, {|
    outbox_TenantID := outbox_TenantID r; outbox_Event := outbox_Event r;
    outbox_AvailableAt := outbox_AvailableAt r; outbox_ClaimedAt := None;
    outbox_PublishedAt := Some clock; outbox_Attempts := outbox_Attempts r;
    outbox_LastError := None |}) outboxID.

(** [publishError[:2000]] *)
Definition truncate_error (publishError : string) : string :=
  if 2000 <? len publishError then substring 0 2000 publishError else publishError.

Definition ReleaseOutbox (outboxID retryAt : Z) (publishError : string)
  : outbox_table → outbox_table :=
  alter_row (λ r,
    match outbox_PublishedAt r with
    | Some _ => r
    | None => {|
        outbox_TenantID := outbox_TenantID r; outbox_Event := outbox_Event r;
        outbox_AvailableAt := retryAt; outbox_ClaimedAt := None;
        outbox_PublishedAt := None; outbox_Attempts := outbox_Attempts r;
        outbox_LastError := Some (truncate_error publishError) |}
    end) outboxID.

(** ** The producer (platform/go/events/kafka) *)

Definition validateEnvelope (envelope : EventEnvelope wire) : bool :=
  negb (String.eqb (envelope_EventId envelope) "")
  && negb (String.eqb (envelope_EventType envelope) "")
  && negb (envelope_EventVersion envelope =? 0)
  && match envelope_OccurredAt envelope with
     | Some t => timestamp_valid t
     | None => true
     end.

(** The record's key: the given one, else the aggregate, else the event. *)
Definition record_key (key : string) (envelope : EventEnvelope wire) : string :=
  if negb (String.eqb key "") then key
  else if negb (String.eqb (envelope_AggregateId envelope) "")
  then envelope_AggregateId envelope
  else envelope_EventId envelope.

(** [normalizeEnvelope], on the producer's copy. *)
Definition normalizeEnvelope (now : Z) (e : EventEnvelope wire) : EventEnvelope wire := {|
  envelope_EventId := envelope_EventId e; envelope_EventType := envelope_EventType e;
  envelope_EventVersion := envelope_EventVersion e;
  envelope_TenantId := envelope_TenantId e;
  envelope_AggregateType := envelope_AggregateType e;
  envelope_AggregateId := envelope_AggregateId e;
  envelope_AggregateVersion := envelope_AggregateVersion e;
  envelope_OccurredAt := Some (default now (envelope_OccurredAt e));
  envelope_Producer := envelope_Producer e; envelope_TraceId := envelope_TraceId e;
  envelope_CorrelationId := envelope_CorrelationId e;
  envelope_CausationId := envelope_CausationId e; envelope_Payload := envelope_Payload e |}.

(** The trace of the publishing span fills in a missing one; [span] is empty when
    the context carries no valid span. *)
Definition traced (span : string) (e : EventEnvelope wire) : EventEnvelope wire := {|
  envelope_EventId := envelope_EventId e; envelope_EventType := envelope_EventType e;
  envelope_EventVersion := envelope_EventVersion e;
  envelope_TenantId := envelope_TenantId e;
  envelope_AggregateType := envelope_AggregateType e;
  envelope_AggregateId := envelope_AggregateId e;
  envelope_AggregateVersion := envelope_AggregateVersion e;
  envelope_OccurredAt := envelope_OccurredAt e; envelope_Producer := envelope_Producer e;
  envelope_TraceId :=
    if String.eqb (envelope_TraceId e) "" then span else envelope_TraceId e;
  envelope_CorrelationId := envelope_CorrelationId e;
  envelope_CausationId := envelope_CausationId e; envelope_Payload := envelope_Payload e |}.

(** What the broker did with a produced record. *)
Inductive broker_outcome :=
| Acknowledged   (* stored, and the producer knows it *)
| Unacknowledged (* stored, but the producer sees an error *)
| Refused.       (* not stored, the producer sees an error *)

(** A stored record: topic, key and event. *)
Definition kafka_record : Type := string * string * EventEnvelope wire.

(** [Publish]: [true] when it returns a nil error, with the records stored. *)
Definition Publish (outcome : broker_outcome) (now : Z) (span : string)
    (topic key : string) (envelope : EventEnvelope wire) (log : list kafka_record)
  : bool * list kafka_record :=
  if String.eqb topic "" then (false, log)
  else if negb (validateEnvelope envelope) then (false, log)
  else
    let envelope := traced span (normalizeEnvelope now envelope) in
    match marshal_envelope envelope with
       | None => (false, log)
       | Some _ =>
           let stored := log ++ [(topic, record_key key envelope, envelope)] in
           match outcome with
           | Acknowledged => (true, stored)
           | Unacknowledged => (false, stored)
           | Refused => (false, log)
           end
       end.

(** ** relay.go *)

Record relay_config := {
  config_BatchSize : Z;
  config_PollInterval : Z;
  config_Lease : Z;
  config_MaxBackoff : Z;
}.

(** The checks of [New] on the configuration. *)
Definition relay_config_valid (c : relay_config) : bool :=
  (0 <? config_BatchSize c) && (0 <? config_PollInterval c)
  && (0 <? config_Lease c) && (0 <? config_MaxBackoff c).

(** The environment of one batch: clock, claims by other relays, the broker and
    the connection to the database. *)
Record relay_env := {
  re_clock : Z;
  re_locked : Z → bool;
  re_arrange : list OutboxRecord → list OutboxRecord;
  re_broker : OutboxRecord → broker_outcome;
  re_span : string;
  re_claim_ok : bool;
  re_mark_ok : Z → bool;
  re_release_ok : Z → bool;
  re_error : OutboxRecord → string;
}.

Record relay_state := {
  rs_outbox : outbox_table;
  rs_log : list kafka_record;
}.

Definition second : Z := 1000000000.

(** [min(2^min(attempts, 10) s, MaxBackoff)]; [math.Pow] of a negative exponent
    truncates to zero. *)
Definition backoff (c : relay_config) (attempts : Z) : Z :=
  let exponent := Z.min attempts 10 in
  Z.min (second * (if exponent <? 0 then 0 else 2 ^ exponent)) (config_MaxBackoff c).

Definition release (c : relay_config) (ev : relay_env) (record : OutboxRecord)
    (ob : outbox_table) : outbox_table :=
  if re_release_ok ev (record_OutboxID record)
  then ReleaseOutbox (record_OutboxID record)
         (re_clock ev + backoff c (record_Attempts record)) (re_error ev record) ob
  else ob.

(** The body of the loop over the claimed records. *)
Definition process_record (c : relay_config) (ev : relay_env) (st : relay_state)
    (record : OutboxRecord) : relay_state :=
  match unmarshal_envelope (event_Envelope (record_Event record)) with
  | None => {| rs_outbox := release c ev record (rs_outbox st); rs_log := rs_log st |}
  | Some envelope =>
      let '(published, log) :=
        Publish (re_broker ev record) (re_clock ev) (re_span ev) (event_Topic (record_Event record))
          (event_Key (record_Event record)) envelope (rs_log st) in
      if published then
        {| rs_outbox :=
             if re_mark_ok ev (record_OutboxID record)
             then MarkOutboxPublished (re_clock ev) (record_OutboxID record) (rs_outbox st)
             else rs_outbox st;
           rs_log := log |}
      else {| rs_outbox := release c ev record (rs_outbox st); rs_log := log |}
  end.

(** [processBatch]: whether it claimed anything, and the state it leaves. *)
Definition processBatch (c : relay_config) (ev : relay_env) (st : relay_state)
  : bool * relay_state :=
  if re_claim_ok ev then
    let '(records, ob) :=
      ClaimOutbox (re_arrange ev) (re_clock ev) (config_Lease c)
        (config_BatchSize c) (re_locked ev) (rs_outbox st) in
    (negb (List.length records =? 0)%nat,
     foldl (process_record c ev) {| rs_outbox := ob; rs_log := rs_log st |} records)
  else (false, st).

End Outbox.
