(* ===== verification/OutboxProperties.v ===== *)
(** * The outbox and its relay: properties

    What a claim, a mark, a release and a batch do to the rows of the outbox. *)

From S2P Require Import Prelude GoStrings Postgres Outbox.
From stdpp Require Import strings gmap list sorting.
From Stdlib Require Import String Lia.
Open Scope string_scope.
Open Scope list_scope.
Open Scope Z_scope.

Section Properties.
Context `{Platform, Proto}.

(** The relay changes delivery columns only. *)
Definition same_events (ob ob' : outbox_table) : Prop :=
  outbox_next ob' = outbox_next ob ∧
  ∀ k, (λ r, (outbox_TenantID r, outbox_Event r)) <$> (outbox_rows ob' !! k) =
       (λ r, (outbox_TenantID r, outbox_Event r)) <$> (outbox_rows ob !! k).

#[global] Instance same_events_preorder : PreOrder same_events.
Proof.
  split; [by intros ob|]. intros ob1 ob2 ob3 [Hn1 Hk1] [Hn2 Hk2].
  split; [congruence|]. intros k. by rewrite Hk2.
Qed.

(** ** What the outbox holds

    [holds P ob]: some row has a tenant and an event that satisfy [P]. *)
Definition holds (P : string → OutboxEvent → Prop) (ob : outbox_table) : Prop :=
  ∃ k row, outbox_rows ob !! k = Some row ∧ P (outbox_TenantID row) (outbox_Event row).

(** The identity column is ahead of every row. *)
Definition outbox_fresh (ob : outbox_table) : Prop :=
  ∀ k, is_Some (outbox_rows ob !! k) → k < outbox_next ob.

Lemma holds_same_events P ob ob' : same_events ob ob' → holds P ob → holds P ob'.
Proof.
  intros [_ Hk] (k & row & Hr & HP). specialize (Hk k). rewrite Hr in Hk.
  destruct (outbox_rows ob' !! k) as [r'|] eqn:Hr'; [|done]. injection Hk as HT He.
  exists k, r'. by rewrite HT, He.
Qed.

Lemma fresh_same_events ob ob' : same_events ob ob' → outbox_fresh ob → outbox_fresh ob'.
Proof.
  intros [Hn Hs] Hf k Hk. rewrite Hn. apply Hf. specialize (Hs k).
  destruct (outbox_rows ob' !! k); [|by destruct Hk]. by destruct (outbox_rows ob !! k).
Qed.

(** The stored form of an event: its identifier is a [uuid] value. *)
Definition stored_event (eid : string) (event : OutboxEvent) : OutboxEvent := {|
  event_ID := eid; event_Topic := event_Topic event; event_Key := event_Key event;
  event_Envelope := event_Envelope event; event_OccurredAt := event_OccurredAt event |}.

Lemma insert_outbox_spec clock tenantID event ob ob' :
  sql_insert_outbox clock tenantID event ob = Ok ob' → outbox_fresh ob →
  outbox_fresh ob' ∧ (∀ P, holds P ob → holds P ob') ∧
  ∃ t eid, uuid_in tenantID = Some t ∧ uuid_in (event_ID event) = Some eid ∧
    holds (λ t' e, t' = t ∧ e = stored_event eid event) ob'.
Proof.
  unfold sql_insert_outbox. intros Hob Hf. result_inv Hob. simplify_eq. split_and!.
  - intros k Hk. cbn in *. apply lookup_insert_is_Some' in Hk as [<-|Hk%Hf]; lia.
  - intros P (k & r & Hk & Hr). exists k, r. split; [|done]. cbn.
    rewrite lookup_insert_ne; [done|]. intros <-.
    cut (outbox_next ob < outbox_next ob); [lia|]. apply Hf. by exists r.
  - do 2 eexists. split_and!; [done..|]. eexists _, _. cbn.
    by rewrite lookup_insert_eq.
Qed.

Lemma same_events_alter f k ob :
  (∀ r, outbox_TenantID (f r) = outbox_TenantID r ∧ outbox_Event (f r) = outbox_Event r) →
  same_events ob (alter_row f k ob).
Proof.
  intros Hf. split; [done|]. intros k'. cbn. destruct (decide (k = k')) as [->|].
  - rewrite lookup_alter_eq. destruct (outbox_rows ob !! k'); [|done]. cbn.
    by destruct (Hf o) as [-> ->].
  - by rewrite lookup_alter_ne.
Qed.

Lemma same_events_release c ev record ob : same_events ob (release c ev record ob).
Proof.
  unfold release. destruct (re_release_ok _ _); [|done].
  apply same_events_alter. intros r. by destruct (outbox_PublishedAt r).
Qed.

Lemma same_events_process c ev st record :
  same_events (rs_outbox st) (rs_outbox (process_record c ev st record)).
Proof.
  unfold process_record. destruct (unmarshal_envelope _) as [envelope|];
    [|apply same_events_release].
  destruct (Publish _ _ _ _ _ _ _) as [[] log]; [|apply same_events_release].
  cbn. destruct (re_mark_ok _ _); [|done]. by apply same_events_alter.
Qed.

Lemma claim_candidates_spec clock lease limit locked ob x :
  x ∈ claim_candidates clock lease limit locked ob →
  outbox_rows ob !! x.1 = Some x.2 ∧ claimable clock lease locked x = true.
Proof.
  unfold claim_candidates, rows_in_order.
  intros (i & [Hin Hcl]%list_elem_of_lookup_2%elem_of_filter_b & _)%elem_of_take.
  split; [|done]. rewrite merge_sort_Permutation in Hin.
  destruct x as [k r]. by apply elem_of_map_to_list.
Qed.

Lemma claim_candidates_NoDup clock lease limit locked ob :
  NoDup (fst <$> claim_candidates clock lease limit locked ob).
Proof.
  unfold claim_candidates, rows_in_order.
  eapply sublist_NoDup; [|apply (fmap_sublist fst), sublist_take].
  apply NoDup_fmap_filter. rewrite merge_sort_Permutation. apply NoDup_fst_map_to_list.
Qed.

(** The table after a claim, row by row. *)
Lemma ClaimOutbox_lookup arrange clock lease limit locked ob k :
  outbox_rows (ClaimOutbox arrange clock lease limit locked ob).2 !! k =
  match outbox_rows ob !! k with
  | Some r =>
      Some (if decide (k ∈ (claim_candidates clock lease limit locked ob).*1)
            then claim_row clock r else r)
  | None => None
  end.
Proof.
  unfold ClaimOutbox. cbn. set (l := claim_candidates _ _ _ _ _).
  rewrite lookup_union.
  destruct (list_to_map (prod_map id (claim_row clock) <$> l) !! k) as [r'|] eqn:Hl.
  - apply elem_of_list_to_map_2 in Hl.
    apply list_elem_of_fmap in Hl as ([k' r] & [= -> ->] & Hin).
    destruct (claim_candidates_spec _ _ _ _ _ _ Hin) as [Hr _]. cbn in Hr.
    rewrite Hr. cbn. rewrite decide_True; [done|].
    apply list_elem_of_fmap. by exists (k', r).
  - apply not_elem_of_list_to_map_2 in Hl.
    destruct (outbox_rows ob !! k) as [r|] eqn:Hr; [|done]. cbn.
    rewrite decide_False; [done|]. intros Hin. apply Hl. by rewrite <-list_fmap_compose.
Qed.

Lemma same_events_claim arrange clock lease limit locked ob :
  same_events ob (ClaimOutbox arrange clock lease limit locked ob).2.
Proof.
  split; [done|]. intros k. rewrite ClaimOutbox_lookup.
  destruct (outbox_rows ob !! k) as [r|]; [|done]. cbn. by destruct (decide _).
Qed.

Lemma same_events_batch c ev st b st' :
  processBatch c ev st = (b, st') → same_events (rs_outbox st) (rs_outbox st').
Proof.
  unfold processBatch. destruct (re_claim_ok ev); [|by intros [= _ <-]].
  destruct (ClaimOutbox _ _ _ _ _ _) as [records ob] eqn:Hcl.
  intros [= _ <-]. transitivity ob.
  { by pose proof (same_events_claim (re_arrange ev) (re_clock ev) (config_Lease c)
                  (config_BatchSize c) (re_locked ev) (rs_outbox st)) as Hs; rewrite Hcl in Hs. }
  generalize (rs_log st). clear Hcl. revert ob.
  induction records as [|record records IH]; intros ob log; cbn; [done|].
  etrans; [apply (same_events_process c ev {| rs_outbox := ob; rs_log := log |} record)|].
  destruct (process_record _ _ _ _) as [ob' log']. apply IH.
Qed.

(** ** Claims *)

(** A claim is exclusive for its lease. Rows that one relay has claimed are
    not claimed again, by it or by another, before the lease has passed, unless
    they were released in between; and a claim takes only rows that are not
    published and whose retry time has come. *)
Theorem claim_exclusive arrange clock1 clock2 lease limit1 limit2 locked1 locked2 ob x y :
  x ∈ claim_candidates clock1 lease limit1 locked1 ob →
  y ∈ claim_candidates clock2 lease limit2 locked2
        (ClaimOutbox arrange clock1 lease limit1 locked1 ob).2 →
  clock2 ≤ clock1 + Milliseconds lease * 1000000 →
  y.1 ≠ x.1 ∧ outbox_PublishedAt x.2 = None ∧ outbox_AvailableAt x.2 ≤ clock1.
Proof.
  intros Hx [Hy Hcy]%claim_candidates_spec Hclock.
  destruct (claim_candidates_spec _ _ _ _ _ _ Hx) as [Hrow Hcx]. split_and!.
  - intros Heq. rewrite ClaimOutbox_lookup, Heq, Hrow, decide_True in Hy
      by (apply list_elem_of_fmap; by exists x).
    injection Hy as Hy. unfold claimable in Hcy. rewrite <-Hy in Hcy. cbn in Hcy.
    bool_facts. lia.
  - unfold claimable in Hcx. destruct (outbox_PublishedAt x.2); [done|done].
  - unfold claimable in Hcx. bool_facts. done.
Qed.

(** ** Delivery *)

(** The record the broker holds for an event: its envelope, completed with a time
    and a trace where it has none. *)
Definition logged (event : OutboxEvent) (log : list kafka_record) : Prop :=
  ∃ envelope now span, unmarshal_envelope (event_Envelope event) = Some envelope ∧
    let stored := traced span (normalizeEnvelope now envelope) in
    (event_Topic event, record_key (event_Key event) stored, stored) ∈ log.

(** Every row marked as published is in the broker's log. *)
Definition delivered (st : relay_state) : Prop :=
  ∀ k row, outbox_rows (rs_outbox st) !! k = Some row →
    is_Some (outbox_PublishedAt row) → logged (outbox_Event row) (rs_log st).

Lemma Publish_log outcome now span topic key envelope log :
  let '(published, log') := Publish outcome now span topic key envelope log in
  let stored := traced span (normalizeEnvelope now envelope) in
  (∀ x, x ∈ log → x ∈ log') ∧
  (published = true → (topic, record_key key stored, stored) ∈ log').
Proof.
  unfold Publish. destruct (String.eqb topic ""); [done|].
  destruct (negb _); [done|]. destruct (marshal_envelope _); [|done].
  destruct outcome; split; try done; intros; rewrite elem_of_app; auto; right; set_solver.
Qed.

Lemma delivered_outbox ob ob' log log' :
  delivered {| rs_outbox := ob; rs_log := log |} → (∀ x, x ∈ log → x ∈ log') →
  (∀ k row, outbox_rows ob' !! k = Some row → is_Some (outbox_PublishedAt row) →
     (∃ row0, outbox_rows ob !! k = Some row0 ∧ is_Some (outbox_PublishedAt row0) ∧
        outbox_Event row0 = outbox_Event row) ∨ logged (outbox_Event row) log') →
  delivered {| rs_outbox := ob'; rs_log := log' |}.
Proof.
  intros Hd Hlog Hrows k row Hk Hp. destruct (Hrows _ _ Hk Hp) as [(r0 & Hr0 & Hp0 & <-)|Hl].
  - destruct (Hd _ _ Hr0 Hp0) as (env & now & span & Henv & Hin). exists env, now, span. auto.
  - done.
Qed.

Lemma release_rows c ev record ob k row :
  outbox_rows (release c ev record ob) !! k = Some row → is_Some (outbox_PublishedAt row) →
  outbox_rows ob !! k = Some row.
Proof.
  unfold release. destruct (re_release_ok _ _); [|done]. unfold ReleaseOutbox. cbn.
  destruct (decide (record_OutboxID record = k)) as [->|]; [|by rewrite lookup_alter_ne].
  rewrite lookup_alter_eq. destruct (outbox_rows ob !! k) as [r|]; [|done].
  cbn. destruct (outbox_PublishedAt r) eqn:Hp; intros [= <-]; [done|by intros []].
Qed.

(** The row a record was claimed from still holds its event. *)
Definition record_matches (ob : outbox_table) (record : OutboxRecord) : Prop :=
  ∃ row, outbox_rows ob !! record_OutboxID record = Some row ∧
    outbox_Event row = record_Event record.

Lemma delivered_process c ev st record :
  delivered st → record_matches (rs_outbox st) record →
  delivered (process_record c ev st record).
Proof.
  destruct st as [ob log]. intros Hd (row0 & Hrow0 & Hevent). cbn in Hrow0.
  assert (Hrel : ∀ log', (∀ x, x ∈ log → x ∈ log') →
    delivered {| rs_outbox := release c ev record ob; rs_log := log' |}).
  { intros log' Hlog. eapply delivered_outbox; [exact Hd|exact Hlog|].
    intros k row Hk Hp. left. exists row. split; [by eapply release_rows|done]. }
  unfold process_record. cbn.
  destruct (unmarshal_envelope _) as [envelope|] eqn:Henv; [|by apply Hrel].
  pose proof (Publish_log (re_broker ev record) (re_clock ev) (re_span ev) (event_Topic (record_Event record))
    (event_Key (record_Event record)) envelope log) as Hpub.
  destruct (Publish _ _ _ _ _ _ _) as [[] log']; destruct Hpub as [Hlog Hin];
    [|by apply Hrel].
  specialize (Hin eq_refl). destruct (re_mark_ok _ _).
  - eapply delivered_outbox; [exact Hd|exact Hlog|]. intros k row Hk Hp. cbn in Hk.
    destruct (decide (record_OutboxID record = k)) as [<-|Hne].
    + rewrite lookup_alter_eq, Hrow0 in Hk. injection Hk as <-. right.
      exists envelope, (re_clock ev), (re_span ev). cbn. by rewrite Hevent.
    + rewrite lookup_alter_ne in Hk by done. left. by exists row.
  - eapply delivered_outbox; [exact Hd|exact Hlog|]. eauto.
Qed.

Lemma record_matches_same ob ob' record :
  same_events ob ob' → record_matches ob record → record_matches ob' record.
Proof.
  intros [_ Hk] (row & Hrow & Hev). specialize (Hk (record_OutboxID record)).
  rewrite Hrow in Hk. destruct (outbox_rows ob' !! _) as [row'|] eqn:Hr'; [|done].
  injection Hk as _ Hk. exists row'. split; [done|congruence].
Qed.

Lemma claimed_records_match arrange clock lease limit locked ob record :
  (∀ l, arrange l ≡ₚ l) →
  record ∈ (ClaimOutbox arrange clock lease limit locked ob).1 →
  record_matches (ClaimOutbox arrange clock lease limit locked ob).2 record.
Proof.
  intros Harr Hin. unfold ClaimOutbox in Hin. cbn [fst] in Hin. rewrite Harr in Hin.
  apply list_elem_of_fmap in Hin as (x & -> & ([k r] & -> & Hx)%list_elem_of_fmap).
  destruct (claim_candidates_spec _ _ _ _ _ _ Hx) as [Hr _].
  exists (claim_row clock r). cbn [record_OutboxID record_of_row prod_map fst].
  rewrite ClaimOutbox_lookup. cbn in Hr |- *. rewrite Hr, decide_True; [done|].
  apply list_elem_of_fmap. by exists (k, r).
Qed.

Lemma delivered_claim arrange clock lease limit locked ob log :
  delivered {| rs_outbox := ob; rs_log := log |} →
  delivered {| rs_outbox := (ClaimOutbox arrange clock lease limit locked ob).2;
               rs_log := log |}.
Proof.
  intros Hd. eapply delivered_outbox; [exact Hd|done|].
  intros k row Hk Hp. left. rewrite ClaimOutbox_lookup in Hk.
  destruct (outbox_rows ob !! k) as [r|] eqn:Hr; [|done]. exists r.
  injection Hk as <-. by destruct (decide _).
Qed.

(** C19 (published means stored). A batch of the relay marks a row as published
    only when the broker has stored the row's event under its topic and key, for
    every outcome of the broker and of the database: an acknowledged record whose
    mark is lost is sent again later, a record is never marked without having
    been stored. *)
Theorem published_is_logged c ev st b st' :
  (∀ l, re_arrange ev l ≡ₚ l) → delivered st →
  processBatch c ev st = (b, st') → delivered st'.
Proof.
  unfold processBatch. intros Harr Hd. destruct (re_claim_ok ev); [|by intros [= _ <-]].
  pose proof (claimed_records_match (re_arrange ev) (re_clock ev) (config_Lease c)
    (config_BatchSize c) (re_locked ev) (rs_outbox st)) as Hmatch.
  pose proof (delivered_claim (re_arrange ev) (re_clock ev) (config_Lease c)
    (config_BatchSize c) (re_locked ev) (rs_outbox st) (rs_log st)) as Hclaim.
  destruct (ClaimOutbox _ _ _ _ _ _) as [records ob]. cbn in Hmatch, Hclaim.
  destruct st as [ob0 log]. specialize (Hclaim Hd). intros [= _ <-]. cbn.
  assert (Hall : ∀ record, record ∈ records → record_matches ob record) by auto.
  clear Hmatch Hd. revert ob log Hclaim Hall.
  induction records as [|record records IH]; intros ob log Hclaim Hall; cbn; [done|].
  pose proof (same_events_process c ev {| rs_outbox := ob; rs_log := log |} record) as Hs.
  pose proof (delivered_process c ev {| rs_outbox := ob; rs_log := log |} record Hclaim
    (Hall _ ltac:(left))) as Hd.
  destruct (process_record _ _ _ _) as [ob' log']. apply IH; [done|].
  intros record' Hin. eapply record_matches_same; [exact Hs|]. apply Hall. by right.
Qed.

(** The row is marked as published at this time. *)
Definition marked (clock k : Z) (ob : outbox_table) : Prop :=
  ∃ row, outbox_rows ob !! k = Some row ∧ outbox_PublishedAt row = Some clock.

(** A record the producer accepts. *)
Definition publishable (record : OutboxRecord) : Prop :=
  ∃ envelope, unmarshal_envelope (event_Envelope (record_Event record)) = Some envelope ∧
    event_Topic (record_Event record) ≠ "" ∧ validateEnvelope envelope = true ∧
    ∀ now span, is_Some (marshal_envelope (traced span (normalizeEnvelope now envelope))).

Lemma marked_release c ev record clock k ob :
  marked clock k ob → marked clock k (release c ev record ob).
Proof.
  intros (row & Hrow & Hp). unfold release. destruct (re_release_ok _ _); [|by exists row].
  exists row. split; [|done]. cbn. destruct (decide (record_OutboxID record = k)) as [->|].
  - rewrite lookup_alter_eq, Hrow. cbn. by rewrite Hp.
  - by rewrite lookup_alter_ne.
Qed.

Lemma marked_process c ev st record k :
  marked (re_clock ev) k (rs_outbox st) →
  marked (re_clock ev) k (rs_outbox (process_record c ev st record)).
Proof.
  intros Hm. unfold process_record.
  destruct (unmarshal_envelope _); [|by apply marked_release].
  destruct (Publish _ _ _ _ _ _ _) as [[] log]; [|by apply marked_release].
  cbn. destruct (re_mark_ok _ _); [|done]. destruct Hm as (row & Hrow & Hp).
  unfold marked. cbn. destruct (decide (record_OutboxID record = k)) as [->|].
  - rewrite lookup_alter_eq, Hrow. by eexists.
  - rewrite lookup_alter_ne by done. by exists row.
Qed.

Lemma marked_batch c ev records st k :
  marked (re_clock ev) k (rs_outbox st) →
  marked (re_clock ev) k (rs_outbox (foldl (process_record c ev) st records)).
Proof.
  revert st. induction records as [|r records IH]; intros st Hm; cbn; [done|].
  by apply IH, marked_process.
Qed.

Lemma process_publishes c ev st record :
  re_broker ev record = Acknowledged → re_mark_ok ev (record_OutboxID record) = true →
  publishable record → record_matches (rs_outbox st) record →
  marked (re_clock ev) (record_OutboxID record) (rs_outbox (process_record c ev st record)).
Proof.
  intros Hb Hm (env & Hu & Ht & Hv & Hma) (row & Hrow & _).
  unfold process_record. rewrite Hu, Hb. unfold Publish.
  apply String.eqb_neq in Ht as ->. rewrite Hv. cbv zeta.
  destruct (Hma (re_clock ev) (re_span ev)) as [w ->]. cbn.
  rewrite Hm. unfold marked. cbn. rewrite lookup_alter_eq, Hrow. by eexists.
Qed.

(** C36 (a healthy batch delivers what it claims). When the connection works and
    the broker acknowledges every record, every claimed row whose event the
    producer accepts is marked as published by the end of the batch, whatever
    order the rows were returned in. *)
Theorem healthy_batch_publishes c ev st b st' record :
  (∀ l, re_arrange ev l ≡ₚ l) → re_claim_ok ev = true →
  (∀ r, re_broker ev r = Acknowledged) → (∀ k, re_mark_ok ev k = true) →
  processBatch c ev st = (b, st') →
  record ∈ (ClaimOutbox (re_arrange ev) (re_clock ev) (config_Lease c)
              (config_BatchSize c) (re_locked ev) (rs_outbox st)).1 →
  publishable record → marked (re_clock ev) (record_OutboxID record) (rs_outbox st').
Proof.
  unfold processBatch. intros Harr -> Hb Hm.
  pose proof (claimed_records_match (re_arrange ev) (re_clock ev) (config_Lease c)
    (config_BatchSize c) (re_locked ev) (rs_outbox st)) as Hmatch.
  destruct (ClaimOutbox _ _ _ _ _ _) as [records ob]. cbn in Hmatch |- *.
  intros [= _ <-] Hin Hpub. specialize (Hmatch record Harr Hin).
  generalize (rs_log st). clear Harr. revert ob Hmatch.
  induction records as [|r records IH]; intros ob Hmatch log; cbn;
    [by apply not_elem_of_nil in Hin|].
  apply elem_of_cons in Hin as [->|Hin].
  - apply marked_batch, process_publishes; auto.
  - pose proof (same_events_process c ev {| rs_outbox := ob; rs_log := log |} r) as Hs.
    destruct (process_record c ev _ r) as [ob' log']. apply IH; [done|].
    by eapply record_matches_same.
Qed.

(** ** Retries *)

(** Backoff. With a valid configuration the delay before the next attempt of a
    claimed record, whose attempts are at least one, is positive, never exceeds
    the configured maximum, and does not decrease as the attempts grow. *)
Theorem backoff_bounds c attempts attempts' :
  relay_config_valid c = true → 1 ≤ attempts ≤ attempts' →
  0 < backoff c attempts ≤ config_MaxBackoff c ∧ backoff c attempts ≤ backoff c attempts'.
Proof.
  unfold relay_config_valid, backoff, second. intros Hc Ha. bool_facts.
  destruct (Z.ltb_spec (Z.min attempts 10) 0); [lia|].
  destruct (Z.ltb_spec (Z.min attempts' 10) 0); [lia|].
  pose proof (Z.pow_pos_nonneg 2 (Z.min attempts 10)).
  pose proof (Z.pow_le_mono_r 2 (Z.min attempts 10) (Z.min attempts' 10)). lia.
Qed.

End Properties.

