(* ===== verification/Consumer.v ===== *)
(** * The Kafka consumer

    Models [codec.go], [message.go] and [consumer.go] of [platform/go/events/kafka], and the
    start offset of its [config.go]: record headers, the decoding of records, and [Consumer.Run], which handles one
    record after the other and commits each before it looks at the next. The client
    library (franz-go) is a parameter: what its polls return and how its commits end. *)

From S2P Require Import Prelude GoStrings Postgres Outbox.
From stdpp Require Import strings gmap list pretty.
From Stdlib Require Import String Lia.
Open Scope string_scope.
Open Scope list_scope.
Open Scope Z_scope.

(** ** message.go *)

Definition HeaderContentType := "content-type".
Definition HeaderEventID := "gereh-event-id".
Definition HeaderEventType := "gereh-event-type".
Definition HeaderEventVersion := "gereh-event-version".
Definition HeaderTenantID := "gereh-tenant-id".
Definition ProtobufContentType := "application/x-protobuf".

Definition eventRecordHeaders {W} (envelope : EventEnvelope W) : list (string * string) := [
  (HeaderContentType, ProtobufContentType);
  (HeaderEventID, envelope_EventId envelope);
  (HeaderEventType, envelope_EventType envelope);
  (HeaderEventVersion, pretty (envelope_EventVersion envelope));
  (HeaderTenantID, envelope_TenantId envelope)].

Definition recordHeaders (headers : list (string * string)) : gmap string (list string) :=
  foldl (λ values header,
    <[header.1 := default [] (values !! header.1) ++ [header.2]]> values) ∅ headers.

(** ** consumer.go *)

Section Consumer.
Context `{Platform, Proto}.

(** The fields of [kgo.Record] that the consumer reads. *)
Record kgo_Record := {
  kgo_Topic : string;
  kgo_Key : string;
  kgo_Value : wire;
  kgo_Headers : list (string * string);
  kgo_Partition : Z;
  kgo_Offset : Z;
  kgo_Timestamp : Z;
}.

Record Message := {
  message_Topic : string;
  message_Key : string;
  message_Envelope : EventEnvelope wire;
  message_Headers : gmap string (list string);
  message_Partition : Z;
  message_Offset : Z;
  message_Timestamp : Z;
}.

(** Where a group without a committed offset begins to read. *)
Inductive ConsumerStartOffset :=
| ConsumerStartOffsetEarliest
| ConsumerStartOffsetLatest.

Definition DefaultConfig_ConsumerStartOffset := ConsumerStartOffsetLatest.

(** [ConsumeResetOffset] of [NewConsumer], for a partition that ends at the offset [end_]
    when it is assigned: [AtStart] or [AtEnd]. *)
Definition resetOffset (start : ConsumerStartOffset) (end_ : Z) : Z :=
  match start with
  | ConsumerStartOffsetEarliest => 0
  | ConsumerStartOffsetLatest => end_
  end.

(** Why [Run] returns; [E] are the errors of the handler. *)
Inductive consume_error (E : Type) :=
| ErrHandlerRequired
| ErrFetch
| ErrUnmarshal
| ErrEnvelope
| ErrHandler (e : E)
| ErrCommit.
Arguments ErrHandlerRequired {E}.
Arguments ErrFetch {E}.
Arguments ErrUnmarshal {E}.
Arguments ErrEnvelope {E}.
Arguments ErrHandler {E} e.
Arguments ErrCommit {E}.

Definition decodeRecord {E} (record : kgo_Record) : result (consume_error E) Message :=
  envelope ← from_option_err ErrUnmarshal (unmarshal_envelope (kgo_Value record));
  fail_if (negb (validateEnvelope envelope)) ErrEnvelope;;
  Ok {| message_Topic := kgo_Topic record; message_Key := kgo_Key record;
        message_Envelope := envelope; message_Headers := recordHeaders (kgo_Headers record);
        message_Partition := kgo_Partition record; message_Offset := kgo_Offset record;
        message_Timestamp := kgo_Timestamp record |}.

(** What one [PollRecords] leads to: whether the context is done when it returns, the
    errors of its fetches ([true] for [context.Canceled]), its records. *)
Record poll := {
  poll_done : bool;
  poll_errors : list bool;
  poll_records : list kgo_Record;
}.

(** [fetchErrors]: whether it returns an error. *)
Definition fetchErrors (p : poll) : bool := existsb negb (poll_errors p).

Definition partition_of (record : kgo_Record) : string * Z :=
  (kgo_Topic record, kgo_Partition record).

(** The state a run works on: the handler's own, the group's committed offsets, and,
    as a history, the records whose handler returned no error. *)
Record consuming (S : Type) := {
  consuming_state : S;
  consuming_committed : gmap (string * Z) Z;
  consuming_handled : list kgo_Record;
}.
Arguments consuming_state {S} _.
Arguments consuming_committed {S} _.
Arguments consuming_handled {S} _.

Section Run.
Context {S E : Type}.
Variable handler : Message → S → result E unit * S.
(** How [CommitRecords] of a record ends. *)
Variable commits : kgo_Record → broker_outcome.

(** [CommitRecords] commits the offset after the record's. *)
Definition commit_record (record : kgo_Record) (st : consuming S) : consuming S := {|
  consuming_state := consuming_state st;
  consuming_committed := <[partition_of record := kgo_Offset record + 1]>
                           (consuming_committed st);
  consuming_handled := consuming_handled st |}.

Definition handled (record : kgo_Record) (s : S) (st : consuming S) : consuming S := {|
  consuming_state := s; consuming_committed := consuming_committed st;
  consuming_handled := consuming_handled st ++ [record] |}.

(** The body of the loop over the records of a poll. *)
Definition process (record : kgo_Record) (st : consuming S)
  : result (consume_error E) unit * consuming S :=
  match decodeRecord record with
  | Err e => (Err e, st)
  | Ok message =>
      match handler message (consuming_state st) with
      | (Err e, s) =>
          (Err (ErrHandler e),
           {| consuming_state := s; consuming_committed := consuming_committed st;
              consuming_handled := consuming_handled st |})
      | (Ok _, s) =>
          let st := handled record s st in
          match commits record with
          | Acknowledged => (Ok tt, commit_record record st)
          | Unacknowledged => (Err ErrCommit, commit_record record st)
          | Refused => (Err ErrCommit, st)
          end
      end
  end.

Fixpoint process_all (records : list kgo_Record) (st : consuming S)
  : result (consume_error E) unit * consuming S :=
  match records with
  | [] => (Ok tt, st)
  | record :: rest =>
      match process record st with
      | (Ok _, st') => process_all rest st'
      | (Err e, st') => (Err e, st')
      end
  end.

(** [Run] over the polls of a run of the process: [None] when it is still polling. *)
Fixpoint poll_loop (polls : list poll) (st : consuming S)
  : option (result (consume_error E) unit) * consuming S :=
  match polls with
  | [] => (None, st)
  | p :: rest =>
      if poll_done p then (Some (Ok tt), st)
      else if fetchErrors p then (Some (Err ErrFetch), st)
      else match process_all (poll_records p) st with
           | (Ok _, st') => poll_loop rest st'
           | (Err e, st') => (Some (Err e), st')
           end
  end.

End Run.

Definition Run {S E} (handler : option (Message → S → result E unit * S))
    (commits : kgo_Record → broker_outcome) (polls : list poll) (st : consuming S)
  : option (result (consume_error E) unit) * consuming S :=
  match handler with
  | None => (Some (Err ErrHandlerRequired), st)
  | Some h => poll_loop h commits polls st
  end.
End Consumer.
#[global] Arguments ErrHandlerRequired {E}.
#[global] Arguments ErrFetch {E}.
#[global] Arguments ErrUnmarshal {E}.
#[global] Arguments ErrEnvelope {E}.
#[global] Arguments ErrHandler {E} e.
#[global] Arguments ErrCommit {E}.
#[global] Arguments consuming_state {_ _} _.
#[global] Arguments consuming_committed {_ _} _.
#[global] Arguments consuming_handled {_ _} _.
#[global] Arguments Build_consuming {_ _} _ _ _.
