(* ===== verification/ConsumerProperties.v ===== *)
(** * The Kafka consumer: no record is skipped from the committed offset on

    The runs of a consumer group over the records of the broker: processes that start, are
    handed the records from the committed offset on, or without one from the offset that
    [resetOffset] gives at that start, and end anywhere. *)

From S2P Require Import Prelude GoStrings Postgres Outbox Consumer.
From stdpp Require Import strings gmap list relations.
From Stdlib Require Import String Lia.
Open Scope string_scope.
Open Scope list_scope.
Open Scope Z_scope.

Section Group.
Context `{Platform, Proto} {S E : Type}.
Variable handler : Message → S → result E unit * S.

(** The records of each partition, in their order: those that are there and those that
    will be appended. *)
Variable log : string * Z → list kgo_Record.
(** [Config.ConsumerStartOffset]. *)
Variable start : ConsumerStartOffset.

(** What the broker and its client are relied upon for: a partition's records are its
    own, their offsets increase from 0 on, and none is deleted. *)
Record log_ok : Prop := {
  log_partition : ∀ tp r, r ∈ log tp → partition_of r = tp;
  log_sorted : ∀ tp l1 r l2 r', log tp = l1 ++ r :: l2 → r' ∈ l2 →
    kgo_Offset r < kgo_Offset r';
  log_offsets : ∀ tp r, r ∈ log tp → 0 ≤ kgo_Offset r;
}.

Definition of_partition (tp : string * Z) (r : kgo_Record) : bool :=
  bool_decide (partition_of r = tp).
Definition from (c : Z) (l : list kgo_Record) : list kgo_Record :=
  List.filter (λ r, c <=? kgo_Offset r) l.

(** Where a process begins to read a partition: at the committed offset or, without one,
    where the partition starts or ends when it is assigned to the process. *)
Definition position (ends : string * Z → Z) (st : consuming S) (tp : string * Z) : Z :=
  default (resetOffset start (ends tp)) (consuming_committed st !! tp).

(** The polls of one process: of every partition, some records without a gap from the
    position [at_] on. *)
Definition delivers (at_ : string * Z → Z) (records : list kgo_Record) : Prop :=
  ∀ tp, ∃ n, List.filter (of_partition tp) records = take n (from (at_ tp) (log tp)).

(** One process of the group, from its first poll to its end. The partitions end at [ends]
    when it is assigned them, after the records handled until then. *)
Inductive process_run (st : consuming S) : consuming S → Prop :=
| a_run ends commits polls outcome st' :
    (∀ r, r ∈ consuming_handled st → kgo_Offset r < ends (partition_of r)) →
    delivers (position ends st) (mjoin (poll_records <$> polls)) →
    Run (Some handler) commits polls st = (outcome, st') →
    process_run st st'.

Definition group_starts (s : S) : consuming S := {|
  consuming_state := s; consuming_committed := ∅; consuming_handled := [] |}.

(** The records of the partition from [lo] on and before [hi] are handled. *)
Definition handled_between (st : consuming S) (tp : string * Z) (lo hi : Z) : Prop :=
  ∀ r, r ∈ log tp → lo ≤ kgo_Offset r < hi → r ∈ consuming_handled st.

(** A record of the partition is handled only after those from [lo] on that precede it. *)
Definition in_order_from (tp : string * Z) (lo : Z) (l : list kgo_Record) : Prop :=
  ∀ l1 r l2, l = l1 ++ r :: l2 → partition_of r = tp → ∀ r', r' ∈ log tp →
    lo ≤ kgo_Offset r' < kgo_Offset r → r' ∈ l1.

(** What a run keeps: [base] is where the group began to read without interruption, [at_]
    where the process is. *)
Record group_ok (base : string * Z → Z) (st : consuming S) (at_ : string * Z → Z) : Prop := {
  group_order : ∀ tp, in_order_from tp (base tp) (consuming_handled st);
  group_handled : ∀ tp, handled_between st tp (base tp) (at_ tp);
  group_committed : ∀ tp c, consuming_committed st !! tp = Some c → base tp ≤ c ≤ at_ tp;
  group_base : ∀ tp, base tp ≤ at_ tp;
  group_earliest : start = ConsumerStartOffsetEarliest → ∀ tp, base tp = 0;
}.

(** Committed offsets are never lost or moved back. *)
Definition commits_grow (st st' : consuming S) : Prop := ∀ tp c,
  consuming_committed st !! tp = Some c →
  ∃ c', consuming_committed st' !! tp = Some c' ∧ c ≤ c'.

#[local] Instance commits_grow_preorder : PreOrder commits_grow.
Proof.
  split; [intros st tp c ->; eauto with lia|].
  intros a b c Hab Hbc tp x (y & Hy & ?)%Hab. apply Hbc in Hy as (z & ? & ?). eauto with lia.
Qed.

Context (Hlog : log_ok).

Lemma in_order_snoc tp lo l r :
  in_order_from tp lo l →
  (partition_of r = tp → ∀ r', r' ∈ log tp → lo ≤ kgo_Offset r' < kgo_Offset r → r' ∈ l) →
  in_order_from tp lo (l ++ [r]).
Proof.
  intros Hl Hr l1 x l2 Heq Hx r' Hr' Hoff.
  destruct (app_eq_app _ _ _ _ Heq) as [k [[Hk1 Hk2]|[Hk1 Hk2]]].
  - destruct k as [|y k]; cbn in *.
    + injection Hk2 as -> ->. rewrite app_nil_r in Hk1. subst l. by apply Hr.
    + injection Hk2 as <- ->. by eapply Hl.
  - destruct k as [|y k]; cbn in *.
    + injection Hk2 as <- <-. rewrite app_nil_r in Hk1. subst l1. by apply Hr.
    + injection Hk2 as Hy Hk. destruct k; discriminate.
Qed.

(** The next record delivered of a partition is the first from the position on. *)
Lemma from_next tp c n r l :
  take n (from c (log tp)) = r :: l →
  r ∈ log tp ∧ c ≤ kgo_Offset r ∧
  (∀ r', r' ∈ log tp → c ≤ kgo_Offset r' → kgo_Offset r' < kgo_Offset r → False) ∧
  ∃ n', l = take n' (from (kgo_Offset r + 1) (log tp)).
Proof.
  pose proof (log_sorted Hlog tp) as Hsorted. revert Hsorted. unfold from.
  generalize (log tp) as rs. clear. induction rs as [|a rs IH]; intros Hsorted; cbn.
  { by destruct n. }
  assert (∀ r', r' ∈ rs → kgo_Offset a < kgo_Offset r') as Ha
    by (intros r' Hr'; by eapply (Hsorted [] a rs)).
  assert (∀ l1 r l2 r', rs = l1 ++ r :: l2 → r' ∈ l2 → kgo_Offset r < kgo_Offset r') as Hrs
    by (intros l1 r0 l2 r' ->; by apply (Hsorted (a :: l1))).
  destruct (c <=? kgo_Offset a) eqn:Hc; bool_facts.
  - destruct n as [|n]; [done|]. cbn. intros [= -> <-].
    split_and!; [by left|done| |].
    + intros r' [->|Hr']%elem_of_cons ? ?; [lia|]. apply Ha in Hr'. lia.
    + exists n. f_equal. destruct (kgo_Offset r + 1 <=? kgo_Offset r) eqn:E0; [bool_facts; lia|].
      apply List.filter_ext_in. intros x Hx%list_elem_of_In%Ha.
      transitivity true; [apply Z.leb_le; lia|symmetry; apply Z.leb_le; lia].
  - intros Hr. destruct (IH Hrs Hr) as (Hin & Hge & Hfirst & n' & Hl).
    split_and!; [by right|done| |].
    + intros r' [->|Hr']%elem_of_cons ? ?; [lia|by eapply Hfirst].
    + exists n'. rewrite Hl. f_equal.
      destruct (kgo_Offset r + 1 <=? kgo_Offset a) eqn:E0; [|done]. bool_facts. lia.
Qed.

(** The position after a record of its partition. *)
Definition advance (at_ : string * Z → Z) (r : kgo_Record) (tp : string * Z) : Z :=
  if decide (partition_of r = tp) then kgo_Offset r + 1 else at_ tp.

Lemma delivers_cons at_ r records :
  delivers at_ (r :: records) →
  r ∈ log (partition_of r) ∧ at_ (partition_of r) ≤ kgo_Offset r ∧
  (∀ r', r' ∈ log (partition_of r) → at_ (partition_of r) ≤ kgo_Offset r' →
     kgo_Offset r' < kgo_Offset r → False) ∧
  delivers (advance at_ r) records.
Proof.
  intros Hd. destruct (Hd (partition_of r)) as [n Hn]. cbn in Hn.
  unfold of_partition at 1 in Hn. rewrite bool_decide_eq_true_2 in Hn by done.
  symmetry in Hn. destruct (from_next _ _ _ _ _ Hn) as (Hin & Hge & Hfirst & n' & Hrest).
  split_and!; [done..|]. intros tp. unfold advance. case_decide as Htp.
  - subst tp. by exists n'.
  - destruct (Hd tp) as [m Hm]. exists m. cbn in Hm.
    unfold of_partition at 1 in Hm. by rewrite bool_decide_eq_false_2 in Hm.
Qed.

(** The records below the position after a record are that record and those below the
    position before it. *)
Lemma below_advance at_ r records tp x :
  delivers at_ (r :: records) → x ∈ log tp → kgo_Offset x < advance at_ r tp →
  kgo_Offset x < at_ tp ∨ x = r.
Proof.
  intros (Hin & Hge & Hfirst & _)%delivers_cons Hx. unfold advance.
  case_decide as Htp; intros Hoff; [|by left]. subst tp.
  destruct (Z.lt_ge_cases (kgo_Offset x) (at_ (partition_of r))) as [Hlt|Hle]; [by left|right].
  assert (kgo_Offset x = kgo_Offset r) as Heq.
  { destruct (Z.lt_ge_cases (kgo_Offset x) (kgo_Offset r)); [exfalso; eauto|lia]. }
  apply list_elem_of_split in Hin as (l1 & l2 & Hl). rewrite Hl in Hx.
  apply elem_of_app in Hx as [Hx|[->|Hx]%elem_of_cons]; [|done|].
  - apply list_elem_of_split in Hx as (k1 & k2 & ->).
    assert (kgo_Offset x < kgo_Offset r) as Hlt; [|lia].
    eapply (log_sorted Hlog (partition_of r) k1 x (k2 ++ r :: l2)).
    + by rewrite Hl, <-app_assoc.
    + apply elem_of_app. right. by left.
  - assert (kgo_Offset r < kgo_Offset x) as Hlt; [|lia]. by eapply (log_sorted Hlog).
Qed.

(** One more record handled, whether or not its commit is lost. *)
Lemma handled_ok base st at_ r records s :
  group_ok base st at_ → delivers at_ (r :: records) →
  group_ok base (handled r s st) (advance at_ r).
Proof.
  intros [Ho Hh Hc Hb He] Hd. destruct (delivers_cons _ _ _ Hd) as (Hin & Hge & Hfirst & _).
  split; [..|done]; intros tp.
  - apply in_order_snoc; [apply Ho|]. intros Htp r' Hr' Hoff. subst tp.
    eapply Hh; [done|]. split; [lia|].
    destruct (Z.lt_ge_cases (kgo_Offset r') (at_ (partition_of r)));
      [done|exfalso; eapply Hfirst; [done..|lia]].
  - intros x Hx Hoff. apply elem_of_app.
    destruct (below_advance _ _ _ _ _ Hd Hx (proj2 Hoff)) as [?| ->]; [left|right; by left].
    eapply Hh; [done|]. split; [lia|done].
  - intros c Hcm. specialize (Hc tp c Hcm). unfold advance. case_decide; [subst tp|]; lia.
  - specialize (Hb tp). unfold advance. case_decide; [subst tp|]; lia.
Qed.

Lemma commit_ok base st at_ r records :
  group_ok base st (advance at_ r) → delivers at_ (r :: records) →
  (∀ tp, base tp ≤ at_ tp) → group_ok base (commit_record r st) (advance at_ r).
Proof.
  intros [Ho Hh Hc Hb He] (_ & Hge & _)%delivers_cons Hbase. split; [done| |..|done|done].
  { exact Hh. }
  intros tp c. unfold commit_record. cbn. destruct (decide (partition_of r = tp)) as [<-|Hne].
  - rewrite lookup_insert_eq. intros [= <-]. specialize (Hbase (partition_of r)).
    unfold advance. rewrite decide_True by done. lia.
  - rewrite lookup_insert_ne by done. apply Hc.
Qed.

Lemma commit_grows base st at_ r records s :
  group_ok base st at_ → delivers at_ (r :: records) →
  commits_grow st (commit_record r (handled r s st)).
Proof.
  intros Hst (_ & Hge & _)%delivers_cons tp c Hcm. apply (group_committed _ _ _ Hst) in Hcm as Hle.
  unfold commit_record. cbn. destruct (decide (partition_of r = tp)) as [<-|Hne].
  - rewrite lookup_insert_eq. eexists. split; [done|lia].
  - rewrite lookup_insert_ne by done. eauto with lia.
Qed.

(** One record: either the process goes on after it, or its run ends. *)
Lemma process_ok base commits st at_ r records outcome st' :
  group_ok base st at_ → delivers at_ (r :: records) →
  process handler commits r st = (outcome, st') →
  commits_grow st st' ∧
  (group_ok base st' (advance at_ r) ∨ is_ok outcome = false ∧ group_ok base st' at_).
Proof.
  intros Hst Hd Hp. unfold process in Hp.
  destruct (decodeRecord r) as [m|e]; [|injection Hp as <- <-; split; [done|by right]].
  destruct (handler m (consuming_state st)) as [[u|e] s];
    [|injection Hp as <- <-; split; [intros ???; cbn; eauto with lia|]; right; split; [done|];
      destruct Hst; by split].
  pose proof (handled_ok _ _ _ _ _ s Hst Hd) as Hh.
  pose proof (commit_ok _ _ _ _ _ Hh Hd (group_base _ _ _ Hst)) as Hc.
  pose proof (commit_grows _ _ _ _ _ s Hst Hd) as Hg.
  destruct (commits r); injection Hp as _ <-; (split; [|by left]); try done.
  intros ???; cbn; eauto with lia.
Qed.

Lemma poll_loop_ok base commits polls st at_ outcome st' :
  group_ok base st at_ → delivers at_ (mjoin (poll_records <$> polls)) →
  poll_loop handler commits polls st = (outcome, st') →
  commits_grow st st' ∧ ∃ at', group_ok base st' at'.
Proof.
  revert st at_. induction polls as [|p polls IH]; intros st at_ Hst Hd Hr; cbn in Hr.
  { injection Hr as _ <-. split; [done|eauto]. }
  destruct (poll_done p); [injection Hr as _ <-; split; [done|eauto]|].
  destruct (fetchErrors p); [injection Hr as _ <-; split; [done|eauto]|].
  cbn in Hd. revert st at_ Hst Hd Hr.
  induction (poll_records p) as [|r records IHr]; intros st at_ Hst Hd Hr; cbn in *.
  { by eapply IH. }
  destruct (process handler commits r st) as [o st1] eqn:Hp.
  destruct (process_ok _ _ _ _ _ _ _ _ Hst Hd Hp) as [Hg Hok]. destruct o as [u|e].
  - destruct Hok as [Hok|[? _]]; [|done]. apply delivers_cons in Hd as (_ & _ & _ & Hd).
    destruct (IHr _ _ Hok Hd Hr) as [Hg' ?]. split; [by etrans|done].
  - injection Hr as _ <-. split; [done|]. destruct Hok as [?|[_ ?]]; eauto.
Qed.

(** A new process: a partition with a committed offset is read on from it; a group that
    has committed none may begin anew. *)
Lemma starts_ok base st at_ ends :
  group_ok base st at_ →
  (∀ r, r ∈ consuming_handled st → kgo_Offset r < ends (partition_of r)) →
  ∃ base', group_ok base' st (position ends st) ∧
    ∀ tp c, consuming_committed st !! tp = Some c → base' tp = base tp.
Proof.
  intros [Ho Hh Hc Hb He] Hends.
  exists (λ tp, if consuming_committed st !! tp then base tp else resetOffset start (ends tp)).
  split; [|by intros tp c ->]. unfold position. split.
  - intros tp. case_match; [apply Ho|]. destruct start eqn:Hs; cbn.
    { rewrite <-(He eq_refl tp). apply Ho. }
    intros l1 r l2 Heq <- r' Hr' Hoff. specialize (Hends r).
    assert (r ∈ consuming_handled st) as Hin by (rewrite Heq; apply elem_of_app; right; by left).
    specialize (Hends Hin). lia.
  - intros tp r Hr Hoff. destruct (_ !! tp) as [c|] eqn:Hcm; cbn in *; [|lia].
    apply Hc in Hcm. eapply Hh; [done|lia].
  - intros tp c Hcm. rewrite Hcm. cbn. apply Hc in Hcm. lia.
  - intros tp. destruct (_ !! tp) as [c|] eqn:Hcm; cbn; [apply Hc in Hcm|]; lia.
  - intros Hs tp. case_match; [by apply He|]. by rewrite Hs.
Qed.

Lemma process_run_ok base st at_ st' :
  group_ok base st at_ → process_run st st' →
  commits_grow st st' ∧ ∃ base' at', group_ok base' st' at' ∧
    ∀ tp c, consuming_committed st !! tp = Some c → base' tp = base tp.
Proof.
  intros Hst [ends commits polls outcome st2 Hends Hd Hr].
  destruct (starts_ok _ _ _ _ Hst Hends) as (base' & Hst' & Hbase).
  destruct (poll_loop_ok _ _ _ _ _ _ _ Hst' Hd Hr) as [Hg [at' Hok]]. eauto 6.
Qed.

Lemma group_runs_ok base st at_ st' :
  group_ok base st at_ → rtc process_run st st' →
  commits_grow st st' ∧ ∃ base' at', group_ok base' st' at' ∧
    ∀ tp c, consuming_committed st !! tp = Some c → base' tp = base tp.
Proof.
  intros Hst Hruns. revert base at_ Hst.
  induction Hruns as [st|st st1 st2 Hrun _ IH]; intros base at_ Hst; [split; [done|eauto]|].
  destruct (process_run_ok _ _ _ _ Hst Hrun) as (Hg & base1 & at1 & Hst1 & Hb1).
  destruct (IH _ _ Hst1) as (Hg2 & base2 & at2 & Hst2 & Hb2). split; [by etrans|].
  exists base2, at2. split; [done|]. intros tp c Hcm.
  destruct (Hg tp c Hcm) as (c1 & Hc1 & _). rewrite (Hb2 _ _ Hc1). by eapply Hb1.
Qed.

Lemma group_starts_ok s : group_ok (λ _, 0) (group_starts s) (λ _, 0).
Proof.
  split; cbn; [|intros tp r _ ?; lia|done|done|done].
  intros tp [] ? ? ?; discriminate.
Qed.

(** From where on a group that has committed [c] is known to have handled every record. *)
Definition complete_from (c : Z) : Z :=
  match start with
  | ConsumerStartOffsetEarliest => 0
  | ConsumerStartOffsetLatest => c
  end.

Lemma committed_passed s st1 st2 tp c :
  rtc process_run (group_starts s) st1 → rtc process_run st1 st2 →
  consuming_committed st1 !! tp = Some c →
  ∃ c', consuming_committed st2 !! tp = Some c' ∧ c ≤ c' ∧
    handled_between st2 tp (complete_from c) c' ∧
    in_order_from tp (complete_from c) (consuming_handled st2).
Proof.
  intros H1 H2 Hcm.
  destruct (group_runs_ok _ _ _ _ (group_starts_ok s) H1) as (_ & base1 & at1 & Hst1 & _).
  destruct (group_runs_ok _ _ _ _ Hst1 H2) as (Hg & base2 & at2 & Hst2 & Hb2).
  specialize (Hb2 tp c Hcm). destruct (Hg tp c Hcm) as (c' & Hc' & Hle).
  apply (group_committed _ _ _ Hst1) in Hcm as Hc. apply (group_committed _ _ _ Hst2) in Hc' as Hc2.
  assert (base2 tp ≤ complete_from c) as Hbase.
  { unfold complete_from. destruct start eqn:Hs; [|lia].
    rewrite (group_earliest _ _ _ Hst2 Hs). lia. }
  exists c'. split_and!; [done..| |].
  - intros r Hr Hoff. eapply (group_handled _ _ _ Hst2); [done|lia].
  - intros l1 r l2 Heq Htp r' Hr' Hoff. eapply (group_order _ _ _ Hst2); [done..|lia].
Qed.

(** C35 (every record, in order). One process of a consumer group after the other reads its
    partitions, stops at any moment, and its commits end in any way. Once the group has
    committed an offset of a partition, whatever runs later it never loses it, and the records
    between that offset and the one committed last are handled without an error, none before
    those that precede it. A group configured to start at the earliest offset has handled all
    records before its committed offset. One that starts at the latest offset, the default,
    may skip records until its first commit: see [latest_start_skips]. *)
Theorem consumer_never_skips s st1 st2 tp c :
  rtc process_run (group_starts s) st1 → rtc process_run st1 st2 →
  consuming_committed st1 !! tp = Some c →
  ∃ c', consuming_committed st2 !! tp = Some c' ∧ c ≤ c' ∧
    match start with
    | ConsumerStartOffsetEarliest =>
        handled_between st2 tp 0 c' ∧ in_order_from tp 0 (consuming_handled st2)
    | ConsumerStartOffsetLatest =>
        handled_between st2 tp c c' ∧ in_order_from tp c (consuming_handled st2)
    end.
Proof.
  intros H1 H2 Hcm. destruct (committed_passed _ _ _ _ _ H1 H2 Hcm) as (c' & ? & ? & Hh & Ho).
  exists c'. split_and!; [done..|]. unfold complete_from in *. by destruct start.
Qed.

End Group.
