(* ===== verification/TenantDomain.v ===== *)
(** * Tenant service: domain types and authorization

    Models [services/tenant/internal/domain]: the aggregate's records, the
    permission tables of the four roles and the authorization decision. String
    typed enumerations of the source ([Status], [Role], [Permission], ...) stay
    strings, so the [default] branches of its switches are the real ones. *)

From S2P Require Import Prelude GoStrings.
From stdpp Require Import strings gmap list.
From Stdlib Require Import String Lia.
Open Scope string_scope.
Open Scope list_scope.
Open Scope Z_scope.

(** ** models.go *)

Definition Status := string.
Definition StatusProvisioning : Status := "provisioning".
Definition StatusActive : Status := "active".
Definition StatusProvisioningFailed : Status := "provisioning_failed".
Definition StatusArchived : Status := "archived".

Definition Role := string.
Definition RoleOwner : Role := "owner".
Definition RoleAdmin : Role := "admin".
Definition RoleMember : Role := "member".
Definition RoleViewer : Role := "viewer".

(** [time.Time] values are instants, as an integer number of nanoseconds. *)
Definition Time := Z.

Record Tenant := {
  tenant_ID : string;
  tenant_Slug : string;
  tenant_DisplayName : string;
  tenant_Status : Status;
  tenant_Region : string;
  tenant_RetentionDays : Z;
  tenant_Version : Z;
  tenant_CreatedByUserID : string;
  tenant_CreatedAt : Time;
  tenant_UpdatedAt : Time;
  tenant_ArchivedAt : option Time;
}.

Record Membership := {
  membership_TenantID : string;
  membership_UserID : string;
  membership_Role : Role;
  membership_Version : Z;
  membership_CreatedBy : string;
  membership_CreatedAt : Time;
  membership_UpdatedAt : Time;
}.

Record Entitlements := {
  entitlements_TenantID : string;
  entitlements_PlanKey : string;
  entitlements_Features : gmap string bool;
  entitlements_Limits : gmap string Z;
  entitlements_Version : Z;
  entitlements_UpdatedAt : Time;
}.

Definition Permission := string.

Record TenantContext := {
  context_Tenant : Tenant;
  context_Membership : Membership;
  context_Entitlements : Entitlements;
  context_Permissions : list Permission;
}.

(** ** onboarding.go *)

Definition OperationState := string.
Definition OperationStatePending : OperationState := "pending".
Definition OperationStateRunning : OperationState := "running".
Definition OperationStateSucceeded : OperationState := "succeeded".
Definition OperationStateFailed : OperationState := "failed".
Definition OperationStateCanceled : OperationState := "canceled".

(** A Go [map[string]any] holding JSON: [None] is the nil map, which marshals to
    [null]; the values are kept as their JSON text. *)
Definition json_map := option (gmap string string).

Record OperationError := {
  opError_Code : string;
  opError_Message : string;
  opError_Retryable : bool;
  opError_Details : json_map;
}.

Record Operation := {
  operation_ID : string;
  operation_TenantID : string;
  operation_ActorUserID : string;
  operation_RequestID : string;
  operation_State : OperationState;
  operation_ResourceName : string;
  operation_WorkflowID : string;
  operation_WorkflowRunID : string;
  operation_Error : option OperationError;
  operation_Metadata : gmap string string;
  operation_Version : Z;
  operation_CreatedAt : Time;
  operation_UpdatedAt : Time;
  operation_StartedAt : option Time;
  operation_CompletedAt : option Time;
}.

Record CreateTenantResult := {
  created_Context : TenantContext;
  created_Operation : Operation;
}.

(** ** authorization.go *)

Definition PermissionTenantRead : Permission := "tenant.read".
Definition PermissionTenantUpdate : Permission := "tenant.update".
Definition PermissionTenantArchive : Permission := "tenant.archive".
Definition PermissionMemberList : Permission := "member.list".
Definition PermissionMemberAdd : Permission := "member.add".
Definition PermissionMemberUpdateRole : Permission := "member.update_role".
Definition PermissionMemberRemove : Permission := "member.remove".
Definition PermissionEntitlementRead : Permission := "entitlement.read".
Definition PermissionCompanyRead : Permission := "company.read".
Definition PermissionCompanyCreate : Permission := "company.create".
Definition PermissionCompanyUpdate : Permission := "company.update".
Definition PermissionCompanyArchive : Permission := "company.archive".
Definition PermissionAgentRead : Permission := "agent.read".
Definition PermissionAgentCreate : Permission := "agent.create".
Definition PermissionAgentUpdate : Permission := "agent.update".
Definition PermissionAgentDelete : Permission := "agent.delete".
Definition PermissionAgentHierarchyManage : Permission := "agent.hierarchy_manage".
Definition PermissionAgentLifecycleManage : Permission := "agent.lifecycle_manage".
Definition PermissionWorkRead : Permission := "work.read".
Definition PermissionGoalCreate : Permission := "goal.create".
Definition PermissionGoalUpdate : Permission := "goal.update".
Definition PermissionProjectCreate : Permission := "project.create".
Definition PermissionProjectUpdate : Permission := "project.update".
Definition PermissionTaskCreate : Permission := "task.create".
Definition PermissionTaskUpdate : Permission := "task.update".
Definition PermissionTaskStatusUpdate : Permission := "task.status_update".
Definition PermissionTaskAssign : Permission := "task.assign".
Definition PermissionTaskDependencyManage : Permission := "task.dependency_manage".
Definition PermissionTaskCommentCreate : Permission := "task.comment_create".
Definition PermissionTaskCommentModerate : Permission := "task.comment_moderate".
Definition PermissionTaskArtifactManage : Permission := "task.artifact_manage".
Definition PermissionTaskChecklistManage : Permission := "task.checklist_manage".
Definition PermissionTaskScheduleManage : Permission := "task.schedule_manage".
Definition PermissionPolicyRead : Permission := "policy.read".
Definition PermissionPolicyCreate : Permission := "policy.create".
Definition PermissionPolicyUpdate : Permission := "policy.update".
Definition PermissionPolicyActivate : Permission := "policy.activate".
Definition PermissionPolicyArchive : Permission := "policy.archive".
Definition PermissionPolicyDecisionRead : Permission := "policy.decision_read".
Definition PermissionModelProviderRead : Permission := "model.provider_read".
Definition PermissionModelConnectionRead : Permission := "model.connection_read".
Definition PermissionModelConnectionCreate : Permission := "model.connection_create".
Definition PermissionModelConnectionUpdate : Permission := "model.connection_update".
Definition PermissionModelConnectionArchive : Permission := "model.connection_archive".
Definition PermissionModelCatalogRead : Permission := "model.catalog_read".
Definition PermissionModelCatalogRefresh : Permission := "model.catalog_refresh".
Definition PermissionModelBindingRead : Permission := "model.binding_read".
Definition PermissionModelBindingUpdate : Permission := "model.binding_update".
Definition PermissionModelBindingRemove : Permission := "model.binding_remove".

Definition DenialReason := string.
Definition DenialReasonNone : DenialReason := "none".
Definition DenialReasonNotMember : DenialReason := "not_member".
Definition DenialReasonTenantArchived : DenialReason := "tenant_archived".
Definition DenialReasonTenantNotActive : DenialReason := "tenant_not_active".
Definition DenialReasonPermissionNotGranted : DenialReason := "permission_not_granted".

Record AuthorizationDecision := {
  decision_Allowed : bool;
  decision_TenantID : string;
  decision_ActorUserID : string;
  decision_Permission : Permission;
  decision_Role : Role;
  decision_TenantVersion : Z;
  decision_MembershipVersion : Z;
  decision_DenialReason : DenialReason;
}.

Definition knownPermissions : list Permission := [
  PermissionTenantRead;
  PermissionTenantUpdate;
  PermissionTenantArchive;
  PermissionMemberList;
  PermissionMemberAdd;
  PermissionMemberUpdateRole;
  PermissionMemberRemove;
  PermissionEntitlementRead;
  PermissionCompanyRead;
  PermissionCompanyCreate;
  PermissionCompanyUpdate;
  PermissionCompanyArchive;
  PermissionAgentRead;
  PermissionAgentCreate;
  PermissionAgentUpdate;
  PermissionAgentDelete;
  PermissionAgentHierarchyManage;
  PermissionAgentLifecycleManage;
  PermissionWorkRead;
  PermissionGoalCreate;
  PermissionGoalUpdate;
  PermissionProjectCreate;
  PermissionProjectUpdate;
  PermissionTaskCreate;
  PermissionTaskUpdate;
  PermissionTaskStatusUpdate;
  PermissionTaskAssign;
  PermissionTaskDependencyManage;
  PermissionTaskCommentCreate;
  PermissionTaskCommentModerate;
  PermissionTaskArtifactManage;
  PermissionTaskChecklistManage;
  PermissionTaskScheduleManage;
  PermissionPolicyRead;
  PermissionPolicyCreate;
  PermissionPolicyUpdate;
  PermissionPolicyActivate;
  PermissionPolicyArchive;
  PermissionPolicyDecisionRead;
  PermissionModelProviderRead;
  PermissionModelConnectionRead;
  PermissionModelConnectionCreate;
  PermissionModelConnectionUpdate;
  PermissionModelConnectionArchive;
  PermissionModelCatalogRead;
  PermissionModelCatalogRefresh;
  PermissionModelBindingRead;
  PermissionModelBindingUpdate;
  PermissionModelBindingRemove].

Definition ownerPermissions : list Permission := knownPermissions.

Definition adminPermissions : list Permission := [
  PermissionTenantRead;
  PermissionTenantUpdate;
  PermissionMemberList;
  PermissionMemberAdd;
  PermissionMemberUpdateRole;
  PermissionMemberRemove;
  PermissionEntitlementRead;
  PermissionCompanyRead;
  PermissionCompanyCreate;
  PermissionCompanyUpdate;
  PermissionCompanyArchive;
  PermissionAgentRead;
  PermissionAgentCreate;
  PermissionAgentUpdate;
  PermissionAgentDelete;
  PermissionAgentHierarchyManage;
  PermissionAgentLifecycleManage;
  PermissionWorkRead;
  PermissionGoalCreate;
  PermissionGoalUpdate;
  PermissionProjectCreate;
  PermissionProjectUpdate;
  PermissionTaskCreate;
  PermissionTaskUpdate;
  PermissionTaskStatusUpdate;
  PermissionTaskAssign;
  PermissionTaskDependencyManage;
  PermissionTaskCommentCreate;
  PermissionTaskCommentModerate;
  PermissionTaskArtifactManage;
  PermissionTaskChecklistManage;
  PermissionTaskScheduleManage;
  PermissionPolicyRead;
  PermissionPolicyCreate;
  PermissionPolicyUpdate;
  PermissionPolicyActivate;
  PermissionPolicyArchive;
  PermissionPolicyDecisionRead;
  PermissionModelProviderRead;
  PermissionModelConnectionRead;
  PermissionModelConnectionCreate;
  PermissionModelConnectionUpdate;
  PermissionModelConnectionArchive;
  PermissionModelCatalogRead;
  PermissionModelCatalogRefresh;
  PermissionModelBindingRead;
  PermissionModelBindingUpdate;
  PermissionModelBindingRemove].

Definition memberPermissions : list Permission := [
  PermissionTenantRead;
  PermissionMemberList;
  PermissionEntitlementRead;
  PermissionCompanyRead;
  PermissionAgentRead;
  PermissionWorkRead;
  PermissionTaskCreate;
  PermissionTaskUpdate;
  PermissionTaskStatusUpdate;
  PermissionTaskAssign;
  PermissionTaskDependencyManage;
  PermissionTaskCommentCreate;
  PermissionTaskArtifactManage;
  PermissionTaskChecklistManage;
  PermissionTaskScheduleManage;
  PermissionModelProviderRead;
  PermissionModelCatalogRead;
  PermissionModelBindingRead].

Definition viewerPermissions : list Permission := [
  PermissionTenantRead;
  PermissionEntitlementRead;
  PermissionCompanyRead;
  PermissionAgentRead;
  PermissionWorkRead;
  PermissionModelProviderRead;
  PermissionModelCatalogRead;
  PermissionModelBindingRead].

(** The cases of the switch of [IsMutationPermission]. *)
Definition mutationPermissions : list Permission := [
  PermissionTenantUpdate;
  PermissionTenantArchive;
  PermissionMemberAdd;
  PermissionMemberUpdateRole;
  PermissionMemberRemove;
  PermissionCompanyCreate;
  PermissionCompanyUpdate;
  PermissionCompanyArchive;
  PermissionAgentCreate;
  PermissionAgentUpdate;
  PermissionAgentDelete;
  PermissionAgentHierarchyManage;
  PermissionAgentLifecycleManage;
  PermissionGoalCreate;
  PermissionGoalUpdate;
  PermissionProjectCreate;
  PermissionProjectUpdate;
  PermissionTaskCreate;
  PermissionTaskUpdate;
  PermissionTaskStatusUpdate;
  PermissionTaskAssign;
  PermissionTaskDependencyManage;
  PermissionTaskCommentCreate;
  PermissionTaskCommentModerate;
  PermissionTaskArtifactManage;
  PermissionTaskChecklistManage;
  PermissionTaskScheduleManage;
  PermissionPolicyCreate;
  PermissionPolicyUpdate;
  PermissionPolicyActivate;
  PermissionPolicyArchive;
  PermissionModelConnectionCreate;
  PermissionModelConnectionUpdate;
  PermissionModelConnectionArchive;
  PermissionModelCatalogRefresh;
  PermissionModelBindingUpdate;
  PermissionModelBindingRemove].

Definition IsKnownPermission (permission : Permission) : bool :=
  slices_Contains knownPermissions permission.

(** The defensive copy of the source is a copy of an immutable list here; an
    unknown role gives the nil slice. *)
Definition PermissionsForRole (role : Role) : list Permission :=
  if String.eqb role RoleOwner then ownerPermissions
  else if String.eqb role RoleAdmin then adminPermissions
  else if String.eqb role RoleMember then memberPermissions
  else if String.eqb role RoleViewer then viewerPermissions
  else [].

Definition RoleAllows (role : Role) (permission : Permission) : bool :=
  slices_Contains (PermissionsForRole role) permission.

Definition IsMutationPermission (permission : Permission) : bool :=
  slices_Contains mutationPermissions permission.

Definition EffectivePermissions (status : Status) (role : Role) : list Permission :=
  let rolePermissions := PermissionsForRole role in
  if String.eqb status StatusActive then rolePermissions
  else List.filter (λ permission, negb (IsMutationPermission permission))
         rolePermissions.

Definition EvaluateAuthorization (tenant : Tenant) (membership : Membership)
    (permission : Permission) : AuthorizationDecision :=
  let decision (allowed : bool) (reason : DenialReason) := {|
    decision_Allowed := allowed;
    decision_TenantID := tenant_ID tenant;
    decision_ActorUserID := membership_UserID membership;
    decision_Permission := permission;
    decision_Role := membership_Role membership;
    decision_TenantVersion := tenant_Version tenant;
    decision_MembershipVersion := membership_Version membership;
    decision_DenialReason := reason
  |} in
  if IsMutationPermission permission
     && negb (String.eqb (tenant_Status tenant) StatusActive) then
    if String.eqb (tenant_Status tenant) StatusArchived
    then decision false DenialReasonTenantArchived
    else decision false DenialReasonTenantNotActive
  else if negb (RoleAllows (membership_Role membership) permission)
  then decision false DenialReasonPermissionNotGranted
  else decision true DenialReasonNone.

(** ** policy.go *)

Definition IsKnownRole (role : Role) : bool :=
  String.eqb role RoleOwner || String.eqb role RoleAdmin
  || String.eqb role RoleMember || String.eqb role RoleViewer.

Definition CanReadTenant (role : Role) : bool := RoleAllows role PermissionTenantRead.
Definition CanUpdateTenant (role : Role) : bool := RoleAllows role PermissionTenantUpdate.
Definition CanArchiveTenant (role : Role) : bool := RoleAllows role PermissionTenantArchive.

Definition CanManageMember (actor target newRole : Role) : bool :=
  if String.eqb actor RoleOwner then IsKnownRole newRole
  else if String.eqb actor RoleAdmin then
    negb (String.eqb target RoleOwner) && negb (String.eqb newRole RoleOwner)
    && IsKnownRole newRole
  else false.

(** ** Properties of the authorization rules *)

Lemma slices_Contains_filter (f : string → bool) l v :
  slices_Contains (List.filter f l) v = slices_Contains l v && f v.
Proof.
  apply eq_true_iff_eq.
  rewrite andb_true_iff, !slices_Contains_true, !list_elem_of_In, filter_In. done.
Qed.

(** The three outcomes of a decision, by the two guards of the source. *)
Lemma EvaluateAuthorization_spec t m p :
  let d := EvaluateAuthorization t m p in
  let blocked := IsMutationPermission p
                 && negb (String.eqb (tenant_Status t) StatusActive) in
  decision_Allowed d = negb blocked && RoleAllows (membership_Role m) p ∧
  decision_DenialReason d =
    (if blocked then
       if String.eqb (tenant_Status t) StatusArchived
       then DenialReasonTenantArchived else DenialReasonTenantNotActive
     else if RoleAllows (membership_Role m) p
     then DenialReasonNone else DenialReasonPermissionNotGranted).
Proof.
  intros d blocked. subst d blocked. unfold EvaluateAuthorization.
  destruct (IsMutationPermission p), (String.eqb (tenant_Status t) StatusActive),
    (String.eqb (tenant_Status t) StatusArchived),
    (RoleAllows (membership_Role m) p); done.
Qed.

(** Authorization and the advertised permissions agree. A permission check
    on a tenant is granted exactly when the permission is in the list of
    effective permissions that the service attaches to the tenant context for
    the same status and role, for every status and role string, known or not. *)
Theorem authorization_matches_effective_permissions (t : Tenant) (m : Membership)
    (p : Permission) :
  decision_Allowed (EvaluateAuthorization t m p) =
  slices_Contains (EffectivePermissions (tenant_Status t) (membership_Role m)) p.
Proof.
  destruct (EvaluateAuthorization_spec t m p) as [-> _].
  unfold EffectivePermissions, RoleAllows.
  destruct (String.eqb (tenant_Status t) StatusActive).
  - by rewrite andb_false_r.
  - rewrite slices_Contains_filter, andb_true_r. apply andb_comm.
Qed.

Lemma role_subset r1 r2 :
  forallb (slices_Contains (PermissionsForRole r2)) (PermissionsForRole r1) = true →
  ∀ p, RoleAllows r1 p = true → RoleAllows r2 p = true.
Proof. intros H p. by apply slices_Contains_subset. Qed.

Lemma RoleAllows_known r p : RoleAllows r p = true → IsKnownPermission p = true.
Proof.
  unfold RoleAllows, PermissionsForRole, IsKnownPermission.
  repeat case_match; try done; by apply slices_Contains_subset.
Qed.

(** The roles form a chain. Whatever a viewer may do a member may do,
    whatever a member may do an admin may do, and whatever an admin may do the
    owner may do; only the owner may archive the tenant; a viewer holds no
    permission that changes state; no role grants an unknown permission. *)
Theorem role_permissions_nested (p : Permission) :
  (RoleAllows RoleViewer p = true → RoleAllows RoleMember p = true) ∧
  (RoleAllows RoleMember p = true → RoleAllows RoleAdmin p = true) ∧
  (RoleAllows RoleAdmin p = true → RoleAllows RoleOwner p = true) ∧
  (RoleAllows RoleOwner p = IsKnownPermission p) ∧
  (IsMutationPermission p = true → RoleAllows RoleViewer p = false) ∧
  (∀ role, RoleAllows role PermissionTenantArchive = String.eqb role RoleOwner).
Proof.
  repeat split.
  - by apply role_subset.
  - by apply role_subset.
  - by apply role_subset.
  - intros Hm. destruct (RoleAllows RoleViewer p) eqn:E; [|done].
    assert (forallb (λ q, negb (IsMutationPermission q)) viewerPermissions = true)
      as Hall by done.
    rewrite forallb_forall in Hall.
    apply slices_Contains_true, list_elem_of_In, Hall in E. by rewrite Hm in E.
  - intros role. unfold RoleAllows, PermissionsForRole.
    destruct (String.eqb role RoleOwner); [done|].
    by repeat case_match.
Qed.

Lemma CanManageMember_known actor target newRole :
  CanManageMember actor target newRole = true → IsKnownRole newRole = true.
Proof. unfold CanManageMember. repeat case_match; rewrite ?andb_true_iff; naive_solver. Qed.
