(* ===== verification/TenantStore.v ===== *)
(** * Tenant service: tables, row security and SQL statements

    Models the tables, constraints and row-level security policies of
    [services/tenant/migrations] and, one definition per statement, the SQL that
    [services/tenant/internal/adapters/postgres] runs on them. *)

From S2P Require Import Prelude GoStrings Postgres Outbox TenantDomain.
From stdpp Require Import strings gmap list sorting.
From Stdlib Require Import String Ascii Lia.
Open Scope string_scope.
Open Scope list_scope.
Open Scope Z_scope.

(** ** errors.go, onboarding.go

    [ErrDatabase] is an error of the driver that [mapDatabaseError] leaves as it
    is; [ErrInternal] a failure to generate an identifier or to marshal. *)
Inductive error :=
| ErrInvalidArgument
| ErrNotFound
| ErrForbidden
| ErrConflict (constraint : string)
| ErrVersionConflict
| ErrLastOwner
| ErrArchived
| ErrTenantNotActive
| ErrInvalidOperationTransition
| ErrOperationAlreadyCompleted
| ErrDatabase (e : db_error)
| ErrInternal.

#[global] Instance error_eq_dec : EqDecision error.
Proof. solve_decision. Defined.
#[global] Instance error_db : DbError error := ErrDatabase.

(** repository.go *)
Definition mapDatabaseError (err : error) : error :=
  match err with
  | ErrDatabase ErrNoRows => ErrNotFound
  | ErrDatabase (ErrUniqueViolation c) => ErrConflict c
  | _ => err
  end.

(** ** Checks of the schema *)

(** [^[a-z0-9](?:[a-z0-9-]{1,61}[a-z0-9])$] *)
Definition is_slug_byte (c : ascii) : bool := is_lower_alnum c || Ascii.eqb c "-"%char.
Definition slugExpression_MatchString (s : string) : bool :=
  match list_ascii_of_string s, rev (list_ascii_of_string s) with
  | first :: rest, last :: _ =>
      is_lower_alnum first && is_lower_alnum last && forallb is_slug_byte rest
      && (3 <=? len s) && (len s <=? 63)
  | _, _ => false
  end.

(** [^[a-z][a-z0-9_-]{1,63}$] *)
Definition plan_key_check (s : string) : bool :=
  match list_ascii_of_string s with
  | first :: rest =>
      in_range 97 122 first
      && forallb (λ c, is_slug_byte c || Ascii.eqb c "_"%char) rest
      && (2 <=? len s) && (len s <=? 64)
  | [] => false
  end.

Definition tenant_checks (t : Tenant) : bool :=
  slugExpression_MatchString (tenant_Slug t)
  && in_bounds 1 120 (char_length (tenant_DisplayName t))
  && slices_Contains
       [StatusProvisioning; StatusActive; StatusProvisioningFailed; StatusArchived]
       (tenant_Status t)
  && in_bounds 1 64 (char_length (tenant_Region t))
  && in_bounds 1 3650 (tenant_RetentionDays t)
  && (0 <? tenant_Version t)
  && match tenant_ArchivedAt t with
     | Some _ => String.eqb (tenant_Status t) StatusArchived
     | None => negb (String.eqb (tenant_Status t) StatusArchived)
     end.

Definition membership_checks (m : Membership) : bool :=
  IsKnownRole (membership_Role m) && (0 <? membership_Version m).

Definition entitlements_checks (e : Entitlements) : bool :=
  plan_key_check (entitlements_PlanKey e) && (0 <? entitlements_Version e).

Definition operation_checks (o : Operation) : bool :=
  let state := operation_State o in
  slices_Contains
    [OperationStatePending; OperationStateRunning; OperationStateSucceeded;
     OperationStateFailed; OperationStateCanceled] state
  && String.eqb (operation_ResourceName o)
       (String.append "tenants/" (operation_TenantID o))
  && (0 <? operation_Version o)
  && (String.eqb state OperationStatePending
        && negb (is_some (operation_StartedAt o))
        && negb (is_some (operation_CompletedAt o))
      || String.eqb state OperationStateRunning
        && is_some (operation_StartedAt o)
        && negb (is_some (operation_CompletedAt o))
      || slices_Contains
           [OperationStateSucceeded; OperationStateFailed; OperationStateCanceled] state
        && is_some (operation_CompletedAt o))
  && match operation_Error o with
     | Some e => String.eqb state OperationStateFailed && is_some (opError_Details e)
     | None => negb (String.eqb state OperationStateFailed)
     end.

Section Store.
Context `{Platform, Proto}.

(** ** Tables *)

Record tenant_row := {
  row_Tenant : Tenant;
  row_CreationRequestID : string;
}.

Record tables := {
  tenants : gmap string tenant_row;
  memberships : gmap (string * string) Membership;
  entitlements : gmap string Entitlements;
  operations : gmap string Operation;
  outbox : outbox_table;
}.

Definition set_tenants (v : gmap string tenant_row) (db : tables) : tables := {|
  tenants := v; memberships := memberships db; entitlements := entitlements db;
  operations := operations db; outbox := outbox db |}.
Definition set_memberships (v : gmap (string * string) Membership) (db : tables) : tables := {|
  tenants := tenants db; memberships := v; entitlements := entitlements db;
  operations := operations db; outbox := outbox db |}.
Definition set_entitlements (v : gmap string Entitlements) (db : tables) : tables := {|
  tenants := tenants db; memberships := memberships db; entitlements := v;
  operations := operations db; outbox := outbox db |}.
Definition set_operations (v : gmap string Operation) (db : tables) : tables := {|
  tenants := tenants db; memberships := memberships db; entitlements := entitlements db;
  operations := v; outbox := outbox db |}.
Definition set_outbox (v : outbox_table) (db : tables) : tables := {|
  tenants := tenants db; memberships := memberships db; entitlements := entitlements db;
  operations := operations db; outbox := v |}.

Definition no_tables : tables := {|
  tenants := ∅; memberships := ∅; entitlements := ∅; operations := ∅;
  outbox := {| outbox_rows := ∅; outbox_next := 1 |} |}.

(** ** Row security (000002_tenant_rls.up.sql, 000003_onboarding.up.sql) *)

(** [EXISTS (SELECT 1 FROM tenant_memberships ...)] for the principal *)
Definition principal_is_member (r : rls) (db : tables) (tenantID : string) : bool :=
  match rls_principal r with
  | Some u => is_some (memberships db !! (tenantID, u))
  | None => false
  end.

Definition visible_tenant (r : rls) (db : tables) (t : Tenant) : bool :=
  tenant_scoped r (tenant_ID t)
  || user_scoped r
     && (is_id (rls_principal r) (tenant_CreatedByUserID t)
         || principal_is_member r db (tenant_ID t)).
Definition visible_membership (r : rls) (m : Membership) : bool :=
  tenant_scoped r (membership_TenantID m)
  || user_scoped r && is_id (rls_principal r) (membership_UserID m).
Definition visible_entitlements (r : rls) (db : tables) (e : Entitlements) : bool :=
  tenant_scoped r (entitlements_TenantID e)
  || user_scoped r && principal_is_member r db (entitlements_TenantID e).
Definition visible_operation (r : rls) (o : Operation) : bool :=
  tenant_scoped r (operation_TenantID o)
  || user_scoped r && is_id (rls_principal r) (operation_ActorUserID o).

(** ** SELECT statements *)

Definition context_of (t : Tenant) (m : Membership) (e : Entitlements) : TenantContext := {|
  context_Tenant := t;
  context_Membership := {|
    membership_TenantID := tenant_ID t; membership_UserID := membership_UserID m;
    membership_Role := membership_Role m; membership_Version := membership_Version m;
    membership_CreatedBy := membership_CreatedBy m;
    membership_CreatedAt := membership_CreatedAt m;
    membership_UpdatedAt := membership_UpdatedAt m |};
  context_Entitlements := {|
    entitlements_TenantID := tenant_ID t; entitlements_PlanKey := entitlements_PlanKey e;
    entitlements_Features := entitlements_Features e;
    entitlements_Limits := entitlements_Limits e;
    entitlements_Version := entitlements_Version e;
    entitlements_UpdatedAt := entitlements_UpdatedAt e |};
  context_Permissions := [] |}.

(** The join of [queryContext]; [FOR UPDATE] also needs the update policies. *)
Definition sql_context (tenantID userID : string) (lock : bool) (sc : Scope)
    (db : tables) : result db_error TenantContext :=
  r ← rls_of sc; t ← cast tenantID; u ← cast userID;
  match tenants db !! t, memberships db !! (t, u), entitlements db !! t with
  | Some row, Some m, Some e =>
      if visible_tenant r db (row_Tenant row) && visible_membership r m
         && visible_entitlements r db e && (negb lock || tenant_scoped r t)
      then Ok (context_of (row_Tenant row) m e) else Err ErrNoRows
  | _, _, _ => Err ErrNoRows
  end.

Definition sql_membership (tenantID userID : string) (lock : bool) (sc : Scope)
    (db : tables) : result db_error Membership :=
  r ← rls_of sc; t ← cast tenantID; u ← cast userID;
  match memberships db !! (t, u) with
  | Some m =>
      if visible_membership r m && (negb lock || tenant_scoped r t)
      then Ok m else Err ErrNoRows
  | None => Err ErrNoRows
  end.

Definition sql_tenant (tenantID : string) (sc : Scope) (db : tables)
  : result db_error Tenant :=
  r ← rls_of sc; t ← cast tenantID;
  match tenants db !! t with
  | Some row => if visible_tenant r db (row_Tenant row)
                then Ok (row_Tenant row) else Err ErrNoRows
  | None => Err ErrNoRows
  end.

Definition sql_operation_by_id (operationID : string) (sc : Scope) (db : tables)
  : result db_error Operation :=
  r ← rls_of sc; o ← cast operationID;
  match operations db !! o with
  | Some op => if visible_operation r op then Ok op else Err ErrNoRows
  | None => Err ErrNoRows
  end.

Definition sql_operation_by_tenant (tenantID : string) (sc : Scope) (db : tables)
  : result db_error Operation :=
  r ← rls_of sc; t ← cast tenantID;
  match List.find (λ op, String.eqb (operation_TenantID op) t && visible_operation r op)
          (snd <$> map_to_list (operations db)) with
  | Some op => Ok op
  | None => Err ErrNoRows
  end.

(** The idempotency lookup of [CreateTenant]; [None] is [pgx.ErrNoRows]. *)
Definition sql_existing_tenant (actorUserID requestID : string) (sc : Scope)
    (db : tables) : result db_error (option string) :=
  r ← rls_of sc; u ← cast actorUserID;
  Ok ((λ row, tenant_ID (row_Tenant row)) <$>
      List.find (λ row, String.eqb (tenant_CreatedByUserID (row_Tenant row)) u
                        && String.eqb (row_CreationRequestID row) requestID
                        && visible_tenant r db (row_Tenant row))
        (snd <$> map_to_list (tenants db))).

Definition membership_le (a b : Membership) : Prop :=
  String.leb (membership_UserID a) (membership_UserID b) = true.
#[export] Instance membership_le_dec : RelDecision membership_le.
Proof. intros a b. unfold membership_le. apply _. Defined.

(** The order of [uuid] values is the order of their canonical text. *)
Definition sql_list_members (tenantID : string) (limit : Z) (cursor : option string)
    (sc : Scope) (db : tables) : result db_error (list Membership) :=
  r ← rls_of sc; t ← cast tenantID;
  after ← match cursor with
          | Some c => u ← cast c; Ok (Some u)
          | None => Ok None
          end;
  Ok (take (Z.to_nat limit)
       (merge_sort membership_le
          (List.filter (λ m,
             String.eqb (membership_TenantID m) t && visible_membership r m
             && match after with
                | Some u => String.ltb u (membership_UserID m)
                | None => true
                end) (snd <$> map_to_list (memberships db))))).

Definition context_ge (a b : TenantContext) : Prop :=
  String.leb (tenant_ID (context_Tenant b)) (tenant_ID (context_Tenant a)) = true.
#[export] Instance context_ge_dec : RelDecision context_ge.
Proof. intros a b. unfold context_ge. apply _. Defined.

Definition sql_list_contexts (userID : string) (limit : Z) (cursor : option string)
    (sc : Scope) (db : tables) : result db_error (list TenantContext) :=
  r ← rls_of sc; u ← cast userID;
  before ← match cursor with
           | Some c => t ← cast c; Ok (Some t)
           | None => Ok None
           end;
  Ok (take (Z.to_nat limit)
       (merge_sort context_ge
          (omap (λ m,
             match tenants db !! membership_TenantID m,
                   entitlements db !! membership_TenantID m with
             | Some row, Some e =>
                 if String.eqb (membership_UserID m) u
                    && visible_tenant r db (row_Tenant row)
                    && visible_membership r m && visible_entitlements r db e
                    && match before with
                       | Some t => String.ltb (membership_TenantID m) t
                       | None => true
                       end
                 then Some (context_of (row_Tenant row) m e) else None
             | _, _ => None
             end) (snd <$> map_to_list (memberships db))))).

(** [lockOwners]: the user ids of the owners, in order. *)
Definition sql_owners (tenantID : string) (sc : Scope) (db : tables)
  : result db_error (list string) :=
  r ← rls_of sc; t ← cast tenantID;
  Ok (membership_UserID <$>
      merge_sort membership_le
        (List.filter (λ m,
           String.eqb (membership_TenantID m) t
           && String.eqb (membership_Role m) RoleOwner && tenant_scoped r t)
           (snd <$> map_to_list (memberships db)))).

(** ** INSERT statements: policy, checks, uniqueness, foreign key *)

Definition sql_insert_tenant (tenant : Tenant) (requestID : string) (sc : Scope)
    (db : tables) : result db_error (unit * tables) :=
  r ← rls_of sc; t ← cast (tenant_ID tenant); u ← cast (tenant_CreatedByUserID tenant);
  let row := {|
    tenant_ID := t; tenant_Slug := tenant_Slug tenant;
    tenant_DisplayName := tenant_DisplayName tenant;
    tenant_Status := StatusProvisioning; tenant_Region := tenant_Region tenant;
    tenant_RetentionDays := tenant_RetentionDays tenant;
    tenant_Version := tenant_Version tenant; tenant_CreatedByUserID := u;
    tenant_CreatedAt := tenant_CreatedAt tenant;
    tenant_UpdatedAt := tenant_UpdatedAt tenant; tenant_ArchivedAt := None |} in
  fail_if (negb (tenant_scoped r t && is_id (rls_principal r) u))
    (ErrRowSecurity "tenant_tenants");;
  fail_if (negb (tenant_checks row)) (ErrCheckViolation "tenant_tenants");;
  fail_if (is_some (tenants db !! t)) (ErrUniqueViolation "tenant_tenants_pkey");;
  fail_if (table_any (λ x, String.eqb (tenant_Slug (row_Tenant x)) (tenant_Slug row))
             (tenants db)) (ErrUniqueViolation "tenant_tenants_slug_unique");;
  fail_if (table_any (λ x, String.eqb (tenant_CreatedByUserID (row_Tenant x)) u
                           && String.eqb (row_CreationRequestID x) requestID)
             (tenants db)) (ErrUniqueViolation "tenant_tenants_creation_request_unique");;
  Ok (tt, set_tenants
            (<[t := {| row_Tenant := row; row_CreationRequestID := requestID |}]>
               (tenants db)) db).

Definition sql_insert_membership (m : Membership) (sc : Scope) (db : tables)
  : result db_error (unit * tables) :=
  r ← rls_of sc; t ← cast (membership_TenantID m); u ← cast (membership_UserID m);
  by_ ← cast (membership_CreatedBy m);
  let row := {|
    membership_TenantID := t; membership_UserID := u; membership_Role := membership_Role m;
    membership_Version := membership_Version m; membership_CreatedBy := by_;
    membership_CreatedAt := membership_CreatedAt m;
    membership_UpdatedAt := membership_UpdatedAt m |} in
  fail_if (negb (tenant_scoped r t)) (ErrRowSecurity "tenant_memberships");;
  fail_if (negb (membership_checks row)) (ErrCheckViolation "tenant_memberships");;
  fail_if (is_some (memberships db !! (t, u)))
    (ErrUniqueViolation "tenant_memberships_pkey");;
  fail_if (negb (is_some (tenants db !! t))) (ErrForeignKeyViolation "tenant_memberships");;
  Ok (tt, set_memberships (<[(t, u) := row]> (memberships db)) db).

Definition sql_insert_entitlements (e : Entitlements) (sc : Scope) (db : tables)
  : result db_error (unit * tables) :=
  r ← rls_of sc; t ← cast (entitlements_TenantID e);
  let row := {|
    entitlements_TenantID := t; entitlements_PlanKey := entitlements_PlanKey e;
    entitlements_Features := entitlements_Features e;
    entitlements_Limits := entitlements_Limits e;
    entitlements_Version := entitlements_Version e;
    entitlements_UpdatedAt := entitlements_UpdatedAt e |} in
  fail_if (negb (tenant_scoped r t)) (ErrRowSecurity "tenant_entitlements");;
  fail_if (negb (entitlements_checks row)) (ErrCheckViolation "tenant_entitlements");;
  fail_if (is_some (entitlements db !! t)) (ErrUniqueViolation "tenant_entitlements_pkey");;
  fail_if (negb (is_some (tenants db !! t))) (ErrForeignKeyViolation "tenant_entitlements");;
  Ok (tt, set_entitlements (<[t := row]> (entitlements db)) db).

Definition sql_insert_operation (o : Operation) (sc : Scope) (db : tables)
  : result db_error (unit * tables) :=
  r ← rls_of sc; id ← cast (operation_ID o); t ← cast (operation_TenantID o);
  u ← cast (operation_ActorUserID o);
  let row := {|
    operation_ID := id; operation_TenantID := t; operation_ActorUserID := u;
    operation_RequestID := operation_RequestID o; operation_State := operation_State o;
    operation_ResourceName := operation_ResourceName o;
    operation_WorkflowID := ""; operation_WorkflowRunID := ""; operation_Error := None;
    operation_Metadata := operation_Metadata o; operation_Version := operation_Version o;
    operation_CreatedAt := operation_CreatedAt o;
    operation_UpdatedAt := operation_UpdatedAt o;
    operation_StartedAt := None; operation_CompletedAt := None |} in
  fail_if (negb (tenant_scoped r t)) (ErrRowSecurity "tenant_onboarding_operations");;
  fail_if (negb (operation_checks row)) (ErrCheckViolation "tenant_onboarding_operations");;
  fail_if (is_some (operations db !! id))
    (ErrUniqueViolation "tenant_onboarding_operations_pkey");;
  fail_if (table_any (λ x, String.eqb (operation_TenantID x) t) (operations db))
    (ErrUniqueViolation "tenant_onboarding_operations_tenant_unique");;
  fail_if (table_any (λ x, String.eqb (operation_ActorUserID x) u
                           && String.eqb (operation_RequestID x) (operation_RequestID o))
             (operations db))
    (ErrUniqueViolation "tenant_onboarding_operations_request_unique");;
  fail_if (negb (is_some (tenants db !! t)))
    (ErrForeignKeyViolation "tenant_onboarding_operations");;
  Ok (tt, set_operations (<[id := row]> (operations db)) db).

(** ** UPDATE and DELETE statements: the value is the affected-row count *)

(** Update the tenant [t] by [f] where [guard] holds and the row is updatable. *)
Definition update_tenant (r : rls) (t : string) (guard : Tenant → bool)
    (f : Tenant → result db_error Tenant) (db : tables) : result db_error (Z * tables) :=
  match tenants db !! t with
  | Some row =>
      if tenant_scoped r t && guard (row_Tenant row) then
        new ← f (row_Tenant row);
        fail_if (negb (tenant_checks new)) (ErrCheckViolation "tenant_tenants");;
        Ok (1, set_tenants
                 (<[t := {| row_Tenant := new;
                            row_CreationRequestID := row_CreationRequestID row |}]>
                    (tenants db)) db)
      else Ok (0, db)
  | None => Ok (0, db)
  end.

(** [version = version + 1] on a BIGINT. *)
Definition sql_succ (v : Z) : result db_error Z :=
  fail_if (int64_max <? v + 1) ErrOutOfRange;; Ok (v + 1).

Definition sql_increment_tenant_version (tenantID : string) (expected new : Z)
    (updatedAt : Time) (sc : Scope) (db : tables) : result db_error (Z * tables) :=
  r ← rls_of sc; t ← cast tenantID;
  update_tenant r t (λ x, tenant_Version x =? expected) (λ x, Ok {|
    tenant_ID := tenant_ID x; tenant_Slug := tenant_Slug x;
    tenant_DisplayName := tenant_DisplayName x; tenant_Status := tenant_Status x;
    tenant_Region := tenant_Region x; tenant_RetentionDays := tenant_RetentionDays x;
    tenant_Version := new; tenant_CreatedByUserID := tenant_CreatedByUserID x;
    tenant_CreatedAt := tenant_CreatedAt x; tenant_UpdatedAt := updatedAt;
    tenant_ArchivedAt := tenant_ArchivedAt x |}) db.

Definition sql_update_tenant (tenant : Tenant) (expected : Z) (sc : Scope)
    (db : tables) : result db_error (Z * tables) :=
  r ← rls_of sc; t ← cast (tenant_ID tenant);
  update_tenant r t (λ x, tenant_Version x =? expected) (λ x, Ok {|
    tenant_ID := tenant_ID x; tenant_Slug := tenant_Slug x;
    tenant_DisplayName := tenant_DisplayName tenant; tenant_Status := tenant_Status x;
    tenant_Region := tenant_Region tenant;
    tenant_RetentionDays := tenant_RetentionDays tenant;
    tenant_Version := tenant_Version tenant;
    tenant_CreatedByUserID := tenant_CreatedByUserID x;
    tenant_CreatedAt := tenant_CreatedAt x; tenant_UpdatedAt := tenant_UpdatedAt tenant;
    tenant_ArchivedAt := tenant_ArchivedAt x |}) db.

Definition sql_archive_tenant (tenant : Tenant) (expected : Z) (sc : Scope)
    (db : tables) : result db_error (Z * tables) :=
  r ← rls_of sc; t ← cast (tenant_ID tenant);
  update_tenant r t (λ x, tenant_Version x =? expected) (λ x, Ok {|
    tenant_ID := tenant_ID x; tenant_Slug := tenant_Slug x;
    tenant_DisplayName := tenant_DisplayName x; tenant_Status := StatusArchived;
    tenant_Region := tenant_Region x; tenant_RetentionDays := tenant_RetentionDays x;
    tenant_Version := tenant_Version tenant;
    tenant_CreatedByUserID := tenant_CreatedByUserID x;
    tenant_CreatedAt := tenant_CreatedAt x; tenant_UpdatedAt := tenant_UpdatedAt tenant;
    tenant_ArchivedAt := tenant_ArchivedAt tenant |}) db.

(** [SET status = ..., version = version + 1 WHERE status = 'provisioning'] *)
Definition sql_leave_provisioning (tenantID : string) (status : Status) (at_ : Time)
    (sc : Scope) (db : tables) : result db_error (Z * tables) :=
  r ← rls_of sc; t ← cast tenantID;
  update_tenant r t (λ x, String.eqb (tenant_Status x) StatusProvisioning) (λ x,
    v ← sql_succ (tenant_Version x);
    Ok {|
      tenant_ID := tenant_ID x; tenant_Slug := tenant_Slug x;
      tenant_DisplayName := tenant_DisplayName x; tenant_Status := status;
      tenant_Region := tenant_Region x; tenant_RetentionDays := tenant_RetentionDays x;
      tenant_Version := v; tenant_CreatedByUserID := tenant_CreatedByUserID x;
      tenant_CreatedAt := tenant_CreatedAt x; tenant_UpdatedAt := at_;
      tenant_ArchivedAt := tenant_ArchivedAt x |}) db.

Definition sql_update_role (tenantID userID : string) (expected : Z) (role : Role)
    (version : Z) (updatedAt : Time) (sc : Scope) (db : tables)
  : result db_error (Z * tables) :=
  r ← rls_of sc; t ← cast tenantID; u ← cast userID;
  match memberships db !! (t, u) with
  | Some m =>
      if tenant_scoped r t && (membership_Version m =? expected) then
        let row := {|
          membership_TenantID := membership_TenantID m;
          membership_UserID := membership_UserID m; membership_Role := role;
          membership_Version := version; membership_CreatedBy := membership_CreatedBy m;
          membership_CreatedAt := membership_CreatedAt m;
          membership_UpdatedAt := updatedAt |} in
        fail_if (negb (membership_checks row)) (ErrCheckViolation "tenant_memberships");;
        Ok (1, set_memberships (<[(t, u) := row]> (memberships db)) db)
      else Ok (0, db)
  | None => Ok (0, db)
  end.

Definition sql_delete_membership (tenantID userID : string) (expected : Z)
    (sc : Scope) (db : tables) : result db_error (Z * tables) :=
  r ← rls_of sc; t ← cast tenantID; u ← cast userID;
  match memberships db !! (t, u) with
  | Some m =>
      if tenant_scoped r t && (membership_Version m =? expected)
      then Ok (1, set_memberships (delete (t, u) (memberships db)) db)
      else Ok (0, db)
  | None => Ok (0, db)
  end.

(** Update the operation by [f] where it belongs to the tenant and its state is
    one of [states]; every such statement increments the version. *)
Definition update_operation (tenantID operationID : string) (states : list string)
    (f : Operation → Z → Operation) (sc : Scope) (db : tables)
  : result db_error (Z * tables) :=
  r ← rls_of sc; t ← cast tenantID; id ← cast operationID;
  match operations db !! id with
  | Some o =>
      if String.eqb (operation_TenantID o) t && tenant_scoped r t
         && slices_Contains states (operation_State o) then
        v ← sql_succ (operation_Version o);
        fail_if (negb (operation_checks (f o v)))
          (ErrCheckViolation "tenant_onboarding_operations");;
        Ok (1, set_operations (<[id := f o v]> (operations db)) db)
      else Ok (0, db)
  | None => Ok (0, db)
  end.

Definition sql_operation_running (tenantID operationID workflowID workflowRunID : string)
    (startedAt : Time) : Scope → tables → result db_error (Z * tables) :=
  update_operation tenantID operationID [OperationStatePending] (λ o v, {|
    operation_ID := operation_ID o; operation_TenantID := operation_TenantID o;
    operation_ActorUserID := operation_ActorUserID o;
    operation_RequestID := operation_RequestID o;
    operation_State := OperationStateRunning;
    operation_ResourceName := operation_ResourceName o;
    operation_WorkflowID := workflowID; operation_WorkflowRunID := workflowRunID;
    operation_Error := operation_Error o; operation_Metadata := operation_Metadata o;
    operation_Version := v; operation_CreatedAt := operation_CreatedAt o;
    operation_UpdatedAt := startedAt;
    operation_StartedAt := Some (default startedAt (operation_StartedAt o));
    operation_CompletedAt := operation_CompletedAt o |}).

Definition sql_operation_succeeded (tenantID operationID : string) (completedAt : Time)
  : Scope → tables → result db_error (Z * tables) :=
  update_operation tenantID operationID [OperationStateRunning] (λ o v, {|
    operation_ID := operation_ID o; operation_TenantID := operation_TenantID o;
    operation_ActorUserID := operation_ActorUserID o;
    operation_RequestID := operation_RequestID o;
    operation_State := OperationStateSucceeded;
    operation_ResourceName := operation_ResourceName o;
    operation_WorkflowID := operation_WorkflowID o;
    operation_WorkflowRunID := operation_WorkflowRunID o;
    operation_Error := operation_Error o; operation_Metadata := operation_Metadata o;
    operation_Version := v; operation_CreatedAt := operation_CreatedAt o;
    operation_UpdatedAt := completedAt; operation_StartedAt := operation_StartedAt o;
    operation_CompletedAt := Some completedAt |}).

Definition sql_operation_failed (tenantID operationID : string) (err : OperationError)
    (failedAt : Time) : Scope → tables → result db_error (Z * tables) :=
  update_operation tenantID operationID [OperationStatePending; OperationStateRunning]
    (λ o v, {|
    operation_ID := operation_ID o; operation_TenantID := operation_TenantID o;
    operation_ActorUserID := operation_ActorUserID o;
    operation_RequestID := operation_RequestID o;
    operation_State := OperationStateFailed;
    operation_ResourceName := operation_ResourceName o;
    operation_WorkflowID := operation_WorkflowID o;
    operation_WorkflowRunID := operation_WorkflowRunID o;
    operation_Error := Some err; operation_Metadata := operation_Metadata o;
    operation_Version := v; operation_CreatedAt := operation_CreatedAt o;
    operation_UpdatedAt := failedAt; operation_StartedAt := operation_StartedAt o;
    operation_CompletedAt := Some failedAt |}).

End Store.

#[global] Arguments sql_context : simpl never.
#[global] Arguments sql_membership : simpl never.
#[global] Arguments sql_tenant : simpl never.
#[global] Arguments sql_operation_by_id : simpl never.
#[global] Arguments sql_operation_by_tenant : simpl never.
#[global] Arguments sql_existing_tenant : simpl never.
#[global] Arguments sql_list_members : simpl never.
#[global] Arguments sql_list_contexts : simpl never.
#[global] Arguments sql_owners : simpl never.
#[global] Arguments sql_insert_tenant : simpl never.
#[global] Arguments sql_insert_membership : simpl never.
#[global] Arguments sql_insert_entitlements : simpl never.
#[global] Arguments sql_insert_operation : simpl never.
#[global] Arguments sql_increment_tenant_version : simpl never.
#[global] Arguments sql_update_tenant : simpl never.
#[global] Arguments sql_archive_tenant : simpl never.
#[global] Arguments sql_leave_provisioning : simpl never.
#[global] Arguments sql_update_role : simpl never.
#[global] Arguments sql_delete_membership : simpl never.
#[global] Arguments sql_operation_running : simpl never.
#[global] Arguments sql_operation_succeeded : simpl never.
#[global] Arguments sql_operation_failed : simpl never.
