(* ===== verification/TenantRepository.v ===== *)
(** * Tenant service: the repository

    Models [services/tenant/internal/adapters/postgres] ([repository.go],
    [tenant.go], [membership.go], [onboarding.go]) and the parameter structs of
    [services/tenant/internal/ports/repository.go]. Each method is the sequence
    of statements of the source, guards and early returns included; it runs in
    one transaction ([run]). *)

From S2P Require Import Prelude GoStrings Postgres Usecase Outbox TenantDomain.
From S2P Require Import TenantStore.
From stdpp Require Import strings gmap list.
From Stdlib Require Import String Lia.
Open Scope string_scope.
Open Scope list_scope.
Open Scope Z_scope.

Section Repository.
Context `{Platform, Proto}.

(** ** ports/repository.go *)

Record CreateTenantParams := {
  createParams_Context : TenantContext;
  createParams_Operation : Operation;
  createParams_RequestID : string;
  createParams_Event : OutboxEvent;
}.

Record MarkOnboardingRunningParams := {
  runningParams_ServicePrincipalID : string;
  runningParams_TenantID : string;
  runningParams_OperationID : string;
  runningParams_WorkflowID : string;
  runningParams_WorkflowRunID : string;
  runningParams_StartedAt : Time;
  runningParams_Event : OutboxEvent;
}.

(** [Event] is a Go function value: [None] is the nil function. *)
Record CompleteOnboardingParams := {
  completeParams_ServicePrincipalID : string;
  completeParams_TenantID : string;
  completeParams_OperationID : string;
  completeParams_CompletedAt : Time;
  completeParams_Event : option (TenantContext → result error OutboxEvent);
}.

Record FailOnboardingParams := {
  failParams_ServicePrincipalID : string;
  failParams_TenantID : string;
  failParams_OperationID : string;
  failParams_FailedAt : Time;
  failParams_Error : OperationError;
  failParams_Event : option (Tenant → Operation → result error OutboxEvent);
}.

Record UpdateTenantParams := {
  updateParams_ActorUserID : string;
  updateParams_Tenant : Tenant;
  updateParams_ExpectedVersion : Z;
  updateParams_Event : OutboxEvent;
}.

Record ArchiveTenantParams := {
  archiveParams_ActorUserID : string;
  archiveParams_Tenant : Tenant;
  archiveParams_ExpectedVersion : Z;
  archiveParams_Event : OutboxEvent;
}.

Record AddMemberParams := {
  addParams_ActorUserID : string;
  addParams_Membership : Membership;
  addParams_ExpectedTenantVersion : Z;
  addParams_NewTenantVersion : Z;
  addParams_Event : OutboxEvent;
}.

Record UpdateMemberRoleParams := {
  roleParams_ActorUserID : string;
  roleParams_Membership : Membership;
  roleParams_PreviousRole : Role;
  roleParams_ExpectedMembershipVersion : Z;
  roleParams_ExpectedTenantVersion : Z;
  roleParams_NewTenantVersion : Z;
  roleParams_Event : OutboxEvent;
}.

Record RemoveMemberParams := {
  removeParams_ActorUserID : string;
  removeParams_TenantID : string;
  removeParams_UserID : string;
  removeParams_PreviousRole : Role;
  removeParams_ExpectedMembershipVersion : Z;
  removeParams_ExpectedTenantVersion : Z;
  removeParams_NewTenantVersion : Z;
  removeParams_Event : OutboxEvent;
}.

(** ** repository.go *)

Definition repo (A : Type) : Type := tx tables error A.

Definition beginTenant (ctx : Ctx) (tenantID principalID : string) (read_only : bool)
  : repo unit :=
  Begin (TenantScope tenantID principalID (ctx_RequestID ctx) (ctx_CorrelationID ctx))
    read_only.
Definition beginPrincipal (ctx : Ctx) (principalID : string) (read_only : bool)
  : repo unit :=
  Begin (PrincipalScope principalID (ctx_RequestID ctx) (ctx_CorrelationID ctx)) read_only.
Definition beginServiceTenant (ctx : Ctx) (tenantID servicePrincipalID : string)
    (read_only : bool) : repo unit :=
  Begin (ServiceTenantScope tenantID servicePrincipalID (ctx_RequestID ctx)
           (ctx_CorrelationID ctx)) read_only.
Definition applyTenantScope (ctx : Ctx) (tenantID principalID : string) : repo unit :=
  ApplyScope (TenantScope tenantID principalID (ctx_RequestID ctx) (ctx_CorrelationID ctx)).

Definition queryContext (tenantID userID : string) (lock : bool) : repo TenantContext :=
  map_err mapDatabaseError (query (sql_context tenantID userID lock)).

Definition insertOutbox (tenantID : string) (event : OutboxEvent) : repo unit :=
  map_err mapDatabaseError
    (now ← clock_timestamp;
     exec (λ _ db, ob ← sql_insert_outbox now tenantID event (outbox db);
                   Ok (tt, set_outbox ob db))).

(** ** membership.go *)

Definition queryMembership (tenantID userID : string) (lock : bool) : repo Membership :=
  map_err mapDatabaseError (query (sql_membership tenantID userID lock)).

Definition GetMembership (ctx : Ctx) (tenantID userID : string) : repo Membership :=
  beginTenant ctx tenantID userID true;;
  result ← queryMembership tenantID userID false;
  commit;; mret result.

Definition GetMembershipAsActor (ctx : Ctx) (tenantID actorUserID targetUserID : string)
  : repo Membership :=
  beginTenant ctx tenantID actorUserID true;;
  result ← queryMembership tenantID targetUserID false;
  commit;; mret result.

Definition ListMembers (ctx : Ctx) (tenantID actorUserID : string) (limit : Z)
    (cursor : option string) : repo (list Membership) :=
  beginTenant ctx tenantID actorUserID true;;
  queryContext tenantID actorUserID false;;
  result ← query (sql_list_members tenantID limit cursor);
  commit;; mret result.

Definition insertMembership (m : Membership) : repo unit :=
  map_err mapDatabaseError (exec (sql_insert_membership m)).

Definition AddMember (ctx : Ctx) (params : AddMemberParams) : repo Membership :=
  let membership := addParams_Membership params in
  let tenantID := membership_TenantID membership in
  beginTenant ctx tenantID (addParams_ActorUserID params) false;;
  actorContext ← queryContext tenantID (addParams_ActorUserID params) true;
  lift (fail_if (negb (String.eqb (tenant_Status (context_Tenant actorContext)) StatusActive))
          ErrArchived);;
  lift (fail_if (negb (tenant_Version (context_Tenant actorContext)
                       =? addParams_ExpectedTenantVersion params)) ErrVersionConflict);;
  lift (fail_if (negb (CanManageMember (membership_Role (context_Membership actorContext))
                         "" (membership_Role membership))) ErrForbidden);;
  insertMembership membership;;
  exec (sql_increment_tenant_version tenantID (addParams_ExpectedTenantVersion params)
          (addParams_NewTenantVersion params) (membership_UpdatedAt membership));;
  insertOutbox tenantID (addParams_Event params);;
  result ← queryMembership tenantID (membership_UserID membership) false;
  commit;; mret result.

Definition lockOwners (tenantID : string) : repo (list string) :=
  query (sql_owners tenantID).

(** [if len(owners) <= 1 { return ErrLastOwner }] when an owner would go. *)
Definition protectLastOwner (tenantID : string) (losesOwner : bool) : repo unit :=
  if losesOwner then
    owners ← lockOwners tenantID;
    lift (fail_if (List.length owners <=? 1)%nat ErrLastOwner)
  else mret tt.

Definition UpdateMemberRole (ctx : Ctx) (params : UpdateMemberRoleParams)
  : repo Membership :=
  let membership := roleParams_Membership params in
  let tenantID := membership_TenantID membership in
  beginTenant ctx tenantID (roleParams_ActorUserID params) false;;
  actorContext ← queryContext tenantID (roleParams_ActorUserID params) true;
  target ← queryMembership tenantID (membership_UserID membership) true;
  lift (fail_if (negb (String.eqb (tenant_Status (context_Tenant actorContext)) StatusActive))
          ErrArchived);;
  lift (fail_if (negb (tenant_Version (context_Tenant actorContext)
                       =? roleParams_ExpectedTenantVersion params)
                 || negb (membership_Version target
                          =? roleParams_ExpectedMembershipVersion params))
          ErrVersionConflict);;
  lift (fail_if (negb (CanManageMember (membership_Role (context_Membership actorContext))
                         (membership_Role target) (membership_Role membership)))
          ErrForbidden);;
  protectLastOwner tenantID
    (String.eqb (membership_Role target) RoleOwner
     && negb (String.eqb (membership_Role membership) RoleOwner));;
  rows ← exec (sql_update_role tenantID (membership_UserID membership)
                 (roleParams_ExpectedMembershipVersion params)
                 (membership_Role membership) (membership_Version membership)
                 (membership_UpdatedAt membership));
  lift (fail_if (negb (rows =? 1)) ErrVersionConflict);;
  exec (sql_increment_tenant_version tenantID (roleParams_ExpectedTenantVersion params)
          (roleParams_NewTenantVersion params) (membership_UpdatedAt membership));;
  insertOutbox tenantID (roleParams_Event params);;
  result ← queryMembership tenantID (membership_UserID membership) false;
  commit;; mret result.

Definition RemoveMember (ctx : Ctx) (params : RemoveMemberParams) : repo unit :=
  let tenantID := removeParams_TenantID params in
  beginTenant ctx tenantID (removeParams_ActorUserID params) false;;
  actorContext ← queryContext tenantID (removeParams_ActorUserID params) true;
  target ← queryMembership tenantID (removeParams_UserID params) true;
  lift (fail_if (negb (String.eqb (tenant_Status (context_Tenant actorContext)) StatusActive))
          ErrArchived);;
  lift (fail_if (negb (tenant_Version (context_Tenant actorContext)
                       =? removeParams_ExpectedTenantVersion params)
                 || negb (membership_Version target
                          =? removeParams_ExpectedMembershipVersion params))
          ErrVersionConflict);;
  lift (fail_if (negb (CanManageMember (membership_Role (context_Membership actorContext))
                         (membership_Role target) (membership_Role target)))
          ErrForbidden);;
  protectLastOwner tenantID (String.eqb (membership_Role target) RoleOwner);;
  rows ← exec (sql_delete_membership tenantID (removeParams_UserID params)
                 (removeParams_ExpectedMembershipVersion params));
  lift (fail_if (negb (rows =? 1)) ErrVersionConflict);;
  exec (sql_increment_tenant_version tenantID (removeParams_ExpectedTenantVersion params)
          (removeParams_NewTenantVersion params)
          (event_OccurredAt (removeParams_Event params)));;
  insertOutbox tenantID (removeParams_Event params);;
  commit.

(** ** onboarding.go *)

Definition insertOperation (operation : Operation) : repo unit :=
  map_err mapDatabaseError (exec (sql_insert_operation operation)).
Definition queryOperationByID (operationID : string) : repo Operation :=
  map_err mapDatabaseError (query (sql_operation_by_id operationID)).
Definition queryOperationByTenant (tenantID : string) : repo Operation :=
  map_err mapDatabaseError (query (sql_operation_by_tenant tenantID)).
Definition queryTenant (tenantID : string) : repo Tenant :=
  map_err mapDatabaseError (query (sql_tenant tenantID)).

Definition GetOperation (ctx : Ctx) (actorUserID operationID : string) : repo Operation :=
  beginPrincipal ctx actorUserID true;;
  operation ← queryOperationByID operationID;
  lift (fail_if (negb (String.eqb (operation_ActorUserID operation) actorUserID))
          ErrNotFound);;
  commit;; mret operation.

Definition MarkOnboardingRunning (ctx : Ctx) (params : MarkOnboardingRunningParams)
  : repo Operation :=
  let tenantID := runningParams_TenantID params in
  beginServiceTenant ctx tenantID (runningParams_ServicePrincipalID params) false;;
  rows ← exec (sql_operation_running tenantID (runningParams_OperationID params)
                 (runningParams_WorkflowID params) (runningParams_WorkflowRunID params)
                 (runningParams_StartedAt params));
  operation ← queryOperationByID (runningParams_OperationID params);
  if rows =? 0 then
    if String.eqb (operation_State operation) OperationStateRunning
       || String.eqb (operation_State operation) OperationStateSucceeded
    then commit;; mret operation
    else if String.eqb (operation_State operation) OperationStateFailed
            || String.eqb (operation_State operation) OperationStateCanceled
    then lift (Err ErrOperationAlreadyCompleted)
    else lift (Err ErrInvalidOperationTransition)
  else
    insertOutbox tenantID (runningParams_Event params);;
    commit;; mret operation.

(** The statements of [CompleteOnboarding] after its state checks. *)
Definition CompleteOnboarding_activate (params : CompleteOnboardingParams)
  : repo CreateTenantResult :=
  let tenantID := completeParams_TenantID params in
  let completedAt := completeParams_CompletedAt params in
  rows ← exec (sql_leave_provisioning tenantID StatusActive completedAt);
  lift (fail_if (negb (rows =? 1)) ErrInvalidOperationTransition);;
  exec (sql_operation_succeeded tenantID (completeParams_OperationID params) completedAt);;
  buildEvent ← lift (from_option_err ErrInvalidArgument (completeParams_Event params));
  operation ← queryOperationByID (completeParams_OperationID params);
  contextValue ← queryContext tenantID (operation_ActorUserID operation) false;
  event ← lift (buildEvent contextValue);
  insertOutbox tenantID event;;
  commit;;
  mret {| created_Context := contextValue; created_Operation := operation |}.

Definition CompleteOnboarding (ctx : Ctx) (params : CompleteOnboardingParams)
  : repo CreateTenantResult :=
  let tenantID := completeParams_TenantID params in
  beginServiceTenant ctx tenantID (completeParams_ServicePrincipalID params) false;;
  operation ← queryOperationByID (completeParams_OperationID params);
  if String.eqb (operation_State operation) OperationStateSucceeded then
    contextValue ← queryContext tenantID (operation_ActorUserID operation) false;
    commit;;
    mret {| created_Context := contextValue; created_Operation := operation |}
  else
    lift (fail_if (negb (String.eqb (operation_State operation) OperationStateRunning))
            ErrInvalidOperationTransition);;
    CompleteOnboarding_activate params.

(** The statements of [FailOnboarding] after its state checks; neither
    affected-row count is looked at. *)
Definition FailOnboarding_record (params : FailOnboardingParams)
  : repo (Operation * Tenant) :=
  let tenantID := failParams_TenantID params in
  let failedAt := failParams_FailedAt params in
  exec (sql_leave_provisioning tenantID StatusProvisioningFailed failedAt);;
  exec (sql_operation_failed tenantID (failParams_OperationID params)
          (failParams_Error params) failedAt);;
  buildEvent ← lift (from_option_err ErrInvalidArgument (failParams_Event params));
  operation ← queryOperationByID (failParams_OperationID params);
  tenant ← queryTenant tenantID;
  event ← lift (buildEvent tenant operation);
  insertOutbox tenantID event;;
  commit;;
  mret (operation, tenant).

Definition FailOnboarding (ctx : Ctx) (params : FailOnboardingParams)
  : repo (Operation * Tenant) :=
  let tenantID := failParams_TenantID params in
  beginServiceTenant ctx tenantID (failParams_ServicePrincipalID params) false;;
  operation ← queryOperationByID (failParams_OperationID params);
  if String.eqb (operation_State operation) OperationStateFailed then
    tenant ← queryTenant tenantID;
    commit;; mret (operation, tenant)
  else
    lift (fail_if (String.eqb (operation_State operation) OperationStateSucceeded)
            ErrOperationAlreadyCompleted);;
    FailOnboarding_record params.

(** ** tenant.go *)

(** The writes of [CreateTenant] once no earlier request is found. *)
Definition CreateTenant_insert (ctx : Ctx) (params : CreateTenantParams)
  : repo CreateTenantResult :=
  let tenant := context_Tenant (createParams_Context params) in
  let membership := context_Membership (createParams_Context params) in
  applyTenantScope ctx (tenant_ID tenant) (tenant_CreatedByUserID tenant);;
  map_err mapDatabaseError
    (exec (sql_insert_tenant tenant (createParams_RequestID params)));;
  insertMembership membership;;
  map_err mapDatabaseError
    (exec (sql_insert_entitlements (context_Entitlements (createParams_Context params))));;
  insertOperation (createParams_Operation params);;
  insertOutbox (tenant_ID tenant) (createParams_Event params);;
  contextValue ← queryContext (tenant_ID tenant) (membership_UserID membership) false;
  operation ← queryOperationByTenant (tenant_ID tenant);
  commit;;
  mret {| created_Context := contextValue; created_Operation := operation |}.

Definition CreateTenant (ctx : Ctx) (params : CreateTenantParams)
  : repo CreateTenantResult :=
  let actorUserID := tenant_CreatedByUserID (context_Tenant (createParams_Context params)) in
  beginPrincipal ctx actorUserID false;;
  existing ← query (sql_existing_tenant actorUserID (createParams_RequestID params));
  match existing with
  | Some existingTenantID =>
      contextValue ← queryContext existingTenantID actorUserID false;
      operation ← queryOperationByTenant existingTenantID;
      commit;;
      mret {| created_Context := contextValue; created_Operation := operation |}
  | None => CreateTenant_insert ctx params
  end.

Definition GetTenantContext (ctx : Ctx) (tenantID userID : string) : repo TenantContext :=
  beginTenant ctx tenantID userID true;;
  result ← queryContext tenantID userID false;
  commit;; mret result.

Definition ListTenantContexts (ctx : Ctx) (userID : string) (limit : Z)
    (cursor : option string) : repo (list TenantContext) :=
  beginPrincipal ctx userID true;;
  contexts ← query (sql_list_contexts userID limit cursor);
  commit;; mret contexts.

Definition UpdateTenant (ctx : Ctx) (params : UpdateTenantParams) : repo TenantContext :=
  let tenant := updateParams_Tenant params in
  beginTenant ctx (tenant_ID tenant) (updateParams_ActorUserID params) false;;
  current ← queryContext (tenant_ID tenant) (updateParams_ActorUserID params) true;
  lift (fail_if (negb (String.eqb (tenant_Status (context_Tenant current)) StatusActive))
          ErrArchived);;
  lift (fail_if (negb (CanUpdateTenant (membership_Role (context_Membership current))))
          ErrForbidden);;
  lift (fail_if (negb (tenant_Version (context_Tenant current)
                       =? updateParams_ExpectedVersion params)) ErrVersionConflict);;
  rows ← exec (sql_update_tenant tenant (updateParams_ExpectedVersion params));
  lift (fail_if (negb (rows =? 1)) ErrVersionConflict);;
  insertOutbox (tenant_ID tenant) (updateParams_Event params);;
  result ← queryContext (tenant_ID tenant) (updateParams_ActorUserID params) false;
  commit;; mret result.

Definition ArchiveTenant (ctx : Ctx) (params : ArchiveTenantParams) : repo TenantContext :=
  let tenant := archiveParams_Tenant params in
  beginTenant ctx (tenant_ID tenant) (archiveParams_ActorUserID params) false;;
  current ← queryContext (tenant_ID tenant) (archiveParams_ActorUserID params) true;
  lift (fail_if (negb (CanArchiveTenant (membership_Role (context_Membership current))))
          ErrForbidden);;
  lift (fail_if (negb (tenant_Version (context_Tenant current)
                       =? archiveParams_ExpectedVersion params)) ErrVersionConflict);;
  exec (sql_archive_tenant tenant (archiveParams_ExpectedVersion params));;
  insertOutbox (tenant_ID tenant) (archiveParams_Event params);;
  result ← queryContext (tenant_ID tenant) (archiveParams_ActorUserID params) false;
  commit;; mret result.

End Repository.
