(* ===== verification/TenantService.v ===== *)
(** * Tenant service: the application layer

    Models [services/tenant/internal/application]: input validation, page
    tokens, outbox event construction, authorization checks and the use cases
    of [service.go] and [onboarding.go], each a computation in [app] (Usecase). *)

From S2P Require Import Prelude GoStrings Postgres Usecase Outbox TenantDomain.
From S2P Require Import TenantStore TenantRepository.
From stdpp Require Import strings gmap list.
From Stdlib Require Import String Lia.
Open Scope string_scope.
Open Scope list_scope.
Open Scope Z_scope.

(** ** The payload messages of [gereh.tenant.v1], built from domain values *)
Inductive TenantMessage :=
| TenantCreated (context : TenantContext) (operationID : string)
| TenantUpdated (tenant : Tenant) (updatedByUserID : string)
| TenantArchived (tenant : Tenant) (archivedByUserID : string)
| TenantMemberAdded (membership : Membership) (addedByUserID : string) (tenantVersion : Z)
| TenantMemberRoleChanged (membership : Membership) (previousRole : Role)
    (changedByUserID : string) (tenantVersion : Z)
| TenantMemberRemoved (tenantID userID : string) (previousRole : Role)
    (removedByUserID : string) (tenantVersion : Z) (removedAt : Time)
| TenantOnboardingStarted (tenantID operationID workflowID workflowRunID : string)
    (startedAt : Time)
| TenantActivated (context : TenantContext) (operationID : string) (activatedAt : Time)
| TenantOnboardingFailed (tenant : Tenant) (operation : Operation) (failedAt : Time).

(** [proto.Marshal] of a payload. *)
Class TenantProto `{Proto} := marshal_payload : TenantMessage → option wire.

(** ** validation.go *)

Section Validation.
Context `{Platform}.

Definition validateUUID (value : string) : result error unit :=
  let value := TrimSpace value in
  match uuid_Parse value with
  | Some parsed => fail_if (negb (String.eqb parsed (ToLower value))) ErrInvalidArgument
  | None => Err ErrInvalidArgument
  end.

Definition normalizeSlug (value : string) : result error string :=
  let value := ToLower (TrimSpace value) in
  fail_if (negb (slugExpression_MatchString value)) ErrInvalidArgument;; Ok value.

Definition validateDisplayName (value : string) : result error string :=
  let value := TrimSpace value in
  fail_if ((len value <? 1) || (120 <? len value)) ErrInvalidArgument;; Ok value.

Definition validateRegion (value : string) (allowed : gset string) : result error string :=
  let value := ToLower (TrimSpace value) in
  fail_if (negb (bool_decide (value ∈ allowed))) ErrInvalidArgument;; Ok value.

Definition validateRetentionDays (value : Z) : result error unit :=
  fail_if ((value <? 1) || (3650 <? value)) ErrInvalidArgument.

Definition validateOperationError (value : OperationError) : result error unit :=
  fail_if ((len (opError_Code value) <? 1) || (64 <? len (opError_Code value)))
    ErrInvalidArgument;;
  fail_if (512 <? len (opError_Message value)) ErrInvalidArgument.

(** ** pagination.go *)

Definition encodePageToken (value : string) : string :=
  if String.eqb value "" then "" else EncodeToString value.

Definition decodePageToken (value : string) : result error string :=
  let value := TrimSpace value in
  if String.eqb value "" then Ok ""
  else from_option_err ErrInvalidArgument (DecodeString value).

Definition normalizePageSize (value : Z) : Z :=
  if value <=? 0 then 50 else if 100 <? value then 100 else value.

(** The cursor check shared by [ListTenants] and [ListMembers]. *)
Definition parseCursor (pageToken : string) : result error (option string) :=
  cursorID ← decodePageToken pageToken;
  if String.eqb cursorID "" then Ok None
  else validateUUID cursorID;; Ok (Some cursorID).

(** Cut a page of [limit] out of a list fetched with [limit + 1]. *)
Definition cutPage {A} (id : A → string) (limit : Z) (items : list A) : list A * string :=
  if limit <? Z.of_nat (List.length items) then
    let page := take (Z.to_nat limit) items in
    (page, match last page with Some x => encodePageToken (id x) | None => "" end)
  else (items, "").

End Validation.

Section Service.
Context `{Platform, Proto} `{!TenantProto}.

(** ** events.go *)

Definition newAggregateOutboxEvent (eventID : option string) (ctx : Ctx)
    (topic eventType tenantID aggregateType aggregateID : string)
    (aggregateVersion : Z) (payload : TenantMessage) (now : Time)
  : result error OutboxEvent :=
  eventID ← from_option_err ErrInternal eventID;
  payloadBytes ← from_option_err ErrInternal (marshal_payload payload);
  let envelope := {|
    envelope_EventId := eventID; envelope_EventType := eventType;
    envelope_EventVersion := 1; envelope_TenantId := tenantID;
    envelope_AggregateType := aggregateType; envelope_AggregateId := aggregateID;
    envelope_AggregateVersion := aggregateVersion mod 2 ^ 64;
    envelope_OccurredAt := Some now; envelope_Producer := "tenant";
    envelope_TraceId := ctx_TraceID ctx;
    envelope_CorrelationId := ctx_CorrelationID ctx;
    envelope_CausationId := ctx_RequestID ctx;
    envelope_Payload := payloadBytes |} in
  envelopeBytes ← from_option_err ErrInternal (marshal_envelope envelope);
  Ok {| event_ID := eventID; event_Topic := topic; event_Key := tenantID;
        event_Envelope := envelopeBytes; event_OccurredAt := now |}.

Definition newTenantOutboxEvent (eventID : option string) (ctx : Ctx)
    (topic eventType tenantID : string) (aggregateVersion : Z)
    (payload : TenantMessage) (now : Time) : result error OutboxEvent :=
  newAggregateOutboxEvent eventID ctx topic eventType tenantID "tenant" tenantID
    aggregateVersion payload now.

Definition newOperationOutboxEvent (eventID : option string) (ctx : Ctx)
    (topic eventType tenantID operationID : string) (aggregateVersion : Z)
    (payload : TenantMessage) (now : Time) : result error OutboxEvent :=
  newAggregateOutboxEvent eventID ctx topic eventType tenantID
    "tenant_onboarding_operation" operationID aggregateVersion payload now.

(** ** authorization.go *)

Definition requirePermission (contextValue : TenantContext) (permission : Permission)
  : result error unit :=
  let decision := EvaluateAuthorization (context_Tenant contextValue)
                    (context_Membership contextValue) permission in
  if decision_Allowed decision then Ok tt
  else if String.eqb (decision_DenialReason decision) DenialReasonTenantArchived
  then Err ErrArchived
  else if String.eqb (decision_DenialReason decision) DenialReasonTenantNotActive
  then Err ErrTenantNotActive
  else Err ErrForbidden.

Definition decorateTenantContext (c : TenantContext) : TenantContext := {|
  context_Tenant := context_Tenant c;
  context_Membership := context_Membership c;
  context_Entitlements := context_Entitlements c;
  context_Permissions :=
    EffectivePermissions (tenant_Status (context_Tenant c))
      (membership_Role (context_Membership c)) |}.

Definition validateAuthorizationInput (actorUserID tenantID : string)
    (permission : Permission) : result error unit :=
  validateUUID actorUserID;; validateUUID tenantID;;
  fail_if (negb (IsKnownPermission permission)) ErrInvalidArgument.

Definition notMember (tenantID actorUserID : string) (permission : Permission)
  : AuthorizationDecision := {|
  decision_Allowed := false; decision_TenantID := tenantID;
  decision_ActorUserID := actorUserID; decision_Permission := permission;
  decision_Role := ""; decision_TenantVersion := 0; decision_MembershipVersion := 0;
  decision_DenialReason := DenialReasonNotMember |}.

(** ** Use cases *)

#[local] Notation world := (Usecase.world tables).
#[local] Notation app := (Usecase.app tables error).

Record Config := {
  config_EventTopic : string;
  config_DefaultRegion : string;
  config_DefaultRetentionDays : Z;
  config_AllowedRegions : list string;
  config_WorkflowServicePrincipalID : string;
}.

Record Service := {
  service_config : Config;
  service_allowedRegions : gset string;
}.

(** [New], with its repository present. *)
Definition New (config : Config) : result error Service :=
  fail_if (String.eqb (TrimSpace (config_EventTopic config)) "") ErrInternal;;
  validateUUID (config_WorkflowServicePrincipalID config);;
  validateRetentionDays (config_DefaultRetentionDays config);;
  let allowed : gset string :=
    list_to_set (List.filter (λ v, negb (String.eqb v ""))
                   ((λ v, ToLower (TrimSpace v)) <$> config_AllowedRegions config)) in
  fail_if (negb (bool_decide (config_DefaultRegion config ∈ allowed))) ErrInternal;;
  Ok {| service_config := config; service_allowedRegions := allowed |}.

Record CreateTenantInput := {
  create_ActorUserID : string;
  create_RequestID : string;
  create_Slug : string;
  create_DisplayName : string;
  create_Region : string;
  create_RetentionDays : Z;
}.

Record UpdateTenantInput := {
  update_ActorUserID : string;
  update_TenantID : string;
  update_ExpectedVersion : Z;
  update_DisplayName : option string;
  update_Region : option string;
  update_RetentionDays : option Z;
}.

Record MemberInput := {
  member_ActorUserID : string;
  member_TenantID : string;
  member_UserID : string;
  member_Role : Role;
}.

Record UpdateMemberRoleInput := {
  role_ActorUserID : string;
  role_TenantID : string;
  role_UserID : string;
  role_Role : Role;
  role_ExpectedMembershipVersion : Z;
}.

Record RemoveMemberInput := {
  remove_ActorUserID : string;
  remove_TenantID : string;
  remove_UserID : string;
  remove_ExpectedMembershipVersion : Z;
}.

Variable service : Service.
Let topic := config_EventTopic (service_config service).

(** [CreateTenant] up to the repository call. *)
Definition CreateTenant_params (ctx : Ctx) (input : CreateTenantInput) (w : world)
  : result error CreateTenantParams :=
  validateUUID (create_ActorUserID input);;
  fail_if (String.eqb (TrimSpace (create_RequestID input)) ""
           || (128 <? len (create_RequestID input))) ErrInvalidArgument;;
  slug ← normalizeSlug (create_Slug input);
  displayName ← validateDisplayName (create_DisplayName input);
  let region := TrimSpace (create_Region input) in
  let region := if String.eqb region ""
                then config_DefaultRegion (service_config service) else region in
  region ← validateRegion region (service_allowedRegions service);
  let retentionDays :=
    if create_RetentionDays input =? 0
    then config_DefaultRetentionDays (service_config service)
    else create_RetentionDays input in
  validateRetentionDays retentionDays;;
  tenantID ← from_option_err ErrInternal (world_ids w 0%nat);
  operationID ← from_option_err ErrInternal (world_ids w 1%nat);
  let now := world_now w 0%nat in
  let contextValue := {|
    context_Tenant := {|
      tenant_ID := tenantID; tenant_Slug := slug; tenant_DisplayName := displayName;
      tenant_Status := StatusProvisioning; tenant_Region := region;
      tenant_RetentionDays := retentionDays; tenant_Version := 1;
      tenant_CreatedByUserID := create_ActorUserID input; tenant_CreatedAt := now;
      tenant_UpdatedAt := now; tenant_ArchivedAt := None |};
    context_Membership := {|
      membership_TenantID := tenantID; membership_UserID := create_ActorUserID input;
      membership_Role := RoleOwner; membership_Version := 1;
      membership_CreatedBy := create_ActorUserID input; membership_CreatedAt := now;
      membership_UpdatedAt := now |};
    context_Entitlements := {|
      entitlements_TenantID := tenantID; entitlements_PlanKey := "free";
      entitlements_Features :=
        <["agent_coordination" := true]> {["platform_managed_models" := false]};
      entitlements_Limits := <["members" := 5]> (<["agents" := 10]> {["projects" := 3]});
      entitlements_Version := 1; entitlements_UpdatedAt := now |};
    context_Permissions := [] |} in
  let operation := {|
    operation_ID := operationID; operation_TenantID := tenantID;
    operation_ActorUserID := create_ActorUserID input;
    operation_RequestID := create_RequestID input;
    operation_State := OperationStatePending;
    operation_ResourceName := String.append "tenants/" tenantID;
    operation_WorkflowID := ""; operation_WorkflowRunID := ""; operation_Error := None;
    operation_Metadata := <["slug" := slug]> {["display_name" := displayName]};
    operation_Version := 1; operation_CreatedAt := now; operation_UpdatedAt := now;
    operation_StartedAt := None; operation_CompletedAt := None |} in
  event ← newTenantOutboxEvent (world_ids w 2%nat) ctx topic "tenant.created" tenantID 1
            (TenantCreated contextValue operationID) now;
  Ok {| createParams_Context := contextValue; createParams_Operation := operation;
        createParams_RequestID := create_RequestID input; createParams_Event := event |}.

Definition CreateTenant (ctx : Ctx) (input : CreateTenantInput) : app CreateTenantResult :=
  params ← pure (CreateTenant_params ctx input);
  call (TenantRepository.CreateTenant ctx params).

Definition GetTenantContext (ctx : Ctx) (actorUserID tenantID : string) : app TenantContext :=
  pure (λ _, validateUUID actorUserID;; validateUUID tenantID);;
  contextValue ← call (TenantRepository.GetTenantContext ctx tenantID actorUserID);
  pure (λ _, requirePermission contextValue PermissionTenantRead);;
  mret (decorateTenantContext contextValue).

Definition ListTenants (ctx : Ctx) (actorUserID : string) (pageSize : Z)
    (pageToken : string) : app (list TenantContext * string) :=
  pure (λ _, validateUUID actorUserID);;
  cursor ← pure (λ _, parseCursor pageToken);
  let limit := normalizePageSize pageSize in
  contexts ← call (ListTenantContexts ctx actorUserID (limit + 1) cursor);
  let '(page, nextToken) := cutPage (λ c, tenant_ID (context_Tenant c)) limit contexts in
  mret (decorateTenantContext <$> page, nextToken).

(** [UpdateTenant] between its two repository calls. *)
Definition UpdateTenant_params (ctx : Ctx) (input : UpdateTenantInput)
    (current : TenantContext) (w : world) : result error UpdateTenantParams :=
  let tenant := context_Tenant current in
  fail_if (negb (String.eqb (tenant_Status tenant) StatusActive)) ErrArchived;;
  requirePermission current PermissionTenantUpdate;;
  fail_if (negb (update_ExpectedVersion input =? tenant_Version tenant)) ErrVersionConflict;;
  displayName ← match update_DisplayName input with
                | Some v => validateDisplayName v
                | None => Ok (tenant_DisplayName tenant)
                end;
  region ← match update_Region input with
           | Some v => validateRegion v (service_allowedRegions service)
           | None => Ok (tenant_Region tenant)
           end;
  retentionDays ← match update_RetentionDays input with
                  | Some v => validateRetentionDays v;; Ok v
                  | None => Ok (tenant_RetentionDays tenant)
                  end;
  fail_if (negb (is_some (update_DisplayName input) || is_some (update_Region input)
                 || is_some (update_RetentionDays input))) ErrInvalidArgument;;
  let now := world_now w 0%nat in
  let updated := {|
    tenant_ID := tenant_ID tenant; tenant_Slug := tenant_Slug tenant;
    tenant_DisplayName := displayName; tenant_Status := tenant_Status tenant;
    tenant_Region := region; tenant_RetentionDays := retentionDays;
    tenant_Version := int64_incr (tenant_Version tenant);
    tenant_CreatedByUserID := tenant_CreatedByUserID tenant;
    tenant_CreatedAt := tenant_CreatedAt tenant; tenant_UpdatedAt := now;
    tenant_ArchivedAt := tenant_ArchivedAt tenant |} in
  event ← newTenantOutboxEvent (world_ids w 0%nat) ctx topic "tenant.updated"
            (tenant_ID updated) (tenant_Version updated)
            (TenantUpdated updated (update_ActorUserID input)) now;
  Ok {| updateParams_ActorUserID := update_ActorUserID input;
        updateParams_Tenant := updated;
        updateParams_ExpectedVersion := update_ExpectedVersion input;
        updateParams_Event := event |}.

Definition UpdateTenant (ctx : Ctx) (input : UpdateTenantInput) : app TenantContext :=
  current ← GetTenantContext ctx (update_ActorUserID input) (update_TenantID input);
  params ← pure (UpdateTenant_params ctx input current);
  call (TenantRepository.UpdateTenant ctx params).

(** [ArchiveTenant] between its two repository calls; [None] is the early
    return for a tenant that is archived already. *)
Definition ArchiveTenant_params (ctx : Ctx) (actorUserID tenantID : string)
    (expectedVersion : Z) (current : TenantContext) (w : world)
  : result error (option ArchiveTenantParams) :=
  let tenant := context_Tenant current in
  fail_if (negb (RoleAllows (membership_Role (context_Membership current))
                   PermissionTenantArchive)) ErrForbidden;;
  fail_if (negb (expectedVersion =? tenant_Version tenant)) ErrVersionConflict;;
  if String.eqb (tenant_Status tenant) StatusArchived then Ok None
  else
    let now := world_now w 0%nat in
    let archived := {|
      tenant_ID := tenant_ID tenant; tenant_Slug := tenant_Slug tenant;
      tenant_DisplayName := tenant_DisplayName tenant; tenant_Status := StatusArchived;
      tenant_Region := tenant_Region tenant;
      tenant_RetentionDays := tenant_RetentionDays tenant;
      tenant_Version := int64_incr (tenant_Version tenant);
      tenant_CreatedByUserID := tenant_CreatedByUserID tenant;
      tenant_CreatedAt := tenant_CreatedAt tenant; tenant_UpdatedAt := now;
      tenant_ArchivedAt := Some now |} in
    event ← newTenantOutboxEvent (world_ids w 0%nat) ctx topic "tenant.archived" tenantID
              (tenant_Version archived) (TenantArchived archived actorUserID) now;
    Ok (Some {| archiveParams_ActorUserID := actorUserID;
                archiveParams_Tenant := archived;
                archiveParams_ExpectedVersion := expectedVersion;
                archiveParams_Event := event |}).

Definition ArchiveTenant (ctx : Ctx) (actorUserID tenantID : string) (expectedVersion : Z)
  : app TenantContext :=
  current ← GetTenantContext ctx actorUserID tenantID;
  params ← pure (ArchiveTenant_params ctx actorUserID tenantID expectedVersion current);
  match params with
  | None => mret current
  | Some params => call (TenantRepository.ArchiveTenant ctx params)
  end.

Definition ListMembers (ctx : Ctx) (actorUserID tenantID : string) (pageSize : Z)
    (pageToken : string) : app (list Membership * string) :=
  current ← GetTenantContext ctx actorUserID tenantID;
  pure (λ _, requirePermission current PermissionMemberList);;
  cursor ← pure (λ _, parseCursor pageToken);
  let limit := normalizePageSize pageSize in
  memberships ← call (TenantRepository.ListMembers ctx tenantID actorUserID (limit + 1) cursor);
  mret (cutPage membership_UserID limit memberships).

Definition GetMember (ctx : Ctx) (actorUserID tenantID targetUserID : string)
  : app Membership :=
  pure (λ _, validateUUID actorUserID;; validateUUID tenantID;; validateUUID targetUserID);;
  (if negb (String.eqb actorUserID targetUserID) then
     current ← GetTenantContext ctx actorUserID tenantID;
     pure (λ _, requirePermission current PermissionMemberList)
   else mret tt);;
  call (GetMembershipAsActor ctx tenantID actorUserID targetUserID).

(** [AddMember] between its two repository calls. *)
Definition AddMember_params (ctx : Ctx) (input : MemberInput) (current : TenantContext)
    (w : world) : result error AddMemberParams :=
  let tenant := context_Tenant current in
  fail_if (negb (String.eqb (tenant_Status tenant) StatusActive)) ErrArchived;;
  requirePermission current PermissionMemberAdd;;
  fail_if (negb (CanManageMember (membership_Role (context_Membership current)) ""
                   (member_Role input))) ErrForbidden;;
  let now := world_now w 0%nat in
  let newTenantVersion := int64_incr (tenant_Version tenant) in
  let membership := {|
    membership_TenantID := member_TenantID input;
    membership_UserID := member_UserID input; membership_Role := member_Role input;
    membership_Version := 1; membership_CreatedBy := member_ActorUserID input;
    membership_CreatedAt := now; membership_UpdatedAt := now |} in
  event ← newTenantOutboxEvent (world_ids w 0%nat) ctx topic "tenant.member_added"
            (member_TenantID input) newTenantVersion
            (TenantMemberAdded membership (member_ActorUserID input) newTenantVersion) now;
  Ok {| addParams_ActorUserID := member_ActorUserID input;
        addParams_Membership := membership;
        addParams_ExpectedTenantVersion := tenant_Version tenant;
        addParams_NewTenantVersion := newTenantVersion;
        addParams_Event := event |}.

Definition AddMember (ctx : Ctx) (input : MemberInput) : app (Membership * Z) :=
  pure (λ _, validateUUID (member_UserID input);;
             fail_if (negb (IsKnownRole (member_Role input))) ErrInvalidArgument);;
  current ← GetTenantContext ctx (member_ActorUserID input) (member_TenantID input);
  params ← pure (AddMember_params ctx input current);
  result ← call (TenantRepository.AddMember ctx params);
  mret (result, addParams_NewTenantVersion params).

(** [UpdateMemberRole] after its two reads. *)
Definition UpdateMemberRole_params (ctx : Ctx) (input : UpdateMemberRoleInput)
    (current : TenantContext) (target : Membership) (w : world)
  : result error UpdateMemberRoleParams :=
  requirePermission current PermissionMemberUpdateRole;;
  fail_if (negb (CanManageMember (membership_Role (context_Membership current))
                   (membership_Role target) (role_Role input))) ErrForbidden;;
  fail_if (negb (role_ExpectedMembershipVersion input =? membership_Version target))
    ErrVersionConflict;;
  let now := world_now w 0%nat in
  let updated := {|
    membership_TenantID := membership_TenantID target;
    membership_UserID := membership_UserID target; membership_Role := role_Role input;
    membership_Version := int64_incr (membership_Version target);
    membership_CreatedBy := membership_CreatedBy target;
    membership_CreatedAt := membership_CreatedAt target; membership_UpdatedAt := now |} in
  let newTenantVersion := int64_incr (tenant_Version (context_Tenant current)) in
  event ← newTenantOutboxEvent (world_ids w 0%nat) ctx topic "tenant.member_role_changed"
            (role_TenantID input) newTenantVersion
            (TenantMemberRoleChanged updated (membership_Role target)
               (role_ActorUserID input) newTenantVersion) now;
  Ok {| roleParams_ActorUserID := role_ActorUserID input;
        roleParams_Membership := updated;
        roleParams_PreviousRole := membership_Role target;
        roleParams_ExpectedMembershipVersion := role_ExpectedMembershipVersion input;
        roleParams_ExpectedTenantVersion := tenant_Version (context_Tenant current);
        roleParams_NewTenantVersion := newTenantVersion;
        roleParams_Event := event |}.

Definition UpdateMemberRole (ctx : Ctx) (input : UpdateMemberRoleInput)
  : app (Membership * Z) :=
  pure (λ _, fail_if (negb (IsKnownRole (role_Role input))) ErrInvalidArgument);;
  current ← GetTenantContext ctx (role_ActorUserID input) (role_TenantID input);
  target ← call (GetMembership ctx (role_TenantID input) (role_UserID input));
  params ← pure (UpdateMemberRole_params ctx input current target);
  result ← call (TenantRepository.UpdateMemberRole ctx params);
  mret (result, roleParams_NewTenantVersion params).

(** [RemoveMember] after its two reads. *)
Definition RemoveMember_params (ctx : Ctx) (input : RemoveMemberInput)
    (current : TenantContext) (target : Membership) (w : world)
  : result error RemoveMemberParams :=
  requirePermission current PermissionMemberRemove;;
  fail_if (negb (CanManageMember (membership_Role (context_Membership current))
                   (membership_Role target) (membership_Role target))) ErrForbidden;;
  fail_if (negb (remove_ExpectedMembershipVersion input =? membership_Version target))
    ErrVersionConflict;;
  let now := world_now w 0%nat in
  let newTenantVersion := int64_incr (tenant_Version (context_Tenant current)) in
  event ← newTenantOutboxEvent (world_ids w 0%nat) ctx topic "tenant.member_removed"
            (remove_TenantID input) newTenantVersion
            (TenantMemberRemoved (remove_TenantID input) (remove_UserID input)
               (membership_Role target) (remove_ActorUserID input) newTenantVersion now) now;
  Ok {| removeParams_ActorUserID := remove_ActorUserID input;
        removeParams_TenantID := remove_TenantID input;
        removeParams_UserID := remove_UserID input;
        removeParams_PreviousRole := membership_Role target;
        removeParams_ExpectedMembershipVersion := remove_ExpectedMembershipVersion input;
        removeParams_ExpectedTenantVersion := tenant_Version (context_Tenant current);
        removeParams_NewTenantVersion := newTenantVersion;
        removeParams_Event := event |}.

Definition RemoveMember (ctx : Ctx) (input : RemoveMemberInput) : app Z :=
  current ← GetTenantContext ctx (remove_ActorUserID input) (remove_TenantID input);
  target ← call (GetMembership ctx (remove_TenantID input) (remove_UserID input));
  params ← pure (RemoveMember_params ctx input current target);
  call (TenantRepository.RemoveMember ctx params);;
  mret (removeParams_NewTenantVersion params).

(** ** authorization.go: the checks offered to the other services *)

Definition CheckAuthorization (ctx : Ctx) (actorUserID tenantID : string)
    (permission : Permission) : app AuthorizationDecision :=
  pure (λ _, validateAuthorizationInput actorUserID tenantID permission);;
  contextValue ← try_call (TenantRepository.GetTenantContext ctx tenantID actorUserID);
  match contextValue with
  | Err ErrNotFound => mret (notMember tenantID actorUserID permission)
  | Err err => pure (λ _, Err err)
  | Ok contextValue =>
      mret (EvaluateAuthorization (context_Tenant contextValue)
              (context_Membership contextValue) permission)
  end.

(** The checks at the head of the batch. *)
Definition validateBatchInput (actorUserID tenantID : string)
    (permissions : list Permission) : result error unit :=
  fail_if (List.length permissions =? 0)%nat ErrInvalidArgument;;
  fail_if (64 <? List.length permissions)%nat ErrInvalidArgument;;
  validateUUID actorUserID;; validateUUID tenantID;;
  fail_if (negb (forallb IsKnownPermission permissions)) ErrInvalidArgument.

Definition BatchCheckAuthorization (ctx : Ctx) (actorUserID tenantID : string)
    (permissions : list Permission) : app (list AuthorizationDecision) :=
  pure (λ _, validateBatchInput actorUserID tenantID permissions);;
  contextValue ← try_call (TenantRepository.GetTenantContext ctx tenantID actorUserID);
  match contextValue with
  | Err ErrNotFound => mret (notMember tenantID actorUserID <$> permissions)
  | Err err => pure (λ _, Err err)
  | Ok contextValue =>
      mret (EvaluateAuthorization (context_Tenant contextValue)
              (context_Membership contextValue) <$> permissions)
  end.

(** ** onboarding.go *)

Definition MarkOnboardingRunning_params (ctx : Ctx)
    (tenantID operationID workflowID workflowRunID : string) (w : world)
  : result error MarkOnboardingRunningParams :=
  validateUUID tenantID;; validateUUID operationID;;
  let now := world_now w 0%nat in
  event ← newOperationOutboxEvent (world_ids w 0%nat) ctx topic
            "tenant.onboarding_started" tenantID operationID 2
            (TenantOnboardingStarted tenantID operationID workflowID workflowRunID now)
            now;
  Ok {| runningParams_ServicePrincipalID :=
          config_WorkflowServicePrincipalID (service_config service);
        runningParams_TenantID := tenantID; runningParams_OperationID := operationID;
        runningParams_WorkflowID := workflowID;
        runningParams_WorkflowRunID := workflowRunID;
        runningParams_StartedAt := now; runningParams_Event := event |}.

Definition MarkOnboardingRunning (ctx : Ctx)
    (tenantID operationID workflowID workflowRunID : string) : app Operation :=
  params ← pure (MarkOnboardingRunning_params ctx tenantID operationID workflowID
                   workflowRunID);
  call (TenantRepository.MarkOnboardingRunning ctx params).

Definition CompleteOnboarding_params (ctx : Ctx) (tenantID operationID : string)
    (w : world) : result error CompleteOnboardingParams :=
  validateUUID tenantID;; validateUUID operationID;;
  let now := world_now w 0%nat in
  Ok {| completeParams_ServicePrincipalID :=
          config_WorkflowServicePrincipalID (service_config service);
        completeParams_TenantID := tenantID; completeParams_OperationID := operationID;
        completeParams_CompletedAt := now;
        completeParams_Event := Some (λ contextValue,
          newTenantOutboxEvent (world_ids w 0%nat) ctx topic "tenant.activated" tenantID 2
            (TenantActivated contextValue operationID now) now) |}.

Definition CompleteOnboarding (ctx : Ctx) (tenantID operationID : string)
  : app CreateTenantResult :=
  params ← pure (CompleteOnboarding_params ctx tenantID operationID);
  call (TenantRepository.CompleteOnboarding ctx params).

Definition FailOnboarding_params (ctx : Ctx) (tenantID operationID : string)
    (err : OperationError) (w : world) : result error FailOnboardingParams :=
  validateUUID tenantID;; validateUUID operationID;; validateOperationError err;;
  Ok {| failParams_ServicePrincipalID :=
          config_WorkflowServicePrincipalID (service_config service);
        failParams_TenantID := tenantID; failParams_OperationID := operationID;
        failParams_FailedAt := world_now w 0%nat; failParams_Error := err;
        failParams_Event := Some (λ failedTenant failedOperation,
          let failedAt := world_now w 1%nat in
          newTenantOutboxEvent (world_ids w 0%nat) ctx topic "tenant.onboarding_failed"
            tenantID 2 (TenantOnboardingFailed failedTenant failedOperation failedAt)
            failedAt) |}.

Definition FailOnboarding (ctx : Ctx) (tenantID operationID : string)
    (err : OperationError) : app (Operation * Tenant) :=
  params ← pure (FailOnboarding_params ctx tenantID operationID err);
  call (TenantRepository.FailOnboarding ctx params).

Definition GetOperation (ctx : Ctx) (actorUserID operationID : string) : app Operation :=
  pure (λ _, validateUUID actorUserID;; validateUUID operationID);;
  call (TenantRepository.GetOperation ctx actorUserID operationID).

End Service.
