(* ===== verification/TenantEffects.v ===== *)
(** * Tenant service: what a successful repository call does to the tables

    Inverts the transactions of [TenantRepository]: each successful mutation is
    one [effect] on the tables, an abstract transition that names the rows that
    change and the event that is recorded with them. A failed mutation and a
    read change nothing. The invariants of [TenantInvariants] are inductions
    over effects. *)

From S2P Require Import Prelude GoStrings Postgres Usecase Outbox TenantDomain.
From S2P Require Import TenantStore.
From S2P Require Import TenantRepository.
From stdpp Require Import strings gmap list sorting.
From Stdlib Require Import String Lia.
Open Scope string_scope.
Open Scope list_scope.
Open Scope Z_scope.

Lemma insertOutbox_Ok `{Platform, Proto} tenantID event s u s' :
  insertOutbox tenantID event s = (Ok u, s') →
  ∃ clock ob, sql_insert_outbox clock tenantID event (outbox (session_db s)) = Ok ob ∧
    session_db s' = set_outbox ob (session_db s) ∧
    session_scope s' = session_scope s ∧ session_committed s' = session_committed s ∧
    session_read_only s' = session_read_only s.
Proof.
  unfold insertOutbox. intros Hi%map_err_Ok.
  apply tx_bind_Ok in Hi as (clock & s1 & ->%clock_Ok & Hx).
  apply exec_Ok in Hx as (Hro & Hw & Hsc & Hc & Hro').
  apply result_bind_Ok in Hw as (ob & Hob & [= Hdb]).
  exists clock, ob. by rewrite Hro.
Qed.

Lemma protectLastOwner_Ok `{Platform, Proto} tenantID loses s u s' :
  protectLastOwner tenantID loses s = (Ok u, s') →
  session_db s' = session_db s ∧ session_scope s' = session_scope s ∧
  session_committed s' = session_committed s ∧
  session_read_only s' = session_read_only s ∧
  (loses = true → ∃ owners, sql_owners tenantID (session_scope s) (session_db s) = Ok owners ∧
     (1 < List.length owners)%nat).
Proof.
  unfold protectLastOwner, lockOwners. destruct loses; intros Hp.
  - apply tx_bind_Ok in Hp as (owners & s1 & [Hq (?&?&?&?)]%query_Ok & Hl).
    apply lift_Ok in Hl as [Hl%fail_if_Ok ->]. apply Nat.leb_gt in Hl. naive_solver.
  - apply ret_Ok in Hp as [-> ->]. naive_solver.
Qed.

(** Collect the facts of a successful chain of statements. *)
Ltac tx_leaf E s :=
  lazymatch type of E with
  | map_err _ _ _ = (Ok _, _) => apply map_err_Ok in E; tx_leaf E s
  | insertOutbox _ _ _ = (Ok _, _) =>
      let clock := fresh "clock" in let ob := fresh "ob" in
      apply insertOutbox_Ok in E as (clock & ob & E & ? & ? & ? & ?);
      session_destruct s; subst
  | protectLastOwner _ _ _ = (Ok _, _) =>
      apply protectLastOwner_Ok in E as (? & ? & ? & ? & E); session_destruct s; subst
  | _ => tx_leaf_core E s
  end.

Ltac tx_inv H :=
  cbv beta iota in H;
  lazymatch type of H with
  | (_ ≫= _) _ = (Ok _, _) =>
      let a := fresh "a" in let s := fresh "s" in let E := fresh "E" in
      apply tx_bind_Ok in H as (a & s & E & H); tx_leaf E s; tx_inv H
  | _ ?s0 = (Ok _, ?s) => tx_leaf H s
  | _ => idtac
  end.

Section Effects.
Context `{Platform, Proto}.

(** ** Successful statements *)

(** In a tenant scope, what is visible belongs to the tenant of the scope. *)
Lemma tenant_kind_not_user r : rls_kind r = ScopeKindTenant → user_scoped r = false.
Proof. intros Hk. unfold user_scoped. by rewrite Hk. Qed.

(** The scope pins the tenant [t]: statements on its rows pass row security. *)
Definition scoped_to (sc : Scope) (t : string) : Prop :=
  ∃ r, rls_of sc = Ok r ∧ tenant_scoped r t = true.

Lemma scoped_to_uuid sc t : scoped_to sc t → uuid_in (scope_TenantID sc) = Some t.
Proof.
  intros (r & (_ & _ & Hr)%rls_of_Ok & [_ Ht]%tenant_scoped_true). by apply Hr.
Qed.

Lemma sql_context_Ok tenantID userID lock sc db c :
  sql_context tenantID userID lock sc db = Ok c →
  ∃ t u row m e,
    uuid_in tenantID = Some t ∧ uuid_in userID = Some u ∧
    tenants db !! t = Some row ∧ memberships db !! (t, u) = Some m ∧
    entitlements db !! t = Some e ∧ c = context_of (row_Tenant row) m e ∧
    (lock = true → scoped_to sc t).
Proof.
  unfold sql_context. intros Hc. result_inv Hc.
  repeat case_match; simplify_eq. do 5 eexists. split_and!; [done..|].
  intros ->. cbn in *. exists v. rewrite !andb_true_iff in *. tauto.
Qed.

Lemma sql_membership_Ok tenantID userID lock sc db m :
  sql_membership tenantID userID lock sc db = Ok m →
  ∃ t u, uuid_in tenantID = Some t ∧ uuid_in userID = Some u ∧
    memberships db !! (t, u) = Some m.
Proof.
  unfold sql_membership. intros Hc. result_inv Hc.
  repeat case_match; simplify_eq. naive_solver.
Qed.

Lemma sql_operation_by_id_Ok operationID sc db o :
  sql_operation_by_id operationID sc db = Ok o →
  ∃ id, uuid_in operationID = Some id ∧ operations db !! id = Some o ∧
    (scope_Kind sc = ScopeKindTenant → scoped_to sc (operation_TenantID o)).
Proof.
  unfold sql_operation_by_id. intros Hc. result_inv Hc.
  destruct (rls_of_Ok _ _ E) as (Hk & _ & Ht).
  repeat case_match; simplify_eq. eexists. split_and!; [done..|].
  intros Hkind. unfold visible_operation in *.
  rewrite tenant_kind_not_user, orb_false_r in * by congruence. by exists v.
Qed.

Lemma sql_tenant_Ok tenantID sc db t :
  sql_tenant tenantID sc db = Ok t →
  ∃ id row, uuid_in tenantID = Some id ∧ tenants db !! id = Some row ∧
    t = row_Tenant row.
Proof.
  unfold sql_tenant. intros Hc. result_inv Hc.
  repeat case_match; simplify_eq. naive_solver.
Qed.

(** An update of one tenant row writes it or affects no row. *)
Lemma update_tenant_Ok tenantID guard f sc db n db' :
  (r ← rls_of sc; t ← cast tenantID; update_tenant r t guard f db) = Ok (n, db') →
  ∃ t, uuid_in tenantID = Some t ∧
  ((n = 1 ∧ scoped_to sc t ∧
      ∃ row new, tenants db !! t = Some row ∧ guard (row_Tenant row) = true ∧
        f (row_Tenant row) = Ok new ∧ tenant_checks new = true ∧
        db' = set_tenants
                (<[t := {| row_Tenant := new;
                           row_CreationRequestID := row_CreationRequestID row |}]>
                   (tenants db)) db) ∨
   (n = 0 ∧ db' = db ∧
      (scoped_to sc t →
       ∀ row, tenants db !! t = Some row → guard (row_Tenant row) = false))).
Proof.
  intros Hu. result_inv Hu. exists v0. split; [done|]. unfold update_tenant in Hu.
  destruct (tenants db !! v0) as [row|] eqn:Ht.
  - destruct (tenant_scoped v v0) eqn:Hs, (guard (row_Tenant row)) eqn:Hg; cbn in Hu;
      [|simplify_eq; right; split_and!; [done..|]; intros (r & Hr & Hs') ? ?;
        simplify_eq; congruence..].
    result_inv Hu. apply negb_false_iff in E2. simplify_eq.
    left. repeat split; [by exists v|]. by exists row, v1.
  - simplify_eq. right. naive_solver.
Qed.

Lemma sql_succ_Ok v v' : sql_succ v = Ok v' ↔ v' = v + 1 ∧ v + 1 ≤ int64_max.
Proof.
  unfold sql_succ. destruct (Z.ltb_spec int64_max (v + 1)); cbn; split;
    [done|lia| |].
  - intros [= <-]. lia.
  - by intros [-> _].
Qed.

Lemma update_operation_Ok tenantID operationID states f sc db n db' :
  update_operation tenantID operationID states f sc db = Ok (n, db') →
  ∃ t id, uuid_in tenantID = Some t ∧ uuid_in operationID = Some id ∧
  ((n = 1 ∧ scoped_to sc t ∧
      ∃ o, operations db !! id = Some o ∧ operation_TenantID o = t ∧
        slices_Contains states (operation_State o) = true ∧
        operation_Version o + 1 ≤ int64_max ∧
        operation_checks (f o (operation_Version o + 1)) = true ∧
        db' = set_operations (<[id := f o (operation_Version o + 1)]> (operations db)) db) ∨
   (n = 0 ∧ db' = db ∧
      (scoped_to sc t →
       ∀ o, operations db !! id = Some o → operation_TenantID o = t →
         slices_Contains states (operation_State o) = false))).
Proof.
  unfold update_operation. intros Hu. result_inv Hu.
  exists v0, v1. split_and!; [done..|].
  destruct (operations db !! v1) as [o|] eqn:Ho.
  - destruct (String.eqb_spec (operation_TenantID o) v0) as [Et|];
      [|simplify_eq; right; naive_solver].
    destruct (tenant_scoped v v0) eqn:Hs, (slices_Contains states _) eqn:Hst;
      cbn in Hu; [|simplify_eq; right; split_and!; [done..|]; intros (r & Hr & Hs') ? ? ?;
                   simplify_eq; congruence..].
    result_inv Hu. apply sql_succ_Ok in E2 as [-> Hmax].
    apply negb_false_iff in E3. simplify_eq. left. repeat split; [by exists v|].
    by exists o.
  - simplify_eq. right. naive_solver.
Qed.

(** ** Effects *)

(** The outbox gains one row of tenant [t] whose envelope names the aggregate
    type and version. *)
Definition emitted (t aggregateType : string) (version : Z) (ob ob' : outbox_table)
  : Prop :=
  ∃ row envelope,
    ob' = {| outbox_rows := <[outbox_next ob := row]> (outbox_rows ob);
             outbox_next := outbox_next ob + 1 |} ∧
    outbox_TenantID row = t ∧ outbox_PublishedAt row = None ∧
    unmarshal_envelope (event_Envelope (outbox_Event row)) = Some envelope ∧
    envelope_AggregateType envelope = aggregateType ∧
    envelope_AggregateVersion envelope = version.

(** A new version of the same tenant row. *)
Definition bumped (old new : Tenant) : Prop :=
  tenant_ID new = tenant_ID old ∧ tenant_Slug new = tenant_Slug old ∧
  tenant_CreatedByUserID new = tenant_CreatedByUserID old ∧
  tenant_Version new = tenant_Version old + 1 ∧ tenant_Version new ≤ int64_max ∧
  tenant_checks new = true.

(** A new version of the same operation. *)
Definition advanced (old new : Operation) (state : OperationState) : Prop :=
  operation_ID new = operation_ID old ∧ operation_TenantID new = operation_TenantID old ∧
  operation_State new = state ∧ operation_Version new = operation_Version old + 1 ∧
  operation_checks new = true.

Definition is_owner (m : Membership) : bool := String.eqb (membership_Role m) RoleOwner.

(** The changes of the memberships of [t]: what takes an owner away leaves one. *)
Definition other_owner (t u : string) (ms : gmap (string * string) Membership) : Prop :=
  ∃ u' m', u' ≠ u ∧ ms !! (t, u') = Some m' ∧ is_owner m' = true.

Inductive mchange (t : string) (ms : gmap (string * string) Membership)
  : gmap (string * string) Membership → Prop :=
| mchange_same : mchange t ms ms
| mchange_add u m :
    ms !! (t, u) = None → membership_TenantID m = t → membership_UserID m = u →
    membership_checks m = true → membership_Version m ≤ int64_max →
    mchange t ms (<[(t, u) := m]> ms)
| mchange_role u m m' :
    ms !! (t, u) = Some m → membership_TenantID m' = membership_TenantID m →
    membership_UserID m' = membership_UserID m →
    membership_Version m' = membership_Version m + 1 →
    membership_Version m' ≤ int64_max → membership_checks m' = true →
    (is_owner m = true → is_owner m' = false → other_owner t u ms) →
    mchange t ms (<[(t, u) := m']> ms)
| mchange_remove u m :
    ms !! (t, u) = Some m → (is_owner m = true → other_owner t u ms) →
    mchange t ms (delete (t, u) ms).

(** What a transaction on the tenant [t] may do. *)
Inductive effect (t : string) (db : tables) : tables → Prop :=
| effect_none : effect t db db
| effect_create id u tenant m e o requestID ob :
    uuid_in t = Some t → tenants db !! t = None → operations db !! id = None →
    (∀ id' o', operations db !! id' = Some o' → operation_TenantID o' ≠ t) →
    (∀ t' row, tenants db !! t' = Some row →
       tenant_CreatedByUserID (row_Tenant row) = u → row_CreationRequestID row ≠ requestID) →
    tenant_ID tenant = t → tenant_CreatedByUserID tenant = u →
    tenant_Status tenant = StatusProvisioning → tenant_Version tenant = 1 →
    tenant_checks tenant = true →
    membership_TenantID m = t → membership_UserID m = u → is_owner m = true →
    membership_checks m = true → membership_Version m ≤ int64_max →
    entitlements_TenantID e = t →
    operation_ID o = id → operation_TenantID o = t →
    operation_State o = OperationStatePending → operation_Version o = 1 →
    operation_checks o = true →
    emitted t "tenant" 1 (outbox db) ob →
    effect t db {|
      tenants := <[t := {| row_Tenant := tenant; row_CreationRequestID := requestID |}]>
                   (tenants db);
      memberships := <[(t, u) := m]> (memberships db);
      entitlements := <[t := e]> (entitlements db);
      operations := <[id := o]> (operations db);
      outbox := ob |}
| effect_active row new ms ob :
    tenants db !! t = Some row → tenant_Status (row_Tenant row) = StatusActive →
    tenant_Status new = StatusActive → bumped (row_Tenant row) new →
    mchange t (memberships db) ms →
    emitted t "tenant" (tenant_Version new) (outbox db) ob →
    effect t db {|
      tenants := <[t := {| row_Tenant := new;
                           row_CreationRequestID := row_CreationRequestID row |}]>
                   (tenants db);
      memberships := ms; entitlements := entitlements db; operations := operations db;
      outbox := ob |}
| effect_archive row new ob :
    tenants db !! t = Some row → tenant_Status new = StatusArchived →
    bumped (row_Tenant row) new →
    emitted t "tenant" (tenant_Version new) (outbox db) ob →
    effect t db {|
      tenants := <[t := {| row_Tenant := new;
                           row_CreationRequestID := row_CreationRequestID row |}]>
                   (tenants db);
      memberships := memberships db; entitlements := entitlements db;
      operations := operations db; outbox := ob |}
| effect_running id o new ob :
    operations db !! id = Some o → operation_TenantID o = t →
    operation_State o = OperationStatePending → advanced o new OperationStateRunning →
    emitted t "tenant_onboarding_operation" 2 (outbox db) ob →
    effect t db (set_outbox ob (set_operations (<[id := new]> (operations db)) db))
| effect_complete row new id o o' ob :
    tenants db !! t = Some row → tenant_Status (row_Tenant row) = StatusProvisioning →
    tenant_Status new = StatusActive → bumped (row_Tenant row) new →
    operations db !! id = Some o → operation_TenantID o = t →
    operation_State o = OperationStateRunning → advanced o o' OperationStateSucceeded →
    emitted t "tenant" 2 (outbox db) ob →
    effect t db {|
      tenants := <[t := {| row_Tenant := new;
                           row_CreationRequestID := row_CreationRequestID row |}]>
                   (tenants db);
      memberships := memberships db; entitlements := entitlements db;
      operations := <[id := o']> (operations db); outbox := ob |}
| effect_fail row new id o o' ob :
    tenants db !! t = Some row → tenant_Status (row_Tenant row) = StatusProvisioning →
    tenant_Status new = StatusProvisioningFailed → bumped (row_Tenant row) new →
    operations db !! id = Some o → operation_TenantID o = t →
    operation_State o ∈ [OperationStatePending; OperationStateRunning] →
    advanced o o' OperationStateFailed →
    emitted t "tenant" 2 (outbox db) ob →
    effect t db {|
      tenants := <[t := {| row_Tenant := new;
                           row_CreationRequestID := row_CreationRequestID row |}]>
                   (tenants db);
      memberships := memberships db; entitlements := entitlements db;
      operations := <[id := o']> (operations db); outbox := ob |}
| effect_fail_late row id o o' ob :
    tenants db !! t = Some row → tenant_Status (row_Tenant row) ≠ StatusProvisioning →
    operations db !! id = Some o → operation_TenantID o = t →
    operation_State o ∈ [OperationStatePending; OperationStateRunning] →
    advanced o o' OperationStateFailed →
    emitted t "tenant" 2 (outbox db) ob →
    effect t db (set_outbox ob (set_operations (<[id := o']> (operations db)) db)).

(** The tables' own consistency: rows are stored under their keys, the checks of
    the schema hold, foreign keys point to rows, a tenant has one operation. *)
Record consistent (db : tables) : Prop := {
  consistent_tenant : ∀ t row, tenants db !! t = Some row →
    tenant_ID (row_Tenant row) = t ∧ tenant_checks (row_Tenant row) = true ∧
    uuid_in t = Some t ∧ tenant_Version (row_Tenant row) ≤ int64_max;
  consistent_membership : ∀ k m, memberships db !! k = Some m →
    (membership_TenantID m, membership_UserID m) = k ∧ membership_checks m = true ∧
    membership_Version m ≤ int64_max ∧ is_Some (tenants db !! membership_TenantID m);
  consistent_entitlements : ∀ t, is_Some (tenants db !! t) ↔ is_Some (entitlements db !! t);
  consistent_operation : ∀ id o, operations db !! id = Some o →
    operation_ID o = id ∧ operation_checks o = true ∧
    operation_State o ≠ OperationStateCanceled ∧
    is_Some (tenants db !! operation_TenantID o);
  consistent_one_operation : ∀ id1 id2 o1 o2,
    operations db !! id1 = Some o1 → operations db !! id2 = Some o2 →
    operation_TenantID o1 = operation_TenantID o2 → id1 = id2;
  consistent_one_request : ∀ t1 t2 row1 row2,
    tenants db !! t1 = Some row1 → tenants db !! t2 = Some row2 →
    tenant_CreatedByUserID (row_Tenant row1) = tenant_CreatedByUserID (row_Tenant row2) →
    row_CreationRequestID row1 = row_CreationRequestID row2 → t1 = t2;
  consistent_entitlements_key : ∀ t e,
    entitlements db !! t = Some e → entitlements_TenantID e = t;
}.

(** ** A failing call leaves the tables alone, a read always does *)

#[global] Instance commit_free_queryContext tenantID userID lock :
  commit_free (queryContext tenantID userID lock).
Proof. unfold queryContext. apply _. Qed.
#[global] Instance commit_free_queryMembership tenantID userID lock :
  commit_free (queryMembership tenantID userID lock).
Proof. unfold queryMembership. apply _. Qed.
#[global] Instance commit_free_queryOperationByID operationID :
  commit_free (queryOperationByID operationID).
Proof. unfold queryOperationByID. apply _. Qed.
#[global] Instance commit_free_queryOperationByTenant tenantID :
  commit_free (queryOperationByTenant tenantID).
Proof. unfold queryOperationByTenant. apply _. Qed.
#[global] Instance commit_free_queryTenant tenantID : commit_free (queryTenant tenantID).
Proof. unfold queryTenant. apply _. Qed.
#[global] Instance commit_free_insertOutbox tenantID event :
  commit_free (insertOutbox tenantID event).
Proof. unfold insertOutbox. apply _. Qed.
#[global] Instance commit_free_insertMembership m : commit_free (insertMembership m).
Proof. unfold insertMembership. apply _. Qed.
#[global] Instance commit_free_insertOperation o : commit_free (insertOperation o).
Proof. unfold insertOperation. apply _. Qed.
#[global] Instance commit_free_protectLastOwner tenantID loses :
  commit_free (protectLastOwner tenantID loses).
Proof. unfold protectLastOwner, lockOwners. apply _. Qed.

Ltac tx_atomic := intros; unfold beginTenant, beginPrincipal, beginServiceTenant,
  applyTenantScope; repeat first [ progress cbv zeta | apply _
    | apply commit_last_bind; [apply _ | intros] | case_match ].

#[global] Instance commit_last_CreateTenant ctx params :
  commit_last (CreateTenant ctx params).
Proof. unfold CreateTenant, CreateTenant_insert. tx_atomic. Qed.
#[global] Instance commit_last_UpdateTenant ctx params :
  commit_last (UpdateTenant ctx params).
Proof. unfold UpdateTenant. tx_atomic. Qed.
#[global] Instance commit_last_ArchiveTenant ctx params :
  commit_last (ArchiveTenant ctx params).
Proof. unfold ArchiveTenant. tx_atomic. Qed.
#[global] Instance commit_last_AddMember ctx params : commit_last (AddMember ctx params).
Proof. unfold AddMember. tx_atomic. Qed.
#[global] Instance commit_last_UpdateMemberRole ctx params :
  commit_last (UpdateMemberRole ctx params).
Proof. unfold UpdateMemberRole. tx_atomic. Qed.
#[global] Instance commit_last_RemoveMember ctx params :
  commit_last (RemoveMember ctx params).
Proof. unfold RemoveMember. tx_atomic. Qed.
#[global] Instance commit_last_MarkOnboardingRunning ctx params :
  commit_last (MarkOnboardingRunning ctx params).
Proof. unfold MarkOnboardingRunning. tx_atomic. Qed.
#[global] Instance commit_last_CompleteOnboarding ctx params :
  commit_last (CompleteOnboarding ctx params).
Proof. unfold CompleteOnboarding, CompleteOnboarding_activate. tx_atomic. Qed.
#[global] Instance commit_last_FailOnboarding ctx params :
  commit_last (FailOnboarding ctx params).
Proof. unfold FailOnboarding, FailOnboarding_record. tx_atomic. Qed.

#[global] Instance readonly_queryContext tenantID userID lock :
  readonly (queryContext tenantID userID lock).
Proof. unfold queryContext. apply _. Qed.
#[global] Instance readonly_queryMembership tenantID userID lock :
  readonly (queryMembership tenantID userID lock).
Proof. unfold queryMembership. apply _. Qed.
#[global] Instance readonly_GetMembership ctx tenantID userID :
  readonly (GetMembership ctx tenantID userID).
Proof. unfold GetMembership, beginTenant. apply _. Qed.
#[global] Instance readonly_GetMembershipAsActor ctx tenantID actorUserID userID :
  readonly (GetMembershipAsActor ctx tenantID actorUserID userID).
Proof. unfold GetMembershipAsActor, beginTenant. apply _. Qed.
#[global] Instance readonly_ListMembers ctx tenantID actorUserID limit cursor :
  readonly (ListMembers ctx tenantID actorUserID limit cursor).
Proof. unfold ListMembers, beginTenant. apply _. Qed.
#[global] Instance readonly_GetTenantContext ctx tenantID userID :
  readonly (GetTenantContext ctx tenantID userID).
Proof. unfold GetTenantContext, beginTenant. apply _. Qed.
#[global] Instance readonly_ListTenantContexts ctx userID limit cursor :
  readonly (ListTenantContexts ctx userID limit cursor).
Proof. unfold ListTenantContexts, beginPrincipal. apply _. Qed.
#[global] Instance readonly_GetOperation ctx actorUserID operationID :
  readonly (GetOperation ctx actorUserID operationID).
Proof. unfold GetOperation, beginPrincipal, queryOperationByID. apply _. Qed.

(** ** The effect of each mutation *)

(** The serialized envelope of [event] names this aggregate type and version. *)
Definition event_of (event : OutboxEvent) (aggregateType : string) (version : Z) : Prop :=
  ∃ envelope, unmarshal_envelope (event_Envelope event) = Some envelope ∧
    envelope_AggregateType envelope = aggregateType ∧
    envelope_AggregateVersion envelope = version.

Lemma emitted_insert clock tenantID event ob ob' t aggregateType version :
  sql_insert_outbox clock tenantID event ob = Ok ob' → uuid_in tenantID = Some t →
  event_of event aggregateType version → emitted t aggregateType version ob ob'.
Proof.
  unfold sql_insert_outbox. intros Hob Ht (envelope & Hu & Hty & Hv).
  result_inv Hob. simplify_eq. eexists _, envelope. split_and!; eauto.
Qed.

Lemma context_of_version row m e : context_Tenant (context_of (row_Tenant row) m e) = row_Tenant row.
Proof. done. Qed.

Lemma tenant_checks_version x : tenant_checks x = true → 0 < tenant_Version x.
Proof. unfold tenant_checks. intros. bool_facts. done. Qed.

(** The version a service computes with [v + 1] did not wrap around. *)
Lemma tenant_version_bump db t row new :
  consistent db → tenants db !! t = Some row → tenant_checks new = true →
  tenant_Version new = int64_incr (tenant_Version (row_Tenant row)) →
  tenant_Version new = tenant_Version (row_Tenant row) + 1 ∧
  tenant_Version new ≤ int64_max.
Proof.
  intros Hc Hrow Hn%tenant_checks_version Hv.
  destruct (consistent_tenant _ Hc _ _ Hrow) as (_ & Hr%tenant_checks_version & _ & Hmax).
  rewrite Hv in *. rewrite int64_incr_pos; [|unfold int64_min in *; lia|done].
  pose proof (int64_wrap_range (tenant_Version (row_Tenant row) + 1)) as [_ Hw].
  unfold int64_incr in Hn. rewrite <-int64_incr_pos; [done|unfold int64_min in *; lia|done].
Qed.

End Effects.

Ltac effect_start H :=
  apply run_Ok in H as (? & H & ->);
  unfold beginTenant, beginPrincipal, beginServiceTenant, applyTenantScope, queryContext,
    queryMembership, queryOperationByID, queryOperationByTenant, queryTenant,
    insertMembership, insertOperation, lockOwners in H;
  tx_inv H; cbn in *; bool_facts.
