(* ===== verification/TenantMutations.v ===== *)
(** * Tenant service: the effect of each repository mutation

    One lemma per mutating method of [TenantRepository]: when it succeeds on
    consistent tables with parameters the service builds, the tables change by
    one [effect] on the tenant it names. *)

From S2P Require Import Prelude GoStrings Postgres Usecase Outbox TenantDomain.
From S2P Require Import TenantStore.
From S2P Require Import TenantRepository TenantEffects.
From stdpp Require Import strings gmap list sorting.
From Stdlib Require Import String Lia.
Open Scope string_scope.
Open Scope list_scope.
Open Scope Z_scope.

(** Bring the resulting tables into the form of the [effect] constructors. *)
Ltac effect_goal :=
  unfold set_outbox, set_tenants, set_memberships, set_entitlements, set_operations;
  cbn.

Lemma mod_version v : 0 < v ≤ int64_max → v mod 2 ^ 64 = v.
Proof. unfold int64_max. intros. apply Z.mod_small. lia. Qed.

(** The actor's locked context: the tenant row, the membership and the scope. *)
Ltac actor_context :=
  select (sql_context _ _ true _ _ = _) (fun H => apply sql_context_Ok in H
    as (t & u & row & m & e & Ht & Hu & Hrow & Hm & He & -> & Hscope)).

(** The guarded update of the locked tenant row, [H], wrote the next version. *)
Ltac version_written H Hc Hrow Hscope Hev :=
  let Hno := fresh "Hno" in let Hrow' := fresh "Hrow'" in let Hchk := fresh "Hchk" in
  let Hg := fresh "Hg" in let Hb := fresh "Hb" in let Hpos := fresh "Hpos" in
  apply update_tenant_Ok in H
    as (? & ? & [(-> & _ & ? & ? & Hrow' & Hg & [= <-] & Hchk & ->)
                |(-> & -> & Hno)]); simplify_eq;
    try (specialize (Hno (Hscope eq_refl) _ Hrow); cbn in *; bool_facts; congruence);
  eexists; (split; [done|]); cbn in *; bool_facts; simplify_eq;
  destruct (tenant_version_bump _ _ _ _ Hc Hrow Hchk) as [Hb Hb']; [cbn; congruence|];
  pose proof (tenant_checks_version _ Hchk) as Hpos; cbn in *;
  rewrite mod_version in Hev by done.

Section Mutations.
Context `{PlatformLaws, Proto}.

Lemma UpdateTenant_effect ctx params db ev r db' :
  consistent db →
  tenant_Version (updateParams_Tenant params)
    = int64_incr (updateParams_ExpectedVersion params) →
  event_of (updateParams_Event params) "tenant"
    (tenant_Version (updateParams_Tenant params) mod 2 ^ 64) →
  run (UpdateTenant ctx params) db ev = (Ok r, db') →
  ∃ t, uuid_in (tenant_ID (updateParams_Tenant params)) = Some t ∧ effect t db db'.
Proof.
  intros Hc Hv Hev Hr. unfold UpdateTenant in Hr. effect_start Hr.
  actor_context.
  select (sql_update_tenant _ _ _ _ = _) (fun H => version_written H Hc Hrow Hscope Hev).
  effect_goal. eapply effect_active; [done|done|done| |constructor|].
  - by split_and!.
  - by eapply emitted_insert.
Qed.

Lemma ArchiveTenant_effect ctx params db ev r db' :
  consistent db → tenant_Status (archiveParams_Tenant params) = StatusArchived →
  tenant_Version (archiveParams_Tenant params)
    = int64_incr (archiveParams_ExpectedVersion params) →
  event_of (archiveParams_Event params) "tenant"
    (tenant_Version (archiveParams_Tenant params) mod 2 ^ 64) →
  run (ArchiveTenant ctx params) db ev = (Ok r, db') →
  ∃ t, uuid_in (tenant_ID (archiveParams_Tenant params)) = Some t ∧ effect t db db'.
Proof.
  intros Hc Hst Hv Hev Hr. unfold ArchiveTenant in Hr. effect_start Hr.
  actor_context.
  select (sql_archive_tenant _ _ _ _ = _) (fun H => version_written H Hc Hrow Hscope Hev).
  effect_goal. eapply effect_archive; [done| | |].
  - done.
  - by split_and!.
  - by eapply emitted_insert.
Qed.

Lemma sql_insert_membership_Ok m sc db u db' :
  sql_insert_membership m sc db = Ok (u, db') →
  ∃ t id row, uuid_in (membership_TenantID m) = Some t ∧
    uuid_in (membership_UserID m) = Some id ∧ memberships db !! (t, id) = None ∧
    is_Some (tenants db !! t) ∧ membership_TenantID row = t ∧
    membership_UserID row = id ∧ membership_Role row = membership_Role m ∧
    membership_Version row = membership_Version m ∧ membership_checks row = true ∧
    db' = set_memberships (<[(t, id) := row]> (memberships db)) db.
Proof.
  unfold sql_insert_membership. intros Hi. result_inv Hi. bool_facts. simplify_eq.
  do 3 eexists. split_and!; cycle 9; [done|done|done| | |done..].
  - by destruct (memberships db !! _).
  - by destruct (tenants db !! _).
Qed.

Lemma AddMember_effect ctx params db ev r db' :
  consistent db →
  addParams_NewTenantVersion params
    = int64_incr (addParams_ExpectedTenantVersion params) →
  membership_Version (addParams_Membership params) ≤ int64_max →
  event_of (addParams_Event params) "tenant"
    (addParams_NewTenantVersion params mod 2 ^ 64) →
  run (AddMember ctx params) db ev = (Ok r, db') →
  ∃ t, uuid_in (membership_TenantID (addParams_Membership params)) = Some t
       ∧ effect t db db'.
Proof.
  intros Hc Hv Hmv Hev Hr. unfold AddMember in Hr. effect_start Hr.
  actor_context.
  select (sql_insert_membership _ _ _ = _) (fun H => apply sql_insert_membership_Ok in H
    as (t' & u' & m' & Ht' & Hu' & Hfresh & _ & HmT & HmU & HmR & HmV & HmC & ->)).
  select (sql_increment_tenant_version _ _ _ _ _ _ = _) (fun H => version_written H Hc Hrow Hscope Hev).
  effect_goal. eapply effect_active; [done|done| | | |].
  - done.
  - by split_and!.
  - apply mchange_add; congruence.
  - by eapply emitted_insert.
Qed.

(** More than one owner under the lock: whoever goes, an owner stays. *)
Lemma sql_owners_other tenantID sc db owners t u :
  consistent db → sql_owners tenantID sc db = Ok owners → uuid_in tenantID = Some t →
  (1 < List.length owners)%nat → other_owner t u (memberships db).
Proof.
  unfold sql_owners. intros Hc Ho Ht Hlen. result_inv Ho.
  assert (v0 = t) as -> by congruence. injection Ho as <-.
  rewrite length_fmap, (Permutation_length (merge_sort_Permutation _ _)) in Hlen.
  set (p := λ m, _) in Hlen. set (ms := snd <$> map_to_list (memberships db)) in Hlen.
  set (key := λ m, (membership_TenantID m, membership_UserID m)).
  assert (Hms : ∀ m, m ∈ ms → memberships db !! key m = Some m).
  { intros m ([k m'] & -> & Hk%elem_of_map_to_list)%list_elem_of_fmap.
    unfold key. cbn. by destruct (consistent_membership _ Hc _ _ Hk) as [-> _]. }
  assert (Hnd : NoDup (key <$> List.filter p ms)).
  { apply NoDup_fmap_filter. subst ms. rewrite <-list_fmap_compose.
    rewrite (list_fmap_ext _ fst); [apply NoDup_fst_map_to_list|].
    intros i [k m] Hk%list_elem_of_lookup_2%elem_of_map_to_list.
    apply (consistent_membership _ Hc _ _ Hk). }
  destruct (NoDup_other _ (t, u) Hnd) as (k & Hk & Hne); [by rewrite length_fmap|].
  apply list_elem_of_fmap in Hk as (m & -> & [Hin Hp]%elem_of_filter_b).
  unfold p in Hp. bool_facts. unfold key in Hne.
  exists (membership_UserID m), m. split_and!.
  - congruence.
  - rewrite <-(Hms m Hin). unfold key. congruence.
  - unfold is_owner. by apply String.eqb_eq.
Qed.

Lemma sql_update_role_Ok tenantID userID expected role version at_ sc db n db' :
  sql_update_role tenantID userID expected role version at_ sc db = Ok (n, db') → n = 1 →
  ∃ t id m row, uuid_in tenantID = Some t ∧ uuid_in userID = Some id ∧
    memberships db !! (t, id) = Some m ∧ membership_Version m = expected ∧
    membership_TenantID row = membership_TenantID m ∧
    membership_UserID row = membership_UserID m ∧ membership_Role row = role ∧
    membership_Version row = version ∧ membership_checks row = true ∧
    db' = set_memberships (<[(t, id) := row]> (memberships db)) db.
Proof.
  unfold sql_update_role. intros Hi ->. result_inv Hi.
  destruct (memberships db !! _) as [m|] eqn:Hm; [|done].
  destruct (tenant_scoped _ _), (Z.eqb_spec (membership_Version m) expected); [|done..].
  cbn in Hi. result_inv Hi. bool_facts. simplify_eq.
  do 4 eexists. split_and!; cycle 9; done.
Qed.

Lemma sql_delete_membership_Ok tenantID userID expected sc db n db' :
  sql_delete_membership tenantID userID expected sc db = Ok (n, db') → n = 1 →
  ∃ t id m, uuid_in tenantID = Some t ∧ uuid_in userID = Some id ∧
    memberships db !! (t, id) = Some m ∧
    db' = set_memberships (delete (t, id) (memberships db)) db.
Proof.
  unfold sql_delete_membership. intros Hi ->. result_inv Hi.
  destruct (memberships db !! _) as [m|] eqn:Hm; [|done].
  destruct (tenant_scoped _ _ && _); [|done]. simplify_eq. by exists v0, v1, m.
Qed.

Lemma membership_version_bump m m' :
  membership_checks m = true → membership_checks m' = true →
  membership_Version m ≤ int64_max →
  membership_Version m' = int64_incr (membership_Version m) →
  membership_Version m' = membership_Version m + 1 ∧ membership_Version m' ≤ int64_max.
Proof.
  unfold membership_checks. intros Hm Hm' Hmax Hv. bool_facts.
  rewrite Hv in *. pose proof (int64_wrap_range (membership_Version m + 1)) as [_ Hw].
  split; [|done]. apply int64_incr_pos; [unfold int64_min in *; lia|done].
Qed.

Lemma UpdateMemberRole_effect ctx params db ev r db' :
  consistent db →
  roleParams_NewTenantVersion params
    = int64_incr (roleParams_ExpectedTenantVersion params) →
  membership_Version (roleParams_Membership params)
    = int64_incr (roleParams_ExpectedMembershipVersion params) →
  event_of (roleParams_Event params) "tenant"
    (roleParams_NewTenantVersion params mod 2 ^ 64) →
  run (UpdateMemberRole ctx params) db ev = (Ok r, db') →
  ∃ t, uuid_in (membership_TenantID (roleParams_Membership params)) = Some t
       ∧ effect t db db'.
Proof.
  intros Hc Hv Hmv Hev Hr. unfold UpdateMemberRole in Hr. effect_start Hr.
  actor_context.
  select (sql_membership _ _ true _ _ = _) (fun H => apply sql_membership_Ok in H
    as (t1 & u1 & Ht1 & Hu1 & Htarget)).
  select (sql_update_role _ _ _ _ _ _ _ _ = _) (fun H => eapply sql_update_role_Ok in H
    as (t2 & u2 & m2 & m' & Ht2 & Hu2 & Hm2 & HmE & HmT & HmU & HmR & HmV & HmC & ->);
    [|done]).
  select (sql_increment_tenant_version _ _ _ _ _ _ = _) (fun H => version_written H Hc Hrow Hscope Hev).
  destruct (consistent_membership _ Hc _ _ Htarget) as (_ & Hmc & Hmax & _).
  destruct (membership_version_bump _ m' Hmc HmC Hmax) as [Hm1 Hm'2]; [congruence|].
  effect_goal. eapply effect_active; [done|done| | | |].
  - done.
  - by split_and!.
  - eapply mchange_role; [done..|]. intros Hown Hlost.
    destruct E4 as (owners & Ho & Hlen).
    { unfold is_owner in *. rewrite Hown. rewrite HmR in Hlost. by rewrite Hlost. }
    by eapply sql_owners_other.
  - by eapply emitted_insert.
Qed.

Lemma RemoveMember_effect ctx params db ev r db' :
  consistent db →
  removeParams_NewTenantVersion params
    = int64_incr (removeParams_ExpectedTenantVersion params) →
  event_of (removeParams_Event params) "tenant"
    (removeParams_NewTenantVersion params mod 2 ^ 64) →
  run (RemoveMember ctx params) db ev = (Ok r, db') →
  ∃ t, uuid_in (removeParams_TenantID params) = Some t ∧ effect t db db'.
Proof.
  intros Hc Hv Hev Hr. unfold RemoveMember in Hr. effect_start Hr.
  actor_context.
  select (sql_membership _ _ true _ _ = _) (fun H => apply sql_membership_Ok in H
    as (t1 & u1 & Ht1 & Hu1 & Htarget)).
  select (sql_delete_membership _ _ _ _ _ = _) (fun H => eapply sql_delete_membership_Ok in H
    as (t2 & u2 & m2 & Ht2 & Hu2 & Hm2 & ->); [|done]).
  select (sql_increment_tenant_version _ _ _ _ _ _ = _) (fun H => version_written H Hc Hrow Hscope Hev).
  effect_goal. eapply effect_active; [done|done| | | |].
  - done.
  - by split_and!.
  - eapply mchange_remove; [done|]. intros Hown.
    destruct E4 as (owners & Ho & Hlen); [done|]. by eapply sql_owners_other.
  - by eapply emitted_insert.
Qed.

Lemma MarkOnboardingRunning_effect ctx params db ev r db' :
  consistent db →
  event_of (runningParams_Event params) "tenant_onboarding_operation" 2 →
  run (MarkOnboardingRunning ctx params) db ev = (Ok r, db') →
  ∃ t, uuid_in (runningParams_TenantID params) = Some t ∧ effect t db db'.
Proof.
  intros Hc Hev Hr. unfold MarkOnboardingRunning in Hr. effect_start Hr.
  select (sql_operation_running _ _ _ _ _ _ _ = _) (fun H => apply update_operation_Ok in H
    as (t & id & Ht & Hid & [(-> & _ & o & Ho & HoT & Hst & Hmax & Hchk & ->)
                            |(-> & -> & Hno)])).
  - cbn in Hr. tx_inv Hr. cbn in *. eexists. split; [done|]. effect_goal.
    apply slices_Contains_true in Hst. rewrite list_elem_of_singleton in Hst.
    eapply effect_running; [done|done|done| |].
    + by split_and!.
    + by eapply emitted_insert.
  - cbn in Hr. repeat case_match; tx_inv Hr; try done; cbn in *;
      exists t; (split; [done|constructor]).
Qed.

Lemma active_or_failing o :
  operation_checks o = true → operation_State o ≠ OperationStateCanceled →
  operation_State o ≠ OperationStateFailed → operation_State o ≠ OperationStateSucceeded →
  slices_Contains [OperationStatePending; OperationStateRunning] (operation_State o) = true.
Proof.
  unfold operation_checks. intros Hc Hca Hfa Hsu. bool_facts.
  rewrite slices_Contains_true in *. set_solver.
Qed.

(** Leaving [provisioning] takes the tenant row, or affects no row. *)
Lemma sql_leave_provisioning_Ok tenantID status at_ sc db n db' :
  consistent db → sql_leave_provisioning tenantID status at_ sc db = Ok (n, db') →
  ∃ t, uuid_in tenantID = Some t ∧
  ((n = 1 ∧ scoped_to sc t ∧
    ∃ row new, tenants db !! t = Some row ∧
      tenant_Status (row_Tenant row) = StatusProvisioning ∧ tenant_Status new = status ∧
      bumped (row_Tenant row) new ∧
      db' = set_tenants
              (<[t := {| row_Tenant := new;
                         row_CreationRequestID := row_CreationRequestID row |}]>
                 (tenants db)) db) ∨
   (n = 0 ∧ db' = db ∧
    (scoped_to sc t → ∀ row, tenants db !! t = Some row →
       tenant_Status (row_Tenant row) ≠ StatusProvisioning))).
Proof.
  intros Hc (t & Ht & [(-> & Hsc & row & new & Hrow & Hg & Hf & Hchk & ->)
                      |(-> & -> & Hno)])%update_tenant_Ok;
    exists t; (split; [done|]); [left|right]; bool_facts; repeat split; [done| |].
  - exists row, new. result_inv Hf. apply sql_succ_Ok in E as [-> Hmax].
    injection Hf as <-. split_and!; [done..| |done]. by split_and!.
  - intros Hsc row Hrow. specialize (Hno Hsc _ Hrow). by bool_facts.
Qed.

(** In the service scope of [tenantID], an operation that is visible is its own. *)
Lemma service_scope_operation tenantID p q r operationID db o t :
  sql_operation_by_id operationID (ServiceTenantScope tenantID p q r) db = Ok o →
  uuid_in tenantID = Some t →
  ∃ id, uuid_in operationID = Some id ∧ operations db !! id = Some o ∧
    operation_TenantID o = t ∧ scoped_to (ServiceTenantScope tenantID p q r) t.
Proof.
  intros (id & Hid & Ho & Hvis)%sql_operation_by_id_Ok Ht. specialize (Hvis eq_refl).
  pose proof (scoped_to_uuid _ _ Hvis) as Hsc. cbn in Hsc.
  rewrite (uuid_in_trimmed _ _ Ht) in Hsc. simplify_eq. by exists id.
Qed.

Lemma CompleteOnboarding_effect ctx params db ev r db' :
  consistent db →
  (∀ build c event, completeParams_Event params = Some build → build c = Ok event →
     event_of event "tenant" 2) →
  run (CompleteOnboarding ctx params) db ev = (Ok r, db') →
  ∃ t, uuid_in (completeParams_TenantID params) = Some t ∧ effect t db db'.
Proof.
  intros Hc Hev Hr. unfold CompleteOnboarding in Hr. effect_start Hr.
  destruct (String.eqb_spec (operation_State a0) OperationStateSucceeded) as [Hs|Hs].
  { tx_inv Hr. cbn in *.
    select (sql_context _ _ _ _ _ = _) (fun H => apply sql_context_Ok in H
      as (t & u & row & m & e & Ht & Hu & Hrow & Hm & He & -> & Hscope)).
    exists t. split; [done|constructor]. }
  unfold CompleteOnboarding_activate, queryOperationByID, queryContext in Hr.
  tx_inv Hr. bool_facts. cbn.
  select (sql_leave_provisioning _ _ _ _ _ = _) (fun H =>
    apply (sql_leave_provisioning_Ok _ _ _ _ _ _ _ Hc) in H
    as (t & Ht & [(_ & Hsc & row & new & Hrow & Hst & Hnew & Hb & ->)|(-> & _)])); [|done].
  apply (service_scope_operation _ _ _ _ _ _ _ _ E) in Ht as Hop.
  destruct Hop as (id & Hid & Ho & HoT & _).
  select (sql_operation_succeeded _ _ _ _ _ = _) (fun H => apply update_operation_Ok in H
    as (t' & id' & Ht' & Hid' & [(-> & _ & o & Ho' & _ & _ & Hmax & Hchk & ->)
                            |(-> & -> & Hno)])); simplify_eq.
  2:{ specialize (Hno Hsc _ Ho eq_refl). apply slices_Contains_false in Hno.
      rewrite E0 in Hno. set_solver. }
  eexists. split; [done|]. cbn in *. simplify_eq. effect_goal.
  eapply effect_complete; [done|done|done|done|done|done|done| |].
  - by split_and!.
  - eapply emitted_insert; [done..|]. by eapply Hev.
Qed.

Lemma FailOnboarding_effect ctx params db ev r db' :
  consistent db →
  (∀ build t o event, failParams_Event params = Some build → build t o = Ok event →
     event_of event "tenant" 2) →
  run (FailOnboarding ctx params) db ev = (Ok r, db') →
  ∃ t, uuid_in (failParams_TenantID params) = Some t ∧ effect t db db'.
Proof.
  intros Hc Hev Hr. unfold FailOnboarding in Hr. effect_start Hr.
  destruct (String.eqb_spec (operation_State a0) OperationStateFailed) as [Hs|Hs].
  { tx_inv Hr. cbn in *.
    select (sql_tenant _ _ _ = _) (fun H => apply sql_tenant_Ok in H
      as (t & row & Ht & Hrow & ->)).
    exists t. split; [done|constructor]. }
  unfold FailOnboarding_record, queryOperationByID, queryTenant in Hr.
  tx_inv Hr. bool_facts. cbn.
  select (sql_operation_failed _ _ _ _ _ _ = _) (fun H => apply update_operation_Ok in H
    as (t & id & Ht & Hid & Hop)).
  destruct (service_scope_operation _ _ _ _ _ _ _ _ E Ht) as (id' & Hid' & Ho & HoT & Hsc).
  destruct (consistent_operation _ Hc _ _ Ho) as (_ & Hoc & Hnc & Hten).
  pose proof (active_or_failing _ Hoc Hnc Hs) as Hactive.
  select (sql_leave_provisioning _ _ _ _ _ = _) (fun H =>
    apply (sql_leave_provisioning_Ok _ _ _ _ _ _ _ Hc) in H
    as (t' & Ht' & Hlv)).
  simplify_eq. eexists. split; [done|]. destruct Hop as
    [(-> & _ & o & Ho' & _ & Hst & Hmax & Hchk & ->)|(_ & -> & Hno)].
  - assert (operations db0 = operations db) as Hops.
    { by destruct Hlv as [(_ & _ & ? & ? & _ & _ & _ & _ & ->)|(_ & -> & _)]. }
    rewrite Hops, Ho in Ho'. injection Ho' as <-.
    apply slices_Contains_true in Hst.
    destruct Hlv as [(_ & _ & row & new & Hrow & Hrs & Hnew & Hb & ->)|(_ & -> & Hlv)];
      cbn in *.
    + effect_goal. eapply effect_fail; [done|done|done|done|done|done|done| |].
      * by split_and!.
      * eapply emitted_insert; [done..|]. by eapply Hev.
    + effect_goal. destruct Hten as [row Hrow].
      eapply effect_fail_late; [done|by apply Hlv|done|done|done| |].
      * by split_and!.
      * eapply emitted_insert; [done..|]. by eapply Hev.
  - exfalso. rewrite (Hno Hsc a0) in Hactive; [|by destruct Hlv; naive_solver|done].
    by apply Hactive in E0.
Qed.

Lemma is_some_false {A} (o : option A) : is_some o = false ↔ o = None.
Proof. by destruct o. Qed.

Lemma sql_insert_tenant_Ok tenant requestID sc db n db' :
  sql_insert_tenant tenant requestID sc db = Ok (n, db') →
  ∃ t u row, uuid_in (tenant_ID tenant) = Some t ∧
    uuid_in (tenant_CreatedByUserID tenant) = Some u ∧ tenants db !! t = None ∧
    (∀ t' x, tenants db !! t' = Some x → tenant_CreatedByUserID (row_Tenant x) = u →
       row_CreationRequestID x ≠ requestID) ∧
    tenant_ID row = t ∧ tenant_CreatedByUserID row = u ∧
    tenant_Status row = StatusProvisioning ∧ tenant_Version row = tenant_Version tenant ∧
    tenant_checks row = true ∧
    db' = set_tenants (<[t := {| row_Tenant := row; row_CreationRequestID := requestID |}]>
                         (tenants db)) db.
Proof.
  unfold sql_insert_tenant. intros Hi. result_inv Hi. bool_facts. simplify_eq.
  do 3 eexists. split_and!; cycle 9; [done|done|done| | |done..].
  - by apply is_some_false.
  - intros t' x Hx Hu Hreq. 
    match goal with
      Hany : table_any (λ x, String.eqb (tenant_CreatedByUserID _) _ && _) _ = false |- _ =>
      eapply (table_any_false _ _ _ _ Hany) in Hx end.
    by rewrite Hu, Hreq, !String.eqb_refl in Hx.
Qed.

Lemma sql_insert_entitlements_Ok e sc db n db' :
  sql_insert_entitlements e sc db = Ok (n, db') →
  ∃ t row, uuid_in (entitlements_TenantID e) = Some t ∧ entitlements_TenantID row = t ∧
    db' = set_entitlements (<[t := row]> (entitlements db)) db.
Proof.
  unfold sql_insert_entitlements. intros Hi. result_inv Hi. simplify_eq.
  do 2 eexists. split_and!; cycle 2; done.
Qed.

Lemma sql_insert_operation_Ok o sc db n db' :
  sql_insert_operation o sc db = Ok (n, db') →
  ∃ id t row, uuid_in (operation_ID o) = Some id ∧ uuid_in (operation_TenantID o) = Some t ∧
    operations db !! id = None ∧
    (∀ id' x, operations db !! id' = Some x → operation_TenantID x ≠ t) ∧
    operation_ID row = id ∧ operation_TenantID row = t ∧
    operation_State row = operation_State o ∧ operation_Version row = operation_Version o ∧
    operation_checks row = true ∧
    db' = set_operations (<[id := row]> (operations db)) db.
Proof.
  unfold sql_insert_operation. intros Hi. result_inv Hi. bool_facts. simplify_eq.
  do 3 eexists. split_and!; cycle 9; [done|done|done| | |done..].
  - by apply is_some_false.
  - intros id' x Hx Hu. 
    match goal with Hany : table_any (λ x, String.eqb (operation_TenantID x) _) _ = false |- _ =>
      eapply (table_any_false _ _ _ _ Hany) in Hx end.
    by apply String.eqb_neq in Hx.
Qed.

(** The new aggregate the service hands to [CreateTenant]: one identifier for its
    parts, its creator an owner, a pending operation, all at version 1. *)
Record new_aggregate (params : CreateTenantParams) : Prop := {
  new_membership_tenant :
    membership_TenantID (context_Membership (createParams_Context params))
    = tenant_ID (context_Tenant (createParams_Context params));
  new_entitlements_tenant :
    entitlements_TenantID (context_Entitlements (createParams_Context params))
    = tenant_ID (context_Tenant (createParams_Context params));
  new_operation_tenant :
    operation_TenantID (createParams_Operation params)
    = tenant_ID (context_Tenant (createParams_Context params));
  new_membership_user :
    membership_UserID (context_Membership (createParams_Context params))
    = tenant_CreatedByUserID (context_Tenant (createParams_Context params));
  new_membership_owner :
    membership_Role (context_Membership (createParams_Context params)) = RoleOwner;
  new_membership_version :
    membership_Version (context_Membership (createParams_Context params)) = 1;
  new_tenant_version : tenant_Version (context_Tenant (createParams_Context params)) = 1;
  new_operation_version : operation_Version (createParams_Operation params) = 1;
  new_operation_state :
    operation_State (createParams_Operation params) = OperationStatePending;
  new_event : event_of (createParams_Event params) "tenant" 1;
}.

Lemma CreateTenant_effect ctx params db ev r db' :
  consistent db → new_aggregate params →
  run (CreateTenant ctx params) db ev = (Ok r, db') →
  db' = db ∨
  ∃ t, uuid_in (tenant_ID (context_Tenant (createParams_Context params))) = Some t ∧
       effect t db db'.
Proof.
  intros Hc Hnew Hr. unfold CreateTenant in Hr. effect_start Hr.
  destruct a0 as [existing|].
  { unfold queryContext, queryOperationByTenant in Hr. tx_inv Hr. by left. }
  unfold CreateTenant_insert, queryContext, queryOperationByTenant, insertMembership,
    insertOperation, applyTenantScope in Hr.
  tx_inv Hr. cbn. right.
  select (sql_insert_tenant _ _ _ _ = _) (fun H => apply sql_insert_tenant_Ok in H
    as (t & u & row & Ht & Hu & Hfresh & Hreq & HT & HU & Hst & Hv & Hchk & ->)).
  select (sql_insert_membership _ _ _ = _) (fun H => apply sql_insert_membership_Ok in H
    as (t' & u' & m & Ht' & Hu' & Hmf & _ & HmT & HmU & HmR & HmV & HmC & ->)).
  select (sql_insert_entitlements _ _ _ = _) (fun H => apply sql_insert_entitlements_Ok in H
    as (t2 & e & Ht2 & HeT & ->)).
  select (sql_insert_operation _ _ _ = _) (fun H => apply sql_insert_operation_Ok in H
    as (id & t3 & o & Hid & Ht3 & Hof & Hone & HoI & HoT & HoS & HoV & HoC & ->)).
  destruct Hnew. rewrite new_membership_tenant0, new_membership_user0 in *.
  rewrite new_entitlements_tenant0 in Ht2. rewrite new_operation_tenant0 in Ht3.
  exists t. split; [done|]. cbn in *.
  assert (t' = t) as -> by congruence. assert (u' = u) as -> by congruence.
  assert (t2 = t) as -> by congruence. assert (t3 = t) as -> by congruence.
  effect_goal.
  eapply effect_create; try done; try congruence.
  - by eapply uuid_in_canonical.
  - unfold is_owner. by rewrite HmR, new_membership_owner0.
  - rewrite HmV, new_membership_version0. done.
  - by eapply emitted_insert.
Qed.

End Mutations.
