(* ===== verification/TenantInvariants.v ===== *)
(** * Tenant service: reachable states and their invariants

    The repository's mutations with the parameters the service builds, from
    whatever it read before, and the relay's batches, as a transition system on
    the tables; its invariants. *)

From S2P Require Import Prelude GoStrings Postgres Usecase Outbox TenantDomain.
From S2P Require Import TenantStore.
From S2P Require Import TenantRepository TenantService TenantEffects TenantMutations.
From S2P Require Import OutboxProperties.
From stdpp Require Import strings gmap list sorting.
From Stdlib Require Import String Lia.
Open Scope string_scope.
Open Scope list_scope.
Open Scope Z_scope.

Section System.
Context `{Platform, Proto} `{!TenantProto}.

(** A mutating call of the repository. *)
Inductive mutation :=
| MutateCreate (params : CreateTenantParams)
| MutateUpdate (params : UpdateTenantParams)
| MutateArchive (params : ArchiveTenantParams)
| MutateAddMember (params : AddMemberParams)
| MutateMemberRole (params : UpdateMemberRoleParams)
| MutateRemoveMember (params : RemoveMemberParams)
| MutateRunning (params : MarkOnboardingRunningParams)
| MutateComplete (params : CompleteOnboardingParams)
| MutateFail (params : FailOnboardingParams).

Definition forget {A} (r : result error A * tables) : result error unit * tables :=
  ((λ _, tt) <$> r.1, r.2).

Definition run_mutation (ctx : Ctx) (mu : mutation) (db : tables) (ev : env)
  : result error unit * tables :=
  match mu with
  | MutateCreate params => forget (run (TenantRepository.CreateTenant ctx params) db ev)
  | MutateUpdate params => forget (run (TenantRepository.UpdateTenant ctx params) db ev)
  | MutateArchive params => forget (run (TenantRepository.ArchiveTenant ctx params) db ev)
  | MutateAddMember params => forget (run (TenantRepository.AddMember ctx params) db ev)
  | MutateMemberRole params =>
      forget (run (TenantRepository.UpdateMemberRole ctx params) db ev)
  | MutateRemoveMember params =>
      forget (run (TenantRepository.RemoveMember ctx params) db ev)
  | MutateRunning params =>
      forget (run (TenantRepository.MarkOnboardingRunning ctx params) db ev)
  | MutateComplete params =>
      forget (run (TenantRepository.CompleteOnboarding ctx params) db ev)
  | MutateFail params => forget (run (TenantRepository.FailOnboarding ctx params) db ev)
  end.

(** The tenant a mutation names. *)
Definition mutation_tenant (mu : mutation) : string :=
  match mu with
  | MutateCreate params => tenant_ID (context_Tenant (createParams_Context params))
  | MutateUpdate params => tenant_ID (updateParams_Tenant params)
  | MutateArchive params => tenant_ID (archiveParams_Tenant params)
  | MutateAddMember params => membership_TenantID (addParams_Membership params)
  | MutateMemberRole params => membership_TenantID (roleParams_Membership params)
  | MutateRemoveMember params => removeParams_TenantID params
  | MutateRunning params => runningParams_TenantID params
  | MutateComplete params => completeParams_TenantID params
  | MutateFail params => failParams_TenantID params
  end.

Variable service : Service.

(** The service calls the repository with these parameters. [current] and
    [target] are what it read before: any values, since the tables may have
    changed since. *)
Inductive built : mutation → Prop :=
| built_create ctx input w params :
    CreateTenant_params service ctx input w = Ok params → built (MutateCreate params)
| built_update ctx input current w params :
    UpdateTenant_params service ctx input current w = Ok params →
    built (MutateUpdate params)
| built_archive ctx actorUserID tenantID expected current w params :
    ArchiveTenant_params service ctx actorUserID tenantID expected current w
      = Ok (Some params) → built (MutateArchive params)
| built_add ctx input current w params :
    AddMember_params service ctx input current w = Ok params →
    built (MutateAddMember params)
| built_role ctx input current target w params :
    UpdateMemberRole_params service ctx input current target w = Ok params →
    built (MutateMemberRole params)
| built_remove ctx input current target w params :
    RemoveMember_params service ctx input current target w = Ok params →
    built (MutateRemoveMember params)
| built_running ctx tenantID operationID workflowID workflowRunID w params :
    MarkOnboardingRunning_params service ctx tenantID operationID workflowID
      workflowRunID w = Ok params → built (MutateRunning params)
| built_complete ctx tenantID operationID w params :
    CompleteOnboarding_params service ctx tenantID operationID w = Ok params →
    built (MutateComplete params)
| built_fail ctx tenantID operationID err w params :
    FailOnboarding_params service ctx tenantID operationID err w = Ok params →
    built (MutateFail params).

(** One transition of the tables: a mutation, successful or not, or a batch of
    the relay. *)
Inductive step (db : tables) : tables → Prop :=
| step_mutation ctx mu ev r db' :
    built mu → run_mutation ctx mu db ev = (r, db') → step db db'
| step_relay c ev log b st :
    processBatch c ev {| rs_outbox := outbox db; rs_log := log |} = (b, st) →
    step db (set_outbox (rs_outbox st) db).

Inductive reachable : tables → Prop :=
| reachable_start : reachable no_tables
| reachable_step db db' : reachable db → step db db' → reachable db'.

End System.

(** ** Every step is an effect *)

Section Steps.
Context `{PlatformLaws, ProtoLaws} `{!TenantProto}.
Implicit Types (db : tables) (service : Service).

Lemma newAggregateOutboxEvent_Ok id ctx topic ty t aty aid v payload now event :
  newAggregateOutboxEvent id ctx topic ty t aty aid v payload now = Ok event →
  event_of event aty (v mod 2 ^ 64).
Proof.
  unfold newAggregateOutboxEvent. intros Hev. result_inv Hev.
  injection Hev as <-. eexists. split; [by apply unmarshal_marshal|done].
Qed.

Lemma newAggregateOutboxEvent_small id ctx topic ty t aty aid v payload now event :
  newAggregateOutboxEvent id ctx topic ty t aty aid v payload now = Ok event →
  0 < v ≤ int64_max → event_of event aty v.
Proof.
  intros Hev%newAggregateOutboxEvent_Ok Hv. by rewrite mod_version in Hev.
Qed.

Lemma forget_Ok {A} (m : result error A * tables) u db' :
  forget m = (Ok u, db') → ∃ r, m = (Ok r, db').
Proof. destruct m as [[r|e] db]; unfold forget; cbn; intros; simplify_eq; eauto. Qed.
Lemma forget_Err {A} (m : result error A * tables) e db' :
  forget m = (Err e, db') → m = (Err e, db').
Proof. destruct m as [[r|e'] db]; unfold forget; cbn; intros; by simplify_eq. Qed.

(** Take apart a successful computation of parameters. *)
Ltac params_inv H :=
  unfold newTenantOutboxEvent, newOperationOutboxEvent in H; result_inv H;
  injection H as <-; bool_facts.

Lemma built_new_aggregate service ctx input w params :
  CreateTenant_params service ctx input w = Ok params → new_aggregate params.
Proof.
  unfold CreateTenant_params. intros Hp. params_inv Hp.
  split; try done. eapply newAggregateOutboxEvent_small; [done|unfold int64_max; lia].
Qed.

Lemma mutation_effect service ctx mu db ev u db' :
  consistent db → built service mu → run_mutation ctx mu db ev = (Ok u, db') →
  db' = db ∨ ∃ t, uuid_in (mutation_tenant mu) = Some t ∧ effect t db db'.
Proof.
  intros Hc Hb Hr. destruct Hb as [? ? ? ? Hp|? ? ? ? ? Hp|? ? ? ? ? ? ? Hp|? ? ? ? ? Hp
    |? ? ? ? ? ? Hp|? ? ? ? ? ? Hp|? ? ? ? ? ? ? Hp|? ? ? ? ? Hp|? ? ? ? ? ? Hp];
    cbn [run_mutation mutation_tenant] in *; apply forget_Ok in Hr as [r Hr].
  - eapply CreateTenant_effect; [done| |done]. by eapply built_new_aggregate.
  - right. eapply UpdateTenant_effect; [done| | |done];
      unfold UpdateTenant_params in Hp; params_inv Hp; cbn; [congruence|].
    by eapply newAggregateOutboxEvent_Ok.
  - right. unfold ArchiveTenant_params in Hp. result_inv Hp.
    destruct (String.eqb _ _); [done|]. params_inv Hp. bool_facts.
    eapply ArchiveTenant_effect; [done|done|cbn; congruence| |done].
    by eapply newAggregateOutboxEvent_Ok.
  - right. unfold AddMember_params in Hp. params_inv Hp.
    eapply AddMember_effect; [done|done|done| |done].
    by eapply newAggregateOutboxEvent_Ok.
  - right. unfold UpdateMemberRole_params in Hp. params_inv Hp.
    eapply UpdateMemberRole_effect; [done|done|cbn; congruence| |done].
    by eapply newAggregateOutboxEvent_Ok.
  - right. unfold RemoveMember_params in Hp. params_inv Hp.
    eapply RemoveMember_effect; [done|done| |done].
    by eapply newAggregateOutboxEvent_Ok.
  - right. unfold MarkOnboardingRunning_params in Hp. params_inv Hp.
    eapply MarkOnboardingRunning_effect; [done| |done].
    eapply newAggregateOutboxEvent_small; [done|unfold int64_max; lia].
  - right. unfold CompleteOnboarding_params in Hp. params_inv Hp.
    eapply CompleteOnboarding_effect; [done| |done].
    intros build c event [= <-] Hb. eapply newAggregateOutboxEvent_small; [done|unfold int64_max; lia].
  - right. unfold FailOnboarding_params in Hp. params_inv Hp.
    eapply FailOnboarding_effect; [done| |done].
    intros build t o event [= <-] Hb. eapply newAggregateOutboxEvent_small; [done|unfold int64_max; lia].
Qed.

Lemma mutation_error ctx mu db ev e db' :
  run_mutation ctx mu db ev = (Err e, db') → db' = db.
Proof. destruct mu; cbn; intros Hr%forget_Err; by eapply run_Err in Hr; [|apply _]. Qed.

(** ** Consistency *)

Lemma consistent_start : consistent no_tables.
Proof. split; cbn; intros *; rewrite ?lookup_empty; done || by split; intros []. Qed.

Lemma consistent_set_outbox ob db : consistent db → consistent (set_outbox ob db).
Proof. by intros []. Qed.

Lemma consistent_set_tenant db t row new :
  consistent db → tenants db !! t = Some row → bumped (row_Tenant row) new →
  consistent (set_tenants
    (<[t := {| row_Tenant := new; row_CreationRequestID := row_CreationRequestID row |}]>
       (tenants db)) db).
Proof.
  intros Hc Hrow (HT & _ & HU & _ & Hmax & Hchk).
  assert (Hsome : ∀ t', is_Some (tenants db !! t') → is_Some (<[t:=
    {| row_Tenant := new; row_CreationRequestID := row_CreationRequestID row |}]>
       (tenants db) !! t')) by (intros; apply lookup_insert_is_Some'; auto).
  destruct Hc as [c1 c2 c3 c4 c5 c6 c7]. split; cbn.
  - intros t' row' [[<- <-]|[_ Hr]]%lookup_insert_Some; [|by apply c1].
    destruct (c1 _ _ Hrow) as (<- & _ & ? & _). done.
  - intros k m Hm. destruct (c2 _ _ Hm) as (? & ? & ? & ?). auto.
  - intros t'. rewrite <-c3. split; [|auto].
    intros [<-|?]%lookup_insert_is_Some'; [by exists row|done].
  - intros id o Ho. destruct (c4 _ _ Ho) as (? & ? & ? & ?). auto.
  - done.
  - intros t1 t2 row1 row2 [[<- <-]|[_ H1']]%lookup_insert_Some
      [[<- <-]|[_ H2']]%lookup_insert_Some; cbn; rewrite ?HU; eauto.
  - done.
Qed.

Lemma consistent_mchange db t row ms :
  consistent db → tenants db !! t = Some row → mchange t (memberships db) ms →
  consistent (set_memberships ms db).
Proof.
  intros [c1 c2 c3 c4 c5 c6 c7] Hrow Hms. split; cbn; [done| |done..].
  intros k m Hm.
  destruct Hms as [|u x Hx HT HU Hchk Hmax|u x x' Hx HT HU Hv Hmax Hchk _|u x Hx _].
  - by apply c2.
  - apply lookup_insert_Some in Hm as [[<- <-]|[_ Hm]]; [|by apply c2].
    rewrite HT, HU. split_and!; eauto.
  - apply lookup_insert_Some in Hm as [[<- <-]|[_ Hm]]; [|by apply c2].
    destruct (c2 _ _ Hx) as (Hk & _ & _ & Hs). rewrite HT, HU. by split_and!.
  - apply lookup_delete_Some in Hm as [_ Hm]. by apply c2.
Qed.

Lemma consistent_advanced db id o new state :
  consistent db → operations db !! id = Some o → advanced o new state →
  state ≠ OperationStateCanceled →
  consistent (set_operations (<[id := new]> (operations db)) db).
Proof.
  intros [c1 c2 c3 c4 c5 c6 c7] Ho (HI & HT & HS & HV & Hchk) Hst. split; cbn; [done|done|done| | | |].
  - intros id' o' [[<- <-]|[_ Ho']]%lookup_insert_Some; [|by apply c4].
    destruct (c4 _ _ Ho) as (Hid & _ & _ & Hs). rewrite HI, HT, HS. by split_and!.
  - intros id1 id2 o1 o2 [[<- <-]|[_ H1']]%lookup_insert_Some
      [[<- <-]|[_ H2']]%lookup_insert_Some; rewrite ?HT; eauto.
  - done.
  - done.
Qed.

Lemma effect_consistent t db db' : consistent db → effect t db db' → consistent db'.
Proof.
  intros Hc Heff.
  destruct Heff as [|id u ten m e o req ob Hcan Ht Hid Hone Hreq HtI HtU HtS HtV HtC HmT HmU
      HmO HmC HmV HeT HoI HoT HoS HoV HoC Hob|row new ms ob Hrow Hst Hst' Hb Hms Hob
    |row new ob Hrow Hst Hb Hob|id o new ob Ho HoT Hst Hadv Hob
    |row new id o o' ob Hrow Hst Hst' Hb Ho HoT HoS Hadv Hob
    |row new id o o' ob Hrow Hst Hst' Hb Ho HoT HoS Hadv Hob
    |row id o o' ob Hrow Hst Ho HoT HoS Hadv Hob].
  - done.
  - destruct Hc as [c1 c2 c3 c4 c5 c6 c7]. split; cbn.
    + intros t' row [[<- <-]|[_ Hr]]%lookup_insert_Some; [|by apply c1].
      cbn. rewrite HtV. done.
    + intros k m' [[<- <-]|[_ Hm]]%lookup_insert_Some.
      * rewrite HmT, HmU. split_and!; [done..|]. apply lookup_insert_is_Some'. by left.
      * destruct (c2 _ _ Hm) as (? & ? & ? & ?). split_and!; [done..|].
        apply lookup_insert_is_Some'. by right.
    + intros t'. rewrite !lookup_insert_is_Some', c3. done.
    + intros id' o' [[<- <-]|[_ Ho]]%lookup_insert_Some.
      * rewrite HoT, HoS. split_and!; [done..|]. apply lookup_insert_is_Some'. by left.
      * destruct (c4 _ _ Ho) as (? & ? & ? & ?). split_and!; [done..|].
        apply lookup_insert_is_Some'. by right.
    + intros id1 id2 o1 o2 [[<- <-]|[_ H1']]%lookup_insert_Some
        [[<- <-]|[_ H2']]%lookup_insert_Some; rewrite ?HoT; [done|..|by eauto];
        intros Heq; exfalso; by eapply Hone.
    + intros t1 t2 row1 row2 [[<- <-]|[_ H1']]%lookup_insert_Some
        [[<- <-]|[_ H2']]%lookup_insert_Some; cbn; rewrite ?HtU; [done|..|by eauto];
        intros Hu Hr; exfalso; by eapply Hreq.
    + intros t' e' [[<- <-]|[_ He]]%lookup_insert_Some; [done|by apply c7].
  - refine (consistent_set_outbox ob _ (consistent_mchange _ _ _ _
      (consistent_set_tenant _ _ _ _ Hc Hrow Hb) (lookup_insert_eq _ _ _) Hms)).
  - exact (consistent_set_outbox ob _ (consistent_set_tenant _ _ _ _ Hc Hrow Hb)).
  - apply consistent_set_outbox. by eapply consistent_advanced.
  - refine (consistent_set_outbox ob _ (consistent_advanced _ _ _ _ _
      (consistent_set_tenant _ _ _ _ Hc Hrow Hb) Ho Hadv _)). done.
  - refine (consistent_set_outbox ob _ (consistent_advanced _ _ _ _ _
      (consistent_set_tenant _ _ _ _ Hc Hrow Hb) Ho Hadv _)). done.
  - apply consistent_set_outbox. by eapply consistent_advanced.
Qed.

(** ** Ownership *)

Definition has_owner (db : tables) : Prop :=
  ∀ t row, tenants db !! t = Some row →
    ∃ u m, memberships db !! (t, u) = Some m ∧ is_owner m = true.

Lemma mchange_owner t ms ms' :
  mchange t ms ms' →
  (∃ u m, ms !! (t, u) = Some m ∧ is_owner m = true) →
  ∃ u m, ms' !! (t, u) = Some m ∧ is_owner m = true.
Proof.
  intros Hms (u0 & m0 & Hm0 & Hown).
  destruct Hms as [|u x Hx _ _ _ _|u x x' Hx _ _ _ _ _ Hlast|u x Hx Hlast].
  - eauto.
  - exists u0, m0. rewrite lookup_insert_ne; [done|]. congruence.
  - destruct (is_owner x') eqn:Hx'.
    + exists u, x'. by rewrite lookup_insert_eq.
    + destruct (decide (u0 = u)) as [->|Hne].
      * simplify_eq. destruct (Hlast Hown eq_refl) as (u1 & m1 & Hne & Hm1 & Ho1).
        exists u1, m1. rewrite lookup_insert_ne; [done|congruence].
      * exists u0, m0. rewrite lookup_insert_ne; [done|congruence].
  - destruct (decide (u0 = u)) as [->|Hne].
    + simplify_eq. destruct (Hlast Hown) as (u1 & m1 & Hne & Hm1 & Ho1).
      exists u1, m1. rewrite lookup_delete_ne; [done|congruence].
    + exists u0, m0. rewrite lookup_delete_ne; [done|congruence].
Qed.

Lemma mchange_other t ms ms' t' u :
  mchange t ms ms' → t' ≠ t → ms' !! (t', u) = ms !! (t', u).
Proof.
  intros [] Hne; rewrite ?lookup_insert_ne, ?lookup_delete_ne by congruence; done.
Qed.

Lemma effect_has_owner t db db' : has_owner db → effect t db db' → has_owner db'.
Proof.
  intros Ho Heff t' row'.
  destruct Heff; cbn; try (intros Hr'; by apply (Ho t' row'));
    intros [[<- <-]|[Hne Hr']]%lookup_insert_Some; eauto.
  - exists u, m. by rewrite lookup_insert_eq.
  - destruct (Ho _ _ Hr') as (u' & m' & Hm' & Hown). exists u', m'.
    rewrite lookup_insert_ne; [done|congruence].
  - eapply mchange_owner; eauto.
  - destruct (Ho _ _ Hr') as (u' & m' & Hm' & Hown). exists u', m'.
    by erewrite mchange_other.
Qed.

(** ** Onboarding *)

(** The states of the operation that agree with a status of its tenant. *)
Definition coupled (status : Status) (state : OperationState) : Prop :=
  (status = StatusProvisioning ∨ status = StatusArchived) ∧
    (state = OperationStatePending ∨ state = OperationStateRunning) ∨
  (status = StatusActive ∨ status = StatusArchived) ∧ state = OperationStateSucceeded ∨
  (status = StatusProvisioningFailed ∨ status = StatusArchived) ∧
    state = OperationStateFailed.

Record onboarding (db : tables) : Prop := {
  onboarding_operation : ∀ t, is_Some (tenants db !! t) →
    ∃ id o, operations db !! id = Some o ∧ operation_TenantID o = t;
  onboarding_coupled : ∀ id o row, operations db !! id = Some o →
    tenants db !! operation_TenantID o = Some row →
    coupled (tenant_Status (row_Tenant row)) (operation_State o);
  onboarding_tenant_version : ∀ t row, tenants db !! t = Some row →
    tenant_Status (row_Tenant row) = StatusProvisioning → tenant_Version (row_Tenant row) = 1;
  onboarding_operation_version : ∀ id o, operations db !! id = Some o →
    operation_State o = OperationStatePending → operation_Version o = 1;
}.

Lemma coupled_archived status state : coupled status state → coupled StatusArchived state.
Proof. unfold coupled. naive_solver. Qed.

(** A new version of one tenant row. *)
Lemma onboarding_set_tenant db t row new :
  onboarding db → tenants db !! t = Some row →
  (∀ state, coupled (tenant_Status (row_Tenant row)) state → coupled (tenant_Status new) state) →
  tenant_Status new ≠ StatusProvisioning →
  onboarding (set_tenants
    (<[t := {| row_Tenant := new; row_CreationRequestID := row_CreationRequestID row |}]>
       (tenants db)) db).
Proof.
  intros [o1 o2 o3 o4] Hrow Hst Hnp. split; cbn.
  - intros t' [<-|?]%lookup_insert_is_Some'; [apply o1; by exists row|by apply o1].
  - intros id o row' Ho [[Heq <-]|[_ Hr]]%lookup_insert_Some; [|by eapply o2].
    apply Hst. eapply o2; [done|congruence].
  - intros t' row' [[<- <-]|[_ Hr]]%lookup_insert_Some; [done|by eapply o3].
  - done.
Qed.

(** A new version of one operation, and possibly of its tenant. *)
Lemma onboarding_set_operation db db' id o o' state :
  consistent db → onboarding db → operations db !! id = Some o → advanced o o' state →
  state ≠ OperationStatePending →
  operations db' = <[id := o']> (operations db) →
  (∀ t, t ≠ operation_TenantID o → tenants db' !! t = tenants db !! t) →
  (∀ t, is_Some (tenants db' !! t) ↔ is_Some (tenants db !! t)) →
  (∀ row, tenants db' !! operation_TenantID o = Some row →
     coupled (tenant_Status (row_Tenant row)) state ∧
     (tenant_Status (row_Tenant row) = StatusProvisioning →
      tenant_Version (row_Tenant row) = 1)) →
  onboarding db'.
Proof.
  intros Hc [o1 o2 o3 o4] Ho (HI & HT & HS & HV & Hchk) Hst Hops Hten Hsome Hnew.
  split; rewrite ?Hops.
  - intros t (id' & x & Hx & Hxt)%Hsome%o1. destruct (decide (id' = id)) as [->|].
    + exists id, o'. rewrite lookup_insert_eq. simplify_eq. done.
    + exists id', x. by rewrite lookup_insert_ne.
  - intros id' x row [[<- <-]|[Hne Hx]]%lookup_insert_Some Hr.
    + rewrite HT in Hr. rewrite HS. by apply Hnew.
    + rewrite Hten in Hr; [by eapply o2|]. intros Heq.
      by apply Hne; eapply consistent_one_operation.
  - intros t row Hr. destruct (decide (t = operation_TenantID o)) as [->|].
    + by apply Hnew.
    + rewrite Hten in Hr by done. by eapply o3.
  - intros id' x [[<- <-]|[_ Hx]]%lookup_insert_Some; [congruence|by eapply o4].
Qed.

Lemma open_state (state : OperationState) :
  state ∈ [OperationStatePending; OperationStateRunning] →
  state = OperationStatePending ∨ state = OperationStateRunning.
Proof. set_solver. Qed.

Lemma effect_onboarding t db db' :
  consistent db → onboarding db → effect t db db' → onboarding db'.
Proof.
  intros Hc Hon Heff. pose proof Hon as [o1 o2 o3 o4].
  destruct Heff as [|id u ten m e o req ob Hcan Ht Hid Hone Hreq HtI HtU HtS HtV HtC HmT HmU
      HmO HmC HmV HeT HoI HoT HoS HoV HoC Hob|row new ms ob Hrow Hst Hst' Hb Hms Hob
    |row new ob Hrow Hst Hb Hob|id o new ob Ho HoT Hst Hadv Hob
    |row new id o o' ob Hrow Hst Hst' Hb Ho HoT HoS Hadv Hob
    |row new id o o' ob Hrow Hst Hst' Hb Ho HoT HoS Hadv Hob
    |row id o o' ob Hrow Hst Ho HoT HoS Hadv Hob].
  - done.
  - split; cbn.
    + intros t' [<-|Hs]%lookup_insert_is_Some'.
      * exists id, o. by rewrite lookup_insert_eq.
      * destruct (o1 _ Hs) as (id' & x & Hx & Hxt). exists id', x.
        rewrite lookup_insert_ne; [done|congruence].
    + intros id' x row' [[<- <-]|[_ Hx]]%lookup_insert_Some.
      * rewrite HoT, lookup_insert_eq. intros [= <-]. cbn. rewrite HtS, HoS.
        left. naive_solver.
      * rewrite lookup_insert_ne; [by eapply o2|]. intros Heq. by eapply Hone.
    + intros t' row' [[<- <-]|[_ Hr]]%lookup_insert_Some; [done|by eapply o3].
    + intros id' x [[<- <-]|[_ Hx]]%lookup_insert_Some; [done|by eapply o4].
  - cut (onboarding (set_tenants (<[t := {| row_Tenant := new;
      row_CreationRequestID := row_CreationRequestID row |}]> (tenants db)) db));
      [by intros []|].
    apply onboarding_set_tenant; [done..|congruence|by rewrite Hst'].
  - cut (onboarding (set_tenants (<[t := {| row_Tenant := new;
      row_CreationRequestID := row_CreationRequestID row |}]> (tenants db)) db));
      [by intros []|].
    apply onboarding_set_tenant; [done..| |by rewrite Hst].
    rewrite Hst. intros state. apply coupled_archived.
  - eapply onboarding_set_operation; [done..| |done|done|done|]; [done|].
    cbn. intros row Hr. split; [|by eapply o3].
    specialize (o2 _ _ _ Ho Hr). rewrite Hst in o2.
    destruct o2 as [[? _]|[[_ ?]|[_ ?]]]; [left; split; [done|by right]|done..].
  - eapply onboarding_set_operation; [done..| |cbn;done|cbn|cbn|cbn]; subst t.
    + done.
    + intros t' Hne. by rewrite lookup_insert_ne.
    + intros t'. rewrite lookup_insert_is_Some'. split; [|auto]. intros [<-|?]; [|done].
      by exists row.
    + rewrite lookup_insert_eq. intros row' [= <-]. cbn. rewrite Hst'.
      split; [right; left; split; [by left|done]|done].
  - eapply onboarding_set_operation; [done..| |cbn;done|cbn|cbn|cbn]; subst t.
    + done.
    + intros t' Hne. by rewrite lookup_insert_ne.
    + intros t'. rewrite lookup_insert_is_Some'. split; [|auto]. intros [<-|?]; [|done].
      by exists row.
    + rewrite lookup_insert_eq. intros row' [= <-]. cbn. rewrite Hst'.
      split; [right; right; split; [by left|done]|done].
  - subst t. eapply onboarding_set_operation; [done..| |done|done|done|]; [done|].
    cbn. intros row' Hr. simplify_eq. split; [|done]. right. right. split; [|done].
    specialize (o2 _ _ _ Ho Hrow). apply open_state in HoS.
    destruct o2 as [[[?|?] _]|[[_ Hs]|[_ Hs]]]; [done|by right|..];
      rewrite Hs in HoS; by destruct HoS.
Qed.

(** ** The event stream *)

(** The outbox holds an event of tenant [t] at this version of the aggregate. *)
Definition recorded (t : string) (version : Z) (ob : outbox_table) : Prop :=
  ∃ k row envelope, outbox_rows ob !! k = Some row ∧ outbox_TenantID row = t ∧
    unmarshal_envelope (event_Envelope (outbox_Event row)) = Some envelope ∧
    envelope_AggregateType envelope = "tenant" ∧
    envelope_AggregateVersion envelope = version.

Record covered (db : tables) : Prop := {
  covered_fresh : ∀ k, is_Some (outbox_rows (outbox db) !! k) → k < outbox_next (outbox db);
  covered_versions : ∀ t row v, tenants db !! t = Some row →
    1 ≤ v ≤ tenant_Version (row_Tenant row) → recorded t v (outbox db);
}.

Lemma emitted_fresh t aty v ob ob' :
  (∀ k, is_Some (outbox_rows ob !! k) → k < outbox_next ob) → emitted t aty v ob ob' →
  (∀ k, is_Some (outbox_rows ob' !! k) → k < outbox_next ob') ∧
  (∀ t' v', recorded t' v' ob → recorded t' v' ob') ∧
  (aty = "tenant" → recorded t v ob').
Proof.
  intros Hf (row & envelope & -> & HT & _ & Hu & Hty & Hv). cbn. split_and!.
  - intros k [<-|Hk%Hf]%lookup_insert_is_Some'; cbn; lia.
  - intros t' v' (k & r & env & Hk & Hr). exists k, r, env. split; [|done]. cbn.
    rewrite lookup_insert_ne; [done|]. intros <-.
    cut (outbox_next ob < outbox_next ob); [lia|]. apply Hf. by exists r.
  - intros ->. exists (outbox_next ob), row, envelope. cbn. by rewrite lookup_insert_eq.
Qed.

Lemma recorded_same_events t v ob ob' :
  same_events ob ob' → recorded t v ob → recorded t v ob'.
Proof.
  intros [_ Hk] (k & r & env & Hr & HT & Hu & Hrest). specialize (Hk k).
  rewrite Hr in Hk. destruct (outbox_rows ob' !! k) as [r'|] eqn:Hr'; [|done].
  injection Hk as HT' Hev. exists k, r', env. rewrite HT', Hev. done.
Qed.

Lemma covered_relay db ob : covered db → same_events (outbox db) ob → covered (set_outbox ob db).
Proof.
  intros [Hf Hv] Hs. split; cbn.
  - intros k Hk. destruct Hs as [Hn Hs]. rewrite Hn. apply Hf.
    specialize (Hs k). destruct (outbox_rows ob !! k); [|by destruct Hk].
    by destruct (outbox_rows (outbox db) !! k).
  - intros t row v Hrow Hle. eapply recorded_same_events; [done|]. by eapply Hv.
Qed.

Lemma effect_covered t db db' :
  onboarding db → covered db → effect t db db' → covered db'.
Proof.
  intros Hon [Hf Hv] Heff.
  assert (Hbump : ∀ row new v ob, tenants db !! t = Some row →
    tenant_Version new = tenant_Version (row_Tenant row) + 1 →
    v = tenant_Version new → emitted t "tenant" v (outbox db) ob →
    ∀ t' row' v', <[t := {| row_Tenant := new;
        row_CreationRequestID := row_CreationRequestID row |}]> (tenants db) !! t' = Some row' →
      1 ≤ v' ≤ tenant_Version (row_Tenant row') → recorded t' v' ob).
  { intros row new v ob Hrow Hver -> (_ & Hold & Hnew)%emitted_fresh; [|done].
    intros t' row' v' [[<- <-]|[_ Hr]]%lookup_insert_Some Hle; cbn in *.
    - destruct (decide (v' = tenant_Version new)) as [->|]; [by apply Hnew|].
      apply Hold. eapply Hv; [done|lia].
    - apply Hold. by eapply Hv. }
  assert (Hprov : ∀ row new, tenants db !! t = Some row →
    tenant_Status (row_Tenant row) = StatusProvisioning → bumped (row_Tenant row) new →
    2 = tenant_Version new).
  { intros row new Hrow Hst (_ & _ & _ & Hver & _).
    rewrite Hver, (onboarding_tenant_version _ Hon _ _ Hrow Hst). done. }
  destruct Heff as [|id u ten m e o req ob Hcan Ht Hid Hone Hreq HtI HtU HtS HtV HtC HmT HmU
      HmO HmC HmV HeT HoI HoT HoS HoV HoC Hob|row new ms ob Hrow Hst Hst' Hb Hms Hob
    |row new ob Hrow Hst Hb Hob|id o new ob Ho HoT Hst Hadv Hob
    |row new id o o' ob Hrow Hst Hst' Hb Ho HoT HoS Hadv Hob
    |row new id o o' ob Hrow Hst Hst' Hb Ho HoT HoS Hadv Hob
    |row id o o' ob Hrow Hst Ho HoT HoS Hadv Hob];
    [done|..]; destruct (emitted_fresh _ _ _ _ _ Hf Hob) as (Hf' & Hold & Hnew);
    (split; [exact Hf'|]); cbn.
  - intros t' row' v [[<- <-]|[_ Hr]]%lookup_insert_Some Hle; cbn in *.
    + replace v with 1 by lia. by apply Hnew.
    + apply Hold. by eapply Hv.
  - eapply Hbump; [done|apply Hb|done|done].
  - eapply Hbump; [done|apply Hb|done|done].
  - intros t' row' v Hr Hle. apply Hold. by eapply Hv.
  - eapply Hbump; [done|apply Hb|by eapply Hprov|done].
  - eapply Hbump; [done|apply Hb|by eapply Hprov|done].
  - intros t' row' v Hr Hle. apply Hold. by eapply Hv.
Qed.

(** ** All invariants, over every reachable state *)

Record invariant (db : tables) : Prop := {
  invariant_consistent : consistent db;
  invariant_owner : has_owner db;
  invariant_onboarding : onboarding db;
  invariant_covered : covered db;
}.

Lemma invariant_start : invariant no_tables.
Proof.
  split; [apply consistent_start|..].
  - intros t row. cbn. by rewrite lookup_empty.
  - split; cbn; intros *; rewrite lookup_empty; done || by intros [].
  - split; cbn; intros *; rewrite lookup_empty; done || by intros [].
Qed.

Lemma invariant_set_outbox db ob :
  same_events (outbox db) ob → invariant db → invariant (set_outbox ob db).
Proof.
  intros Hs [Hc Ho Hon Hcov]. split; [by apply consistent_set_outbox|done|by destruct Hon|].
  by apply covered_relay.
Qed.

Lemma invariant_step service db db' : invariant db → step service db db' → invariant db'.
Proof.
  intros Hinv Hstep. destruct Hstep as [ctx mu ev [u|e] db' Hb Hr|c ev log b st Hp].
  - destruct Hinv as [Hc Ho Hon Hcov].
    destruct (mutation_effect _ _ _ _ _ _ _ Hc Hb Hr) as [->|(t & _ & Heff)]; [done|].
    split; eauto using effect_consistent, effect_has_owner, effect_onboarding, effect_covered.
  - apply mutation_error in Hr as ->. done.
  - apply invariant_set_outbox; [|done]. by apply same_events_batch in Hp.
Qed.

Lemma invariant_reachable service db : reachable service db → invariant db.
Proof. induction 1; [apply invariant_start|by eapply invariant_step]. Qed.

End Steps.
