(* ===== verification/Concrete.v ===== *)
(** * Concrete foreign code

    An instance of every class of foreign functions, with its laws, on which the
    examples run: UUIDs are their canonical text, serialized bytes are the
    message itself. *)

From S2P Require Import Prelude GoStrings Postgres Usecase Outbox TenantDomain.
From S2P Require Import TenantStore.
From S2P Require Import TenantRepository TenantService.
From stdpp Require Import strings gmap list.
From Stdlib Require Import String Ascii Lia.
Open Scope string_scope.
Open Scope list_scope.
Open Scope Z_scope.

Definition is_hex (c : ascii) : bool := in_range 48 57 c || in_range 97 102 c.

(** Groups of hexadecimal digits of the given lengths, separated by hyphens. *)
Fixpoint hex_groups (groups : list nat) (s : list ascii) : bool :=
  match groups with
  | [] => match s with [] => true | _ => false end
  | n :: groups' =>
      let digits := take n s in
      (List.length digits =? n)%nat && forallb is_hex digits
      && match groups' with
         | [] => hex_groups groups' (drop n s)
         | _ => match drop n s with
                | c :: s' => Ascii.eqb c "-"%char && hex_groups groups' s'
                | [] => false
                end
         end
  end.

Definition canonical_uuid (s : string) : bool :=
  hex_groups [8; 4; 4; 4; 12]%nat (list_ascii_of_string s).

Definition parse_canonical (s : string) : option string :=
  if canonical_uuid s then Some s else None.

Definition concrete_platform : Platform := {|
  uuid_Parse := parse_canonical;
  uuid_in := parse_canonical;
  unicode_ToLower := id;
|}.

Lemma is_hex_graphic c : is_hex c = true → is_graphic c = true.
Proof.
  unfold is_hex, is_graphic, in_range.
  destruct (_ && _) eqn:E1; cbn; intros H; bool_facts; apply andb_true_iff;
    split; apply Z.leb_le; lia.
Qed.

Lemma forallb_take_drop {A} (p : A → bool) n l :
  forallb p (take n l) = true → forallb p (drop n l) = true → forallb p l = true.
Proof. intros. rewrite <-(take_drop n l), forallb_app. by apply andb_true_iff. Qed.

Lemma hex_groups_graphic groups s :
  hex_groups groups s = true → forallb is_graphic s = true.
Proof.
  revert s. induction groups as [|n groups IH]; intros s; cbn.
  - by destruct s.
  - intros H. bool_facts. apply (forallb_take_drop _ n).
    + match goal with Hd : forallb is_hex _ = true |- _ => revert Hd end.
      rewrite !forallb_forall. eauto using is_hex_graphic.
    + destruct groups; [by apply IH|]. destruct (drop n s) as [|c s']; [done|].
      bool_facts. match goal with Hc : Ascii.eqb _ _ = true |- _ =>
        apply Ascii.eqb_eq in Hc as -> end.
      apply andb_true_iff. split; [done|]. by apply IH.
Qed.

Lemma concrete_platform_laws : @PlatformLaws concrete_platform.
Proof.
  split; [| |done]; cbn; unfold parse_canonical; intros s u;
    destruct (canonical_uuid s) eqn:E; intros [= <-].
  - apply TrimSpace_graphic. by eapply hex_groups_graphic.
  - by rewrite E.
Qed.

(** The [n]th identifier, [n] below ten. *)
Definition uuid (n : nat) : string :=
  String.append "00000000-0000-4000-8000-00000000000"
    (String (ascii_of_nat (48 + n)) EmptyString).
Definition uuid2 (m n : nat) : string :=
  String.append "00000000-0000-4000-8000-0000000000"
    (String (ascii_of_nat (48 + m)) (String (ascii_of_nat (48 + n)) EmptyString)).

(** Serialized bytes: a payload or an envelope. *)
Inductive concrete_wire :=
| PayloadBytes (m : TenantMessage)
| EnvelopeBytes (e : EventEnvelope concrete_wire).

Definition concrete_proto : Proto := {|
  wire := concrete_wire;
  marshal_envelope e := Some (EnvelopeBytes e);
  unmarshal_envelope w := match w with EnvelopeBytes e => Some e | _ => None end;
  timestamp_valid _ := true;
|}.

Lemma concrete_proto_laws : @ProtoLaws concrete_proto.
Proof. intros e w [= <-]. done. Qed.

Definition concrete_tenant_proto : @TenantProto concrete_proto :=
  λ m, Some (PayloadBytes m).
