(* ===== verification/TenantScenario.v ===== *)
(** * Tenant service: a concrete history

    A tenant created by its owner, activated, given a second owner, and a second
    tenant archived while its onboarding is pending, on the concrete foreign
    code. The examples of [TenantProperties] run on it. *)

From S2P Require Import Prelude GoStrings Postgres Usecase Outbox TenantDomain.
From S2P Require Import TenantStore.
From S2P Require Import TenantRepository TenantService TenantInvariants Concrete.
From stdpp Require Import strings gmap list.
From Stdlib Require Import String Ascii Lia.
Open Scope string_scope.
Open Scope list_scope.
Open Scope Z_scope.

#[local] Existing Instance concrete_platform.
#[local] Existing Instance concrete_proto.
#[local] Existing Instance concrete_tenant_proto.

Definition scenario_config : Config := {|
  config_EventTopic := "gereh.tenant.events.v1"; config_DefaultRegion := "eu-central-1";
  config_DefaultRetentionDays := 30; config_AllowedRegions := ["eu-central-1"];
  config_WorkflowServicePrincipalID := uuid 9 |}.

Definition scenario_new : result error Service := New scenario_config.
Definition scenario_service : Service :=
  get_ok scenario_new ltac:(vm_compute; reflexivity).

Definition scenario_ctx : Ctx :=
  {| ctx_RequestID := "request-1"; ctx_CorrelationID := "correlation-1";
     ctx_TraceID := "" |}.

(** A world without failures; identifiers are drawn from the block [m]. *)
Definition scenario_world (m : nat) : world tables := {|
  world_env n := {| env_clock := 1000 + Z.of_nat m; env_budget := None |};
  world_interfere _ db := db;
  world_ids n := Some (uuid2 m n);
  world_now _ := 1000 + Z.of_nat m |}.

Definition scenario_env : env := {| env_clock := 1000; env_budget := None |}.

Definition owner1 : string := uuid 1.
Definition owner2 : string := uuid 2.
Definition tenant1 : string := uuid2 1 0.
Definition operation1 : string := uuid2 1 1.

Definition create_input (slug request : string) : CreateTenantInput := {|
  create_ActorUserID := owner1; create_RequestID := request; create_Slug := slug;
  create_DisplayName := "Acme"; create_Region := ""; create_RetentionDays := 0 |}.

Definition after (mu : mutation) (db : tables) : tables :=
  (run_mutation scenario_ctx mu db scenario_env).2.

Definition mu_create_params : result error CreateTenantParams :=
  CreateTenant_params scenario_service scenario_ctx (create_input "acme" "create-1")
    (scenario_world 1).
Lemma mu_create_ok : is_ok mu_create_params = true.
Proof. vm_compute. reflexivity. Qed.
Definition mu_create : mutation :=
  MutateCreate (get_ok mu_create_params mu_create_ok).
Definition db_created : tables := after mu_create no_tables.

Definition mu_running_params : result error MarkOnboardingRunningParams :=
  MarkOnboardingRunning_params scenario_service scenario_ctx tenant1 operation1
    "workflow" "run" (scenario_world 2).
Lemma mu_running_ok : is_ok mu_running_params = true.
Proof. vm_compute. reflexivity. Qed.
Definition mu_running : mutation :=
  MutateRunning (get_ok mu_running_params mu_running_ok).
Definition db_running : tables := after mu_running db_created.

Definition mu_complete_params : result error CompleteOnboardingParams :=
  CompleteOnboarding_params scenario_service scenario_ctx tenant1 operation1
    (scenario_world 3).
Lemma mu_complete_ok : is_ok mu_complete_params = true.
Proof. vm_compute. reflexivity. Qed.
Definition mu_complete : mutation :=
  MutateComplete (get_ok mu_complete_params mu_complete_ok).
Definition db_active : tables := after mu_complete db_running.

(** What the service reads before a change. *)
Definition read_context (db : tables) (user : string) : result error TenantContext :=
  (run (TenantRepository.GetTenantContext scenario_ctx tenant1 user) db scenario_env).1.
Definition read_member (db : tables) (user : string) : result error Membership :=
  (run (TenantRepository.GetMembership scenario_ctx tenant1 user) db scenario_env).1.

Definition mu_add_params : result error AddMemberParams :=
  current ← read_context db_active owner1;
  AddMember_params scenario_service scenario_ctx
    {| member_ActorUserID := owner1; member_TenantID := tenant1;
       member_UserID := owner2; member_Role := RoleOwner |}
    current (scenario_world 4).
Lemma mu_add_ok : is_ok mu_add_params = true.
Proof. vm_compute. reflexivity. Qed.
Definition mu_add : mutation :=
  MutateAddMember (get_ok mu_add_params mu_add_ok).
Definition db_two_owners : tables := after mu_add db_active.

(** Another change computed from the same read as [mu_add]. *)
Definition mu_update_params : result error UpdateTenantParams :=
  current ← read_context db_active owner1;
  UpdateTenant_params scenario_service scenario_ctx
    {| update_ActorUserID := owner1; update_TenantID := tenant1;
       update_ExpectedVersion := 2; update_DisplayName := Some "Acme Ltd";
       update_Region := None; update_RetentionDays := None |}
    current (scenario_world 5).
Lemma mu_update_ok : is_ok mu_update_params = true.
Proof. vm_compute. reflexivity. Qed.
Definition mu_update : mutation :=
  MutateUpdate (get_ok mu_update_params mu_update_ok).

(** The owner steps down after appointing the second one. *)
Definition mu_demote_params : result error UpdateMemberRoleParams :=
  current ← read_context db_two_owners owner1;
  target ← read_member db_two_owners owner1;
  UpdateMemberRole_params scenario_service scenario_ctx
    {| role_ActorUserID := owner1; role_TenantID := tenant1; role_UserID := owner1;
       role_Role := RoleAdmin; role_ExpectedMembershipVersion := 1 |}
    current target (scenario_world 6).
Lemma mu_demote_ok : is_ok mu_demote_params = true.
Proof. vm_compute. reflexivity. Qed.
Definition mu_demote : mutation :=
  MutateMemberRole (get_ok mu_demote_params mu_demote_ok).
Definition db_demoted : tables := after mu_demote db_two_owners.

(** The former owner, now an administrator, adds a member. *)
Definition mu_admin_add_params : result error AddMemberParams :=
  current ← read_context db_demoted owner1;
  AddMember_params scenario_service scenario_ctx
    {| member_ActorUserID := owner1; member_TenantID := tenant1;
       member_UserID := uuid 3; member_Role := RoleMember |}
    current (scenario_world 0).
Lemma mu_admin_add_ok : is_ok mu_admin_add_params = true.
Proof. vm_compute. reflexivity. Qed.
Definition mu_admin_add : mutation :=
  MutateAddMember (get_ok mu_admin_add_params mu_admin_add_ok).

(** The tenant is archived while its onboarding is pending; then it fails. *)
Definition mu_archive_params : result error (option ArchiveTenantParams) :=
  current ← read_context db_created owner1;
  ArchiveTenant_params scenario_service scenario_ctx owner1 tenant1 1 current
    (scenario_world 7).
Definition mu_archive_param : result error ArchiveTenantParams :=
  params ← mu_archive_params; from_option_err ErrInternal params.
Lemma mu_archive_ok : is_ok mu_archive_param = true.
Proof. vm_compute. reflexivity. Qed.
Definition mu_archive : mutation :=
  MutateArchive (get_ok mu_archive_param mu_archive_ok).
Definition db_archived : tables := after mu_archive db_created.

Definition mu_fail_params : result error FailOnboardingParams :=
  FailOnboarding_params scenario_service scenario_ctx tenant1 operation1
    {| opError_Code := "provisioning"; opError_Message := "timeout";
       opError_Retryable := true; opError_Details := Some ∅ |} (scenario_world 8).
Lemma mu_fail_ok : is_ok mu_fail_params = true.
Proof. vm_compute. reflexivity. Qed.
Definition mu_fail : mutation :=
  MutateFail (get_ok mu_fail_params mu_fail_ok).
Definition db_failed_late : tables := after mu_fail db_archived.

Example scenario_ok :
  (λ x, (run_mutation scenario_ctx x.1 x.2 scenario_env).1) <$>
    [(mu_create, no_tables); (mu_running, db_created); (mu_complete, db_running);
     (mu_add, db_active); (mu_update, db_active); (mu_demote, db_two_owners);
     (mu_admin_add, db_demoted); (mu_archive, db_created); (mu_fail, db_archived)]
  = replicate 9 (Ok tt).
Proof. vm_compute. reflexivity. Qed.

(** Every state of the history is reachable. *)
Lemma reachable_after mu db :
  reachable scenario_service db → built scenario_service mu →
  reachable scenario_service (after mu db).
Proof.
  intros Hdb Hmu. eapply reachable_step; [exact Hdb|].
  eapply (step_mutation _ _ scenario_ctx mu scenario_env); [exact Hmu|].
  unfold after. apply surjective_pairing.
Qed.

#[local] Strategy expand [mu_create_params mu_running_params mu_complete_params
  mu_add_params mu_update_params mu_demote_params mu_archive_params mu_archive_param
  mu_fail_params mu_create mu_running mu_complete mu_add mu_update mu_demote mu_archive
  mu_fail].

Lemma after_Ok mu db :
  (run_mutation scenario_ctx mu db scenario_env).1 = Ok tt →
  run_mutation scenario_ctx mu db scenario_env = (Ok tt, after mu db).
Proof. unfold after. destruct (run_mutation _ _ _ _) as [r db']. cbn. by intros ->. Qed.

Lemma mu_create_built : built scenario_service mu_create.
Proof.
  apply (get_ok_ind (λ p, built scenario_service (MutateCreate p))).
  unfold mu_create_params. intros p Hp.
  by eapply built_create.
Qed.
Lemma mu_running_built : built scenario_service mu_running.
Proof.
  apply (get_ok_ind (λ p, built scenario_service (MutateRunning p))).
  unfold mu_running_params. intros p Hp.
  by eapply built_running.
Qed.
Lemma mu_complete_built : built scenario_service mu_complete.
Proof.
  apply (get_ok_ind (λ p, built scenario_service (MutateComplete p))).
  unfold mu_complete_params. intros p Hp.
  by eapply built_complete.
Qed.
Lemma mu_add_built : built scenario_service mu_add.
Proof.
  apply (get_ok_ind (λ p, built scenario_service (MutateAddMember p))).
  unfold mu_add_params. intros p Hp.
  apply result_bind_Ok in Hp as (current & _ & Hp).
  by eapply built_add.
Qed.
Lemma mu_update_built : built scenario_service mu_update.
Proof.
  apply (get_ok_ind (λ p, built scenario_service (MutateUpdate p))).
  unfold mu_update_params. intros p Hp.
  apply result_bind_Ok in Hp as (current & _ & Hp).
  by eapply built_update.
Qed.
Lemma mu_demote_built : built scenario_service mu_demote.
Proof.
  apply (get_ok_ind (λ p, built scenario_service (MutateMemberRole p))).
  unfold mu_demote_params. intros p Hp.
  apply result_bind_Ok in Hp as (current & _ & Hp).
  apply result_bind_Ok in Hp as (target & _ & Hp).
  by eapply built_role.
Qed.
Lemma mu_archive_built : built scenario_service mu_archive.
Proof.
  apply (get_ok_ind (λ p, built scenario_service (MutateArchive p))).
  unfold mu_archive_param. intros p Hp.
  unfold mu_archive_params in Hp.
  apply result_bind_Ok in Hp as (o & Hp & Ho%from_option_err_Ok). subst o.
  apply result_bind_Ok in Hp as (current & _ & Hp).
  by eapply built_archive.
Qed.
Lemma mu_fail_built : built scenario_service mu_fail.
Proof.
  apply (get_ok_ind (λ p, built scenario_service (MutateFail p))).
  unfold mu_fail_params. intros p Hp.
  by eapply built_fail.
Qed.

Lemma db_created_reachable : reachable scenario_service db_created.
Proof. apply reachable_after; [apply reachable_start|apply mu_create_built]. Qed.
Lemma db_running_reachable : reachable scenario_service db_running.
Proof. apply reachable_after; [apply db_created_reachable|apply mu_running_built]. Qed.
Lemma db_active_reachable : reachable scenario_service db_active.
Proof. apply reachable_after; [apply db_running_reachable|apply mu_complete_built]. Qed.
Lemma db_two_owners_reachable : reachable scenario_service db_two_owners.
Proof. apply reachable_after; [apply db_active_reachable|apply mu_add_built]. Qed.
Lemma db_demoted_reachable : reachable scenario_service db_demoted.
Proof. apply reachable_after; [apply db_two_owners_reachable|apply mu_demote_built]. Qed.
Lemma db_archived_reachable : reachable scenario_service db_archived.
Proof. apply reachable_after; [apply db_created_reachable|apply mu_archive_built]. Qed.
Lemma db_failed_late_reachable : reachable scenario_service db_failed_late.
Proof. apply reachable_after; [apply db_archived_reachable|apply mu_fail_built]. Qed.
