(* ===== verification/TenantProperties.v ===== *)
(** * Tenant service: properties

    What the repository and the service promise in every reachable state. *)

From S2P Require Import Prelude GoStrings Postgres Usecase Outbox OutboxProperties.
From S2P Require Import TenantDomain.
From S2P Require Import TenantStore TenantRepository TenantService TenantEffects.
From S2P Require Import TenantMutations TenantInvariants Concrete TenantScenario.
From stdpp Require Import strings gmap list sorting.
From Stdlib Require Import String Lia.
Open Scope string_scope.
Open Scope list_scope.
Open Scope Z_scope.

Section Guards.
Context `{PlatformLaws, ProtoLaws} `{!TenantProto}.

(** The version of the tenant a mutation expects, and who asks for it. *)
Definition expected_version (mu : mutation) : option Z :=
  match mu with
  | MutateUpdate params => Some (updateParams_ExpectedVersion params)
  | MutateArchive params => Some (archiveParams_ExpectedVersion params)
  | MutateAddMember params => Some (addParams_ExpectedTenantVersion params)
  | MutateMemberRole params => Some (roleParams_ExpectedTenantVersion params)
  | MutateRemoveMember params => Some (removeParams_ExpectedTenantVersion params)
  | _ => None
  end.

Definition mutation_actor (mu : mutation) : string :=
  match mu with
  | MutateCreate params => tenant_CreatedByUserID (context_Tenant (createParams_Context params))
  | MutateUpdate params => updateParams_ActorUserID params
  | MutateArchive params => archiveParams_ActorUserID params
  | MutateAddMember params => addParams_ActorUserID params
  | MutateMemberRole params => roleParams_ActorUserID params
  | MutateRemoveMember params => removeParams_ActorUserID params
  | MutateRunning params => runningParams_ServicePrincipalID params
  | MutateComplete params => completeParams_ServicePrincipalID params
  | MutateFail params => failParams_ServicePrincipalID params
  end.

(** The permission a user's mutation needs. *)
Definition required_permission (mu : mutation) : option Permission :=
  match mu with
  | MutateUpdate _ => Some PermissionTenantUpdate
  | MutateArchive _ => Some PermissionTenantArchive
  | MutateAddMember _ => Some PermissionMemberAdd
  | MutateMemberRole _ => Some PermissionMemberUpdateRole
  | MutateRemoveMember _ => Some PermissionMemberRemove
  | _ => None
  end.

Lemma CanManageMember_allows actor target newRole p :
  CanManageMember actor target newRole = true →
  RoleAllows RoleAdmin p = true → RoleAllows RoleOwner p = true → RoleAllows actor p = true.
Proof.
  unfold CanManageMember.
  destruct (String.eqb_spec actor RoleOwner) as [->|]; [done|].
  by destruct (String.eqb_spec actor RoleAdmin) as [->|].
Qed.

(** What a successful user mutation found under its locks. *)
Lemma guarded_mutation ctx mu db ev ret db' v p :
  run_mutation ctx mu db ev = (Ok ret, db') →
  expected_version mu = Some v → required_permission mu = Some p →
  ∃ t actor row m, uuid_in (mutation_tenant mu) = Some t ∧
    uuid_in (mutation_actor mu) = Some actor ∧
    tenants db !! t = Some row ∧ memberships db !! (t, actor) = Some m ∧
    tenant_Version (row_Tenant row) = v ∧ RoleAllows (membership_Role m) p = true.
Proof.
  intros Hr Hv Hp. destruct mu; cbn in Hv, Hp; simplify_eq;
    cbn [run_mutation mutation_tenant mutation_actor] in *; apply forget_Ok in Hr as [r Hr];
    [unfold TenantRepository.UpdateTenant in Hr|unfold TenantRepository.ArchiveTenant in Hr
    |unfold TenantRepository.AddMember in Hr
    |unfold TenantRepository.UpdateMemberRole in Hr
    |unfold TenantRepository.RemoveMember in Hr];
    effect_start Hr; actor_context; do 4 eexists; cbn in *; split_and!; try done;
    eapply CanManageMember_allows; done.
Qed.

(** The version it writes. *)
Definition new_version (mu : mutation) : option Z :=
  match mu with
  | MutateUpdate params => Some (tenant_Version (updateParams_Tenant params))
  | MutateArchive params => Some (tenant_Version (archiveParams_Tenant params))
  | MutateAddMember params => Some (addParams_NewTenantVersion params)
  | MutateMemberRole params => Some (roleParams_NewTenantVersion params)
  | MutateRemoveMember params => Some (removeParams_NewTenantVersion params)
  | _ => None
  end.

Lemma built_new_version service mu v :
  built service mu → expected_version mu = Some v → new_version mu = Some (int64_incr v).
Proof.
  intros [? ? ? ? Hp|? ? ? ? ? Hp|? ? ? ? ? ? ? Hp|? ? ? ? ? Hp|? ? ? ? ? ? Hp
    |? ? ? ? ? ? Hp|? ? ? ? ? ? ? Hp|? ? ? ? ? Hp|? ? ? ? ? ? Hp] [= <-]; cbn.
  - unfold UpdateTenant_params in Hp. result_inv Hp. injection Hp as <-. bool_facts.
    cbn. congruence.
  - unfold ArchiveTenant_params in Hp. result_inv Hp.
    destruct (String.eqb _ _); [done|]. result_inv Hp. injection Hp as <-. bool_facts.
    cbn. congruence.
  - unfold AddMember_params in Hp. result_inv Hp. by injection Hp as <-.
  - unfold UpdateMemberRole_params in Hp. result_inv Hp. by injection Hp as <-.
  - unfold RemoveMember_params in Hp. result_inv Hp. by injection Hp as <-.
Qed.

(** The row update [H] left a row of version [new] under the tenant's key. *)
Lemma update_tenant_version tenantID guard f sc db n db' new :
  (r ← rls_of sc; t ← cast tenantID; update_tenant r t guard f db) = Ok (n, db') →
  n = 1 ∨ (∃ t row, uuid_in tenantID = Some t ∧ scoped_to sc t ∧
             tenants db !! t = Some row ∧ guard (row_Tenant row) = true) →
  (∀ old x, f old = Ok x → tenant_Version x = new) →
  ∃ t row, uuid_in tenantID = Some t ∧ tenants db' !! t = Some row ∧
    tenant_Version (row_Tenant row) = new.
Proof.
  intros (t & Ht & [(-> & _ & row & x & Hrow & _ & Hf & _ & ->)
                   |(-> & -> & Hno)])%update_tenant_Ok Hhit Hnew.
  - exists t. eexists. split; [done|]. cbn. rewrite lookup_insert_eq.
    split; [done|]. by eapply Hnew.
  - destruct Hhit as [|(t' & row & Ht' & Hsc & Hrow & Hg)]; [done|]. simplify_eq.
    rewrite (Hno Hsc _ Hrow) in Hg. done.
Qed.

Lemma written_version ctx mu db ev ret db' v new :
  run_mutation ctx mu db ev = (Ok ret, db') →
  expected_version mu = Some v → new_version mu = Some new →
  ∃ t row, uuid_in (mutation_tenant mu) = Some t ∧
    tenants db' !! t = Some row ∧ tenant_Version (row_Tenant row) = new.
Proof.
  intros Hr Hv Hn. destruct mu; cbn in Hv, Hn; simplify_eq;
    cbn [run_mutation mutation_tenant mutation_actor] in *; apply forget_Ok in Hr as [r Hr];
    [unfold TenantRepository.UpdateTenant in Hr|unfold TenantRepository.ArchiveTenant in Hr
    |unfold TenantRepository.AddMember in Hr|unfold TenantRepository.UpdateMemberRole in Hr
    |unfold TenantRepository.RemoveMember in Hr];
    effect_start Hr; actor_context; specialize (Hscope eq_refl); cbn in *; simplify_eq.
  - select (sql_update_tenant _ _ _ _ = _) (fun H => eapply update_tenant_version in H;
      [exact H|by left|by intros ? ? [= <-]]).
  - select (sql_archive_tenant _ _ _ _ = _) (fun H => eapply update_tenant_version in H;
      [exact H|right; exists t, row; split_and!; [done..|by apply Z.eqb_eq]
      |by intros ? ? [= <-]]).
  - select (sql_increment_tenant_version _ _ _ _ _ _ = _) (fun H =>
      eapply update_tenant_version in H; [exact H|right; exists t, row|by intros ? ? [= <-]]).
    select (sql_insert_membership _ _ _ = _) (fun H => apply sql_insert_membership_Ok in H
      as (? & ? & ? & ? & ? & ? & ? & ? & ? & ? & ? & ? & ->)).
    split_and!; [done..|by apply Z.eqb_eq].
  - select (sql_increment_tenant_version _ _ _ _ _ _ = _) (fun H =>
      eapply update_tenant_version in H; [exact H|right; exists t, row|by intros ? ? [= <-]]).
    select (sql_update_role _ _ _ _ _ _ _ _ = _) (fun H => eapply sql_update_role_Ok in H
      as (? & ? & ? & ? & ? & ? & ? & ? & ? & ? & ? & ? & ? & ->); [|done]).
    split_and!; [done..|by apply Z.eqb_eq].
  - select (sql_increment_tenant_version _ _ _ _ _ _ = _) (fun H =>
      eapply update_tenant_version in H; [exact H|right; exists t, row|by intros ? ? [= <-]]).
    select (sql_delete_membership _ _ _ _ _ = _) (fun H => eapply sql_delete_membership_Ok in H
      as (? & ? & ? & ? & ? & ? & ->); [|done]).
    split_and!; [done..|by apply Z.eqb_eq].
Qed.

(** Who owns a tenant. *)
Definition owns (db : tables) (t u : string) : Prop :=
  ∃ m, memberships db !! (t, u) = Some m ∧ membership_Role m = RoleOwner.

Lemma owns_insert db ms t u m :
  membership_Role m ≠ RoleOwner →
  (∀ m0, memberships db !! (t, u) = Some m0 → membership_Role m0 ≠ RoleOwner) →
  ms = <[(t, u) := m]> (memberships db) →
  ∀ t' u', owns (set_memberships ms db) t' u' ↔ owns db t' u'.
Proof.
  unfold owns. cbn. intros Hm Hold -> t' u'.
  destruct (decide ((t, u) = (t', u'))) as [[= <- <-]|Hne].
  - setoid_rewrite lookup_insert_eq. naive_solver.
  - by setoid_rewrite lookup_insert_ne.
Qed.

Lemma CanManageMember_not_owner actor target newRole :
  CanManageMember actor target newRole = true → actor ≠ RoleOwner →
  target ≠ RoleOwner ∧ newRole ≠ RoleOwner.
Proof.
  unfold CanManageMember. destruct (String.eqb_spec actor RoleOwner); [done|].
  destruct (String.eqb actor RoleAdmin); [|done]. intros Hm _. by bool_facts.
Qed.

(** The tables of a version write differ in [tenants] only. *)
Lemma update_tenant_memberships tenantID guard f sc db n db' :
  (r ← rls_of sc; t ← cast tenantID; update_tenant r t guard f db) = Ok (n, db') →
  memberships db' = memberships db.
Proof. by intros (t & Ht & [(_ & _ & ? & ? & _ & _ & _ & _ & ->)|(_ & -> & _)])%update_tenant_Ok. Qed.

Lemma non_owner_keeps_owners ctx mu db ev ret db' v tid actor am :
  run_mutation ctx mu db ev = (Ok ret, db') → expected_version mu = Some v →
  uuid_in (mutation_tenant mu) = Some tid → uuid_in (mutation_actor mu) = Some actor →
  memberships db !! (tid, actor) = Some am → membership_Role am ≠ RoleOwner →
  ∀ t' u', owns db' t' u' ↔ owns db t' u'.
Proof.
  intros Hr Hv Ht0 Hu0 Hm0 Hrole. destruct mu; cbn in Hv; simplify_eq;
    cbn [run_mutation mutation_tenant mutation_actor] in *; apply forget_Ok in Hr as [r Hr];
    [unfold TenantRepository.UpdateTenant in Hr|unfold TenantRepository.ArchiveTenant in Hr
    |unfold TenantRepository.AddMember in Hr|unfold TenantRepository.UpdateMemberRole in Hr
    |unfold TenantRepository.RemoveMember in Hr];
    effect_start Hr; actor_context; unfold owns; cbn in *; simplify_eq;
    repeat select (CanManageMember _ _ _ = true) (fun H =>
      apply CanManageMember_not_owner in H as [? ?]; [|done]).
  - select (sql_update_tenant _ _ _ _ = _) (fun H => apply update_tenant_memberships in H as ->).
    done.
  - select (sql_archive_tenant _ _ _ _ = _) (fun H => apply update_tenant_memberships in H as ->).
    done.
  - select (sql_increment_tenant_version _ _ _ _ _ _ = _) (fun H =>
      apply update_tenant_memberships in H as ->).
    select (sql_insert_membership _ _ _ = _) (fun H => apply sql_insert_membership_Ok in H
      as (? & ? & ? & ? & ? & Hfresh & ? & ? & ? & HmR & ? & ? & ->)).
    eapply (owns_insert db); [| |reflexivity]; [congruence|].
    rewrite Hfresh. naive_solver.
  - select (sql_increment_tenant_version _ _ _ _ _ _ = _) (fun H =>
      apply update_tenant_memberships in H as ->).
    select (sql_membership _ _ true _ _ = _) (fun H => apply sql_membership_Ok in H
      as (? & ? & ? & ? & Htarget)).
    select (sql_update_role _ _ _ _ _ _ _ _ = _) (fun H => eapply sql_update_role_Ok in H
      as (? & ? & ? & ? & ? & ? & ? & ? & ? & ? & HmR & ? & ? & ->); [|done]).
    simplify_eq. eapply (owns_insert db); [| |reflexivity]; [congruence|].
    naive_solver.
  - select (sql_increment_tenant_version _ _ _ _ _ _ = _) (fun H =>
      apply update_tenant_memberships in H as ->).
    select (sql_membership _ _ true _ _ = _) (fun H => apply sql_membership_Ok in H
      as (t1 & u1 & ? & ? & Htarget)).
    select (sql_delete_membership _ _ _ _ _ = _) (fun H => eapply sql_delete_membership_Ok in H
      as (? & ? & ? & ? & ? & Hdel & ->); [|done]).
    simplify_eq. cbn. intros t' u'. setoid_rewrite lookup_delete_Some.
    split; [naive_solver|]. intros (m' & Hm' & Hown). exists m'. split_and!; [|done..].
    intros [= <- <-]. congruence.
Qed.

(** A principal scope sees the tenants its user created. *)
Lemma principal_scope_creator actor p q sc u db t :
  rls_of (PrincipalScope actor p q) = Ok sc → uuid_in actor = Some u →
  tenant_CreatedByUserID t = u → visible_tenant sc db t = true.
Proof.
  unfold rls_of. intros Hr Hu <-. result_inv Hr. injection Hr as <-.
  cbn in E0. rewrite (uuid_in_trimmed _ _ Hu) in E0. unfold rls_setting in E0.
  destruct (String.eqb_spec actor "") as [->|]; [by rewrite uuid_in_empty in Hu|].
  rewrite Hu in E0. cbn in E0. injection E0 as <-.
  unfold visible_tenant. cbn. by rewrite String.eqb_refl.
Qed.

Lemma find_exists {A} (f : A → bool) l x :
  x ∈ l → f x = true → ∃ y, List.find f l = Some y ∧ y ∈ l ∧ f y = true.
Proof.
  intros Hin Hf. destruct (List.find f l) as [y|] eqn:Hy.
  - exists y. apply find_some in Hy as [Hl Hfy]. by rewrite list_elem_of_In.
  - apply list_elem_of_In in Hin. pose proof (find_none _ _ Hy x Hin). congruence.
Qed.

(** The idempotency lookup finds the tenant of an earlier request. *)
Lemma sql_existing_tenant_found actor p q requestID db existing t row :
  consistent db → tenants db !! t = Some row →
  uuid_in actor = Some (tenant_CreatedByUserID (row_Tenant row)) →
  row_CreationRequestID row = requestID →
  sql_existing_tenant actor requestID (PrincipalScope actor p q) db = Ok existing →
  existing = Some t.
Proof.
  unfold sql_existing_tenant, cast. intros Hc Hrow Hu Hreq He. result_inv He.
  simplify_eq. destruct (find_exists (λ row',
      String.eqb (tenant_CreatedByUserID (row_Tenant row'))
        (tenant_CreatedByUserID (row_Tenant row))
      && String.eqb (row_CreationRequestID row') (row_CreationRequestID row)
      && visible_tenant v db (row_Tenant row')) (snd <$> map_to_list (tenants db)) row)
    as (row' & Hf & Hin & Hp).
  - apply list_elem_of_fmap. exists (t, row). by rewrite elem_of_map_to_list.
  - rewrite !String.eqb_refl. by eapply principal_scope_creator.
  - rewrite Hf. cbn. f_equal.
    apply list_elem_of_fmap in Hin as ([t' x] & -> & Hx%elem_of_map_to_list).
    cbn in *. bool_facts. destruct (consistent_tenant _ Hc _ _ Hx) as [-> _].
    by eapply consistent_one_request.
Qed.

(** An effect on [t] leaves the rows of every other tenant alone. *)
Record same_tenant (t : string) (db db' : tables) : Prop := {
  same_tenant_row : tenants db' !! t = tenants db !! t;
  same_tenant_members : ∀ u, memberships db' !! (t, u) = memberships db !! (t, u);
  same_tenant_entitlements : entitlements db' !! t = entitlements db !! t;
  same_tenant_operations : ∀ id o, operation_TenantID o = t →
    operations db' !! id = Some o ↔ operations db !! id = Some o;
  same_tenant_events : ∀ k row, outbox_TenantID row = t →
    outbox_rows (outbox db') !! k = Some row ↔ outbox_rows (outbox db) !! k = Some row;
}.

Lemma operation_insert_other (ops : gmap string Operation) id id' (o o' x : Operation) :
  operation_TenantID o' ≠ operation_TenantID x →
  (∀ y, ops !! id = Some y → operation_TenantID y ≠ operation_TenantID x) →
  <[id := o']> ops !! id' = Some x ↔ ops !! id' = Some x.
Proof.
  intros Hne Hold. destruct (decide (id = id')) as [<-|].
  - rewrite lookup_insert_eq. split; [congruence|]. intros Hx. by destruct (Hold _ Hx).
  - by rewrite lookup_insert_ne.
Qed.

Lemma effect_isolated t t' db db' :
  covered db → effect t db db' → t' ≠ t → same_tenant t' db db'.
Proof.
  intros Hcov Heff Hne.
  assert (Hev : ∀ aty v ob, emitted t aty v (outbox db) ob → ∀ k row,
    outbox_TenantID row = t' →
    outbox_rows ob !! k = Some row ↔ outbox_rows (outbox db) !! k = Some row).
  { intros aty v ob (r & env & -> & HT & _) k row Hrow. cbn.
    destruct (decide (outbox_next (outbox db) = k)) as [<-|].
    - rewrite lookup_insert_eq. split; [congruence|]. intros Hk. exfalso.
      cut (outbox_next (outbox db) < outbox_next (outbox db)); [lia|].
      apply (covered_fresh _ Hcov). by exists row.
    - by rewrite lookup_insert_ne. }
  assert (Hops : ∀ id o o' id' x, operations db !! id = Some o → operation_TenantID o = t →
    operation_TenantID o' = operation_TenantID o → operation_TenantID x = t' →
    <[id := o']> (operations db) !! id' = Some x ↔ operations db !! id' = Some x).
  { intros id o o' id' x Ho HoT Ho' Hx.
    apply (operation_insert_other _ _ _ o); [congruence|]. intros y Hy. congruence. }
  destruct Heff; split; cbn; try done; intros;
    rewrite ?lookup_insert_ne by congruence; try done; try by eapply Hev.
  - apply (operation_insert_other _ _ _ o); congruence.
  - by eapply mchange_other.
  - eapply Hops; [done|done|by destruct select (advanced _ _ _) as (_ & ? & _)|done].
  - eapply Hops; [done|done|by destruct select (advanced _ _ _) as (_ & ? & _)|done].
  - eapply Hops; [done|done|by destruct select (advanced _ _ _) as (_ & ? & _)|done].
  - eapply Hops; [done|done|by destruct select (advanced _ _ _) as (_ & ? & _)|done].
Qed.

End Guards.

(** ** Properties of every reachable state *)

Section Reachable.
Context `{PlatformLaws, ProtoLaws} `{!TenantProto}.

(** C1 (the last owner). In every state the service and its relay can reach,
    through any interleaving of successful and failing calls computed from stale
    reads, each tenant has a membership with the role of owner. *)
Theorem tenant_keeps_an_owner service db t row :
  reachable service db → tenants db !! t = Some row →
  ∃ u, owns db t u.
Proof.
  intros Hdb%invariant_reachable Hrow.
  destruct (invariant_owner _ Hdb _ _ Hrow) as (u & m & Hm & Ho%String.eqb_eq).
  by exists u, m.
Qed.

(** C25 (onboarding). In every reachable state a tenant has exactly one onboarding
    operation and the status of the tenant agrees with the state of the operation:
    active only after it succeeded, [provisioning_failed] only after it failed,
    provisioning only while it is open, and archived with any of them. A tenant
    still provisioning is at version 1, so that the event that ends its
    onboarding, published with the literal version 2, has the next version; an
    archival time is set on archived tenants only. *)
Theorem onboarding_agrees service db t row :
  reachable service db → tenants db !! t = Some row →
  (∃ id o, operations db !! id = Some o ∧ operation_TenantID o = t ∧
     coupled (tenant_Status (row_Tenant row)) (operation_State o) ∧
     ∀ id' o', operations db !! id' = Some o' → operation_TenantID o' = t → id' = id) ∧
  (tenant_Status (row_Tenant row) = StatusProvisioning → tenant_Version (row_Tenant row) = 1) ∧
  (is_Some (tenant_ArchivedAt (row_Tenant row)) ↔
     tenant_Status (row_Tenant row) = StatusArchived).
Proof.
  intros [Hc _ Hon _]%invariant_reachable Hrow. split_and!.
  - destruct (onboarding_operation _ Hon t) as (id & o & Ho & HoT); [by exists row|].
    exists id, o. split_and!; [done..| |].
    + eapply onboarding_coupled; [done..|congruence].
    + intros id' o' Ho' HoT'. eapply consistent_one_operation; [done..|congruence].
  - by eapply onboarding_tenant_version.
  - destruct (consistent_tenant _ Hc _ _ Hrow) as (_ & Hchk & _).
    unfold tenant_checks in Hchk. rewrite !andb_true_iff in Hchk.
    destruct Hchk as [_ Hchk]. destruct (tenant_ArchivedAt _); bool_facts.
    + split; eauto.
    + split; [by intros []|done].
Qed.

(** C2 (the event stream has no gaps). In every reachable state, for every
    version a tenant has gone through there is an outbox row of that tenant whose
    envelope names the tenant aggregate at that version. *)
Theorem event_stream_complete service db t row v :
  reachable service db → tenants db !! t = Some row →
  1 ≤ v ≤ tenant_Version (row_Tenant row) → recorded t v (outbox db).
Proof. intros [_ _ _ Hcov]%invariant_reachable. by apply covered_versions. Qed.

(** Atomicity. A mutating call that returns an error, for whatever reason
    and at whatever statement (a guard, a constraint, row security, a lost
    connection before or at the commit), leaves every table as it was. *)
Theorem failed_mutation_changes_nothing ctx mu db ev e db' :
  run_mutation ctx mu db ev = (Err e, db') → db' = db.
Proof. apply mutation_error. Qed.

(** Tenant isolation. A mutation for one tenant leaves the row, the
    memberships, the entitlements, the operations and the outbox rows of every
    other tenant as they were. *)
Theorem mutation_isolated service ctx mu db ev r db' t t' :
  reachable service db → built service mu → run_mutation ctx mu db ev = (r, db') →
  uuid_in (mutation_tenant mu) = Some t → t' ≠ t → same_tenant t' db db'.
Proof.
  intros [Hc _ _ Hcov]%invariant_reachable Hb Hr Ht Hne.
  destruct r as [u|e]; [|by apply mutation_error in Hr as ->; split].
  destruct (mutation_effect _ _ _ _ _ _ _ Hc Hb Hr) as [->|(t0 & Ht0 & Heff)]; [by split|].
  simplify_eq. by eapply effect_isolated.
Qed.

(** C18 (authorized under the lock). A user's mutation that succeeds found, in the
    transaction that commits it, the expected version of the tenant and a
    membership of the actor whose role grants the permission; it leaves the
    tenant at exactly the next version. *)
Theorem mutation_guarded service ctx mu db ev u db' v p :
  reachable service db → built service mu →
  run_mutation ctx mu db ev = (Ok u, db') →
  expected_version mu = Some v → required_permission mu = Some p →
  ∃ t actor row row' m, uuid_in (mutation_tenant mu) = Some t ∧
    uuid_in (mutation_actor mu) = Some actor ∧
    tenants db !! t = Some row ∧ tenant_Version (row_Tenant row) = v ∧
    memberships db !! (t, actor) = Some m ∧ RoleAllows (membership_Role m) p = true ∧
    tenants db' !! t = Some row' ∧ tenant_Version (row_Tenant row') = v + 1.
Proof.
  intros [Hc _ _ _]%invariant_reachable Hb Hr Hv Hp.
  destruct (guarded_mutation _ _ _ _ _ _ _ _ Hr Hv Hp)
    as (t & actor & row & m & Ht & Ha & Hrow & Hm & Hver & Hallow).
  destruct (written_version _ _ _ _ _ _ _ _ Hr Hv (built_new_version _ _ _ Hb Hv))
    as (t' & row' & Ht' & Hrow' & Hver'). simplify_eq.
  eexists _, actor, row, row', m. split_and!; [done..|]. rewrite Hver'.
  assert (consistent db') as Hc'.
  { destruct (mutation_effect _ _ _ _ _ _ _ Hc Hb Hr) as [->|(t0 & _ & Heff)]; [done|].
    by eapply effect_consistent. }
  destruct (consistent_tenant _ Hc' _ _ Hrow') as (_ & Hpos%tenant_checks_version & _).
  destruct (consistent_tenant _ Hc _ _ Hrow) as (_ & Hpos0%tenant_checks_version & _ & Hmax).
  rewrite Hver' in Hpos. apply int64_incr_pos; [unfold int64_min; lia|done].
Qed.

(** C6 (no lost update). Two mutations of one tenant computed from the same
    version: after the first commits, the second fails and changes nothing,
    whatever the two are. *)
Theorem no_lost_update service ctx1 ctx2 mu1 mu2 db ev1 ev2 u db1 r db2 v :
  reachable service db → built service mu1 → built service mu2 →
  uuid_in (mutation_tenant mu1) = uuid_in (mutation_tenant mu2) →
  expected_version mu1 = Some v → expected_version mu2 = Some v →
  run_mutation ctx1 mu1 db ev1 = (Ok u, db1) →
  run_mutation ctx2 mu2 db1 ev2 = (r, db2) →
  is_ok r = false ∧ db2 = db1.
Proof.
  intros Hdb Hb1 Hb2 Htt Hv1 Hv2 Hr1 Hr2.
  assert (∀ mu, expected_version mu = Some v → ∃ p, required_permission mu = Some p) as Hreq
    by (intros [] [=]; cbn; eauto).
  destruct r as [u2|e]; [exfalso|split; [done|by eapply mutation_error]].
  destruct (Hreq _ Hv2) as [p2 Hp2].
  destruct (guarded_mutation _ _ _ _ _ _ _ _ Hr2 Hv2 Hp2)
    as (t2 & _ & row2 & _ & Ht2 & _ & Hrow2 & _ & Hver2 & _).
  destruct (written_version _ _ _ _ _ _ _ _ Hr1 Hv1 (built_new_version _ _ _ Hb1 Hv1))
    as (t1 & row1 & Ht1 & Hrow1 & Hver1).
  rewrite Htt, Ht2 in Ht1. injection Ht1 as ->. simplify_eq.
  apply invariant_reachable in Hdb as [Hc _ _ _].
  revert Hver1. unfold int64_incr, int64_wrap. set (x := tenant_Version _).
  intros Hx. pose proof (Z.mod_pos_bound (x + 1 + 2 ^ 63) (2 ^ 64) eq_refl).
  assert (Hd := Z.div_mod (x + 1 + 2 ^ 63) (2 ^ 64) ltac:(done)). lia.
Qed.

(** Only owners make and unmake owners. A mutation by a member who is not an
    owner, an administrator included, leaves the set of owners of every tenant
    as it was. *)
Theorem only_owners_change_owners ctx mu db ev u db' v t actor m :
  run_mutation ctx mu db ev = (Ok u, db') → expected_version mu = Some v →
  uuid_in (mutation_tenant mu) = Some t → uuid_in (mutation_actor mu) = Some actor →
  memberships db !! (t, actor) = Some m → membership_Role m ≠ RoleOwner →
  ∀ t' u', owns db' t' u' ↔ owns db t' u'.
Proof. apply non_owner_keeps_owners. Qed.

(** Creation is idempotent. Once a tenant exists, a later [CreateTenant] of
    its creator under the same request identifier, whatever the rest of the
    request says and whatever happened to the tenant since, creates nothing: if it
    succeeds, it returns that tenant with its operation and leaves the tables as
    they were. *)
Theorem create_tenant_idempotent service ctx params db ev r db' t row :
  reachable service db → tenants db !! t = Some row →
  uuid_in (tenant_CreatedByUserID (context_Tenant (createParams_Context params)))
    = Some (tenant_CreatedByUserID (row_Tenant row)) →
  createParams_RequestID params = row_CreationRequestID row →
  run (TenantRepository.CreateTenant ctx params) db ev = (Ok r, db') →
  db' = db ∧ context_Tenant (created_Context r) = row_Tenant row ∧
  operation_TenantID (created_Operation r) = t.
Proof.
  intros [Hc _ _ _]%invariant_reachable Hrow Hu Hreq Hr.
  unfold TenantRepository.CreateTenant in Hr. effect_start Hr.
  select (sql_existing_tenant _ _ _ _ = _) (fun H =>
    eapply sql_existing_tenant_found in H; [|done..]). subst a0.
  unfold queryContext, queryOperationByTenant in Hr. tx_inv Hr. cbn. split; [done|].
  destruct (consistent_tenant _ Hc _ _ Hrow) as (HT & _ & Hcan & _).
  select (sql_context _ _ _ _ _ = _) (fun H => apply sql_context_Ok in H
    as (t' & u' & row' & m & e & Ht' & Hu' & Hrow' & Hm & He & -> & _)).
  simplify_eq. split; [done|].
  select (sql_operation_by_tenant _ _ _ = _) (fun H => rename H into Hop).
  unfold sql_operation_by_tenant in Hop. result_inv Hop.
  destruct (List.find _ _) as [o|] eqn:Hf; [|done]. injection Hop as ->.
  apply find_some in Hf as [_ Hf]. bool_facts. congruence.
Qed.

(** An operation that has an outcome stays as it is. *)
Lemma outcome_step service db db' id o :
  reachable service db → step service db db' → operations db !! id = Some o →
  operation_State o = OperationStateSucceeded ∨ operation_State o = OperationStateFailed →
  operations db' !! id = Some o.
Proof.
  intros [Hc _ _ _]%invariant_reachable Hstep Ho Hst.
  assert (Hopen : ∀ o', operation_State o' = OperationStatePending ∨
    operation_State o' = OperationStateRunning → o' ≠ o).
  { intros o' Ho' ->. by destruct Hst as [Hs|Hs]; rewrite Hs in Ho'; destruct Ho'. }
  destruct Hstep as [ctx mu ev [u|e] db' Hb Hr|c ev log b st Hp];
    [|by apply mutation_error in Hr as ->|done].
  destruct (mutation_effect _ _ _ _ _ _ _ Hc Hb Hr) as [->|(t & _ & Heff)]; [done|].
  destruct Heff; cbn; try done; rewrite lookup_insert_ne; try done; intros ->;
    simplify_eq; try (by eapply (Hopen o); eauto using open_state).
Qed.

Lemma outcome_steps service db db' id o :
  reachable service db → rtc (step service) db db' → operations db !! id = Some o →
  operation_State o = OperationStateSucceeded ∨ operation_State o = OperationStateFailed →
  reachable service db' ∧ operations db' !! id = Some o.
Proof.
  intros Hdb Hsteps. revert Hdb. induction Hsteps as [|db db1 db2 Hstep _ IH]; [done|].
  intros Hdb Ho Hst. apply IH; [by eapply reachable_step|by eapply outcome_step|done].
Qed.

(** The outcome of onboarding is final. No transition changes an operation
    that has succeeded or failed; in particular a completion that is retried, or a
    failure reported after the completion, does not. *)
Theorem onboarding_outcome_final service db db' id o :
  reachable service db → step service db db' → operations db !! id = Some o →
  operation_State o = OperationStateSucceeded ∨ operation_State o = OperationStateFailed →
  operations db' !! id = Some o.
Proof. apply outcome_step. Qed.

End Reachable.

(** Page tokens. The token the service hands out for the last identifier of a
    page, sent back with the next request, decodes to that identifier, for every
    string; the empty token is the first page. *)
Theorem page_token_roundtrip (s : string) : decodePageToken (encodePageToken s) = Ok s.
Proof.
  unfold encodePageToken, decodePageToken.
  destruct (String.eqb_spec s "") as [->|Hs]; [done|].
  rewrite TrimSpace_graphic by apply EncodeToString_graphic.
  destruct (String.eqb_spec (EncodeToString s) "") as [He|_].
  - by apply EncodeToString_nonempty in He.
  - by rewrite DecodeString_EncodeToString.
Qed.

(** ** The properties at work on the concrete history *)

#[local] Existing Instance concrete_platform.
#[local] Existing Instance concrete_platform_laws.
#[local] Existing Instance concrete_proto.
#[local] Existing Instance concrete_proto_laws.
#[local] Existing Instance concrete_tenant_proto.

(** After the first owner stepped down, the second one remains. *)
Lemma tenant_keeps_an_owner_witness : ∃ row, tenants db_demoted !! tenant1 = Some row ∧
  ∃ u, owns db_demoted tenant1 u.
Proof.
  eexists. split; [vm_compute; reflexivity|].
  eapply (tenant_keeps_an_owner scenario_service); [apply db_demoted_reachable|].
  vm_compute. reflexivity.
Defined.

Lemma onboarding_agrees_witness : ∃ row, tenants db_created !! tenant1 = Some row ∧
  tenant_Version (row_Tenant row) = 1.
Proof.
  eexists. split; [vm_compute; reflexivity|].
  eapply (onboarding_agrees scenario_service _ tenant1); [apply db_created_reachable|..];
    vm_compute; reflexivity.
Defined.

Lemma event_stream_complete_witness : recorded tenant1 2 (outbox db_two_owners).
Proof.
  eapply (event_stream_complete scenario_service); [apply db_two_owners_reachable|..].
  - vm_compute. reflexivity.
  - vm_compute. split; discriminate.
Defined.

(** The connection is lost at the last statement, the commit. *)
Lemma failed_mutation_witness :
  let ev := {| env_clock := 1000; env_budget := Some 6%nat |} in
  let result := run_mutation scenario_ctx mu_add db_active ev in
  result.1 = Err (ErrDatabase ErrConnection) ∧ result.2 = db_active.
Proof.
  intros ev result. assert (result.1 = Err (ErrDatabase ErrConnection)) as He
    by (vm_compute; reflexivity).
  split; [exact He|].
  eapply (failed_mutation_changes_nothing scenario_ctx mu_add db_active ev).
  rewrite <-He. apply surjective_pairing.
Defined.

Lemma mutation_isolated_witness : same_tenant (uuid 7) db_active db_two_owners.
Proof.
  eapply (mutation_isolated scenario_service scenario_ctx mu_add);
    [apply db_active_reachable|apply mu_add_built|apply after_Ok|..].
  - vm_compute. reflexivity.
  - vm_compute. reflexivity.
  - vm_compute. discriminate.
Defined.

Lemma mutation_guarded_witness : ∃ row', tenants db_two_owners !! tenant1 = Some row' ∧
  tenant_Version (row_Tenant row') = 3.
Proof.
  destruct (mutation_guarded scenario_service scenario_ctx mu_add db_active scenario_env
    tt db_two_owners 2 PermissionMemberAdd db_active_reachable mu_add_built)
    as (t & a & row & row' & m & Ht & _ & _ & _ & _ & _ & Hrow' & Hv).
  - apply after_Ok. vm_compute. reflexivity.
  - vm_compute. reflexivity.
  - reflexivity.
  - exists row'. split; [|exact Hv]. rewrite <-Hrow'. vm_compute in Ht.
    injection Ht as <-. reflexivity.
Defined.

(** [mu_add] and [mu_update] were computed from the same read. *)
Lemma no_lost_update_witness :
  let result := run_mutation scenario_ctx mu_update db_two_owners scenario_env in
  is_ok result.1 = false ∧ result.2 = db_two_owners.
Proof.
  intros result.
  apply (no_lost_update scenario_service scenario_ctx scenario_ctx mu_add mu_update
    db_active scenario_env scenario_env tt db_two_owners result.1 result.2 2);
    [apply db_active_reachable|apply mu_add_built|apply mu_update_built|..].
  - vm_compute. reflexivity.
  - vm_compute. reflexivity.
  - vm_compute. reflexivity.
  - apply after_Ok. vm_compute. reflexivity.
  - apply surjective_pairing.
Defined.

Lemma create_tenant_idempotent_witness : ∃ r,
  run (TenantRepository.CreateTenant scenario_ctx (get_ok mu_create_params mu_create_ok))
    db_two_owners scenario_env = (Ok r, db_two_owners) ∧
  operation_TenantID (created_Operation r) = tenant1.
Proof.
  eexists. split; [vm_compute; reflexivity|].
  eapply (create_tenant_idempotent scenario_service scenario_ctx
    (get_ok mu_create_params mu_create_ok) db_two_owners scenario_env);
    [apply db_two_owners_reachable|vm_compute; reflexivity..].
Defined.

Lemma onboarding_outcome_final_witness : ∃ o,
  operations db_active !! operation1 = Some o ∧ operations db_two_owners !! operation1 = Some o.
Proof.
  eexists. split; [vm_compute; reflexivity|].
  eapply (onboarding_outcome_final scenario_service db_active);
    [apply db_active_reachable| |vm_compute; reflexivity|left; vm_compute; reflexivity].
  eapply step_mutation; [apply mu_add_built|apply after_Ok]. vm_compute. reflexivity.
Defined.

Lemma only_owners_change_owners_witness :
  owns (after mu_admin_add db_demoted) tenant1 owner1 ↔ owns db_demoted tenant1 owner1.
Proof.
  eapply (only_owners_change_owners scenario_ctx mu_admin_add db_demoted scenario_env);
    [apply after_Ok; vm_compute; reflexivity|vm_compute; reflexivity..|].
  vm_compute. discriminate.
Defined.

(** ** What the model shows of [FailOnboarding] *)

(** An outbox row that announces the tenant aggregate at a version. *)
Definition announces (db : tables) (k : Z) (t eventType : string) (version : Z) : bool :=
  match outbox_rows (outbox db) !! k with
  | Some row =>
      String.eqb (outbox_TenantID row) t &&
      match unmarshal_envelope (event_Envelope (outbox_Event row)) with
      | Some envelope =>
          String.eqb (envelope_AggregateType envelope) "tenant"
          && String.eqb (envelope_EventType envelope) eventType
          && (envelope_AggregateVersion envelope =? version)
      | None => false
      end
  | None => false
  end.

(** Two events of one version. [FailOnboarding] does not look at the number
    of rows its update of the tenant affected, and publishes the literal version
    2: when the tenant was archived while it was provisioning, the outbox ends
    with two different events, [tenant.archived] and [tenant.onboarding_failed],
    for the same version of the same aggregate, in a reachable state. *)
Theorem late_failure_repeats_version :
  reachable scenario_service db_failed_late ∧
  announces db_failed_late 2 tenant1 "tenant.archived" 2 = true ∧
  announces db_failed_late 3 tenant1 "tenant.onboarding_failed" 2 = true ∧
  (λ row, (tenant_Status (row_Tenant row), tenant_Version (row_Tenant row)))
    <$> tenants db_failed_late !! tenant1 = Some (StatusArchived, 2).
Proof.
  split; [apply db_failed_late_reachable|]. split_and!; vm_compute; reflexivity.
Qed.

(** The failure parameters of the history. *)
Definition fail_params : FailOnboardingParams := get_ok mu_fail_params mu_fail_ok.

(** A failure that lost the race. [FailOnboarding] reads the operation
    without locking it. When a completion commits between that read, which saw
    the operation open, and the statements that follow, those statements affect no
    row and still succeed: the failure is reported as recorded and the event
    [tenant.onboarding_failed] is published, while the tenant is active and the
    operation has succeeded. *)
Theorem failure_after_completion_is_published :
  let m := beginServiceTenant scenario_ctx tenant1 (uuid 9) false;;
           FailOnboarding_record fail_params in
  let result := run m db_active scenario_env in
  (λ x, (operation_State x.1, tenant_Status x.2)) <$> result.1
    = Ok (OperationStateSucceeded, StatusActive) ∧
  announces result.2 4 tenant1 "tenant.onboarding_failed" 2 = true ∧
  tenants result.2 = tenants db_active ∧ operations result.2 = operations db_active.
Proof. cbv zeta. split_and!; vm_compute; reflexivity. Qed.

