(* ===== verification/TenantRefinement.v ===== *)
(** * Tenant service: the use cases honour the contract of the service

    The contract is [promise], one clause for each outcome of each request, over
    [account], an abstract state that knows nothing of transactions, parameters and
    statements. [view] reads an account off the tables; a request served with other
    calls and the relay between its transactions is refused with the tables as it finds
    them, or does what [promise] says ([use_cases_refine]). A call as a whole only takes
    transitions of [TenantInvariants.step] ([serve_safe]), so the invariants hold
    throughout. The last part runs the relay on concrete outboxes. *)

From S2P Require Import Prelude GoStrings Postgres Usecase Outbox OutboxProperties.
From S2P Require Import TenantDomain TenantStore TenantRepository TenantService TenantEffects.
From S2P Require Import TenantMutations TenantInvariants Concrete TenantScenario.
From stdpp Require Import strings gmap list sorting.
From Stdlib Require Import String Lia.
Open Scope string_scope.
Open Scope list_scope.
Open Scope Z_scope.

Section Refinement.
Context `{PlatformLaws, ProtoLaws} `{!TenantProto}.

(** The calls the service offers. *)
Inductive request :=
| RequestCreateTenant (input : CreateTenantInput)
| RequestGetTenantContext (actorUserID tenantID : string)
| RequestListTenants (actorUserID : string) (pageSize : Z) (pageToken : string)
| RequestUpdateTenant (input : UpdateTenantInput)
| RequestArchiveTenant (actorUserID tenantID : string) (expectedVersion : Z)
| RequestListMembers (actorUserID tenantID : string) (pageSize : Z) (pageToken : string)
| RequestGetMember (actorUserID tenantID targetUserID : string)
| RequestAddMember (input : MemberInput)
| RequestUpdateMemberRole (input : UpdateMemberRoleInput)
| RequestRemoveMember (input : RemoveMemberInput)
| RequestCheckAuthorization (actorUserID tenantID : string) (permission : Permission)
| RequestBatchCheckAuthorization (actorUserID tenantID : string)
    (permissions : list Permission)
| RequestMarkOnboardingRunning (tenantID operationID workflowID workflowRunID : string)
| RequestCompleteOnboarding (tenantID operationID : string)
| RequestFailOnboarding (tenantID operationID : string) (err : OperationError)
| RequestGetOperation (actorUserID operationID : string).

Variable service : Service.

Definition serve (ctx : Ctx) (req : request) (w : world tables) (db : tables)
  : result error unit * tables :=
  match req with
  | RequestCreateTenant input => forget (perform (CreateTenant service ctx input) w db)
  | RequestGetTenantContext a t => forget (perform (GetTenantContext ctx a t) w db)
  | RequestListTenants a n p => forget (perform (ListTenants ctx a n p) w db)
  | RequestUpdateTenant input => forget (perform (UpdateTenant service ctx input) w db)
  | RequestArchiveTenant a t v => forget (perform (ArchiveTenant service ctx a t v) w db)
  | RequestListMembers a t n p => forget (perform (ListMembers ctx a t n p) w db)
  | RequestGetMember a t u => forget (perform (GetMember ctx a t u) w db)
  | RequestAddMember input => forget (perform (AddMember service ctx input) w db)
  | RequestUpdateMemberRole input =>
      forget (perform (UpdateMemberRole service ctx input) w db)
  | RequestRemoveMember input => forget (perform (RemoveMember service ctx input) w db)
  | RequestCheckAuthorization a t p => forget (perform (CheckAuthorization ctx a t p) w db)
  | RequestBatchCheckAuthorization a t ps =>
      forget (perform (BatchCheckAuthorization ctx a t ps) w db)
  | RequestMarkOnboardingRunning t o wid rid =>
      forget (perform (MarkOnboardingRunning service ctx t o wid rid) w db)
  | RequestCompleteOnboarding t o => forget (perform (CompleteOnboarding service ctx t o) w db)
  | RequestFailOnboarding t o err => forget (perform (FailOnboarding service ctx t o err) w db)
  | RequestGetOperation a o => forget (perform (GetOperation ctx a o) w db)
  end.

(** Between the transactions of a call, others only take transitions. *)
Definition interferes_by_steps (w : world tables) : Prop :=
  ∀ n db, rtc (step service) db (world_interfere w n db).

Context (w : world tables) (Hw : interferes_by_steps w).

(** In this world, the use case only takes transitions. *)
Notation safe := (Usecase.safe (rtc (step service)) w).

Lemma safe_mutation {A} (m : repo A) ctx mu :
  built service mu → (∀ db ev, run_mutation ctx mu db ev = forget (run m db ev)) →
  safe (call m).
Proof.
  intros Hb Hm. apply safe_call; [apply _|done|]. intros db ev. specialize (Hm db ev).
  destruct (run m _ _) as [r db']. apply rtc_once. by eapply step_mutation.
Qed.

(** The transactions of one call are safe: reads, then at most one mutation. *)
Ltac safe_steps :=
  repeat first
    [ progress cbv zeta
    | apply safe_ret, _ | apply safe_pure, _
    | apply safe_read; [apply _|done|apply _] | apply safe_try_read; [apply _|done|apply _]
    | apply safe_bind_pure; [apply _|]; intros ? ?
    | apply safe_bind; [apply _| |intros] ].

Lemma safe_GetTenantContext ctx a t : safe (GetTenantContext ctx a t).
Proof. unfold GetTenantContext. safe_steps; apply _. Qed.

Lemma serve_perform {A} (m : Usecase.app tables error A) db :
  safe m → rtc (step service) db (forget (perform m w db)).2.
Proof. intros Hm. pose proof (safe_perform _ w m db Hm) as Hs. by destruct (perform m w db). Qed.

Lemma serve_safe ctx req db : rtc (step service) db (serve ctx req w db).2.
Proof.
  destruct req; cbn [serve]; apply serve_perform.
  - unfold CreateTenant. safe_steps. by eapply safe_mutation; [eapply built_create|].
  - apply safe_GetTenantContext.
  - unfold ListTenants. safe_steps. destruct (cutPage _ _ _). safe_steps.
  - unfold UpdateTenant. safe_steps.
    by eapply safe_mutation; [eapply built_update|].
  - unfold ArchiveTenant. safe_steps.
    destruct a0; [|apply safe_ret, _]. by eapply safe_mutation; [eapply built_archive|].
  - unfold ListMembers. safe_steps.
  - unfold GetMember. safe_steps. destruct (negb _); safe_steps.
  - unfold AddMember. safe_steps.
    by eapply safe_mutation; [eapply built_add|].
  - unfold UpdateMemberRole. safe_steps.
    by eapply safe_mutation; [eapply built_role|].
  - unfold RemoveMember. safe_steps.
    by eapply safe_mutation; [eapply built_remove|].
  - unfold CheckAuthorization. safe_steps. destruct a0 as [c|[]]; safe_steps.
  - unfold BatchCheckAuthorization. safe_steps. destruct a0 as [c|[]]; safe_steps.
  - unfold MarkOnboardingRunning. safe_steps. by eapply safe_mutation; [eapply built_running|].
  - unfold CompleteOnboarding. safe_steps. by eapply safe_mutation; [eapply built_complete|].
  - unfold FailOnboarding. safe_steps. by eapply safe_mutation; [eapply built_fail|].
  - unfold GetOperation. safe_steps.
Qed.

End Refinement.

(** The requests that only read. *)
Definition is_read (req : request) : bool :=
  match req with
  | RequestGetTenantContext _ _ | RequestListTenants _ _ _ | RequestListMembers _ _ _ _
  | RequestGetMember _ _ _ | RequestCheckAuthorization _ _ _
  | RequestBatchCheckAuthorization _ _ _ | RequestGetOperation _ _ => true
  | _ => false
  end.

(** ** The contract of the service

    What each request promises to do, over an abstract state and without a word about
    transactions, parameters or statements: the status and the version of each tenant, who
    created it with which request, the roles of its members, its onboarding operations, and
    the events announced so far. *)

Record account := {
  ab_tenant : string → option (Status * Z);
  ab_created : string → option (string * string);
  ab_member : string * string → option (Role * Z);
  ab_operation : string → option (string * OperationState);
  ab_event : Z → option (string * string * Z);
  ab_announced : Z;
}.

(** A function changed at one argument. *)
Definition upd {K A} `{EqDecision K} (k : K) (a : A) (f : K → A) : K → A :=
  λ i, if decide (k = i) then a else f i.

Definition with_tenant (t : string) (x : Status * Z) (σ : account) : account := {|
  ab_tenant := upd t (Some x) (ab_tenant σ); ab_created := ab_created σ;
  ab_member := ab_member σ; ab_operation := ab_operation σ; ab_event := ab_event σ;
  ab_announced := ab_announced σ |}.
Definition with_member (t u : string) (x : option (Role * Z)) (σ : account) : account := {|
  ab_tenant := ab_tenant σ; ab_created := ab_created σ;
  ab_member := upd (t, u) x (ab_member σ); ab_operation := ab_operation σ;
  ab_event := ab_event σ; ab_announced := ab_announced σ |}.
Definition with_operation (id t : string) (s : OperationState) (σ : account) : account := {|
  ab_tenant := ab_tenant σ; ab_created := ab_created σ; ab_member := ab_member σ;
  ab_operation := upd id (Some (t, s)) (ab_operation σ); ab_event := ab_event σ;
  ab_announced := ab_announced σ |}.
Definition with_creation (t u requestID : string) (σ : account) : account := {|
  ab_tenant := ab_tenant σ; ab_created := upd t (Some (u, requestID)) (ab_created σ);
  ab_member := ab_member σ; ab_operation := ab_operation σ; ab_event := ab_event σ;
  ab_announced := ab_announced σ |}.
(** One more event: of a tenant, about an aggregate, with a version. *)
Definition announce (t aggregate : string) (v : Z) (σ : account) : account := {|
  ab_tenant := ab_tenant σ; ab_created := ab_created σ; ab_member := ab_member σ;
  ab_operation := ab_operation σ;
  ab_event := upd (ab_announced σ) (Some (t, aggregate, v)) (ab_event σ);
  ab_announced := ab_announced σ + 1 |}.

(** Who may give a member of the role [old] ("" for nobody yet) the role [new]. *)
Definition may_manage (actor old new : Role) : Prop :=
  new ∈ [RoleOwner; RoleAdmin; RoleMember; RoleViewer] ∧
  (actor = RoleOwner ∨ actor = RoleAdmin ∧ old ≠ RoleOwner ∧ new ≠ RoleOwner).

(** An owner other than [u] remains. *)
Definition another_owner (σ : account) (t u : string) : Prop :=
  ∃ u' v, u' ≠ u ∧ ab_member σ (t, u') = Some (RoleOwner, v).

Section Contract.
Context `{Platform}.

(** The actor [a], of the role [r], finds the tenant [t] active at the version [v]. *)
Definition acts_in (σ : account) (tenantID actorID t a : string) (r : Role) (v : Z) : Prop :=
  uuid_in tenantID = Some t ∧ uuid_in actorID = Some a ∧
  ab_tenant σ t = Some (StatusActive, v) ∧ ∃ mv, ab_member σ (t, a) = Some (r, mv).

(** What a request that succeeds does to the state it finds. *)
Inductive promise (σ : account) : request → account → Prop :=
| promise_created input t u id :
    uuid_in (create_ActorUserID input) = Some u →
    ab_tenant σ t = None → ab_operation σ id = None →
    (∀ id' s, ab_operation σ id' ≠ Some (t, s)) →
    (∀ t', ab_created σ t' ≠ Some (u, create_RequestID input)) →
    promise σ (RequestCreateTenant input)
      (announce t "tenant" 1 (with_operation id t OperationStatePending
        (with_member t u (Some (RoleOwner, 1)) (with_creation t u (create_RequestID input)
          (with_tenant t (StatusProvisioning, 1) σ)))))
| promise_created_before input t u :
    uuid_in (create_ActorUserID input) = Some u →
    ab_created σ t = Some (u, create_RequestID input) →
    promise σ (RequestCreateTenant input) σ
| promise_updated input t a r v :
    acts_in σ (update_TenantID input) (update_ActorUserID input) t a r v →
    r ∈ [RoleOwner; RoleAdmin] → v = update_ExpectedVersion input →
    promise σ (RequestUpdateTenant input)
      (announce t "tenant" (v + 1) (with_tenant t (StatusActive, v + 1) σ))
| promise_archived tenantID actorID t a s v mv :
    uuid_in tenantID = Some t → uuid_in actorID = Some a →
    ab_tenant σ t = Some (s, v) → ab_member σ (t, a) = Some (RoleOwner, mv) →
    promise σ (RequestArchiveTenant actorID tenantID v)
      (announce t "tenant" (v + 1) (with_tenant t (StatusArchived, v + 1) σ))
| promise_archived_before tenantID actorID t a v mv :
    uuid_in tenantID = Some t → uuid_in actorID = Some a →
    ab_tenant σ t = Some (StatusArchived, v) → ab_member σ (t, a) = Some (RoleOwner, mv) →
    promise σ (RequestArchiveTenant actorID tenantID v) σ
| promise_added input t a r v u :
    acts_in σ (member_TenantID input) (member_ActorUserID input) t a r v →
    uuid_in (member_UserID input) = Some u → ab_member σ (t, u) = None →
    may_manage r "" (member_Role input) →
    promise σ (RequestAddMember input)
      (announce t "tenant" (v + 1) (with_tenant t (StatusActive, v + 1)
        (with_member t u (Some (member_Role input, 1)) σ)))
| promise_role_changed input t a r v u old :
    acts_in σ (role_TenantID input) (role_ActorUserID input) t a r v →
    uuid_in (role_UserID input) = Some u →
    ab_member σ (t, u) = Some (old, role_ExpectedMembershipVersion input) →
    may_manage r old (role_Role input) →
    (old = RoleOwner → role_Role input ≠ RoleOwner → another_owner σ t u) →
    promise σ (RequestUpdateMemberRole input)
      (announce t "tenant" (v + 1) (with_tenant t (StatusActive, v + 1)
        (with_member t u (Some (role_Role input, role_ExpectedMembershipVersion input + 1)) σ)))
| promise_removed input t a r v u old :
    acts_in σ (remove_TenantID input) (remove_ActorUserID input) t a r v →
    uuid_in (remove_UserID input) = Some u →
    ab_member σ (t, u) = Some (old, remove_ExpectedMembershipVersion input) →
    may_manage r old old → (old = RoleOwner → another_owner σ t u) →
    promise σ (RequestRemoveMember input)
      (announce t "tenant" (v + 1) (with_tenant t (StatusActive, v + 1)
        (with_member t u None σ)))
| promise_running tenantID operationID wid rid t id :
    uuid_in tenantID = Some t → uuid_in operationID = Some id →
    ab_operation σ id = Some (t, OperationStatePending) →
    promise σ (RequestMarkOnboardingRunning tenantID operationID wid rid)
      (announce t "tenant_onboarding_operation" 2 (with_operation id t OperationStateRunning σ))
| promise_running_before tenantID operationID wid rid t id s :
    uuid_in tenantID = Some t → uuid_in operationID = Some id →
    ab_operation σ id = Some (t, s) → s ∈ [OperationStateRunning; OperationStateSucceeded] →
    promise σ (RequestMarkOnboardingRunning tenantID operationID wid rid) σ
| promise_completed tenantID operationID t id v :
    uuid_in tenantID = Some t → uuid_in operationID = Some id →
    ab_operation σ id = Some (t, OperationStateRunning) →
    ab_tenant σ t = Some (StatusProvisioning, v) →
    promise σ (RequestCompleteOnboarding tenantID operationID)
      (announce t "tenant" 2 (with_operation id t OperationStateSucceeded
        (with_tenant t (StatusActive, v + 1) σ)))
| promise_completed_before tenantID operationID t id :
    uuid_in tenantID = Some t → uuid_in operationID = Some id →
    ab_operation σ id = Some (t, OperationStateSucceeded) →
    promise σ (RequestCompleteOnboarding tenantID operationID) σ
| promise_failed tenantID operationID err t id s v :
    uuid_in tenantID = Some t → uuid_in operationID = Some id →
    ab_operation σ id = Some (t, s) → s ∈ [OperationStatePending; OperationStateRunning] →
    ab_tenant σ t = Some (StatusProvisioning, v) →
    promise σ (RequestFailOnboarding tenantID operationID err)
      (announce t "tenant" 2 (with_operation id t OperationStateFailed
        (with_tenant t (StatusProvisioningFailed, v + 1) σ)))
| promise_failed_late tenantID operationID err t id s st v :
    uuid_in tenantID = Some t → uuid_in operationID = Some id →
    ab_operation σ id = Some (t, s) → s ∈ [OperationStatePending; OperationStateRunning] →
    ab_tenant σ t = Some (st, v) → st ≠ StatusProvisioning →
    promise σ (RequestFailOnboarding tenantID operationID err)
      (announce t "tenant" 2 (with_operation id t OperationStateFailed σ))
| promise_failed_before tenantID operationID err t id :
    uuid_in tenantID = Some t → uuid_in operationID = Some id →
    ab_operation σ id = Some (t, OperationStateFailed) →
    promise σ (RequestFailOnboarding tenantID operationID err) σ
| promise_read req : is_read req = true → promise σ req σ.

(** *** The tables as an account *)
Context `{!Proto}.

Definition view (db : tables) : account := {|
  ab_tenant t :=
    (λ row, (tenant_Status (row_Tenant row), tenant_Version (row_Tenant row)))
      <$> tenants db !! t;
  ab_created t :=
    (λ row, (tenant_CreatedByUserID (row_Tenant row), row_CreationRequestID row))
      <$> tenants db !! t;
  ab_member k := (λ m, (membership_Role m, membership_Version m)) <$> memberships db !! k;
  ab_operation id := (λ o, (operation_TenantID o, operation_State o)) <$> operations db !! id;
  ab_event k :=
    row ← outbox_rows (outbox db) !! k;
    envelope ← unmarshal_envelope (event_Envelope (outbox_Event row));
    Some (outbox_TenantID row, envelope_AggregateType envelope,
          envelope_AggregateVersion envelope);
  ab_announced := outbox_next (outbox db) |}.

(** Accounts are compared at every argument. *)
Record same_account (σ σ' : account) : Prop := {
  same_ab_tenant : ∀ t, ab_tenant σ t = ab_tenant σ' t;
  same_ab_created : ∀ t, ab_created σ t = ab_created σ' t;
  same_ab_member : ∀ k, ab_member σ k = ab_member σ' k;
  same_ab_operation : ∀ id, ab_operation σ id = ab_operation σ' id;
  same_ab_event : ∀ k, ab_event σ k = ab_event σ' k;
  same_ab_announced : ab_announced σ = ab_announced σ';
}.

Lemma same_account_refl σ : same_account σ σ.
Proof. by split. Qed.

(** The tables [db'] are what the request promises of [db]. *)
Definition honours (req : request) (db db' : tables) : Prop :=
  ∃ σ, promise (view db) req σ ∧ same_account (view db') σ.

Lemma honours_same req db : promise (view db) req (view db) → honours req db db.
Proof. intros Hp. exists (view db). split; [done|apply same_account_refl]. Qed.

Lemma fmap_upd {K A B} `{Countable K} (f : A → B) (m : gmap K A) k x i :
  f <$> (<[k := x]> m) !! i = upd k (Some (f x)) (λ i, f <$> m !! i) i.
Proof.
  unfold upd. case_decide as Hk; [subst; by rewrite lookup_insert_eq|].
  by rewrite lookup_insert_ne.
Qed.

Lemma fmap_upd_same {K A B} `{Countable K} (f : A → B) (m : gmap K A) k x y i :
  m !! k = Some y → f x = f y → f <$> (<[k := x]> m) !! i = f <$> m !! i.
Proof.
  intros Hy Hf. rewrite fmap_upd. unfold upd. case_decide as Hk; [|done].
  subst i. by rewrite Hy, Hf.
Qed.

Lemma fmap_upd_delete {K A B} `{Countable K} (f : A → B) (m : gmap K A) k i :
  f <$> delete k m !! i = upd k None (λ i, f <$> m !! i) i.
Proof.
  unfold upd. case_decide as Hk; [subst; by rewrite lookup_delete_eq|].
  by rewrite lookup_delete_ne.
Qed.

Lemma emitted_view t aggregate v db ob :
  emitted t aggregate v (outbox db) ob →
  (∀ k, ab_event (view (set_outbox ob db)) k
        = upd (outbox_next (outbox db)) (Some (t, aggregate, v)) (ab_event (view db)) k) ∧
  outbox_next ob = outbox_next (outbox db) + 1.
Proof.
  intros (row & envelope & -> & <- & _ & Hu & <- & <-). split; [|done]. intros k. cbn. unfold upd.
  case_decide as Hk; [subst k; rewrite lookup_insert_eq; cbn; by rewrite Hu|].
  by rewrite lookup_insert_ne.
Qed.

End Contract.

(** ** What the repository does, transaction by transaction *)

Section Does.
Context `{PlatformLaws, ProtoLaws} `{!TenantProto}.
Implicit Types (db : tables).

(** The tables with a new version of the tenant [t] and the memberships [ms]. *)
Definition rewritten (t : string) (row : tenant_row) (new : Tenant)
    (ms : gmap (string * string) Membership) (ob : outbox_table) db : tables := {|
  tenants := <[t := {| row_Tenant := new; row_CreationRequestID := row_CreationRequestID row |}]>
               (tenants db);
  memberships := ms; entitlements := entitlements db; operations := operations db;
  outbox := ob |}.

(** The actor of a change of the tenant [t], found under its locks. *)
Definition acting (actorID : string) (t : string) (expected : Z) (row : tenant_row)
    (role : Role) db : Prop := ∃ a m,
  uuid_in actorID = Some a ∧ tenants db !! t = Some row ∧
  tenant_Version (row_Tenant row) = expected ∧
  memberships db !! (t, a) = Some m ∧ membership_Role m = role.

Lemma UpdateTenant_does ctx params db ev r db' :
  consistent db →
  tenant_Version (updateParams_Tenant params)
    = int64_incr (updateParams_ExpectedVersion params) →
  event_of (updateParams_Event params) "tenant"
    (tenant_Version (updateParams_Tenant params) mod 2 ^ 64) →
  run (TenantRepository.UpdateTenant ctx params) db ev = (Ok r, db') →
  ∃ t, uuid_in (tenant_ID (updateParams_Tenant params)) = Some t ∧ ∃ row role new ob,
    acting (updateParams_ActorUserID params) t (updateParams_ExpectedVersion params) row role db ∧
    tenant_Status (row_Tenant row) = StatusActive ∧ CanUpdateTenant role = true ∧
    tenant_Status new = StatusActive ∧ bumped (row_Tenant row) new ∧
    emitted t "tenant" (tenant_Version new) (outbox db) ob ∧
    db' = rewritten t row new (memberships db) ob db.
Proof.
  intros Hc Hv Hev Hr. unfold TenantRepository.UpdateTenant in Hr. effect_start Hr.
  actor_context.
  select (sql_update_tenant _ _ _ _ = _) (fun H => version_written H Hc Hrow Hscope Hev).
  effect_goal. exists row, (membership_Role m). do 2 eexists.
  split_and!; cycle -1; [reflexivity|by exists u, m|done|done|done|by split_and!|].
  by eapply emitted_insert.
Qed.

Lemma ArchiveTenant_does ctx params db ev r db' :
  consistent db → tenant_Status (archiveParams_Tenant params) = StatusArchived →
  tenant_Version (archiveParams_Tenant params)
    = int64_incr (archiveParams_ExpectedVersion params) →
  event_of (archiveParams_Event params) "tenant"
    (tenant_Version (archiveParams_Tenant params) mod 2 ^ 64) →
  run (TenantRepository.ArchiveTenant ctx params) db ev = (Ok r, db') →
  ∃ t, uuid_in (tenant_ID (archiveParams_Tenant params)) = Some t ∧ ∃ row role new ob,
    acting (archiveParams_ActorUserID params) t (archiveParams_ExpectedVersion params) row role
      db ∧
    CanArchiveTenant role = true ∧ tenant_Status new = StatusArchived ∧
    bumped (row_Tenant row) new ∧ emitted t "tenant" (tenant_Version new) (outbox db) ob ∧
    db' = rewritten t row new (memberships db) ob db.
Proof.
  intros Hc Hst Hv Hev Hr. unfold TenantRepository.ArchiveTenant in Hr. effect_start Hr.
  actor_context.
  select (sql_archive_tenant _ _ _ _ = _) (fun H => version_written H Hc Hrow Hscope Hev).
  effect_goal. exists row, (membership_Role m). do 2 eexists.
  split_and!; cycle -1; [reflexivity|by exists u, m|done|done|by split_and!|].
  by eapply emitted_insert.
Qed.

Lemma AddMember_does ctx params db ev r db' :
  consistent db →
  addParams_NewTenantVersion params
    = int64_incr (addParams_ExpectedTenantVersion params) →
  event_of (addParams_Event params) "tenant"
    (addParams_NewTenantVersion params mod 2 ^ 64) →
  run (TenantRepository.AddMember ctx params) db ev = (Ok r, db') →
  ∃ t, uuid_in (membership_TenantID (addParams_Membership params)) = Some t ∧
  ∃ row role new ob u x,
    acting (addParams_ActorUserID params) t (addParams_ExpectedTenantVersion params) row role db ∧
    tenant_Status (row_Tenant row) = StatusActive ∧
    CanManageMember role "" (membership_Role (addParams_Membership params)) = true ∧
    uuid_in (membership_UserID (addParams_Membership params)) = Some u ∧
    memberships db !! (t, u) = None ∧
    membership_Role x = membership_Role (addParams_Membership params) ∧
    membership_Version x = membership_Version (addParams_Membership params) ∧
    tenant_Status new = StatusActive ∧ bumped (row_Tenant row) new ∧
    emitted t "tenant" (tenant_Version new) (outbox db) ob ∧
    db' = rewritten t row new (<[(t, u) := x]> (memberships db)) ob db.
Proof.
  intros Hc Hv Hev Hr. unfold TenantRepository.AddMember in Hr. effect_start Hr.
  actor_context.
  select (sql_insert_membership _ _ _ = _) (fun H => apply sql_insert_membership_Ok in H
    as (t' & u' & m' & Ht' & Hu' & Hfresh & _ & HmT & HmU & HmR & HmV & HmC & ->)).
  select (sql_increment_tenant_version _ _ _ _ _ _ = _) (fun H => version_written H Hc Hrow Hscope Hev).
  effect_goal. exists row, (membership_Role m). do 4 eexists.
  split_and!; cycle -1;
    [reflexivity|by exists u, m|done|done|done|done|done|done|done|by split_and!|].
  by eapply emitted_insert.
Qed.

(** An owner among the memberships, other than [u]. *)
Lemma UpdateMemberRole_does ctx params db ev r db' :
  consistent db →
  roleParams_NewTenantVersion params
    = int64_incr (roleParams_ExpectedTenantVersion params) →
  event_of (roleParams_Event params) "tenant"
    (roleParams_NewTenantVersion params mod 2 ^ 64) →
  run (TenantRepository.UpdateMemberRole ctx params) db ev = (Ok r, db') →
  ∃ t, uuid_in (membership_TenantID (roleParams_Membership params)) = Some t ∧
  ∃ row role new ob u old x,
    acting (roleParams_ActorUserID params) t (roleParams_ExpectedTenantVersion params) row role
      db ∧
    tenant_Status (row_Tenant row) = StatusActive ∧
    uuid_in (membership_UserID (roleParams_Membership params)) = Some u ∧
    memberships db !! (t, u) = Some old ∧
    membership_Version old = roleParams_ExpectedMembershipVersion params ∧
    CanManageMember role (membership_Role old) (membership_Role (roleParams_Membership params))
      = true ∧
    (membership_Role old = RoleOwner →
     membership_Role (roleParams_Membership params) ≠ RoleOwner →
     other_owner t u (memberships db)) ∧
    membership_Role x = membership_Role (roleParams_Membership params) ∧
    membership_Version x = membership_Version (roleParams_Membership params) ∧
    membership_checks x = true ∧
    tenant_Status new = StatusActive ∧ bumped (row_Tenant row) new ∧
    emitted t "tenant" (tenant_Version new) (outbox db) ob ∧
    db' = rewritten t row new (<[(t, u) := x]> (memberships db)) ob db.
Proof.
  intros Hc Hv Hev Hr. unfold TenantRepository.UpdateMemberRole in Hr. effect_start Hr.
  actor_context.
  select (sql_membership _ _ true _ _ = _) (fun H => apply sql_membership_Ok in H
    as (t1 & u1 & Ht1 & Hu1 & Htarget)).
  select (sql_update_role _ _ _ _ _ _ _ _ = _) (fun H => eapply sql_update_role_Ok in H
    as (t2 & u2 & m2 & m' & Ht2 & Hu2 & Hm2 & HmE & HmT & HmU & HmR & HmV & HmC & ->);
    [|done]).
  select (sql_increment_tenant_version _ _ _ _ _ _ = _) (fun H => version_written H Hc Hrow Hscope Hev).
  effect_goal. exists row, (membership_Role m). do 2 eexists. do 3 eexists.
  split_and!; cycle -1;
    [reflexivity|by exists u, m|done|done|done|done|done| |done|done|done|done|by split_and!|].
  - intros Hown Hlost%String.eqb_neq. destruct E4 as (owners & Ho & Hlen).
    { rewrite Hown, Hlost. done. }
    by eapply sql_owners_other.
  - by eapply emitted_insert.
Qed.

Lemma RemoveMember_does ctx params db ev r db' :
  consistent db →
  removeParams_NewTenantVersion params
    = int64_incr (removeParams_ExpectedTenantVersion params) →
  event_of (removeParams_Event params) "tenant"
    (removeParams_NewTenantVersion params mod 2 ^ 64) →
  run (TenantRepository.RemoveMember ctx params) db ev = (Ok r, db') →
  ∃ t, uuid_in (removeParams_TenantID params) = Some t ∧ ∃ row role new ob u old,
    acting (removeParams_ActorUserID params) t (removeParams_ExpectedTenantVersion params) row
      role db ∧
    tenant_Status (row_Tenant row) = StatusActive ∧
    uuid_in (removeParams_UserID params) = Some u ∧
    memberships db !! (t, u) = Some old ∧
    membership_Version old = removeParams_ExpectedMembershipVersion params ∧
    CanManageMember role (membership_Role old) (membership_Role old) = true ∧
    (membership_Role old = RoleOwner → other_owner t u (memberships db)) ∧
    tenant_Status new = StatusActive ∧ bumped (row_Tenant row) new ∧
    emitted t "tenant" (tenant_Version new) (outbox db) ob ∧
    db' = rewritten t row new (delete (t, u) (memberships db)) ob db.
Proof.
  intros Hc Hv Hev Hr. unfold TenantRepository.RemoveMember in Hr. effect_start Hr.
  actor_context.
  select (sql_membership _ _ true _ _ = _) (fun H => apply sql_membership_Ok in H
    as (t1 & u1 & Ht1 & Hu1 & Htarget)).
  select (sql_delete_membership _ _ _ _ _ = _) (fun H => eapply sql_delete_membership_Ok in H
    as (t2 & u2 & m2 & Ht2 & Hu2 & Hm2 & ->); [|done]).
  select (sql_increment_tenant_version _ _ _ _ _ _ = _) (fun H => version_written H Hc Hrow Hscope Hev).
  effect_goal. exists row, (membership_Role m). do 2 eexists. do 2 eexists.
  split_and!; cycle -1;
    [reflexivity|by exists u, m|done|done|done|done|done| |done|by split_and!|].
  - intros Hown. destruct E4 as (owners & Ho & Hlen); [by rewrite Hown|].
    by eapply sql_owners_other.
  - by eapply emitted_insert.
Qed.

End Does.

(** ** The changes, seen on accounts *)

Section Accounts.
Context `{Platform, Proto}.
Implicit Types (db : tables) (σ : account).

Lemma upd_ext {K A} `{EqDecision K} (k : K) (a : A) f g i :
  f i = g i → upd k a f i = upd k a g i.
Proof. unfold upd. by case_decide. Qed.

Lemma announce_account t aggregate v ob db σ :
  same_account (view db) σ → emitted t aggregate v (outbox db) ob →
  same_account (view (set_outbox ob db)) (announce t aggregate v σ).
Proof.
  intros [s1 s2 s3 s4 s5 s6] Hob. destruct (emitted_view _ _ _ _ _ Hob) as [Hk Hn].
  split; try done; cbn -[view] in *.
  - intros k. rewrite Hk, <-s6. by apply upd_ext.
  - by rewrite <-s6.
Qed.

Lemma tenant_account t row new db σ v st :
  same_account (view db) σ → tenants db !! t = Some row → bumped (row_Tenant row) new →
  tenant_Version (row_Tenant row) = v → tenant_Status new = st →
  same_account (view (set_tenants (<[t := {| row_Tenant := new;
      row_CreationRequestID := row_CreationRequestID row |}]> (tenants db)) db))
    (with_tenant t (st, v + 1) σ).
Proof.
  intros [s1 s2 s3 s4 s5 s6] Hrow (_ & _ & HU & Hv & _) <- <-. split; try done; cbn in *.
  - intros t'. rewrite fmap_upd. cbn. rewrite Hv. by apply upd_ext.
  - intros t'. rewrite <-s2. eapply fmap_upd_same; [done|]. cbn. by rewrite HU.
Qed.

Lemma member_account t u x db σ :
  same_account (view db) σ →
  same_account (view (set_memberships (<[(t, u) := x]> (memberships db)) db))
    (with_member t u (Some (membership_Role x, membership_Version x)) σ).
Proof.
  intros [s1 s2 s3 s4 s5 s6]. split; try done; cbn in *.
  intros k. rewrite fmap_upd. by apply upd_ext.
Qed.

Lemma removed_account t u db σ :
  same_account (view db) σ →
  same_account (view (set_memberships (delete (t, u) (memberships db)) db))
    (with_member t u None σ).
Proof.
  intros [s1 s2 s3 s4 s5 s6]. split; try done; cbn in *.
  intros k. rewrite fmap_upd_delete. by apply upd_ext.
Qed.

Lemma operation_account id o t state db σ :
  same_account (view db) σ → operation_TenantID o = t → operation_State o = state →
  same_account (view (set_operations (<[id := o]> (operations db)) db))
    (with_operation id t state σ).
Proof.
  intros [s1 s2 s3 s4 s5 s6] <- <-. split; try done; cbn in *.
  intros k. rewrite fmap_upd. by apply upd_ext.
Qed.

Lemma created_account t row u requestID st v db σ :
  same_account (view db) σ → tenant_CreatedByUserID row = u → tenant_Status row = st →
  tenant_Version row = v →
  same_account (view (set_tenants (<[t := {| row_Tenant := row;
      row_CreationRequestID := requestID |}]> (tenants db)) db))
    (with_creation t u requestID (with_tenant t (st, v) σ)).
Proof.
  intros [s1 s2 s3 s4 s5 s6] <- <- <-. split; try done; cbn in *;
    intros t'; rewrite fmap_upd; by apply upd_ext.
Qed.

(** The tables seen as an account, at a row. *)
Lemma view_tenant db t row :
  tenants db !! t = Some row →
  ab_tenant (view db) t = Some (tenant_Status (row_Tenant row), tenant_Version (row_Tenant row)).
Proof. cbn. by intros ->. Qed.

Lemma view_member db k m :
  memberships db !! k = Some m →
  ab_member (view db) k = Some (membership_Role m, membership_Version m).
Proof. cbn. by intros ->. Qed.

Lemma view_operation db id o :
  operations db !! id = Some o →
  ab_operation (view db) id = Some (operation_TenantID o, operation_State o).
Proof. cbn. by intros ->. Qed.

Lemma acting_in tenantID actorID t v row role db :
  acting actorID t v row role db → uuid_in tenantID = Some t →
  tenant_Status (row_Tenant row) = StatusActive →
  ∃ a, acts_in (view db) tenantID actorID t a role v.
Proof.
  intros (a & m & Ha & Hrow & <- & Hm & <-) Ht Hst. exists a. split_and!; [done..| |].
  - rewrite (view_tenant _ _ _ Hrow). by rewrite Hst.
  - eexists. by rewrite (view_member _ _ _ Hm).
Qed.

Lemma other_owner_another t u db :
  other_owner t u (memberships db) → another_owner (view db) t u.
Proof.
  intros (u' & m & Hne & Hm & Hown%String.eqb_eq). exists u', (membership_Version m).
  split; [done|]. rewrite (view_member _ _ _ Hm). by rewrite Hown.
Qed.

Lemma CanUpdateTenant_roles r : CanUpdateTenant r = true → r ∈ [RoleOwner; RoleAdmin].
Proof.
  unfold CanUpdateTenant, RoleAllows, PermissionsForRole. rewrite !elem_of_cons.
  destruct (String.eqb_spec r RoleOwner), (String.eqb_spec r RoleAdmin); [auto..|].
  by repeat case_match.
Qed.

Lemma CanArchiveTenant_roles r : CanArchiveTenant r = true → r = RoleOwner.
Proof.
  unfold CanArchiveTenant, RoleAllows, PermissionsForRole.
  destruct (String.eqb_spec r RoleOwner); [done|]. by repeat case_match.
Qed.

Lemma IsKnownRole_roles r :
  IsKnownRole r = true → r ∈ [RoleOwner; RoleAdmin; RoleMember; RoleViewer].
Proof.
  unfold IsKnownRole. rewrite !orb_true_iff, !String.eqb_eq, !elem_of_cons. tauto.
Qed.

Lemma CanManageMember_may actor old new :
  CanManageMember actor old new = true → may_manage actor old new.
Proof.
  intros Hm. split; [by eapply IsKnownRole_roles, CanManageMember_known|].
  revert Hm. unfold CanManageMember.
  destruct (String.eqb_spec actor RoleOwner); [by left|].
  destruct (String.eqb_spec actor RoleAdmin); [|done].
  rewrite !andb_true_iff, !negb_true_iff, !String.eqb_neq. tauto.
Qed.

End Accounts.

(** ** Each request honours its promise *)

Section Honours.
Context `{PlatformLaws, ProtoLaws} `{!TenantProto}.
Implicit Types (db : tables).

(** A new version of a tenant, with its event. *)
Lemma rewritten_account t row new ms ob db σ v st :
  same_account (view (set_memberships ms db)) σ → tenants db !! t = Some row →
  bumped (row_Tenant row) new → tenant_Version (row_Tenant row) = v →
  tenant_Status new = st → emitted t "tenant" (tenant_Version new) (outbox db) ob →
  same_account (view (rewritten t row new ms ob db))
    (announce t "tenant" (v + 1) (with_tenant t (st, v + 1) σ)).
Proof.
  intros Hσ Hrow Hb <- <- Hob. pose proof Hb as (_ & _ & _ & Hv & _). rewrite Hv in Hob.
  exact (announce_account t "tenant" _ ob (set_tenants _ (set_memberships ms db)) _
    (tenant_account t row new (set_memberships ms db) _ _ _ Hσ Hrow Hb eq_refl eq_refl) Hob).
Qed.

Lemma UpdateTenant_honours service ctx input c w params db ev r db' t row :
  consistent db → uuid_in (update_TenantID input) = Some t →
  context_Tenant c = row_Tenant row → tenant_ID (row_Tenant row) = t → uuid_in t = Some t →
  UpdateTenant_params service ctx input c w = Ok params →
  run (TenantRepository.UpdateTenant ctx params) db ev = (Ok r, db') →
  honours (RequestUpdateTenant input) db db'.
Proof.
  intros Hc Ht Hct HT Hcan Hp Hr. unfold UpdateTenant_params, newTenantOutboxEvent in Hp.
  result_inv Hp. injection Hp as <-. bool_facts. rewrite Hct in *.
  apply UpdateTenant_does in Hr; [|done|cbn; congruence|by eapply newAggregateOutboxEvent_Ok].
  destruct Hr as (t' & Ht' & row' & role & new & ob & Hact & Hst & Hcan' & Hst' & Hb & Hob & ->).
  cbn in *. rewrite HT, Hcan in Ht'. injection Ht' as <-.
  destruct (acting_in _ _ _ _ _ _ _ Hact Ht Hst) as [a Ha].
  destruct Hact as (? & ? & _ & Hrow & Hv & _).
  eexists. split; [eapply promise_updated; [done|by apply CanUpdateTenant_roles|done]|].
  eapply rewritten_account; [|done..]. split; done.
Qed.

Lemma ArchiveTenant_honours service ctx actorID tenantID v c w params db ev r db' t row :
  consistent db → uuid_in tenantID = Some t →
  context_Tenant c = row_Tenant row → tenant_ID (row_Tenant row) = t → uuid_in t = Some t →
  ArchiveTenant_params service ctx actorID tenantID v c w = Ok (Some params) →
  run (TenantRepository.ArchiveTenant ctx params) db ev = (Ok r, db') →
  honours (RequestArchiveTenant actorID tenantID v) db db'.
Proof.
  intros Hc Ht Hct HT Hcan Hp Hr. unfold ArchiveTenant_params, newTenantOutboxEvent in Hp.
  result_inv Hp. destruct (String.eqb _ _); [done|]. result_inv Hp. injection Hp as <-.
  bool_facts. rewrite Hct in *.
  apply ArchiveTenant_does in Hr;
    [|done|done|cbn; congruence|by eapply newAggregateOutboxEvent_Ok].
  destruct Hr as (t' & Ht' & row' & role & new & ob & (a & m & Ha & Hrow & Hv & Hm & Hrole)
    & Har%CanArchiveTenant_roles & Hst' & Hb & Hob & ->).
  cbn in *. rewrite HT, Hcan in Ht'. injection Ht' as <-.
  eexists. split; [eapply promise_archived; [done..| |]|].
  - rewrite (view_tenant _ _ _ Hrow). by rewrite Hv.
  - rewrite (view_member _ _ _ Hm). by rewrite Hrole, Har.
  - eapply rewritten_account; [|done..]. split; done.
Qed.

Lemma AddMember_honours service ctx input c w params db ev r db' :
  consistent db → AddMember_params service ctx input c w = Ok params →
  run (TenantRepository.AddMember ctx params) db ev = (Ok r, db') →
  honours (RequestAddMember input) db db'.
Proof.
  intros Hc Hp Hr. unfold AddMember_params, newTenantOutboxEvent in Hp.
  result_inv Hp. injection Hp as <-. bool_facts.
  apply AddMember_does in Hr; [|done|done|by eapply newAggregateOutboxEvent_Ok].
  destruct Hr as (t & Ht & row & role & new & ob & u & x & Hact & Hst & Hmay & Hu & Hfresh
    & HxR & HxV & Hst' & Hb & Hob & ->). cbn in *.
  destruct (acting_in _ _ _ _ _ _ _ Hact Ht Hst) as [a Ha].
  destruct Hact as (? & ? & _ & Hrow & Hv & _).
  eexists. split; [eapply promise_added; [done|done| |by apply CanManageMember_may]|].
  - cbn. by rewrite Hfresh.
  - eapply rewritten_account; [|done..]. rewrite <-HxR, <-HxV.
    by apply member_account, same_account_refl.
Qed.

Lemma UpdateMemberRole_honours service ctx input c target w params db ev r db' t u :
  consistent db → uuid_in (role_TenantID input) = Some t → uuid_in t = Some t →
  uuid_in (role_UserID input) = Some u → uuid_in u = Some u →
  membership_TenantID target = t → membership_UserID target = u →
  UpdateMemberRole_params service ctx input c target w = Ok params →
  run (TenantRepository.UpdateMemberRole ctx params) db ev = (Ok r, db') →
  honours (RequestUpdateMemberRole input) db db'.
Proof.
  intros Hc Ht Hct Hu Hcu HT HU Hp Hr. unfold UpdateMemberRole_params, newTenantOutboxEvent in Hp.
  result_inv Hp. injection Hp as <-. bool_facts.
  apply UpdateMemberRole_does in Hr; [|done|done|by eapply newAggregateOutboxEvent_Ok].
  destruct Hr as (t' & Ht' & row & role & new & ob & u' & old & x & Hact & Hst & Hu' & Hold
    & HoV & Hmay & Hlast & HxR & HxV & HxC & Hst' & Hb & Hob & ->). cbn in *.
  rewrite HT, Hct in Ht'. rewrite HU, Hcu in Hu'. simplify_eq.
  destruct (acting_in _ _ _ _ _ _ _ Hact Ht Hst) as [a Ha].
  destruct Hact as (? & ? & _ & Hrow & Hv & _).
  destruct (consistent_membership _ Hc _ _ Hold) as (_ & Hmc & Hmax & _).
  destruct (membership_version_bump old x Hmc HxC Hmax) as [HxV' _]; [congruence|].
  eexists. split; [eapply promise_role_changed;
    [done|done| |by apply CanManageMember_may|]|].
  - rewrite (view_member _ _ _ Hold). by rewrite HoV.
  - intros Hown Hne. by apply other_owner_another, Hlast.
  - eapply rewritten_account; [|done..].
    replace (role_ExpectedMembershipVersion input + 1) with (membership_Version x) by congruence.
    rewrite <-HxR. by apply member_account, same_account_refl.
Qed.

Lemma RemoveMember_honours service ctx input c target w params db ev r db' :
  consistent db → RemoveMember_params service ctx input c target w = Ok params →
  run (TenantRepository.RemoveMember ctx params) db ev = (Ok r, db') →
  honours (RequestRemoveMember input) db db'.
Proof.
  intros Hc Hp Hr. unfold RemoveMember_params, newTenantOutboxEvent in Hp.
  result_inv Hp. injection Hp as <-. bool_facts.
  apply RemoveMember_does in Hr; [|done|done|by eapply newAggregateOutboxEvent_Ok].
  destruct Hr as (t & Ht & row & role & new & ob & u & old & Hact & Hst & Hu & Hold
    & HoV & Hmay & Hlast & Hst' & Hb & Hob & ->). cbn in *.
  destruct (acting_in _ _ _ _ _ _ _ Hact Ht Hst) as [a Ha].
  destruct Hact as (? & ? & _ & Hrow & Hv & _).
  eexists. split; [eapply promise_removed;
    [done|done| |by apply CanManageMember_may|]|].
  - rewrite (view_member _ _ _ Hold). by rewrite HoV.
  - intros Hown. by apply other_owner_another, Hlast.
  - eapply rewritten_account; [|done..]. by apply removed_account, same_account_refl.
Qed.

End Honours.

Section Onboarding.
Context `{PlatformLaws, ProtoLaws} `{!TenantProto}.
Implicit Types (db : tables).

(** The tenant of an earlier request is one the actor created with it. *)
Lemma sql_existing_tenant_Ok actorID requestID sc db t' :
  sql_existing_tenant actorID requestID sc db = Ok (Some t') →
  ∃ u t row, uuid_in actorID = Some u ∧ tenants db !! t = Some row ∧
    tenant_CreatedByUserID (row_Tenant row) = u ∧ row_CreationRequestID row = requestID.
Proof.
  unfold sql_existing_tenant. intros He. result_inv He. injection He as He.
  destruct (List.find _ _) as [row|] eqn:Hf; [|done].
  apply List.find_some in Hf as [Hin Hp]. bool_facts.
  apply list_elem_of_In, list_elem_of_fmap in Hin as ([t row'] & -> & Hk%elem_of_map_to_list).
  by exists v0, t, row'.
Qed.

Lemma MarkOnboardingRunning_honours service ctx tenantID operationID wid rid w params db ev r db' :
  consistent db →
  MarkOnboardingRunning_params service ctx tenantID operationID wid rid w = Ok params →
  run (TenantRepository.MarkOnboardingRunning ctx params) db ev = (Ok r, db') →
  honours (RequestMarkOnboardingRunning tenantID operationID wid rid) db db'.
Proof.
  intros Hc Hp Hr. unfold MarkOnboardingRunning_params, newOperationOutboxEvent in Hp.
  result_inv Hp. injection Hp as <-.
  unfold TenantRepository.MarkOnboardingRunning in Hr. effect_start Hr.
  select (sql_operation_running _ _ _ _ _ _ _ = _) (fun H => apply update_operation_Ok in H
    as (t & id & Ht & Hid & [(-> & _ & o & Ho & HoT & Hst & Hmax & Hchk & ->)
                            |(-> & -> & Hno)])).
  - cbn in Hr. tx_inv Hr. cbn in *.
    apply slices_Contains_true in Hst. rewrite list_elem_of_singleton in Hst.
    eexists. split; [eapply promise_running; [done|done|]|].
    + rewrite (view_operation _ _ _ Ho). congruence.
    + eapply announce_account; [by apply operation_account; [apply same_account_refl|..]|].
      eapply emitted_insert; [done..|].
      eapply newAggregateOutboxEvent_small; [done|unfold int64_max; lia].
  - select (sql_operation_by_id _ _ _ = _) (fun H =>
      destruct (service_scope_operation _ _ _ _ _ _ _ _ H Ht) as (id' & Hid' & Ho & HoT & _)).
    simplify_eq. cbn in Hr. repeat case_match; tx_inv Hr; try done. cbn in *.
    apply honours_same. eapply promise_running_before; [done|done| |].
    + rewrite (view_operation _ _ _ Ho). done.
    + rewrite orb_true_iff, !String.eqb_eq in *. rewrite !elem_of_cons. tauto.
Qed.

Lemma CompleteOnboarding_honours service ctx tenantID operationID w params db ev r db' :
  consistent db → CompleteOnboarding_params service ctx tenantID operationID w = Ok params →
  run (TenantRepository.CompleteOnboarding ctx params) db ev = (Ok r, db') →
  honours (RequestCompleteOnboarding tenantID operationID) db db'.
Proof.
  intros Hc Hp Hr. unfold CompleteOnboarding_params in Hp. result_inv Hp. injection Hp as <-.
  unfold TenantRepository.CompleteOnboarding in Hr. effect_start Hr.
  destruct (String.eqb_spec (operation_State a0) OperationStateSucceeded) as [Hs|Hs].
  { tx_inv Hr. cbn in *.
    select (sql_context _ _ _ _ _ = _) (fun H => apply sql_context_Ok in H
      as (t & u & row & m & e & Ht & Hu & Hrow & Hm & He & -> & Hscope)).
    destruct (service_scope_operation _ _ _ _ _ _ _ _ E1 Ht) as (id & Hid & Ho & HoT & _).
    apply honours_same. eapply promise_completed_before; [done|done|].
    rewrite (view_operation _ _ _ Ho). congruence. }
  unfold CompleteOnboarding_activate, newTenantOutboxEvent, queryOperationByID, queryContext in Hr.
  tx_inv Hr. bool_facts. cbn in *.
  select (sql_leave_provisioning _ _ _ _ _ = _) (fun H =>
    apply (sql_leave_provisioning_Ok _ _ _ _ _ _ _ Hc) in H
    as (t & Ht & [(_ & Hsc & row & new & Hrow & Hst & Hnew & Hb & ->)|(-> & _)])); [|done].
  select (sql_operation_succeeded _ _ _ _ _ = _) (fun H => apply update_operation_Ok in H
    as (t' & id' & Ht' & Hid' & [(-> & _ & o & Ho' & HoT' & Hos & Hmax & Hchk & ->)
                            |(-> & -> & Hno)])); simplify_eq.
  - cbn in Ho'. apply slices_Contains_true in Hos. rewrite list_elem_of_singleton in Hos.
    eexists. split; [eapply promise_completed; [done|done| |]|].
    + rewrite (view_operation _ _ _ Ho'). congruence.
    + rewrite (view_tenant _ _ _ Hrow). by rewrite Hst.
    + eapply announce_account;
        [apply (operation_account id' _ _ _ (set_tenants _ db)); [|done..];
         by eapply tenant_account; [apply same_account_refl|..]|].
      eapply emitted_insert; [done..|].
      eapply newAggregateOutboxEvent_small; [done|unfold int64_max; lia].
  - destruct (service_scope_operation _ _ _ _ _ _ _ _ E1 Ht) as (id & Hid & Ho & HoT & _).
    simplify_eq. specialize (Hno Hsc _ Ho eq_refl). apply slices_Contains_false in Hno.
    rewrite E2 in Hno. set_solver.
Qed.

Lemma FailOnboarding_honours service ctx tenantID operationID err w params db ev r db' :
  consistent db → FailOnboarding_params service ctx tenantID operationID err w = Ok params →
  run (TenantRepository.FailOnboarding ctx params) db ev = (Ok r, db') →
  honours (RequestFailOnboarding tenantID operationID err) db db'.
Proof.
  intros Hc Hp Hr. unfold FailOnboarding_params in Hp. result_inv Hp. injection Hp as <-.
  unfold TenantRepository.FailOnboarding in Hr. effect_start Hr.
  destruct (String.eqb_spec (operation_State a0) OperationStateFailed) as [Hs|Hs].
  { tx_inv Hr. cbn in *.
    select (sql_tenant _ _ _ = _) (fun H => apply sql_tenant_Ok in H
      as (t & row & Ht & Hrow & ->)).
    destruct (service_scope_operation _ _ _ _ _ _ _ _ E2 Ht) as (id & Hid & Ho & HoT & _).
    apply honours_same. eapply promise_failed_before; [done|done|].
    rewrite (view_operation _ _ _ Ho). congruence. }
  unfold FailOnboarding_record, newTenantOutboxEvent, queryOperationByID, queryTenant in Hr.
  tx_inv Hr. bool_facts. cbn in *.
  select (sql_operation_failed _ _ _ _ _ _ = _) (fun H => apply update_operation_Ok in H
    as (t & id & Ht & Hid & Hop)).
  destruct (service_scope_operation _ _ _ _ _ _ _ _ E2 Ht) as (id' & Hid' & Ho & HoT & Hsc).
  destruct (consistent_operation _ Hc _ _ Ho) as (_ & Hoc & Hnc & Hten).
  pose proof (active_or_failing _ Hoc Hnc Hs) as Hactive.
  select (sql_leave_provisioning _ _ _ _ _ = _) (fun H =>
    apply (sql_leave_provisioning_Ok _ _ _ _ _ _ _ Hc) in H
    as (t' & Ht' & Hlv)).
  simplify_eq. assert (operations db0 = operations db) as Hops.
  { by destruct Hlv as [(_ & _ & ? & ? & _ & _ & _ & _ & ->)|(_ & -> & _)]. }
  destruct Hop as [(-> & _ & o & Ho' & _ & Hst & Hmax & Hchk & ->)|(_ & -> & Hno)].
  2:{ exfalso. rewrite (Hno Hsc a0) in Hactive; [by apply Hactive in E3|congruence|done]. }
  rewrite Hops, Ho in Ho'. injection Ho' as <-. apply slices_Contains_true in Hst.
  assert (Hev : emitted (operation_TenantID a0) "tenant" 2 (outbox db0) ob).
  { eapply emitted_insert; [done..|].
    eapply newAggregateOutboxEvent_small; [done|unfold int64_max; lia]. }
  pose proof (view_operation _ _ _ Ho) as Hvo.
  destruct Hlv as [(_ & _ & row & new & Hrow & Hrs & Hnew & Hb & ->)|(_ & -> & Hlv)].
  - eexists. split; [eapply promise_failed; [done..|]|].
    + rewrite (view_tenant _ _ _ Hrow). by rewrite Hrs.
    + eapply announce_account;
        [apply (operation_account id _ _ _ (set_tenants _ db)); [|done..];
         by eapply tenant_account; [apply same_account_refl|..]|done].
  - destruct Hten as [row Hrow]. eexists. split; [eapply promise_failed_late; [done..| |]|].
    + by rewrite (view_tenant _ _ _ Hrow).
    + by apply Hlv.
    + eapply announce_account;
        [by apply operation_account; [apply same_account_refl|..]|done].
Qed.

Lemma CreateTenant_honours service ctx input w params db ev r db' :
  consistent db → CreateTenant_params service ctx input w = Ok params →
  run (TenantRepository.CreateTenant ctx params) db ev = (Ok r, db') →
  honours (RequestCreateTenant input) db db'.
Proof.
  intros Hc Hp Hr. pose proof (built_new_aggregate _ _ _ _ _ Hp) as [].
  assert (tenant_CreatedByUserID (context_Tenant (createParams_Context params))
            = create_ActorUserID input ∧ createParams_RequestID params = create_RequestID input)
    as [Hactor Hreq].
  { unfold CreateTenant_params, newTenantOutboxEvent in Hp. result_inv Hp. by injection Hp as <-. }
  unfold TenantRepository.CreateTenant in Hr. effect_start Hr.
  destruct a0 as [existing|].
  { unfold queryContext, queryOperationByTenant in Hr. tx_inv Hr. cbn.
    apply honours_same.
    select (sql_existing_tenant _ _ _ _ = _) (fun H => apply sql_existing_tenant_Ok in H
      as (u & t & row & Hu & Hrow & <- & HR)).
    eapply promise_created_before; [by rewrite <-Hactor|]. cbn. by rewrite Hrow, <-Hreq, <-HR. }
  unfold CreateTenant_insert, queryContext, queryOperationByTenant, insertMembership,
    insertOperation, applyTenantScope in Hr.
  tx_inv Hr. cbn.
  select (sql_insert_tenant _ _ _ _ = _) (fun H => apply sql_insert_tenant_Ok in H
    as (t & u & row & Ht & Hu & Hfresh & Hfreq & HT & HU & Hst & Hv & Hchk & ->)).
  select (sql_insert_membership _ _ _ = _) (fun H => apply sql_insert_membership_Ok in H
    as (t' & u' & m & Ht' & Hu' & Hmf & _ & HmT & HmU & HmR & HmV & HmC & ->)).
  select (sql_insert_entitlements _ _ _ = _) (fun H => apply sql_insert_entitlements_Ok in H
    as (t2 & e & Ht2 & HeT & ->)).
  select (sql_insert_operation _ _ _ = _) (fun H => apply sql_insert_operation_Ok in H
    as (id & t3 & o & Hid & Ht3 & Hof & Hone & HoI & HoT & HoS & HoV & HoC & ->)).
  cbn in *. rewrite new_membership_tenant, new_membership_user in *.
  rewrite new_operation_tenant in Ht3.
  assert (t3 = t ∧ t' = t ∧ u' = u) as (-> & -> & ->) by (split_and!; congruence).
  clear E. rewrite Hactor, Hreq in *.
  eexists. split; [eapply promise_created with (id := id); [done|..]|].
  - cbn. by rewrite Hfresh.
  - cbn. by rewrite Hof.
  - intros id' s. cbn. destruct (operations db !! id') as [x|] eqn:Hx; [|done].
    intros [= HxT _]. by eapply Hone.
  - intros t''. cbn. destruct (tenants db !! t'') as [x|] eqn:Hx; [|done].
    intros [= HxU HxR]. by eapply Hfreq.
  - eapply (announce_account _ _ _ ob (set_operations _ (set_memberships _ (set_tenants _ db))));
      [|by eapply emitted_insert].
    apply (operation_account _ _ _ _ (set_memberships _ (set_tenants _ db))); [|done|congruence].
    rewrite <-new_membership_owner, <-new_membership_version, <-HmR, <-HmV.
    apply (member_account _ _ _ (set_tenants _ db)).
    apply created_account; [apply same_account_refl|done|done|congruence].
Qed.

End Onboarding.

(** ** The use cases perform their promises *)

Section Served.
Context `{PlatformLaws, ProtoLaws} `{!TenantProto}.
Variable service : Service.
Context (w : world tables) (db0 : tables).
Hypothesis found_consistent : ∀ k, consistent (interfered w db0 k).

(** What a use case knows from the context it read first. *)
Definition context_read (actorID tenantID : string) (c : TenantContext) (k : nat) : Prop :=
  ∃ t u row m, uuid_in tenantID = Some t ∧ uuid_in actorID = Some u ∧ uuid_in t = Some t ∧
    tenants (interfered w db0 k) !! t = Some row ∧ tenant_ID (row_Tenant row) = t ∧
    memberships (interfered w db0 k) !! (t, u) = Some m ∧
    context_Tenant c = row_Tenant row ∧
    membership_Role (context_Membership c) = membership_Role m.

Lemma reads_GetTenantContext k ctx actorID tenantID :
  reads w db0 k (GetTenantContext ctx actorID tenantID) (context_read actorID tenantID).
Proof.
  unfold GetTenantContext. eapply (reads_bind _ _ _ _ _ (λ _ _, True)); [by apply reads_pure|].
  intros _ k1 _. eapply reads_bind; [apply reads_call; [apply _|]|].
  { intros c db' Hr. unfold TenantRepository.GetTenantContext in Hr. effect_start Hr.
    select (sql_context _ _ _ _ _ = _) (fun H => apply sql_context_Ok in H
      as (t & u & row & m & e & Ht & Hu & Hrow & Hm & He & -> & _)).
    destruct (consistent_tenant _ (found_consistent (S k1)) _ _ Hrow) as (HT & _ & Hcan & _).
    assert (Hctx : context_read actorID tenantID (context_of (row_Tenant row) m e) (S k1)).
    { exists t, u, row, m. by split_and!. }
    exact Hctx. }
  intros c k2 Hc. eapply (reads_bind _ _ _ _ _ (λ _ k, context_read actorID tenantID c k));
    [by apply reads_pure|].
  intros _ k3 Hc3. by apply reads_ret.
Qed.

Definition member_read (tenantID userID : string) (m : Membership) (k : nat) : Prop :=
  ∃ t u, uuid_in tenantID = Some t ∧ uuid_in t = Some t ∧ uuid_in userID = Some u ∧
    uuid_in u = Some u ∧ membership_TenantID m = t ∧ membership_UserID m = u.

Lemma reads_GetMembership k ctx tenantID userID :
  reads w db0 k (call (GetMembership ctx tenantID userID)) (member_read tenantID userID).
Proof.
  apply reads_call; [apply _|]. intros m db' Hr. unfold GetMembership in Hr. effect_start Hr.
  select (sql_membership _ _ _ _ _ = _) (fun H => apply sql_membership_Ok in H
    as (t & u & Ht & Hu & Hm)).
  destruct (consistent_membership _ (found_consistent (S k)) _ _ Hm) as ([= HT HU] & _).
  exists t, u. split_and!; [done| |done| |done|done]; by eapply uuid_in_canonical.
Qed.

(** The one mutation of a use case, with the parameters it computed. *)
Ltac mutating :=
  cbv beta in *; apply performs_call; [apply _|intros ? ? Hrun].

Lemma served_create ctx input :
  performs w db0 0 (CreateTenant service ctx input) (honours (RequestCreateTenant input)).
Proof.
  unfold CreateTenant. eapply performs_bind.
  { apply (reads_pure _ _ _ _ (λ a _, CreateTenant_params service ctx input w = Ok a)). auto. }
  intros params k Hp. mutating. by eapply CreateTenant_honours; [apply found_consistent|..].
Qed.

Lemma served_update ctx input :
  performs w db0 0 (UpdateTenant service ctx input) (honours (RequestUpdateTenant input)).
Proof.
  unfold UpdateTenant. eapply performs_bind; [apply reads_GetTenantContext|].
  intros c k (t & u & row & m & Ht & Hu & Hcan & Hrow & HT & Hm & Hct & Hcm).
  eapply performs_bind.
  { apply (reads_pure _ _ _ _ (λ a _, UpdateTenant_params service ctx input c w = Ok a)). auto. }
  intros params k2 Hp. mutating. by eapply UpdateTenant_honours; [apply found_consistent|..].
Qed.

Lemma served_archive ctx actorID tenantID v :
  performs w db0 0 (ArchiveTenant service ctx actorID tenantID v)
    (honours (RequestArchiveTenant actorID tenantID v)).
Proof.
  unfold ArchiveTenant. eapply performs_bind; [apply reads_GetTenantContext|].
  intros c k (t & u & row & m & Ht & Hu & Hcan & Hrow & HT & Hm & Hct & Hcm).
  eapply performs_bind.
  { apply (reads_pure _ _ _ _ (λ a k', k' = k ∧
      ArchiveTenant_params service ctx actorID tenantID v c w = Ok a)). auto. }
  intros [params|] k2 [-> Hp]; [mutating; by eapply ArchiveTenant_honours; [apply found_consistent|..]|].
  apply reads_performs, reads_ret, honours_same.
  unfold ArchiveTenant_params in Hp. result_inv Hp.
  destruct (String.eqb_spec (tenant_Status (context_Tenant c)) StatusArchived) as [Hst|];
    [|by result_inv Hp]. bool_facts. rewrite Hct in *.
  eapply promise_archived_before; [done|done| |].
  - rewrite (view_tenant _ _ _ Hrow). congruence.
  - rewrite (view_member _ _ _ Hm), <-Hcm. by rewrite (CanArchiveTenant_roles _ E).
Qed.

Lemma served_add ctx input :
  performs w db0 0 (AddMember service ctx input) (honours (RequestAddMember input)).
Proof.
  unfold AddMember. eapply (performs_bind _ _ _ _ _ (λ _ _, True)); [by apply reads_pure|].
  intros _ k1 _. eapply performs_bind; [apply reads_GetTenantContext|]. intros c k _.
  eapply performs_bind.
  { apply (reads_pure _ _ _ _ (λ a _, AddMember_params service ctx input c w = Ok a)). auto. }
  intros params k2 Hp. apply performs_then. mutating. by eapply AddMember_honours; [apply found_consistent|..].
Qed.

Lemma served_role ctx input :
  performs w db0 0 (UpdateMemberRole service ctx input)
    (honours (RequestUpdateMemberRole input)).
Proof.
  unfold UpdateMemberRole. eapply (performs_bind _ _ _ _ _ (λ _ _, True)); [by apply reads_pure|].
  intros _ k1 _. eapply performs_bind; [apply reads_GetTenantContext|]. intros c k _.
  eapply performs_bind; [apply reads_GetMembership|].
  intros target k3 (t & u & Ht & Hct & Hu & Hcu & HT & HU).
  eapply performs_bind.
  { apply (reads_pure _ _ _ _ (λ a _,
      UpdateMemberRole_params service ctx input c target w = Ok a)). auto. }
  intros params k4 Hp. apply performs_then. mutating. by eapply UpdateMemberRole_honours; [apply found_consistent|..].
Qed.

Lemma served_remove ctx input :
  performs w db0 0 (RemoveMember service ctx input) (honours (RequestRemoveMember input)).
Proof.
  unfold RemoveMember. eapply performs_bind; [apply reads_GetTenantContext|]. intros c k _.
  eapply performs_bind; [apply reads_GetMembership|]. intros target k3 _.
  eapply performs_bind.
  { apply (reads_pure _ _ _ _ (λ a _,
      RemoveMember_params service ctx input c target w = Ok a)). auto. }
  intros params k4 Hp. apply (performs_then _ _ _ _ (λ _, _)). mutating. by eapply RemoveMember_honours; [apply found_consistent|..].
Qed.

Lemma served_running ctx tenantID operationID wid rid :
  performs w db0 0 (MarkOnboardingRunning service ctx tenantID operationID wid rid)
    (honours (RequestMarkOnboardingRunning tenantID operationID wid rid)).
Proof.
  unfold MarkOnboardingRunning. eapply performs_bind.
  { apply (reads_pure _ _ _ _ (λ a _,
      MarkOnboardingRunning_params service ctx tenantID operationID wid rid w = Ok a)). auto. }
  intros params k Hp. mutating. by eapply MarkOnboardingRunning_honours; [apply found_consistent|..].
Qed.

Lemma served_complete ctx tenantID operationID :
  performs w db0 0 (CompleteOnboarding service ctx tenantID operationID)
    (honours (RequestCompleteOnboarding tenantID operationID)).
Proof.
  unfold CompleteOnboarding. eapply performs_bind.
  { apply (reads_pure _ _ _ _ (λ a _,
      CompleteOnboarding_params service ctx tenantID operationID w = Ok a)). auto. }
  intros params k Hp. mutating. by eapply CompleteOnboarding_honours; [apply found_consistent|..].
Qed.

Lemma served_fail ctx tenantID operationID err :
  performs w db0 0 (FailOnboarding service ctx tenantID operationID err)
    (honours (RequestFailOnboarding tenantID operationID err)).
Proof.
  unfold FailOnboarding. eapply performs_bind.
  { apply (reads_pure _ _ _ _ (λ a _,
      FailOnboarding_params service ctx tenantID operationID err w = Ok a)). auto. }
  intros params k Hp. mutating. by eapply FailOnboarding_honours; [apply found_consistent|..].
Qed.

(** A use case that only reads. *)
Lemma performs_read {A} (m : Usecase.app tables error A) req :
  is_read req = true → reads w db0 0 m (λ _ _, True) → performs w db0 0 m (honours req).
Proof.
  intros Hreq Hm. apply reads_performs. eapply reads_weaken; [exact Hm|].
  intros _ k _. by apply honours_same, promise_read.
Qed.

End Served.

(** Every transaction of the rest of the use case only reads. *)
Ltac reads_only :=
  repeat first
    [ progress cbv zeta | by apply reads_ret | by apply reads_pure
    | by (apply reads_call; [apply _|]) | by (apply reads_try_call, _)
    | by (eapply reads_weaken; [by apply reads_GetTenantContext|done])
    | eapply (reads_bind _ _ _ _ _ (λ _ _, True)); [|intros ? ? _]
    | progress case_match ].

Section Properties.
Context `{PlatformLaws, ProtoLaws} `{!TenantProto}.

Lemma reachable_steps service db db' :
  reachable service db → rtc (step service) db db' → reachable service db'.
Proof.
  intros Hdb Hsteps. induction Hsteps as [|db db1 db2 Hstep _ IH]; [done|].
  apply IH. by eapply reachable_step.
Qed.

Lemma interfered_reachable service w db k :
  interferes_by_steps service w → reachable service db → reachable service (interfered w db k).
Proof.
  intros Hw Hdb. induction k as [|k IH]; [done|]. by eapply reachable_steps; [|apply Hw].
Qed.

(** What is performed from the first transaction on is what the call does. *)
Lemma performs_serve {A} (m : Usecase.app tables error A) w db (P : tables → tables → Prop) :
  performs w db 0 m P → ∃ n,
    match forget (perform m w db) with
    | (Ok _, db') => P (interfered w db n) db'
    | (Err _, db') => db' = interfered w db n
    end.
Proof.
  intros Hm. unfold perform. destruct (m w (0%nat, db)) as [r s'] eqn:Hr.
  exists s'.1. specialize (Hm _ _ Hr). by destruct r.
Qed.

Lemma serve_performs service ctx req w db :
  (∀ k, consistent (interfered w db k)) → ∃ n,
    match serve service ctx req w db with
    | (Ok _, db') => honours req (interfered w db n) db'
    | (Err _, db') => db' = interfered w db n
    end.
Proof.
  intros Hc. destruct req; cbn [serve]; apply performs_serve;
    first [ by apply served_create | by apply served_update | by apply served_archive
          | by apply served_add | by apply served_role | by apply served_remove
          | by apply served_running | by apply served_complete | by apply served_fail
          | apply performs_read; [done|] ];
    unfold ListTenants, ListMembers, GetMember, CheckAuthorization, BatchCheckAuthorization,
      GetOperation; reads_only.
Qed.

(** C14 (each request honours its contract). A request served from a reachable state, with
    other calls and the relay running between its transactions and with whatever failures,
    either is refused and changes nothing, or does to the tables as it finds them at its last
    transaction what [promise] says, on the account of statuses, versions, roles, operations
    and events that [view] reads off the tables, and nothing else on it: only an active tenant
    is updated and only by an owner or an administrator; only an owner archives it; only who
    may manage the roles concerned adds, changes or removes a member; an owner only goes when
    another stays; each such change moves the tenant to the next version and announces
    exactly that version; onboarding moves as its operation allows; a repeated request finds
    its outcome and changes nothing; and reads change nothing. *)
Theorem use_cases_refine service ctx req w db :
  interferes_by_steps service w → reachable service db →
  ∃ n, let pre := interfered w db n in
    reachable service pre ∧
    match serve service ctx req w db with
    | (Ok _, db') => honours req pre db'
    | (Err _, db') => db' = pre
    end.
Proof.
  intros Hw Hdb. pose proof (λ k, interfered_reachable service w db k Hw Hdb) as Hr.
  destruct (serve_performs service ctx req w db) as [n Hn].
  2:{ exists n. split; [apply Hr|exact Hn]. }
  intros k. by destruct (invariant_reachable _ _ (Hr k)).
Qed.

Lemma validateBatchInput_Ok actor tenantID permissions :
  validateBatchInput actor tenantID permissions = Ok tt →
  validateUUID actor = Ok tt ∧ validateUUID tenantID = Ok tt ∧
  Forall (λ p, IsKnownPermission p = true) permissions.
Proof.
  unfold validateBatchInput. intros Hv. result_inv Hv. bool_facts.
  repeat match goal with u : unit |- _ => destruct u end.
  apply fail_if_Ok in Hv. bool_facts.
  split_and!; [done..|]. apply Forall_forall. rewrite forallb_forall in Hv.
  intros p Hp. by apply Hv, list_elem_of_In.
Qed.

(** A batch of checks is its single checks. When the batch answers, the
    answer for each permission is what a single check would answer, in the same
    order, for any tables and any failures. *)
Theorem batch_check_pointwise ctx actor tenantID permissions w db decisions db' :
  perform (BatchCheckAuthorization ctx actor tenantID permissions) w db
    = (Ok decisions, db') →
  Forall2 (λ p d, perform (CheckAuthorization ctx actor tenantID p) w db = (Ok d, db'))
    permissions decisions.
Proof.
  unfold perform, BatchCheckAuthorization, CheckAuthorization, mbind, app_bind, pure.
  destruct (validateBatchInput _ _ _) as [[]|] eqn:Hv; [|done].
  apply validateBatchInput_Ok in Hv as (Ha & Ht & Hk).
  assert (Hall : ∀ f : Permission → AuthorizationDecision, Forall2 (λ p d,
    validateAuthorizationInput actor tenantID p = Ok tt ∧ d = f p)
    permissions (f <$> permissions)).
  { intros f. clear -Hk Ha Ht. unfold validateAuthorizationInput. rewrite Ha, Ht. cbn.
    induction Hk as [|p ps Hp _ IH]; constructor; [by rewrite Hp|done]. }
  unfold try_call. destruct (run _ _ _) as [r db1]. cbn.
  destruct r as [c|[]]; cbn; intros Hd; simplify_eq;
    (eapply Forall2_impl; [apply Hall|]); intros p d [-> ->]; done.
Qed.

(** The tenant scope of a well-formed identifier. *)
Lemma tenant_scope_scoped tenantID p q r sc t :
  rls_of (TenantScope tenantID p q r) = Ok sc → uuid_in tenantID = Some t →
  tenant_scoped sc t = true.
Proof.
  unfold rls_of. intros Hr Ht. result_inv Hr. injection Hr as <-.
  cbn in E. rewrite (uuid_in_trimmed _ _ Ht) in E. unfold rls_setting in E.
  destruct (String.eqb_spec tenantID "") as [->|].
  - by rewrite uuid_in_empty in Ht.
  - rewrite Ht in E. cbn in E. injection E as <-. cbn. apply String.eqb_refl.
Qed.

(** A member's context is never reported as absent. *)
Lemma GetTenantContext_found ctx tenantID actor db ev t u db' :
  consistent db → uuid_in tenantID = Some t → uuid_in actor = Some u →
  run (TenantRepository.GetTenantContext ctx tenantID actor) db ev = (Err ErrNotFound, db') →
  ∀ row m, tenants db !! t = Some row → memberships db !! (t, u) = Some m → False.
Proof.
  intros Hc Ht Hu Hr row m Hrow Hm. unfold run in Hr.
  destruct (TenantRepository.GetTenantContext _ _ _ _) as [r s] eqn:Hg. simplify_eq.
  unfold TenantRepository.GetTenantContext, beginTenant, queryContext in Hg.
  apply tx_bind_Err in Hg as [[x [=]]%Begin_Err|(u1 & s1 & Hb & Hg)].
  apply Begin_Ok in Hb as (_ & Hdb & Hsc & _).
  apply tx_bind_Err in Hg
    as [Hq|(c & s2 & _ & [(? & [=] & _)%commit_Err|(? & ? & _ & [=])]%tx_bind_Err)].
  apply map_err_Err in Hq as (e & (x & -> & [[->| ->]|Hx])%query_Err & He); [done..|].
  rewrite Hdb, Hsc in Hx. cbn in Hx, Hdb. subst.
  assert (x = ErrNoRows) as -> by (by destruct x).
  destruct (consistent_tenant _ Hc _ _ Hrow) as [HT _].
  destruct (consistent_membership _ Hc _ _ Hm) as [HMT _]. injection HMT as HMT HMU.
  destruct (proj1 (consistent_entitlements _ Hc t)) as [e He']; [by exists row|].
  unfold sql_context in Hx.
  destruct (rls_of _) as [sc|x] eqn:Hr;
    [|apply rls_of_Err in Hr; subst x; discriminate Hx].
  unfold cast in Hx. rewrite Ht, Hu in Hx. cbn in Hx. rewrite Hrow, Hm, He' in Hx.
  pose proof (tenant_scope_scoped _ _ _ _ _ _ Hr Ht) as Hscoped.
  unfold visible_tenant, visible_membership, visible_entitlements in Hx.
  by rewrite HT, HMT, (consistent_entitlements_key _ Hc _ _ He'), Hscoped in Hx.
Qed.

(** What an authorization check answers. When a check on a reachable state
    answers, it grants the permission exactly when the actor has a membership in
    the tenant and the permission is effective for the role and the status the
    tables hold; an actor without a membership is refused, not reported as an
    error. *)
Theorem authorization_check_correct service ctx actor tenantID p w db d db' t u :
  reachable service (world_interfere w 0%nat db) →
  uuid_in tenantID = Some t → uuid_in actor = Some u →
  perform (CheckAuthorization ctx actor tenantID p) w db = (Ok d, db') →
  decision_Allowed d = true ↔
  ∃ row m, tenants db' !! t = Some row ∧ memberships db' !! (t, u) = Some m ∧
    p ∈ EffectivePermissions (tenant_Status (row_Tenant row)) (membership_Role m).
Proof.
  intros [Hc _ _ _]%invariant_reachable Ht Hu.
  unfold perform, CheckAuthorization, mbind, app_bind, pure.
  destruct (validateAuthorizationInput _ _ _) as [[]|]; [|done].
  unfold try_call. set (db0 := world_interfere w _ db) in *.
  pose proof (run_readonly (TenantRepository.GetTenantContext ctx tenantID actor) db0
    (world_env w 0%nat) _) as Hro. cbn in Hro |- *.
  destruct (run _ _ _) as [r db1] eqn:Hr. cbn in Hro. subst db1.
  destruct r as [c|e]; cbn.
  - intros [= <- <-]. unfold TenantRepository.GetTenantContext in Hr. effect_start Hr.
    select (sql_context _ _ _ _ _ = _) (fun H => apply sql_context_Ok in H
      as (t' & u' & row & m & e & Ht' & Hu' & Hrow & Hm & He & -> & _)). simplify_eq.
    rewrite authorization_matches_effective_permissions, slices_Contains_true. cbn.
    split; [eauto|]. intros (row' & m' & ? & ? & ?). by simplify_eq.
  - destruct (decide (e = ErrNotFound)) as [->|Hne]; [|by destruct e].
    intros [= <- <-]. cbn. split; [done|]. intros (row & m & Hrow & Hm & _).
    exfalso.
    exact (GetTenantContext_found _ _ _ _ _ _ _ _ Hc Ht Hu Hr _ _ Hrow Hm).
Qed.

End Properties.

#[local] Existing Instance concrete_platform.
#[local] Existing Instance concrete_platform_laws.
#[local] Existing Instance concrete_proto.
#[local] Existing Instance concrete_proto_laws.
#[local] Existing Instance concrete_tenant_proto.

Lemma scenario_world_interferes n : interferes_by_steps scenario_service (scenario_world n).
Proof. intros k db. reflexivity. Qed.

Lemma use_cases_refine_witness :
  let req := RequestCreateTenant (create_input "acme" "r") in
  ∃ pre db', reachable scenario_service pre ∧
    serve scenario_service scenario_ctx req (scenario_world 1) no_tables = (Ok tt, db') ∧
    honours req pre db' ∧ ab_announced (view db') = ab_announced (view pre) + 1.
Proof.
  intros req.
  destruct (use_cases_refine scenario_service scenario_ctx req (scenario_world 1) no_tables
    (scenario_world_interferes 1) (reachable_start _)) as (n & Hpre & Hn).
  exists (interfered (scenario_world 1) no_tables n). revert Hpre Hn.
  assert (Hsame : interfered (scenario_world 1) no_tables n = no_tables)
    by (clear; induction n as [|n IH]; [done|exact IH]).
  rewrite Hsame. intros Hpre Hn.
  assert (Hok : (serve scenario_service scenario_ctx req (scenario_world 1) no_tables).1 = Ok tt)
    by (vm_compute; reflexivity).
  assert (Hev : outbox_next (outbox
    (serve scenario_service scenario_ctx req (scenario_world 1) no_tables).2) = 1 + 1)
    by (vm_compute; reflexivity).
  destruct (serve _ _ _ _ _) as [[[]|] db']; [|done]. exists db'. by split_and!.
Defined.

(** A batch about an administrator. *)
Lemma batch_check_pointwise_witness :
  let batch := perform (BatchCheckAuthorization scenario_ctx owner1 tenant1
    [PermissionMemberAdd; PermissionTenantArchive]) (scenario_world 1) db_demoted in
  ∃ decisions, batch.1 = Ok decisions ∧
    Forall2 (λ p d, perform (CheckAuthorization scenario_ctx owner1 tenant1 p)
      (scenario_world 1) db_demoted = (Ok d, db_demoted))
      [PermissionMemberAdd; PermissionTenantArchive] decisions.
Proof.
  intros batch. eexists. split; [vm_compute; reflexivity|].
  eapply (batch_check_pointwise scenario_ctx). vm_compute. reflexivity.
Defined.

Lemma authorization_check_correct_witness : ∃ d,
  perform (CheckAuthorization scenario_ctx owner1 tenant1 PermissionTenantArchive)
    (scenario_world 1) db_demoted = (Ok d, db_demoted) ∧
  (decision_Allowed d = true ↔
   ∃ row m, tenants db_demoted !! tenant1 = Some row ∧
     memberships db_demoted !! (tenant1, owner1) = Some m ∧
     PermissionTenantArchive
       ∈ EffectivePermissions (tenant_Status (row_Tenant row)) (membership_Role m)).
Proof.
  eexists. split; [vm_compute; reflexivity|].
  eapply (authorization_check_correct scenario_service scenario_ctx owner1 tenant1 _
    (scenario_world 1) db_demoted); [apply db_demoted_reachable|vm_compute; reflexivity..].
Defined.

(** ** The relay on a concrete outbox

    The properties of [OutboxProperties] at work on the outbox that the history of
    [TenantScenario] leaves. *)

(** Keep the history folded except in [vm_compute]. *)
#[local] Strategy opaque [db_two_owners].

Definition example_config : relay_config := {|
  config_BatchSize := 10; config_PollInterval := second; config_Lease := 30 * second;
  config_MaxBackoff := 60 * second |}.

(** Everything works, time is [clock]. *)
Definition healthy (clock : Z) : relay_env := {|
  re_clock := clock; re_locked _ := false; re_arrange l := l;
  re_broker _ := Acknowledged; re_span := ""; re_claim_ok := true; re_mark_ok _ := true;
  re_release_ok _ := true; re_error _ := "" |}.

Definition example_state : relay_state :=
  {| rs_outbox := outbox db_two_owners; rs_log := [] |}.

Definition example_candidates (clock : Z) (ob : outbox_table) : list (Z * outbox_row) :=
  claim_candidates clock (config_Lease example_config) 1 (λ _, false) ob.

(** Two relays claim one row each, a second apart. *)
Lemma claim_exclusive_witness : ∃ x y,
  x ∈ example_candidates 2000 (outbox db_two_owners) ∧
  y ∈ example_candidates (2000 + second)
        (ClaimOutbox id 2000 (config_Lease example_config) 1 (λ _, false)
           (outbox db_two_owners)).2 ∧ y.1 ≠ x.1.
Proof.
  assert (∃ x, example_candidates 2000 (outbox db_two_owners) = [x]) as [x Hx]
    by (eexists; vm_compute; reflexivity).
  assert (∃ y, example_candidates (2000 + second)
        (ClaimOutbox id 2000 (config_Lease example_config) 1 (λ _, false)
           (outbox db_two_owners)).2 = [y]) as [y Hy] by (eexists; vm_compute; reflexivity).
  exists x, y. split_and!; [rewrite Hx; left|rewrite Hy; left|].
  eapply (claim_exclusive id 2000 (2000 + second) (config_Lease example_config) 1 1
    (λ _, false) (λ _, false) (outbox db_two_owners)).
  - unfold example_candidates in Hx. rewrite Hx. left.
  - unfold example_candidates in Hy. rewrite Hy. left.
  - vm_compute. discriminate.
Defined.

Lemma published_is_logged_witness :
  delivered (processBatch example_config (healthy 2000) example_state).2.
Proof.
  eapply (published_is_logged example_config (healthy 2000) example_state);
    [done| |apply surjective_pairing].
  intros k row Hrow Hp. exfalso.
  assert (forallb (λ x, negb (is_some (outbox_PublishedAt x.2)))
            (map_to_list (outbox_rows (outbox db_two_owners))) = true) as Hall
    by (vm_compute; reflexivity).
  rewrite forallb_forall in Hall.
  unfold example_state in Hrow. cbn [rs_outbox] in Hrow.
  apply elem_of_map_to_list, list_elem_of_In, Hall in Hrow. cbn in Hrow.
  by destruct (outbox_PublishedAt row), Hp.
Defined.

(** The records of the first batch. *)
Definition example_claim : list OutboxRecord :=
  (ClaimOutbox (re_arrange (healthy 2000)) (re_clock (healthy 2000))
     (config_Lease example_config) (config_BatchSize example_config)
     (re_locked (healthy 2000)) (rs_outbox example_state)).1.

Lemma healthy_batch_publishes_witness : ∃ record, record ∈ example_claim ∧
  marked 2000 (record_OutboxID record)
    (rs_outbox (processBatch example_config (healthy 2000) example_state).2).
Proof.
  destruct example_claim as [|record l] eqn:Hl; [by vm_compute in Hl|].
  exists record. split; [left|].
  refine (healthy_batch_publishes example_config (healthy 2000) example_state _ _ record
    (λ l, Permutation_refl l) eq_refl (λ _, eq_refl) (λ _, eq_refl)
    (surjective_pairing _) _ _).
  { change (record ∈ example_claim). rewrite Hl. left. }
  vm_compute in Hl. injection Hl as <- _. eexists.
  split_and!; [vm_compute; reflexivity|vm_compute; discriminate|vm_compute; reflexivity|].
  intros. by eexists.
Defined.

Lemma backoff_bounds_witness :
  0 < backoff example_config 3 ≤ 60 * second ∧
  backoff example_config 3 ≤ backoff example_config 9.
Proof. apply (backoff_bounds example_config 3 9); [reflexivity|lia]. Defined.
