(* ===== verification/PolicyEngine.v ===== *)
(** * Policy approval: domain and evaluation engine

    Models [services/policy-approval/internal/domain] ([models.go],
    [errors.go]) and the evaluation engine of the application layer. *)

From S2P Require Import Prelude GoStrings Postgres.
From stdpp Require Import strings list gmap pretty.
From Stdlib Require Import String Lia Ascii.
Open Scope string_scope.
Open Scope list_scope.
Open Scope Z_scope.

(** ** errors.go

    [ErrDatabase] is an error of the database that the repository passes on
    unmapped, [ErrInternal] every other failure without a sentinel. *)
Inductive error :=
| ErrInvalidArgument
| ErrNotFound
| ErrForbidden
| ErrTenantNotActive
| ErrConflict
| ErrVersionConflict
| ErrInvalidExpression
| ErrExpressionCostExceeded
| ErrInvalidConstraint
| ErrPolicyNotActive
| ErrInvalidTransition
| ErrDecisionMismatch
| ErrDatabase (e : db_error)
| ErrInternal.

#[global] Instance error_eq_dec : EqDecision error.
Proof. solve_decision. Defined.
#[global] Instance policy_db_error : DbError error := ErrDatabase.

(** ** models.go *)

Definition ScopeType := string.
Definition ScopeTenant : ScopeType := "tenant".
Definition ScopeCompany : ScopeType := "company".
Definition ScopeAgent : ScopeType := "agent".

Definition PolicyStatus := string.
Definition PolicyStatusDraft : PolicyStatus := "draft".
Definition PolicyStatusActive : PolicyStatus := "active".
Definition PolicyStatusArchived : PolicyStatus := "archived".

Definition Effect := string.
Definition EffectAllow : Effect := "allow".
Definition EffectDeny : Effect := "deny".
Definition EffectRequireApproval : Effect := "require_approval".
Definition EffectAllowWithConstraints : Effect := "allow_with_constraints".

Definition Risk := string.
Definition RiskLow : Risk := "low".
Definition RiskMedium : Risk := "medium".
Definition RiskHigh : Risk := "high".
Definition RiskCritical : Risk := "critical".

Definition SubjectType := string.
Definition SubjectUser : SubjectType := "user".
Definition SubjectAgent : SubjectType := "agent".
Definition SubjectService : SubjectType := "service".

(** [time.Time] values are instants, as an integer number of nanoseconds. *)
Definition Time := Z.

Record Constraints := {
  MaxCostMicroUSD : option Z;
  MaxRuntimeSeconds : option Z;
  AllowedDomains : list string;
  AllowedResourceIDs : list string;
  RequireHumanReview : bool;
}.

(** The zero value. *)
Definition no_constraints : Constraints := {|
  MaxCostMicroUSD := None; MaxRuntimeSeconds := None; AllowedDomains := [];
  AllowedResourceIDs := []; RequireHumanReview := false |}.

#[global] Instance Constraints_eq_dec : EqDecision Constraints.
Proof. solve_decision. Defined.

(** Decoded JSON objects ([map[string]any] obtained from [structpb]), and
    [pg_column_size] of them and of constraints in a [jsonb] column. *)
Class Json := {
  json_object : Type;
  json_column_size : json_object → Z;
  constraints_column_size : Constraints → Z;
}.

Record Rule := {
  rule_ID : string;
  rule_Priority : Z;
  rule_Name : string;
  rule_Enabled : bool;
  rule_Effect : Effect;
  rule_ActionPatterns : list string;
  rule_ResourceTypes : list string;
  rule_RiskLevels : list Risk;
  rule_MaximumEstimatedCostMicroUSD : option Z;
  rule_Condition : string;
  rule_Constraints : Constraints;
  rule_Reason : string;
}.

Record Policy := {
  policy_TenantID : string;
  policy_ID : string;
  policy_ScopeType : ScopeType;
  policy_ScopeID : option string;
  policy_Name : string;
  policy_Description : string;
  policy_Status : PolicyStatus;
  policy_ActivePolicyVersion : option Z;
  policy_ResourceVersion : Z;
  policy_CreatedByUserID : string;
  policy_CreatedAt : Time;
  policy_UpdatedAt : Time;
  policy_ArchivedAt : option Time;
}.

Record PolicyVersion := {
  version_TenantID : string;
  version_PolicyID : string;
  version_PolicyVersion : Z;
  version_DefaultEffect : Effect;
  version_Rules : list Rule;
  version_Notes : string;
  version_CreatedByUserID : string;
  version_CreatedAt : Time;
  version_ActivatedAt : option Time;
}.

Record ActiveBundle := {
  bundle_Policy : Policy;
  bundle_Version : PolicyVersion;
}.

Record Subject := {
  subject_Type : SubjectType;
  subject_ID : string;
  subject_CompanyID : option string;
  subject_AgentAutonomy : string;
  subject_AgentStatus : string;
  subject_AgentCapabilities : list string;
  subject_AgentVersion : Z;
}.

Section Models.
Context `{Json}.

(** A nil map is [None]. *)
Record Resource := {
  resource_Type : string;
  resource_ID : string;
  resource_Attributes : option json_object;
}.

Record EvaluationInput := {
  input_RequestID : string;
  input_TenantID : string;
  input_CallerService : string;
  input_Subject : Subject;
  input_Action : string;
  input_Resource : Resource;
  input_Risk : Risk;
  input_EstimatedCostMicroUSD : Z;
  input_Context : option json_object;
}.

Record Decision := {
  decision_ID : string;
  decision_RequestID : string;
  decision_TenantID : string;
  decision_CallerService : string;
  decision_Subject : Subject;
  decision_Action : string;
  decision_Resource : Resource;
  decision_Risk : Risk;
  decision_EstimatedCostMicroUSD : Z;
  decision_Effect : Effect;
  decision_Constraints : Constraints;
  decision_Reason : string;
  decision_MatchedPolicyID : option string;
  decision_MatchedPolicyVersion : option Z;
  decision_MatchedRuleID : option string;
  decision_InputHash : string;
  decision_DecidedAt : Time;
  decision_ExpiresAt : Time;
  decision_SigningKeyID : string;
  decision_Signature : string;
}.

End Models.

(** ** The evaluation engine

    Models [services/policy-approval/internal/engine]: action patterns and the
    rule prefilter ([matcher.go]), the merge of constraints ([constraints.go]),
    the cache of compiled CEL expressions ([cel.go]) and the restrictive
    combination of policies ([evaluator.go]). *)

(** ** matcher.go *)

Definition ValidateActionPattern (pattern : string) : result error unit :=
  let pattern := TrimSpace pattern in
  fail_if (String.eqb pattern "" || (256 <? len pattern)) ErrInvalidArgument;;
  fail_if (1 <? CountByte "*"%char pattern) ErrInvalidArgument;;
  fail_if ((0 <? CountByte "*"%char pattern) && negb (HasSuffix pattern "*"))
    ErrInvalidArgument.

Definition ActionMatches (pattern action : string) : bool :=
  if HasSuffix pattern "*" then HasPrefix action (TrimSuffix pattern "*")
  else String.eqb pattern action.

(** [values] is empty or holds [value]. *)
Definition unrestricted_or_contains (values : list string) (value : string) : bool :=
  match values with [] => true | _ => slices_Contains values value end.

Definition RuleMatchesPrefilter `{Json} (rule : Rule) (input : EvaluationInput) : bool :=
  existsb (λ pattern, ActionMatches pattern (input_Action input))
    (rule_ActionPatterns rule)
  && unrestricted_or_contains (rule_ResourceTypes rule)
       (resource_Type (input_Resource input))
  && unrestricted_or_contains (rule_RiskLevels rule) (input_Risk input)
  && match rule_MaximumEstimatedCostMicroUSD rule with
     | Some maximum => negb (maximum <? input_EstimatedCostMicroUSD input)
     | None => true
     end.

(** ** constraints.go *)

Definition minimumInt64 (left right : option Z) : option Z :=
  match left, right with
  | None, _ => right
  | _, None => left
  | Some l, Some r => if l <=? r then left else right
  end.

Fixpoint intersection_loop (right result left : list string) : list string :=
  match left with
  | [] => result
  | value :: left' =>
      intersection_loop right
        (if slices_Contains right value && negb (slices_Contains result value)
         then result ++ [value] else result) left'
  end.

Definition intersection (left right : list string) : list string :=
  match left, right with
  | [], _ => right
  | _, [] => left
  | _, _ => slices_SortFunc String.compare (intersection_loop right [] left)
  end.

Definition MergeConstraints (current incoming : Constraints) : Constraints := {|
  MaxCostMicroUSD := minimumInt64 (MaxCostMicroUSD current) (MaxCostMicroUSD incoming);
  MaxRuntimeSeconds :=
    minimumInt64 (MaxRuntimeSeconds current) (MaxRuntimeSeconds incoming);
  AllowedDomains := intersection (AllowedDomains current) (AllowedDomains incoming);
  AllowedResourceIDs :=
    intersection (AllowedResourceIDs current) (AllowedResourceIDs incoming);
  RequireHumanReview := RequireHumanReview current || RequireHumanReview incoming
|}.

(** ** cel.go *)

(** A parsed expression, as cel-go's [exprpb.Expr] presents it; message fields
    may be absent. *)
Inductive Expr :=
| ConstExpr
| IdentExpr
| SelectExpr (operand : option Expr)
| CallExpr (target : option Expr) (args : list (option Expr))
| ListExpr (elements : list (option Expr))
| StructExpr (entry_values : list (option Expr))
| ComprehensionExpr (iter_range accu_init loop_condition loop_step result : option Expr).

Fixpoint countNodes (expr : Expr) : Z :=
  let count := λ o : option Expr, match o with Some e => countNodes e | None => 0 end in
  1 + match expr with
      | ConstExpr | IdentExpr => 0
      | SelectExpr operand => count operand
      | ListExpr elements => foldr (λ o n, count o + n) 0 elements
      | StructExpr values => foldr (λ o n, 1 + count o + n) 0 values
      | CallExpr target args => count target + foldr (λ o n, count o + n) 0 args
      | ComprehensionExpr range init condition step res =>
          count range + count init + count condition + count step + count res
      end.

Definition countExpressionNodes (expr : option Expr) : Z :=
  match expr with Some e => countNodes e | None => 0 end.

(** The values an expression reads. *)
Inductive CelValue `{Json} :=
| CelString (s : string)
| CelInt (z : Z)
| CelStrings (l : list string)
| CelObject (o : option json_object)
| CelMap (fields : list (string * CelValue)).

Inductive CelResult := CelTrue | CelFalse | CelOther.

(** cel-go: compilation in the environment of [NewCEL] ([None] when there are
    issues), the type and the tree of a checked expression, its program, and
    the evaluation of a program under the context of the call ([None] for an
    error, exceeding the cost limit and the end of the context included). *)
Class Cel `{Json} := {
  cel_Ast : Type;
  cel_Program : Type;
  cel_Context : Type;
  cel_Compile : string → option cel_Ast;
  cel_OutputType : cel_Ast → string;
  cel_AstToCheckedExpr : cel_Ast → option (option Expr);
  cel_NewProgram : cel_Ast → option cel_Program;
  cel_ContextEval :
    cel_Context → cel_Program → list (string * CelValue) → option CelResult;
}.

Definition maxExpressionNodes : Z := 512.

Section Engine.
Context `{Cel}.

Record compiledExpression := { program : cel_Program; nodeCount : Z }.

Definition compile (expression : string) : result error compiledExpression :=
  ast ← from_option_err ErrInvalidExpression (cel_Compile expression);
  fail_if (negb (String.eqb (cel_OutputType ast) "bool")) ErrInvalidExpression;;
  checked ← from_option_err ErrInvalidExpression (cel_AstToCheckedExpr ast);
  let count := countExpressionNodes checked in
  fail_if (maxExpressionNodes <? count) ErrInvalidExpression;;
  program ← from_option_err ErrInvalidExpression (cel_NewProgram ast);
  Ok {| program := program; nodeCount := count |}.

Definition CEL_Validate (expression : string) : result error unit :=
  _ ← compile expression; Ok tt.

(** [compiled.program.ContextEval] and the reading of its result. *)
Definition eval_compiled (ctx : cel_Context) (compiled : compiledExpression)
    (variables : list (string * CelValue)) : result error bool :=
  match cel_ContextEval ctx (program compiled) variables with
  | None => Err ErrExpressionCostExceeded
  | Some CelTrue => Ok true
  | Some CelFalse => Ok false
  | Some CelOther => Err ErrInvalidExpression
  end.

(** The engine's shared state: the cache of compiled expressions. *)
#[local] Notation cache := (gmap string compiledExpression).

Definition engine (A : Type) : Type := cache → result error A * cache.
#[export] Instance engine_ret : MRet engine := λ A a c, (Ok a, c).
#[export] Instance engine_bind : MBind engine := λ A B f m c,
  match m c with
  | (Ok a, c') => f a c'
  | (Err e, c') => (Err e, c')
  end.

(** What concurrent evaluations store between the [Load] of a key and the
    [LoadOrStore] that follows it. *)
Variable interfere : string → cache → cache.

Definition CEL_Evaluate (ctx : cel_Context) (cacheKey expression : string)
    (variables : list (string * CelValue)) : engine bool := λ c,
  match c !! cacheKey with
  | Some compiled => (eval_compiled ctx compiled variables, c)
  | None =>
      match compile expression with
      | Err err => (Err err, c)
      | Ok compiled =>
          let c' := interfere cacheKey c in
          match c' !! cacheKey with
          | Some actual => (eval_compiled ctx actual variables, c')
          | None => (eval_compiled ctx compiled variables, <[cacheKey := compiled]> c')
          end
      end
  end.

(** ** evaluator.go *)

Record Result := {
  result_Effect : Effect;
  result_Constraints : Constraints;
  result_Reason : string;
  result_MatchedPolicyID : option string;
  result_MatchedPolicyVersion : option Z;
  result_MatchedRuleID : option string;
}.

Definition mk_result (effect : Effect) (review : bool) (reason : string) : Result := {|
  result_Effect := effect;
  result_Constraints := {|
    MaxCostMicroUSD := None; MaxRuntimeSeconds := None; AllowedDomains := [];
    AllowedResourceIDs := []; RequireHumanReview := review |};
  result_Reason := reason;
  result_MatchedPolicyID := None; result_MatchedPolicyVersion := None;
  result_MatchedRuleID := None |}.

(** [Result{}] *)
Definition no_result : Result := mk_result "" false "".

Definition isReadAction (action : string) : bool :=
  HasPrefix action "read." || HasSuffix action ".read"
  || HasPrefix action "observe." || HasPrefix action "research.".

Definition autonomyBaseline (input : EvaluationInput) : Result :=
  if negb (String.eqb (subject_Type (input_Subject input)) SubjectAgent) then no_result
  else
    let autonomy := subject_AgentAutonomy (input_Subject input) in
    if String.eqb autonomy "observe_only" then
      if isReadAction (input_Action input) then
        mk_result EffectAllowWithConstraints false
          "Agent autonomy permits read actions only"
      else mk_result EffectDeny false "Agent autonomy is observe-only"
    else if String.eqb autonomy "suggest" then
      mk_result EffectRequireApproval true "Agent autonomy permits suggestions only"
    else if String.eqb autonomy "approval_required" then
      mk_result EffectRequireApproval true "Agent autonomy requires approval"
    else if String.eqb autonomy "policy_bounded" then no_result
    else mk_result EffectDeny false "Agent autonomy is unknown".

Definition severity (effect : Effect) : Z :=
  if String.eqb effect EffectDeny then 4
  else if String.eqb effect EffectRequireApproval then 3
  else if String.eqb effect EffectAllowWithConstraints then 2
  else if String.eqb effect EffectAllow then 1
  else 0.

Definition with_constraints (c : Constraints) (r : Result) : Result := {|
  result_Effect := result_Effect r; result_Constraints := c;
  result_Reason := result_Reason r;
  result_MatchedPolicyID := result_MatchedPolicyID r;
  result_MatchedPolicyVersion := result_MatchedPolicyVersion r;
  result_MatchedRuleID := result_MatchedRuleID r |}.

Definition combine (current incoming : Result) : Result :=
  if String.eqb (result_Effect incoming) "" then current
  else if String.eqb (result_Effect current) "" then incoming
  else
    let merged := MergeConstraints (result_Constraints current)
                    (result_Constraints incoming) in
    if severity (result_Effect current) <? severity (result_Effect incoming)
    then with_constraints merged incoming
    else with_constraints merged current.

Definition valueOrEmpty (value : option string) : string := default "" value.

Definition celVariables (input : EvaluationInput) : list (string * CelValue) :=
  let subject := input_Subject input in
  let resource := input_Resource input in
  [("subject", CelMap [
      ("type", CelString (subject_Type subject));
      ("id", CelString (subject_ID subject));
      ("company_id", CelString (valueOrEmpty (subject_CompanyID subject)));
      ("autonomy", CelString (subject_AgentAutonomy subject));
      ("status", CelString (subject_AgentStatus subject));
      ("capabilities", CelStrings (subject_AgentCapabilities subject));
      ("version", CelInt (subject_AgentVersion subject))]);
   ("resource", CelMap [
      ("type", CelString (resource_Type resource));
      ("id", CelString (resource_ID resource));
      ("attributes", CelObject (resource_Attributes resource))]);
   ("request", CelMap [
      ("action", CelString (input_Action input));
      ("risk", CelString (input_Risk input));
      ("estimated_cost_micro_usd", CelInt (input_EstimatedCostMicroUSD input))]);
   ("context", CelObject (input_Context input))].

(** Lower priorities first, then by identifier. *)
Definition rule_compare (left right : Rule) : comparison :=
  match rule_Priority left ?= rule_Priority right with
  | Eq => String.compare (rule_ID left) (rule_ID right)
  | c => c
  end.

(** [fmt.Sprintf("%s:%d:%s:%s", ...)] *)
Definition cache_key (policyID : string) (version : Z) (ruleID condition : string)
  : string :=
  policyID +:+ ":" +:+ pretty version +:+ ":" +:+ ruleID +:+ ":" +:+ condition.

Definition default_result (bundle : ActiveBundle) : Result := {|
  result_Effect := version_DefaultEffect (bundle_Version bundle);
  result_Constraints := no_constraints;
  result_Reason := "Policy default effect applied";
  result_MatchedPolicyID := Some (policy_ID (bundle_Policy bundle));
  result_MatchedPolicyVersion := Some (version_PolicyVersion (bundle_Version bundle));
  result_MatchedRuleID := None |}.

Definition rule_result (bundle : ActiveBundle) (rule : Rule) : Result := {|
  result_Effect := rule_Effect rule;
  result_Constraints := rule_Constraints rule;
  result_Reason := rule_Reason rule;
  result_MatchedPolicyID := Some (policy_ID (bundle_Policy bundle));
  result_MatchedPolicyVersion := Some (version_PolicyVersion (bundle_Version bundle));
  result_MatchedRuleID := Some (rule_ID rule) |}.

Definition bundle_rules (bundle : ActiveBundle) : list Rule :=
  slices_SortFunc rule_compare (version_Rules (bundle_Version bundle)).

(** The loops; the boolean says that the function returned inside. *)
Fixpoint evaluate_rules (ctx : cel_Context) (input : EvaluationInput)
    (bundle : ActiveBundle) (rules : list Rule) (result : Result)
  : engine (Result * bool) :=
  match rules with
  | [] => mret (result, false)
  | rule :: rules' =>
      if negb (rule_Enabled rule) || negb (RuleMatchesPrefilter rule input)
      then evaluate_rules ctx input bundle rules' result
      else
        matched ← CEL_Evaluate ctx
          (cache_key (policy_ID (bundle_Policy bundle))
             (version_PolicyVersion (bundle_Version bundle)) (rule_ID rule)
             (rule_Condition rule))
          (rule_Condition rule) (celVariables input);
        if negb matched then evaluate_rules ctx input bundle rules' result
        else
          let result := combine result (rule_result bundle rule) in
          if String.eqb (result_Effect result) EffectDeny then mret (result, true)
          else evaluate_rules ctx input bundle rules' result
  end.

Fixpoint evaluate_bundles (ctx : cel_Context) (input : EvaluationInput)
    (bundles : list ActiveBundle) (result : Result) : engine (Result * bool) :=
  match bundles with
  | [] => mret (result, false)
  | bundle :: bundles' =>
      '(result, returned) ←
        evaluate_rules ctx input bundle (bundle_rules bundle)
          (combine result (default_result bundle));
      if returned : bool then mret (result, true)
      else evaluate_bundles ctx input bundles' result
  end.

(** The end of [Evaluate], when no rule denied. *)
Definition conclude (bundles : list ActiveBundle) (result : Result) : Result :=
  if (match bundles with [] => true | _ => false end)
     && String.eqb (result_Effect result) ""
  then mk_result EffectDeny false "No active policy allows this action"
  else if String.eqb (result_Effect result) "" then {|
    result_Effect := EffectDeny; result_Constraints := result_Constraints result;
    result_Reason := "No matching policy rule";
    result_MatchedPolicyID := result_MatchedPolicyID result;
    result_MatchedPolicyVersion := result_MatchedPolicyVersion result;
    result_MatchedRuleID := result_MatchedRuleID result |}
  else result.

Definition Evaluate (ctx : cel_Context) (input : EvaluationInput)
    (bundles : list ActiveBundle) : engine Result :=
  '(result, returned) ← evaluate_bundles ctx input bundles (autonomyBaseline input);
  if returned : bool then mret result else mret (conclude bundles result).

End Engine.

Notation cache := (gmap string compiledExpression).
