(* ===== verification/PolicyEngineProperties.v ===== *)
(** * Policy approval: what an evaluation means

    The specification of [Evaluate] without a cache, an order of evaluation or
    an early return: the results that bear on a request ([contributions]) and
    the strictest of their effects. The lemmas relate the engine's loops to it. *)

From S2P Require Import Prelude GoStrings Postgres PolicyEngine.
From stdpp Require Import strings list gmap pretty.
From Stdlib Require Import String Ascii Lia.
Open Scope string_scope.
Open Scope list_scope.
Open Scope Z_scope.

(** ** Cache keys *)

Definition not_colon (c : ascii) : bool := negb (Ascii.eqb c ":"%char).
Definition no_colon (s : string) : bool := forall_bytes not_colon s.

Lemma no_colon_cons c s :
  no_colon (String c s) = true ↔ c ≠ ":"%char ∧ no_colon s = true.
Proof.
  unfold no_colon, forall_bytes, not_colon. cbn.
  rewrite andb_true_iff, negb_true_iff, Ascii.eqb_neq. done.
Qed.

(** The part before the first colon is determined. *)
Lemma split_colon p q s t :
  no_colon p = true → no_colon q = true →
  p +:+ String ":" s = q +:+ String ":" t → p = q ∧ s = t.
Proof.
  revert q. induction p as [|a p IH]; intros [|b q]; cbn.
  - by intros _ _ [= ->].
  - intros _ [Hb _]%no_colon_cons [= <- _]. done.
  - intros [Ha _]%no_colon_cons _ [= -> _]. done.
  - intros [_ Hp]%no_colon_cons [_ Hq]%no_colon_cons [= -> E].
    destruct (IH q Hp Hq E) as [-> ->]. done.
Qed.

Lemma pretty_N_go_no_colon x s :
  no_colon s = true → no_colon (pretty_N_go x s) = true.
Proof.
  revert s. induction (N.lt_wf_0 x) as [x _ IH]; intros s Hs.
  destruct (decide (x = 0)%N) as [->|]; [done|].
  rewrite pretty_N_go_step by lia. apply IH; [apply N.div_lt; lia|].
  apply no_colon_cons. split; [|done]. unfold pretty_N_char. by repeat case_match.
Qed.

Lemma pretty_no_colon (z : Z) : no_colon (pretty z) = true.
Proof.
  assert (∀ x : N, no_colon (pretty x) = true) as HN.
  { intros x. unfold pretty, pretty_N. case_decide; [done|].
    by apply pretty_N_go_no_colon. }
  destruct z as [|p|p]; [done|apply (HN (Npos p))|].
  change (pretty (Z.neg p)) with ("-" +:+ pretty (Npos p)).
  by apply no_colon_cons.
Qed.

(** Two keys of the cache with the same text belong to the same condition. *)
Lemma cache_key_condition p v r cond p' v' r' cond' :
  no_colon p = true → no_colon r = true → no_colon p' = true → no_colon r' = true →
  cache_key p v r cond = cache_key p' v' r' cond' → cond = cond'.
Proof.
  unfold cache_key. cbn. intros Hp Hr Hp' Hr' E.
  apply split_colon in E as [_ E]; [|done..].
  apply split_colon in E as [_ E]; [|apply pretty_no_colon..].
  by apply split_colon in E as [_ E].
Qed.

Section Spec.
Context `{Cel}.

(** ** Coherent caches *)

(** Every entry under the key of a rule is the compiled condition of the rule. *)
Definition coherent (c : cache) : Prop := ∀ p v r cond compiled,
  no_colon p = true → no_colon r = true →
  c !! cache_key p v r cond = Some compiled → compile cond = Ok compiled.

(** Identifiers are UUIDs, which hold no colon. *)
Definition keyed_bundle (b : ActiveBundle) : Prop :=
  no_colon (policy_ID (bundle_Policy b)) = true ∧
  Forall (λ r, no_colon (rule_ID r) = true) (version_Rules (bundle_Version b)).

Lemma coherent_empty : coherent ∅.
Proof. by intros p v r cond compiled _ _ ?%lookup_empty_Some. Qed.

(** What evaluating a condition means: compile, then run. *)
Definition condition (ctx : cel_Context) (expression : string)
    (variables : list (string * CelValue)) : result error bool :=
  compiled ← compile expression; eval_compiled ctx compiled variables.

(** ** The results that bear on a request *)

Definition rule_applies (ctx : cel_Context) (input : EvaluationInput) (rule : Rule)
  : bool :=
  rule_Enabled rule && RuleMatchesPrefilter rule input
  && match condition ctx (rule_Condition rule) (celVariables input) with
     | Ok matched => matched
     | Err _ => false
     end.

Definition bundle_results (ctx : cel_Context) (input : EvaluationInput)
    (b : ActiveBundle) : list Result :=
  default_result b
    :: (rule_result b <$> List.filter (rule_applies ctx input) (bundle_rules b)).

Definition contributions (ctx : cel_Context) (input : EvaluationInput)
    (bundles : list ActiveBundle) : list Result :=
  autonomyBaseline input :: (bundles ≫= bundle_results ctx input).

(** Deny, else approval, else constraints, else allow; deny when nothing says
    anything. *)
Definition strictest (effects : list Effect) : Effect :=
  if slices_Contains effects EffectDeny then EffectDeny
  else if slices_Contains effects EffectRequireApproval then EffectRequireApproval
  else if slices_Contains effects EffectAllowWithConstraints
    then EffectAllowWithConstraints
  else if slices_Contains effects EffectAllow then EffectAllow
  else EffectDeny.

Definition known_effect (e : Effect) : Prop :=
  e ∈ [EffectAllow; EffectDeny; EffectRequireApproval; EffectAllowWithConstraints].

(** Identifiers without colons and effects of the four kinds. *)
Definition known_bundle (b : ActiveBundle) : Prop :=
  keyed_bundle b ∧ known_effect (version_DefaultEffect (bundle_Version b)) ∧
  Forall (λ r, known_effect (rule_Effect r)) (version_Rules (bundle_Version b)).

(** What the checks of the tables [policy_versions] and [policy_rules] ensure. *)
Definition stored_bundle (b : ActiveBundle) : Prop :=
  known_bundle b ∧
  version_DefaultEffect (bundle_Version b) ∈ [EffectDeny; EffectRequireApproval].

(** ** The loops *)

Lemma engine_bind_Ok {A B} (m : engine A) (f : A → engine B) c b c' :
  (m ≫= f) c = (Ok b, c') ↔ ∃ a c1, m c = (Ok a, c1) ∧ f a c1 = (Ok b, c').
Proof.
  unfold mbind, engine_bind. destruct (m c) as [[a|e] c1].
  - split; [eauto|]. by intros (? & ? & [= <- <-] & ?).
  - split; [done|]. by intros (? & ? & ? & _).
Qed.

(** [folds l from r returned]: [r] combines [l] onto [from], or the loop returned
    a denial after a part of [l]. *)
Definition folds (l : list Result) (from r : Result) (returned : bool) : Prop :=
  if returned then
    result_Effect r = EffectDeny ∧
    ∃ done rest, l = done ++ rest ∧ r = foldl PolicyEngine.combine from done
  else r = foldl PolicyEngine.combine from l.

Lemma folds_cons x l from r returned :
  folds l (PolicyEngine.combine from x) r returned → folds (x :: l) from r returned.
Proof.
  destruct returned; cbn; [|done]. intros (Hd & don & rest & -> & ->).
  split; [done|]. by exists (x :: don), rest.
Qed.

Lemma folds_app l1 l2 from mid r returned :
  folds l1 from mid false → folds l2 mid r returned →
  folds (l1 ++ l2) from r returned.
Proof.
  cbn. intros ->. destruct returned; cbn.
  - intros (Hd & don & rest & -> & ->). split; [done|].
    exists (l1 ++ don), rest. by rewrite app_assoc, foldl_app.
  - intros ->. by rewrite foldl_app.
Qed.

Lemma folds_prefix l1 l2 from r :
  folds l1 from r true → folds (l1 ++ l2) from r true.
Proof.
  intros (Hd & don & rest & -> & ->). split; [done|].
  exists don, (rest ++ l2). by rewrite app_assoc.
Qed.

Lemma bundle_rules_forall (P : Rule → Prop) b :
  Forall P (version_Rules (bundle_Version b)) → Forall P (bundle_rules b).
Proof. intros HP. unfold bundle_rules. by rewrite slices_SortFunc_perm. Qed.

(** ** Conditions that fail *)

(** The rule is evaluated for the request, and its condition has a value. *)
Definition rule_healthy (ctx : cel_Context) (input : EvaluationInput) (rule : Rule)
  : bool :=
  negb (rule_Enabled rule && RuleMatchesPrefilter rule input)
  || is_ok (condition ctx (rule_Condition rule) (celVariables input)).

Definition bundle_healthy (ctx : cel_Context) (input : EvaluationInput)
    (b : ActiveBundle) : Prop :=
  Forall (λ rule, rule_healthy ctx input rule = true) (version_Rules (bundle_Version b)).

(** ** Effects by severity *)

Definition valid_effect (e : Effect) : Prop := e = "" ∨ known_effect e.

Fixpoint max_severity (l : list Effect) : Z :=
  match l with [] => 0 | e :: l' => Z.max (severity e) (max_severity l') end.

Lemma known_effect_cases e : known_effect e →
  e = EffectAllow ∨ e = EffectDeny ∨ e = EffectRequireApproval ∨
  e = EffectAllowWithConstraints.
Proof. unfold known_effect. set_solver. Qed.

Lemma severity_range e : 0 ≤ severity e ≤ 4.
Proof. unfold severity. repeat case_match; lia. Qed.

Lemma severity_inj e f :
  valid_effect e → valid_effect f → severity e = severity f → e = f.
Proof.
  by intros [->|[->|[->|[->| ->]]]%known_effect_cases]
            [->|[->|[->|[->| ->]]]%known_effect_cases].
Qed.

Lemma max_severity_range l : 0 ≤ max_severity l ≤ 4.
Proof. induction l as [|e l IH]; cbn; [lia|]. pose proof (severity_range e). lia. Qed.

Lemma max_severity_elem l e : e ∈ l → severity e ≤ max_severity l.
Proof. induction 1; cbn; lia. Qed.

Lemma max_severity_attained l :
  max_severity l = 0 ∨ ∃ e, e ∈ l ∧ severity e = max_severity l.
Proof.
  induction l as [|e l IH]; cbn; [by left|].
  destruct (Z.max_spec (severity e) (max_severity l)) as [[_ ->]|[_ ->]].
  - destruct IH as [?|(f & ? & ?)]; [by left|right]. exists f. set_solver.
  - right. exists e. set_solver.
Qed.

Lemma max_severity_app l k :
  max_severity (l ++ k) = Z.max (max_severity l) (max_severity k).
Proof.
  induction l as [|e l IH]; cbn; [|rewrite IH; lia].
  pose proof (max_severity_range k). lia.
Qed.

Lemma max_severity_incl l k : l ⊆ k → max_severity l ≤ max_severity k.
Proof.
  intros Hlk. destruct (max_severity_attained l) as [->|(e & He & <-)].
  - apply max_severity_range.
  - by apply max_severity_elem, Hlk.
Qed.

(** The strictest of a list of effects, by severity. *)
Lemma strictest_severity l :
  Forall valid_effect l →
  severity (strictest l) = if max_severity l =? 0 then 4 else max_severity l.
Proof.
  intros Hl. destruct (max_severity_attained l) as [Hz|(e & He & Hs)].
  - rewrite Hz. cbn. unfold strictest.
    assert (∀ e, slices_Contains l e = true → severity e ≤ 0) as Hnone.
    { intros e He%slices_Contains_true%max_severity_elem. lia. }
    repeat (destruct (slices_Contains l _) eqn:E; [by apply Hnone in E|clear E]). done.
  - assert (∀ f, slices_Contains l f = true → severity f ≤ severity e) as Hmax.
    { intros f Hf%slices_Contains_true%max_severity_elem. lia. }
    rewrite <-Hs. assert (slices_Contains l e = true) as Hc
      by by apply slices_Contains_true.
    unfold strictest.
    assert (valid_effect e) as [->|[->|[->|[->| ->]]]%known_effect_cases]
      by (eapply Forall_forall; eauto); rewrite ?Hc; clear Hc;
      repeat (destruct (slices_Contains l _) eqn:E; [by apply Hmax in E|clear E]); done.
Qed.

Lemma strictest_known l : known_effect (strictest l).
Proof. unfold strictest, known_effect. repeat case_match; set_solver. Qed.

Lemma combine_severity a b :
  valid_effect (result_Effect a) → valid_effect (result_Effect b) →
  valid_effect (result_Effect (PolicyEngine.combine a b)) ∧
  severity (result_Effect (PolicyEngine.combine a b))
    = Z.max (severity (result_Effect a)) (severity (result_Effect b)).
Proof.
  intros Ha Hb. pose proof (severity_range (result_Effect a)).
  pose proof (severity_range (result_Effect b)). unfold PolicyEngine.combine.
  destruct (String.eqb (result_Effect b) "") eqn:Eb; bool_facts.
  { rewrite Eb in *. cbn in *. split; [done|]. lia. }
  destruct (String.eqb (result_Effect a) "") eqn:Ea; bool_facts.
  { rewrite Ea in *. cbn in *. split; [done|]. lia. }
  destruct (_ <? _) eqn:El; bool_facts; cbn; (split; [done|lia]).
Qed.

Definition effects (l : list Result) : list Effect := result_Effect <$> l.

Lemma foldl_combine_severity l a :
  valid_effect (result_Effect a) → Forall valid_effect (effects l) →
  valid_effect (result_Effect (foldl PolicyEngine.combine a l)) ∧
  severity (result_Effect (foldl PolicyEngine.combine a l))
    = max_severity (effects (a :: l)).
Proof.
  revert a. induction l as [|b l IH]; intros a Ha; cbn.
  - intros _. split; [done|]. pose proof (severity_range (result_Effect a)). lia.
  - intros [Hb Hl]%Forall_cons.
    destruct (combine_severity a b Ha Hb) as [Hab Es].
    destruct (IH _ Hab Hl) as [Hv ->]. split; [done|].
    unfold effects. cbn. rewrite Es. lia.
Qed.

(** The empty effect has severity zero only. *)
Lemma valid_effect_empty e : valid_effect e → severity e = 0 → e = "".
Proof. intros He Hs. apply severity_inj; [done|by left|done]. Qed.

Lemma autonomyBaseline_valid input : valid_effect (result_Effect (autonomyBaseline input)).
Proof.
  unfold autonomyBaseline, valid_effect, known_effect.
  repeat case_match; cbn; set_solver.
Qed.

Lemma bundle_results_valid ctx input bundles :
  Forall known_bundle bundles →
  Forall valid_effect (effects (bundles ≫= bundle_results ctx input)).
Proof.
  intros Hb. apply Forall_fmap, Forall_bind. eapply Forall_impl; [exact Hb|].
  intros b (_ & Hd & Hr). apply Forall_cons. split; [by right|].
  apply Forall_fmap, Forall_forall. intros r [Hin _]%elem_of_filter_b. right.
  apply (proj1 (Forall_forall _ _) (bundle_rules_forall _ b Hr) r Hin).
Qed.

Lemma contributions_valid ctx input bundles :
  Forall known_bundle bundles →
  Forall valid_effect (effects (contributions ctx input bundles)).
Proof.
  intros. apply Forall_cons. split; [apply autonomyBaseline_valid|].
  by apply bundle_results_valid.
Qed.

Lemma conclude_effect bundles r :
  result_Effect (conclude bundles r) =
  if String.eqb (result_Effect r) "" then EffectDeny else result_Effect r.
Proof.
  unfold conclude. destruct bundles; cbn; by destruct (String.eqb _ _) eqn:E; rewrite ?E.
Qed.

Lemma known_keyed bundles : Forall known_bundle bundles → Forall keyed_bundle bundles.
Proof. intros Hb. eapply Forall_impl; [exact Hb|]. by intros b []. Qed.

End Spec.

(** ** The engine, whatever other evaluations store in the cache *)
Section Loops.
Context `{Cel}.
Context (interfere : string → cache → cache).
Context (interfere_coherent : ∀ key c, coherent c → coherent (interfere key c)).

Lemma CEL_Evaluate_condition ctx p v r cond vars c :
  coherent c → no_colon p = true → no_colon r = true →
  (CEL_Evaluate interfere ctx (cache_key p v r cond) cond vars c).1
    = condition ctx cond vars ∧
  coherent (CEL_Evaluate interfere ctx (cache_key p v r cond) cond vars c).2.
Proof.
  intros Hc Hp Hr. unfold CEL_Evaluate, condition.
  destruct (c !! _) as [compiled|] eqn:Ec; cbn.
  { by rewrite (Hc _ _ _ _ _ Hp Hr Ec). }
  destruct (compile cond) as [compiled|e] eqn:Ecomp; cbn; [|done].
  pose proof (interfere_coherent (cache_key p v r cond) c Hc) as Hc'.
  destruct (interfere _ c !! _) as [actual|] eqn:Ea; cbn.
  - split; [|done]. pose proof (Hc' _ _ _ _ _ Hp Hr Ea). congruence.
  - split; [done|]. intros p' v' r' cond' compiled' Hp' Hr'.
    rewrite lookup_insert_Some. intros [[Hk <-]|[_ Hl]]; [|exact (Hc' _ _ _ _ _ Hp' Hr' Hl)].
    apply cache_key_condition in Hk; [|done..]. by subst.
Qed.

Lemma evaluate_rules_folds ctx input b rules from c r returned c' :
  coherent c → no_colon (policy_ID (bundle_Policy b)) = true →
  Forall (λ r, no_colon (rule_ID r) = true) rules →
  evaluate_rules interfere ctx input b rules from c = (Ok (r, returned), c') →
  coherent c' ∧
  folds (rule_result b <$> List.filter (rule_applies ctx input) rules) from r returned.
Proof.
  intros Hc Hb. revert from c Hc. induction rules as [|rule rules IH]; intros from c Hc Hr;
    cbn; [by intros [= <- <- <-]|].
  inversion Hr as [|? ? Hrule Hrules]; subst. unfold rule_applies at 1.
  destruct (rule_Enabled rule); cbn; [|by apply IH].
  destruct (RuleMatchesPrefilter rule input); cbn; [|by apply IH].
  intros (matched & c1 & Hm & Hrest)%engine_bind_Ok.
  destruct (CEL_Evaluate_condition ctx _
              (version_PolicyVersion (bundle_Version b)) _
              (rule_Condition rule) (celVariables input) c Hc Hb Hrule) as [Hcond Hc1].
  rewrite Hm in Hcond, Hc1. cbn in Hcond, Hc1. rewrite <-Hcond.
  destruct matched; cbn in *; [|by apply (IH _ _ Hc1)].
  destruct (String.eqb _ _) eqn:Ed.
  - injection Hrest as <- <- <-. split; [done|]. split; [by apply String.eqb_eq|].
    by eexists [_], _.
  - destruct (IH _ _ Hc1 Hrules Hrest) as [Hc' Hf]. split; [done|]. by apply folds_cons.
Qed.

Lemma evaluate_bundles_folds ctx input bundles from c r returned c' :
  coherent c → Forall keyed_bundle bundles →
  evaluate_bundles interfere ctx input bundles from c = (Ok (r, returned), c') →
  coherent c' ∧ folds (bundles ≫= bundle_results ctx input) from r returned.
Proof.
  intros Hc Hb. revert from c Hc. induction Hb as [|b bundles [Hid Hrules] _ IH];
    intros from c Hc; cbn; [by intros [= <- <- <-]|].
  intros ([r1 ret1] & c1 & H1 & H2)%engine_bind_Ok.
  apply evaluate_rules_folds in H1 as [Hc1 H1%folds_cons];
    [|done|done|by apply bundle_rules_forall].
  destruct ret1.
  - injection H2 as <- <- <-. split; [done|]. exact (folds_prefix (bundle_results ctx input b) _ _ _ H1).
  - destruct (IH _ _ Hc1 H2) as [Hc' Hf]. split; [done|].
    exact (folds_app (bundle_results ctx input b) _ _ _ _ _ H1 Hf).
Qed.

(** An evaluation that succeeds concludes from all the contributions, or stops at
    a denial. *)
Lemma Evaluate_folds ctx input bundles c r c' :
  coherent c → Forall keyed_bundle bundles →
  Evaluate interfere ctx input bundles c = (Ok r, c') →
  coherent c' ∧
  ((∃ r0, r = conclude bundles r0 ∧
          r0 = foldl PolicyEngine.combine (autonomyBaseline input)
                 (bundles ≫= bundle_results ctx input)) ∨
   folds (bundles ≫= bundle_results ctx input) (autonomyBaseline input) r true).
Proof.
  intros Hc Hb ([r0 returned] & c1 & H1 & H2)%engine_bind_Ok.
  apply evaluate_bundles_folds in H1 as [Hc1 Hf]; [|done..].
  destruct returned; injection H2 as <- <-; (split; [done|]); [by right|left; eauto].
Qed.

(** The effect of an evaluation is the strictest contribution. *)
Lemma Evaluate_strictest ctx input bundles c r c' :
  coherent c → Forall known_bundle bundles →
  Evaluate interfere ctx input bundles c = (Ok r, c') →
  result_Effect r = strictest (effects (contributions ctx input bundles)).
Proof.
  intros Hc Hb He. apply Evaluate_folds in He as [_ Hf]; [|done|by apply known_keyed].
  pose proof (contributions_valid ctx input bundles Hb) as Hval.
  pose proof (strictest_severity _ Hval) as Hs. unfold contributions in *.
  set (l := bundles ≫= bundle_results ctx input) in *.
  assert (Forall valid_effect (effects l)) as Hl by by inversion Hval.
  apply severity_inj; [|right; apply strictest_known|].
  - destruct Hf as [(r0 & -> & ->)|[-> _]]; [|right; unfold known_effect; set_solver].
    rewrite conclude_effect. destruct (String.eqb _ _); [right; unfold known_effect; set_solver|].
    by apply foldl_combine_severity; [apply autonomyBaseline_valid|].
  - rewrite Hs. destruct Hf as [(r0 & -> & Hr0)|(Hd & don & rest & El & Hr)].
    + rewrite conclude_effect.
      destruct (foldl_combine_severity l _ (autonomyBaseline_valid input) Hl) as [Hv Hsev].
      rewrite <-Hr0 in Hv, Hsev. rewrite <-Hsev.
      destruct (String.eqb _ _) eqn:E; bool_facts; [by rewrite E|].
      destruct (Z.eqb_spec (severity (result_Effect r0)) 0) as [Es|]; [|done].
      by apply valid_effect_empty in Es.
    + rewrite El in *. unfold effects in Hl. rewrite fmap_app in Hl.
      apply Forall_app in Hl as [Hdon _].
      destruct (foldl_combine_severity don _ (autonomyBaseline_valid input) Hdon)
        as [_ Hsev]. rewrite <-Hr, Hd in Hsev. change (severity EffectDeny) with 4 in Hsev.
      rewrite Hd. change (severity EffectDeny) with 4.
      assert (max_severity (effects (autonomyBaseline input :: don ++ rest)) = 4) as ->;
        [|done].
      change (autonomyBaseline input :: don ++ rest)
        with ((autonomyBaseline input :: don) ++ rest).
      unfold effects in *. rewrite fmap_app, max_severity_app, <-Hsev.
      pose proof (max_severity_range (result_Effect <$> rest)). lia.
Qed.

(** A loop that ran to its end met no failing condition. *)
Lemma evaluate_rules_healthy ctx input b rules from c r c' :
  coherent c → no_colon (policy_ID (bundle_Policy b)) = true →
  Forall (λ r, no_colon (rule_ID r) = true) rules →
  evaluate_rules interfere ctx input b rules from c = (Ok (r, false), c') →
  Forall (λ rule, rule_healthy ctx input rule = true) rules.
Proof.
  intros Hc Hb. revert from c Hc. induction rules as [|rule rules IH];
    intros from c Hc Hr; cbn; [done|].
  inversion Hr as [|? ? Hrule Hrules]; subst. rewrite Forall_cons.
  unfold rule_healthy at 1. destruct (rule_Enabled rule), (RuleMatchesPrefilter rule input);
    cbn; try (intros ?; split; [done|by eapply IH]).
  intros (matched & c1 & Hm & Hrest)%engine_bind_Ok.
  destruct (CEL_Evaluate_condition ctx _
              (version_PolicyVersion (bundle_Version b)) _
              (rule_Condition rule) (celVariables input) c Hc Hb Hrule) as [Hcond Hc1].
  rewrite Hm in Hcond, Hc1. cbn in Hcond, Hc1. rewrite <-Hcond. split; [done|].
  destruct matched; cbn in *; [|by eapply IH].
  destruct (String.eqb _ _); [done|by eapply IH].
Qed.

Lemma evaluate_bundles_healthy ctx input bundles from c r c' :
  coherent c → Forall keyed_bundle bundles →
  evaluate_bundles interfere ctx input bundles from c = (Ok (r, false), c') →
  Forall (bundle_healthy ctx input) bundles.
Proof.
  intros Hc Hb. revert from c Hc. induction Hb as [|b bundles [Hid Hrules] _ IH];
    intros from c Hc; cbn; [done|].
  intros ([r1 ret1] & c1 & H1 & H2)%engine_bind_Ok. destruct ret1; [done|].
  pose proof H1 as H3. apply evaluate_rules_healthy in H3; [|done|done|by apply bundle_rules_forall].
  apply evaluate_rules_folds in H1 as [Hc1 _]; [|done|done|by apply bundle_rules_forall].
  apply Forall_cons. split; [|by eapply IH].
  unfold bundle_healthy, bundle_rules in *. by rewrite slices_SortFunc_perm in H3.
Qed.

(** Without a failing condition the loops return. *)
Lemma evaluate_rules_total ctx input b rules from c :
  coherent c → no_colon (policy_ID (bundle_Policy b)) = true →
  Forall (λ r, no_colon (rule_ID r) = true) rules →
  Forall (λ rule, rule_healthy ctx input rule = true) rules →
  ∃ out c', evaluate_rules interfere ctx input b rules from c = (Ok out, c').
Proof.
  intros Hc Hb. revert from c Hc. induction rules as [|rule rules IH];
    intros from c Hc Hr Hh; cbn; [by eexists _, _|].
  inversion Hr as [|? ? Hrule Hrules]; subst. inversion Hh as [|? ? Hrh Hrest]; subst.
  unfold rule_healthy in Hrh. destruct (rule_Enabled rule), (RuleMatchesPrefilter rule input);
    cbn in *; try by apply IH.
  unfold mbind, engine_bind.
  destruct (CEL_Evaluate_condition ctx _
              (version_PolicyVersion (bundle_Version b)) _
              (rule_Condition rule) (celVariables input) c Hc Hb Hrule) as [Hcond Hc1].
  destruct (CEL_Evaluate interfere ctx _ _ _ c) as [[matched|e] c1]; cbn in *;
    [|by rewrite <-Hcond in Hrh].
  destruct matched; cbn; [|by apply IH].
  destruct (String.eqb _ _); [by eexists _, _|by apply IH].
Qed.

Lemma evaluate_bundles_total ctx input bundles from c :
  coherent c → Forall keyed_bundle bundles →
  Forall (bundle_healthy ctx input) bundles →
  ∃ out c', evaluate_bundles interfere ctx input bundles from c = (Ok out, c').
Proof.
  intros Hc Hb. revert from c Hc. induction Hb as [|b bundles [Hid Hrules] _ IH];
    intros from c Hc Hh; cbn; [by eexists _, _|].
  inversion Hh as [|? ? Hbh Hrest]; subst. unfold mbind, engine_bind.
  destruct (evaluate_rules_total ctx input b (bundle_rules b)
    (PolicyEngine.combine from (default_result b)) c Hc Hid) as ([r1 ret1] & c1 & E);
    [by apply bundle_rules_forall..|].
  rewrite E. apply evaluate_rules_folds in E as [Hc1 _];
    [|done|done|by apply bundle_rules_forall].
  destruct ret1; [by eexists _, _|by apply IH].
Qed.

End Loops.



(** ** Constraints *)

(** An allowlist permits a value: it is empty, hence no restriction, or holds it. *)
Definition permits (allowlist : list string) (value : string) : Prop :=
  allowlist = [] ∨ value ∈ allowlist.

(** A limit caps an amount. *)
Definition within (limit : option Z) (amount : Z) : Prop :=
  ∀ m, limit = Some m → amount ≤ m.

Lemma minimumInt64_within l r x :
  within (minimumInt64 l r) x ↔ within l x ∧ within r x.
Proof.
  unfold within. destruct l as [l|], r as [r|]; cbn; [|naive_solver..].
  destruct (l <=? r) eqn:E; bool_facts; split.
  - intros Hx. specialize (Hx _ eq_refl). split; intros m [= <-]; lia.
  - by intros [Hl _].
  - intros Hx. specialize (Hx _ eq_refl). split; intros m [= <-]; lia.
  - by intros [_ Hr].
Qed.

Lemma intersection_loop_elem right result left v :
  v ∈ intersection_loop right result left ↔ v ∈ result ∨ (v ∈ left ∧ v ∈ right).
Proof.
  revert result. induction left as [|x left IH]; intros result; cbn.
  - set_solver.
  - rewrite IH. destruct (slices_Contains right x) eqn:Er; cbn.
    + apply slices_Contains_true in Er.
      destruct (slices_Contains result x) eqn:Es; cbn;
        [apply slices_Contains_true in Es|]; set_solver.
    + apply slices_Contains_false in Er. set_solver.
Qed.

Lemma intersection_elem l r v :
  l ≠ [] → r ≠ [] → v ∈ PolicyEngine.intersection l r ↔ v ∈ l ∧ v ∈ r.
Proof.
  intros Hl Hr. destruct l as [|x l]; [done|]. destruct r as [|y r]; [done|].
  cbn [PolicyEngine.intersection]. rewrite slices_SortFunc_perm, intersection_loop_elem. set_solver.
Qed.

(** Overlapping allowlists merge into their intersection. *)
Lemma intersection_permits l r v0 v :
  permits l v0 → permits r v0 →
  permits (PolicyEngine.intersection l r) v ↔ permits l v ∧ permits r v.
Proof.
  unfold permits. intros Hl Hr.
  destruct (decide (l = [])) as [->|Hl0]; [cbn; naive_solver|].
  destruct (decide (r = [])) as [->|Hr0]; [by destruct l; cbn; naive_solver|].
  assert (v0 ∈ PolicyEngine.intersection l r) as Hv by (apply intersection_elem; naive_solver).
  rewrite (intersection_elem _ _ v) by done.
  assert (PolicyEngine.intersection l r ≠ []) by (intros E; rewrite E in Hv; set_solver).
  naive_solver.
Qed.

Lemma foldl_intersection_permits l ls v0 v :
  Forall (λ x, permits x v0) (l :: ls) →
  permits (foldl PolicyEngine.intersection l ls) v ↔ Forall (λ x, permits x v) (l :: ls).
Proof.
  revert l. induction ls as [|k ls IH]; intros l Hall; cbn.
  - rewrite Forall_cons, Forall_nil. tauto.
  - inversion Hall as [|? ? Hl Hrest]; subst. inversion Hrest as [|? ? Hk Hls]; subst.
    assert (permits (PolicyEngine.intersection l k) v0)
      by by apply (intersection_permits _ _ v0).
    rewrite IH by by apply Forall_cons.
    rewrite !Forall_cons, (intersection_permits _ _ v0) by done. tauto.
Qed.

(** A field of merged constraints is the merge of the field. *)
Lemma foldl_field {A} (f : Constraints → A) (g : A → A → A) cs c :
  (∀ a b, f (MergeConstraints a b) = g (f a) (f b)) →
  f (foldl MergeConstraints c cs) = foldl g (f c) (f <$> cs).
Proof.
  intros Hf. revert c. induction cs as [|d cs IH]; intros c; cbn; [done|].
  by rewrite IH, Hf.
Qed.

Lemma foldl_minimum_within ms m x :
  within (foldl minimumInt64 m ms) x ↔ within m x ∧ Forall (λ l, within l x) ms.
Proof.
  revert m. induction ms as [|k ms IH]; intros m; cbn.
  - rewrite Forall_nil. tauto.
  - rewrite IH, minimumInt64_within, Forall_cons. tauto.
Qed.

Lemma foldl_orb bs b : foldl orb b bs = true ↔ b = true ∨ true ∈ bs.
Proof.
  revert b. induction bs as [|c bs IH]; intros b; cbn; [set_solver|].
  rewrite IH, orb_true_iff, elem_of_cons. naive_solver.
Qed.

(** The constraints a list of constraints amounts to, when their allowlists
    overlap. *)
Definition respects (cs : list Constraints) (c : Constraints) : Prop :=
  (∀ cost, within (MaxCostMicroUSD c) cost ↔
           Forall (λ x, within (MaxCostMicroUSD x) cost) cs) ∧
  (∀ seconds, within (MaxRuntimeSeconds c) seconds ↔
              Forall (λ x, within (MaxRuntimeSeconds x) seconds) cs) ∧
  (RequireHumanReview c = true ↔ Exists (λ x, RequireHumanReview x = true) cs) ∧
  (∀ d0, Forall (λ x, permits (AllowedDomains x) d0) cs →
   ∀ d, permits (AllowedDomains c) d ↔ Forall (λ x, permits (AllowedDomains x) d) cs) ∧
  (∀ i0, Forall (λ x, permits (AllowedResourceIDs x) i0) cs →
   ∀ i, permits (AllowedResourceIDs c) i ↔
        Forall (λ x, permits (AllowedResourceIDs x) i) cs).

Lemma foldl_respects c cs : respects (c :: cs) (foldl MergeConstraints c cs).
Proof.
  split_and!.
  - intros x. rewrite (foldl_field MaxCostMicroUSD minimumInt64) by done.
    by rewrite foldl_minimum_within, Forall_cons, Forall_fmap.
  - intros x. rewrite (foldl_field MaxRuntimeSeconds minimumInt64) by done.
    by rewrite foldl_minimum_within, Forall_cons, Forall_fmap.
  - rewrite (foldl_field RequireHumanReview orb) by done.
    rewrite foldl_orb, Exists_cons, Exists_exists, list_elem_of_fmap. naive_solver.
  - intros d0 H0 d. rewrite (foldl_field AllowedDomains PolicyEngine.intersection) by done.
    rewrite (foldl_intersection_permits _ _ d0); rewrite !Forall_cons, !Forall_fmap in *;
      done.
  - intros i0 H0 i. rewrite (foldl_field AllowedResourceIDs PolicyEngine.intersection) by done.
    rewrite (foldl_intersection_permits _ _ i0); rewrite !Forall_cons, !Forall_fmap in *;
      done.
Qed.

Section Properties.
Context `{Cel}.
Context (interfere : string → cache → cache).
Context (interfere_coherent : ∀ key c, coherent c → coherent (interfere key c)).

Lemma merge_no_constraints c : MergeConstraints no_constraints c = c.
Proof. by destruct c. Qed.

(** Combining known effects merges their constraints. *)
Lemma foldl_combine_constraints l r :
  (result_Effect r = "" → result_Constraints r = no_constraints) →
  Forall known_effect (effects l) →
  result_Constraints (foldl PolicyEngine.combine r l) =
  foldl MergeConstraints (result_Constraints r) (result_Constraints <$> l).
Proof.
  revert r. induction l as [|x l IH]; intros r Hr; cbn; [done|].
  intros [Hx Hl]%Forall_cons.
  assert (String.eqb (result_Effect x) "" = false) as Ex.
  { by destruct (known_effect_cases _ Hx) as [->|[->|[->| ->]]]. }
  assert (result_Constraints (PolicyEngine.combine r x) =
          MergeConstraints (result_Constraints r) (result_Constraints x) ∧
          result_Effect (PolicyEngine.combine r x) ≠ "") as [Ec Ene].
  { unfold PolicyEngine.combine. rewrite Ex.
    destruct (String.eqb (result_Effect r) "") eqn:Er; bool_facts.
    - by rewrite (Hr Er), merge_no_constraints.
    - by destruct (_ <? _). }
  rewrite IH; [by rewrite Ec|done|done].
Qed.

Lemma bundle_results_known ctx input bundles :
  Forall known_bundle bundles →
  Forall known_effect (effects (bundles ≫= bundle_results ctx input)).
Proof.
  intros Hb. apply Forall_fmap, Forall_bind. eapply Forall_impl; [exact Hb|].
  intros b (_ & Hd & Hr). apply Forall_cons. split; [done|].
  apply Forall_fmap, Forall_forall. intros r [Hin _]%elem_of_filter_b.
  apply (proj1 (Forall_forall _ _) (bundle_rules_forall _ b Hr) r Hin).
Qed.

Lemma baseline_no_constraints input :
  result_Effect (autonomyBaseline input) = "" →
  result_Constraints (autonomyBaseline input) = no_constraints.
Proof. unfold autonomyBaseline. by repeat case_match. Qed.

(** The constraints of an evaluation that does not deny. *)
Lemma Evaluate_constraints ctx input bundles c r c' :
  coherent c → Forall known_bundle bundles →
  Evaluate interfere ctx input bundles c = (Ok r, c') →
  result_Effect r ≠ EffectDeny →
  result_Constraints r =
  foldl MergeConstraints (result_Constraints (autonomyBaseline input))
    (result_Constraints <$> (bundles ≫= bundle_results ctx input)).
Proof.
  intros Hc Hb He Hnd. apply Evaluate_folds in He as [_ [(r0 & -> & Hr0)|[? _]]];
    [|done|exact interfere_coherent|done|by apply known_keyed].
  rewrite conclude_effect in Hnd.
  destruct (String.eqb (result_Effect r0) "") eqn:E; [done|].
  assert (conclude bundles r0 = r0) as ->.
  { unfold conclude. rewrite E. by destruct bundles. }
  rewrite Hr0. apply foldl_combine_constraints;
    [apply baseline_no_constraints|by apply bundle_results_known].
Qed.

(** C7 (the strictest policy decides). Let [r] be the result of an evaluation
    that succeeds, for any coherent cache of compiled conditions and whatever
    concurrent evaluations add to it. Its effect is the strictest of the agent
    autonomy's own verdict, the default effects of the active policies and the
    effects of their rules that apply to the request, in the order deny, approval,
    constraints, allow, and it is deny when none of them says anything: neither
    the order of the policies and the priorities of the rules nor the early return
    on a denial can weaken it. *)
Theorem evaluation_strictest ctx input bundles c r c' :
  coherent c → Forall known_bundle bundles →
  Evaluate interfere ctx input bundles c = (Ok r, c') →
  result_Effect r = strictest (effects (contributions ctx input bundles)).
Proof. by apply Evaluate_strictest. Qed.

(** Adding policies only restricts. When every policy active in one
    evaluation is also active in another of the same request, the second result is
    at least as severe as the first, in whatever order the repository returned
    the policies. (The first evaluation must have a policy: with none the engine
    denies.) *)
Theorem more_policies_never_weaken ctx input bundles1 bundles2 c1 c2 r1 r2 c1' c2' :
  coherent c1 → coherent c2 →
  Forall known_bundle bundles1 → Forall known_bundle bundles2 →
  bundles1 ≠ [] → bundles1 ⊆ bundles2 →
  Evaluate interfere ctx input bundles1 c1 = (Ok r1, c1') →
  Evaluate interfere ctx input bundles2 c2 = (Ok r2, c2') →
  severity (result_Effect r1) ≤ severity (result_Effect r2).
Proof.
  intros Hc1 Hc2 Hb1 Hb2 Hne Hsub E1 E2.
  apply Evaluate_strictest in E1 as ->; [|done..].
  apply Evaluate_strictest in E2 as ->; [|done..].
  rewrite !strictest_severity by by apply contributions_valid.
  assert (max_severity (effects (contributions ctx input bundles1))
          ≤ max_severity (effects (contributions ctx input bundles2))) as Hle.
  { apply max_severity_incl. intros e (x & -> & Hx)%list_elem_of_fmap.
    apply list_elem_of_fmap_2. revert Hx. unfold contributions.
    intros [->|(b & Hx & Hb)%list_elem_of_bind]%elem_of_cons; [by left|right].
    apply list_elem_of_bind. eauto. }
  pose proof (max_severity_range (effects (contributions ctx input bundles2))).
  assert (0 < max_severity (effects (contributions ctx input bundles1))) as Hpos.
  { destruct bundles1 as [|b bundles1]; [done|].
    apply Z.lt_le_trans with (severity (version_DefaultEffect (bundle_Version b))).
    - inversion Hb1 as [|? ? (_ & Hd & _) _]; subst.
      by destruct (known_effect_cases _ Hd) as [->|[->|[->| ->]]].
    - apply max_severity_elem. right. by left. }
  repeat case_match; bool_facts; lia.
Qed.

(** C20 (errors fail closed). An evaluation with any result but a denial evaluated
    the condition of every enabled rule that matches the request, and each had a
    value: a condition that does not compile, exceeds its cost or is not a boolean
    is never skipped. Conversely, when the conditions have values, the evaluation
    succeeds. *)
Theorem errors_fail_closed ctx input bundles c :
  coherent c → Forall keyed_bundle bundles →
  (∀ r c', Evaluate interfere ctx input bundles c = (Ok r, c') →
     result_Effect r ≠ EffectDeny → Forall (bundle_healthy ctx input) bundles) ∧
  (Forall (bundle_healthy ctx input) bundles →
     ∃ r c', Evaluate interfere ctx input bundles c = (Ok r, c')).
Proof.
  intros Hc Hb. split.
  - intros r c' ([r0 returned] & c1 & H1 & H2)%engine_bind_Ok Hnd. destruct returned.
    + apply evaluate_bundles_folds in H1 as [_ [Hd _]]; [|done..]. by injection H2 as <- _.
    + by eapply evaluate_bundles_healthy.
  - intros Hh. unfold Evaluate, mbind, engine_bind.
    destruct (evaluate_bundles_total interfere interfere_coherent ctx input bundles
      (autonomyBaseline input) c Hc Hb Hh) as ([r0 []] & c1 & ->); by eexists _, _.
Qed.

(** Constraints accumulate. The constraints of a result that does not deny
    are those of the autonomy verdict and of every rule that applies, together:
    an amount is within its cost or run-time limit exactly when it is within all
    of theirs, human review is required exactly when one of them requires it,
    and, as long as some value is on all their allowlists, its allowlist permits
    exactly the values that all of theirs permit. *)
Theorem constraints_accumulate ctx input bundles c r c' :
  coherent c → Forall known_bundle bundles →
  Evaluate interfere ctx input bundles c = (Ok r, c') →
  result_Effect r ≠ EffectDeny →
  respects (result_Constraints <$> contributions ctx input bundles)
    (result_Constraints r).
Proof.
  intros Hc Hb He Hnd. rewrite (Evaluate_constraints _ _ _ _ _ _ Hc Hb He Hnd).
  apply foldl_respects.
Qed.

(** What the autonomy of an agent allows an evaluation to return. *)
Definition autonomy_allows (autonomy action : string) (effect : Effect) : Prop :=
  if String.eqb autonomy "observe_only" then
    isReadAction action = true ∧ effect ≠ EffectAllow ∨ effect = EffectDeny
  else if String.eqb autonomy "suggest" || String.eqb autonomy "approval_required" then
    effect = EffectRequireApproval ∨ effect = EffectDeny
  else if String.eqb autonomy "policy_bounded" then True
  else effect = EffectDeny.

(** Agent autonomy binds. Whatever the active policies say, an agent that
    may only observe is denied every action but a read and is never simply
    allowed one, an agent that suggests or needs approval gets at most an approval
    request, and an agent of unknown autonomy is denied. *)
Theorem autonomy_binds ctx input bundles c r c' :
  coherent c → Forall known_bundle bundles →
  subject_Type (input_Subject input) = SubjectAgent →
  Evaluate interfere ctx input bundles c = (Ok r, c') →
  autonomy_allows (subject_AgentAutonomy (input_Subject input)) (input_Action input)
    (result_Effect r).
Proof.
  intros Hc Hb Ht He. apply Evaluate_strictest in He as Hr; [|done..].
  assert (severity (result_Effect (autonomyBaseline input)) ≤ severity (result_Effect r))
    as Hle.
  { rewrite Hr, strictest_severity by by apply contributions_valid.
    assert (severity (result_Effect (autonomyBaseline input))
            ≤ max_severity (effects (contributions ctx input bundles)))
      by (apply max_severity_elem; by left).
    pose proof (severity_range (result_Effect (autonomyBaseline input))).
    destruct (_ =? _); lia. }
  assert (known_effect (result_Effect r)) as Hk by (rewrite Hr; apply strictest_known).
  revert Hle. unfold autonomyBaseline, autonomy_allows. rewrite Ht. cbn.
  destruct (known_effect_cases _ Hk) as [->|[->|[->| ->]]];
    repeat (destruct (String.eqb (subject_AgentAutonomy _) _); cbn; [|]);
    try destruct (isReadAction _); cbn; intros Hle; try tauto; try (by destruct Hle);
    auto; try (left; done).
Qed.

(** No stored policy allows. A policy version only ever has the default
    effect deny or require approval, and the default effect of a policy takes part
    in the combination whether or not a rule matches. So an evaluation with an
    active policy never allows an action, with or without constraints, whatever
    its rules say, and one policy whose default is deny denies everything. *)
Theorem stored_policies_never_allow ctx input bundles c r c' :
  coherent c → Forall stored_bundle bundles →
  Evaluate interfere ctx input bundles c = (Ok r, c') →
  result_Effect r ≠ EffectAllow ∧
  (bundles ≠ [] → result_Effect r = EffectDeny ∨ result_Effect r = EffectRequireApproval) ∧
  (∀ b, b ∈ bundles → version_DefaultEffect (bundle_Version b) = EffectDeny →
     result_Effect r = EffectDeny).
Proof.
  intros Hc Hs He. assert (Forall known_bundle bundles) as Hb.
  { eapply Forall_impl; [exact Hs|]. by intros b []. }
  apply Evaluate_strictest in He as ->; [|done..].
  assert (∀ b, b ∈ bundles → version_DefaultEffect (bundle_Version b)
            ∈ effects (contributions ctx input bundles)) as Hin.
  { intros b Hb'. apply (list_elem_of_fmap_2 result_Effect _ (default_result b)). right.
    apply list_elem_of_bind. exists b. split; [by left|done]. }
  assert (∀ b, b ∈ bundles → version_DefaultEffect (bundle_Version b) = EffectDeny ∨
            version_DefaultEffect (bundle_Version b) = EffectRequireApproval) as Hdef.
  { intros b Hb'. destruct (proj1 (Forall_forall _ _) Hs b Hb') as [_ Hd]. set_solver. }
  assert (bundles ≠ [] →
    strictest (effects (contributions ctx input bundles)) = EffectDeny ∨
    strictest (effects (contributions ctx input bundles)) = EffectRequireApproval) as Hne.
  { intros Hne. destruct bundles as [|b bundles]; [done|].
    unfold strictest. destruct (slices_Contains _ EffectDeny) eqn:Ed; [by left|right].
    destruct (slices_Contains _ EffectRequireApproval) eqn:Ea; [done|].
    apply slices_Contains_false in Ed, Ea.
    destruct (Hdef b) as [Hb'|Hb']; [by left|..]; specialize (Hin b (ltac:(by left)));
      rewrite Hb' in Hin; done. }
  split_and!; [|done|].
  - destruct bundles as [|b bundles]; [|by destruct Hne as [->| ->]].
    unfold contributions, autonomyBaseline. by repeat case_match.
  - intros b Hb' Hd. unfold strictest.
    by rewrite (proj2 (slices_Contains_true _ _)) by (rewrite <-Hd; auto).
Qed.

End Properties.

(** Disjoint allowlists open up: the intersection of two allowlists without a
    common value is the empty list, which the next merge reads as the absence of a
    restriction: the third allowlist alone decides, although it shares nothing
    with the others. *)
Theorem disjoint_allowlists_open a b c :
  AllowedDomains a ≠ [] → AllowedDomains b ≠ [] →
  (∀ d, d ∈ AllowedDomains a → d ∉ AllowedDomains b) →
  AllowedDomains (MergeConstraints a b) = [] ∧
  AllowedDomains (MergeConstraints (MergeConstraints a b) c) = AllowedDomains c.
Proof.
  intros Ha Hb Hd. cbn.
  assert (PolicyEngine.intersection (AllowedDomains a) (AllowedDomains b) = []) as ->.
  { destruct (PolicyEngine.intersection _ _) as [|v l] eqn:E; [done|exfalso].
    assert (v ∈ PolicyEngine.intersection (AllowedDomains a) (AllowedDomains b)) as Hv
      by (rewrite E; by left).
    apply intersection_elem in Hv as [Hva Hvb]; [|done..]. by eapply Hd. }
  done.
Qed.

(** ** Action patterns *)

Lemma CountByte_app c s t : CountByte c (s +:+ t) = CountByte c s + CountByte c t.
Proof.
  induction s as [|d s IH]; [done|]. rewrite append_cons. cbn. rewrite IH. lia.
Qed.

Lemma CountByte_nonneg c s : 0 ≤ CountByte c s.
Proof. induction s as [|d s IH]; cbn; [lia|]. destruct (Ascii.eqb c d); lia. Qed.

(** The language of action patterns. A pattern without surrounding space
    that is accepted is a literal action, which matches itself only, or a prefix
    without a wildcard followed by one, which matches exactly the actions that
    begin with the prefix. *)
Theorem action_pattern_language pattern :
  TrimSpace pattern = pattern → ValidateActionPattern pattern = Ok tt →
  (CountByte "*"%char pattern = 0 ∧
   ∀ action, ActionMatches pattern action = true ↔ action = pattern) ∨
  (∃ prefix, pattern = prefix +:+ "*" ∧ CountByte "*"%char prefix = 0 ∧
   ∀ action, ActionMatches pattern action = true ↔ ∃ rest, action = prefix +:+ rest).
Proof.
  intros Ht Hv. unfold ValidateActionPattern in Hv. rewrite Ht in Hv.
  result_inv Hv. bool_facts. unfold ActionMatches.
  destruct (HasSuffix pattern "*") eqn:Es.
  - right. apply HasSuffix_spec in Es as (prefix & ->). exists prefix.
    rewrite CountByte_app, TrimSuffix_app in *. cbn in *.
    pose proof (CountByte_nonneg "*"%char prefix).
    split_and!; [done|lia|]. intros action. apply HasPrefix_spec.
  - left. pose proof (CountByte_nonneg "*"%char pattern). apply fail_if_Ok in Hv.
    cbn in Hv. rewrite andb_true_r in Hv. bool_facts. split; [lia|].
    intros action. rewrite String.eqb_eq. naive_solver.
Qed.
