(* ===== verification/PolicyStore.v ===== *)
(** * Policy approval: tables, row security and SQL statements

    Models the tables, constraints and row security of
    [services/policy-approval/migrations] and, one definition per statement, the
    SQL of [services/policy-approval/internal/adapters/postgres]. *)

From S2P Require Import Prelude GoStrings Postgres Outbox PolicyEngine.
From stdpp Require Import strings gmap list sorting.
From Stdlib Require Import String Ascii Lia.
Open Scope string_scope.
Open Scope list_scope.
Open Scope Z_scope.

#[local] Notation Decision := PolicyEngine.Decision.

(** repository.go *)
Definition mapDatabaseError (err : error) : error :=
  match err with
  | ErrDatabase ErrNoRows => ErrNotFound
  | ErrDatabase (ErrUniqueViolation _) => ErrConflict
  | ErrDatabase (ErrForeignKeyViolation _) => ErrInvalidArgument
  | ErrDatabase (ErrCheckViolation _) => ErrInvalidArgument
  | _ => err
  end.


(** ** Checks of the schema (000001_policy.up.sql) *)

Definition effects_allowed : list Effect :=
  [EffectAllow; EffectDeny; EffectRequireApproval; EffectAllowWithConstraints].

Definition policy_checks (p : Policy) : bool :=
  slices_Contains [ScopeTenant; ScopeCompany; ScopeAgent] (policy_ScopeType p)
  && (String.eqb (policy_ScopeType p) ScopeTenant && negb (is_some (policy_ScopeID p))
      || slices_Contains [ScopeCompany; ScopeAgent] (policy_ScopeType p)
         && is_some (policy_ScopeID p))
  && slices_Contains [PolicyStatusDraft; PolicyStatusActive; PolicyStatusArchived]
       (policy_Status p)
  && in_bounds 1 120 (char_length (policy_Name p))
  && (char_length (policy_Description p) <=? 4000)
  && (0 <? policy_ResourceVersion p)
  && (String.eqb (policy_Status p) PolicyStatusActive
        && is_some (policy_ActivePolicyVersion p) && negb (is_some (policy_ArchivedAt p))
      || String.eqb (policy_Status p) PolicyStatusDraft
         && negb (is_some (policy_ArchivedAt p))
      || String.eqb (policy_Status p) PolicyStatusArchived
         && is_some (policy_ArchivedAt p)).

Definition version_checks (v : PolicyVersion) : bool :=
  (0 <? version_PolicyVersion v)
  && slices_Contains [EffectDeny; EffectRequireApproval] (version_DefaultEffect v)
  && (char_length (version_Notes v) <=? 4000).

Definition length {A} (l : list A) : Z := Z.of_nat (List.length l).

Definition rule_checks `{Json} (r : Rule) : bool :=
  in_bounds 0 100000 (rule_Priority r)
  && in_bounds 1 120 (char_length (rule_Name r))
  && slices_Contains effects_allowed (rule_Effect r)
  && in_bounds 1 64 (length (rule_ActionPatterns r))
  && (length (rule_ResourceTypes r) <=? 64)
  && (length (rule_RiskLevels r) <=? 5)
  && match rule_MaximumEstimatedCostMicroUSD r with
     | Some cost => 0 <=? cost | None => true end
  && in_bounds 1 4096 (char_length (rule_Condition r))
  && (constraints_column_size (rule_Constraints r) <=? 16384)
  && in_bounds 1 1000 (char_length (rule_Reason r)).

(** [jsonb_typeof(resource_attributes) = 'object']: a nil map is stored as the
    JSON value null. *)
Definition decision_checks `{Json} (d : Decision) : bool :=
  slices_Contains [SubjectUser; SubjectAgent; SubjectService]
    (subject_Type (decision_Subject d))
  && slices_Contains [RiskLow; RiskMedium; RiskHigh; RiskCritical] (decision_Risk d)
  && slices_Contains effects_allowed (decision_Effect d)
  && (0 <=? decision_EstimatedCostMicroUSD d)
  && match resource_Attributes (decision_Resource d) with
     | Some o => json_column_size o <=? 65536
     | None => false
     end
  && (constraints_column_size (decision_Constraints d) <=? 16384)
  && (decision_DecidedAt d <? decision_ExpiresAt d)
  && (len (decision_InputHash d) =? 32)
  && (len (decision_Signature d) =? 32).

Section Store.
Context `{Platform, Proto, Json}.

(** ** Tables

    Rows by primary key. The rules of a version are rows of their own; the row of
    a version has none. A decision's row holds what [scanDecision] reads: of the
    subject, its type, identifier and company. *)
Record bootstrap_row := {
  bootstrap_TenantID : string;
  bootstrap_CreatedPolicyIDs : list string;
  bootstrap_ActorUserID : string;
  bootstrap_CreatedAt : Time;
}.

Record policy_tables := {
  policy_sets : gmap (string * string) Policy;
  policy_versions : gmap (string * string * Z) PolicyVersion;
  policy_rules : gmap (string * string * Z * string) Rule;
  policy_decisions : gmap (string * string) Decision;
  policy_bootstrap_requests : gmap string bootstrap_row;
  policy_outbox : outbox_table;
}.

Definition set_policy_sets v (db : policy_tables) : policy_tables := {|
  policy_sets := v; policy_versions := policy_versions db;
  policy_rules := policy_rules db; policy_decisions := policy_decisions db;
  policy_bootstrap_requests := policy_bootstrap_requests db;
  policy_outbox := policy_outbox db |}.
Definition set_policy_versions v (db : policy_tables) : policy_tables := {|
  policy_sets := policy_sets db; policy_versions := v;
  policy_rules := policy_rules db; policy_decisions := policy_decisions db;
  policy_bootstrap_requests := policy_bootstrap_requests db;
  policy_outbox := policy_outbox db |}.
Definition set_policy_rules v (db : policy_tables) : policy_tables := {|
  policy_sets := policy_sets db; policy_versions := policy_versions db;
  policy_rules := v; policy_decisions := policy_decisions db;
  policy_bootstrap_requests := policy_bootstrap_requests db;
  policy_outbox := policy_outbox db |}.
Definition set_policy_decisions v (db : policy_tables) : policy_tables := {|
  policy_sets := policy_sets db; policy_versions := policy_versions db;
  policy_rules := policy_rules db; policy_decisions := v;
  policy_bootstrap_requests := policy_bootstrap_requests db;
  policy_outbox := policy_outbox db |}.
Definition set_policy_bootstrap_requests v (db : policy_tables) : policy_tables := {|
  policy_sets := policy_sets db; policy_versions := policy_versions db;
  policy_rules := policy_rules db; policy_decisions := policy_decisions db;
  policy_bootstrap_requests := v; policy_outbox := policy_outbox db |}.
Definition set_policy_outbox v (db : policy_tables) : policy_tables := {|
  policy_sets := policy_sets db; policy_versions := policy_versions db;
  policy_rules := policy_rules db; policy_decisions := policy_decisions db;
  policy_bootstrap_requests := policy_bootstrap_requests db; policy_outbox := v |}.

Definition no_policy_tables : policy_tables := {|
  policy_sets := ∅; policy_versions := ∅; policy_rules := ∅; policy_decisions := ∅;
  policy_bootstrap_requests := ∅;
  policy_outbox := {| outbox_rows := ∅; outbox_next := 1 |} |}.

(** [policy_sets_active_version_fk], checked when the transaction commits. *)
Definition active_versions_exist (db : policy_tables) : bool :=
  forallb (λ kp, match policy_ActivePolicyVersion kp.2 with
                 | Some v => is_some (policy_versions db !! (kp.1, v))
                 | None => true
                 end) (map_to_list (policy_sets db)).

(** ** policy.go *)

Definition sql_insert_policy (policy : Policy) (sc : Scope) (db : policy_tables)
  : result db_error (unit * policy_tables) :=
  r ← rls_of sc; t ← cast (policy_TenantID policy); p ← cast (policy_ID policy);
  scopeID ← cast_option (policy_ScopeID policy);
  u ← cast (policy_CreatedByUserID policy);
  let row := {|
    policy_TenantID := t; policy_ID := p; policy_ScopeType := policy_ScopeType policy;
    policy_ScopeID := scopeID; policy_Name := policy_Name policy;
    policy_Description := policy_Description policy;
    policy_Status := policy_Status policy;
    policy_ActivePolicyVersion := policy_ActivePolicyVersion policy;
    policy_ResourceVersion := policy_ResourceVersion policy;
    policy_CreatedByUserID := u;
    policy_CreatedAt := timestamptz (policy_CreatedAt policy);
    policy_UpdatedAt := timestamptz (policy_UpdatedAt policy);
    policy_ArchivedAt := timestamptz <$> policy_ArchivedAt policy |} in
  fail_if (negb (tenant_scoped r t)) (ErrRowSecurity "policy_sets");;
  fail_if (negb (policy_checks row)) (ErrCheckViolation "policy_sets");;
  fail_if (is_some (policy_sets db !! (t, p))) (ErrUniqueViolation "policy_sets_pkey");;
  Ok (tt, set_policy_sets (<[(t, p) := row]> (policy_sets db)) db).

Definition sql_policy (tenantID policyID : string) (sc : Scope) (db : policy_tables)
  : result db_error Policy :=
  r ← rls_of sc; t ← cast tenantID; p ← cast policyID;
  match policy_sets db !! (t, p) with
  | Some row => if tenant_scoped r t then Ok row else Err ErrNoRows
  | None => Err ErrNoRows
  end.

Definition policy_le (a b : Policy) : Prop :=
  String.leb (policy_ID a) (policy_ID b) = true.
#[export] Instance policy_le_dec : RelDecision policy_le.
Proof. intros a b. unfold policy_le. apply _. Defined.

Definition sql_list_policies (tenantID : string) (limit : Z) (cursor : option string)
    (includeArchived : bool) (sc : Scope) (db : policy_tables)
  : result db_error (list Policy) :=
  r ← rls_of sc; t ← cast tenantID; after ← cast_option cursor;
  Ok (take (Z.to_nat limit)
       (merge_sort policy_le
          (List.filter (λ p,
             String.eqb (policy_TenantID p) t && tenant_scoped r t
             && match after with
                | Some c => String.ltb c (policy_ID p) | None => true end
             && (includeArchived
                 || negb (String.eqb (policy_Status p) PolicyStatusArchived)))
             (snd <$> map_to_list (policy_sets db))))).

(** The guarded [UPDATE policy_sets]: [WHERE resource_version = $3 AND status <>
    'archived'], one more resource version. The value is the affected-row count. *)
Definition sql_update_policy (tenantID policyID : string) (expected : Z)
    (change : Policy → Policy) (sc : Scope) (db : policy_tables)
  : result db_error (Z * policy_tables) :=
  r ← rls_of sc; t ← cast tenantID; p ← cast policyID;
  match policy_sets db !! (t, p) with
  | Some row =>
      if tenant_scoped r t && (policy_ResourceVersion row =? expected)
         && negb (String.eqb (policy_Status row) PolicyStatusArchived)
      then
        fail_if (int64_max <? policy_ResourceVersion row + 1) ErrOutOfRange;;
        let row' := change row in
        fail_if (negb (policy_checks row')) (ErrCheckViolation "policy_sets");;
        Ok (1, set_policy_sets (<[(t, p) := row']> (policy_sets db)) db)
      else Ok (0, db)
  | None => Ok (0, db)
  end.

Definition touched (updatedAt : Time) (row : Policy) : Policy := {|
  policy_TenantID := policy_TenantID row; policy_ID := policy_ID row;
  policy_ScopeType := policy_ScopeType row; policy_ScopeID := policy_ScopeID row;
  policy_Name := policy_Name row; policy_Description := policy_Description row;
  policy_Status := policy_Status row;
  policy_ActivePolicyVersion := policy_ActivePolicyVersion row;
  policy_ResourceVersion := policy_ResourceVersion row + 1;
  policy_CreatedByUserID := policy_CreatedByUserID row;
  policy_CreatedAt := policy_CreatedAt row; policy_UpdatedAt := timestamptz updatedAt;
  policy_ArchivedAt := policy_ArchivedAt row |}.

Definition activated (version : Z) (at_ : Time) (row : Policy) : Policy := {|
  policy_TenantID := policy_TenantID row; policy_ID := policy_ID row;
  policy_ScopeType := policy_ScopeType row; policy_ScopeID := policy_ScopeID row;
  policy_Name := policy_Name row; policy_Description := policy_Description row;
  policy_Status := PolicyStatusActive; policy_ActivePolicyVersion := Some version;
  policy_ResourceVersion := policy_ResourceVersion row + 1;
  policy_CreatedByUserID := policy_CreatedByUserID row;
  policy_CreatedAt := policy_CreatedAt row; policy_UpdatedAt := timestamptz at_;
  policy_ArchivedAt := policy_ArchivedAt row |}.

Definition archived (at_ : Time) (row : Policy) : Policy := {|
  policy_TenantID := policy_TenantID row; policy_ID := policy_ID row;
  policy_ScopeType := policy_ScopeType row; policy_ScopeID := policy_ScopeID row;
  policy_Name := policy_Name row; policy_Description := policy_Description row;
  policy_Status := PolicyStatusArchived;
  policy_ActivePolicyVersion := policy_ActivePolicyVersion row;
  policy_ResourceVersion := policy_ResourceVersion row + 1;
  policy_CreatedByUserID := policy_CreatedByUserID row;
  policy_CreatedAt := policy_CreatedAt row; policy_UpdatedAt := timestamptz at_;
  policy_ArchivedAt := Some (timestamptz at_) |}.

Definition sql_insert_version (version : PolicyVersion) (sc : Scope)
    (db : policy_tables) : result db_error (unit * policy_tables) :=
  r ← rls_of sc; t ← cast (version_TenantID version);
  p ← cast (version_PolicyID version); u ← cast (version_CreatedByUserID version);
  let row := {|
    version_TenantID := t; version_PolicyID := p;
    version_PolicyVersion := version_PolicyVersion version;
    version_DefaultEffect := version_DefaultEffect version; version_Rules := [];
    version_Notes := version_Notes version; version_CreatedByUserID := u;
    version_CreatedAt := timestamptz (version_CreatedAt version);
    version_ActivatedAt := timestamptz <$> version_ActivatedAt version |} in
  let key := (t, p, version_PolicyVersion version) in
  fail_if (negb (tenant_scoped r t)) (ErrRowSecurity "policy_versions");;
  fail_if (negb (version_checks row)) (ErrCheckViolation "policy_versions");;
  fail_if (is_some (policy_versions db !! key)) (ErrUniqueViolation "policy_versions_pkey");;
  fail_if (negb (is_some (policy_sets db !! (t, p))))
    (ErrForeignKeyViolation "policy_versions");;
  Ok (tt, set_policy_versions (<[key := row]> (policy_versions db)) db).

Definition sql_insert_rule (tenantID policyID : string) (policyVersion : Z)
    (rule : Rule) (sc : Scope) (db : policy_tables)
  : result db_error (unit * policy_tables) :=
  r ← rls_of sc; t ← cast tenantID; p ← cast policyID; id ← cast (rule_ID rule);
  let row := {|
    rule_ID := id; rule_Priority := rule_Priority rule; rule_Name := rule_Name rule;
    rule_Enabled := rule_Enabled rule; rule_Effect := rule_Effect rule;
    rule_ActionPatterns := rule_ActionPatterns rule;
    rule_ResourceTypes := rule_ResourceTypes rule;
    rule_RiskLevels := rule_RiskLevels rule;
    rule_MaximumEstimatedCostMicroUSD := rule_MaximumEstimatedCostMicroUSD rule;
    rule_Condition := rule_Condition rule; rule_Constraints := rule_Constraints rule;
    rule_Reason := rule_Reason rule |} in
  let key := (t, p, policyVersion, id) in
  fail_if (negb (tenant_scoped r t)) (ErrRowSecurity "policy_rules");;
  fail_if (negb (rule_checks row)) (ErrCheckViolation "policy_rules");;
  fail_if (is_some (policy_rules db !! key)) (ErrUniqueViolation "policy_rules_pkey");;
  fail_if (negb (is_some (policy_versions db !! (t, p, policyVersion))))
    (ErrForeignKeyViolation "policy_rules");;
  Ok (tt, set_policy_rules (<[key := row]> (policy_rules db)) db).

(** [COALESCE(activated_at, clock_timestamp())] *)
Definition sql_activate_version (now : Time) (tenantID policyID : string)
    (policyVersion : Z) (sc : Scope) (db : policy_tables)
  : result db_error (unit * policy_tables) :=
  r ← rls_of sc; t ← cast tenantID; p ← cast policyID;
  if tenant_scoped r t then
    Ok (tt, set_policy_versions (alter (λ row, {|
      version_TenantID := version_TenantID row; version_PolicyID := version_PolicyID row;
      version_PolicyVersion := version_PolicyVersion row;
      version_DefaultEffect := version_DefaultEffect row;
      version_Rules := version_Rules row; version_Notes := version_Notes row;
      version_CreatedByUserID := version_CreatedByUserID row;
      version_CreatedAt := version_CreatedAt row;
      version_ActivatedAt := Some (default (timestamptz now) (version_ActivatedAt row)) |})
      (t, p, policyVersion) (policy_versions db)) db)
  else Ok (tt, db).

Definition sql_version (tenantID policyID : string) (policyVersion : Z) (sc : Scope)
    (db : policy_tables) : result db_error PolicyVersion :=
  r ← rls_of sc; t ← cast tenantID; p ← cast policyID;
  match policy_versions db !! (t, p, policyVersion) with
  | Some row => if tenant_scoped r t then Ok row else Err ErrNoRows
  | None => Err ErrNoRows
  end.

Definition rule_priority_le (a b : Rule) : Prop := rule_Priority a ≤ rule_Priority b.
#[export] Instance rule_priority_le_dec : RelDecision rule_priority_le.
Proof. intros a b. apply Z_le_dec. Defined.

Definition sql_rules (tenantID policyID : string) (policyVersion : Z) (sc : Scope)
    (db : policy_tables) : result db_error (list Rule) :=
  r ← rls_of sc; t ← cast tenantID; p ← cast policyID;
  Ok (merge_sort rule_priority_le
        (omap (λ kr : string * string * Z * string * Rule,
           if decide (kr.1.1 = (t, p, policyVersion)) then
             if tenant_scoped r t then Some kr.2 else None
           else None)
           (map_to_list (policy_rules db)))).

(** The rows of [activeBundleSelect], without their rules; the [WHERE] clause of
    [ListActiveBundles]. *)
Definition in_scope (company agent : option string) (p : Policy) : bool :=
  String.eqb (policy_ScopeType p) ScopeTenant && negb (is_some (policy_ScopeID p))
  || String.eqb (policy_ScopeType p) ScopeCompany && is_some company
     && bool_decide (policy_ScopeID p = company)
  || String.eqb (policy_ScopeType p) ScopeAgent && is_some agent
     && bool_decide (policy_ScopeID p = agent).

Definition sql_active_bundles (tenantID : string) (companyID agentID : option string)
    (sc : Scope) (db : policy_tables) : result db_error (list ActiveBundle) :=
  r ← rls_of sc; t ← cast tenantID; company ← cast_option companyID;
  agent ← cast_option agentID;
  Ok (omap (λ kp : string * string * Policy,
        let p := kp.2 in
        if String.eqb kp.1.1 t && tenant_scoped r t
           && String.eqb (policy_Status p) PolicyStatusActive && in_scope company agent p
        then
          v ← policy_ActivePolicyVersion p; row ← policy_versions db !! (kp.1, v);
          Some {| bundle_Policy := p; bundle_Version := row |}
        else None) (map_to_list (policy_sets db))).

(** ** evaluation.go *)

Definition decision_row (d : Decision) : Decision := {|
  decision_ID := decision_ID d; decision_RequestID := decision_RequestID d;
  decision_TenantID := decision_TenantID d;
  decision_CallerService := decision_CallerService d;
  decision_Subject := {|
    subject_Type := subject_Type (decision_Subject d);
    subject_ID := subject_ID (decision_Subject d);
    subject_CompanyID := subject_CompanyID (decision_Subject d);
    subject_AgentAutonomy := ""; subject_AgentStatus := "";
    subject_AgentCapabilities := []; subject_AgentVersion := 0 |};
  decision_Action := decision_Action d; decision_Resource := decision_Resource d;
  decision_Risk := decision_Risk d;
  decision_EstimatedCostMicroUSD := decision_EstimatedCostMicroUSD d;
  decision_Effect := decision_Effect d; decision_Constraints := decision_Constraints d;
  decision_Reason := decision_Reason d;
  decision_MatchedPolicyID := decision_MatchedPolicyID d;
  decision_MatchedPolicyVersion := decision_MatchedPolicyVersion d;
  decision_MatchedRuleID := decision_MatchedRuleID d;
  decision_InputHash := decision_InputHash d;
  decision_DecidedAt := timestamptz (decision_DecidedAt d);
  decision_ExpiresAt := timestamptz (decision_ExpiresAt d);
  decision_SigningKeyID := decision_SigningKeyID d;
  decision_Signature := decision_Signature d |}.

(** The identifiers of a row are [uuid] values, read back as text. *)
Definition with_ids (t id request subject : string) (company policy rule : option string)
    (d : Decision) : Decision := {|
  decision_ID := id; decision_RequestID := request; decision_TenantID := t;
  decision_CallerService := decision_CallerService d;
  decision_Subject := {|
    subject_Type := subject_Type (decision_Subject d); subject_ID := subject;
    subject_CompanyID := company;
    subject_AgentAutonomy := subject_AgentAutonomy (decision_Subject d);
    subject_AgentStatus := subject_AgentStatus (decision_Subject d);
    subject_AgentCapabilities := subject_AgentCapabilities (decision_Subject d);
    subject_AgentVersion := subject_AgentVersion (decision_Subject d) |};
  decision_Action := decision_Action d; decision_Resource := decision_Resource d;
  decision_Risk := decision_Risk d;
  decision_EstimatedCostMicroUSD := decision_EstimatedCostMicroUSD d;
  decision_Effect := decision_Effect d; decision_Constraints := decision_Constraints d;
  decision_Reason := decision_Reason d; decision_MatchedPolicyID := policy;
  decision_MatchedPolicyVersion := decision_MatchedPolicyVersion d;
  decision_MatchedRuleID := rule; decision_InputHash := decision_InputHash d;
  decision_DecidedAt := decision_DecidedAt d; decision_ExpiresAt := decision_ExpiresAt d;
  decision_SigningKeyID := decision_SigningKeyID d;
  decision_Signature := decision_Signature d |}.

Definition sql_insert_decision (decision : Decision) (sc : Scope) (db : policy_tables)
  : result db_error (unit * policy_tables) :=
  r ← rls_of sc; t ← cast (decision_TenantID decision);
  id ← cast (decision_ID decision); request ← cast (decision_RequestID decision);
  subject ← cast (subject_ID (decision_Subject decision));
  company ← cast_option (subject_CompanyID (decision_Subject decision));
  policy ← cast_option (decision_MatchedPolicyID decision);
  rule ← cast_option (decision_MatchedRuleID decision);
  let row := with_ids t id request subject company policy rule (decision_row decision) in
  fail_if (negb (tenant_scoped r t)) (ErrRowSecurity "policy_decisions");;
  fail_if (negb (decision_checks row)) (ErrCheckViolation "policy_decisions");;
  fail_if (is_some (policy_decisions db !! (t, id)))
    (ErrUniqueViolation "policy_decisions_pkey");;
  fail_if (existsb (λ kd, String.eqb (decision_TenantID kd.2) t
                          && String.eqb (decision_RequestID kd.2) request)
             (map_to_list (policy_decisions db)))
    (ErrUniqueViolation "policy_decisions_tenant_id_evaluation_request_id_key");;
  Ok (tt, set_policy_decisions (<[(t, id) := row]> (policy_decisions db)) db).

Definition sql_decision_by_request (tenantID requestID : string) (sc : Scope)
    (db : policy_tables) : result db_error Decision :=
  r ← rls_of sc; t ← cast tenantID; request ← cast requestID;
  match List.find (λ kd : string * string * Decision,
          String.eqb (decision_TenantID kd.2) t
          && String.eqb (decision_RequestID kd.2) request && tenant_scoped r t)
          (map_to_list (policy_decisions db)) with
  | Some kd => Ok kd.2
  | None => Err ErrNoRows
  end.

Definition sql_decision (tenantID decisionID : string) (sc : Scope) (db : policy_tables)
  : result db_error Decision :=
  r ← rls_of sc; t ← cast tenantID; id ← cast decisionID;
  match policy_decisions db !! (t, id) with
  | Some row => if tenant_scoped r t then Ok row else Err ErrNoRows
  | None => Err ErrNoRows
  end.

(** [(decided_at, decision_id)], latest first. *)
Definition decision_before (a b : Time * string) : bool :=
  (a.1 <? b.1) || (a.1 =? b.1) && String.ltb a.2 b.2.
Definition decision_key (d : Decision) : Time * string :=
  (decision_DecidedAt d, decision_ID d).
Definition decision_ge (a b : Decision) : Prop :=
  decision_before (decision_key a) (decision_key b) = false.
#[export] Instance decision_ge_dec : RelDecision decision_ge.
Proof. intros a b. unfold decision_ge. apply _. Defined.

Definition sql_list_decisions (tenantID : string) (subjectID : option string)
    (limit : Z) (cursor : option (Time * string)) (sc : Scope) (db : policy_tables)
  : result db_error (list Decision) :=
  r ← rls_of sc; t ← cast tenantID; subject ← cast_option subjectID;
  before ← match cursor with
           | Some (at_, id) => u ← cast id; Ok (Some (timestamptz at_, u))
           | None => Ok None
           end;
  Ok (take (Z.to_nat limit)
       (merge_sort decision_ge
          (List.filter (λ d,
             String.eqb (decision_TenantID d) t && tenant_scoped r t
             && match subject with
                | Some s => String.eqb (subject_ID (decision_Subject d)) s
                | None => true end
             && match before with
                | Some k => decision_before (decision_key d) k | None => true end)
             (snd <$> map_to_list (policy_decisions db))))).

(** ** bootstrap.go *)

Definition sql_bootstrap_exists (tenantID : string) (sc : Scope) (db : policy_tables)
  : result db_error bool :=
  r ← rls_of sc; t ← cast tenantID;
  Ok (existsb (λ kb, String.eqb (bootstrap_TenantID kb.2) t && tenant_scoped r t)
        (map_to_list (policy_bootstrap_requests db))).

Definition sql_insert_bootstrap (operationID tenantID : string)
    (createdPolicyIDs : list string) (actorUserID : string) (createdAt : Time)
    (sc : Scope) (db : policy_tables) : result db_error (string * policy_tables) :=
  r ← rls_of sc; o ← cast operationID; t ← cast tenantID;
  ids ← mapM cast createdPolicyIDs; u ← cast actorUserID;
  fail_if (negb (tenant_scoped r t)) (ErrRowSecurity "policy_bootstrap_requests");;
  fail_if (match ids with [] => true | _ => false end)
    (ErrCheckViolation "policy_bootstrap_requests");;
  fail_if (is_some (policy_bootstrap_requests db !! o))
    (ErrUniqueViolation "policy_bootstrap_requests_pkey");;
  fail_if (existsb (λ kb, String.eqb (bootstrap_TenantID kb.2) t)
             (map_to_list (policy_bootstrap_requests db)))
    (ErrUniqueViolation "policy_bootstrap_requests_tenant_id_key");;
  Ok (o, set_policy_bootstrap_requests
           (<[o := {| bootstrap_TenantID := t; bootstrap_CreatedPolicyIDs := ids;
                      bootstrap_ActorUserID := u;
                      bootstrap_CreatedAt := timestamptz createdAt |}]>
              (policy_bootstrap_requests db)) db).

(** [SELECT policy_id::text FROM policy_bootstrap_requests]: the table has the
    columns of [bootstrap_row] and the operation's identifier, and no
    [policy_id]; PostgreSQL rejects the statement. *)
Definition sql_bootstrap_policy_ids (tenantID : string) (sc : Scope)
    (db : policy_tables) : result db_error (list string) :=
  Err (ErrUndefinedColumn "policy_id").

End Store.
