(* ===== verification/PolicyRepository.v ===== *)
(** * Policy approval: the repository

    Models [services/policy-approval/internal/adapters/postgres] ([repository.go],
    [policy.go], [evaluation.go], [bootstrap.go]) and the parameter structs of
    [services/policy-approval/internal/ports/repository.go]. Each method is the
    sequence of statements of the source, those after the commit included; the
    outbox operations are those of [Outbox], on the table of this service. *)

From S2P Require Import Prelude GoStrings Postgres Usecase Outbox.
From S2P Require Import PolicyEngine PolicyStore.
From stdpp Require Import strings gmap list.
From Stdlib Require Import String Lia.
Open Scope string_scope.
Open Scope list_scope.
Open Scope Z_scope.

#[local] Notation Decision := PolicyEngine.Decision.

(** A [timestamptz] column scanned into a Go [any]: the driver stores a
    [time.Time] there; [optionalTime] looks for a [*time.Time]. *)
Inductive any_time :=
| AnyNil
| AnyTime (t : Time)
| AnyTimePointer (t : option Time).

Definition scan_any_time (column : option Time) : any_time :=
  match column with Some t => AnyTime t | None => AnyNil end.

Definition optionalTime (value : any_time) : option Time :=
  match value with AnyTimePointer t => t | _ => None end.

(** The columns of [policySelect] scanned into a domain value. *)
Definition scanPolicy (row : Policy) : Policy := {|
  policy_TenantID := policy_TenantID row; policy_ID := policy_ID row;
  policy_ScopeType := policy_ScopeType row; policy_ScopeID := policy_ScopeID row;
  policy_Name := policy_Name row; policy_Description := policy_Description row;
  policy_Status := policy_Status row;
  policy_ActivePolicyVersion :=
    match policy_ActivePolicyVersion row with
    | Some v => if 0 <? v then Some v else None
    | None => None
    end;
  policy_ResourceVersion := policy_ResourceVersion row;
  policy_CreatedByUserID := policy_CreatedByUserID row;
  policy_CreatedAt := policy_CreatedAt row; policy_UpdatedAt := policy_UpdatedAt row;
  policy_ArchivedAt := optionalTime (scan_any_time (policy_ArchivedAt row)) |}.

Definition scanVersion (row : PolicyVersion) : PolicyVersion := {|
  version_TenantID := version_TenantID row; version_PolicyID := version_PolicyID row;
  version_PolicyVersion := version_PolicyVersion row;
  version_DefaultEffect := version_DefaultEffect row; version_Rules := [];
  version_Notes := version_Notes row;
  version_CreatedByUserID := version_CreatedByUserID row;
  version_CreatedAt := version_CreatedAt row;
  version_ActivatedAt := optionalTime (scan_any_time (version_ActivatedAt row)) |}.

Definition with_rules (rules : list Rule) (v : PolicyVersion) : PolicyVersion := {|
  version_TenantID := version_TenantID v; version_PolicyID := version_PolicyID v;
  version_PolicyVersion := version_PolicyVersion v;
  version_DefaultEffect := version_DefaultEffect v; version_Rules := rules;
  version_Notes := version_Notes v; version_CreatedByUserID := version_CreatedByUserID v;
  version_CreatedAt := version_CreatedAt v; version_ActivatedAt := version_ActivatedAt v |}.

Definition scanActiveBundle (row : ActiveBundle) : ActiveBundle :=
  let policy := scanPolicy (bundle_Policy row) in
  let version := bundle_Version row in {|
    bundle_Policy := policy;
    bundle_Version := {|
      version_TenantID := policy_TenantID policy; version_PolicyID := policy_ID policy;
      version_PolicyVersion := default 0 (policy_ActivePolicyVersion policy);
      version_DefaultEffect := version_DefaultEffect version; version_Rules := [];
      version_Notes := version_Notes version;
      version_CreatedByUserID := version_CreatedByUserID version;
      version_CreatedAt := version_CreatedAt version;
      version_ActivatedAt := optionalTime (scan_any_time (version_ActivatedAt version))
    |} |}.

Section Repository.
Context `{Platform, Proto, Json}.

(** ** ports/repository.go *)

Record CreatePolicyParams := {
  createPolicy_ActorUserID : string;
  createPolicy_Policy : Policy;
  createPolicy_Event : OutboxEvent;
}.

Record CreateVersionParams := {
  createVersion_ActorUserID : string;
  createVersion_Policy : Policy;
  createVersion_Version : PolicyVersion;
  createVersion_ExpectedResourceVersion : Z;
  createVersion_Event : OutboxEvent;
}.

Record ActivatePolicyParams := {
  activate_ActorUserID : string;
  activate_TenantID : string;
  activate_PolicyID : string;
  activate_PolicyVersion : Z;
  activate_ExpectedResourceVersion : Z;
  activate_ActivatedAt : Time;
  activate_Event : OutboxEvent;
}.

Record ArchivePolicyParams := {
  archive_ActorUserID : string;
  archive_TenantID : string;
  archive_PolicyID : string;
  archive_ExpectedResourceVersion : Z;
  archive_ArchivedAt : Time;
  archive_Event : OutboxEvent;
}.

Record RecordDecisionParams := {
  record_ServicePrincipalID : string;
  record_Decision : Decision;
  record_DecisionEvent : OutboxEvent;
}.

Record EnsureDefaultsParams := {
  ensure_ServicePrincipalID : string;
  ensure_TenantID : string;
  ensure_OnboardingOperationID : string;
  ensure_ActorUserID : string;
  ensure_Policies : list Policy;
  ensure_Versions : list PolicyVersion;
  ensure_Events : list OutboxEvent;
  ensure_CreatedAt : Time;
}.

(** ** repository.go *)

Definition repo (A : Type) : Type := tx policy_tables error A.

Definition beginUserTenant (ctx : Ctx) (tenantID actorUserID : string)
    (read_only : bool) : repo unit :=
  Begin (TenantScope tenantID actorUserID (ctx_RequestID ctx) (ctx_CorrelationID ctx))
    read_only.
Definition beginServiceTenant (ctx : Ctx) (servicePrincipalID tenantID : string)
    (read_only : bool) : repo unit :=
  Begin (ServiceTenantScope tenantID servicePrincipalID (ctx_RequestID ctx)
           (ctx_CorrelationID ctx)) read_only.

(** [commit]: deferred constraints are checked first; a violation aborts the
    transaction. *)
Definition commit : repo unit :=
  (s ← raw (λ s, (Ok s, s));
   lift_db (fail_if (negb (is_some (session_committed s))
                     && negb (active_versions_exist (session_db s)))
              (ErrForeignKeyViolation "policy_sets_active_version_fk")));;
  Postgres.commit.

Definition insertOutbox (tenantID : string) (event : OutboxEvent) : repo unit :=
  map_err mapDatabaseError
    (now ← clock_timestamp;
     exec (λ _ db, ob ← sql_insert_outbox now tenantID event (policy_outbox db);
                   Ok (tt, set_policy_outbox ob db))).

(** ** policy.go *)

Definition insertPolicy (policy : Policy) : repo unit :=
  map_err mapDatabaseError (exec (sql_insert_policy policy)).

Definition queryPolicy (tenantID policyID : string) : repo Policy :=
  row ← map_err mapDatabaseError (query (sql_policy tenantID policyID));
  mret (scanPolicy row).

Definition queryRules (tenantID policyID : string) (policyVersion : Z) : repo (list Rule) :=
  map_err mapDatabaseError (query (sql_rules tenantID policyID policyVersion)).

Definition queryPolicyVersion (tenantID policyID : string) (policyVersion : Z)
  : repo PolicyVersion :=
  row ← map_err mapDatabaseError (query (sql_version tenantID policyID policyVersion));
  rules ← queryRules tenantID policyID policyVersion;
  mret (with_rules rules (scanVersion row)).

Definition CreatePolicy (ctx : Ctx) (params : CreatePolicyParams) : repo Policy :=
  let policy := createPolicy_Policy params in
  beginUserTenant ctx (policy_TenantID policy) (createPolicy_ActorUserID params) false;;
  insertPolicy policy;;
  insertOutbox (policy_TenantID policy) (createPolicy_Event params);;
  commit;; mret policy.

Definition GetPolicy (ctx : Ctx) (actorUserID tenantID policyID : string)
  : repo (Policy * option PolicyVersion) :=
  beginUserTenant ctx tenantID actorUserID true;;
  policy ← queryPolicy tenantID policyID;
  version ← match policy_ActivePolicyVersion policy with
            | Some v => loaded ← queryPolicyVersion tenantID policyID v; mret (Some loaded)
            | None => mret None
            end;
  commit;; mret (policy, version).

Definition ListPolicies (ctx : Ctx) (actorUserID tenantID : string) (limit : Z)
    (cursor : option string) (includeArchived : bool) : repo (list Policy) :=
  beginUserTenant ctx tenantID actorUserID true;;
  rows ← map_err mapDatabaseError
           (query (sql_list_policies tenantID limit cursor includeArchived));
  commit;; mret (scanPolicy <$> rows).

Fixpoint insertRules (tenantID policyID : string) (policyVersion : Z)
    (rules : list Rule) : repo unit :=
  match rules with
  | [] => mret tt
  | rule :: rules' =>
      map_err mapDatabaseError (exec (sql_insert_rule tenantID policyID policyVersion rule));;
      insertRules tenantID policyID policyVersion rules'
  end.

Definition insertVersion (version : PolicyVersion) : repo unit :=
  map_err mapDatabaseError (exec (sql_insert_version version));;
  insertRules (version_TenantID version) (version_PolicyID version)
    (version_PolicyVersion version) (version_Rules version).

Definition rejectPolicyVersionOrMissing (tenantID policyID : string) : repo unit :=
  row ← map_err (λ e, match e with ErrDatabase ErrNoRows => ErrNotFound | _ => e end)
          (query (sql_policy tenantID policyID));
  lift (if String.eqb (policy_Status row) PolicyStatusArchived
        then Err ErrConflict else Err ErrVersionConflict).

(** The guarded update, and what its zero affected rows are reported as. *)
Definition updatePolicySet (tenantID policyID : string) (expected : Z)
    (change : Policy → Policy) : repo unit :=
  affected ← map_err mapDatabaseError
               (exec (sql_update_policy tenantID policyID expected change));
  if affected =? 0 then rejectPolicyVersionOrMissing tenantID policyID else mret tt.

Definition CreateVersion (ctx : Ctx) (params : CreateVersionParams)
  : repo (Policy * PolicyVersion) :=
  let policy := createVersion_Policy params in
  let tenantID := policy_TenantID policy in
  beginUserTenant ctx tenantID (createVersion_ActorUserID params) false;;
  insertVersion (createVersion_Version params);;
  updatePolicySet tenantID (policy_ID policy)
    (createVersion_ExpectedResourceVersion params) (touched (policy_UpdatedAt policy));;
  insertOutbox tenantID (createVersion_Event params);;
  commit;; mret (policy, createVersion_Version params).

Definition activateVersionRow (tenantID policyID : string) (policyVersion : Z) : repo unit :=
  map_err mapDatabaseError
    (now ← clock_timestamp;
     exec (sql_activate_version now tenantID policyID policyVersion)).

Definition ActivatePolicy (ctx : Ctx) (params : ActivatePolicyParams)
  : repo (Policy * PolicyVersion) :=
  let tenantID := activate_TenantID params in
  let policyID := activate_PolicyID params in
  beginUserTenant ctx tenantID (activate_ActorUserID params) false;;
  activateVersionRow tenantID policyID (activate_PolicyVersion params);;
  updatePolicySet tenantID policyID (activate_ExpectedResourceVersion params)
    (activated (activate_PolicyVersion params) (activate_ActivatedAt params));;
  insertOutbox tenantID (activate_Event params);;
  commit;;
  policy ← queryPolicy tenantID policyID;
  version ← queryPolicyVersion tenantID policyID (activate_PolicyVersion params);
  mret (policy, version).

Definition ArchivePolicy (ctx : Ctx) (params : ArchivePolicyParams) : repo Policy :=
  let tenantID := archive_TenantID params in
  let policyID := archive_PolicyID params in
  beginUserTenant ctx tenantID (archive_ActorUserID params) false;;
  updatePolicySet tenantID policyID (archive_ExpectedResourceVersion params)
    (archived (archive_ArchivedAt params));;
  insertOutbox tenantID (archive_Event params);;
  commit;;
  queryPolicy tenantID policyID.

Fixpoint loadRules (bundles : list ActiveBundle) : repo (list ActiveBundle) :=
  match bundles with
  | [] => mret []
  | bundle :: bundles' =>
      rules ← queryRules (policy_TenantID (bundle_Policy bundle))
                (policy_ID (bundle_Policy bundle))
                (version_PolicyVersion (bundle_Version bundle));
      rest ← loadRules bundles';
      mret ({| bundle_Policy := bundle_Policy bundle;
               bundle_Version := with_rules rules (bundle_Version bundle) |} :: rest)
  end.

(** SQL does not promise an order for the bundles: [arrange] is the order the
    server picks. *)
Definition ListActiveBundles (arrange : list ActiveBundle → list ActiveBundle)
    (ctx : Ctx) (servicePrincipalID tenantID : string) (companyID agentID : option string)
  : repo (list ActiveBundle) :=
  beginServiceTenant ctx servicePrincipalID tenantID true;;
  rows ← map_err mapDatabaseError (query (sql_active_bundles tenantID companyID agentID));
  bundles ← loadRules (scanActiveBundle <$> arrange rows);
  commit;; mret bundles.

(** ** evaluation.go *)

Definition FindDecisionByRequestID (ctx : Ctx)
    (servicePrincipalID tenantID requestID : string) : repo Decision :=
  beginServiceTenant ctx servicePrincipalID tenantID true;;
  decision ← map_err mapDatabaseError (query (sql_decision_by_request tenantID requestID));
  commit;; mret decision.

Definition insertDecision (decision : Decision) : repo unit :=
  map_err mapDatabaseError (exec (sql_insert_decision decision)).

Definition RecordDecision (ctx : Ctx) (params : RecordDecisionParams) : repo Decision :=
  let decision := record_Decision params in
  beginServiceTenant ctx (record_ServicePrincipalID params) (decision_TenantID decision)
    false;;
  insertDecision decision;;
  insertOutbox (decision_TenantID decision) (record_DecisionEvent params);;
  commit;; mret decision.

Definition GetDecision (ctx : Ctx) (actorUserID tenantID decisionID : string)
  : repo Decision :=
  beginUserTenant ctx tenantID actorUserID true;;
  decision ← map_err mapDatabaseError (query (sql_decision tenantID decisionID));
  commit;; mret decision.

Definition ListDecisions (ctx : Ctx) (actorUserID tenantID : string)
    (subjectID : option string) (limit : Z) (cursor : option (Time * string))
  : repo (list Decision) :=
  beginUserTenant ctx tenantID actorUserID true;;
  decisions ← map_err mapDatabaseError
                (query (sql_list_decisions tenantID subjectID limit cursor));
  commit;; mret decisions.

(** ** bootstrap.go *)

Fixpoint insertDefaults (policies : list (Policy * PolicyVersion)) : repo unit :=
  match policies with
  | [] => mret tt
  | (policy, version) :: policies' =>
      insertPolicy policy;; insertVersion version;; insertDefaults policies'
  end.

(** [loadBootstrapPolicies], a transaction of its own, up to the query that
    PostgreSQL rejects, and what would follow. *)
Definition bootstrapPolicyIDs (ctx : Ctx) (servicePrincipalID tenantID : string)
  : repo (list string) :=
  beginServiceTenant ctx servicePrincipalID tenantID true;;
  ids ← map_err mapDatabaseError (query (sql_bootstrap_policy_ids tenantID));
  commit;; mret ids.

Definition loadBootstrapPolicy (ctx : Ctx) (servicePrincipalID tenantID policyID : string)
  : repo Policy :=
  beginServiceTenant ctx servicePrincipalID tenantID true;;
  policy ← queryPolicy tenantID policyID;
  commit;; mret policy.

(** The first transaction of [EnsureDefaults]. The events of the parameters are
    not used. *)
Definition ensureDefaults_create (ctx : Ctx) (params : EnsureDefaultsParams) : repo unit :=
  beginServiceTenant ctx (ensure_ServicePrincipalID params) (ensure_TenantID params) false;;
  exists_ ← map_err mapDatabaseError (query (sql_bootstrap_exists (ensure_TenantID params)));
  if exists_ : bool then commit else
    insertDefaults (zip (ensure_Policies params) (ensure_Versions params));;
    map_err mapDatabaseError
      (exec (sql_insert_bootstrap (ensure_OnboardingOperationID params)
               (ensure_TenantID params) (policy_ID <$> ensure_Policies params)
               (ensure_ActorUserID params) (ensure_CreatedAt params)));;
    commit.

Fixpoint loadBootstrapPolicies_each (ctx : Ctx) (servicePrincipalID tenantID : string)
    (policyIDs : list string) : Usecase.app policy_tables error (list Policy) :=
  match policyIDs with
  | [] => mret []
  | policyID :: policyIDs' =>
      policy ← call (loadBootstrapPolicy ctx servicePrincipalID tenantID policyID);
      rest ← loadBootstrapPolicies_each ctx servicePrincipalID tenantID policyIDs';
      mret (policy :: rest)
  end.

Definition loadBootstrapPolicies (ctx : Ctx) (servicePrincipalID tenantID : string)
  : Usecase.app policy_tables error (list Policy) :=
  policyIDs ← call (bootstrapPolicyIDs ctx servicePrincipalID tenantID);
  loadBootstrapPolicies_each ctx servicePrincipalID tenantID policyIDs.

(** Both branches go on to load what the bootstrap created. *)
Definition EnsureDefaults (ctx : Ctx) (params : EnsureDefaultsParams)
  : Usecase.app policy_tables error (list Policy) :=
  call (ensureDefaults_create ctx params);;
  loadBootstrapPolicies ctx (ensure_ServicePrincipalID params) (ensure_TenantID params).

End Repository.
