(* ===== verification/PolicyService.v ===== *)
(** * Policy approval: the application layer

    Models [services/policy-approval/internal/application] ([evaluation.go],
    [management.go], [bootstrap.go], [validation.go], [events.go],
    [policy_events.go]), the decision signer ([internal/security/signer.go]) and
    the tenant authorizer ([internal/adapters/authorization/tenant.go]). *)

From S2P Require Import Prelude GoStrings Postgres Usecase Outbox PolicyEngine.
From S2P Require TenantDomain.
From S2P Require Import PolicyStore PolicyRepository.
From stdpp Require Import strings gmap list.
From Stdlib Require Import String Lia.
Open Scope string_scope.
Open Scope list_scope.
Open Scope Z_scope.

#[local] Notation Decision := PolicyEngine.Decision.
#[local] Notation app := (Usecase.app policy_tables error).
#[local] Notation world := (Usecase.world policy_tables).

(** ** validation.go *)

Section Validation.
Context `{Platform}.

Definition validateUUID (value : string) : result error unit :=
  let value := TrimSpace value in
  fail_if (String.eqb value "") ErrInvalidArgument;;
  fail_if (negb (is_some (uuid_Parse value))) ErrInvalidArgument.

Definition boundedText (value : string) (maxLength : Z) : result error unit :=
  fail_if (String.eqb (TrimSpace value) "") ErrInvalidArgument;;
  fail_if (maxLength <? len value) ErrInvalidArgument.

Definition optionalBoundedText (value : string) (maxLength : Z) : result error unit :=
  if String.eqb value "" then Ok tt
  else fail_if (maxLength <? len value) ErrInvalidArgument.

End Validation.

(** ** protoutil/mapping.go

    The messages [PolicyDecision] and [EvaluateRequest] have the fields of the
    domain values but for those erased here; a value without an enum constant is
    sent as the unspecified one. *)
Definition proto_enum (known : list string) (value : string) : string :=
  if slices_Contains known value then value else "".

Definition protoutil_Subject (s : Subject) : Subject := {|
  subject_Type := proto_enum [SubjectUser; SubjectAgent; SubjectService] (subject_Type s);
  subject_ID := subject_ID s; subject_CompanyID := subject_CompanyID s;
  subject_AgentAutonomy := ""; subject_AgentStatus := "";
  subject_AgentCapabilities := []; subject_AgentVersion := 0 |}.

Definition proto_Risk : Risk → Risk :=
  proto_enum [RiskLow; RiskMedium; RiskHigh; RiskCritical].

Definition protoutil_Decision `{Json} (d : Decision) : Decision := {|
  decision_ID := decision_ID d; decision_RequestID := decision_RequestID d;
  decision_TenantID := decision_TenantID d; decision_CallerService := "";
  decision_Subject := protoutil_Subject (decision_Subject d);
  decision_Action := decision_Action d; decision_Resource := decision_Resource d;
  decision_Risk := proto_Risk (decision_Risk d);
  decision_EstimatedCostMicroUSD := decision_EstimatedCostMicroUSD d;
  decision_Effect := proto_enum effects_allowed (decision_Effect d);
  decision_Constraints := decision_Constraints d; decision_Reason := decision_Reason d;
  decision_MatchedPolicyID := decision_MatchedPolicyID d;
  decision_MatchedPolicyVersion := decision_MatchedPolicyVersion d;
  decision_MatchedRuleID := decision_MatchedRuleID d; decision_InputHash := "";
  decision_DecidedAt := decision_DecidedAt d; decision_ExpiresAt := decision_ExpiresAt d;
  decision_SigningKeyID := decision_SigningKeyID d;
  decision_Signature := decision_Signature d |}.

Definition protoutil_EvaluationInput `{Json} (i : EvaluationInput) : EvaluationInput := {|
  input_RequestID := input_RequestID i; input_TenantID := input_TenantID i;
  input_CallerService := ""; input_Subject := protoutil_Subject (input_Subject i);
  input_Action := input_Action i; input_Resource := input_Resource i;
  input_Risk := proto_Risk (input_Risk i);
  input_EstimatedCostMicroUSD := input_EstimatedCostMicroUSD i;
  input_Context := input_Context i |}.

(** The event payloads of [gereh.policy.v1]. *)
Inductive PolicyMessage `{Json} :=
| PolicyCreated (policy : Policy)
| PolicyVersionCreated (tenantID policyID : string) (version : PolicyVersion)
| PolicyActivated (tenantID policyID : string) (version : PolicyVersion)
| PolicyArchived (tenantID policyID archivedByUserID : string)
| PolicyDecisionRecorded (decision : Decision).

(** [proto.Marshal] of the service's messages, and the digests of their bytes
    ([crypto/sha256], [crypto/hmac]); a digest is a string of bytes. *)
Class PolicyProto `{Proto, Json} := {
  marshal_policy_message : PolicyMessage → option wire;
  marshal_policy_decision : Decision → option wire;
  marshal_evaluate_request : EvaluationInput → option wire;
  sha256_Sum256 : wire → string;
  hmac_sha256 : string → wire → string;
}.

Section Service.
Context `{Platform, PolicyProto, !Cel}.

(** ** security/signer.go *)

Record Signer := { signer_keyID : string; signer_key : string }.

Definition without_signature (d : Decision) : Decision := {|
  decision_ID := decision_ID d; decision_RequestID := decision_RequestID d;
  decision_TenantID := decision_TenantID d;
  decision_CallerService := decision_CallerService d;
  decision_Subject := decision_Subject d; decision_Action := decision_Action d;
  decision_Resource := decision_Resource d; decision_Risk := decision_Risk d;
  decision_EstimatedCostMicroUSD := decision_EstimatedCostMicroUSD d;
  decision_Effect := decision_Effect d; decision_Constraints := decision_Constraints d;
  decision_Reason := decision_Reason d;
  decision_MatchedPolicyID := decision_MatchedPolicyID d;
  decision_MatchedPolicyVersion := decision_MatchedPolicyVersion d;
  decision_MatchedRuleID := decision_MatchedRuleID d;
  decision_InputHash := decision_InputHash d; decision_DecidedAt := decision_DecidedAt d;
  decision_ExpiresAt := decision_ExpiresAt d;
  decision_SigningKeyID := decision_SigningKeyID d; decision_Signature := "" |}.

Definition Sign (signer : Signer) (message : Decision) : result error string :=
  encoded ← from_option_err ErrInternal
              (marshal_policy_decision (without_signature message));
  Ok (hmac_sha256 (signer_key signer) encoded).

Definition Verify (signer : Signer) (message : Decision) : bool :=
  match Sign signer message with
  | Ok expected => String.eqb expected (decision_Signature message)
  | Err _ => false
  end.

(** ** events.go, policy_events.go *)

Definition newOutboxEvent (eventID : option string) (ctx : Ctx)
    (topic key eventType tenantID aggregateType aggregateID : string)
    (aggregateVersion : Z) (payload : PolicyMessage) (now : Time)
  : result error OutboxEvent :=
  eventID ← from_option_err ErrInternal eventID;
  payloadBytes ← from_option_err ErrInternal (marshal_policy_message payload);
  envelopeBytes ← from_option_err ErrInternal (marshal_envelope {|
    envelope_EventId := eventID; envelope_EventType := eventType;
    envelope_EventVersion := 1; envelope_TenantId := tenantID;
    envelope_AggregateType := aggregateType; envelope_AggregateId := aggregateID;
    envelope_AggregateVersion := aggregateVersion mod 2 ^ 64;
    envelope_OccurredAt := Some now; envelope_Producer := "policy-approval";
    envelope_TraceId := ctx_TraceID ctx; envelope_CorrelationId := ctx_CorrelationID ctx;
    envelope_CausationId := ctx_RequestID ctx; envelope_Payload := payloadBytes |});
  Ok {| event_ID := eventID; event_Topic := topic; event_Key := key;
        event_Envelope := envelopeBytes; event_OccurredAt := now |}.

Definition newPolicyCreatedEvent (eventID : option string) (ctx : Ctx) (topic : string)
    (policy : Policy) (now : Time) : result error OutboxEvent :=
  newOutboxEvent eventID ctx topic (policy_ID policy) "policy.created"
    (policy_TenantID policy) "policy" (policy_ID policy) 1 (PolicyCreated policy) now.

Definition newPolicyVersionCreatedEvent (eventID : option string) (ctx : Ctx)
    (topic tenantID policyID : string) (version : PolicyVersion) (now : Time)
  : result error OutboxEvent :=
  newOutboxEvent eventID ctx topic policyID "policy.version_created" tenantID "policy"
    policyID (version_PolicyVersion version)
    (PolicyVersionCreated tenantID policyID version) now.

(** A version with these identifiers and no more. *)
Definition bare_version (tenantID policyID : string) (policyVersion : Z)
  : PolicyVersion := {|
  version_TenantID := tenantID; version_PolicyID := policyID;
  version_PolicyVersion := policyVersion; version_DefaultEffect := "";
  version_Rules := []; version_Notes := ""; version_CreatedByUserID := "";
  version_CreatedAt := 0; version_ActivatedAt := None |}.

Definition newPolicyActivatedEvent (eventID : option string) (ctx : Ctx)
    (topic tenantID policyID : string) (policyVersion : Z) (now : Time)
  : result error OutboxEvent :=
  newOutboxEvent eventID ctx topic policyID "policy.activated" tenantID "policy" policyID
    policyVersion
    (PolicyActivated tenantID policyID (bare_version tenantID policyID policyVersion)) now.

Definition newPolicyArchivedEvent (eventID : option string) (ctx : Ctx)
    (topic tenantID policyID archivedByUserID : string) (now : Time)
  : result error OutboxEvent :=
  newOutboxEvent eventID ctx topic policyID "policy.archived" tenantID "policy" policyID 0
    (PolicyArchived tenantID policyID archivedByUserID) now.

Definition newDecisionEvent (eventID : option string) (ctx : Ctx) (topic : string)
    (decision : Decision) : result error OutboxEvent :=
  newOutboxEvent eventID ctx topic
    (default (subject_ID (decision_Subject decision))
       (subject_CompanyID (decision_Subject decision)))
    "policy.decision_recorded" (decision_TenantID decision) "policy_decision"
    (decision_ID decision) 0 (PolicyDecisionRecorded (protoutil_Decision decision))
    (decision_DecidedAt decision).

(** ** service.go *)

Record Config := {
  config_EventTopic : string;
  config_EvaluationServicePrincipalID : string;
  config_BootstrapServicePrincipalID : string;
  config_DecisionTTL : Z;
}.

(** [New], with its collaborators present. *)
Definition New (config : Config) : result error Config :=
  fail_if (String.eqb (TrimSpace (config_EventTopic config)) "") ErrInternal;;
  validateUUID (config_EvaluationServicePrincipalID config);;
  validateUUID (config_BootstrapServicePrincipalID config);;
  fail_if (config_DecisionTTL config <=? 0) ErrInternal;;
  Ok config.

(** The collaborators of a call: the tenant service's [CheckAuthorization] and the
    organization service's [GetAgentPolicyContext] as their clients return them. *)
Record Clients := {
  CheckAuthorization : string → string → TenantDomain.Permission →
    result error (option TenantDomain.AuthorizationDecision);
  GetAgentPolicyContext : string → string → result error Subject;
}.

Variables (config : Config) (signer : Signer) (clients : Clients).
Let topic := config_EventTopic config.

(** adapters/authorization/tenant.go *)
Definition Authorizer_Require (actorUserID tenantID : string) (permission : TenantDomain.Permission)
  : result error unit :=
  response ← CheckAuthorization clients actorUserID tenantID permission;
  decision ← from_option_err ErrInternal response;
  if TenantDomain.decision_Allowed decision then Ok tt
  else if String.eqb (TenantDomain.decision_DenialReason decision)
            TenantDomain.DenialReasonTenantNotActive
          || String.eqb (TenantDomain.decision_DenialReason decision)
               TenantDomain.DenialReasonTenantArchived
  then Err ErrTenantNotActive
  else Err ErrForbidden.

(** ** evaluation.go *)

Definition validateEvaluation (input : EvaluationInput) : result error unit :=
  validateUUID (input_RequestID input);;
  validateUUID (input_TenantID input);;
  fail_if (String.eqb (input_CallerService input) "") ErrInvalidArgument;;
  fail_if (String.eqb (subject_Type (input_Subject input)) "") ErrInvalidArgument;;
  validateUUID (subject_ID (input_Subject input));;
  boundedText (input_Action input) 256;;
  boundedText (resource_Type (input_Resource input)) 256;;
  boundedText (resource_ID (input_Resource input)) 512;;
  fail_if (String.eqb (input_Risk input) "") ErrInvalidArgument;;
  fail_if (input_EstimatedCostMicroUSD input <? 0) ErrInvalidArgument.

Definition resolveSubject (tenantID : string) (subject : Subject) : result error Subject :=
  if negb (String.eqb (subject_Type subject) SubjectAgent) then Ok subject
  else GetAgentPolicyContext clients tenantID (subject_ID subject).

Definition agentIDForScope (subject : Subject) : option string :=
  if negb (String.eqb (subject_Type subject) SubjectAgent) then None
  else Some (subject_ID subject).

Definition hashEvaluationInput (input : EvaluationInput) : result error string :=
  encoded ← from_option_err ErrInternal
              (marshal_evaluate_request (protoutil_EvaluationInput input));
  Ok (sha256_Sum256 encoded).

Definition with_subject (subject : Subject) (input : EvaluationInput) : EvaluationInput := {|
  input_RequestID := input_RequestID input; input_TenantID := input_TenantID input;
  input_CallerService := input_CallerService input; input_Subject := subject;
  input_Action := input_Action input; input_Resource := input_Resource input;
  input_Risk := input_Risk input;
  input_EstimatedCostMicroUSD := input_EstimatedCostMicroUSD input;
  input_Context := input_Context input |}.

(** The decision on a result, without its signature. *)
Definition unsigned_decision (decisionID : string) (evaluation : EvaluationInput)
    (result : Result) (inputHash : string) (now : Time) : Decision := {|
  decision_ID := decisionID; decision_RequestID := input_RequestID evaluation;
  decision_TenantID := input_TenantID evaluation;
  decision_CallerService := input_CallerService evaluation;
  decision_Subject := input_Subject evaluation;
  decision_Action := input_Action evaluation;
  decision_Resource := input_Resource evaluation;
  decision_Risk := input_Risk evaluation;
  decision_EstimatedCostMicroUSD := input_EstimatedCostMicroUSD evaluation;
  decision_Effect := result_Effect result;
  decision_Constraints := result_Constraints result;
  decision_Reason := result_Reason result;
  decision_MatchedPolicyID := result_MatchedPolicyID result;
  decision_MatchedPolicyVersion := result_MatchedPolicyVersion result;
  decision_MatchedRuleID := result_MatchedRuleID result;
  decision_InputHash := inputHash; decision_DecidedAt := now;
  decision_ExpiresAt := now + config_DecisionTTL config;
  decision_SigningKeyID := signer_keyID signer; decision_Signature := "" |}.

Definition with_signature (signature : string) (d : Decision) : Decision := {|
  decision_ID := decision_ID d; decision_RequestID := decision_RequestID d;
  decision_TenantID := decision_TenantID d;
  decision_CallerService := decision_CallerService d;
  decision_Subject := decision_Subject d; decision_Action := decision_Action d;
  decision_Resource := decision_Resource d; decision_Risk := decision_Risk d;
  decision_EstimatedCostMicroUSD := decision_EstimatedCostMicroUSD d;
  decision_Effect := decision_Effect d; decision_Constraints := decision_Constraints d;
  decision_Reason := decision_Reason d;
  decision_MatchedPolicyID := decision_MatchedPolicyID d;
  decision_MatchedPolicyVersion := decision_MatchedPolicyVersion d;
  decision_MatchedRuleID := decision_MatchedRuleID d;
  decision_InputHash := decision_InputHash d; decision_DecidedAt := decision_DecidedAt d;
  decision_ExpiresAt := decision_ExpiresAt d;
  decision_SigningKeyID := decision_SigningKeyID d; decision_Signature := signature |}.

(** From the result of the engine to the parameters of [RecordDecision]. *)
Definition RecordDecision_params (ctx : Ctx) (evaluation : EvaluationInput)
    (result : Result) (inputHash : string) (w : world)
  : Prelude.result error RecordDecisionParams :=
  decisionID ← from_option_err ErrInternal (world_ids w 0%nat);
  let decision := unsigned_decision decisionID evaluation result inputHash
                    (world_now w 0%nat) in
  signature ← Sign signer (protoutil_Decision decision);
  let decision := with_signature signature decision in
  event ← newDecisionEvent (world_ids w 1%nat) ctx topic decision;
  Ok {| record_ServicePrincipalID := config_EvaluationServicePrincipalID config;
        record_Decision := decision; record_DecisionEvent := event |}.

(** The engine as the call finds it: the context of the call, the cache and what
    other evaluations store in it, and the order of the rows the server returns. *)
Record Engine := {
  engine_Context : cel_Context;
  engine_cache : cache;
  engine_interfere : string → cache → cache;
  engine_arrange : list ActiveBundle → list ActiveBundle;
}.

(** What happens when no decision is recorded for the request. *)
Definition decide_fresh (eng : Engine) (ctx : Ctx) (evaluation : EvaluationInput)
    (inputHash : string) : app Decision :=
  bundles ← call (ListActiveBundles (engine_arrange eng) ctx
    (config_EvaluationServicePrincipalID config) (input_TenantID evaluation)
    (subject_CompanyID (input_Subject evaluation))
    (agentIDForScope (input_Subject evaluation)));
  result ← pure (λ _, (PolicyEngine.Evaluate (engine_interfere eng) (engine_Context eng)
                         evaluation bundles (engine_cache eng)).1);
  params ← pure (RecordDecision_params ctx evaluation result inputHash);
  call (RecordDecision ctx params).

Definition Evaluate (eng : Engine) (ctx : Ctx) (input : EvaluationInput) : app Decision :=
  pure (λ _, validateEvaluation input);;
  resolvedSubject ← pure (λ _, resolveSubject (input_TenantID input) (input_Subject input));
  let evaluation := with_subject resolvedSubject input in
  inputHash ← pure (λ _, hashEvaluationInput evaluation);
  existing ← try_call (FindDecisionByRequestID ctx
    (config_EvaluationServicePrincipalID config) (input_TenantID input)
    (input_RequestID input));
  match existing with
  | Ok existing =>
      if negb (String.eqb (decision_InputHash existing) inputHash)
      then pure (λ _, Err ErrDecisionMismatch)
      else mret existing
  | Err ErrNotFound => decide_fresh eng ctx evaluation inputHash
  | Err err => pure (λ _, Err err)
  end.

End Service.

(** ** Managing policies

    Models [management.go] and [bootstrap.go] of
    [services/policy-approval/internal/application]. *)

Record CreatePolicyInput := {
  create_ActorUserID : string;
  create_TenantID : string;
  create_ScopeType : ScopeType;
  create_ScopeID : option string;
  create_Name : string;
  create_Description : string;
}.

Record CreateVersionInput := {
  version_input_ActorUserID : string;
  version_input_TenantID : string;
  version_input_PolicyID : string;
  version_input_ExpectedResourceVersion : Z;
  version_input_DefaultEffect : Effect;
  version_input_Rules : list Rule;
  version_input_Notes : string;
}.

Record EnsureDefaultPoliciesInput := {
  ensure_input_TenantID : string;
  ensure_input_OnboardingOperationID : string;
  ensure_input_ActorUserID : string;
}.

Section Management.
Context `{Platform, PolicyProto, !Cel}.
Variables (config : Config) (clients : Clients).
Let topic := config_EventTopic config.

(** ** management.go: validation *)

Definition validateCreatePolicy (input : CreatePolicyInput) : result error unit :=
  validateUUID (create_ActorUserID input);;
  validateUUID (create_TenantID input);;
  (if String.eqb (create_ScopeType input) ScopeTenant then
     fail_if (is_some (create_ScopeID input)) ErrInvalidArgument
   else if String.eqb (create_ScopeType input) ScopeCompany
           || String.eqb (create_ScopeType input) ScopeAgent then
     scopeID ← from_option_err ErrInvalidArgument (create_ScopeID input);
     validateUUID scopeID
   else Err ErrInvalidArgument);;
  boundedText (create_Name input) 120;;
  optionalBoundedText (create_Description input) 4000.

Definition validateThree (actorUserID tenantID id : string) : result error unit :=
  validateUUID actorUserID;; validateUUID tenantID;; validateUUID id.

Definition validateLimit (limit : Z) : result error unit :=
  fail_if ((limit <? 1) || (100 <? limit)) ErrInvalidArgument.

Definition validateCreateVersion (input : CreateVersionInput) : result error unit :=
  validateThree (version_input_ActorUserID input) (version_input_TenantID input)
    (version_input_PolicyID input);;
  fail_if (version_input_ExpectedResourceVersion input <? 1) ErrInvalidArgument;;
  fail_if (negb (String.eqb (version_input_DefaultEffect input) EffectDeny)
           && negb (String.eqb (version_input_DefaultEffect input) EffectRequireApproval))
    ErrInvalidArgument;;
  optionalBoundedText (version_input_Notes input) 4000.

(** ** management.go: use cases *)

Definition CreatePolicy_params (ctx : Ctx) (input : CreatePolicyInput) (w : world)
  : result error CreatePolicyParams :=
  policyID ← from_option_err ErrInternal (world_ids w 0%nat);
  let now := world_now w 0%nat in
  let policy := {|
    policy_TenantID := create_TenantID input; policy_ID := policyID;
    policy_ScopeType := create_ScopeType input; policy_ScopeID := create_ScopeID input;
    policy_Name := create_Name input; policy_Description := create_Description input;
    policy_Status := PolicyStatusDraft; policy_ActivePolicyVersion := None;
    policy_ResourceVersion := 1; policy_CreatedByUserID := create_ActorUserID input;
    policy_CreatedAt := now; policy_UpdatedAt := now; policy_ArchivedAt := None |} in
  event ← newPolicyCreatedEvent (world_ids w 1%nat) ctx topic policy now;
  Ok {| createPolicy_ActorUserID := create_ActorUserID input;
        createPolicy_Policy := policy; createPolicy_Event := event |}.

Definition CreatePolicy (ctx : Ctx) (input : CreatePolicyInput) : app Policy :=
  pure (λ _, validateCreatePolicy input);;
  pure (λ _, Authorizer_Require clients (create_ActorUserID input) (create_TenantID input)
               TenantDomain.PermissionPolicyCreate);;
  params ← pure (CreatePolicy_params ctx input);
  call (PolicyRepository.CreatePolicy ctx params).

Definition GetPolicy (ctx : Ctx) (actorUserID tenantID policyID : string)
  : app (Policy * option PolicyVersion) :=
  pure (λ _, validateThree actorUserID tenantID policyID);;
  pure (λ _, Authorizer_Require clients actorUserID tenantID
               TenantDomain.PermissionPolicyRead);;
  call (PolicyRepository.GetPolicy ctx actorUserID tenantID policyID).

Definition ListPolicies (ctx : Ctx) (actorUserID tenantID : string) (limit : Z)
    (cursor : option string) (includeArchived : bool) : app (list Policy) :=
  pure (λ _, validateUUID actorUserID;; validateUUID tenantID;; validateLimit limit);;
  pure (λ _, Authorizer_Require clients actorUserID tenantID
               TenantDomain.PermissionPolicyRead);;
  call (PolicyRepository.ListPolicies ctx actorUserID tenantID limit cursor
          includeArchived).

(** The version is created with the number 0. *)
Definition CreateVersion_params (ctx : Ctx) (input : CreateVersionInput) (w : world)
  : result error CreateVersionParams :=
  let now := world_now w 0%nat in
  let version := {|
    version_TenantID := version_input_TenantID input;
    version_PolicyID := version_input_PolicyID input; version_PolicyVersion := 0;
    version_DefaultEffect := version_input_DefaultEffect input;
    version_Rules := version_input_Rules input; version_Notes := version_input_Notes input;
    version_CreatedByUserID := version_input_ActorUserID input;
    version_CreatedAt := now; version_ActivatedAt := None |} in
  event ← newPolicyVersionCreatedEvent (world_ids w 0%nat) ctx topic
            (version_input_TenantID input) (version_input_PolicyID input) version now;
  Ok {| createVersion_ActorUserID := version_input_ActorUserID input;
        createVersion_Policy := {|
          policy_TenantID := version_input_TenantID input;
          policy_ID := version_input_PolicyID input; policy_ScopeType := "";
          policy_ScopeID := None; policy_Name := ""; policy_Description := "";
          policy_Status := ""; policy_ActivePolicyVersion := None;
          policy_ResourceVersion := 0; policy_CreatedByUserID := "";
          policy_CreatedAt := 0; policy_UpdatedAt := 0; policy_ArchivedAt := None |};
        createVersion_Version := version;
        createVersion_ExpectedResourceVersion :=
          version_input_ExpectedResourceVersion input;
        createVersion_Event := event |}.

Definition CreateVersion (ctx : Ctx) (input : CreateVersionInput)
  : app (Policy * PolicyVersion) :=
  pure (λ _, validateCreateVersion input);;
  pure (λ _, Authorizer_Require clients (version_input_ActorUserID input)
               (version_input_TenantID input) TenantDomain.PermissionPolicyUpdate);;
  params ← pure (CreateVersion_params ctx input);
  call (PolicyRepository.CreateVersion ctx params).

Definition ActivatePolicy_params (ctx : Ctx) (actorUserID tenantID policyID : string)
    (expected policyVersion : Z) (w : world) : result error ActivatePolicyParams :=
  event ← newPolicyActivatedEvent (world_ids w 0%nat) ctx topic tenantID policyID
            policyVersion (world_now w 0%nat);
  Ok {| activate_ActorUserID := actorUserID; activate_TenantID := tenantID;
        activate_PolicyID := policyID; activate_PolicyVersion := policyVersion;
        activate_ExpectedResourceVersion := expected;
        activate_ActivatedAt := world_now w 1%nat; activate_Event := event |}.

Definition ActivatePolicy (ctx : Ctx) (actorUserID tenantID policyID : string)
    (expected policyVersion : Z) : app (Policy * PolicyVersion) :=
  pure (λ _, validateThree actorUserID tenantID policyID;;
             fail_if (expected <? 1) ErrInvalidArgument;;
             fail_if (policyVersion <? 1) ErrInvalidArgument);;
  pure (λ _, Authorizer_Require clients actorUserID tenantID
               TenantDomain.PermissionPolicyActivate);;
  params ← pure (ActivatePolicy_params ctx actorUserID tenantID policyID expected
                   policyVersion);
  call (PolicyRepository.ActivatePolicy ctx params).

Definition ArchivePolicy_params (ctx : Ctx) (actorUserID tenantID policyID : string)
    (expected : Z) (w : world) : result error ArchivePolicyParams :=
  event ← newPolicyArchivedEvent (world_ids w 0%nat) ctx topic tenantID policyID
            actorUserID (world_now w 0%nat);
  Ok {| archive_ActorUserID := actorUserID; archive_TenantID := tenantID;
        archive_PolicyID := policyID; archive_ExpectedResourceVersion := expected;
        archive_ArchivedAt := world_now w 1%nat; archive_Event := event |}.

Definition ArchivePolicy (ctx : Ctx) (actorUserID tenantID policyID : string)
    (expected : Z) : app Policy :=
  pure (λ _, validateThree actorUserID tenantID policyID;;
             fail_if (expected <? 1) ErrInvalidArgument);;
  pure (λ _, Authorizer_Require clients actorUserID tenantID
               TenantDomain.PermissionPolicyArchive);;
  params ← pure (ArchivePolicy_params ctx actorUserID tenantID policyID expected);
  call (PolicyRepository.ArchivePolicy ctx params).

Definition GetDecision (ctx : Ctx) (actorUserID tenantID decisionID : string)
  : app Decision :=
  pure (λ _, validateThree actorUserID tenantID decisionID);;
  pure (λ _, Authorizer_Require clients actorUserID tenantID
               TenantDomain.PermissionPolicyDecisionRead);;
  call (PolicyRepository.GetDecision ctx actorUserID tenantID decisionID).

Definition ListDecisions (ctx : Ctx) (actorUserID tenantID : string)
    (subjectID : option string) (limit : Z) (cursor : option (Time * string))
  : app (list Decision) :=
  pure (λ _, validateUUID actorUserID;; validateUUID tenantID;;
             (match subjectID with Some s => validateUUID s | None => Ok tt end);;
             validateLimit limit);;
  pure (λ _, Authorizer_Require clients actorUserID tenantID
               TenantDomain.PermissionPolicyDecisionRead);;
  call (PolicyRepository.ListDecisions ctx actorUserID tenantID subjectID limit cursor).

(** ** bootstrap.go *)

Definition default_rule (priority : Z) (name : string) (effect : Effect)
    (patterns : list string) (risks : list Risk) (condition : string) (review : bool)
    (reason : string) : Rule := {|
  rule_ID := ""; rule_Priority := priority; rule_Name := name; rule_Enabled := true;
  rule_Effect := effect; rule_ActionPatterns := patterns; rule_ResourceTypes := [];
  rule_RiskLevels := risks; rule_MaximumEstimatedCostMicroUSD := None;
  rule_Condition := condition;
  rule_Constraints := {|
    MaxCostMicroUSD := None; MaxRuntimeSeconds := None; AllowedDomains := [];
    AllowedResourceIDs := []; RequireHumanReview := review |};
  rule_Reason := reason |}.

Definition newDefaultPolicy (policyID : option string) (tenantID actorUserID : string)
    (now : Time) (name description : string) (rules : list Rule)
  : result error (Policy * PolicyVersion) :=
  policyID ← from_option_err ErrInternal policyID;
  Ok ({| policy_TenantID := tenantID; policy_ID := policyID;
         policy_ScopeType := ScopeTenant; policy_ScopeID := None; policy_Name := name;
         policy_Description := description; policy_Status := PolicyStatusActive;
         policy_ActivePolicyVersion := Some 1; policy_ResourceVersion := 1;
         policy_CreatedByUserID := actorUserID; policy_CreatedAt := now;
         policy_UpdatedAt := now; policy_ArchivedAt := None |},
      {| version_TenantID := tenantID; version_PolicyID := policyID;
         version_PolicyVersion := 1; version_DefaultEffect := EffectDeny;
         version_Rules := rules; version_Notes := "Bootstrap default policy";
         version_CreatedByUserID := actorUserID; version_CreatedAt := now;
         version_ActivatedAt := Some now |}).

Definition security_rules : list Rule :=
  [default_rule 10 "Deny secret administration" EffectDeny
     ["secret.admin.*"; "vault.admin.*"; "kubernetes.admin.*"; "cloud.metadata.*";
      "tenant.billing.admin.*"] [] "true" false
     "Platform security boundaries cannot be modified by agents"].

Definition approval_rules : list Rule :=
  [default_rule 20 "Require approval for deployments" EffectRequireApproval
     ["deploy.*"; "github.pull_request.merge"; "email.send"; "slack.post"; "financial.*";
      "secret.read"] [] "true" true
     "Sensitive external or destructive action requires approval"].

Definition read_rules : list Rule :=
  [default_rule 100 "Allow low-risk reads" EffectAllow
     ["read.*"; "research.*"; "observe.*"] [RiskLow]
     "request.estimated_cost_micro_usd <= 100000" false
     "Low-risk read action is within the default cost limit"].

Definition defaultPolicies (ids : nat → option string) (tenantID actorUserID : string)
    (now : Time) : result error (list (Policy * PolicyVersion)) :=
  security ← newDefaultPolicy (ids 0%nat) tenantID actorUserID now
    "Platform security boundary"
    "Non-overridable protection for sensitive platform resources." security_rules;
  approval ← newDefaultPolicy (ids 1%nat) tenantID actorUserID now "Sensitive actions"
    "Requires human approval for externally visible or destructive actions."
    approval_rules;
  reads ← newDefaultPolicy (ids 2%nat) tenantID actorUserID now "Safe read actions"
    "Allows low-risk, non-mutating reads." read_rules;
  Ok [security; approval; reads].

(** The two events of each policy; the [n]th identifier is next. *)
Fixpoint default_events (ids : nat → option string) (n : nat) (ctx : Ctx) (now : Time)
    (policies : list Policy) : result error (list OutboxEvent) :=
  match policies with
  | [] => Ok []
  | policy :: policies' =>
      created ← newPolicyCreatedEvent (ids n) ctx topic policy now;
      activated ← newPolicyActivatedEvent (ids (S n)) ctx topic (policy_TenantID policy)
                    (policy_ID policy) 1 now;
      rest ← default_events ids (S (S n)) ctx now policies';
      Ok (created :: activated :: rest)
  end.

Definition EnsureDefaultPolicies_params (ctx : Ctx) (input : EnsureDefaultPoliciesInput)
    (w : world) : result error EnsureDefaultsParams :=
  validateThree (ensure_input_TenantID input) (ensure_input_OnboardingOperationID input)
    (ensure_input_ActorUserID input);;
  let now := world_now w 0%nat in
  defaults ← defaultPolicies (world_ids w) (ensure_input_TenantID input)
               (ensure_input_ActorUserID input) now;
  events ← default_events (world_ids w) 3 ctx now (fst <$> defaults);
  Ok {| ensure_ServicePrincipalID := config_BootstrapServicePrincipalID config;
        ensure_TenantID := ensure_input_TenantID input;
        ensure_OnboardingOperationID := ensure_input_OnboardingOperationID input;
        ensure_ActorUserID := ensure_input_ActorUserID input;
        ensure_Policies := fst <$> defaults; ensure_Versions := snd <$> defaults;
        ensure_Events := events; ensure_CreatedAt := now |}.

Definition EnsureDefaultPolicies (ctx : Ctx) (input : EnsureDefaultPoliciesInput)
  : app (list Policy) :=
  params ← pure (EnsureDefaultPolicies_params ctx input);
  PolicyRepository.EnsureDefaults ctx params.

End Management.
