(* ===== verification/PolicyReachable.v ===== *)
(** * Policy approval: reachable tables

    The transactions of the repository with the parameters the service builds, and
    the relay's batches, as a transition system on the tables. *)

From S2P Require Import Prelude GoStrings Postgres Usecase Outbox OutboxProperties.
From S2P Require Import PolicyEngine PolicyEngineProperties PolicyStore.
From S2P Require Import PolicyService PolicyRepository.
From stdpp Require Import strings gmap list sorting.
From Stdlib Require Import String Lia.
Open Scope string_scope.
Open Scope list_scope.
Open Scope Z_scope.

#[local] Notation Decision := PolicyEngine.Decision.
#[local] Notation world := (Usecase.world policy_tables).

(** ** Methods of the repository that only read, and those that commit once *)

Section Kinds.
Context `{Platform, Proto, Json}.

#[global] Instance along_check_commit R : along R PolicyRepository.commit.
Proof. apply along_bind; [apply along_bind; [by intros db s|]|]; apply _. Qed.

#[global] Instance readonly_queryPolicy t p : readonly (queryPolicy t p).
Proof. unfold queryPolicy. apply _. Qed.
#[global] Instance readonly_queryPolicyVersion t p v : readonly (queryPolicyVersion t p v).
Proof. unfold queryPolicyVersion, queryRules. apply _. Qed.
#[global] Instance readonly_GetPolicy ctx a t p : readonly (GetPolicy ctx a t p).
Proof.
  unfold GetPolicy, beginUserTenant. do 2 (apply along_bind; [apply _|intros ?]).
  apply along_bind; [destruct (policy_ActivePolicyVersion _)|]; apply _.
Qed.
#[global] Instance readonly_ListPolicies ctx a t l c i : readonly (ListPolicies ctx a t l c i).
Proof. unfold ListPolicies, beginUserTenant. apply _. Qed.
#[global] Instance readonly_loadRules bundles : readonly (loadRules bundles).
Proof. induction bundles; cbn; unfold queryRules; apply _. Qed.
#[global] Instance readonly_ListActiveBundles arrange ctx s t c a :
  readonly (ListActiveBundles arrange ctx s t c a).
Proof. unfold ListActiveBundles, beginServiceTenant. apply _. Qed.
#[global] Instance readonly_FindDecision ctx s t r :
  readonly (FindDecisionByRequestID ctx s t r).
Proof. unfold FindDecisionByRequestID, beginServiceTenant. apply _. Qed.
#[global] Instance readonly_GetDecision ctx a t d : readonly (GetDecision ctx a t d).
Proof. unfold GetDecision, beginUserTenant. apply _. Qed.
#[global] Instance readonly_ListDecisions ctx a t s l c : readonly (ListDecisions ctx a t s l c).
Proof. unfold ListDecisions, beginUserTenant. apply _. Qed.
#[global] Instance readonly_bootstrapPolicyIDs ctx s t : readonly (bootstrapPolicyIDs ctx s t).
Proof. unfold bootstrapPolicyIDs, beginServiceTenant. apply _. Qed.
#[global] Instance readonly_loadBootstrapPolicy ctx s t p :
  readonly (loadBootstrapPolicy ctx s t p).
Proof. unfold loadBootstrapPolicy, beginServiceTenant. apply _. Qed.

#[global] Instance commit_free_insertOutbox t e : commit_free (insertOutbox t e).
Proof. unfold insertOutbox. apply _. Qed.
#[global] Instance commit_free_queryPolicy t p : commit_free (queryPolicy t p).
Proof. unfold queryPolicy. apply _. Qed.
#[global] Instance commit_free_queryVersion t p v : commit_free (queryPolicyVersion t p v).
Proof. unfold queryPolicyVersion, queryRules. apply _. Qed.
#[global] Instance commit_free_insertRules t p v rules : commit_free (insertRules t p v rules).
Proof. induction rules; cbn; apply _. Qed.
#[global] Instance commit_free_insertVersion v : commit_free (insertVersion v).
Proof. unfold insertVersion. apply _. Qed.
#[global] Instance commit_free_insertDefaults l : commit_free (insertDefaults l).
Proof. induction l as [|[p v] l IH]; cbn; unfold insertPolicy; apply _. Qed.
#[global] Instance commit_free_updatePolicySet t p e c : commit_free (updatePolicySet t p e c).
Proof. unfold updatePolicySet, rejectPolicyVersionOrMissing. apply _. Qed.
#[global] Instance commit_free_activateVersionRow t p v :
  commit_free (activateVersionRow t p v).
Proof. unfold activateVersionRow. apply _. Qed.

(** ** Decisions are only added *)

Definition keeps_decisions (db db' : policy_tables) : Prop :=
  policy_decisions db ⊆ policy_decisions db'.

#[global] Instance keeps_decisions_preorder : PreOrder keeps_decisions.
Proof.
  unfold keeps_decisions.
  split; [intros db; reflexivity|]. intros db1 db2 db3 ??. by trans (policy_decisions db2).
Qed.

(** A statement on another table. *)
Ltac keeps_decisions :=
  apply (along_exec keeps_decisions); intros ??? db' Hw;
  repeat (apply result_bind_Ok in Hw as (? & _ & Hw)); repeat case_match; simplify_eq;
  repeat (apply result_bind_Ok in Hw as (? & _ & Hw)); simplify_eq;
  unfold keeps_decisions; cbn; reflexivity.

#[global] Instance keeps_insertOutbox t e : along keeps_decisions (insertOutbox t e).
Proof. apply along_map_err, along_bind; [apply _|intros ?]. keeps_decisions. Qed.
#[global] Instance keeps_insertPolicy p : along keeps_decisions (insertPolicy p).
Proof. apply along_map_err. keeps_decisions. Qed.
#[global] Instance keeps_insertRules t p v rules :
  along keeps_decisions (insertRules t p v rules).
Proof.
  induction rules; cbn; [apply _|]. apply along_bind; [|done]. apply along_map_err.
  keeps_decisions.
Qed.
#[global] Instance keeps_insertVersion v : along keeps_decisions (insertVersion v).
Proof. apply along_bind; [|apply _]. apply along_map_err. keeps_decisions. Qed.
#[global] Instance keeps_insertDefaults l : along keeps_decisions (insertDefaults l).
Proof. induction l as [|[p v] l IH]; cbn; apply _. Qed.
#[global] Instance keeps_updatePolicySet t p e c :
  along keeps_decisions (updatePolicySet t p e c).
Proof.
  apply along_bind; [|unfold rejectPolicyVersionOrMissing; apply _].
  apply along_map_err. keeps_decisions.
Qed.
#[global] Instance keeps_activateVersionRow t p v :
  along keeps_decisions (activateVersionRow t p v).
Proof. apply along_map_err, along_bind; [apply _|intros ?]. keeps_decisions. Qed.
#[global] Instance keeps_insertDecision d : along keeps_decisions (insertDecision d).
Proof.
  apply along_map_err, (along_exec keeps_decisions). intros ???? Hw.
  unfold sql_insert_decision in Hw. result_inv Hw. simplify_eq.
  apply insert_subseteq. by destruct (policy_decisions _ !! _).
Qed.

#[global] Instance keeps_ensureDefaults ctx params :
  along keeps_decisions (ensureDefaults_create ctx params).
Proof.
  unfold ensureDefaults_create, beginServiceTenant.
  apply along_bind; [apply _|intros _]. apply along_bind; [apply _|intros exists_].
  apply along_if; [apply _|]. apply along_bind; [apply _|intros _].
  apply along_bind; [|apply _]. apply along_map_err. keeps_decisions.
Qed.

(** What the repository's [commit] publishes passed the deferred constraint. *)
Lemma committed_check_commit s db :
  session_committed s = None → committed_by PolicyRepository.commit s db →
  db = session_db s ∧ active_versions_exist db = true.
Proof.
  intros Hs Hc. unfold PolicyRepository.commit in Hc.
  apply committed_bind in Hc as (u & s1 & E & Hc1 & Hc); [|apply commit_free_bind|done].
  2: by intros ?. 2: apply _.
  apply tx_bind_Ok in E as (s2 & s3 & E2 & [E%fail_if_Ok ->]%lift_db_Ok).
  unfold raw in E2. simplify_eq. rewrite Hs in E. apply committed_commit in Hc as ->; [|done].
  cbn in E. by apply negb_false_iff in E.
Qed.

Lemma check_commit_Ok s u s' :
  PolicyRepository.commit s = (Ok u, s') → session_committed s' = Some (session_db s).
Proof.
  unfold PolicyRepository.commit. intros (u1 & s1 & E & (Hc & _)%commit_Ok)%tx_bind_Ok.
  apply tx_bind_Ok in E as (s2 & s3 & E2 & [_ ->]%lift_db_Ok).
  unfold raw in E2. by simplify_eq.
Qed.

Lemma committed_check_commit_then {B} (f : unit → repo B) s db :
  (∀ u, commit_free (f u)) → session_committed s = None →
  committed_by (PolicyRepository.commit ≫= f) s db →
  db = session_db s ∧ active_versions_exist db = true.
Proof.
  intros Hf Hs Hc. apply committed_check_commit; [done|]. revert Hc.
  unfold committed_by, mbind, tx_bind. destruct (PolicyRepository.commit s) as [[u|e] s1]; [|done].
  by rewrite (Hf u s1).
Qed.

End Kinds.

(** ** What successful statements do *)

Section Statements.
Context `{PlatformLaws, Proto, Json}.

Lemma policy_outbox_Ok tenantID event s u s' :
  insertOutbox tenantID event s = (Ok u, s') →
  ∃ clock ob, sql_insert_outbox clock tenantID event (policy_outbox (session_db s)) = Ok ob ∧
    session_db s' = set_policy_outbox ob (session_db s) ∧
    session_scope s' = session_scope s ∧ session_committed s' = session_committed s.
Proof.
  unfold insertOutbox. intros Hi%map_err_Ok.
  apply tx_bind_Ok in Hi as (now & s1 & ->%clock_Ok & Hi).
  apply exec_Ok in Hi as (_ & Hi & ? & ? & _). result_inv Hi. simplify_eq. eauto 10.
Qed.

Lemma insertPolicy_Ok policy s u s' :
  insertPolicy policy s = (Ok u, s') →
  ∃ row, session_db s' = set_policy_sets
           (<[(policy_TenantID row, policy_ID row) := row]> (policy_sets (session_db s)))
           (session_db s) ∧
    policy_checks row = true ∧
    policy_ActivePolicyVersion row = policy_ActivePolicyVersion policy.
Proof.
  unfold insertPolicy. intros (_ & Hi & _)%map_err_Ok%exec_Ok.
  unfold sql_insert_policy in Hi. result_inv Hi. bool_facts.
  injection Hi as _ <-. eexists. split_and!; cycle 1; [eassumption|done..].
Qed.

Lemma updatePolicySet_Ok tenantID policyID expected change s u s' :
  updatePolicySet tenantID policyID expected change s = (Ok u, s') →
  ∃ k row, policy_sets (session_db s) !! k = Some row ∧
    policy_checks (change row) = true ∧
    session_db s' = set_policy_sets (<[k := change row]> (policy_sets (session_db s)))
                      (session_db s).
Proof.
  unfold updatePolicySet, rejectPolicyVersionOrMissing. intros Hu.
  apply tx_bind_Ok in Hu as (n & s1 & (_ & E & _)%map_err_Ok%exec_Ok & Hu).
  assert (n ≠ 0 ∧ session_db s' = session_db s1) as [Hn ->].
  { destruct (Z.eqb_spec n 0) as [->|]; [exfalso|by apply ret_Ok in Hu as [_ ->]].
    apply tx_bind_Ok in Hu as (row & s2 & _ & [Hl _]%lift_Ok). by case_match. }
  unfold sql_update_policy in E. do 3 (apply result_bind_Ok in E as (? & ? & E)).
  destruct (policy_sets _ !! _) as [row|] eqn:Hrow; [|by simplify_eq].
  destruct (_ && _); [|by simplify_eq]. result_inv E. bool_facts. injection E as _ <-. eauto.
Qed.

(** Versions and rules wait for the row they refer to. *)
Lemma insertVersion_positive version s u s' :
  insertVersion version s = (Ok u, s') → 0 < version_PolicyVersion version.
Proof.
  unfold insertVersion. intros (? & s1 & E & _)%tx_bind_Ok.
  apply map_err_Ok, exec_Ok in E as (_ & E & _). unfold sql_insert_version in E.
  result_inv E. unfold version_checks in *. cbn in *. bool_facts. lia.
Qed.

Lemma insertRules_id tenantID policyID version rule rules s u s' :
  insertRules tenantID policyID version (rule :: rules) s = (Ok u, s') → rule_ID rule ≠ "".
Proof.
  cbn. intros (? & s1 & E & _)%tx_bind_Ok. apply map_err_Ok, exec_Ok in E as (_ & E & _).
  unfold sql_insert_rule, cast in E. result_inv E. intros Hr.
  select (uuid_in (rule_ID rule) = _) (fun Hid => by rewrite Hr, uuid_in_empty in Hid).
Qed.

Lemma insertDecision_Ok decision s u s' :
  insertDecision decision s = (Ok u, s') →
  ∃ t id request subject company policy rule,
    let row := with_ids t id request subject company policy rule (decision_row decision) in
    uuid_in (decision_TenantID decision) = Some t ∧
    uuid_in (decision_ID decision) = Some id ∧
    uuid_in (decision_RequestID decision) = Some request ∧
    decision_checks row = true ∧ policy_decisions (session_db s) !! (t, id) = None ∧
    (∀ k d, policy_decisions (session_db s) !! k = Some d →
       (decision_TenantID d, decision_RequestID d) ≠ (t, request)) ∧
    session_db s' = set_policy_decisions
      (<[(t, id) := row]> (policy_decisions (session_db s))) (session_db s).
Proof.
  unfold insertDecision. intros (_ & E & _)%map_err_Ok%exec_Ok.
  unfold sql_insert_decision, cast in E. result_inv E. bool_facts. injection E as _ <-.
  do 7 eexists. cbn. split_and!; try done.
  - by destruct (policy_decisions _ !! _).
  - intros k d Hd [= Ht Hr].
    select (existsb _ _ = false) (fun Hx => revert Hx; apply eq_true_false_abs).
    apply existsb_exists. exists (k, d). rewrite <-list_elem_of_In, elem_of_map_to_list.
    split; [done|]. cbn. by rewrite Ht, Hr, !String.eqb_refl.
Qed.

End Statements.

(** ** The transition system *)

Section System.
Context `{Platform, PolicyProto, !Cel}.
Variables (config : Config) (signer : Signer).
Implicit Types (ctx : Ctx) (w : world) (ev : env) (db : policy_tables).

(** Tables that the service can reach. The bundles behind a decision were listed
    in tables reachable before or after: between the listing and the recording
    other transactions may run. *)
Inductive reachable : policy_tables → Prop :=
| reachable_start : reachable no_policy_tables
| reachable_create ctx input w params db ev :
    CreatePolicy_params config ctx input w = Ok params → reachable db →
    reachable (run (PolicyRepository.CreatePolicy ctx params) db ev).2
| reachable_version ctx input w params db ev :
    CreateVersion_params config ctx input w = Ok params → reachable db →
    reachable (run (PolicyRepository.CreateVersion ctx params) db ev).2
| reachable_activate ctx actorUserID tenantID policyID expected version w params db ev :
    ActivatePolicy_params config ctx actorUserID tenantID policyID expected version w
      = Ok params → reachable db →
    reachable (run (PolicyRepository.ActivatePolicy ctx params) db ev).2
| reachable_archive ctx actorUserID tenantID policyID expected w params db ev :
    ArchivePolicy_params config ctx actorUserID tenantID policyID expected w = Ok params →
    reachable db → reachable (run (PolicyRepository.ArchivePolicy ctx params) db ev).2
| reachable_defaults ctx input w params db ev :
    EnsureDefaultPolicies_params config ctx input w = Ok params → reachable db →
    reachable (run (ensureDefaults_create ctx params) db ev).2
| reachable_record ctx0 arrange servicePrincipalID tenantID companyID agentID db0 ev0
    bundles db0' interfere cctx cache cache' evaluation result ctx inputHash w params db ev :
    reachable db0 → (∀ rows, arrange rows ≡ₚ rows) →
    run (ListActiveBundles arrange ctx0 servicePrincipalID tenantID companyID agentID)
      db0 ev0 = (Ok bundles, db0') →
    PolicyEngine.Evaluate interfere cctx evaluation bundles cache = (Ok result, cache') →
    RecordDecision_params config signer ctx evaluation result inputHash w = Ok params →
    reachable db → reachable (run (RecordDecision ctx params) db ev).2
| reachable_relay c rev log b st db :
    processBatch c rev {| rs_outbox := policy_outbox db; rs_log := log |} = (b, st) →
    reachable db → reachable (set_policy_outbox (rs_outbox st) db).

End System.

(** ** The invariant *)

Section Invariant.
Context `{PlatformLaws, PolicyProto, !Cel} `{!ProtoLaws}.
Implicit Types (ctx : Ctx) (w : world) (ev : env) (db : policy_tables).

(** What the autonomy of the subject, with no policy in force, lets be recorded. *)
Definition unruled_effect (d : Decision) : Prop :=
  decision_Effect d = EffectDeny ∨
  subject_Type (decision_Subject d) = SubjectAgent ∧
  (decision_Effect d = EffectRequireApproval ∨
   decision_Effect d = EffectAllowWithConstraints ∧ isReadAction (decision_Action d) = true).

(** The event [e] of the tenant [t] announces the recorded decision [d]: its
    payload is a decision with the row's identifiers, effect, constraints and
    signature, and its signature verifies. *)
Definition announces (signer : Signer) (d : Decision) (t : string) (e : OutboxEvent)
  : Prop :=
  t = decision_TenantID d ∧
  ∃ envelope announced, unmarshal_envelope (event_Envelope e) = Some envelope ∧
    envelope_EventType envelope = "policy.decision_recorded" ∧
    marshal_policy_message (PolicyDecisionRecorded announced)
      = Some (envelope_Payload envelope) ∧
    Verify signer announced = true ∧
    uuid_in (decision_ID announced) = Some (decision_ID d) ∧
    uuid_in (decision_TenantID announced) = Some (decision_TenantID d) ∧
    uuid_in (decision_RequestID announced) = Some (decision_RequestID d) ∧
    decision_Effect announced = decision_Effect d ∧
    decision_Constraints announced = decision_Constraints d ∧
    decision_Signature announced = decision_Signature d.

Record decision_ok (signer : Signer) (ob : outbox_table) (k : string * string)
    (d : Decision) : Prop := {
  decision_ok_key : k = (decision_TenantID d, decision_ID d);
  decision_ok_checks : decision_checks d = true;
  decision_ok_effect : unruled_effect d;
  decision_ok_announced : holds (announces signer d) ob;
}.

(** At most one decision for the evaluation request of a tenant. *)
Definition one_per_request (decisions : gmap (string * string) Decision) : Prop :=
  ∀ k1 k2 d1 d2, decisions !! k1 = Some d1 → decisions !! k2 = Some d2 →
    (decision_TenantID d1, decision_RequestID d1)
      = (decision_TenantID d2, decision_RequestID d2) → k1 = k2.

Record valid (signer : Signer) (db : policy_tables) : Prop := {
  valid_versions : policy_versions db = ∅;
  valid_bootstrap : policy_bootstrap_requests db = ∅;
  valid_sets : map_Forall (λ k p, k = (policy_TenantID p, policy_ID p)
    ∧ policy_checks p = true ∧ policy_ActivePolicyVersion p = None) (policy_sets db);
  valid_fresh : outbox_fresh (policy_outbox db);
  valid_decisions : map_Forall (decision_ok signer (policy_outbox db)) (policy_decisions db);
  valid_requests : one_per_request (policy_decisions db);
}.

Lemma decision_ok_grows signer ob ob' k d :
  (∀ P, holds P ob → holds P ob') → decision_ok signer ob k d → decision_ok signer ob' k d.
Proof. intros Hob []. split; auto. Qed.

Lemma valid_set_outbox signer db ob :
  valid signer db → outbox_fresh ob → (∀ P, holds P (policy_outbox db) → holds P ob) →
  valid signer (set_policy_outbox ob db).
Proof.
  intros [] Hf Hob. split; cbn; try done.
  intros k d Hd. apply (decision_ok_grows _ (policy_outbox db)); auto.
Qed.

Lemma valid_insert_outbox signer db clock tenantID event ob :
  valid signer db → sql_insert_outbox clock tenantID event (policy_outbox db) = Ok ob →
  valid signer (set_policy_outbox ob db).
Proof.
  intros Hv Hi. apply insert_outbox_spec in Hi as (? & ? & _); [|apply Hv].
  by apply valid_set_outbox.
Qed.

Lemma valid_insert_set signer db k p :
  valid signer db → k = (policy_TenantID p, policy_ID p) → policy_checks p = true →
  policy_ActivePolicyVersion p = None →
  valid signer (set_policy_sets (<[k := p]> (policy_sets db)) db).
Proof. intros [] Hk Hc Ha. split; cbn; try done. by apply map_Forall_insert_2. Qed.

(** ** Every transition keeps it *)

(** What a step of a method that fails or is read-only leaves behind. *)
Lemma run_cases {A} (P : policy_tables → Prop) (m : repo A) db ev :
  P db → (∀ db', committed_by m (new_session db ev) db' → P db') → P (run m db ev).2.
Proof. intros Hdb Hm. destruct (run_committed m db ev) as [-> | Hc]; auto. Qed.

Lemma valid_create config signer ctx input w params db ev :
  CreatePolicy_params config ctx input w = Ok params → valid signer db →
  valid signer (run (CreatePolicy ctx params) db ev).2.
Proof.
  intros Hp Hv. apply run_cases; [done|]. intros db' Hc. unfold CreatePolicy in Hc.
  unfold beginUserTenant in Hc. committed_inv Hc.
  apply committed_check_commit_then in Hc as [-> _]; [|apply _|done].
  apply insertPolicy_Ok in E as (row & Hdb & Hchk & Ha).
  apply policy_outbox_Ok in E0 as (clock & ob & Hob & -> & _).
  eapply valid_insert_outbox; [|exact Hob]. rewrite Hdb. cbn.
  apply valid_insert_set; try done. rewrite Ha.
  unfold CreatePolicy_params in Hp. result_inv Hp. by injection Hp as <-.
Qed.

(** A version is numbered 0, and is not stored. *)
Lemma valid_version config signer ctx input w params db ev :
  CreateVersion_params config ctx input w = Ok params → valid signer db →
  valid signer (run (CreateVersion ctx params) db ev).2.
Proof.
  intros Hp Hv. apply run_cases; [done|]. intros db' Hc. unfold CreateVersion in Hc.
  unfold beginUserTenant in Hc. committed_inv Hc. exfalso.
  apply insertVersion_positive in E. unfold CreateVersion_params in Hp. result_inv Hp.
  injection Hp as <-. cbn in E. lia.
Qed.

(** An activation without a version does not pass the deferred constraint. *)
Lemma valid_activate config signer ctx actor t p expected version w params db ev :
  ActivatePolicy_params config ctx actor t p expected version w = Ok params →
  valid signer db → valid signer (run (ActivatePolicy ctx params) db ev).2.
Proof.
  intros Hp Hv. apply run_cases; [done|]. intros db' Hc. unfold ActivatePolicy in Hc.
  unfold beginUserTenant in Hc. committed_inv Hc.
  apply committed_check_commit_then in Hc as [-> Hact]; [exfalso|apply _|done].
  apply updatePolicySet_Ok in E0 as (k & row & Hk & Hchk & Hdb2).
  apply policy_outbox_Ok in E1 as (clock & ob & Hob & Hdb3 & _).
  unfold activateVersionRow in E. apply map_err_Ok in E.
  apply tx_bind_Ok in E as (now & s' & ->%clock_Ok & (_ & E & _)%exec_Ok).
  assert (policy_versions (session_db s) = ∅) as Hnone.
  { unfold sql_activate_version in E. do 3 (apply result_bind_Ok in E as (? & ? & E)).
    destruct (tenant_scoped _ _); injection E as _ <-; cbn;
      rewrite (valid_versions _ _ Hv); [apply fmap_alter_empty || apply alter_id; set_solver|done]. }
  rewrite Hdb3 in Hact. unfold active_versions_exist in Hact. cbn in Hact.
  rewrite forallb_forall in Hact.
  specialize (Hact (k, activated (activate_PolicyVersion params)
                        (activate_ActivatedAt params) row)).
  rewrite <-list_elem_of_In, elem_of_map_to_list, Hdb2 in Hact. cbn in Hact.
  rewrite lookup_insert_eq, Hnone, lookup_empty in Hact. by specialize (Hact eq_refl).
Qed.

Lemma valid_archive config signer ctx actor t p expected w params db ev :
  ArchivePolicy_params config ctx actor t p expected w = Ok params →
  valid signer db → valid signer (run (ArchivePolicy ctx params) db ev).2.
Proof.
  intros Hp Hv. apply run_cases; [done|]. intros db' Hc. unfold ArchivePolicy in Hc.
  unfold beginUserTenant in Hc. committed_inv Hc.
  apply committed_check_commit_then in Hc as [-> _]; [|apply _|done].
  apply updatePolicySet_Ok in E as (k & row & Hk & Hchk & Hdb).
  apply policy_outbox_Ok in E0 as (clock & ob & Hob & -> & _).
  eapply valid_insert_outbox; [|exact Hob]. rewrite Hdb. cbn in *.
  apply (valid_sets _ _ Hv) in Hk as (Hkey & _ & Ha). by apply valid_insert_set.
Qed.

(** The default rules have no identifier, and are not stored. *)
Lemma insertDefaults_fails config ctx input w params s u s' :
  EnsureDefaultPolicies_params config ctx input w = Ok params →
  insertDefaults (zip (ensure_Policies params) (ensure_Versions params)) s ≠ (Ok u, s').
Proof.
  unfold EnsureDefaultPolicies_params, defaultPolicies, newDefaultPolicy. intros Hp.
  result_inv Hp.
  repeat match goal with
  | E : (_ ≫= _) = Ok _ |- _ => progress (result_inv E)
  | E : Ok _ = Ok _ |- _ => injection E as <-
  end.
  cbn. intros (? & s1 & _ & (? & s2 & E' & _)%tx_bind_Ok)%tx_bind_Ok.
  apply tx_bind_Ok in E' as (? & s3 & _ & E'). by apply insertRules_id in E'.
Qed.

Lemma valid_defaults config signer ctx input w params db ev :
  EnsureDefaultPolicies_params config ctx input w = Ok params → valid signer db →
  valid signer (run (ensureDefaults_create ctx params) db ev).2.
Proof.
  intros Hp Hv. apply run_cases; [done|]. intros db' Hc. unfold ensureDefaults_create in Hc.
  unfold beginServiceTenant in Hc. committed_inv Hc. destruct a0 as [|].
  - apply committed_check_commit in Hc as [-> _]; done.
  - committed_inv Hc. by eapply insertDefaults_fails in E0.
Qed.

(** ** Recording a decision *)

(** Without versions no policy is in force. *)
Lemma no_active_bundles tenantID company agent sc db rows :
  policy_versions db = ∅ → sql_active_bundles tenantID company agent sc db = Ok rows →
  rows = [].
Proof.
  unfold sql_active_bundles. intros Hnone Hq.
  do 4 (apply result_bind_Ok in Hq as (? & _ & Hq)). injection Hq as <-.
  induction (map_to_list (policy_sets db)) as [|kp l IH]; [done|].
  cbn. rewrite IH. destruct (_ && _); [|done].
  destruct (policy_ActivePolicyVersion _) as [v|]; [|done]. cbn.
  by rewrite Hnone, lookup_empty.
Qed.

Lemma no_versions_no_bundles arrange ctx servicePrincipalID tenantID company agent db ev
    bundles db' :
  policy_versions db = ∅ → (∀ rows, arrange rows ≡ₚ rows) →
  run (ListActiveBundles arrange ctx servicePrincipalID tenantID company agent) db ev
    = (Ok bundles, db') → bundles = [].
Proof.
  intros Hnone Harr Hr. apply run_Ok in Hr as (s' & Hr & _).
  unfold ListActiveBundles, beginServiceTenant in Hr. tx_inv_core Hr.
  select (sql_active_bundles _ _ _ _ _ = _) (fun Hq => apply no_active_bundles in Hq as ->;
    [|done]).
  specialize (Harr []). apply Permutation_nil_r in Harr. rewrite Harr in E0.
  cbn in E0. by apply ret_Ok in E0 as [-> _].
Qed.

Lemma unruled_result input :
  let r := conclude [] (autonomyBaseline input) in
  result_Effect r = EffectDeny ∨
  subject_Type (input_Subject input) = SubjectAgent ∧
  (result_Effect r = EffectRequireApproval ∨
   result_Effect r = EffectAllowWithConstraints ∧ isReadAction (input_Action input) = true).
Proof.
  unfold autonomyBaseline.
  destruct (String.eqb_spec (subject_Type (input_Subject input)) SubjectAgent); [|by left].
  cbn. repeat (case_match; cbn; auto 10).
Qed.

Lemma Sign_Verify signer m m' signature :
  Sign signer m = Ok signature → without_signature m' = without_signature m →
  decision_Signature m' = signature → Verify signer m' = true.
Proof.
  unfold Verify. intros Hs Hm <-. unfold Sign in *. rewrite Hm, Hs. apply String.eqb_refl.
Qed.

(** What the service asks to record: a signed decision and its announcement. *)
Lemma RecordDecision_params_Ok config signer ctx evaluation result inputHash w params :
  RecordDecision_params config signer ctx evaluation result inputHash w = Ok params →
  ∃ id signature envelope,
    world_ids w 0%nat = Some id ∧
    let unsigned := unsigned_decision config signer id evaluation result inputHash
                      (world_now w 0%nat) in
    let d := with_signature signature unsigned in
    record_Decision params = d ∧ Verify signer (protoutil_Decision d) = true ∧
    unmarshal_envelope (event_Envelope (record_DecisionEvent params)) = Some envelope ∧
    envelope_EventType envelope = "policy.decision_recorded" ∧
    marshal_policy_message (PolicyDecisionRecorded (protoutil_Decision d))
      = Some (envelope_Payload envelope).
Proof.
  unfold RecordDecision_params, newDecisionEvent, newOutboxEvent. intros Hp.
  result_inv Hp. injection Hp as <-. result_inv E1. injection E1 as <-.
  apply unmarshal_marshal in E4. do 3 eexists. cbn.
  split_and!; [done|done| |exact E4|done|done].
  by eapply Sign_Verify.
Qed.

(** The identifiers of a message are those of the value. *)
Lemma protoutil_Decision_effect d :
  decision_checks d = true → proto_enum effects_allowed (decision_Effect d) = decision_Effect d.
Proof.
  unfold decision_checks, proto_enum. intros Hd. bool_facts.
  by select (slices_Contains effects_allowed _ = true) (fun He => rewrite He).
Qed.

Lemma valid_record config signer ctx evaluation cctx interfere cache cache' result inputHash
    w params db ev :
  PolicyEngine.Evaluate interfere cctx evaluation [] cache = (Ok result, cache') →
  RecordDecision_params config signer ctx evaluation result inputHash w = Ok params →
  valid signer db → valid signer (run (RecordDecision ctx params) db ev).2.
Proof.
  intros Heval Hp Hv. apply run_cases; [done|]. intros db' Hc.
  apply RecordDecision_params_Ok in Hp
    as (id0 & signature & envelope & Hid0 & Hd & Hver & Henv & Hty & Hpay).
  unfold RecordDecision, beginServiceTenant in Hc. rewrite Hd in Hc. cbn in Hc.
  committed_inv Hc. apply committed_check_commit_then in Hc as [-> _]; [|apply _|done].
  apply insertDecision_Ok in E
    as (t & id & request & subject & company & policy & rule & Ht & Hid & Hreq & Hchk
        & Hfresh & Huniq & Hdb).
  apply policy_outbox_Ok in E0 as (clock & ob & Hob & Hdb2 & _). cbn in *.
  rewrite Hdb2. rewrite Hdb in Hob |- *. clear Hdb Hdb2.
  apply insert_outbox_spec in Hob as (Hfo & Hholds & t' & eid & Ht' & _ & Hann);
    [|apply Hv]. cbn in Ht', Hholds, Hann. simplify_eq.
  split; cbn; try apply Hv; [done| |].
  - apply map_Forall_insert_2.
    + split; cbn; [done|done| |].
      * injection Heval as <- _. apply unruled_result.
      * destruct Hann as (n & row & Hrow & HT & HE). exists n, row.
        rewrite HT, HE. split; [done|]. split; [done|]. exists envelope, (protoutil_Decision (record_Decision params)).
        rewrite Hd. cbn. split_and!; try done. by apply protoutil_Decision_effect in Hchk.
    + intros k d Hkd. eapply decision_ok_grows; [exact Hholds|]. by apply Hv.
  - intros k1 k2 d1 d2 H1' H2' Heq.
    apply lookup_insert_Some in H1' as [[<- <-]|[_ H1']];
      apply lookup_insert_Some in H2' as [[<- <-]|[_ H2']]; cbn in *; [done|..].
    + by destruct (Huniq _ _ H2').
    + by destruct (Huniq _ _ H1').
    + by eapply (valid_requests _ _ Hv).
Qed.

Lemma reachable_valid config signer db : reachable config signer db → valid signer db.
Proof.
  induction 1; eauto using valid_create, valid_version, valid_activate, valid_archive,
    valid_defaults.
  - split; cbn; try done; try apply map_Forall_empty.
    intros k. cbn. rewrite lookup_empty. by intros [].
  - select (run (ListActiveBundles _ _ _ _ _ _) _ _ = _) (fun Hl =>
      apply no_versions_no_bundles in Hl as ->; [|by apply IHreachable1|done]).
    by eapply valid_record.
  - select (processBatch _ _ _ = _) (fun Hb => apply same_events_batch in Hb as Hs).
    cbn in Hs. apply valid_set_outbox; [done|..].
    + eapply fresh_same_events; [done|]. apply IHreachable.
    + intros P. by apply holds_same_events.
Qed.

End Invariant.
