(* ===== verification/PolicyProperties.v ===== *)
(** * Policy approval: properties of the service *)

From S2P Require Import Prelude GoStrings Postgres Usecase Outbox OutboxProperties.
From S2P Require Import PolicyEngine PolicyEngineProperties PolicyStore.
From S2P Require Import PolicyRepository PolicyService PolicyReachable.
From stdpp Require Import strings gmap list.
From Stdlib Require Import String Lia.
Open Scope string_scope.
Open Scope list_scope.
Open Scope Z_scope.

#[local] Notation Decision := PolicyEngine.Decision.
#[local] Notation world := (Usecase.world policy_tables).
#[local] Notation app := (Usecase.app policy_tables error).

Section Properties.
Context `{PlatformLaws, PolicyProto, !Cel} `{!ProtoLaws}.
Variables (config : Config) (signer : Signer) (clients : Clients).
Implicit Types (ctx : Ctx) (w : world) (ev : env) (db : policy_tables).
#[local] Notation reachable := (reachable config signer).

(** ** Every operation of the service *)

Inductive operation :=
| OpCreatePolicy (input : CreatePolicyInput)
| OpGetPolicy (actorUserID tenantID policyID : string)
| OpListPolicies (actorUserID tenantID : string) (limit : Z) (cursor : option string)
    (includeArchived : bool)
| OpCreateVersion (input : CreateVersionInput)
| OpActivatePolicy (actorUserID tenantID policyID : string) (expected version : Z)
| OpArchivePolicy (actorUserID tenantID policyID : string) (expected : Z)
| OpGetDecision (actorUserID tenantID decisionID : string)
| OpListDecisions (actorUserID tenantID : string) (subjectID : option string) (limit : Z)
    (cursor : option (Time * string))
| OpEnsureDefaultPolicies (input : EnsureDefaultPoliciesInput)
| OpEvaluate (eng : Engine) (input : EvaluationInput).

Definition operate (ctx : Ctx) (op : operation) : app unit :=
  match op with
  | OpCreatePolicy input => CreatePolicy config clients ctx input;; mret tt
  | OpGetPolicy a t p => GetPolicy clients ctx a t p;; mret tt
  | OpListPolicies a t l c i => ListPolicies clients ctx a t l c i;; mret tt
  | OpCreateVersion input => CreateVersion config clients ctx input;; mret tt
  | OpActivatePolicy a t p e v => ActivatePolicy config clients ctx a t p e v;; mret tt
  | OpArchivePolicy a t p e => ArchivePolicy config clients ctx a t p e;; mret tt
  | OpGetDecision a t d => GetDecision clients ctx a t d;; mret tt
  | OpListDecisions a t s l c => ListDecisions clients ctx a t s l c;; mret tt
  | OpEnsureDefaultPolicies input => EnsureDefaultPolicies config ctx input;; mret tt
  | OpEvaluate eng input => Evaluate config signer clients eng ctx input;; mret tt
  end.

(** The order in which the server returns rows is some order. *)
Definition ordered_rows (op : operation) : Prop :=
  match op with
  | OpEvaluate eng _ => ∀ rows, engine_arrange eng rows ≡ₚ rows
  | _ => True
  end.

(** Other transactions keep the tables reachable and the decisions recorded. *)
Definition peers (w : world) : Prop := ∀ n db, reachable db →
  reachable (world_interfere w n db) ∧
  policy_decisions db ⊆ policy_decisions (world_interfere w n db).

(** What every operation maintains, from the decisions [ds] on. *)
Definition since (ds : gmap (string * string) Decision) (db : policy_tables) : Prop :=
  reachable db ∧ ds ⊆ policy_decisions db.

Lemma peers_since w ds : peers w → ∀ n db, since ds db → since ds (world_interfere w n db).
Proof. intros Hw n db [[Hr Hd]%(Hw n) Hds]. split; [done|]. by etrans. Qed.

Lemma triple_transaction {A} w ds (m : repo A) :
  peers w → along keeps_decisions m →
  (∀ db ev, reachable db → reachable (run m db ev).2) →
  triple (since ds) w (call m) (λ _, True).
Proof.
  intros Hw Hm Hr. apply triple_call; [by apply peers_since|]. intros db ev [Hdb Hds].
  split; [|done]. split; [by apply Hr|]. etrans; [done|]. by apply (run_along keeps_decisions).
Qed.

Lemma triple_readonly {A} w ds (m : repo A) (Q : A → Prop) :
  peers w → readonly m →
  (∀ db ev a, reachable db → (run m db ev).1 = Ok a → Q a) →
  triple (since ds) w (call m) Q.
Proof.
  intros Hw Hm HQ. apply triple_call; [by apply peers_since|]. intros db ev [Hdb Hds].
  rewrite run_readonly by done. split; [done|]. eauto.
Qed.

Lemma triple_query {A} w ds (m : repo A) :
  peers w → readonly m → triple (since ds) w (call m) (λ _, True).
Proof. intros. by apply triple_readonly. Qed.

(** ** Each use case *)

Lemma defaults_since ctx input w ds :
  peers w → triple (since ds) w (EnsureDefaultPolicies config ctx input) (λ _, True).
Proof.
  intros Hw. unfold EnsureDefaultPolicies, EnsureDefaults, loadBootstrapPolicies. use_case.
  - apply triple_transaction; [done| |].
    + apply _.
    + intros db ev. by eapply reachable_defaults.
  - apply triple_query; [done|apply _].
  - match goal with |- context [loadBootstrapPolicies_each _ _ _ ?ids] =>
      induction ids as [|id ids IH] end; cbn; use_case.
    + apply triple_query; [done|apply _].
    + eapply triple_bind; [exact IH|]. intros ? _. by apply triple_ret.
Qed.

Lemma evaluate_since eng ctx input w ds :
  (∀ rows, engine_arrange eng rows ≡ₚ rows) → peers w →
  triple (since ds) w (Evaluate config signer clients eng ctx input) (λ _, True).
Proof.
  intros Harr Hw. unfold Evaluate, decide_fresh. use_case.
  eapply (triple_bind _ _ _ _ (λ _, True)).
  { apply triple_try_call; [by apply peers_since|]. intros db ev Hdb.
    by rewrite run_readonly by apply _. }
  intros [existing|err] _; [by destruct (negb _); use_case|].
  destruct err; try (by use_case).
  eapply (triple_bind _ _ _ _ (λ bundles, ∃ db ev db', reachable db ∧
    run (ListActiveBundles (engine_arrange eng) ctx
      (config_EvaluationServicePrincipalID config) (input_TenantID (with_subject a0 input))
      (subject_CompanyID (input_Subject (with_subject a0 input)))
      (agentIDForScope (input_Subject (with_subject a0 input)))) db ev = (Ok bundles, db'))).
  { apply triple_readonly; [done|apply _|]. intros db ev bundles Hdb Hb.
    exists db, ev, db. split; [done|].
    pose proof (run_readonly (ListActiveBundles (engine_arrange eng) ctx
      (config_EvaluationServicePrincipalID config) (input_TenantID (with_subject a0 input))
      (subject_CompanyID (input_Subject (with_subject a0 input)))
      (agentIDForScope (input_Subject (with_subject a0 input)))) db ev _) as Hro.
    destruct (run _ _ _). cbn in *. by subst. }
  intros bundles (db0 & ev0 & db0' & Hdb0 & Hb). use_case.
  apply triple_transaction; [done| |].
  - unfold RecordDecision, beginServiceTenant. apply _.
  - intros db ev Hdb. cbn beta in *.
    destruct (PolicyEngine.Evaluate _ _ _ _ _) as [r c'] eqn:He. cbn in *. subst r.
    eapply reachable_record; [exact Hdb0|exact Harr|exact Hb|exact He|done|exact Hdb].
Qed.

Lemma operate_since ctx op w ds :
  ordered_rows op → peers w → triple (since ds) w (operate ctx op) (λ _, True).
Proof.
  intros Hop Hw. destruct op; cbn; apply (triple_bind _ _ _ _ (λ _, True));
    try (intros; by apply triple_ret).
  - unfold PolicyService.CreatePolicy. use_case. apply triple_transaction; [done| |].
    + unfold CreatePolicy, beginUserTenant. apply _.
    + intros db ev. by eapply reachable_create.
  - unfold PolicyService.GetPolicy. use_case. apply triple_query; [done|apply _].
  - unfold PolicyService.ListPolicies. use_case. apply triple_query; [done|apply _].
  - unfold PolicyService.CreateVersion. use_case. apply triple_transaction; [done| |].
    + unfold CreateVersion, beginUserTenant. apply _.
    + intros db ev. by eapply reachable_version.
  - unfold PolicyService.ActivatePolicy. use_case. apply triple_transaction; [done| |].
    + unfold ActivatePolicy, beginUserTenant. apply _.
    + intros db ev. by eapply reachable_activate.
  - unfold PolicyService.ArchivePolicy. use_case. apply triple_transaction; [done| |].
    + unfold ArchivePolicy, beginUserTenant. apply _.
    + intros db ev. by eapply reachable_archive.
  - unfold PolicyService.GetDecision. use_case. apply triple_query; [done|apply _].
  - unfold PolicyService.ListDecisions. use_case. apply triple_query; [done|apply _].
  - by apply defaults_since.
  - by apply evaluate_since.
Qed.

(** C8 (decisions are final, unique and announced). Whatever operation of the
    service runs, against any interleaved transactions and with connections that
    fail anywhere: a recorded decision is never changed or removed, an evaluation
    request of a tenant has at most one decision, and each decision in the tables
    was announced in the outbox by an event that carries its identifiers, effect,
    constraints and signature, and whose signature verifies. *)
Theorem decisions_final_and_announced ctx op w db :
  ordered_rows op → peers w → reachable db →
  let db' := (perform (operate ctx op) w db).2 in
  policy_decisions db ⊆ policy_decisions db' ∧ one_per_request (policy_decisions db') ∧
  map_Forall (λ _ d, holds (announces signer d) (policy_outbox db')) (policy_decisions db').
Proof.
  intros Hop Hw Hdb.
  destruct (triple_perform _ w _ _ db (operate_since ctx op w (policy_decisions db) Hop Hw))
    as [[Hr Hds] _]; [by split|].
  split; [done|]. pose proof (reachable_valid _ _ _ Hr) as Hv. split; [by apply Hv|].
  intros k d Hd. by apply (valid_decisions _ _ Hv k d Hd).
Qed.

(** C37 (no policy takes effect). The service numbers every new version 0, which
    the table refuses, and its bootstrap inserts rules without an identifier. So no
    version is ever stored, no policy is ever active, and every decision recorded
    is what the subject's autonomy alone yields: a denial for all but agents, and
    for agents a denial, an approval request or a constrained read. *)
Theorem no_policy_takes_effect ctx op w db :
  ordered_rows op → peers w → reachable db →
  let db' := (perform (operate ctx op) w db).2 in
  policy_versions db' = ∅ ∧
  map_Forall (λ _ p, policy_Status p ≠ PolicyStatusActive) (policy_sets db') ∧
  map_Forall (λ _ d, unruled_effect d) (policy_decisions db').
Proof.
  intros Hop Hw Hdb.
  destruct (triple_perform _ w _ _ db (operate_since ctx op w (policy_decisions db) Hop Hw))
    as [[Hr Hds] _]; [by split|].
  pose proof (reachable_valid _ _ _ Hr) as Hv. split_and!; [by apply Hv| |].
  - intros k p (_ & Hchk & Ha)%(valid_sets _ _ Hv) Hact. unfold policy_checks in Hchk.
    rewrite Ha, Hact in Hchk. cbn in Hchk. by rewrite !andb_false_r in Hchk.
  - intros k d Hd. by apply (valid_decisions _ _ Hv k d Hd).
Qed.

(** ** Management *)

(** After the commit the transaction takes no query. *)
Lemma queryPolicy_after_commit tenantID policyID s u s1 policy s2 :
  PolicyRepository.commit s = (Ok u, s1) →
  queryPolicy tenantID policyID s1 ≠ (Ok policy, s2).
Proof.
  unfold PolicyRepository.commit, queryPolicy, query. intros Hc Hq.
  apply tx_bind_Ok in Hc as (u1 & s3 & _ & (Hc & _)%commit_Ok).
  apply tx_bind_Ok in Hq as (row & s4 & Hq%map_err_Ok & _).
  apply tx_bind_Ok in Hq as (u2 & s5 & Hs & _).
  by rewrite (statement_closed _ _ Hc) in Hs.
Qed.

(** A use case whose last transaction cannot succeed. *)
Lemma perform_fails {A} (m : app A) w db :
  (∀ a s, m w (0%nat, db) ≠ (Ok a, s)) → is_ok (perform m w db).1 = false.
Proof. unfold perform. intros Hm. destruct (m w _) as [[a|e] s]; [by destruct (Hm a s)|done]. Qed.

Lemma CreateVersion_fails ctx input w params db ev a db' :
  CreateVersion_params config ctx input w = Ok params →
  run (PolicyRepository.CreateVersion ctx params) db ev ≠ (Ok a, db').
Proof.
  intros Hp Hr. apply run_Ok in Hr as (s & Hr & _).
  unfold PolicyRepository.CreateVersion, beginUserTenant in Hr. tx_inv_core Hr.
  apply insertVersion_positive in E. unfold CreateVersion_params in Hp. result_inv Hp.
  injection Hp as <-. cbn in E. lia.
Qed.

Lemma EnsureDefaultPolicies_fails ctx input w db :
  is_ok (perform (EnsureDefaultPolicies config ctx input) w db).1 = false.
Proof.
  apply perform_fails. intros a s Hr.
  unfold EnsureDefaultPolicies, EnsureDefaults, loadBootstrapPolicies in Hr. app_inv Hr.
  match goal with Hr : run (bootstrapPolicyIDs _ _ _) _ _ = _ |- _ =>
    apply run_Ok in Hr as (s' & Hr & _) end.
  unfold bootstrapPolicyIDs, beginServiceTenant in *.
  match goal with Hr : _ (new_session _ _) = _ |- _ => tx_inv_core Hr end.
  discriminate.
Qed.

(** Management reports failure. [CreateVersion], [ActivatePolicy],
    [ArchivePolicy] and [EnsureDefaultPolicies] never return without an error,
    whatever the tables, the input and the environment: the first inserts version
    0, the next two read the policy back from the transaction they have committed,
    and the last one's query names a column that does not exist. *)
Theorem management_never_succeeds ctx w db :
  (∀ input,
     is_ok (perform (PolicyService.CreateVersion config clients ctx input) w db).1
     = false) ∧
  (∀ actor tenant policy expected version,
     is_ok (perform (PolicyService.ActivatePolicy config clients ctx actor tenant policy
                       expected version) w db).1 = false) ∧
  (∀ actor tenant policy expected,
     is_ok (perform (PolicyService.ArchivePolicy config clients ctx actor tenant policy
                       expected) w db).1 = false) ∧
  (∀ input, is_ok (perform (EnsureDefaultPolicies config ctx input) w db).1 = false).
Proof.
  split_and!; intros; [apply perform_fails; intros a s Hr..|by apply EnsureDefaultPolicies_fails].
  - unfold PolicyService.CreateVersion in Hr. app_inv Hr.
    apply call_run in Hr as [Hr _]. by eapply CreateVersion_fails in Hr.
  - unfold PolicyService.ActivatePolicy in Hr. app_inv Hr.
    apply call_run in Hr as [(s' & Hr & _)%run_Ok _].
    unfold PolicyRepository.ActivatePolicy, beginUserTenant in Hr. tx_inv_core Hr.
    by eapply queryPolicy_after_commit.
  - unfold PolicyService.ArchivePolicy in Hr. app_inv Hr.
    apply call_run in Hr as [(s' & Hr & _)%run_Ok _].
    unfold PolicyRepository.ArchivePolicy, beginUserTenant in Hr. tx_inv_core Hr.
    by eapply queryPolicy_after_commit.
Qed.

(** ** Evaluation *)

(** [row] is the stored decision on the request [requestID] of the tenant
    [tenantID]. *)
Definition decides (db : policy_tables) (tenantID requestID : string) (row : Decision)
  : Prop :=
  (∃ k, policy_decisions db !! k = Some row) ∧
  uuid_in tenantID = Some (decision_TenantID row) ∧
  uuid_in requestID = Some (decision_RequestID row).

Lemma sql_decision_by_request_Ok tenantID requestID sc db d :
  sql_decision_by_request tenantID requestID sc db = Ok d → decides db tenantID requestID d.
Proof.
  unfold sql_decision_by_request, cast. intros Hq. result_inv Hq.
  destruct (List.find _ _) as [[k d']|] eqn:Hf; [|done]. injection Hq as <-.
  apply find_some in Hf as [Hin Hm]. rewrite <-list_elem_of_In, elem_of_map_to_list in Hin.
  cbn in *. bool_facts. subst. by split; [exists k|].
Qed.

Lemma FindDecision_Ok ctx principal tenantID requestID db ev d db' :
  run (FindDecisionByRequestID ctx principal tenantID requestID) db ev = (Ok d, db') →
  decides db tenantID requestID d.
Proof.
  intros (s & Hr & _)%run_Ok. unfold FindDecisionByRequestID, beginServiceTenant in Hr.
  tx_inv_core Hr. by eapply sql_decision_by_request_Ok.
Qed.

Lemma RecordDecision_Ok ctx params db ev d db' :
  run (RecordDecision ctx params) db ev = (Ok d, db') →
  d = record_Decision params ∧
  ∃ row, decides db' (decision_TenantID d) (decision_RequestID d) row ∧
    decision_InputHash row = decision_InputHash d ∧
    decision_Effect row = decision_Effect d ∧
    decision_Constraints row = decision_Constraints d ∧
    decision_Signature row = decision_Signature d ∧
    decision_ExpiresAt row = timestamptz (decision_ExpiresAt d).
Proof.
  intros (s & Hr & ->)%run_Ok. unfold RecordDecision, beginServiceTenant in Hr.
  tx_inv_core Hr. split; [done|].
  select (PolicyRepository.commit _ = _) (fun Hc => apply check_commit_Ok in Hc as ->).
  apply insertDecision_Ok in E
    as (t & id & request & subject & company & policy & rule & Ht & Hid & Hreq & _ & _
        & _ & Hdb).
  apply policy_outbox_Ok in E0 as (clock & ob & _ & -> & _). rewrite Hdb. cbn.
  exists (with_ids t id request subject company policy rule
            (decision_row (record_Decision params))).
  split; [|done]. split; [|done]. exists (t, id). cbn. by rewrite lookup_insert_eq.
Qed.

(** A returned decision is recorded. When [Evaluate] returns a decision, the
    tables hold one on that request of that tenant, with the hash of the input as
    resolved, the same effect, constraints and signature, and the outbox holds its
    announcement: no decision leaves the service unrecorded, replayed or new. *)
Theorem returned_decision_recorded eng ctx input w db d db' :
  (∀ rows, engine_arrange eng rows ≡ₚ rows) → peers w → reachable db →
  perform (Evaluate config signer clients eng ctx input) w db = (Ok d, db') →
  ∃ subject row,
    resolveSubject clients (input_TenantID input) (input_Subject input) = Ok subject ∧
    hashEvaluationInput (with_subject subject input) = Ok (decision_InputHash row) ∧
    decides db' (input_TenantID input) (input_RequestID input) row ∧
    decision_InputHash row = decision_InputHash d ∧
    decision_Effect row = decision_Effect d ∧
    decision_Constraints row = decision_Constraints d ∧
    decision_Signature row = decision_Signature d ∧
    holds (announces signer row) (policy_outbox db').
Proof.
  intros Harr Hw Hdb Hp.
  destruct (triple_perform _ w _ _ db
    (evaluate_since eng ctx input w (policy_decisions db) Harr Hw)) as [[Hreach _] _];
    [by split|].
  rewrite Hp in Hreach. pose proof (reachable_valid _ _ _ Hreach) as Hv. cbn in Hv.
  cut (∃ subject row,
    resolveSubject clients (input_TenantID input) (input_Subject input) = Ok subject ∧
    hashEvaluationInput (with_subject subject input) = Ok (decision_InputHash row) ∧
    decides db' (input_TenantID input) (input_RequestID input) row ∧
    decision_InputHash row = decision_InputHash d ∧
    decision_Effect row = decision_Effect d ∧
    decision_Constraints row = decision_Constraints d ∧
    decision_Signature row = decision_Signature d).
  { intros (subject & row & ? & ? & Hdec & ?). exists subject, row.
    destruct Hdec as ((k & Hk) & ?). destruct_and?.
    apply (valid_decisions _ _ Hv) in Hk as Hok. split_and!; try done; [|apply Hok].
    split_and!; eauto. }
  apply perform_Ok in Hp as (s & Hp & <-). unfold Evaluate in Hp. app_inv Hp.
  destruct a2 as [existing|[]]; try done.
  - destruct (negb _) eqn:Hhash; [done|]. bool_facts. unfold mret, app_ret in Hp.
    injection Hp as <- <-. exists a0, existing. subst a1. cbn in *.
    apply FindDecision_Ok in E2 as Hd.
    pose proof (run_readonly (FindDecisionByRequestID ctx
      (config_EvaluationServicePrincipalID config) (input_TenantID input)
      (input_RequestID input)) (world_interfere w 0 db) (world_env w 0) _) as Hro.
    rewrite E2 in Hro. cbn in Hro. rewrite Hro. by split_and!.
  - unfold decide_fresh in Hp. app_inv Hp. apply call_run in Hp as [Hp _].
    apply RecordDecision_Ok in Hp as (-> & row & Hdec & Hhash & Heff & Hcon & Hsig & _).
    unfold RecordDecision_params in E5. result_inv E5. injection E5 as <-. cbn in *.
    exists a0, row. rewrite Hhash. by split_and!.
Qed.

(** A request with a decision is found, unless the database fails. *)
Lemma sql_decision_by_request_Err ctx principal tenantID requestID db x row :
  decides db tenantID requestID row →
  sql_decision_by_request tenantID requestID
    (ServiceTenantScope tenantID principal (ctx_RequestID ctx) (ctx_CorrelationID ctx)) db
    = Err x → x = ErrInvalidUUID.
Proof.
  intros ([k Hk] & Ht & Hr). unfold sql_decision_by_request, cast. rewrite Ht, Hr. cbn.
  unfold rls_of, rls_setting. cbn. rewrite (uuid_in_trimmed _ _ Ht).
  destruct (String.eqb_spec tenantID "") as [->|]; [by rewrite uuid_in_empty in Ht|].
  rewrite Ht. cbn.
  destruct (if String.eqb (TrimSpace principal) "" then _ else _) as [p|e] eqn:Ep.
  - cbn. destruct (List.find _ _) eqn:Hf; [done|].
    apply find_none with (x := (k, row)) in Hf;
      [|by rewrite <-list_elem_of_In, elem_of_map_to_list].
    cbn in Hf. by rewrite !String.eqb_refl in Hf.
  - cbn. intros [= <-]. destruct (String.eqb (TrimSpace principal) ""); [done|].
    by destruct (uuid_in (TrimSpace principal)); cbn in *; simplify_eq.
Qed.

Lemma FindDecision_decided ctx principal tenantID requestID db ev row :
  one_per_request (policy_decisions db) → decides db tenantID requestID row →
  let r := (run (FindDecisionByRequestID ctx principal tenantID requestID) db ev).1 in
  r = Ok row ∨ ∃ x, r = Err (ErrDatabase x).
Proof.
  intros Hone Hdec r. destruct r as [d|e] eqn:Hr; subst r.
  - left. destruct (run _ _ _) as [r db'] eqn:Hrun. cbn in Hr. subst r.
    apply FindDecision_Ok in Hrun as ([k1 Hk1] & Ht1 & Hr1).
    destruct Hdec as ([k2 Hk2] & Ht2 & Hr2).
    assert (k1 = k2) as -> by (apply (Hone _ _ _ _ Hk1 Hk2); congruence). congruence.
  - right. unfold run in Hr. 
    destruct (FindDecisionByRequestID _ _ _ _ (new_session db ev)) as [r' s'] eqn:Hm.
    cbn in Hr. subst r'. unfold FindDecisionByRequestID, beginServiceTenant in Hm.
    apply tx_bind_Err in Hm as [[x ->]%Begin_Err|(u & s1 & HB & Hm)]; [by exists x|].
    apply Begin_Ok in HB as (_ & Hdb & Hsc & _).
    apply tx_bind_Err in Hm as [(e0 & Hq & ->)%map_err_Err|(d & s2 & _ & Hm)].
    + apply query_Err in Hq as (x & -> & [[-> | ->]|Hq]); [by eexists..|].
      rewrite Hdb, Hsc in Hq. eapply sql_decision_by_request_Err in Hq as ->; [by eexists|].
      done.
    + apply tx_bind_Err in Hm as [Hm|(? & ? & _ & Hm)]; [|done].
      unfold PolicyRepository.commit in Hm.
      apply tx_bind_Err in Hm as [Hm|(? & ? & _ & (x & -> & _)%commit_Err)]; [|by exists x].
      apply tx_bind_Err in Hm as [Hm|(? & ? & _ & (x & _ & ->)%lift_db_Err)]; [|by exists x].
      done.
Qed.

(** The first decision stands. Once a request of a tenant has a decision, an
    evaluation of that request changes nothing: it returns the recorded decision
    when its input hashes to the recorded hash, refuses with a mismatch when it
    does not, or reports an error of the database. *)
Theorem first_decision_stands eng ctx input w db subject inputHash row :
  let db1 := world_interfere w 0 db in
  reachable db1 → decides db1 (input_TenantID input) (input_RequestID input) row →
  validateEvaluation input = Ok tt →
  resolveSubject clients (input_TenantID input) (input_Subject input) = Ok subject →
  hashEvaluationInput (with_subject subject input) = Ok inputHash →
  ∃ r, perform (Evaluate config signer clients eng ctx input) w db = (r, db1) ∧
    (r = (if String.eqb (decision_InputHash row) inputHash then Ok row
          else Err ErrDecisionMismatch) ∨
     ∃ x, r = Err (ErrDatabase x)).
Proof.
  intros db1 Hdb Hdec Hval Hres Hhash.
  pose proof (valid_requests _ _ (reachable_valid _ _ _ Hdb)) as Hone.
  pose proof (FindDecision_decided ctx (config_EvaluationServicePrincipalID config) _ _ _
    (world_env w 0) row Hone Hdec) as Hfind.
  pose proof (run_readonly (FindDecisionByRequestID ctx
    (config_EvaluationServicePrincipalID config) (input_TenantID input)
    (input_RequestID input)) db1 (world_env w 0) _) as Hro.
  unfold perform, Evaluate, mbind, app_bind, pure, try_call. rewrite Hval, Hres, Hhash.
  cbn [fst snd]. fold db1. destruct (run _ _ _) as [r db']. cbn in Hfind, Hro |- *. subst db'.
  destruct Hfind as [-> |[x ->]]; [|by eexists; eauto].
  destruct (String.eqb (decision_InputHash row) inputHash); cbn; eauto.
Qed.

End Properties.
