(* ===== verification/PolicyExamples.v ===== *)
(** * Policy approval: concrete runs

    An instance of the foreign code of the policy service (JSON, CEL, protobuf and
    digests), and the properties of [PolicyEngineProperties] and
    [PolicyProperties] at concrete inputs. *)

From S2P Require Import Prelude GoStrings Postgres Usecase Outbox OutboxProperties.
From S2P Require TenantDomain.
From S2P Require Import Concrete.
From S2P Require Import PolicyEngine PolicyEngineProperties.
From S2P Require Import PolicyStore PolicyRepository PolicyService.
From S2P Require Import PolicyReachable PolicyProperties.
From stdpp Require Import strings gmap list.
From Stdlib Require Import String Ascii Lia.
Open Scope string_scope.
Open Scope list_scope.
Open Scope Z_scope.

#[local] Notation Decision := PolicyEngine.Decision.
#[local] Notation world := (Usecase.world policy_tables).

#[local] Existing Instance concrete_platform.

(** A JSON object is its text. *)
#[local] Instance concrete_json : Json := {|
  json_object := string; json_column_size := len; constraints_column_size _ := 64 |}.

(** Conditions: the literals, a limit on the estimated cost, and one that exceeds
    its cost. *)
Definition concrete_compile (expression : string) : option string :=
  if slices_Contains ["true"; "false"; "error";
                      "request.estimated_cost_micro_usd <= 100000"] expression
  then Some expression else None.

Fixpoint cel_field (name : string) (fields : list (string * CelValue)) : option CelValue :=
  match fields with
  | [] => None
  | (k, v) :: fields' => if String.eqb k name then Some v else cel_field name fields'
  end.

Definition concrete_eval (expression : string) (variables : list (string * CelValue))
  : option CelResult :=
  if String.eqb expression "error" then None
  else if String.eqb expression "true" then Some CelTrue
  else if String.eqb expression "false" then Some CelFalse
  else match cel_field "request" variables with
       | Some (CelMap fields) =>
           match cel_field "estimated_cost_micro_usd" fields with
           | Some (CelInt cost) => Some (if cost <=? 100000 then CelTrue else CelFalse)
           | _ => None
           end
       | _ => None
       end.

#[local] Instance concrete_cel : Cel := {|
  cel_Ast := string; cel_Program := string; cel_Context := unit;
  cel_Compile := concrete_compile; cel_OutputType _ := "bool";
  cel_AstToCheckedExpr _ := Some (Some ConstExpr); cel_NewProgram := Some;
  cel_ContextEval _ := concrete_eval |}.

Inductive policy_wire :=
| PolicyBytes (m : PolicyMessage)
| DecisionBytes (d : Decision)
| RequestBytes (i : EvaluationInput)
| PolicyEnvelopeBytes (e : EventEnvelope policy_wire).

#[local] Instance policy_proto : Proto := {|
  wire := policy_wire;
  marshal_envelope e := Some (PolicyEnvelopeBytes e);
  unmarshal_envelope w := match w with PolicyEnvelopeBytes e => Some e | _ => None end;
  timestamp_valid _ := true |}.

#[local] Instance policy_proto_laws : ProtoLaws.
Proof. by intros e w [= <-]. Qed.
#[local] Existing Instance concrete_platform_laws.

(** A digest keeps 32 bytes of what it digests. *)
Definition digest (s : string) : string :=
  substring 0 32 (s +:+ "................................").

#[local] Instance policy_messages : PolicyProto := {|
  marshal_policy_message m := Some (PolicyBytes m);
  marshal_policy_decision d := Some (DecisionBytes d);
  marshal_evaluate_request i := Some (RequestBytes i);
  sha256_Sum256 w := match w with RequestBytes i => digest (input_Action i) | _ => digest "" end;
  hmac_sha256 key w :=
    match w with DecisionBytes d => digest (key +:+ decision_Effect d) | _ => digest "" end |}.

(** ** A service and its world *)

Definition example_config : Config := {|
  config_EventTopic := "gereh.policy.events.v1";
  config_EvaluationServicePrincipalID := uuid 8;
  config_BootstrapServicePrincipalID := uuid 9; config_DecisionTTL := 60000000000 |}.

Example example_config_accepted : New example_config = Ok example_config.
Proof. vm_compute. reflexivity. Qed.

Definition example_signer : Signer := {| signer_keyID := "key-1"; signer_key := "secret" |}.

Definition observer : Subject := {|
  subject_Type := SubjectAgent; subject_ID := uuid 5; subject_CompanyID := Some (uuid 6);
  subject_AgentAutonomy := "observe_only"; subject_AgentStatus := "active";
  subject_AgentCapabilities := []; subject_AgentVersion := 1 |}.

Definition example_clients : Clients := {|
  CheckAuthorization actorUserID tenantID permission := Ok (Some {|
    TenantDomain.decision_Allowed := true; TenantDomain.decision_TenantID := tenantID;
    TenantDomain.decision_ActorUserID := actorUserID;
    TenantDomain.decision_Permission := permission;
    TenantDomain.decision_Role := TenantDomain.RoleOwner;
    TenantDomain.decision_TenantVersion := 1; TenantDomain.decision_MembershipVersion := 1;
    TenantDomain.decision_DenialReason := "" |});
  GetAgentPolicyContext _ _ := Ok observer |}.

Definition example_engine : Engine := {|
  engine_Context := tt; engine_cache := ∅; engine_interfere _ c := c;
  engine_arrange rows := rows |}.

Definition example_ctx : Ctx :=
  {| ctx_RequestID := "request-1"; ctx_CorrelationID := ""; ctx_TraceID := "" |}.

Definition example_world (m : nat) : world := {|
  world_env n := {| env_clock := 1000; env_budget := None |};
  world_interfere _ db := db;
  world_ids n := Some (uuid2 m n);
  world_now _ := 5000000 |}.

Definition read_input (action : string) : EvaluationInput := {|
  input_RequestID := uuid 1; input_TenantID := uuid 2; input_CallerService := "runtime";
  input_Subject := observer; input_Action := action;
  input_Resource := {| resource_Type := "document"; resource_ID := "d1";
                       resource_Attributes := Some "{}" |};
  input_Risk := RiskLow; input_EstimatedCostMicroUSD := 10; input_Context := None |}.

Definition evaluate (m : nat) (action : string) (db : policy_tables)
  : result error Decision * policy_tables :=
  perform (Evaluate example_config example_signer example_clients example_engine
             example_ctx (read_input action)) (example_world m) db.

(** The agent reads a document; the decision is replayed; another action under the
    same request is refused. *)
Definition db_decided : policy_tables := (evaluate 1 "read.document" no_policy_tables).2.

Example read_is_decided :
  decision_Effect <$> (evaluate 1 "read.document" no_policy_tables).1
    = Ok EffectAllowWithConstraints ∧
  decision_ID <$> (evaluate 2 "read.document" db_decided).1 = Ok (uuid2 1 0) ∧
  (evaluate 3 "deploy.production" db_decided).1 = Err ErrDecisionMismatch.
Proof. vm_compute. done. Qed.

(** ** Witnesses: the engine *)

Lemma no_interference : ∀ (key : string) (c : cache), coherent c → coherent c.
Proof. done. Qed.

Definition limited (cost : option Z) (domains : list string) : Constraints := {|
  MaxCostMicroUSD := cost; MaxRuntimeSeconds := None; AllowedDomains := domains;
  AllowedResourceIDs := []; RequireHumanReview := false |}.

Definition example_rule (n : nat) (priority : Z) (effect : Effect) (condition : string)
    (constraints : Constraints) : Rule := {|
  rule_ID := uuid2 4 n; rule_Priority := priority; rule_Name := "rule";
  rule_Enabled := true; rule_Effect := effect; rule_ActionPatterns := ["read.*"];
  rule_ResourceTypes := []; rule_RiskLevels := [];
  rule_MaximumEstimatedCostMicroUSD := None; rule_Condition := condition;
  rule_Constraints := constraints; rule_Reason := "because" |}.

Definition example_bundle (n : nat) (default_effect : Effect) (rules : list Rule)
  : ActiveBundle := {|
  bundle_Policy := {|
    policy_TenantID := uuid 2; policy_ID := uuid2 3 n; policy_ScopeType := ScopeTenant;
    policy_ScopeID := None; policy_Name := "policy"; policy_Description := "";
    policy_Status := PolicyStatusActive; policy_ActivePolicyVersion := Some 1;
    policy_ResourceVersion := 1; policy_CreatedByUserID := uuid 3; policy_CreatedAt := 0;
    policy_UpdatedAt := 0; policy_ArchivedAt := None |};
  bundle_Version := {|
    version_TenantID := uuid 2; version_PolicyID := uuid2 3 n; version_PolicyVersion := 1;
    version_DefaultEffect := default_effect; version_Rules := rules; version_Notes := "";
    version_CreatedByUserID := uuid 3; version_CreatedAt := 0;
    version_ActivatedAt := None |} |}.

(** A policy whose rules limit, under conditions, what its default lets through. *)
Definition limiting_bundle : ActiveBundle :=
  example_bundle 1 EffectAllow
    [example_rule 1 20 EffectAllowWithConstraints "true"
       (limited (Some 500) ["a.example"; "b.example"]);
     example_rule 2 10 EffectRequireApproval "false" no_constraints;
     example_rule 3 30 EffectAllowWithConstraints
       "request.estimated_cost_micro_usd <= 100000" (limited (Some 800) ["b.example"])].
Definition approval_bundle : ActiveBundle :=
  example_bundle 2 EffectRequireApproval [example_rule 4 1 EffectAllow "true" no_constraints].

Lemma example_known effect rules n :
  known_effect effect → Forall (λ r, known_effect (rule_Effect r)) rules →
  Forall (λ r, no_colon (rule_ID r) = true) rules → no_colon (uuid2 3 n) = true →
  known_bundle (example_bundle n effect rules).
Proof. by repeat split. Qed.

Ltac known :=
  repeat first [ apply Forall_cons | apply Forall_nil | split ];
  try (apply example_known; [|repeat constructor..|]); vm_compute; try done;
  unfold known_effect; set_solver.

Lemma limiting_known : known_bundle limiting_bundle.
Proof. unfold limiting_bundle. known. Qed.
Lemma approval_known : known_bundle approval_bundle.
Proof. unfold approval_bundle. known. Qed.

Definition engine_run (input : EvaluationInput) (bundles : list ActiveBundle)
  : result error Result * cache :=
  PolicyEngine.Evaluate (λ _ c, c) tt input bundles ∅.

Definition engine_result (input : EvaluationInput) (bundles : list ActiveBundle)
    (H : is_ok (engine_run input bundles).1 = true) : Result :=
  get_ok (engine_run input bundles).1 H.

Lemma engine_run_ok input bundles (H : is_ok (engine_run input bundles).1 = true) :
  PolicyEngine.Evaluate (λ _ c, c) tt input bundles ∅
  = (Ok (engine_result input bundles H), (engine_run input bundles).2).
Proof.
  unfold engine_result. rewrite <-get_ok_Ok. unfold engine_run.
  by destruct (PolicyEngine.Evaluate _ _ _ _ _).
Qed.

Lemma limited_ok : is_ok (engine_run (read_input "read.document") [limiting_bundle]).1 = true.
Proof. vm_compute. done. Qed.
Lemma both_ok :
  is_ok (engine_run (read_input "read.document") [approval_bundle; limiting_bundle]).1 = true.
Proof. vm_compute. done. Qed.

Lemma evaluation_strictest_witness :
  result_Effect (engine_result (read_input "read.document")
                   [approval_bundle; limiting_bundle] both_ok)
  = strictest (effects (contributions tt (read_input "read.document")
                          [approval_bundle; limiting_bundle])).
Proof.
  eapply (evaluation_strictest (λ _ c, c) no_interference tt _ _ ∅);
    [apply coherent_empty| |apply engine_run_ok].
  apply Forall_cons; split; [apply approval_known|].
  apply Forall_cons; split; [apply limiting_known|constructor].
Defined.

Lemma more_policies_never_weaken_witness :
  severity (result_Effect (engine_result (read_input "read.document") [limiting_bundle]
                             limited_ok))
  ≤ severity (result_Effect (engine_result (read_input "read.document")
                               [approval_bundle; limiting_bundle] both_ok)).
Proof.
  eapply (more_policies_never_weaken (λ _ c, c) no_interference tt _ [limiting_bundle]
    [approval_bundle; limiting_bundle] ∅ ∅);
    [apply coherent_empty..| | | | |apply engine_run_ok|apply engine_run_ok].
  - apply Forall_cons; split; [apply limiting_known|constructor].
  - apply Forall_cons; split; [apply approval_known|].
    apply Forall_cons; split; [apply limiting_known|constructor].
  - done.
  - intros b Hb. by right.
Defined.

Lemma errors_fail_closed_witness :
  let input := read_input "read.document" in
  let broken := example_bundle 1 EffectAllow
    [example_rule 1 1 EffectAllow "error" no_constraints] in
  (∀ r c', PolicyEngine.Evaluate (λ _ c, c) tt input [broken] ∅ = (Ok r, c') →
     result_Effect r ≠ EffectDeny → Forall (bundle_healthy tt input) [broken]) ∧
  (Forall (bundle_healthy tt input) [broken] →
     ∃ r c', PolicyEngine.Evaluate (λ _ c, c) tt input [broken] ∅ = (Ok r, c')) ∧
  (engine_run input [broken]).1 = Err ErrExpressionCostExceeded.
Proof.
  intros input broken.
  destruct (errors_fail_closed (λ _ c, c) no_interference tt input [broken] ∅)
    as [H1 H2]; [apply coherent_empty| |split; [exact H1|split; [exact H2|]]].
  - apply known_keyed. apply Forall_cons; split; [unfold broken; known|constructor].
  - vm_compute. reflexivity.
Defined.

Lemma constraints_accumulate_witness :
  respects (result_Constraints <$> contributions tt (read_input "read.document")
                                     [limiting_bundle])
    (result_Constraints (engine_result (read_input "read.document") [limiting_bundle]
                           limited_ok)).
Proof.
  eapply (constraints_accumulate (λ _ c, c) no_interference tt _ _ ∅);
    [apply coherent_empty| |apply engine_run_ok|].
  - apply Forall_cons; split; [apply limiting_known|constructor].
  - vm_compute. discriminate.
Defined.

Lemma autonomy_binds_witness :
  autonomy_allows "observe_only" "read.document"
    (result_Effect (engine_result (read_input "read.document") [limiting_bundle]
                      limited_ok)).
Proof.
  eapply (autonomy_binds (λ _ c, c) no_interference tt (read_input "read.document") _ ∅);
    [apply coherent_empty| |reflexivity|apply engine_run_ok].
  apply Forall_cons; split; [apply limiting_known|constructor].
Defined.

Lemma approval_ok : is_ok (engine_run (read_input "read.document") [approval_bundle]).1 = true.
Proof. vm_compute. done. Qed.

Lemma stored_policies_never_allow_witness :
  let r := engine_result (read_input "read.document") [approval_bundle] approval_ok in
  result_Effect r ≠ EffectAllow ∧
  ([approval_bundle] ≠ [] → result_Effect r = EffectDeny ∨ result_Effect r = EffectRequireApproval) ∧
  (∀ b, b ∈ [approval_bundle] →
     version_DefaultEffect (bundle_Version b) = EffectDeny → result_Effect r = EffectDeny).
Proof.
  eapply (stored_policies_never_allow (λ _ c, c) no_interference tt _ _ ∅);
    [apply coherent_empty| |apply engine_run_ok].
  apply Forall_cons; split; [|constructor]. split; [apply approval_known|].
  cbn. set_solver.
Defined.

Lemma action_pattern_language_witness :
  (CountByte "*"%char "deploy.*" = 0 ∧
   ∀ action, ActionMatches "deploy.*" action = true ↔ action = "deploy.*") ∨
  (∃ prefix, "deploy.*" = prefix +:+ "*" ∧ CountByte "*"%char prefix = 0 ∧
   ∀ action, ActionMatches "deploy.*" action = true ↔ ∃ rest, action = prefix +:+ rest).
Proof. apply (action_pattern_language "deploy.*"); vm_compute; reflexivity. Defined.

Lemma disjoint_allowlists_open_witness :
  AllowedDomains (MergeConstraints (limited None ["a.example"]) (limited None ["b.example"]))
    = [] ∧
  AllowedDomains (MergeConstraints (MergeConstraints (limited None ["a.example"])
    (limited None ["b.example"])) (limited None ["c.example"])) = ["c.example"].
Proof. apply (disjoint_allowlists_open _ _ (limited None ["c.example"])); set_solver. Defined.

(** ** Witnesses: the service *)

#[local] Notation example_reachable := (reachable example_config example_signer).

Lemma example_peers m : peers example_config example_signer (example_world m).
Proof. by intros n db Hdb. Qed.

Definition evaluation (action : string) : operation :=
  OpEvaluate example_engine (read_input action).

Lemma evaluation_rows action : ordered_rows (evaluation action).
Proof. by intros rows. Qed.

Lemma evaluate_reachable m action db :
  example_reachable db → example_reachable (evaluate m action db).2.
Proof.
  intros Hdb. unfold evaluate.
  destruct (triple_perform _ (example_world m) _ _ db
    (evaluate_since example_config example_signer example_clients example_engine example_ctx
       (read_input action) (example_world m) (policy_decisions db)
       (λ rows, reflexivity rows) (example_peers m))) as [[Hr _] _]; [by split|done].
Qed.

Lemma start_reachable : example_reachable no_policy_tables.
Proof. apply reachable_start. Qed.

Lemma decisions_final_and_announced_witness :
  let db' := (perform (operate example_config example_signer example_clients example_ctx
                (evaluation "deploy.production")) (example_world 2) db_decided).2 in
  policy_decisions db_decided ⊆ policy_decisions db' ∧
  one_per_request (policy_decisions db') ∧
  map_Forall (λ _ d, holds (announces example_signer d) (policy_outbox db'))
    (policy_decisions db').
Proof.
  apply decisions_final_and_announced;
    [apply evaluation_rows|apply example_peers|apply evaluate_reachable, start_reachable].
Defined.

Lemma no_policy_takes_effect_witness :
  let db' := (perform (operate example_config example_signer example_clients example_ctx
                (evaluation "read.document")) (example_world 1) no_policy_tables).2 in
  policy_versions db' = ∅ ∧
  map_Forall (λ _ p, policy_Status p ≠ PolicyStatusActive) (policy_sets db') ∧
  map_Forall (λ _ d, unruled_effect d) (policy_decisions db').
Proof.
  apply (no_policy_takes_effect example_config example_signer example_clients);
    [apply evaluation_rows|apply example_peers|apply start_reachable].
Defined.

Lemma first_ok : is_ok (evaluate 1 "read.document" no_policy_tables).1 = true.
Proof. vm_compute. done. Qed.
Definition first_decision : Decision :=
  get_ok (evaluate 1 "read.document" no_policy_tables).1 first_ok.

Lemma first_run :
  perform (Evaluate example_config example_signer example_clients example_engine
             example_ctx (read_input "read.document")) (example_world 1) no_policy_tables
  = (Ok first_decision, db_decided).
Proof.
  unfold first_decision. rewrite <-get_ok_Ok. unfold db_decided, evaluate.
  by destruct (perform _ _ _).
Qed.

Lemma returned_decision_recorded_witness :
  ∃ subject row,
    resolveSubject example_clients (uuid 2) observer = Ok subject ∧
    hashEvaluationInput (with_subject subject (read_input "read.document"))
      = Ok (decision_InputHash row) ∧
    decides db_decided (uuid 2) (uuid 1) row ∧
    decision_InputHash row = decision_InputHash first_decision ∧
    decision_Effect row = decision_Effect first_decision ∧
    decision_Constraints row = decision_Constraints first_decision ∧
    decision_Signature row = decision_Signature first_decision ∧
    holds (announces example_signer row) (policy_outbox db_decided).
Proof.
  apply (returned_decision_recorded example_config example_signer example_clients
    example_engine example_ctx (read_input "read.document") (example_world 1)
    no_policy_tables); [by intros rows|apply example_peers|apply start_reachable|].
  apply first_run.
Defined.

(** The row of the decision. *)
Definition stored_row : option Decision :=
  policy_decisions db_decided !! (uuid 2, uuid2 1 0).
Definition decided_row : Decision := default first_decision stored_row.

Lemma first_decision_stands_witness :
  ∃ r, perform (Evaluate example_config example_signer example_clients example_engine
                  example_ctx (read_input "deploy.production")) (example_world 2) db_decided
       = (r, db_decided) ∧
    (r = (if String.eqb (decision_InputHash decided_row) (digest "deploy.production")
          then Ok decided_row else Err ErrDecisionMismatch) ∨
     ∃ x, r = Err (ErrDatabase x)).
Proof.
  apply (first_decision_stands example_config example_signer example_clients example_engine
    example_ctx (read_input "deploy.production") (example_world 2) db_decided observer
    (digest "deploy.production") decided_row).
  - apply evaluate_reachable, start_reachable.
  - split; [exists (uuid 2, uuid2 1 0)|split]; vm_compute; reflexivity.
  - vm_compute. reflexivity.
  - vm_compute. reflexivity.
  - vm_compute. reflexivity.
Defined.
