(* ===== verification/Provisioning.v ===== *)
(** * Execution orchestrator: provisioning of tenants

    Models [services/execution-orchestrator/internal]: the domain, the ports, the
    activities and the workflow that provisions a tenant ([application/workflow.go],
    [activities.go]), the trigger that starts it ([application/trigger.go]), and the
    adapters of the runtime manager ([adapters/runtime]). Temporal, the engine that
    retries activities and remembers workflows, is a parameter. *)

From S2P Require Import Prelude GoStrings Postgres Usecase Outbox Consumer TenantDomain.
From S2P Require Import TenantStore TenantRepository TenantService.
From stdpp Require Import strings gmap list pretty.
From Stdlib Require Import String Lia.
Open Scope string_scope.
Open Scope list_scope.
Open Scope Z_scope.

(** ** domain/onboarding.go *)

Record ProvisionTenantInput := {
  provision_TenantID : string;
  provision_OperationID : string;
  provision_Region : string;
  provision_ActorUserID : string;
  provision_TenantDisplayName : string;
}.

Record OperationFailure := {
  failure_Code : string;
  failure_Message : string;
  failure_Retryable : bool;
  failure_Details : json_map;
}.

(** ** ports

    The calls act on the state [S] of the services behind them. An attempt is given its
    number, on which the circumstances it meets depend. *)

(** An error of a port: [PermanentProvisioningError] or any other. *)
Inductive port_error :=
| PortError (what : string)
| PermanentProvisioningError (code message : string).

Definition service_call (S : Type) : Type := nat → S → result port_error unit * S.

Record MarkRunningRequest := {
  markRunning_TenantID : string;
  markRunning_OperationID : string;
  markRunning_WorkflowID : string;
  markRunning_WorkflowRunID : string;
}.

Record EnsureTenantRuntimeRequest := {
  runtimeRequest_TenantID : string;
  runtimeRequest_OperationID : string;
  runtimeRequest_Region : string;
  runtimeRequest_IsolationTier : string;
}.

Record EnsureDefaultCompanyRequest := {
  companyRequest_TenantID : string;
  companyRequest_OnboardingOperationID : string;
  companyRequest_ActorUserID : string;
  companyRequest_TenantDisplayName : string;
}.

Record EnsureDefaultPoliciesRequest := {
  policiesRequest_TenantID : string;
  policiesRequest_OnboardingOperationID : string;
  policiesRequest_ActorUserID : string;
}.

Class TenantOnboardingClient (S : Type) := {
  client_MarkRunning : MarkRunningRequest → service_call S;
  client_Complete : string → string → service_call S;
  client_Fail : string → string → OperationFailure → service_call S;
}.
Class RuntimeProvisioner (S : Type) :=
  client_EnsureTenantRuntime : EnsureTenantRuntimeRequest → service_call S.
Class OrganizationBootstrapClient (S : Type) :=
  client_EnsureDefaultCompany : EnsureDefaultCompanyRequest → service_call S.
Class PolicyBootstrapClient (S : Type) :=
  client_EnsureDefaultPolicies : EnsureDefaultPoliciesRequest → service_call S.

(** ** adapters/runtime *)

Inductive RuntimeProvisioningState := StateUnspecified | StatePending | StateReady | StateFailed.

(** What the Runtime Manager answers: a state and an error code, or an error. *)
Definition runtime_response : Type := option (RuntimeProvisioningState * string).

(** [GRPCProvisioner.EnsureTenantRuntime], after the answer. *)
Definition GRPC_EnsureTenantRuntime (response : runtime_response) : result port_error unit :=
  match response with
  | None => Err (PortError "ensure runtime through Runtime Manager")
  | Some (StateReady, _) => Ok tt
  | Some (StatePending, _) => Err (PortError "runtime provisioning remains pending")
  | Some (StateFailed, code) =>
      Err (PermanentProvisioningError code "Runtime Manager rejected tenant provisioning")
  | Some (StateUnspecified, _) =>
      Err (PortError "runtime manager returned an unspecified state")
  end.

(** [NoopProvisioner.EnsureTenantRuntime] *)
Definition Noop_EnsureTenantRuntime (request : EnsureTenantRuntimeRequest)
  : result port_error unit :=
  fail_if (String.eqb (runtimeRequest_TenantID request) ""
           || String.eqb (runtimeRequest_OperationID request) "")
    (PortError "tenant and operation identity are required").

(** ** Temporal *)

Definition seconds (n : Z) : Z := n * 1000000000.
Definition minutes (n : Z) : Z := seconds (60 * n).
Definition hours (n : Z) : Z := minutes (60 * n).

Record RetryPolicy := {
  retry_InitialInterval : Z;
  retry_BackoffCoefficient : Z;
  retry_MaximumInterval : Z;
  retry_MaximumAttempts : Z;
  retry_NonRetryableErrorTypes : list string;
}.

Record ActivityOptions := {
  options_StartToCloseTimeout : Z;
  options_ScheduleToCloseTimeout : Z;
  options_HeartbeatTimeout : Z;
  options_RetryPolicy : RetryPolicy;
}.

(** The error of one attempt of an activity. *)
Inductive attempt_error :=
| AttemptError (e : port_error)
| NonRetryableApplicationError (message type_ : string) (cause : port_error).

(** The error of a workflow: of an activity, by name, when its attempts are used up, its
    time is over or it is canceled, or [temporal.NewApplicationError]. *)
Inductive workflow_error :=
| ActivityError (activityType : string) (last : option attempt_error)
| ApplicationError (message type_ : string) (details : list workflow_error).

Definition activity (S : Type) : Type := nat → S → result attempt_error unit * S.

(** [temporal_execute name options activity (n, s)]: an activity is executed to its end,
    from the state [s] on; [n] numbers the attempts of the workflow. *)
Class Temporal := {
  temporal_execute : ∀ S, string → ActivityOptions → activity S → nat * S →
    result workflow_error unit * (nat * S);
  temporal_GetVersion : string → Z → Z → Z;
}.
Arguments temporal_execute {_ S} _ _ _ _.

(** Attempts of an activity, one after the other, whatever they return. *)
Inductive attempts {S} (act : activity S) : nat * S → nat * S → Prop :=
| attempts_done ns : attempts act ns ns
| attempts_more n s ns' : attempts act (Datatypes.S n, (act n s).2) ns' → attempts act (n, s) ns'.

(** What workflows rely on: an execution is a bounded number of attempts; it succeeds only
    when the last one did; its error names the activity; versions are in range. *)
Class TemporalLaws `{Temporal} : Prop := {
  execute_attempts : ∀ S name options (act : activity S) ns r ns',
    temporal_execute name options act ns = (r, ns') →
    attempts act ns ns' ∧
    (0 < retry_MaximumAttempts (options_RetryPolicy options) →
     Z.of_nat ns'.1 - Z.of_nat ns.1 ≤ retry_MaximumAttempts (options_RetryPolicy options));
  execute_Ok : ∀ S name options (act : activity S) ns u ns',
    temporal_execute name options act ns = (Ok u, ns') →
    ∃ n s, attempts act ns (n, s) ∧ act n s = (Ok tt, ns'.2) ∧ ns'.1 = Datatypes.S n;
  execute_Err : ∀ S name options (act : activity S) ns e ns',
    temporal_execute name options act ns = (Err e, ns') →
    ∃ last, e = ActivityError name last;
  version_range : ∀ change lo hi,
    lo ≤ hi → lo ≤ temporal_GetVersion change lo hi ≤ hi;
}.

(** ** activities.go *)

(** [activity.GetInfo(ctx).WorkflowExecution] *)
Record WorkflowExecution := { execution_ID : string; execution_RunID : string }.

Section Activities.
Context {S : Type} `{!TenantOnboardingClient S, !RuntimeProvisioner S,
  !OrganizationBootstrapClient S, !PolicyBootstrapClient S}.

(** The error of a port is the activity's. *)
Definition as_attempt (r : result port_error unit * S) : result attempt_error unit * S :=
  match r with
  | (Ok u, s) => (Ok u, s)
  | (Err e, s) => (Err (AttemptError e), s)
  end.

Definition MarkRunning (info : WorkflowExecution) (tenantID operationID : string)
  : activity S := λ n s,
  as_attempt (client_MarkRunning {|
    markRunning_TenantID := tenantID; markRunning_OperationID := operationID;
    markRunning_WorkflowID := execution_ID info;
    markRunning_WorkflowRunID := execution_RunID info |} n s).

Definition EnsureDefaultCompany (input : ProvisionTenantInput) : activity S := λ n s,
  as_attempt (client_EnsureDefaultCompany {|
    companyRequest_TenantID := provision_TenantID input;
    companyRequest_OnboardingOperationID := provision_OperationID input;
    companyRequest_ActorUserID := provision_ActorUserID input;
    companyRequest_TenantDisplayName := provision_TenantDisplayName input |} n s).

Definition EnsureDefaultPolicies (input : ProvisionTenantInput) : activity S := λ n s,
  as_attempt (client_EnsureDefaultPolicies {|
    policiesRequest_TenantID := provision_TenantID input;
    policiesRequest_OnboardingOperationID := provision_OperationID input;
    policiesRequest_ActorUserID := provision_ActorUserID input |} n s).

Definition EnsureTenantRuntime (input : ProvisionTenantInput) : activity S := λ n s,
  match client_EnsureTenantRuntime {|
          runtimeRequest_TenantID := provision_TenantID input;
          runtimeRequest_OperationID := provision_OperationID input;
          runtimeRequest_Region := provision_Region input;
          runtimeRequest_IsolationTier := "standard" |} n s with
  | (Ok u, s) => (Ok u, s)
  | (Err (PermanentProvisioningError code message as e), s) =>
      (Err (NonRetryableApplicationError message code e), s)
  | (Err e, s) => (Err (AttemptError e), s)
  end.

Definition Complete (input : ProvisionTenantInput) : activity S := λ n s,
  as_attempt (client_Complete (provision_TenantID input) (provision_OperationID input) n s).

Definition Fail (provision : ProvisionTenantInput) (failure : OperationFailure)
  : activity S := λ n s,
  as_attempt (client_Fail (provision_TenantID provision) (provision_OperationID provision)
                failure n s).

(** ** workflow.go *)

Context `{!Temporal}.

Definition ProvisionTenantWorkflowName := "gereh.provision-tenant.v1".
Definition ensureDefaultCompanyChangeID := "tenant-onboarding-default-company-v1".
Definition ensureDefaultPoliciesChangeID := "tenant-onboarding-default-policies-v1".
Definition DefaultVersion : Z := -1.

Definition stateActivityOptions : ActivityOptions := {|
  options_StartToCloseTimeout := seconds 30; options_ScheduleToCloseTimeout := minutes 10;
  options_HeartbeatTimeout := 0;
  options_RetryPolicy := {|
    retry_InitialInterval := seconds 1; retry_BackoffCoefficient := 2;
    retry_MaximumInterval := seconds 30; retry_MaximumAttempts := 20;
    retry_NonRetryableErrorTypes := [] |} |}.

Definition runtimeActivityOptions : ActivityOptions := {|
  options_StartToCloseTimeout := minutes 2; options_ScheduleToCloseTimeout := hours 24;
  options_HeartbeatTimeout := seconds 30;
  options_RetryPolicy := {|
    retry_InitialInterval := seconds 5; retry_BackoffCoefficient := 2;
    retry_MaximumInterval := minutes 5; retry_MaximumAttempts := 100;
    retry_NonRetryableErrorTypes :=
      ["invalid_region"; "unsupported_isolation_tier"; "tenant_not_entitled";
       "invalid_runtime_configuration"] |} |}.

(** A workflow over the numbered attempts and the state of the services. *)
Definition workflow (A : Type) : Type := nat * S → result workflow_error A * (nat * S).

#[local] Instance workflow_ret : MRet workflow := λ A a ns, (Ok a, ns).
#[local] Instance workflow_bind : MBind workflow := λ A B f m ns,
  match m ns with
  | (Ok a, ns') => f a ns'
  | (Err e, ns') => (Err e, ns')
  end.

Definition ExecuteActivity (name : string) (options : ActivityOptions) (act : activity S)
  : workflow unit := temporal_execute name options act.

(** The customer-safe failure that [failWorkflow] records; the cause is left out. *)
Definition provisioning_failure : OperationFailure := {|
  failure_Code := "tenant_provisioning_failed";
  failure_Message := "Tenant infrastructure could not be provisioned";
  failure_Retryable := false;
  failure_Details := Some {["workflow" := ProvisionTenantWorkflowName]} |}.

Definition failWorkflow (input : ProvisionTenantInput) (cause : workflow_error)
  : workflow unit := λ ns,
  match ExecuteActivity "Fail" stateActivityOptions (Fail input provisioning_failure) ns with
  | (Err failErr, ns') =>
      (Err (ApplicationError
              "tenant provisioning failed and failure state could not be persisted"
              "tenant_failure_persistence_failed" [cause; failErr]), ns')
  | (Ok _, ns') => (Err cause, ns')
  end.

(** [if err := ...; err != nil { return failWorkflow(ctx, input, err) }] *)
Definition or_fail (input : ProvisionTenantInput) (m : workflow unit) : workflow unit := λ ns,
  match m ns with
  | (Err cause, ns') => failWorkflow input cause ns'
  | (Ok u, ns') => (Ok u, ns')
  end.

Definition ProvisionTenantWorkflow (execution : WorkflowExecution)
    (input : ProvisionTenantInput) : workflow unit :=
  ExecuteActivity "MarkRunning" stateActivityOptions
    (MarkRunning execution (provision_TenantID input) (provision_OperationID input));;
  (if 1 <=? temporal_GetVersion ensureDefaultCompanyChangeID DefaultVersion 1
   then or_fail input (ExecuteActivity "EnsureDefaultCompany" stateActivityOptions
                         (EnsureDefaultCompany input))
   else mret tt);;
  (if 1 <=? temporal_GetVersion ensureDefaultPoliciesChangeID DefaultVersion 1
   then or_fail input (ExecuteActivity "EnsureDefaultPolicies" stateActivityOptions
                         (EnsureDefaultPolicies input))
   else mret tt);;
  or_fail input (ExecuteActivity "EnsureTenantRuntime" runtimeActivityOptions
                   (EnsureTenantRuntime input));;
  or_fail input (ExecuteActivity "Complete" stateActivityOptions (Complete input)).

End Activities.

(** ** The trigger of provisioning

    Models [TenantCreatedTrigger.Handle]
    ([services/execution-orchestrator/internal/application/trigger.go]), the handler of
    the consumer of tenant events. Temporal's registry of workflows is a parameter. *)

(** The fields of [gereh.tenant.v1.Tenant] and [TenantCreated] that the trigger reads; a
    tenant is [None] when the context or its tenant is missing. *)
Record created_tenant := {
  created_TenantId : string;
  created_Region : string;
  created_CreatedByUserId : string;
  created_DisplayName : string;
}.
Record TenantCreated_message := {
  created_tenant_of : option created_tenant;
  created_OperationId : string;
}.

(** [proto.Unmarshal] into a [TenantCreated]. *)
Class TenantCreatedProto `{Proto} :=
  unmarshal_tenant_created : wire → option TenantCreated_message.

Definition created_tenant_view (t : Tenant) : created_tenant := {|
  created_TenantId := tenant_ID t; created_Region := tenant_Region t;
  created_CreatedByUserId := tenant_CreatedByUserID t;
  created_DisplayName := tenant_DisplayName t |}.

(** Unmarshalling inverts the marshalling of the tenant service. *)
Class TenantCreatedProtoLaws `{!Proto, !TenantProto, !TenantCreatedProto} : Prop :=
  unmarshal_created : ∀ context operationID w,
    marshal_payload (TenantCreated context operationID) = Some w →
    unmarshal_tenant_created w = Some {|
      created_tenant_of := Some (created_tenant_view (context_Tenant context));
      created_OperationId := operationID |}.

(** ** The registry of workflows *)

Inductive WorkflowIDReusePolicy := AllowDuplicate | RejectDuplicate.

Record StartWorkflowOptions := {
  start_ID : string;
  start_TaskQueue : string;
  start_WorkflowExecutionTimeout : Z;
  start_WorkflowRunTimeout : Z;
  start_WorkflowTaskTimeout : Z;
  start_WorkflowIDReusePolicy : WorkflowIDReusePolicy;
  start_WorkflowExecutionErrorWhenAlreadyStarted : bool;
}.

(** [serviceerror.WorkflowExecutionAlreadyStarted] or any other error. *)
Inductive start_error := WorkflowExecutionAlreadyStarted | StartFailed.

(** [client.ExecuteWorkflow], at the given moment, and what the registry [T] holds. *)
Class TemporalClient (T : Type) := {
  ExecuteWorkflow : nat → StartWorkflowOptions → ProvisionTenantInput → T →
    result start_error unit * T;
  registered : T → gmap string ProvisionTenantInput;
}.

(** Duplicates are rejected: an identifier is started once. An error does not say whether
    the workflow was started. *)
Record starts_once {T} `{!TemporalClient T} (options : StartWorkflowOptions)
    (input : ProvisionTenantInput) (t : T) (r : result start_error unit * T) : Prop := {
  starts_Ok : r.1 = Ok tt →
    registered t !! start_ID options = None ∧
    registered r.2 = <[start_ID options := input]> (registered t);
  starts_duplicate : r.1 = Err WorkflowExecutionAlreadyStarted →
    is_Some (registered t !! start_ID options) ∧ registered r.2 = registered t;
  starts_unknown : r.1 = Err StartFailed →
    registered r.2 = registered t ∨
    registered t !! start_ID options = None ∧
    registered r.2 = <[start_ID options := input]> (registered t);
}.
Class TemporalClientLaws (T : Type) `{!TemporalClient T} : Prop :=
  rejects_duplicates : ∀ n options input t,
    start_WorkflowIDReusePolicy options = RejectDuplicate →
    start_WorkflowExecutionErrorWhenAlreadyStarted options = true →
    starts_once options input t (ExecuteWorkflow n options input t).

(** ** trigger.go *)

Section Trigger.
Context `{Platform, Proto} `{!TenantCreatedProto} {T : Type} `{!TemporalClient T}.

Record TenantCreatedTrigger := { trigger_taskQueue : string }.

Definition NewTenantCreatedTrigger (taskQueue : string) : TenantCreatedTrigger := {|
  trigger_taskQueue := TrimSpace taskQueue |}.

Inductive trigger_error :=
| PermanentEventError (reason : string)
| StartWorkflowError (e : start_error).

Definition workflow_id (operationID : string) : string :=
  String.append "tenant-onboarding/" operationID.

Definition start_options (trigger : TenantCreatedTrigger) (operationID : string)
  : StartWorkflowOptions := {|
  start_ID := workflow_id operationID; start_TaskQueue := trigger_taskQueue trigger;
  start_WorkflowExecutionTimeout := hours 48; start_WorkflowRunTimeout := hours 48;
  start_WorkflowTaskTimeout := seconds 10;
  start_WorkflowIDReusePolicy := RejectDuplicate;
  start_WorkflowExecutionErrorWhenAlreadyStarted := true |}.

(** The checks of [Handle]: nothing to do, or the workflow to start. *)
Definition requested_workflow (message : Message)
  : result trigger_error (option ProvisionTenantInput) :=
  let envelope := message_Envelope message in
  if negb (String.eqb (envelope_EventType envelope) "tenant.created") then Ok None
  else
    fail_if (negb (envelope_EventVersion envelope =? 1))
      (PermanentEventError (String.append "unsupported tenant.created version "
                              (pretty (envelope_EventVersion envelope))));;
    payload ← from_option_err (PermanentEventError "decode TenantCreated payload")
                (unmarshal_tenant_created (envelope_Payload envelope));
    let missing :=
      PermanentEventError "TenantCreated is missing tenant or operation identity" in
    tenant ← from_option_err missing (created_tenant_of payload);
    fail_if (String.eqb (created_TenantId tenant) ""
             || String.eqb (created_OperationId payload) "") missing;;
    fail_if (negb (String.eqb (envelope_TenantId envelope) (created_TenantId tenant)))
      (PermanentEventError "envelope and payload tenant IDs differ");;
    Ok (Some {|
      provision_TenantID := created_TenantId tenant;
      provision_OperationID := created_OperationId payload;
      provision_Region := created_Region tenant;
      provision_ActorUserID := created_CreatedByUserId tenant;
      provision_TenantDisplayName := created_DisplayName tenant |}).

(** [Handle]; [n] is the moment of the call. The consumer never delivers a nil
    envelope. *)
Definition Handle (trigger : TenantCreatedTrigger) (n : nat) (message : Message) (t : T)
  : result trigger_error unit * T :=
  match requested_workflow message with
  | Err e => (Err e, t)
  | Ok None => (Ok tt, t)
  | Ok (Some input) =>
      match ExecuteWorkflow n (start_options trigger (provision_OperationID input)) input t with
      | (Ok _, t') => (Ok tt, t')
      | (Err WorkflowExecutionAlreadyStarted, t') => (Ok tt, t')
      | (Err e, t') => (Err (StartWorkflowError e), t')
      end
  end.

End Trigger.
