(* ===== verification/ProvisioningProperties.v ===== *)
(** * Execution orchestrator: properties

    What a provisioning workflow leaves behind, proved against what the tenant service
    promises ([OnboardingPromise]), and how a tenant's creation leads to a workflow. *)

From S2P Require Import Prelude GoStrings Postgres Usecase Outbox Consumer TenantDomain.
From S2P Require Import TenantStore TenantRepository TenantService Provisioning.
From stdpp Require Import strings gmap list.
From Stdlib Require Import String Lia.
Open Scope string_scope.
Open Scope list_scope.
Open Scope Z_scope.

(** ** The interface of the tenant service

    [promised] holds of the states of a working system; in them an operation has at most
    one outcome. *)
Class Onboarding (S : Type) := {
  promised : S → Prop;
  succeeded : string → string → S → Prop;
  failed : string → string → S → Prop;
}.

(** A step of the system: the promise and every outcome stay. *)
Record preserves {S : Type} `{!Onboarding S} (s s' : S) : Prop := {
  preserves_promised : promised s → promised s';
  preserves_succeeded : ∀ t o, promised s → succeeded t o s → succeeded t o s';
  preserves_failed : ∀ t o, promised s → failed t o s → failed t o s';
}.

Class OnboardingPromise (S : Type) `{!Onboarding S, !TenantOnboardingClient S,
    !RuntimeProvisioner S, !OrganizationBootstrapClient S, !PolicyBootstrapClient S}
  : Prop := {
  promise_exclusive : ∀ s t o, promised s → succeeded t o s → failed t o s → False;
  promise_MarkRunning : ∀ request n s, preserves s (client_MarkRunning request n s).2;
  promise_Complete : ∀ t o n s, preserves s (client_Complete t o n s).2;
  promise_Fail : ∀ t o n s, preserves s (client_Fail t o provisioning_failure n s).2;
  promise_runtime : ∀ request n s, preserves s (client_EnsureTenantRuntime request n s).2;
  promise_company : ∀ request n s, preserves s (client_EnsureDefaultCompany request n s).2;
  promise_policies : ∀ request n s, preserves s (client_EnsureDefaultPolicies request n s).2;
  complete_succeeds : ∀ t o n s s', promised s →
    client_Complete t o n s = (Ok tt, s') → succeeded t o s';
  fail_fails : ∀ t o n s s', promised s →
    client_Fail t o provisioning_failure n s = (Ok tt, s') → failed t o s';
}.

Section Outcome.
Context {S : Type} `{OnboardingPromise S} `{TemporalLaws}.
Implicit Types (input : ProvisionTenantInput) (ns : nat * S).

#[local] Instance preserves_preorder : PreOrder (preserves (S := S)).
Proof.
  split.
  - intros s. by split.
  - intros s1 s2 s3 [p12 c12 f12] [p23 c23 f23]. split; eauto.
Qed.

(** An activity each of whose attempts preserves the promise. *)
Definition keeps (act : activity S) : Prop := ∀ n s, preserves s (act n s).2.

Lemma attempts_keep act ns ns' : keeps act → attempts act ns ns' → preserves ns.2 ns'.2.
Proof.
  intros Hk. induction 1 as [[n s]|n s ns' _ IH]; [reflexivity|].
  cbn in *. etrans; [apply Hk|exact IH].
Qed.

Lemma execute_keeps name options act ns r ns' :
  keeps act → ExecuteActivity name options act ns = (r, ns') → preserves ns.2 ns'.2.
Proof. intros Hk [Ha _]%execute_attempts. by eapply attempts_keep. Qed.

(** When the execution succeeds, so did its last attempt. *)
Lemma execute_last name options act ns u ns' :
  keeps act → promised ns.2 → ExecuteActivity name options act ns = (Ok u, ns') →
  ∃ n s, promised s ∧ act n s = (Ok tt, ns'.2).
Proof.
  intros Hk Hp (n & s & Ha & Hr & _)%execute_Ok. exists n, s. split; [|done].
  apply (attempts_keep _ _ _ Hk) in Ha as [Hpr _ _]. by apply Hpr.
Qed.

Lemma as_attempt_keeps (call : service_call S) :
  (∀ n s, preserves s (call n s).2) → keeps (λ n s, as_attempt (call n s)).
Proof.
  intros Hc n s. specialize (Hc n s). unfold as_attempt. by destruct (call n s) as [[] ?].
Qed.

Lemma MarkRunning_keeps info t o : keeps (MarkRunning info t o).
Proof. apply as_attempt_keeps, promise_MarkRunning. Qed.
Lemma EnsureDefaultCompany_keeps input : keeps (EnsureDefaultCompany input).
Proof. apply as_attempt_keeps, promise_company. Qed.
Lemma EnsureDefaultPolicies_keeps input : keeps (EnsureDefaultPolicies input).
Proof. apply as_attempt_keeps, promise_policies. Qed.
Lemma Complete_keeps input : keeps (Complete input).
Proof. apply as_attempt_keeps, promise_Complete. Qed.
Lemma Fail_keeps input : keeps (Fail input provisioning_failure).
Proof. apply as_attempt_keeps. intros n s. apply promise_Fail. Qed.
Lemma EnsureTenantRuntime_keeps input : keeps (EnsureTenantRuntime input).
Proof.
  intros n s. unfold EnsureTenantRuntime.
  match goal with |- context [client_EnsureTenantRuntime ?q n s] =>
    pose proof (promise_runtime q n s) as Hq; destruct (client_EnsureTenantRuntime q n s)
      as [[?|[]] ?] end; exact Hq.
Qed.
#[local] Hint Resolve MarkRunning_keeps EnsureDefaultCompany_keeps
  EnsureDefaultPolicies_keeps Complete_keeps Fail_keeps EnsureTenantRuntime_keeps : keeps.

Lemma as_attempt_Ok (r : result port_error unit * S) s' :
  as_attempt r = (Ok tt, s') → r = (Ok tt, s').
Proof. destruct r as [[[]|e] s]; cbn; congruence. Qed.

(** What the error of a step after [MarkRunning] says about the onboarding. *)
Definition explains input (e : workflow_error) (s : S) : Prop :=
  match e with
  | ActivityError _ _ => failed (provision_TenantID input) (provision_OperationID input) s
  | ApplicationError _ type_ _ => type_ = "tenant_failure_persistence_failed"
  end.

(** From a promised state, [m] preserves the promise, what it leaves satisfies [Q], and its
    error explains itself. *)
Definition leads {A} input (m : workflow A) (Q : S → Prop) : Prop := ∀ ns r ns',
  promised ns.2 → m ns = (r, ns') →
  preserves ns.2 ns'.2 ∧ match r with Ok _ => Q ns'.2 | Err e => explains input e ns'.2 end.

#[local] Existing Instances workflow_ret workflow_bind.

Lemma leads_ret {A} input (a : A) : leads input (mret a : workflow A) (λ _, True).
Proof. intros ns r ns' _ [= <- <-]. done. Qed.

Lemma leads_bind {A B} input (m : workflow A) (f : A → workflow B) P Q :
  leads input m P → (∀ a, leads input (f a) Q) → leads input (m ≫= f) Q.
Proof.
  intros Hm Hf ns r ns' Hp Hr. unfold mbind, workflow_bind in Hr.
  destruct (m ns) as [[a|e] ns1] eqn:Hm1; destruct (Hm _ _ _ Hp Hm1) as [Hk1 HP].
  - destruct (Hf a ns1 r ns') as [Hk2 HQ]; [by apply Hk1|done|].
    split; [by etrans|done].
  - by injection Hr as <- <-.
Qed.

Lemma failWorkflow_explains input name last ns r ns' :
  promised ns.2 → failWorkflow input (ActivityError name last) ns = (r, ns') →
  preserves ns.2 ns'.2 ∧ ∃ e, r = Err e ∧ explains input e ns'.2.
Proof.
  unfold failWorkflow. intros Hp Hr.
  destruct (ExecuteActivity _ _ _ ns) as [[u|e] ns1] eqn:He; injection Hr as <- <-;
    (split; [eapply execute_keeps; [|done]; auto with keeps|]).
  - destruct (execute_last _ _ _ _ _ _ (Fail_keeps _) Hp He) as (n & s & Hs & Hf).
    eexists; split; [done|]. eapply fail_fails; [exact Hs|]. by apply as_attempt_Ok.
  - by eexists.
Qed.

(** A step whose failure is recorded. *)
Lemma leads_or_fail input name options act :
  keeps act →
  leads input (or_fail input (ExecuteActivity name options act))
    (λ s, ∃ n s0, promised s0 ∧ act n s0 = (Ok tt, s)).
Proof.
  unfold or_fail. intros Hk ns r ns' Hp Hr.
  destruct (ExecuteActivity name options act ns) as [[u|e] ns1] eqn:He.
  - injection Hr as <- <-. split; [by eapply execute_keeps|]. by eapply execute_last.
  - destruct (execute_Err _ _ _ _ _ _ _ He) as [last ->].
    apply (execute_keeps _ _ _ _ _ _ Hk) in He as Hk1.
    apply failWorkflow_explains in Hr as (Hk2 & e & -> & Hex); [|by apply Hk1].
    split; [by etrans|done].
Qed.

Lemma leads_weaken {A} input (m : workflow A) (P Q : S → Prop) :
  leads input m P → (∀ s, P s → Q s) → leads input m Q.
Proof.
  intros Hm HPQ ns r ns' Hp Hr. destruct (Hm _ _ _ Hp Hr) as [Hk Hpost].
  split; [done|]. destruct r; auto.
Qed.

(** The workflow: either its first activity fails, and then nothing else is attempted, or its
    error is explained. *)
Lemma ProvisionTenantWorkflow_leads execution input ns r ns' :
  promised ns.2 → ProvisionTenantWorkflow execution input ns = (r, ns') →
  let t := provision_TenantID input in
  let o := provision_OperationID input in
  preserves ns.2 ns'.2 ∧
  match r with
  | Ok _ => succeeded t o ns'.2
  | Err e =>
      (∃ last, e = ActivityError "MarkRunning" last) ∧
        attempts (MarkRunning execution t o) ns ns' ∨
      explains input e ns'.2
  end.
Proof.
  intros Hp Hr t o. unfold ProvisionTenantWorkflow in Hr.
  unfold mbind at 1, workflow_bind at 1 in Hr.
  destruct (ExecuteActivity _ _ _ ns) as [[u|e] ns1] eqn:He.
  - assert (preserves ns.2 ns1.2) as Hk1 by (eapply execute_keeps; [|exact He]; auto with keeps).
    match type of Hr with ?m ns1 = _ =>
      assert (leads input m (succeeded t o)) as Hl end.
    + eapply leads_bind; [|intros _].
      { clear Hr. destruct (1 <=? _); [|apply leads_ret]. eapply leads_weaken; [|by intros].
        apply leads_or_fail. auto with keeps. }
      eapply leads_bind; [|intros _].
      { clear Hr. destruct (1 <=? _); [|apply leads_ret]. eapply leads_weaken; [|by intros].
        apply leads_or_fail. auto with keeps. }
      eapply leads_bind; [apply leads_or_fail; auto with keeps|intros _].
      eapply leads_weaken; [apply leads_or_fail; auto with keeps|].
      intros s (n & s0 & Hp0 & Hc). eapply complete_succeeds; [exact Hp0|].
      by apply as_attempt_Ok.
    + destruct (Hl ns1 r ns') as [Hk2 HQ]; [by apply Hk1|done|].
      split; [by etrans|]. destruct r; [done|by right].
  - injection Hr as <- <-. split; [eapply execute_keeps; [|exact He]; auto with keeps|].
    left. split; [by eapply execute_Err|]. by apply execute_attempts in He as [? _].
Qed.

(** A workflow that never returns without an error. *)
Definition stops {A} (m : workflow A) : Prop := ∀ ns, is_ok (m ns).1 = false.

Lemma stops_bind {A B} (m : workflow A) (f : A → workflow B) :
  stops m ∨ (∀ a, stops (f a)) → stops (m ≫= f).
Proof.
  intros Hm ns. unfold mbind, workflow_bind.
  destruct (m ns) as [[a|e] ns1] eqn:Hm1; [|done].
  destruct Hm as [Hm|Hf]; [|apply Hf]. specialize (Hm ns). by rewrite Hm1 in Hm.
Qed.

Lemma failWorkflow_stops input cause : stops (failWorkflow input cause).
Proof. intros ns. unfold failWorkflow. by destruct (ExecuteActivity _ _ _ _) as [[] ?]. Qed.

Lemma or_fail_stops input name options (act : activity S) :
  (∀ n s, is_ok (act n s).1 = false) → stops (or_fail input (ExecuteActivity name options act)).
Proof.
  intros Hact ns. unfold or_fail.
  destruct (ExecuteActivity name options act ns) as [[u|e] ns1] eqn:He;
    [|apply failWorkflow_stops].
  apply execute_Ok in He as (n & s & _ & Hr & _). specialize (Hact n s).
  by rewrite Hr in Hact.
Qed.

(** When the policies are part of the workflow and their bootstrap always fails, so does
    the workflow. *)
Lemma ProvisionTenantWorkflow_needs_policies execution input :
  temporal_GetVersion ensureDefaultPoliciesChangeID DefaultVersion 1 = 1 →
  (∀ request n s, is_ok (client_EnsureDefaultPolicies request n s).1 = false) →
  stops (ProvisionTenantWorkflow execution input).
Proof.
  intros Hv Hf. unfold ProvisionTenantWorkflow. rewrite Hv.
  apply stops_bind. right. intros _. apply stops_bind. right. intros _.
  apply stops_bind. left. cbn. apply or_fail_stops. intros n s.
  unfold EnsureDefaultPolicies.
  match goal with |- context [client_EnsureDefaultPolicies ?q n s] =>
    specialize (Hf q n s); by destruct (client_EnsureDefaultPolicies q n s) as [[] ?] end.
Qed.

End Outcome.

(** ** From the creation of a tenant to its workflow *)

Section Created.
Context `{Platform, ProtoLaws} `{!TenantProto, !TenantCreatedProto, !TenantCreatedProtoLaws}.
Context {T : Type} `{!TemporalClient T, !TemporalClientLaws T}.

(** A record that the relay of an outbox stored for the event, at any time. *)
Definition carries (record : kgo_Record) (event : OutboxEvent) : Prop :=
  ∃ envelope published now span log key stored,
    unmarshal_envelope (event_Envelope event) = Some envelope ∧
    Publish Acknowledged now span (event_Topic event) (event_Key event) envelope log
      = (published, log ++ [(kgo_Topic record, key, stored)]) ∧
    marshal_envelope stored = Some (kgo_Value record).

Lemma stored_envelope record event envelope at_ :
  carries record event → unmarshal_envelope (event_Envelope event) = Some envelope →
  envelope_OccurredAt envelope = Some at_ →
  ∃ span, validateEnvelope envelope = true ∧
    marshal_envelope (traced span envelope) = Some (kgo_Value record).
Proof.
  intros (e & pub & now & span & log & key & stored & He & Hpub & Hm) Henv Hat.
  rewrite Henv in He. injection He as <-.
  assert (∀ A (l : list A) x, l ≠ l ++ [x]) as Hsnoc.
  { intros A l x Heq%(f_equal List.length). rewrite length_app in Heq. cbn in Heq. lia. }
  assert (normalizeEnvelope now envelope = envelope) as Hnorm.
  { destruct envelope. unfold normalizeEnvelope. cbn in *. by subst. }
  unfold Publish in Hpub. rewrite Hnorm in Hpub.
  destruct (String.eqb _ _); [injection Hpub as _ Hl; by apply Hsnoc in Hl|].
  destruct (validateEnvelope envelope); [|injection Hpub as _ Hl; by apply Hsnoc in Hl].
  cbn [negb] in Hpub.
  destruct (marshal_envelope (traced span envelope)) eqn:Hms;
    [|injection Hpub as _ Hl; by apply Hsnoc in Hl].
  injection Hpub as _ [_ [= _ _ <-]]%app_inj_tail. exists span. by rewrite Hms, <-Hm.
Qed.

Lemma newAggregateOutboxEvent_envelope id ctx topic ty t aty aid v payload now event :
  newAggregateOutboxEvent id ctx topic ty t aty aid v payload now = Ok event →
  ∃ envelope, unmarshal_envelope (event_Envelope event) = Some envelope ∧
    envelope_EventType envelope = ty ∧ envelope_EventVersion envelope = 1 ∧
    envelope_TenantId envelope = t ∧ envelope_OccurredAt envelope = Some now ∧
    marshal_payload payload = Some (envelope_Payload envelope).
Proof.
  unfold newAggregateOutboxEvent. intros Hev. result_inv Hev. injection Hev as <-.
  eexists. split; [by apply unmarshal_marshal|]. by split_and!.
Qed.

(** The input of the workflow that provisions the tenant. *)
Definition provision_input (tenant : Tenant) (operationID : string)
  : ProvisionTenantInput := {|
  provision_TenantID := tenant_ID tenant; provision_OperationID := operationID;
  provision_Region := tenant_Region tenant;
  provision_ActorUserID := tenant_CreatedByUserID tenant;
  provision_TenantDisplayName := tenant_DisplayName tenant |}.

(** The trigger asks for the workflow of the tenant that the event announces. *)
Lemma created_event_requests {E} service ctx input w params record :
  CreateTenant_params service ctx input w = Ok params →
  carries record (createParams_Event params) →
  let tenant := context_Tenant (createParams_Context params) in
  let o := operation_ID (createParams_Operation params) in
  tenant_ID tenant ≠ "" → o ≠ "" →
  ∃ message, decodeRecord (E := E) record = Ok message ∧
    requested_workflow message = Ok (Some (provision_input tenant o)).
Proof.
  unfold CreateTenant_params. intros Hp Hrec. result_inv Hp.
  injection Hp as <-. cbn in *. intros Ht Ho.
  match goal with Hev : newTenantOutboxEvent _ _ _ _ _ _ _ _ = Ok _ |- _ =>
    apply newAggregateOutboxEvent_envelope in Hev as
      (env & Henv & Hty & Hver & Htid & Hat & Hpay) end.
  destruct (stored_envelope _ _ _ _ Hrec Henv Hat) as (span & Hv & Hm).
  apply unmarshal_marshal in Hm. eexists. split.
  - unfold decodeRecord. rewrite Hm. cbn.
    replace (validateEnvelope (traced span env)) with true by (by destruct env). done.
  - unfold requested_workflow. cbn. rewrite Hty, Hver, Htid.
    apply unmarshal_created in Hpay. cbn. rewrite Hpay. cbn.
    apply String.eqb_neq in Ht, Ho. by rewrite Ht, Ho, String.eqb_refl.
Qed.

(** C39 (a created tenant is provisioned). The event that the service publishes when it
    creates a tenant, stored by the broker, read and decoded by the consumer and handed to
    the trigger, starts the workflow of that tenant's onboarding operation, or finds it
    started: however often the record is delivered, one workflow with this input is
    registered, and no other. *)
Theorem created_tenant_is_provisioned {E} service ctx input w params record
    trigger n (registry : T) r registry' :
  CreateTenant_params service ctx input w = Ok params →
  carries record (createParams_Event params) →
  let tenant := context_Tenant (createParams_Context params) in
  let o := operation_ID (createParams_Operation params) in
  tenant_ID tenant ≠ "" → o ≠ "" →
  ∃ message, decodeRecord (E := E) record = Ok message ∧
    (Handle trigger n message registry = (r, registry') →
     (r = Ok tt → is_Some (registered registry' !! workflow_id o)) ∧
     (registered registry' = registered registry ∨
      registered registry !! workflow_id o = None ∧
      registered registry' =
        <[workflow_id o := provision_input tenant o]> (registered registry))).
Proof.
  intros Hp Hrec tenant o Ht Ho.
  destruct (created_event_requests (E := E) _ _ _ _ _ _ Hp Hrec Ht Ho) as (m & Hd & Hreq).
  exists m. split; [done|]. unfold Handle. rewrite Hreq. fold tenant o.
  destruct (rejects_duplicates n (start_options trigger o) (provision_input tenant o) registry)
    as [Hok Hdup Hunk]; [done..|]. cbn in *.
  destruct (ExecuteWorkflow _ _ _ _) as [[[]|[]] t']; cbn in *; intros [= <- <-].
  - destruct (Hok eq_refl) as [Hnone ->]. rewrite lookup_insert_eq. eauto.
  - destruct (Hdup eq_refl) as [Hsome ->]. eauto.
  - destruct (Hunk eq_refl) as [->|[Hnone ->]]; split; eauto; done.
Qed.

End Created.
