(* ===== verification/ProvisioningServices.v ===== *)
(** * Execution orchestrator: the services behind the ports

    The clients of the tenant and policy services ([adapters/tenant/grpc.go],
    [adapters/policy/grpc.go] of the execution orchestrator) composed with the services'
    internal servers ([onboarding_server.go] of the tenant service, [bootstrap.go] of the
    policy service) and their use cases; the promise of [ProvisioningProperties]
    discharged by the tenant service; and what provisioning does to a tenant. *)

From S2P Require Import Prelude GoStrings Postgres Usecase Outbox Consumer TenantDomain.
From S2P Require Import TenantStore TenantRepository TenantService TenantEffects.
From S2P Require Import TenantMutations TenantInvariants TenantProperties TenantRefinement.
From S2P Require Import Provisioning ProvisioningProperties.
From S2P Require PolicyStore PolicyEngine PolicyService PolicyProperties.
From stdpp Require Import strings gmap list.
From Stdlib Require Import String Lia.
Open Scope string_scope.
Open Scope list_scope.
Open Scope Z_scope.

(** ** Calls over the network

    [Acknowledged]: the answer arrives; [Unacknowledged]: the call is served and its answer
    is lost; [Refused]: the call is not served. *)
Definition over_grpc {S A E} (what : string) (network : broker_outcome)
    (call : S → result E A * S) (s : S) : result port_error unit * S :=
  match network with
  | Refused => (Err (PortError what), s)
  | Unacknowledged => (Err (PortError what), (call s).2)
  | Acknowledged =>
      match call s with
      | (Ok _, s') => (Ok tt, s')
      | (Err _, s') => (Err (PortError what), s')
      end
  end.

Lemma over_grpc_Ok {S A E} what network (call : S → result E A * S) s s' :
  over_grpc what network call s = (Ok tt, s') → ∃ a, call s = (Ok a, s').
Proof. destruct network; cbn; [|done..]. destruct (call s) as [[a|e] s1]; naive_solver. Qed.

Lemma over_grpc_state {S A E} (R : S → S → Prop) what network (call : S → result E A * S) s :
  R s s → R s (call s).2 → R s (over_grpc what network call s).2.
Proof. by destruct network; cbn; destruct (call s) as [[] ?]. Qed.

(** ** The tenant service *)

Section Tenant.
Context `{Platform, Proto} `{!TenantProto}.
Variables (service : Service) (ctx : Ctx).

(** [OnboardingServer.FailOnboarding]: the error of the request, or a default. *)
Definition server_FailOnboarding (tenantID operationID : string)
    (inputError : option OperationError) : Usecase.app tables error (Operation * Tenant) :=
  FailOnboarding service ctx tenantID operationID
    (default {| opError_Code := "onboarding_failed";
                opError_Message := "Tenant provisioning could not be completed";
                opError_Retryable := false; opError_Details := Some ∅ |} inputError).

(** The failure of a workflow, as the tenant service's error of an operation. *)
Definition failure_error (failure : OperationFailure) : OperationError := {|
  opError_Code := failure_Code failure; opError_Message := failure_Message failure;
  opError_Retryable := failure_Retryable failure;
  opError_Details := failure_Details failure |}.

(** The orchestrator's client of the tenant service: [worlds n] is what the service meets
    when it serves attempt [n]. *)
Definition tenant_client (worlds : nat → world tables) (network : nat → broker_outcome)
  : TenantOnboardingClient tables := {|
  client_MarkRunning request n :=
    over_grpc "mark tenant onboarding running" (network n)
      (perform (MarkOnboardingRunning service ctx (markRunning_TenantID request)
         (markRunning_OperationID request) (markRunning_WorkflowID request)
         (markRunning_WorkflowRunID request)) (worlds n));
  client_Complete tenantID operationID n :=
    over_grpc "complete tenant onboarding" (network n)
      (perform (CompleteOnboarding service ctx tenantID operationID) (worlds n));
  client_Fail tenantID operationID failure n :=
    over_grpc "fail tenant onboarding" (network n)
      (perform (server_FailOnboarding tenantID operationID (Some (failure_error failure)))
         (worlds n)) |}.

End Tenant.

(** ** The reasons of failures

    [recorded good o db]: the error in the row of the operation [o], if it has failed, is
    [good]. *)
Section Reasons.
Context `{Platform, Proto} `{!TenantProto}.
Variables (service : Service) (ctx : Ctx).
Variables (good : option OperationError → Prop) (o : string).

Definition recorded (db : tables) : Prop := ∀ id op,
  uuid_in o = Some id → operations db !! id = Some op →
  operation_State op = OperationStateFailed → good (operation_Error op).

Definition keeps_recorded (db db' : tables) : Prop := recorded db → recorded db'.

#[local] Instance keeps_recorded_preorder : PreOrder keeps_recorded.
Proof. unfold keeps_recorded. split; [intros db|intros a b c]; auto. Qed.

Lemma same_operations_recorded db db' :
  operations db' = operations db → keeps_recorded db db'.
Proof. intros Heq Hdb id op Hid. rewrite Heq. by apply Hdb. Qed.

Lemma update_operation_recorded tenantID operationID states f sc db n db' :
  (∀ op v, operation_State (f op v) = OperationStateFailed → good (operation_Error (f op v))) →
  update_operation tenantID operationID states f sc db = Ok (n, db') → keeps_recorded db db'.
Proof.
  intros Hf (t & id & _ & _ & [(_ & _ & op & _ & _ & _ & _ & _ & ->)|(_ & -> & _)])
    %update_operation_Ok; [|done].
  intros Hdb id' op' Hid. cbn. intros [[_ <-]|[_ Hop]]%lookup_insert_Some; [apply Hf|].
  by apply (Hdb id').
Qed.

#[local] Instance along_insert_outbox tenantID event :
  along keeps_recorded (insertOutbox tenantID event).
Proof.
  apply along_map_err, along_bind; [apply _|intros now]. apply (along_exec keeps_recorded).
  intros sc db a db' Hr. result_inv Hr. injection Hr as _ <-. by apply same_operations_recorded.
Qed.

#[local] Instance along_leave_provisioning tenantID status at_ :
  along keeps_recorded (exec (sql_leave_provisioning tenantID status at_) : repo Z).
Proof.
  apply (along_exec keeps_recorded). intros sc db n db' Hr. apply same_operations_recorded.
  by apply update_tenant_Ok in Hr as (t & _ & [(_ & _ & ? & ? & _ & _ & _ & _ & ->)|(_ & -> & _)]).
Qed.

#[local] Instance along_running t id wid rid at_ :
  along keeps_recorded (exec (sql_operation_running t id wid rid at_) : repo Z).
Proof.
  apply (along_exec keeps_recorded). intros sc db n db'. by apply update_operation_recorded.
Qed.
#[local] Instance along_succeeded t id at_ :
  along keeps_recorded (exec (sql_operation_succeeded t id at_) : repo Z).
Proof.
  apply (along_exec keeps_recorded). intros sc db n db'. by apply update_operation_recorded.
Qed.
Lemma along_failed t id err at_ :
  good (Some err) → along keeps_recorded (exec (sql_operation_failed t id err at_) : repo Z).
Proof.
  intros Hg. apply (along_exec keeps_recorded). intros sc db n db'.
  by apply update_operation_recorded.
Qed.

(** The steps of a method, one after the other. *)
Ltac along_steps :=
  repeat first [apply _ | case_match | apply along_bind; [|intros ?]].

Lemma along_MarkOnboardingRunning params :
  along keeps_recorded (TenantRepository.MarkOnboardingRunning ctx params).
Proof. unfold TenantRepository.MarkOnboardingRunning. along_steps. Qed.

Lemma along_CompleteOnboarding params :
  along keeps_recorded (TenantRepository.CompleteOnboarding ctx params).
Proof.
  unfold TenantRepository.CompleteOnboarding, CompleteOnboarding_activate. along_steps.
Qed.

Lemma along_FailOnboarding params :
  good (Some (failParams_Error params)) →
  along keeps_recorded (TenantRepository.FailOnboarding ctx params).
Proof.
  intros Hg. pose proof (along_failed (failParams_TenantID params)
    (failParams_OperationID params) _ (failParams_FailedAt params) Hg).
  unfold TenantRepository.FailOnboarding, FailOnboarding_record. along_steps.
Qed.

(** The requests of a workflow, in a world in which others keep to [good] reasons. *)
Context (w : world tables) (Hw : ∀ n db, keeps_recorded db (world_interfere w n db)).

Lemma MarkOnboardingRunning_recorded t id wid rid db :
  keeps_recorded db (perform (MarkOnboardingRunning service ctx t id wid rid) w db).2.
Proof.
  apply (safe_perform keeps_recorded). unfold MarkOnboardingRunning.
  apply safe_bind_pure; [apply _|]. intros params _. apply safe_call; [apply _|apply Hw|].
  intros db0 ev. apply (run_along keeps_recorded), along_MarkOnboardingRunning.
Qed.

Lemma CompleteOnboarding_recorded t id db :
  keeps_recorded db (perform (CompleteOnboarding service ctx t id) w db).2.
Proof.
  apply (safe_perform keeps_recorded). unfold CompleteOnboarding.
  apply safe_bind_pure; [apply _|]. intros params _. apply safe_call; [apply _|apply Hw|].
  intros db0 ev. apply (run_along keeps_recorded), along_CompleteOnboarding.
Qed.

Lemma FailOnboarding_recorded t id err db :
  good (Some err) → keeps_recorded db (perform (FailOnboarding service ctx t id err) w db).2.
Proof.
  intros Hg. apply (safe_perform keeps_recorded). unfold FailOnboarding.
  apply safe_bind_pure; [apply _|]. intros params Hp. apply safe_call; [apply _|apply Hw|].
  intros db0 ev. apply (run_along keeps_recorded), along_FailOnboarding.
  unfold FailOnboarding_params in Hp. result_inv Hp. by injection Hp as <-.
Qed.

End Reasons.

(** ** The platform

    The tables of the tenant service, the state [P] behind the policy service's port and
    the state [R] behind the other ports. *)
Section Platform.
Context `{Platform, Proto} {P R : Type}.

Record platform := {
  on_tenants : tables;
  on_policies : P;
  on_rest : R;
}.

Definition at_tenants {A} (call : tables → A * tables) (s : platform) : A * platform :=
  let '(r, db) := call (on_tenants s) in
  (r, Build_platform db (on_policies s) (on_rest s)).
Definition at_policies {A} (call : P → A * P) (s : platform) : A * platform :=
  let '(r, p) := call (on_policies s) in
  (r, Build_platform (on_tenants s) p (on_rest s)).
Definition at_rest {A} (call : R → A * R) (s : platform) : A * platform :=
  let '(r, x) := call (on_rest s) in
  (r, Build_platform (on_tenants s) (on_policies s) x).

#[global] Instance platform_tenants `{!TenantOnboardingClient tables}
  : TenantOnboardingClient platform := {|
  client_MarkRunning request n := at_tenants (client_MarkRunning request n);
  client_Complete t o n := at_tenants (client_Complete t o n);
  client_Fail t o f n := at_tenants (client_Fail t o f n) |}.
#[global] Instance platform_policies `{!PolicyBootstrapClient P}
  : PolicyBootstrapClient platform := λ request n,
  at_policies (client_EnsureDefaultPolicies request n).
#[global] Instance platform_runtime `{!RuntimeProvisioner R}
  : RuntimeProvisioner platform := λ request n,
  at_rest (client_EnsureTenantRuntime request n).
#[global] Instance platform_organization `{!OrganizationBootstrapClient R}
  : OrganizationBootstrapClient platform := λ request n,
  at_rest (client_EnsureDefaultCompany request n).

Lemma at_tenants_state {A} (Q : platform → platform → Prop) (call : tables → A * tables) s :
  Q s (Build_platform (call (on_tenants s)).2 (on_policies s) (on_rest s)) →
  Q s (at_tenants call s).2.
Proof. unfold at_tenants. by destruct (call (on_tenants s)). Qed.

Lemma at_policies_tenants {A} (call : P → A * P) s :
  on_tenants (at_policies call s).2 = on_tenants s.
Proof. unfold at_policies. by destruct (call (on_policies s)). Qed.
Lemma at_rest_tenants {A} (call : R → A * R) s :
  on_tenants (at_rest call s).2 = on_tenants s.
Proof. unfold at_rest. by destruct (call (on_rest s)). Qed.

End Platform.
Arguments platform {_} _ _.

(** ** The promise of the tenant service *)

Section Promise.
Context `{PlatformLaws, ProtoLaws} `{!TenantProto} {P R : Type}.
Variables (service : Service) (ctx : Ctx).
(** The reasons that may be recorded for a failure of the operation [operation0]. *)
Variables (good : option OperationError → Prop) (operation0 : string).

(** The operation [operationID] of the tenant [tenantID] is in the state [state]. *)
Definition onboarding_in (state : OperationState) (tenantID operationID : string)
    (db : tables) : Prop :=
  ∃ t id o, uuid_in tenantID = Some t ∧ uuid_in operationID = Some id ∧
    operations db !! id = Some o ∧ operation_TenantID o = t ∧ operation_State o = state.

#[global] Instance tenant_onboarding : Onboarding (platform P R) := {|
  promised s := reachable service (on_tenants s) ∧ recorded good operation0 (on_tenants s);
  succeeded t o s := onboarding_in OperationStateSucceeded t o (on_tenants s);
  failed t o s := onboarding_in OperationStateFailed t o (on_tenants s) |}.

Lemma steps_preserve (s s' : platform P R) :
  (reachable service (on_tenants s) → rtc (step service) (on_tenants s) (on_tenants s')) →
  keeps_recorded good operation0 (on_tenants s) (on_tenants s') →
  preserves s s'.
Proof.
  intros Hs Hrec. split; cbn.
  - intros [Hp Hg]. split; [|by apply Hrec]. specialize (Hs Hp). revert Hp. clear Hrec Hg.
    induction Hs as [|x y z Hxy _ IH]; [done|]. intros. apply IH. by eapply reachable_step.
  - intros t o [Hp _] (t' & id & op & Ht & Hid & Ho & HoT & Hst).
    destruct (outcome_steps service _ _ id op Hp (Hs Hp) Ho) as [_ Ho']; [by left|].
    by exists t', id, op.
  - intros t o [Hp _] (t' & id & op & Ht & Hid & Ho & HoT & Hst).
    destruct (outcome_steps service _ _ id op Hp (Hs Hp) Ho) as [_ Ho']; [by right|].
    by exists t', id, op.
Qed.

Lemma same_tenants_preserve (s s' : platform P R) :
  on_tenants s' = on_tenants s → preserves s s'.
Proof.
  intros Heq. apply steps_preserve; rewrite Heq; [done|]. by unfold keeps_recorded.
Qed.

Lemma reachable_world w n db :
  interferes_by_steps service w → reachable service db →
  reachable service (world_interfere w n db).
Proof.
  intros Hw. specialize (Hw n db). induction Hw as [|x y z Hxy _ IH]; [done|].
  intros. apply IH. by eapply reachable_step.
Qed.

(** A completion that returns has found or left the operation succeeded. *)
Lemma CompleteOnboarding_succeeds t o w db r db' :
  interferes_by_steps service w → reachable service db →
  perform (CompleteOnboarding service ctx t o) w db = (Ok r, db') →
  onboarding_in OperationStateSucceeded t o db'.
Proof.
  intros Hw Hdb Hr. apply perform_Ok in Hr as (s & Hr & <-).
  unfold CompleteOnboarding in Hr. app_inv Hr. apply call_run in Hr as [Hr _].
  apply (reachable_world w 0%nat) in Hdb; [|done]. cbn in Hr. revert Hdb Hr.
  generalize (world_interfere w 0%nat db). clear db. intros db Hdb Hr.
  destruct (invariant_reachable _ _ Hdb) as [Hc _ _ _].
  unfold CompleteOnboarding_params in E. result_inv E. injection E as <-.
  unfold TenantRepository.CompleteOnboarding in Hr. effect_start Hr.
  destruct (String.eqb_spec (operation_State a0) OperationStateSucceeded) as [Hs|Hs].
  { tx_inv Hr. cbn in *.
    select (sql_context _ _ _ _ _ = _) (fun H => apply sql_context_Ok in H
      as (t' & u & row & m & e & Ht & _)).
    destruct (service_scope_operation _ _ _ _ _ _ _ _ E Ht) as (id & Hid & Ho & HoT & _).
    by exists t', id, a0. }
  unfold CompleteOnboarding_activate, queryOperationByID, queryContext in Hr.
  tx_inv Hr. bool_facts. cbn in *.
  select (sql_leave_provisioning _ _ _ _ _ = _) (fun H =>
    apply (sql_leave_provisioning_Ok _ _ _ _ _ _ _ Hc) in H
    as (t' & Ht & [(_ & Hsc & row & new & Hrow & Hst & Hnew & Hb & ->)|(-> & _)])); [|done].
  destruct (service_scope_operation _ _ _ _ _ _ _ _ E Ht) as (id & Hid & Ho & HoT & _).
  select (sql_operation_succeeded _ _ _ _ _ = _) (fun H => apply update_operation_Ok in H
    as (t2 & id' & Ht' & Hid' & [(-> & _ & op & Ho' & HoT' & _ & Hmax & Hchk & ->)
                            |(-> & -> & Hno)])); simplify_eq.
  2:{ specialize (Hno Hsc _ Ho eq_refl). apply slices_Contains_false in Hno.
      rewrite E2 in Hno. set_solver. }
  eexists _, _, _. split_and!; [done|done|apply lookup_insert_eq|done|done].
Qed.

(** A failure that is recorded without an error has found or left the operation failed. *)
Lemma FailOnboarding_fails t o err w db r db' :
  interferes_by_steps service w → reachable service db →
  perform (FailOnboarding service ctx t o err) w db = (Ok r, db') →
  onboarding_in OperationStateFailed t o db'.
Proof.
  intros Hw Hdb Hr. apply perform_Ok in Hr as (s & Hr & <-).
  unfold FailOnboarding in Hr. app_inv Hr. apply call_run in Hr as [Hr _].
  apply (reachable_world w 0%nat) in Hdb; [|done]. cbn in Hr. revert Hdb Hr.
  generalize (world_interfere w 0%nat db). clear db. intros db Hdb Hr.
  destruct (invariant_reachable _ _ Hdb) as [Hc _ _ _].
  unfold FailOnboarding_params in E. result_inv E. injection E as <-.
  unfold TenantRepository.FailOnboarding in Hr. effect_start Hr.
  destruct (String.eqb_spec (operation_State a0) OperationStateFailed) as [Hs|Hs].
  { tx_inv Hr. cbn in *.
    select (sql_tenant _ _ _ = _) (fun H => apply sql_tenant_Ok in H
      as (t' & row & Ht & Hrow & ->)).
    destruct (service_scope_operation _ _ _ _ _ _ _ _ E Ht) as (id & Hid & Ho & HoT & _).
    by exists t', id, a0. }
  unfold FailOnboarding_record, queryOperationByID, queryTenant in Hr.
  tx_inv Hr. bool_facts. cbn in *.
  select (sql_operation_failed _ _ _ _ _ _ = _) (fun H => apply update_operation_Ok in H
    as (t' & id & Ht & Hid & Hop)).
  destruct (service_scope_operation _ _ _ _ _ _ _ _ E Ht) as (id' & Hid' & Ho & HoT & Hsc).
  select (sql_leave_provisioning _ _ _ _ _ = _) (fun H =>
    apply (sql_leave_provisioning_Ok _ _ _ _ _ _ _ Hc) in H as (t2 & Ht2 & Hlv)).
  simplify_eq. destruct (consistent_operation _ Hc _ _ Ho) as (_ & Hoc & Hnc & _).
  destruct Hop as [(_ & _ & op & Ho' & HoT' & _ & _ & _ & ->)|(_ & -> & Hno)].
  - eexists _, _, _. split_and!; [done|done|apply lookup_insert_eq|done|done].
  - exfalso. pose proof (active_or_failing _ Hoc Hnc Hs) as Hactive.
    rewrite (Hno Hsc a0) in Hactive; [|by destruct Hlv; naive_solver|done].
    enough (false = true) by done. by apply Hactive.
Qed.

Context (worlds : nat → world tables) (network : nat → broker_outcome).
Context (Hworlds : ∀ n, interferes_by_steps service (worlds n)).
Context (Hreason : good (Some (failure_error provisioning_failure))).
Context (Hothers : ∀ n i db, keeps_recorded good operation0 db (world_interfere (worlds n) i db)).
#[local] Instance tenant_port : TenantOnboardingClient tables :=
  tenant_client service ctx worlds network.

Lemma request_steps {A} (req : request) (m : Usecase.app tables error A) what n db :
  (∀ w, serve service ctx req w db = forget (perform m w db)) →
  rtc (step service) db (over_grpc what (network n) (perform m (worlds n)) db).2.
Proof.
  intros Hm. apply (over_grpc_state (rtc (step service))); [done|].
  pose proof (serve_safe service (worlds n) (Hworlds n) ctx req db) as Hs. rewrite Hm in Hs.
  by destruct (perform m (worlds n) db).
Qed.

Context `{!PolicyBootstrapClient P, !RuntimeProvisioner R, !OrganizationBootstrapClient R}.

Lemma request_recorded {A} (m : Usecase.app tables error A) what n db :
  keeps_recorded good operation0 db (perform m (worlds n) db).2 →
  keeps_recorded good operation0 db (over_grpc what (network n) (perform m (worlds n)) db).2.
Proof.
  intros Hm. apply (over_grpc_state (keeps_recorded good operation0)); [|done].
  by unfold keeps_recorded.
Qed.

#[global] Instance tenant_promise : OnboardingPromise (platform P R).
Proof.
  split.
  - intros s t o _ (t1 & id1 & o1 & _ & Hid1 & Ho1 & _ & Hs1)
      (t2 & id2 & o2 & _ & Hid2 & Ho2 & _ & Hs2). simplify_eq. by rewrite Hs1 in Hs2.
  - intros request n s. cbn. apply (at_tenants_state preserves), steps_preserve.
    + intros _. by apply (request_steps (RequestMarkOnboardingRunning
        (markRunning_TenantID request) (markRunning_OperationID request)
        (markRunning_WorkflowID request) (markRunning_WorkflowRunID request))).
    + apply request_recorded, MarkOnboardingRunning_recorded, Hothers.
  - intros t o n s. cbn. apply (at_tenants_state preserves), steps_preserve.
    + intros _. by apply (request_steps (RequestCompleteOnboarding t o)).
    + apply request_recorded, CompleteOnboarding_recorded, Hothers.
  - intros t o n s. cbn. apply (at_tenants_state preserves), steps_preserve.
    + intros _.
      by apply (request_steps (RequestFailOnboarding t o (failure_error provisioning_failure))).
    + apply request_recorded, FailOnboarding_recorded; [apply Hothers|done].
  - intros request n s. apply same_tenants_preserve, at_rest_tenants.
  - intros request n s. apply same_tenants_preserve, at_rest_tenants.
  - intros request n s. apply same_tenants_preserve, at_policies_tenants.
  - intros t o n s s' [Hp _] Hr. cbn in *. unfold at_tenants in Hr.
    destruct (over_grpc _ _ _ _) as [r db'] eqn:Hc. injection Hr as -> <-.
    apply over_grpc_Ok in Hc as [a Hc]. by eapply CompleteOnboarding_succeeds.
  - intros t o n s s' [Hp _] Hr. cbn in *. unfold at_tenants in Hr.
    destruct (over_grpc _ _ _ _) as [r db'] eqn:Hc. injection Hr as -> <-.
    apply over_grpc_Ok in Hc as [a Hc]. by eapply FailOnboarding_fails.
Qed.

Context `{TemporalLaws}.

(** C34 (the outcome of provisioning). Run against the tenant service, whatever its calls
    meet and whatever other requests do in between, a provisioning workflow
    - that returns no error leaves the operation succeeded, and the tenant active, or archived
      since;
    - whose first activity, [MarkRunning], fails for good has attempted nothing else: it records
      no failure;
    - that returns the error of another activity leaves the operation failed, and the tenant
      marked as failed, or archived; the error recorded in the operation is the workflow's, as
      far as nobody else records another one: it satisfies every predicate [good] that holds of
      the workflow's reason and that the others keep to;
    - otherwise says in its error that the failure could not be recorded.
    The tables stay reachable, and an outcome that was there before is still there. *)
Theorem provisioning_outcome execution input n (s : platform P R) r n' s' :
  provision_OperationID input = operation0 →
  reachable service (on_tenants s) → recorded good operation0 (on_tenants s) →
  ProvisionTenantWorkflow execution input (n, s) = (r, (n', s')) →
  let t := provision_TenantID input in
  let o := provision_OperationID input in
  let outcome state status reason := ∃ t' id op row,
    uuid_in t = Some t' ∧ uuid_in o = Some id ∧
    operations (on_tenants s') !! id = Some op ∧ operation_TenantID op = t' ∧
    operation_State op = state ∧ reason (operation_Error op) ∧
    tenants (on_tenants s') !! t' = Some row ∧
    (tenant_Status (row_Tenant row) = status ∨ tenant_Status (row_Tenant row) = StatusArchived) in
  reachable service (on_tenants s') ∧ recorded good operation0 (on_tenants s') ∧
  (∀ state, state = OperationStateSucceeded ∨ state = OperationStateFailed →
     onboarding_in state t o (on_tenants s) → onboarding_in state t o (on_tenants s')) ∧
  match r with
  | Ok _ => outcome OperationStateSucceeded StatusActive (λ _, True)
  | Err (ActivityError name _) =>
      name = "MarkRunning" ∧ attempts (MarkRunning execution t o) (n, s) (n', s') ∨
      outcome OperationStateFailed StatusProvisioningFailed good
  | Err (ApplicationError _ type_ _) => type_ = "tenant_failure_persistence_failed"
  end.
Proof.
  intros Hop Hp Hg Hr t o outcome.
  assert (promised (S := platform P R) s) as Hpr by (by split).
  destruct (ProvisionTenantWorkflow_leads (S := platform P R) execution input (n, s) r (n', s')
    Hpr Hr) as [[Hk Hsu Hfa] Hex].
  cbn in Hk, Hsu, Hfa, Hex. fold t o in Hex. destruct (Hk (conj Hp Hg)) as [Hp' Hg'].
  assert (∀ state, onboarding_in state t o (on_tenants s') → ∃ t' id op row,
    uuid_in t = Some t' ∧ uuid_in o = Some id ∧
    operations (on_tenants s') !! id = Some op ∧ operation_TenantID op = t' ∧
    operation_State op = state ∧ tenants (on_tenants s') !! t' = Some row ∧
    coupled (tenant_Status (row_Tenant row)) state) as Hrow.
  { intros state (t' & id & op & Ht & Hid & Ho & <- & <-).
    destruct (invariant_reachable _ _ Hp') as [Hc _ Hon _].
    destruct (consistent_operation _ Hc _ _ Ho) as (_ & _ & _ & row & Hrow).
    eexists _, id, op, row. split_and!; try done. by eapply onboarding_coupled. }
  split_and!; [done|done| |].
  - intros state [-> | ->]; [by apply Hsu|by apply Hfa].
  - destruct r as [u|[name last|msg ty details]].
    + destruct (Hrow _ Hex) as (t' & id & op & row & Ht & Hid & Ho & HoT & Hst & Hr' & Hco).
      exists t', id, op, row. split_and!; try done. by destruct Hco as [[_ [?|?]]|[[? _]|[? ?]]].
    + destruct Hex as [[[last' [= -> _]] Ha]|Hf]; [by left|right].
      destruct (Hrow _ Hf) as (t' & id & op & row & Ht & Hid & Ho & HoT & Hst & Hr' & Hco).
      exists t', id, op, row. split_and!; try done.
      * apply (Hg' id op); [by rewrite <-Hop|done|done].
      * by destruct Hco as [[_ [?|?]]|[[? ?]|[? _]]].
    + by destruct Hex as [[[? [=]] _]|?].
Qed.

End Promise.

(** ** The policy service *)

Section Policies.
Context `{PlatformLaws, ProtoLaws} `{!TenantProto}.
Context `{!PolicyEngine.Json, !PolicyService.PolicyProto, !PolicyEngine.Cel}.
Variables (service : Service) (ctx : Ctx).
Variables (config : PolicyService.Config).

(** The orchestrator's client of the policy service. *)
Definition policy_client (worlds : nat → world PolicyStore.policy_tables)
    (network : nat → broker_outcome) : PolicyBootstrapClient PolicyStore.policy_tables :=
  λ request n,
    over_grpc "ensure default policies" (network n)
      (perform (PolicyService.EnsureDefaultPolicies config ctx {|
         PolicyService.ensure_input_TenantID := policiesRequest_TenantID request;
         PolicyService.ensure_input_OnboardingOperationID :=
           policiesRequest_OnboardingOperationID request;
         PolicyService.ensure_input_ActorUserID := policiesRequest_ActorUserID request |})
       (worlds n)).

Lemma policy_client_fails worlds network request n p :
  is_ok (policy_client worlds network request n p).1 = false.
Proof.
  unfold policy_client, over_grpc. destruct (network n); [|done..].
  match goal with |- context [PolicyService.EnsureDefaultPolicies config ctx ?i] =>
    pose proof (PolicyProperties.EnsureDefaultPolicies_fails config ctx i (worlds n) p) as Hf
  end.
  by destruct (perform _ _ _) as [[] ?].
Qed.

Context {R : Type} `{!RuntimeProvisioner R, !OrganizationBootstrapClient R} `{TemporalLaws}.
Context (worlds : nat → world tables) (network : nat → broker_outcome).
Context (policy_worlds : nat → world PolicyStore.policy_tables).
Context (policy_network : nat → broker_outcome).
#[local] Instance onboarding_port : Onboarding (platform PolicyStore.policy_tables R) :=
  tenant_onboarding service (λ _, True) "".
#[local] Instance policy_port : PolicyBootstrapClient PolicyStore.policy_tables :=
  policy_client policy_worlds policy_network.
#[local] Instance tenants_port : TenantOnboardingClient tables :=
  tenant_client service ctx worlds network.

(** C38 (no tenant is provisioned). With the policy service as it is, a workflow started
    by the present version of the orchestrator, which bootstraps default policies, never
    returns without an error: the bootstrap fails whatever it meets, and the tenant's
    onboarding ends as failed unless it could not be started or its failure could not be
    recorded. *)
Theorem provisioning_never_succeeds execution input n
    (s : platform PolicyStore.policy_tables R) r ns' :
  (∀ n, interferes_by_steps service (worlds n)) → reachable service (on_tenants s) →
  temporal_GetVersion ensureDefaultPoliciesChangeID DefaultVersion 1 = 1 →
  ProvisionTenantWorkflow execution input (n, s) = (r, ns') →
  ∃ e, r = Err e ∧
  match e with
  | ActivityError name _ =>
      name = "MarkRunning" ∨
      onboarding_in OperationStateFailed (provision_TenantID input)
        (provision_OperationID input) (on_tenants ns'.2)
  | ApplicationError _ type_ _ => type_ = "tenant_failure_persistence_failed"
  end.
Proof.
  intros Hworlds Hp Hv Hr.
  pose proof (tenant_promise (P := PolicyStore.policy_tables) (R := R) service ctx (λ _, True) ""
    worlds network Hworlds I (λ _ _ _ _ _ _ _ _ _, I)) as Hpromise.
  assert (promised (S := platform PolicyStore.policy_tables R) s) as Hpr by (by split).
  destruct (ProvisionTenantWorkflow_leads (S := platform PolicyStore.policy_tables R)
    execution input (n, s) r ns' Hpr Hr) as [_ Hex].
  assert (stops (ProvisionTenantWorkflow (S := platform PolicyStore.policy_tables R)
            execution input)) as Hstop.
  { apply ProvisionTenantWorkflow_needs_policies; [done|]. intros request m x.
    cbn. unfold platform_policies, at_policies.
    pose proof (policy_client_fails policy_worlds policy_network request m (on_policies x)).
    unfold client_EnsureDefaultPolicies, policy_port.
    by destruct (policy_client _ _ _ _ _). }
  specialize (Hstop (n, s)). rewrite Hr in Hstop. destruct r as [u|e]; [done|].
  exists e. split; [done|]. destruct Hex as [[[last ->] _]|Hex]; [by left|].
  destruct e; [by right|done].
Qed.

End Policies.
