(* ===== verification/ProvisioningExamples.v ===== *)
(** * Execution orchestrator: concrete runs

    A Temporal that retries at once, a registry of workflows, a Runtime Manager that is
    always ready; the tenant of [TenantScenario] provisioned with and without the policy
    service, and the properties of the orchestrator at these runs. *)

From S2P Require Import Prelude GoStrings Postgres Usecase Outbox Consumer TenantDomain.
From S2P Require Import ConsumerProperties.
From S2P Require Import TenantStore TenantRepository TenantService TenantInvariants.
From S2P Require Import TenantRefinement Concrete TenantScenario.
From S2P Require Import Provisioning ProvisioningProperties.
From S2P Require Import ProvisioningServices.
From S2P Require PolicyEngine PolicyStore PolicyService.
From stdpp Require Import strings gmap list relations.
From Stdlib Require Import String Lia.
Open Scope string_scope.
Open Scope list_scope.
Open Scope Z_scope.

#[local] Existing Instances concrete_platform concrete_platform_laws concrete_proto
  concrete_proto_laws concrete_tenant_proto.

(** ** Temporal *)

(** One attempt, then up to [more] others. *)
Fixpoint retry {S} (more : nat) (act : activity S) (n : nat) (s : S)
  : result attempt_error unit * (nat * S) :=
  match act n s with
  | (Ok u, s') => (Ok tt, (Datatypes.S n, s'))
  | (Err e, s') =>
      match e, more with
      | AttemptError _, Datatypes.S more => retry more act (Datatypes.S n) s'
      | _, _ => (Err e, (Datatypes.S n, s'))
      end
  end.

Definition execute_concrete S (name : string) (options : ActivityOptions) (act : activity S)
    (ns : nat * S) : result workflow_error unit * (nat * S) :=
  let '(r, ns') :=
    retry (Z.to_nat (retry_MaximumAttempts (options_RetryPolicy options) - 1)) act ns.1 ns.2 in
  (match r with Ok _ => Ok tt | Err e => Err (ActivityError name (Some e)) end, ns').

#[local] Instance concrete_temporal : Temporal := {|
  temporal_execute := execute_concrete; temporal_GetVersion _ _ hi := hi |}.

Lemma retry_attempts {S} more (act : activity S) n s r n' s' :
  retry more act n s = (r, (n', s')) →
  attempts act (n, s) (n', s') ∧ (n' ≤ Datatypes.S (n + more))%nat ∧
  (r = Ok tt → ∃ m x, attempts act (n, s) (m, x) ∧ act m x = (Ok tt, s') ∧
     n' = Datatypes.S m).
Proof.
  revert n s. induction more as [|more IH]; intros n s Hr; cbn in Hr;
    destruct (act n s) as [[[]|e] s1] eqn:Ha.
  - injection Hr as <- <- <-. split_and!; [|lia|].
    + apply attempts_more. rewrite Ha. constructor.
    + intros _. exists n, s. by repeat constructor.
  - assert (r = Err e ∧ n' = Datatypes.S n ∧ s' = s1) as (-> & -> & ->)
      by (destruct e; by injection Hr).
    split_and!; [|lia|done]. apply attempts_more. rewrite Ha. constructor.
  - injection Hr as <- <- <-. split_and!; [|lia|].
    + apply attempts_more. rewrite Ha. constructor.
    + intros _. exists n, s. by repeat constructor.
  - destruct e as [e|msg ty cause].
    + destruct (IH _ _ Hr) as (Hat & Hn & Hok). split_and!; [|lia|].
      * apply attempts_more. by rewrite Ha.
      * intros (m & x & Hx & ? & ?)%Hok. exists m, x. split_and!; [|done..].
        apply attempts_more. by rewrite Ha.
    + injection Hr as <- <- <-. split_and!; [|lia|done].
      apply attempts_more. rewrite Ha. constructor.
Qed.

#[local] Instance concrete_temporal_laws : TemporalLaws.
Proof.
  split; cbn; unfold execute_concrete.
  - intros S name options act [n s] r [n' s'] He.
    destruct (retry _ _ _ _) as [r0 [n0 s0]] eqn:Hr. injection He as <- <- <-.
    apply retry_attempts in Hr as (Ha & Hn & _). split; [done|]. cbn in *. lia.
  - intros S name options act [n s] u [n' s'] He.
    destruct (retry _ _ _ _) as [[[]|e] [n0 s0]] eqn:Hr; [|done]. injection He as <- <- <-.
    apply retry_attempts in Hr as (_ & _ & Hok). destruct (Hok eq_refl) as (m & x & ?).
    by exists m, x.
  - intros S name options act [n s] e [n' s'] He.
    destruct (retry _ _ _ _) as [[[]|e0] [n0 s0]]; [done|]. injection He as <- <- <-. eauto.
  - lia.
Qed.

(** A registry that starts what it does not hold. *)
#[local] Instance concrete_registry : TemporalClient (gmap string ProvisionTenantInput) := {|
  ExecuteWorkflow n options input t :=
    match t !! start_ID options with
    | Some _ => (Err WorkflowExecutionAlreadyStarted, t)
    | None => (Ok tt, <[start_ID options := input]> t)
    end;
  registered t := t |}.
#[local] Instance concrete_registry_laws :
  TemporalClientLaws (gmap string ProvisionTenantInput).
Proof.
  intros n options input t _ _. unfold ExecuteWorkflow, concrete_registry, registered.
  destruct (t !! start_ID options) eqn:Ht; split; cbn; eauto; done.
Qed.

(** Of a message only a tenant's creation is decoded. *)
#[local] Instance concrete_created_proto : TenantCreatedProto := λ w,
  match w with
  | PayloadBytes (TenantCreated c o) => Some {|
      created_tenant_of := Some (created_tenant_view (context_Tenant c));
      created_OperationId := o |}
  | _ => None
  end.
#[local] Instance concrete_created_laws : TenantCreatedProtoLaws.
Proof. by intros c o w [= <-]. Qed.

(** ** The services behind the ports *)

Definition calm_worlds (n : nat) : world tables := scenario_world (3 + n mod 7).
Definition calm_network (n : nat) : broker_outcome := Acknowledged.

Lemma calm_interferes n : interferes_by_steps scenario_service (calm_worlds n).
Proof. intros k db. reflexivity. Qed.

#[local] Instance runtime_ready : RuntimeProvisioner unit := λ request _ u,
  match Noop_EnsureTenantRuntime request with
  | Ok _ => (GRPC_EnsureTenantRuntime (Some (StateReady, "")), u)
  | Err e => (Err e, u)
  end.
#[local] Instance company_ready : OrganizationBootstrapClient unit := λ _ _ u, (Ok tt, u).
#[local] Instance policies_ready : PolicyBootstrapClient unit := λ _ _ u, (Ok tt, u).
#[local] Instance example_tenants : TenantOnboardingClient tables :=
  tenant_client scenario_service scenario_ctx calm_worlds calm_network.

Definition example_execution : WorkflowExecution := {|
  execution_ID := workflow_id operation1; execution_RunID := "run-1" |}.
Definition example_input : ProvisionTenantInput :=
  provision_input (get_ok mu_create_params mu_create_ok).(createParams_Context).(context_Tenant)
    operation1.

Definition created_platform : platform unit unit := {|
  on_tenants := db_created; on_policies := tt; on_rest := tt |}.
Definition provisioned : result workflow_error unit * (nat * platform unit unit) :=
  ProvisionTenantWorkflow example_execution example_input (0%nat, created_platform).

(** Without the policy service the tenant is activated, one attempt per activity. *)
Example provisioned_ok :
  provisioned.1 = Ok tt ∧ provisioned.2.1 = 5%nat ∧
  (tenant_Status ∘ row_Tenant <$> tenants (on_tenants provisioned.2.2) !! tenant1)
    = Some StatusActive.
Proof. vm_compute. done. Qed.

(** ** With the policy service *)

#[local] Instance policy_json : PolicyEngine.Json := {|
  PolicyEngine.json_object := string; PolicyEngine.json_column_size := len;
  PolicyEngine.constraints_column_size _ := 64 |}.
#[local] Instance policy_cel : PolicyEngine.Cel := {|
  PolicyEngine.cel_Ast := string; PolicyEngine.cel_Program := string;
  PolicyEngine.cel_Context := unit; PolicyEngine.cel_Compile e := Some e;
  PolicyEngine.cel_OutputType _ := "bool";
  PolicyEngine.cel_AstToCheckedExpr _ := Some (Some PolicyEngine.ConstExpr);
  PolicyEngine.cel_NewProgram := Some;
  PolicyEngine.cel_ContextEval _ _ _ := Some PolicyEngine.CelTrue |}.

(** The bytes of the policy service's messages do not matter here. *)
Definition some_bytes : concrete_wire := PayloadBytes (TenantOnboardingStarted "" "" "" "" 0).
#[local] Instance policy_bytes : PolicyService.PolicyProto := {|
  PolicyService.marshal_policy_message _ := Some some_bytes;
  PolicyService.marshal_policy_decision _ := Some some_bytes;
  PolicyService.marshal_evaluate_request _ := Some some_bytes;
  PolicyService.sha256_Sum256 _ := ""; PolicyService.hmac_sha256 _ _ := "" |}.

Definition policy_config : PolicyService.Config := {|
  PolicyService.config_EventTopic := "gereh.policy.events.v1";
  PolicyService.config_EvaluationServicePrincipalID := uuid 8;
  PolicyService.config_BootstrapServicePrincipalID := uuid 9;
  PolicyService.config_DecisionTTL := 60000000000 |}.

Definition calm_policy_worlds (n : nat) : world PolicyStore.policy_tables := {|
  world_env _ := {| env_clock := 1000; env_budget := None |};
  world_interfere _ db := db; world_ids k := Some (uuid2 2 k); world_now _ := 1000 |}.

#[local] Instance example_policies : PolicyBootstrapClient PolicyStore.policy_tables :=
  policy_client scenario_ctx policy_config calm_policy_worlds calm_network.

Definition full_platform : platform PolicyStore.policy_tables unit := {|
  on_tenants := db_created; on_policies := PolicyStore.no_policy_tables; on_rest := tt |}.
Definition refused
  : result workflow_error unit * (nat * platform PolicyStore.policy_tables unit) :=
  ProvisionTenantWorkflow example_execution example_input (0%nat, full_platform).

(** With it, the twenty attempts of the bootstrap are used up and the tenant fails. *)
Example refused_after_attempts :
  refused.2.1 = 23%nat ∧
  (tenant_Status ∘ row_Tenant <$> tenants (on_tenants refused.2.2) !! tenant1)
    = Some StatusProvisioningFailed.
Proof. vm_compute. done. Qed.

(** A tenant service that does not answer while the operation is marked as running: the
    workflow is over, the operation still pending, and a second delivery of the event
    starts nothing. *)
Definition silent_tenants : TenantOnboardingClient tables :=
  tenant_client scenario_service scenario_ctx calm_worlds (λ _, Refused).
Definition stuck : result workflow_error unit * (nat * platform unit unit) :=
  let silent := platform_tenants (TenantOnboardingClient0 := silent_tenants) in
  ProvisionTenantWorkflow (TenantOnboardingClient0 := silent)
    example_execution example_input (0%nat, created_platform).

(** ** The event's way to the trigger *)

Definition created_event : OutboxEvent :=
  createParams_Event (get_ok mu_create_params mu_create_ok).

Definition created_record : kgo_Record := {|
  kgo_Topic := event_Topic created_event; kgo_Key := event_Key created_event;
  kgo_Value := event_Envelope created_event; kgo_Headers := []; kgo_Partition := 0;
  kgo_Offset := 0; kgo_Timestamp := 2000 |}.

Lemma created_record_carries : carries created_record created_event.
Proof.
  destruct (unmarshal_envelope (event_Envelope created_event)) as [e|] eqn:He;
    [|vm_compute in He; discriminate].
  exists e, true, 1500, "", [], tenant1, e. split; [done|].
  vm_compute in He. injection He as <-. by vm_compute.
Qed.

Definition example_trigger : TenantCreatedTrigger :=
  NewTenantCreatedTrigger " gereh-tenant-onboarding ".

(** Two deliveries: the first starts the workflow, the second finds it. *)
Definition delivered_twice
  : option (result (consume_error trigger_error) unit) *
    consuming (gmap string ProvisionTenantInput) :=
  let poll := {| poll_done := false; poll_errors := [true];
                 poll_records := [created_record] |} in
  Run (Some (Handle example_trigger 0)) (λ _, Acknowledged) [poll; poll]
    (group_starts ∅).

Example delivered_twice_starts_once :
  delivered_twice.1 = None ∧
  consuming_state delivered_twice.2 = {[ workflow_id operation1 := example_input ]}.
Proof. vm_compute. done. Qed.

Example stuck_pending :
  stuck.1 = Err (ActivityError "MarkRunning"
                   (Some (AttemptError (PortError "mark tenant onboarding running")))) ∧
  (operation_State <$> operations (on_tenants stuck.2.2) !! operation1)
    = Some OperationStatePending ∧
  stuck.2.1 = 20%nat.
Proof. vm_compute. done. Qed.

(** ** The properties at these runs *)

Example refused_run :
  ProvisionTenantWorkflow example_execution example_input (0%nat, full_platform)
  = (refused.1, refused.2).
Proof. apply surjective_pairing. Qed.

Example refused_run_split :
  ProvisionTenantWorkflow example_execution example_input (0%nat, full_platform)
  = (refused.1, (refused.2.1, refused.2.2)).
Proof. unfold refused. by destruct (ProvisionTenantWorkflow _ _ _) as [r [n s]]. Qed.

(** The reason of the workflow. *)
Definition the_reason (e : option OperationError) : Prop :=
  e = Some (failure_error provisioning_failure).

Example refused_error :
  match refused.1 with
  | Err (ActivityError name _) => name = "EnsureDefaultPolicies"
  | _ => False
  end.
Proof. vm_compute. done. Qed.

(** The failure of the bootstrap is recorded with the reason of the workflow. *)
Lemma provisioning_outcome_witness : ∃ id op,
  operations (on_tenants refused.2.2) !! id = Some op ∧
  operation_State op = OperationStateFailed ∧ the_reason (operation_Error op).
Proof.
  destruct (provisioning_outcome (P := PolicyStore.policy_tables) (R := unit) scenario_service
    scenario_ctx the_reason (provision_OperationID example_input) calm_worlds calm_network
    calm_interferes eq_refl (λ _ _ _ Hdb, Hdb) example_execution example_input 0%nat
    full_platform refused.1 refused.2.1 refused.2.2 eq_refl db_created_reachable)
    as (_ & _ & _ & Hout).
  - intros id op Hid. vm_compute in Hid. injection Hid as <-. vm_compute. intros [= <-].
    discriminate.
  - exact refused_run_split.
  - pose proof refused_error as He. destruct refused.1 as [u|[name last|msg ty details]];
      [done| |done].
    destruct Hout as [[-> _]|(t & id & op & row & _ & _ & Hop & _ & Hst & Hg & _)]; [discriminate|].
    exists id, op. split; [exact Hop|split; [exact Hst|exact Hg]].
Defined.

Example present_version :
  temporal_GetVersion (Temporal := concrete_temporal) ensureDefaultPoliciesChangeID
    DefaultVersion 1 = 1.
Proof. reflexivity. Qed.

Lemma provisioning_never_succeeds_witness : ∃ e, refused.1 = Err e.
Proof.
  destruct (provisioning_never_succeeds (R := unit) scenario_service scenario_ctx
    policy_config calm_worlds calm_network calm_policy_worlds calm_network
    example_execution example_input 0%nat full_platform refused.1 refused.2
    calm_interferes db_created_reachable present_version refused_run) as (e & He & _).
  by exists e.
Defined.

Definition created_params : CreateTenantParams := get_ok mu_create_params mu_create_ok.

(** The registry after the record was decoded and handed to the trigger. *)
Definition handled_created : result trigger_error unit * gmap string ProvisionTenantInput :=
  match decodeRecord (E := trigger_error) created_record with
  | Ok message => Handle example_trigger 0%nat message ∅
  | Err _ => (Ok tt, ∅)
  end.

Lemma created_tenant_is_provisioned_witness :
  is_Some (handled_created.2 !! workflow_id (operation_ID (createParams_Operation created_params))).
Proof.
  destruct (created_tenant_is_provisioned (E := trigger_error)
    (T := gmap string ProvisionTenantInput) scenario_service scenario_ctx
    (create_input "acme" "create-1") (scenario_world 1) created_params created_record
    example_trigger 0%nat ∅ handled_created.1 handled_created.2
    (get_ok_Ok mu_create_params mu_create_ok) created_record_carries) as (m & Hm & Hh).
  - by vm_compute.
  - by vm_compute.
  - apply Hh; [|vm_compute; reflexivity].
    unfold handled_created. rewrite Hm. apply surjective_pairing.
Defined.

(** ** The consumer *)

Definition created_log (tp : string * Z) : list kgo_Record :=
  if decide (partition_of created_record = tp) then [created_record] else [].

Lemma created_log_ok : log_ok created_log.
Proof.
  split; unfold created_log.
  - intros tp r. case_decide; [|by intros ?%elem_of_nil].
    by intros ->%list_elem_of_singleton.
  - intros tp l1 r l2 r'. case_decide; intros Heq Hr'.
    + destruct l1 as [|? [|]]; [|discriminate..]. injection Heq as _ <-.
      by apply elem_of_nil in Hr'.
    + by destruct l1.
  - intros tp r. case_decide; [|by intros ?%elem_of_nil].
    by intros ->%list_elem_of_singleton.
Qed.

Definition created_polls : list poll := [
  {| poll_done := false; poll_errors := []; poll_records := [created_record] |}].
Definition consumed : consuming (gmap string ProvisionTenantInput) :=
  (Run (Some (Handle example_trigger 0)) (λ _, Unacknowledged) created_polls
     (group_starts ∅)).2.

(** The commit's answer is lost, the record handled and passed. *)
Lemma consumed_run :
  rtc (process_run (Handle example_trigger 0) created_log ConsumerStartOffsetLatest)
    (group_starts ∅) consumed.
Proof.
  apply rtc_once. eapply (a_run _ _ _ _ (λ _, 0) (λ _, Unacknowledged) created_polls).
  - intros r ?%elem_of_nil. done.
  - intros tp. exists 1%nat. cbn. unfold of_partition, created_log.
    destruct (decide (partition_of created_record = tp)) as [<-|Hne].
    + by rewrite bool_decide_eq_true_2.
    + by rewrite bool_decide_eq_false_2.
  - unfold consumed. apply surjective_pairing.
Qed.

Lemma consumer_never_skips_witness :
  ∃ c', consuming_committed consumed !! partition_of created_record = Some c' ∧ 1 ≤ c' ∧
    handled_between created_log consumed (partition_of created_record) 1 c' ∧
    in_order_from created_log (partition_of created_record) 1 (consuming_handled consumed).
Proof.
  apply (consumer_never_skips (Handle example_trigger 0) created_log ConsumerStartOffsetLatest
    created_log_ok ∅ consumed consumed (partition_of created_record) 1 consumed_run).
  - reflexivity.
  - vm_compute. reflexivity.
Defined.

(** *** A group without a commit that starts at the latest offset

    The first process ends before it has handled the record at 0. When the second is assigned
    the partition, the partition ends at 1: it handles and commits the record at 1. *)
Definition next_record : kgo_Record := {|
  kgo_Topic := event_Topic created_event; kgo_Key := event_Key created_event;
  kgo_Value := event_Envelope created_event; kgo_Headers := []; kgo_Partition := 0;
  kgo_Offset := 1; kgo_Timestamp := 2000 |}.
Definition two_log (tp : string * Z) : list kgo_Record :=
  if decide (partition_of created_record = tp) then [created_record; next_record] else [].
Definition failing_handler (m : Message) (n : nat) : result unit unit * nat :=
  if decide (message_Offset m = 0) then (Err tt, n) else (Ok tt, S n).
Definition failed_process : consuming nat :=
  (Run (Some failing_handler) (λ _, Acknowledged) created_polls (group_starts O)).2.
Definition next_polls : list poll := [
  {| poll_done := false; poll_errors := []; poll_records := [next_record] |}].
Definition restarted : consuming nat :=
  (Run (Some failing_handler) (λ _, Acknowledged) next_polls failed_process).2.

Lemma restarted_run :
  rtc (process_run failing_handler two_log ConsumerStartOffsetLatest) (group_starts O) restarted.
Proof.
  eapply rtc_l; [|apply rtc_once].
  - eapply (a_run _ _ _ _ (λ _, 0) (λ _, Acknowledged) created_polls).
    + intros r ?%elem_of_nil. done.
    + intros tp. exists 1%nat. cbn. unfold of_partition, two_log.
      destruct (decide (partition_of created_record = tp)) as [<-|Hne].
      * by rewrite bool_decide_eq_true_2.
      * by rewrite bool_decide_eq_false_2.
    + apply surjective_pairing.
  - eapply (a_run _ _ _ _ (λ _, 1) (λ _, Acknowledged) next_polls).
    + intros r Hr. vm_compute in Hr. by apply elem_of_nil in Hr.
    + intros tp. exists 1%nat. unfold two_log.
      destruct (decide (partition_of created_record = tp)) as [<-|Hne].
      * vm_compute. reflexivity.
      * cbn. unfold of_partition. by rewrite bool_decide_eq_false_2.
    + unfold restarted. apply surjective_pairing.
Qed.

(** The group has committed the offset 2, and never handled the record at 0. *)
Example latest_start_skips :
  rtc (process_run failing_handler two_log DefaultConfig_ConsumerStartOffset)
    (group_starts O) restarted ∧
  consuming_committed restarted !! partition_of created_record = Some 2 ∧
  created_record ∈ two_log (partition_of created_record) ∧
  consuming_handled restarted = [next_record].
Proof.
  split; [exact restarted_run|]. split_and!; [by vm_compute| |by vm_compute].
  unfold two_log. rewrite decide_True by done. by left.
Qed.
