(* ===== verification/GatewayStore.v ===== *)
(** * Model gateway: domain, routes and tables

    Models [services/model-gateway/internal/domain], the messages of
    [gereh.model.gateway.v1] that the gateway reads and [buildRouteChain]
    ([application/service.go]). The content of a chat request is only handed to the
    providers: it is a parameter. The tables, the repository and the relay of the outbox
    follow. *)

From S2P Require Import Prelude GoStrings Postgres Usecase Outbox.
From stdpp Require Import strings list gmap sorting.
From Stdlib Require Import String Lia.
Open Scope string_scope.
Open Scope list_scope.
Open Scope Z_scope.

(** ** domain/models.go *)

(** The sentinel errors that the gateway returns, the errors of the database, and every
    other error. *)
Inductive error :=
| ErrUnauthorized
| ErrTokenExpired
| ErrInvalidToken
| ErrBudgetExceeded
| ErrNoAvailableRoute
| ErrDuplicateRequestID
| ErrProviderCallFailed
| ErrClientDisconnected
| ErrStreamingInterrupted
| ErrOther (what : string)
| ErrDatabase (e : db_error).

#[global] Instance gateway_db_error : DbError error := ErrDatabase.

Definition RequestStatus := string.
Definition RequestStatusAdmitted : RequestStatus := "admitted".
Definition RequestStatusSucceeded : RequestStatus := "succeeded".
Definition RequestStatusFailed : RequestStatus := "failed".
Definition RequestStatusClientDisconnected : RequestStatus := "client_disconnected".

Record RuntimeClaims := {
  claims_TenantID : string;
  claims_AgentID : string;
  claims_ExecutionID : string;
  claims_WorkflowID : string;
  claims_RunID : string;
  claims_StepID : string;
  claims_IssuedAt : Z;
  claims_ExpiresAt : Z;
}.

(** What providers exchange: the body of a request (its messages, tools and sampling
    parameters), the message of a result, the content of a chunk, a credential. *)
Class Chat := {
  chat_Body : Type;
  chat_Message : Type;
  chat_Delta : Type;
}.

Record TokenUsage := {
  PromptTokens : Z;
  CompletionTokens : Z;
  TotalTokens : Z;
  CachedPromptTokens : Z;
  ReasoningTokens : Z;
}.
Definition no_usage : TokenUsage := {|
  PromptTokens := 0; CompletionTokens := 0; TotalTokens := 0; CachedPromptTokens := 0;
  ReasoningTokens := 0 |}.

Section Chat.
Context `{Chat}.

Record InferenceRequest := {
  request_RequestID : string;
  request_CorrelationID : string;
  request_Model : string;
  request_Body : chat_Body;
}.

Record InferenceResult := {
  result_ID : string;
  result_Model : string;
  result_Created : Z;
  result_Message : chat_Message;
  result_FinishReason : string;
  result_Usage : TokenUsage;
}.

Record StreamChunk := {
  chunk_ID : string;
  chunk_Model : string;
  chunk_Created : Z;
  chunk_Delta : chat_Delta;
  chunk_FinishReason : option string;
  chunk_Usage : option TokenUsage;
}.

End Chat.

Record JournalRecord := {
  journal_TenantID : string;
  journal_RequestID : string;
  journal_AgentID : string;
  journal_ExecutionID : string;
  journal_WorkflowID : string;
  journal_RunID : string;
  journal_StepID : string;
  journal_ConnectionID : string;
  journal_OfferingID : string;
  journal_ProviderKey : string;
  journal_ProviderModelID : string;
  journal_Status : RequestStatus;
  journal_Usage : TokenUsage;
  journal_EstimatedCostMicroUSD : Z;
  journal_ErrorCode : string;
  journal_Streamed : bool;
  journal_RetryCount : Z;
  journal_FallbackFromOfferingID : option string;
  journal_DurationMS : Z;
  journal_TimeToFirstTokenMS : Z;
  journal_AdmittedAt : Z;
  journal_CompletedAt : option Z;
}.

(** ** gereh.model.gateway.v1 *)

Record InferenceRoute := {
  route_OfferingId : string;
  route_ConnectionId : string;
  route_ProviderKey : string;
  route_ProviderModelId : string;
  route_ConnectionType : string;
  route_ProviderPoolKey : option string;
  route_ContextWindowTokens : Z;
  route_MaxOutputTokens : Z;
  route_Capabilities : list string;
}.

Record InferencePlan := {
  plan_PrimaryRoute : option InferenceRoute;
  plan_FastRoute : option InferenceRoute;
  plan_FallbackRoutes : list InferenceRoute;
  plan_MaxModelCostMicrousd : option Z;
}.

(** ** [buildRouteChain] *)

Definition buildRouteChain (plan : InferencePlan) (modelAlias : string)
  : list InferenceRoute :=
  let primary := option_list (plan_PrimaryRoute plan) in
  let fast := option_list (plan_FastRoute plan) in
  (if String.eqb modelAlias "fast" && is_some (plan_FastRoute plan)
   then fast ++ primary else primary ++ fast)
  ++ plan_FallbackRoutes plan.

(** An alias other than [fast], an offering's identifier included, selects nothing. *)
Lemma model_alias_ignored plan modelAlias :
  modelAlias ≠ "fast" → buildRouteChain plan modelAlias = buildRouteChain plan "primary".
Proof.
  unfold buildRouteChain. intros Hne%String.eqb_neq. by rewrite Hne.
Qed.

(** ** The request journal and its outbox

    Models the tables of [services/model-gateway/migrations] and the repository of
    [internal/adapters/postgres/repository.go]: the admission of a request, its
    completion, and the statements of the outbox. *)

(** The CHECK constraints of [model_gateway_request_journal]. *)
Definition journal_checks (r : JournalRecord) : bool :=
  in_bounds 1 256 (char_length (journal_RequestID r))
  && slices_Contains [RequestStatusAdmitted; RequestStatusSucceeded; RequestStatusFailed;
                      RequestStatusClientDisconnected] (journal_Status r)
  && (0 <=? PromptTokens (journal_Usage r)) && (0 <=? CompletionTokens (journal_Usage r))
  && (0 <=? TotalTokens (journal_Usage r)) && (0 <=? CachedPromptTokens (journal_Usage r))
  && (0 <=? ReasoningTokens (journal_Usage r))
  && (0 <=? journal_EstimatedCostMicroUSD r) && (0 <=? journal_DurationMS r)
  && (0 <=? journal_TimeToFirstTokenMS r) && (0 <=? journal_RetryCount r)
  && (char_length (journal_ErrorCode r) <=? 64).

Section Store.
Context `{Platform, Proto}.

(** Rows of the journal by tenant and request. *)
Record gateway_tables := {
  gateway_journal : gmap (string * string) JournalRecord;
  gateway_outbox : outbox_table;
}.
Definition set_gateway_journal v (db : gateway_tables) : gateway_tables := {|
  gateway_journal := v; gateway_outbox := gateway_outbox db |}.
Definition set_gateway_outbox v (db : gateway_tables) : gateway_tables := {|
  gateway_journal := gateway_journal db; gateway_outbox := v |}.
Definition no_gateway_tables : gateway_tables := {|
  gateway_journal := ∅; gateway_outbox := {| outbox_rows := ∅; outbox_next := 1 |} |}.

Definition repo (A : Type) : Type := tx gateway_tables error A.

(** The [INSERT] of an admitted request; the columns it leaves out take their
    defaults. *)
Definition sql_insert_journal (r : JournalRecord) (sc : Scope) (db : gateway_tables)
  : result db_error (unit * gateway_tables) :=
  s ← rls_of sc; t ← cast (journal_TenantID r); agent ← cast (journal_AgentID r);
  execution ← cast (journal_ExecutionID r); connection ← cast (journal_ConnectionID r);
  offering ← cast (journal_OfferingID r);
  let row := {|
    journal_TenantID := t; journal_RequestID := journal_RequestID r;
    journal_AgentID := agent; journal_ExecutionID := execution;
    journal_WorkflowID := journal_WorkflowID r; journal_RunID := journal_RunID r;
    journal_StepID := journal_StepID r; journal_ConnectionID := connection;
    journal_OfferingID := offering; journal_ProviderKey := journal_ProviderKey r;
    journal_ProviderModelID := journal_ProviderModelID r;
    journal_Status := RequestStatusAdmitted; journal_Usage := no_usage;
    journal_EstimatedCostMicroUSD := 0; journal_ErrorCode := ""; journal_Streamed := false;
    journal_RetryCount := 0; journal_FallbackFromOfferingID := None;
    journal_DurationMS := 0; journal_TimeToFirstTokenMS := 0;
    journal_AdmittedAt := journal_AdmittedAt r; journal_CompletedAt := None |} in
  fail_if (negb (tenant_scoped s t)) (ErrRowSecurity "model_gateway_request_journal");;
  fail_if (negb (journal_checks row)) (ErrCheckViolation "model_gateway_request_journal");;
  fail_if (is_some (gateway_journal db !! (t, journal_RequestID r)))
    (ErrUniqueViolation "model_gateway_request_journal_pkey");;
  Ok (tt, set_gateway_journal
            (<[(t, journal_RequestID r) := row]> (gateway_journal db)) db).

(** The [UPDATE] of a completed request, which does not say whether it found a row. *)
Definition sql_complete_journal (r : JournalRecord) (completedAt : Z) (sc : Scope)
    (db : gateway_tables) : result db_error (unit * gateway_tables) :=
  s ← rls_of sc; t ← cast (journal_TenantID r); connection ← cast (journal_ConnectionID r);
  offering ← cast (journal_OfferingID r);
  fallback ← match journal_FallbackFromOfferingID r with
             | Some f => f ← cast f; Ok (Some f)
             | None => Ok None
             end;
  fail_if (negb (in_bounds (- 2 ^ 31) (2 ^ 31 - 1) (journal_RetryCount r))) ErrOutOfRange;;
  match gateway_journal db !! (t, journal_RequestID r) with
  | Some old =>
      if tenant_scoped s t then
        let row := {|
          journal_TenantID := t; journal_RequestID := journal_RequestID r;
          journal_AgentID := journal_AgentID old;
          journal_ExecutionID := journal_ExecutionID old;
          journal_WorkflowID := journal_WorkflowID old; journal_RunID := journal_RunID old;
          journal_StepID := journal_StepID old; journal_ConnectionID := connection;
          journal_OfferingID := offering; journal_ProviderKey := journal_ProviderKey r;
          journal_ProviderModelID := journal_ProviderModelID r;
          journal_Status := journal_Status r; journal_Usage := journal_Usage r;
          journal_EstimatedCostMicroUSD := journal_EstimatedCostMicroUSD r;
          journal_ErrorCode := journal_ErrorCode r; journal_Streamed := journal_Streamed r;
          journal_RetryCount := journal_RetryCount r;
          journal_FallbackFromOfferingID := fallback;
          journal_DurationMS := journal_DurationMS r;
          journal_TimeToFirstTokenMS := journal_TimeToFirstTokenMS r;
          journal_AdmittedAt := journal_AdmittedAt old;
          journal_CompletedAt := Some completedAt |} in
        fail_if (negb (journal_checks row))
          (ErrCheckViolation "model_gateway_request_journal");;
        Ok (tt, set_gateway_journal
                  (<[(t, journal_RequestID r) := row]> (gateway_journal db)) db)
      else Ok (tt, db)
  | None => Ok (tt, db)
  end.

(** The [INSERT] of the outbox row, which row security does not cover. *)
Definition sql_insert_gateway_outbox (clock : Z) (tenantID : string) (event : OutboxEvent)
    (_ : Scope) (db : gateway_tables) : result db_error (unit * gateway_tables) :=
  ob ← sql_insert_outbox clock tenantID event (gateway_outbox db);
  Ok (tt, set_gateway_outbox ob db).

(** ** repository.go *)

(** [uuid.Nil.String()] *)
Definition uuid_Nil : string := "00000000-0000-0000-0000-000000000000".

Definition journal_scope (record : JournalRecord) : Scope :=
  TenantScope (journal_TenantID record) uuid_Nil (journal_RequestID record)
    (journal_RequestID record).

(** A unique violation is a duplicate, any other error keeps its kind. *)
Definition duplicate_request (e : error) : error :=
  match e with ErrDatabase (ErrUniqueViolation _) => ErrDuplicateRequestID | _ => e end.

Definition AdmitRequest (record : JournalRecord) : repo unit :=
  Begin (journal_scope record) false;;
  map_err duplicate_request (exec (sql_insert_journal record));;
  commit.

(** [now] is read when the record has no completion time. *)
Definition CompleteRequest (now : Z) (record : JournalRecord)
    (outboxEvent : option OutboxEvent) : repo unit :=
  Begin (journal_scope record) false;;
  exec (sql_complete_journal record (default now (journal_CompletedAt record)));;
  match outboxEvent with
  | Some event =>
      clock ← clock_timestamp;
      exec (sql_insert_gateway_outbox clock (journal_TenantID record) event)
  | None => mret tt
  end;;
  commit.

End Store.

(** ** The relay of its outbox

    Models [services/model-gateway/internal/adapters/outbox/relay.go] with the outbox
    statements of [internal/adapters/postgres/repository.go], which differ from those of
    the tenant service. *)

Section Relay.
Context `{Platform, Proto}.

(** [ORDER BY available_at ASC, outbox_id ASC] *)
Definition available_le (a b : Z * outbox_row) : Prop :=
  outbox_AvailableAt a.2 < outbox_AvailableAt b.2 ∨
  outbox_AvailableAt a.2 = outbox_AvailableAt b.2 ∧ a.1 ≤ b.1.
#[export] Instance available_le_dec : RelDecision available_le.
Proof. intros a b. unfold available_le. apply _. Defined.

(** The interval has the nanoseconds of the lease, which [Duration.String] prints. *)
Definition claimable (clock lease : Z) (locked : Z → bool) (r : Z * outbox_row) : bool :=
  (outbox_AvailableAt r.2 <=? clock) && negb (is_some (outbox_PublishedAt r.2))
  && match outbox_ClaimedAt r.2 with None => true | Some t => t <? clock - lease end
  && negb (locked r.1).

Definition ClaimOutbox (arrange : list OutboxRecord → list OutboxRecord)
    (clock lease limit : Z) (locked : Z → bool) (ob : outbox_table)
  : list OutboxRecord * outbox_table :=
  let claimed := prod_map id (claim_row clock) <$>
    take (Z.to_nat limit) (List.filter (claimable clock lease locked)
      (merge_sort available_le (map_to_list (outbox_rows ob)))) in
  (arrange (record_of_row <$> claimed),
   {| outbox_rows := list_to_map claimed ∪ outbox_rows ob; outbox_next := outbox_next ob |}).

(** The claim and the last error stay. *)
Definition MarkOutboxPublished (clock outboxID : Z) : outbox_table → outbox_table :=
  alter_row (λ r, {|
    outbox_TenantID := outbox_TenantID r; outbox_Event := outbox_Event r;
    outbox_AvailableAt := outbox_AvailableAt r; outbox_ClaimedAt := outbox_ClaimedAt r;
    outbox_PublishedAt := Some clock; outbox_Attempts := outbox_Attempts r;
    outbox_LastError := outbox_LastError r |}) outboxID.

(** [left(s, n)]: the first [n] characters, that is their bytes. *)
Fixpoint sql_left (n : nat) (s : string) : string :=
  match s with
  | EmptyString => EmptyString
  | String c s =>
      if in_range 128 191 c then String c (sql_left n s)
      else match n with
           | O => EmptyString
           | S n => String c (sql_left n s)
           end
  end.

(** A published row is released as well. *)
Definition ReleaseOutbox (outboxID retryAt : Z) (publishError : string)
  : outbox_table → outbox_table :=
  alter_row (λ r, {|
    outbox_TenantID := outbox_TenantID r; outbox_Event := outbox_Event r;
    outbox_AvailableAt := retryAt; outbox_ClaimedAt := None;
    outbox_PublishedAt := outbox_PublishedAt r; outbox_Attempts := outbox_Attempts r;
    outbox_LastError := Some (sql_left (Z.to_nat 2000) publishError) |}) outboxID.

(** [time.Duration(1<<attempts) * time.Second], both operations on 64 bits, cut at the
    configured maximum. *)
Definition backoff (maxBackoff attempts : Z) : Z :=
  let delay := int64_wrap (int64_wrap (Z.shiftl 1 attempts) * second) in
  if maxBackoff <? delay then maxBackoff else delay.

(** [publishRecord] *)
Definition publishRecord (ev : relay_env) (record : OutboxRecord) (log : list kafka_record)
  : bool * list kafka_record :=
  match unmarshal_envelope (event_Envelope (record_Event record)) with
  | None => (false, log)
  | Some envelope =>
      Publish (re_broker ev record) (re_clock ev) (re_span ev)
        (event_Topic (record_Event record)) (event_Key (record_Event record)) envelope log
  end.

Definition process_record (c : relay_config) (ev : relay_env) (st : relay_state)
    (record : OutboxRecord) : relay_state :=
  let '(published, log) := publishRecord ev record (rs_log st) in
  {| rs_log := log;
     rs_outbox :=
       if published then
         if re_mark_ok ev (record_OutboxID record)
         then MarkOutboxPublished (re_clock ev) (record_OutboxID record) (rs_outbox st)
         else rs_outbox st
       else if re_release_ok ev (record_OutboxID record)
       then ReleaseOutbox (record_OutboxID record)
              (re_clock ev + backoff (config_MaxBackoff c) (record_Attempts record))
              (re_error ev record) (rs_outbox st)
       else rs_outbox st |}.

Definition processBatch (c : relay_config) (ev : relay_env) (st : relay_state) : relay_state :=
  if re_claim_ok ev then
    let '(records, ob) := ClaimOutbox (re_arrange ev) (re_clock ev) (config_Lease c)
                            (config_BatchSize c) (re_locked ev) (rs_outbox st) in
    foldl (process_record c ev) {| rs_outbox := ob; rs_log := rs_log st |} records
  else st.

(** ** The retry delay *)

Lemma int64_wrap_mult a b : int64_wrap (int64_wrap a * b) = int64_wrap (a * b).
Proof.
  unfold int64_wrap. f_equal.
  rewrite <-(Zplus_mod_idemp_l (_ * b)), <-(Zplus_mod_idemp_l (a * b)). do 2 f_equal.
  rewrite <-(Zmult_mod_idemp_l a), <-(Zmult_mod_idemp_l (_ - _)). do 2 f_equal.
  rewrite Zminus_mod_idemp_l. f_equal. lia.
Qed.

Lemma backoff_small maxBackoff n :
  0 ≤ n ≤ 33 → backoff maxBackoff n = Z.min (2 ^ n * second) maxBackoff.
Proof.
  intros Hn. unfold backoff. rewrite int64_wrap_mult, Z.shiftl_1_l.
  assert (1 ≤ 2 ^ n ≤ 2 ^ 33) as Hp.
  { split; [|apply Z.pow_le_mono_r; lia].
    change 1 with (2 ^ 0) at 1. apply Z.pow_le_mono_r; lia. }
  rewrite int64_wrap_small; [|unfold int64_min, int64_max, second; lia].
  destruct (maxBackoff <? _) eqn:Hc; [apply Z.ltb_lt in Hc|apply Z.ltb_ge in Hc]; lia.
Qed.

Lemma backoff_zero maxBackoff n : 0 < maxBackoff → 55 ≤ n → backoff maxBackoff n = 0.
Proof.
  intros Hmax Hn. unfold backoff. rewrite int64_wrap_mult, Z.shiftl_1_l.
  replace (2 ^ n * second) with (2 ^ (n - 55) * 5 ^ 9 * 2 ^ 64).
  2: { replace n with ((n - 55) + 55) at 2 by lia. rewrite Z.pow_add_r by lia.
       unfold second. lia. }
  unfold int64_wrap. rewrite Z.add_comm, Z_mod_plus_full. change (2 ^ 63 mod 2 ^ 64 - 2 ^ 63) with 0.
  destruct (maxBackoff <? 0) eqn:Hc; [apply Z.ltb_lt in Hc; lia|done].
Qed.

(** C40 (the gateway's retry delay overflows). Up to 33 attempts the delay of the next one
    is positive and at most the configured maximum, and never shrinks; at the 34th the
    product leaves the 64 bits and the row becomes available in the past; from 55 on the
    delay is zero, so that a record the broker keeps refusing is retried at every poll. *)
Theorem gateway_backoff_overflows maxBackoff :
  0 < maxBackoff →
  (∀ n, 0 ≤ n ≤ 33 → 0 < backoff maxBackoff n ≤ maxBackoff) ∧
  (∀ m n, 0 ≤ m ≤ n → n ≤ 33 → backoff maxBackoff m ≤ backoff maxBackoff n) ∧
  backoff maxBackoff 34 < 0 ∧
  (∀ n, 55 ≤ n → backoff maxBackoff n = 0).
Proof.
  intros Hmax. split_and!.
  - intros n Hn. rewrite backoff_small by done.
    assert (0 < 2 ^ n) by (apply Z.pow_pos_nonneg; lia). unfold second. lia.
  - intros m n Hm Hn. rewrite !backoff_small by lia.
    assert (2 ^ m ≤ 2 ^ n) by (apply Z.pow_le_mono_r; lia). unfold second. lia.
  - unfold backoff. change (int64_wrap _) with (- 1266874889709551616).
    destruct (maxBackoff <? _) eqn:Hc; [apply Z.ltb_lt in Hc; lia|lia].
  - intros n Hn. by apply backoff_zero.
Qed.

End Relay.

(** Five minutes at most. *)
Lemma gateway_backoff_overflows_witness :
  0 < 300 * second ∧ backoff (300 * second) 34 < 0 ∧ backoff (300 * second) 60 = 0.
Proof.
  assert (0 < 300 * second) as Hmax by (unfold second; lia).
  destruct (gateway_backoff_overflows (300 * second) Hmax) as (_ & _ & H34 & H55).
  split; [exact Hmax|]. split; [exact H34|apply H55; lia].
Defined.
