(* ===== verification/GatewayAuth.v ===== *)
(** * Model gateway: runtime tokens

    Models [services/model-gateway/internal/auth/runtime.go]: the verification of the token
    of a runtime cell. The JWT library is a class of parameters with the documented
    behaviour of [jwt.ParseWithClaims]. *)

From S2P Require Import Prelude GoStrings Postgres Concrete GatewayStore.
From stdpp Require Import strings list.
From Stdlib Require Import String Lia.
Open Scope string_scope.
Open Scope list_scope.
Open Scope Z_scope.

(** The claims of a token; the registered times may be missing. *)
Record customClaims := {
  custom_TenantID : string;
  custom_AgentID : string;
  custom_ExecutionID : string;
  custom_WorkflowID : string;
  custom_RunID : string;
  custom_StepID : string;
  custom_Issuer : string;
  custom_IssuedAt : option Z;
  custom_ExpiresAt : option Z;
}.

(** [errors.Is(err, jwt.ErrTokenExpired)] or not. *)
Inductive jwt_error := TokenExpired | TokenRefused.

(** [ParseWithClaims keyfunc leeway now token]: [keyfunc] gives the key for the algorithm
    of the token's header; the result holds the claims and [token.Valid]. [jwt_signed]
    says that a token carries claims with a signature of that algorithm by that key. *)
Class Jwt := {
  jwt_key : Type;
  jwt_signed : string → jwt_key → string → customClaims → Prop;
  ParseWithClaims : (string → option jwt_key) → Z → Z → string →
    result jwt_error (customClaims * bool);
}.

(** A token is parsed without an error when its signature verifies with the key it was
    given and it has not expired, if it says when it does. *)
Class JwtLaws `{Jwt} : Prop := {
  parsed_signed : ∀ keyfunc leeway now token c valid,
    ParseWithClaims keyfunc leeway now token = Ok (c, valid) →
    ∃ alg key, keyfunc alg = Some key ∧ jwt_signed alg key token c;
  parsed_current : ∀ keyfunc leeway now token c valid e,
    ParseWithClaims keyfunc leeway now token = Ok (c, valid) →
    custom_ExpiresAt c = Some e → now < e + leeway;
}.

Definition minute : Z := 60 * 1000000000.
Definition second : Z := 1000000000.
Definition maxRuntimeTokenTTL : Z := 15 * minute.

(** [time.Time.Sub] saturates at the bounds of a duration. *)
Definition time_Sub (t u : Z) : Z := Z.max int64_min (Z.min int64_max (t - u)).

(** A call returns or panics. *)
Inductive outcome (A : Type) := Returns (a : A) | Panics.
Arguments Returns {A} _.
Arguments Panics {A}.

Section Verify.
Context `{Platform, Jwt}.

Record Verifier := {
  verifier_publicKey : jwt_key;
  verifier_issuer : string;
}.

(** The keys that [Verify] lets the library use. *)
Definition runtime_key (v : Verifier) (alg : string) : option jwt_key :=
  if String.eqb alg "EdDSA" then Some (verifier_publicKey v) else None.

(** [strings.TrimPrefix(rawToken, Bearer )] and [TrimSpace] *)
Definition bearer (rawToken : string) : string :=
  TrimSpace (if HasPrefix rawToken "Bearer " then drop_bytes 7 rawToken else rawToken).

(** The checks between the parsing and the use of the times. *)
Definition check_claims (v : Verifier) (claims : customClaims) (valid : bool)
  : result error unit :=
  fail_if (negb valid) ErrInvalidToken;;
  fail_if (negb (String.eqb (verifier_issuer v) "")
           && negb (String.eqb (custom_Issuer claims) (verifier_issuer v))) ErrInvalidToken;;
  fail_if (negb (is_uuid (custom_TenantID claims))) ErrInvalidToken;;
  fail_if (negb (is_uuid (custom_AgentID claims))) ErrInvalidToken;;
  fail_if (negb (is_uuid (custom_ExecutionID claims))) ErrInvalidToken;;
  fail_if (String.eqb (custom_WorkflowID claims) "" || String.eqb (custom_RunID claims) ""
           || String.eqb (custom_StepID claims) "") ErrInvalidToken.

(** [Verify] at the time [now]; a claim without a time is a nil pointer, whose field it
    reads. *)
Definition Verify (v : Verifier) (now : Z) (rawToken : string)
  : outcome (result error RuntimeClaims) :=
  let tokenStr := bearer rawToken in
  if String.eqb tokenStr "" then Returns (Err ErrUnauthorized)
  else match ParseWithClaims (runtime_key v) (5 * second) now tokenStr with
  | Err TokenExpired => Returns (Err ErrTokenExpired)
  | Err TokenRefused => Returns (Err ErrInvalidToken)
  | Ok (claims, valid) =>
      match check_claims v claims valid with
      | Err e => Returns (Err e)
      | Ok _ =>
          match custom_IssuedAt claims, custom_ExpiresAt claims with
          | Some issuedAt, Some expiresAt =>
              if maxRuntimeTokenTTL + 10 * second <? time_Sub expiresAt issuedAt
              then Returns (Err ErrInvalidToken)
              else Returns (Ok {|
                claims_TenantID := custom_TenantID claims;
                claims_AgentID := custom_AgentID claims;
                claims_ExecutionID := custom_ExecutionID claims;
                claims_WorkflowID := custom_WorkflowID claims;
                claims_RunID := custom_RunID claims; claims_StepID := custom_StepID claims;
                claims_IssuedAt := issuedAt; claims_ExpiresAt := expiresAt |})
          | _, _ => Panics
          end
      end
  end.

Context `{!JwtLaws}.

(** What the gateway may rely on once a token is accepted. *)
Record trusted (v : Verifier) (now : Z) (token : string) (claims : RuntimeClaims) : Prop := {
  trusted_signed : ∃ c, jwt_signed "EdDSA" (verifier_publicKey v) token c ∧
    claims_TenantID claims = custom_TenantID c ∧ claims_AgentID claims = custom_AgentID c ∧
    claims_ExecutionID claims = custom_ExecutionID c ∧
    (verifier_issuer v = "" ∨ custom_Issuer c = verifier_issuer v);
  trusted_tenant : is_uuid (claims_TenantID claims) = true;
  trusted_agent : is_uuid (claims_AgentID claims) = true;
  trusted_execution : is_uuid (claims_ExecutionID claims) = true;
  trusted_context : claims_WorkflowID claims ≠ "" ∧ claims_RunID claims ≠ "" ∧
    claims_StepID claims ≠ "";
  trusted_current : now < claims_ExpiresAt claims + 5 * second;
  trusted_short : claims_ExpiresAt claims - claims_IssuedAt claims
    ≤ maxRuntimeTokenTTL + 10 * second;
}.

(** Only short-lived cell tokens are accepted. Claims are accepted only from a token
    that the configured Ed25519 key signed, under the configured issuer, for a tenant, an
    agent and an execution with well-formed identifiers and a full workflow context; the
    token has not expired, up to five seconds, and lives for fifteen minutes and ten
    seconds at most. *)
Theorem verified_token_trusted v now rawToken claims :
  Verify v now rawToken = Returns (Ok claims) → trusted v now (bearer rawToken) claims.
Proof.
  unfold Verify. destruct (String.eqb (bearer rawToken) ""); [done|].
  destruct (ParseWithClaims _ _ _ _) as [[c valid]|[]] eqn:Hparse; [|done..].
  destruct (check_claims v c valid) as [u|e] eqn:Hcheck; [|done].
  destruct (custom_IssuedAt c) as [iat|] eqn:Hiat; [|done].
  destruct (custom_ExpiresAt c) as [exp|] eqn:Hexp; [|done].
  destruct (_ <? _) eqn:Hshort; [done|]. intros [= <-].
  unfold check_claims in Hcheck. result_inv Hcheck. apply fail_if_Ok in Hcheck.
  rewrite !orb_false_iff, !String.eqb_neq in Hcheck.
  repeat match goal with Hn : negb _ = false |- _ => apply negb_false_iff in Hn end.
  destruct (parsed_signed _ _ _ _ _ _ Hparse) as (alg & key & Hkey & Hsigned).
  unfold runtime_key in Hkey. destruct (String.eqb alg "EdDSA") eqn:Halg; [|done].
  apply String.eqb_eq in Halg as ->. injection Hkey as <-.
  split; cbn; [|done|done|done|naive_solver|by eapply parsed_current|].
  - exists c. split_and!; [done..|].
    apply andb_false_iff in E0 as [Hi|Hi]; apply negb_false_iff, String.eqb_eq in Hi; auto.
  - apply Z.ltb_ge in Hshort. unfold time_Sub, maxRuntimeTokenTTL, minute, second in *.
    unfold int64_min, int64_max in Hshort. lia.
Qed.

(** A token that passes every check and lacks one of its times panics. *)
Lemma missing_time_panics v now rawToken c valid :
  bearer rawToken ≠ "" →
  ParseWithClaims (runtime_key v) (5 * second) now (bearer rawToken) = Ok (c, valid) →
  check_claims v c valid = Ok tt →
  custom_IssuedAt c = None ∨ custom_ExpiresAt c = None →
  Verify v now rawToken = Panics.
Proof.
  intros Hne Hparse Hcheck Htime. unfold Verify.
  apply String.eqb_neq in Hne. rewrite Hne, Hparse, Hcheck.
  destruct Htime as [->| ->]; [done|]. by destruct (custom_IssuedAt c).
Qed.

End Verify.

(** ** A library that reads one token *)

Definition example_claims : customClaims := {|
  custom_TenantID := uuid 1; custom_AgentID := uuid 2; custom_ExecutionID := uuid 3;
  custom_WorkflowID := "workflow"; custom_RunID := "run"; custom_StepID := "step";
  custom_Issuer := "cells"; custom_IssuedAt := Some 0;
  custom_ExpiresAt := Some (10 * minute) |}.

#[local] Instance example_jwt : Jwt := {|
  jwt_key := unit;
  jwt_signed alg _ token c := alg = "EdDSA" ∧ token = "token" ∧ c = example_claims;
  ParseWithClaims keyfunc leeway now token :=
    match keyfunc "EdDSA" with
    | Some _ =>
        if String.eqb token "token"
        then if now <? 10 * minute + leeway then Ok (example_claims, true)
             else Err TokenExpired
        else Err TokenRefused
    | None => Err TokenRefused
    end |}.
#[local] Instance example_jwt_laws : JwtLaws.
Proof.
  split; intros keyfunc leeway now token c valid; cbn;
    destruct (keyfunc "EdDSA") as [key|] eqn:Hkey; try done;
    destruct (String.eqb token "token") eqn:Ht; try done;
    destruct (now <? _) eqn:Hn; try done.
  - intros [= <- <-]. exists "EdDSA", key. apply String.eqb_eq in Ht. done.
  - intros e [= <- <-] [= <-]. by apply Z.ltb_lt.
Qed.

Definition example_verifier : Verifier := {|
  verifier_publicKey := tt; verifier_issuer := "cells" |}.

Lemma verified_token_trusted_witness :
  ∃ claims, @Verify concrete_platform _ example_verifier 0 "Bearer token" = Returns (Ok claims)
    ∧ claims_TenantID claims = uuid 1
    ∧ claims_ExpiresAt claims - claims_IssuedAt claims ≤ maxRuntimeTokenTTL + 10 * second.
Proof.
  eexists. split; [vm_compute; reflexivity|]. split; [reflexivity|].
  eapply (trusted_short (H := concrete_platform) example_verifier 0 (bearer "Bearer token")).
  apply (@verified_token_trusted concrete_platform _ _ example_verifier 0 "Bearer token").
  vm_compute. reflexivity.
Defined.
