(* ===== verification/GatewayService.v ===== *)
(** * Model gateway: requests and their routes

    Models [services/model-gateway/internal/application/service.go] and the ports
    ([internal/ports/ports.go]): the admission of a request, the routes tried in order
    until one answers or a stream has started, and what the journal and the outbox say of
    it. Resolver, secret store, budget verifier and provider adapters are parameters. *)

From S2P Require Import Prelude GoStrings Postgres Usecase Outbox.
From S2P Require Import GatewayStore.
From stdpp Require Import strings gmap list.
From Stdlib Require Import String Lia.
Open Scope string_scope.
Open Scope list_scope.
Open Scope Z_scope.

(** ** gereh.model.v1.ModelUsageRecorded *)

Inductive ModelUsageOutcome := OutcomeSuccess | OutcomeProviderError | OutcomeClientDisconnected.

Record ModelUsageRecorded := {
  usage_TenantId : string;
  usage_RequestId : string;
  usage_CorrelationId : string;
  usage_AgentId : string;
  usage_ExecutionId : string;
  usage_WorkflowId : string;
  usage_RunId : string;
  usage_StepId : string;
  usage_ConnectionId : string;
  usage_OfferingId : string;
  usage_ProviderKey : string;
  usage_ProviderModelId : string;
  usage_Tokens : TokenUsage;
  usage_EstimatedCostMicrousd : Z;
  usage_Outcome : ModelUsageOutcome;
  usage_ErrorCode : string;
  usage_DurationMs : Z;
  usage_TimeToFirstTokenMs : Z;
  usage_Streamed : bool;
  usage_RetryCount : Z;
  usage_FallbackFromOfferingId : string;
  usage_RecordedAt : Z;
}.

Class GatewayProto `{Proto} := { marshal_usage : ModelUsageRecorded → option wire }.

(** A conversion to [int32] keeps the low 32 bits. *)
Definition int32_wrap (v : Z) : Z := (v + 2 ^ 31) mod 2 ^ 32 - 2 ^ 31.

(** ** ports/ports.go *)

Section Ports.
Context `{Chat}.

(** A provider's stream: it ends, or calls back with a chunk and goes on with what the
    callback returned. *)
Inductive streaming :=
| StreamEnd (usage : TokenUsage) (err : option error)
| StreamNext (chunk : StreamChunk) (continue : option error → streaming).

(** A provider's adapter. [n] numbers the routes tried for a request. *)
Record ProviderAdapter := {
  adapter_ProviderKey : string;
  adapter_Complete : nat → InferenceRoute → string → InferenceRequest →
    result error InferenceResult;
  adapter_Stream : nat → InferenceRoute → string → InferenceRequest → streaming;
}.

Record ServiceConfig := {
  config_EventTopic : string;
  config_RequireBudgetReservation : bool;
}.

Record Service := {
  service_config : ServiceConfig;
  service_resolver : string → string → result error InferencePlan;
  service_secretStore : nat → string → string → result error string;
  service_budgetVerifier : string → string → option Z → result error unit;
  service_adapters : gmap string ProviderAdapter;
}.

(** [DeferredBudgetVerifier] *)
Definition Deferred_CheckBudget (tenantID agentID : string) (maxCost : option Z)
  : result error unit := Ok tt.

(** [New]: of two adapters for a provider the last is kept. *)
Definition New (config : ServiceConfig)
    (resolver : string → string → result error InferencePlan)
    (secretStore : nat → string → string → result error string)
    (budgetVerifier : string → string → option Z → result error unit)
    (adapters : list ProviderAdapter) : Service := {|
  service_config := config; service_resolver := resolver;
  service_secretStore := secretStore; service_budgetVerifier := budgetVerifier;
  service_adapters :=
    foldl (λ known a, <[adapter_ProviderKey a := a]> known) ∅ adapters |}.

End Ports.

Section Service.
Context `{Platform, Chat, Proto} `{!GatewayProto}.
Variable service : Service.

#[local] Notation world := (Usecase.world gateway_tables).
#[local] Notation app := (Usecase.app gateway_tables error).

(** [getRouteAPIKey] *)
Definition getRouteAPIKey (n : nat) (tenantID : string) (route : InferenceRoute)
  : result error string :=
  if String.eqb (route_ConnectionType route) "platform_managed"
  then Ok "platform-managed-key"
  else service_secretStore service n tenantID (route_ConnectionId route).

(** The credential and the adapter of a route. *)
Definition route_adapter (n : nat) (tenantID : string) (route : InferenceRoute)
  : result error (string * ProviderAdapter) :=
  apiKey ← getRouteAPIKey n tenantID route;
  adapter ← from_option_err (ErrOther "no adapter for provider")
              (service_adapters service !! route_ProviderKey route);
  Ok (apiKey, adapter).

(** ** The journal record and the usage event *)

Definition admitted_record (claims : RuntimeClaims) (req : InferenceRequest)
    (initial : InferenceRoute) (streamed : bool) (startTime : Z) : JournalRecord := {|
  journal_TenantID := claims_TenantID claims; journal_RequestID := request_RequestID req;
  journal_AgentID := claims_AgentID claims; journal_ExecutionID := claims_ExecutionID claims;
  journal_WorkflowID := claims_WorkflowID claims; journal_RunID := claims_RunID claims;
  journal_StepID := claims_StepID claims;
  journal_ConnectionID := route_ConnectionId initial;
  journal_OfferingID := route_OfferingId initial;
  journal_ProviderKey := route_ProviderKey initial;
  journal_ProviderModelID := route_ProviderModelId initial;
  journal_Status := RequestStatusAdmitted; journal_Usage := no_usage;
  journal_EstimatedCostMicroUSD := 0; journal_ErrorCode := ""; journal_Streamed := streamed;
  journal_RetryCount := 0; journal_FallbackFromOfferingID := None; journal_DurationMS := 0;
  journal_TimeToFirstTokenMS := 0; journal_AdmittedAt := startTime;
  journal_CompletedAt := None |}.

Definition completed_record (rec : JournalRecord) (selected : InferenceRoute)
    (status : RequestStatus) (usage : TokenUsage) (errorCode : string) (retryCount : Z)
    (fallbackFrom : option string) (durationMS timeToFirstTokenMS completedAt : Z)
  : JournalRecord := {|
  journal_TenantID := journal_TenantID rec; journal_RequestID := journal_RequestID rec;
  journal_AgentID := journal_AgentID rec; journal_ExecutionID := journal_ExecutionID rec;
  journal_WorkflowID := journal_WorkflowID rec; journal_RunID := journal_RunID rec;
  journal_StepID := journal_StepID rec;
  journal_ConnectionID := route_ConnectionId selected;
  journal_OfferingID := route_OfferingId selected;
  journal_ProviderKey := route_ProviderKey selected;
  journal_ProviderModelID := route_ProviderModelId selected;
  journal_Status := status; journal_Usage := usage;
  journal_EstimatedCostMicroUSD := journal_EstimatedCostMicroUSD rec;
  journal_ErrorCode := errorCode; journal_Streamed := journal_Streamed rec;
  journal_RetryCount := retryCount; journal_FallbackFromOfferingID := fallbackFrom;
  journal_DurationMS := durationMS; journal_TimeToFirstTokenMS := timeToFirstTokenMS;
  journal_AdmittedAt := journal_AdmittedAt rec; journal_CompletedAt := Some completedAt |}.

Definition failed_record (rec : JournalRecord) (status : RequestStatus)
    (errorCode : string) (retryCount : Z) (fallbackFrom : option string)
    (durationMS completedAt : Z) : JournalRecord := {|
  journal_TenantID := journal_TenantID rec; journal_RequestID := journal_RequestID rec;
  journal_AgentID := journal_AgentID rec; journal_ExecutionID := journal_ExecutionID rec;
  journal_WorkflowID := journal_WorkflowID rec; journal_RunID := journal_RunID rec;
  journal_StepID := journal_StepID rec; journal_ConnectionID := journal_ConnectionID rec;
  journal_OfferingID := journal_OfferingID rec;
  journal_ProviderKey := journal_ProviderKey rec;
  journal_ProviderModelID := journal_ProviderModelID rec;
  journal_Status := status; journal_Usage := journal_Usage rec;
  journal_EstimatedCostMicroUSD := journal_EstimatedCostMicroUSD rec;
  journal_ErrorCode := errorCode; journal_Streamed := journal_Streamed rec;
  journal_RetryCount := retryCount; journal_FallbackFromOfferingID := fallbackFrom;
  journal_DurationMS := durationMS;
  journal_TimeToFirstTokenMS := journal_TimeToFirstTokenMS rec;
  journal_AdmittedAt := journal_AdmittedAt rec; journal_CompletedAt := Some completedAt |}.

(** [recordFailure]; its error is dropped. The readings of the clock are numbered: 5 and
    6 are its own. *)
Definition recordFailure (rec : JournalRecord) (status : RequestStatus)
    (errorCode : string) (startTime retryCount : Z) (fallbackFrom : option string)
  : app unit :=
  now ← pure (λ w, Ok (world_now w 5%nat, world_now w 6%nat));
  _ ← try_call (CompleteRequest now.2
        (failed_record rec status errorCode retryCount fallbackFrom
           (Milliseconds (now.1 - startTime)) now.2) None);
  mret tt.

Definition usage_message (rec : JournalRecord) (claims : RuntimeClaims)
    (correlationID : string) (outcome : ModelUsageOutcome) (errorCode : string)
    (recordedAt : Z) : ModelUsageRecorded := {|
  usage_TenantId := journal_TenantID rec; usage_RequestId := journal_RequestID rec;
  usage_CorrelationId := correlationID; usage_AgentId := claims_AgentID claims;
  usage_ExecutionId := claims_ExecutionID claims;
  usage_WorkflowId := claims_WorkflowID claims; usage_RunId := claims_RunID claims;
  usage_StepId := claims_StepID claims; usage_ConnectionId := journal_ConnectionID rec;
  usage_OfferingId := journal_OfferingID rec; usage_ProviderKey := journal_ProviderKey rec;
  usage_ProviderModelId := journal_ProviderModelID rec;
  usage_Tokens := journal_Usage rec;
  usage_EstimatedCostMicrousd := journal_EstimatedCostMicroUSD rec;
  usage_Outcome := outcome; usage_ErrorCode := errorCode;
  usage_DurationMs := journal_DurationMS rec;
  usage_TimeToFirstTokenMs := journal_TimeToFirstTokenMS rec;
  usage_Streamed := journal_Streamed rec;
  usage_RetryCount := int32_wrap (journal_RetryCount rec);
  usage_FallbackFromOfferingId := default "" (journal_FallbackFromOfferingID rec);
  usage_RecordedAt := recordedAt |}.

(** [createUsageEvent]: no event when a message cannot be marshalled. [uuid.NewString]
    panics rather than fail. *)
Definition createUsageEvent (rec : JournalRecord) (claims : RuntimeClaims)
    (correlationID : string) (outcome : ModelUsageOutcome) (errorCode : string) (w : world)
  : option OutboxEvent :=
  let eventID := default "" (world_ids w 0%nat) in
  payload ← marshal_usage
              (usage_message rec claims correlationID outcome errorCode (world_now w 3%nat));
  let now := world_now w 4%nat in
  envelope ← marshal_envelope {|
    envelope_EventId := eventID; envelope_EventType := "model.usage.recorded";
    envelope_EventVersion := 1; envelope_TenantId := journal_TenantID rec;
    envelope_AggregateType := "model_usage"; envelope_AggregateId := journal_RequestID rec;
    envelope_AggregateVersion := 1; envelope_OccurredAt := Some now;
    envelope_Producer := "model-gateway"; envelope_TraceId := "";
    envelope_CorrelationId := correlationID;
    envelope_CausationId := journal_RequestID rec; envelope_Payload := payload |};
  Some {| event_ID := eventID; event_Topic := config_EventTopic (service_config service);
          event_Key := journal_TenantID rec; event_Envelope := envelope;
          event_OccurredAt := now |}.

(** Journal and event of a request that used a route; the error is dropped. *)
Definition recordCompletion (rec : JournalRecord) (claims : RuntimeClaims)
    (correlationID : string) (outcome : ModelUsageOutcome) (errorCode : string) : app unit :=
  event ← pure (λ w, Ok (createUsageEvent rec claims correlationID outcome errorCode w));
  _ ← try_call (CompleteRequest 0 rec event);
  mret tt.
(** ** The loop over the routes

    [routing_calls] is a history: the routes whose provider was called. *)
Record routing (R : Type) := {
  routing_lastErr : option error;
  routing_selected : option (InferenceRoute * R);
  routing_retryCount : Z;
  routing_fallbackFrom : option string;
  routing_calls : list InferenceRoute;
}.
Arguments routing_lastErr {R} _.
Arguments routing_selected {R} _.
Arguments routing_retryCount {R} _.
Arguments routing_fallbackFrom {R} _.
Arguments routing_calls {R} _.

Definition no_routing R : routing R := {|
  routing_lastErr := None; routing_selected := None; routing_retryCount := 0;
  routing_fallbackFrom := None; routing_calls := [] |}.

(** [if idx > 0 { fallbackFromOfferingID = &routes[0].OfferingId }] *)
Definition falls_back {R} (n : nat) (first : InferenceRoute) (st : routing R) : routing R :=
  match n with
  | O => st
  | S _ => {| routing_lastErr := routing_lastErr st; routing_selected := routing_selected st;
              routing_retryCount := routing_retryCount st;
              routing_fallbackFrom := Some (route_OfferingId first);
              routing_calls := routing_calls st |}
  end.

(** [lastErr = err; retryCount++; continue]; the count is at most the number of routes. *)
Definition route_failed {R} (e : error) (st : routing R) : routing R := {|
  routing_lastErr := Some e; routing_selected := routing_selected st;
  routing_retryCount := routing_retryCount st + 1;
  routing_fallbackFrom := routing_fallbackFrom st; routing_calls := routing_calls st |}.

Definition route_called {R} (route : InferenceRoute) (st : routing R) : routing R := {|
  routing_lastErr := routing_lastErr st; routing_selected := routing_selected st;
  routing_retryCount := routing_retryCount st;
  routing_fallbackFrom := routing_fallbackFrom st;
  routing_calls := routing_calls st ++ [route] |}.

Definition route_selected {R} (route : InferenceRoute) (res : R) (lastErr : option error)
    (st : routing R) : routing R := {|
  routing_lastErr := lastErr; routing_selected := Some (route, res);
  routing_retryCount := routing_retryCount st;
  routing_fallbackFrom := routing_fallbackFrom st; routing_calls := routing_calls st |}.

Fixpoint try_complete (tenantID : string) (req : InferenceRequest) (first : InferenceRoute)
    (n : nat) (routes : list InferenceRoute) (st : routing InferenceResult)
  : routing InferenceResult :=
  match routes with
  | [] => st
  | route :: rest =>
      let st := falls_back n first st in
      match route_adapter n tenantID route with
      | Err e => try_complete tenantID req first (S n) rest (route_failed e st)
      | Ok (apiKey, adapter) =>
          let st := route_called route st in
          match adapter_Complete adapter n route apiKey req with
          | Err e => try_complete tenantID req first (S n) rest (route_failed e st)
          | Ok res => route_selected route res (routing_lastErr st) st
          end
      end
  end.

(** ** Streams *)

(** The variables of the callback. [stream_offered] is a history: the chunks handed to
    the client, with the number of the route they come from. *)
Record stream_state := {
  stream_firstChunkSent : bool;
  stream_timeToFirstTokenMS : Z;
  stream_clientDisconnected : bool;
  stream_offered : list (nat * StreamChunk);
}.
Definition no_stream : stream_state := {|
  stream_firstChunkSent := false; stream_timeToFirstTokenMS := 0;
  stream_clientDisconnected := false; stream_offered := [] |}.

(** The client's [onChunk], given how many chunks came before. *)
Variable onChunk : nat → StreamChunk → option error.

(** One call of the callback, [elapsedMS] after the start of the request. *)
Definition offer (n : nat) (elapsedMS : Z) (chunk : StreamChunk) (st : stream_state)
  : option error * stream_state :=
  let err := onChunk (List.length (stream_offered st)) chunk in
  (err, {|
    stream_firstChunkSent := true;
    stream_timeToFirstTokenMS :=
      if stream_firstChunkSent st then stream_timeToFirstTokenMS st else elapsedMS;
    stream_clientDisconnected := stream_clientDisconnected st || is_some err;
    stream_offered := stream_offered st ++ [(n, chunk)] |}).

(** A provider's stream to its end. *)
Fixpoint forward (n : nat) (elapsedMS : Z) (s : streaming) (st : stream_state)
  : TokenUsage * option error * stream_state :=
  match s with
  | StreamEnd usage err => (usage, err, st)
  | StreamNext chunk continue =>
      let '(err, st') := offer n elapsedMS chunk st in
      forward n elapsedMS (continue err) st'
  end.

(** [elapsedMS n] is the age of the request when route [n] sends its first chunk. *)
Fixpoint try_stream (tenantID : string) (req : InferenceRequest) (first : InferenceRoute)
    (elapsedMS : nat → Z) (n : nat) (routes : list InferenceRoute) (st : routing TokenUsage)
    (ss : stream_state) : routing TokenUsage * stream_state :=
  match routes with
  | [] => (st, ss)
  | route :: rest =>
      let st := falls_back n first st in
      match route_adapter n tenantID route with
      | Err e => try_stream tenantID req first elapsedMS (S n) rest (route_failed e st) ss
      | Ok (apiKey, adapter) =>
          let st := route_called route st in
          let '(usage, streamErr, ss) :=
            forward n (elapsedMS n) (adapter_Stream adapter n route apiKey req) ss in
          if stream_firstChunkSent ss then
            let lastErr :=
              if is_some streamErr && negb (stream_clientDisconnected ss)
              then streamErr else routing_lastErr st in
            (route_selected route usage lastErr st, ss)
          else match streamErr with
          | Some e => try_stream tenantID req first elapsedMS (S n) rest (route_failed e st) ss
          | None => (route_selected route usage (routing_lastErr st) st, ss)
          end
      end
  end.

(** ** The use cases *)

(** What a request came to: its result, the providers called, the chunks handed to the
    client. *)
Record execution (R : Type) := {
  execution_result : result error R;
  execution_calls : list InferenceRoute;
  execution_offered : list (nat * StreamChunk);
}.
Definition refused {R} (e : error) : execution R := {|
  execution_result := Err e; execution_calls := []; execution_offered := [] |}.

(** The part that both use cases share: plan, routes, admission and budget, then
    [serve], given the plan's routes, the journal record and the start time. *)
Definition admission {R} (claims : RuntimeClaims) (req : InferenceRequest) (streamed : bool)
    (serve : InferenceRoute → list InferenceRoute → JournalRecord → Z → app (execution R))
  : app (execution R) :=
  startTime ← pure (λ w, Ok (world_now w 0%nat));
  match service_resolver service (claims_TenantID claims) (claims_AgentID claims) with
  | Err e => mret (refused e)
  | Ok plan =>
      match buildRouteChain plan (request_Model req) with
      | [] => mret (refused ErrNoAvailableRoute)
      | initial :: rest =>
          let rec := admitted_record claims req initial streamed startTime in
          admitted ← try_call (AdmitRequest rec);
          match admitted with
          | Err e => mret (refused e)
          | Ok _ =>
              if config_RequireBudgetReservation (service_config service)
                 && negb (is_ok (service_budgetVerifier service (claims_TenantID claims)
                            (claims_AgentID claims) (plan_MaxModelCostMicrousd plan)))
              then recordFailure rec RequestStatusFailed "budget_exceeded" startTime 0 None;;
                   mret (refused ErrBudgetExceeded)
              else serve initial (initial :: rest) rec startTime
          end
      end
  end.

(** [Execute], once admitted. *)
Definition Execute_serve (claims : RuntimeClaims) (req : InferenceRequest)
    (initial : InferenceRoute) (routes : list InferenceRoute) (rec : JournalRecord)
    (startTime : Z) : app (execution InferenceResult) :=
  let st := try_complete (claims_TenantID claims) req initial 0 routes (no_routing _) in
  now ← pure (λ w, Ok (world_now w 1%nat, world_now w 2%nat));
  match routing_selected st with
  | None =>
      recordFailure rec RequestStatusFailed "all_routes_failed" startTime
        (routing_retryCount st) (routing_fallbackFrom st);;
      mret {| execution_result := Err ErrProviderCallFailed;
              execution_calls := routing_calls st; execution_offered := [] |}
  | Some (selected, res) =>
      recordCompletion
        (completed_record rec selected RequestStatusSucceeded (result_Usage res) ""
           (routing_retryCount st) (routing_fallbackFrom st)
           (Milliseconds (now.1 - startTime)) 0 now.2)
        claims (request_CorrelationID req) OutcomeSuccess "";;
      mret {| execution_result := Ok res; execution_calls := routing_calls st;
              execution_offered := [] |}
  end.

Definition Execute (claims : RuntimeClaims) (req : InferenceRequest)
  : app (execution InferenceResult) :=
  admission claims req false (Execute_serve claims req).

(** Status, outcome, error code and result of a request whose stream took a route. *)
Definition stream_outcome (st : routing TokenUsage) (ss : stream_state)
  : RequestStatus * ModelUsageOutcome * string * result error unit :=
  if stream_clientDisconnected ss then
    (RequestStatusClientDisconnected, OutcomeClientDisconnected, "client_disconnected",
     Err ErrClientDisconnected)
  else match routing_lastErr st with
  | Some _ =>
      (RequestStatusFailed, OutcomeProviderError, "stream_interrupted",
       Err ErrStreamingInterrupted)
  | None => (RequestStatusSucceeded, OutcomeSuccess, "", Ok tt)
  end.

(** [ExecuteStream], once admitted; the clock readings from 10 on are those of the
    callbacks. *)
Definition ExecuteStream_serve (claims : RuntimeClaims) (req : InferenceRequest)
    (initial : InferenceRoute) (routes : list InferenceRoute) (rec : JournalRecord)
    (startTime : Z) : app (execution unit) :=
  elapsedMS ← pure (λ w, Ok (λ n, Milliseconds (world_now w (10 + n)%nat - startTime)));
  let '(st, ss) := try_stream (claims_TenantID claims) req initial elapsedMS 0 routes
                     (no_routing _) no_stream in
  now ← pure (λ w, Ok (world_now w 1%nat, world_now w 2%nat));
  match routing_selected st with
  | None =>
      recordFailure rec RequestStatusFailed "all_routes_failed" startTime
        (routing_retryCount st) (routing_fallbackFrom st);;
      mret {| execution_result := Err ErrProviderCallFailed;
              execution_calls := routing_calls st;
              execution_offered := stream_offered ss |}
  | Some (selected, usage) =>
      let '(status, outcome, errorCode, res) := stream_outcome st ss in
      recordCompletion
        (completed_record rec selected status usage errorCode (routing_retryCount st)
           (routing_fallbackFrom st) (Milliseconds (now.1 - startTime))
           (stream_timeToFirstTokenMS ss) now.2)
        claims (request_CorrelationID req) outcome errorCode;;
      mret {| execution_result := res; execution_calls := routing_calls st;
              execution_offered := stream_offered ss |}
  end.

Definition ExecuteStream (claims : RuntimeClaims) (req : InferenceRequest)
  : app (execution unit) :=
  admission claims req true (ExecuteStream_serve claims req).

End Service.
Arguments execution_result {_ _} _.
Arguments execution_calls {_ _} _.
Arguments execution_offered {_ _} _.
Arguments routing_lastErr {_} _.
Arguments routing_selected {_} _.
Arguments routing_retryCount {_} _.
Arguments routing_fallbackFrom {_} _.
Arguments routing_calls {_} _.
