(* ===== verification/GatewayProperties.v ===== *)
(** * Model gateway: what a request is promised

    A request identifier reaches the providers at most once; the first route that answers
    is used and the journal says which; a stream comes from one route only, and succeeds
    only on the first. *)

From S2P Require Import Prelude GoStrings Postgres Usecase Outbox Concrete.
From S2P Require Import GatewayStore GatewayService.
From stdpp Require Import strings gmap list relations.
From Stdlib Require Import String Lia.
Open Scope string_scope.
Open Scope list_scope.
Open Scope Z_scope.

Section Properties.
Context `{Platform, Chat, Proto} `{!GatewayProto}.

#[local] Notation world := (Usecase.world gateway_tables).
#[local] Notation app := (Usecase.app gateway_tables error).
Implicit Types (db : gateway_tables) (w : world).

(** ** The repository *)

(** Requests stay in the journal. *)
Definition journal_kept : relation gateway_tables := λ db db',
  ∀ k, is_Some (gateway_journal db !! k) → is_Some (gateway_journal db' !! k).

#[export] Instance journal_kept_preorder : PreOrder journal_kept.
Proof. split; [by intros db k|]. intros db1 db2 db3 H12 H23 k Hk. by apply H23, H12. Qed.

Lemma insert_kept db k r :
  journal_kept db (set_gateway_journal (<[k := r]> (gateway_journal db)) db).
Proof.
  intros k' [r' Hk']. cbn. destruct (decide (k = k')) as [->|Hne].
  - rewrite lookup_insert_eq. eauto.
  - rewrite lookup_insert_ne by done. eauto.
Qed.

Lemma sql_insert_journal_Ok r sc db u db' :
  sql_insert_journal r sc db = Ok (u, db') →
  ∃ t row, uuid_in (journal_TenantID r) = Some t ∧
    gateway_journal db !! (t, journal_RequestID r) = None ∧
    journal_Status row = RequestStatusAdmitted ∧
    db' = set_gateway_journal (<[(t, journal_RequestID r) := row]> (gateway_journal db)) db.
Proof.
  unfold sql_insert_journal, cast. intros Hr. result_inv Hr. injection Hr as _ <-.
  eexists _, _. split_and!; [done| | |reflexivity]; [|done].
  by destruct (gateway_journal db !! _).
Qed.

Lemma sql_complete_journal_Ok r at_ sc db u db' :
  sql_complete_journal r at_ sc db = Ok (u, db') →
  db' = db ∨ ∃ t offering row, uuid_in (journal_TenantID r) = Some t ∧
    uuid_in (journal_OfferingID r) = Some offering ∧
    is_Some (gateway_journal db !! (t, journal_RequestID r)) ∧
    journal_OfferingID row = offering ∧ journal_Status row = journal_Status r ∧
    journal_RetryCount row = journal_RetryCount r ∧
    db' = set_gateway_journal (<[(t, journal_RequestID r) := row]> (gateway_journal db)) db.
Proof.
  unfold sql_complete_journal, cast. intros Hr. result_inv Hr.
  destruct (gateway_journal db !! _) eqn:Hrow; [|injection Hr as _ <-; by left].
  destruct (tenant_scoped _ _); [|injection Hr as _ <-; by left].
  result_inv Hr. injection Hr as _ <-. right.
  eexists _, _, _. split_and!; [done|done| | | | |reflexivity]; [|done..].
  rewrite Hrow. eauto.
Qed.

Lemma AdmitRequest_Ok rec db ev u db' :
  run (AdmitRequest rec) db ev = (Ok u, db') →
  ∃ t row, uuid_in (journal_TenantID rec) = Some t ∧
    gateway_journal db !! (t, journal_RequestID rec) = None ∧
    journal_Status row = RequestStatusAdmitted ∧
    db' = set_gateway_journal (<[(t, journal_RequestID rec) := row]> (gateway_journal db)) db.
Proof.
  intros (s & Hs & ->)%run_Ok. unfold AdmitRequest in Hs. tx_inv_core Hs.
  cbn in *. match goal with Hc : Some _ = _ |- _ => injection Hc as <- | _ => idtac end.
  by match goal with Hi : sql_insert_journal _ _ _ = _ |- _ =>
    apply sql_insert_journal_Ok in Hi end.
Qed.

#[local] Instance along_insert_journal rec : along journal_kept (exec (sql_insert_journal rec)).
Proof.
  apply (along_exec journal_kept). intros sc db a db' (t & row & _ & _ & _ & ->)%sql_insert_journal_Ok.
  apply insert_kept.
Qed.

#[local] Instance along_complete_journal rec at_ :
  along journal_kept (exec (sql_complete_journal rec at_)).
Proof.
  apply (along_exec journal_kept).
  intros sc db a db' [->|(t & o & row & _ & _ & _ & _ & _ & _ & ->)]%sql_complete_journal_Ok;
    [done|apply insert_kept].
Qed.

#[local] Instance along_gateway_outbox clock t event :
  along journal_kept (exec (sql_insert_gateway_outbox clock t event)).
Proof.
  apply (along_exec journal_kept). unfold sql_insert_gateway_outbox. intros sc db a db' Hr.
  result_inv Hr. injection Hr as _ <-. by intros k.
Qed.

Lemma AdmitRequest_kept rec db ev : journal_kept db (run (AdmitRequest rec) db ev).2.
Proof. apply (run_along journal_kept). unfold AdmitRequest. apply _. Qed.

Lemma CompleteRequest_kept now rec event db ev :
  journal_kept db (run (CompleteRequest now rec event) db ev).2.
Proof.
  apply (run_along journal_kept). unfold CompleteRequest. destruct event; apply _.
Qed.

(** The row of a completed request, from its record. *)
Definition records (rec row : JournalRecord) : Prop :=
  journal_Status row = journal_Status rec ∧
  journal_RetryCount row = journal_RetryCount rec ∧
  uuid_in (journal_OfferingID rec) = Some (journal_OfferingID row).

Definition writes (rec : JournalRecord) : relation gateway_tables := λ db db',
  ∀ k, gateway_journal db' !! k = gateway_journal db !! k ∨
    ∃ row, gateway_journal db' !! k = Some row ∧ records rec row.

#[local] Instance writes_preorder rec : PreOrder (writes rec).
Proof.
  split; [by left|]. intros db1 db2 db3 H12 H23 k.
  destruct (H23 k) as [->|?]; [|by right]. apply H12.
Qed.

Lemma CompleteRequest_writes now rec event db ev :
  writes rec db (run (CompleteRequest now rec event) db ev).2.
Proof.
  assert (along (writes rec) (E := error) (exec (sql_complete_journal rec
            (default now (journal_CompletedAt rec))))).
  { apply (along_exec (writes rec)).
    intros sc db0 a db' [->|(t & o & row & _ & Ho & _ & <- & Hs & Hr & ->)]
      %sql_complete_journal_Ok k; [by left|]. cbn.
    destruct (decide ((t, journal_RequestID rec) = k)) as [<-|Hne].
    - rewrite lookup_insert_eq. right. by exists row.
    - rewrite lookup_insert_ne by done. by left. }
  assert (∀ clock t x, along (writes rec) (E := error)
            (exec (sql_insert_gateway_outbox clock t x))).
  { intros clock t x. apply (along_exec (writes rec)). unfold sql_insert_gateway_outbox.
    intros sc db0 a db' Hr. result_inv Hr. injection Hr as _ <-. by left. }
  apply (run_along (writes rec)). unfold CompleteRequest. destruct event; apply _.
Qed.

(** ** The routes *)

Section Routes.
Variable service : Service.
Variable onChunk : nat → StreamChunk → option error.
Variables (tenantID : string) (req : InferenceRequest).

(** What route [n] answers. *)
Definition attempt (n : nat) (route : InferenceRoute) : result error InferenceResult :=
  ka ← route_adapter service n tenantID route; adapter_Complete ka.2 n route ka.1 req.

(** The providers called when all routes of a list are tried. *)
Fixpoint callable (n : nat) (routes : list InferenceRoute) : list InferenceRoute :=
  match routes with
  | [] => []
  | route :: rest =>
      (if is_ok (route_adapter service n tenantID route) then [route] else [])
      ++ callable (S n) rest
  end.

Definition fails (n : nat) (routes : list InferenceRoute) : Prop :=
  ∀ m r, routes !! m = Some r → is_ok (attempt (n + m) r) = false.

Lemma fails_cons n route routes :
  is_ok (attempt n route) = false → fails (S n) routes → fails n (route :: routes).
Proof.
  intros Hr Hrs [|m] r; cbn; [intros [= <-]; by rewrite Nat.add_0_r|].
  intros Hm. rewrite <-plus_n_Sm. by apply Hrs.
Qed.

Lemma try_complete_spec first n routes st :
  routing_selected st = None →
  let st' := try_complete service tenantID req first n routes st in
  (routing_selected st' = None ∧ fails n routes) ∨
  ∃ k route res, routes !! k = Some route ∧ attempt (n + k) route = Ok res ∧
    fails n (take k routes) ∧ routing_selected st' = Some (route, res) ∧
    routing_retryCount st' = routing_retryCount st + Z.of_nat k ∧
    routing_calls st' = routing_calls st ++ callable n (take (S k) routes).
Proof.
  revert n st. induction routes as [|route routes IH]; intros n st Hst; cbn.
  { by left. }
  assert (∀ e st1, routing_selected st1 = None →
    routing_retryCount st1 = routing_retryCount st + 1 →
    routing_calls st1 = routing_calls st ++ callable n [route] →
    attempt n route = Err e →
    let st' := try_complete service tenantID req first (S n) routes st1 in
    (routing_selected st' = None ∧ fails n (route :: routes)) ∨
    ∃ k r res, (route :: routes) !! k = Some r ∧ attempt (n + k) r = Ok res ∧
      fails n (take k (route :: routes)) ∧ routing_selected st' = Some (r, res) ∧
      routing_retryCount st' = routing_retryCount st + Z.of_nat k ∧
      routing_calls st' = routing_calls st ++ callable n (take (S k) (route :: routes)))
    as Hnext.
  { intros e st1 Hsel Hcount Hcalls He.
    assert (is_ok (attempt n route) = false) as Hf by by rewrite He.
    destruct (IH (S n) st1 Hsel) as [[Hn Hfs]|(k & r & res & Hr & Ha & Hfs & Hs & Hc & Hl)].
    - left. split; [done|]. by apply fails_cons.
    - right. exists (S k), r, res. split_and!; [done| | |done| |].
      + by rewrite <-plus_n_Sm.
      + cbn. by apply fails_cons.
      + rewrite Hc, Hcount. lia.
      + rewrite Hl, Hcalls. cbn [take callable]. by rewrite <-!app_assoc. }
  unfold attempt in Hnext at 1. cbn [take callable] in Hnext.
  destruct (route_adapter service n tenantID route) as [[apiKey adapter]|e] eqn:Hra; cbn in *.
  - destruct (adapter_Complete adapter n route apiKey req) as [res|e] eqn:Hc.
    + right. exists 0%nat, route, res. cbn. rewrite Nat.add_0_r. unfold attempt.
      rewrite Hra. cbn. split_and!; try done; destruct n; cbn; done || lia.
    + apply (Hnext e); destruct n; cbn; done.
  - apply (Hnext e); destruct n; cbn; try done; by rewrite app_nil_r.
Qed.

(** ** Streams *)

(** The chunks offered after those of [ss] come from route [n], and the flag of the first
    chunk tells whether there is any. *)
Definition streams_from (n : nat) (ss ss' : stream_state) : Prop :=
  ∃ more, stream_offered ss' = stream_offered ss ++ more ∧
    (∀ c, c ∈ more → c.1 = n) ∧
    (stream_firstChunkSent ss' = false →
     ss' = ss).

Lemma forward_spec n elapsedMS s ss usage err ss' :
  forward onChunk n elapsedMS s ss = (usage, err, ss') → streams_from n ss ss'.
Proof.
  revert ss. induction s as [u e|chunk continue IH]; intros ss Hf; cbn in Hf.
  - injection Hf as _ _ <-. exists []. rewrite app_nil_r. split_and!; [done| |done].
    by intros c ?%not_elem_of_nil.
  - destruct (IH _ _ Hf) as (more & Hm & Hall & Hfirst). cbn in *.
    exists ((n, chunk) :: more). split_and!.
    + by rewrite Hm, <-app_assoc.
    + intros c [->|Hc]%elem_of_cons; [done|by apply Hall].
    + intros Hf'. specialize (Hfirst Hf'). by subst.
Qed.

(** A route was taken, the [k]th of those left. *)
Definition stream_taken (n : nat) (routes : list InferenceRoute) (st st' : routing TokenUsage)
    (ss' : stream_state) : Prop :=
  ∃ k route usage, routes !! k = Some route ∧
    routing_selected st' = Some (route, usage) ∧
    (∀ c, c ∈ stream_offered ss' → c.1 = (n + k)%nat) ∧
    routing_calls st' = routing_calls st ++ callable n (take k routes) ++ [route] ∧
    (routing_lastErr st' = None → k = 0%nat ∧ routing_lastErr st = None).

Lemma stream_taken_next n route routes st st1 st' ss' e :
  routing_lastErr st1 = Some e →
  routing_calls st1 = routing_calls st ++ callable n [route] →
  stream_taken (S n) routes st1 st' ss' → stream_taken n (route :: routes) st st' ss'.
Proof.
  intros He Hc (k & r & u & Hr & Hs & Hoff & Hcalls & Hlast).
  exists (S k), r, u. split_and!; [done|done| | |].
  - intros c ->%Hoff. lia.
  - rewrite Hcalls, Hc. cbn [take callable]. by rewrite app_nil_r, <-!app_assoc.
  - intros [_ Hn]%Hlast. congruence.
Qed.

Lemma try_stream_spec first elapsedMS n routes st ss st' ss' :
  routing_selected st = None → stream_offered ss = [] → stream_firstChunkSent ss = false →
  try_stream service onChunk tenantID req first elapsedMS n routes st ss = (st', ss') →
  (routing_selected st' = None ∧ stream_offered ss' = []) ∨ stream_taken n routes st st' ss'.
Proof.
  revert n st ss. induction routes as [|route routes IH];
    intros n st ss Hst Hoff Hss Hr; cbn in Hr.
  { injection Hr as <- <-. by left. }
  assert (∀ e st1, routing_selected st1 = None → routing_lastErr st1 = Some e →
    routing_calls st1 = routing_calls st ++ callable n [route] →
    try_stream service onChunk tenantID req first elapsedMS (S n) routes st1 ss
      = (st', ss') →
    (routing_selected st' = None ∧ stream_offered ss' = []) ∨
    stream_taken n (route :: routes) st st' ss') as Hnext.
  { intros e st1 Hsel He Hc Ht. destruct (IH _ _ _ Hsel Hoff Hss Ht) as [?|?]; [by left|].
    right. by eapply stream_taken_next. }
  cbn [callable] in Hnext.
  destruct (route_adapter service n tenantID route) as [[apiKey adapter]|e] eqn:Hra; cbn in *.
  2: { eapply (Hnext e); [..|exact Hr]; destruct n; cbn; try done; by rewrite app_nil_r. }
  destruct (forward _ _ _ _ _) as [[usage err] ss1] eqn:Hf.
  destruct (forward_spec _ _ _ _ _ _ _ Hf) as (more & Hm & Hall & Hfirst).
  rewrite Hoff in Hm. cbn in Hm.
  assert (∀ lastErr, (lastErr = None → routing_lastErr st = None) → ss' = ss1 →
    st' = route_selected route usage lastErr (route_called route (falls_back n first st)) →
    stream_taken n (route :: routes) st st' ss') as Htaken.
  { intros lastErr Hl -> ->. exists 0%nat, route, usage. cbn. rewrite Hm, Nat.add_0_r.
    split_and!; try done; [by destruct n|]. by intros ?%Hl. }
  destruct (stream_firstChunkSent ss1) eqn:Hsent.
  - injection Hr as <- <-. right. eapply Htaken; [|done|done].
    destruct err; cbn; [destruct (negb _); cbn; [done|]|]; by destruct n.
  - rewrite (Hfirst eq_refl) in *. destruct err as [e|].
    + eapply (Hnext e); [..|exact Hr]; by destruct n.
    + injection Hr as <- <-. right. eapply Htaken; [|done|done]. by destruct n.
Qed.

End Routes.

(** ** Admission *)

Section Requests.
Variable service : Service.
Implicit Types (claims : RuntimeClaims) (req : InferenceRequest).

Definition budget_refused claims (plan : InferencePlan) : bool :=
  config_RequireBudgetReservation (service_config service)
  && negb (is_ok (service_budgetVerifier service (claims_TenantID claims)
             (claims_AgentID claims) (plan_MaxModelCostMicrousd plan))).

(** Recording how a request ended never fails, and writes its row only. *)
Lemma recordFailure_writes rec status errorCode startTime retryCount fallbackFrom w s :
  ∃ db', recordFailure rec status errorCode startTime retryCount fallbackFrom w s
    = (Ok tt, (S s.1, db')) ∧ journal_kept (world_interfere w s.1 s.2) db'.
Proof.
  unfold recordFailure, mbind, app_bind, pure, try_call, mret, app_ret. cbn [fst snd].
  destruct (run (CompleteRequest _ _ _) _ _) as [r db'] eqn:Hr. exists db'. split; [done|].
  pose proof (CompleteRequest_kept (world_now w 6)
    (failed_record rec status errorCode retryCount fallbackFrom
       (Milliseconds (world_now w 5 - startTime)) (world_now w 6)) None
    (world_interfere w s.1 s.2) (world_env w s.1)) as Hk.
  by rewrite Hr in Hk.
Qed.

Lemma recordCompletion_writes rec claims correlationID outcome errorCode w s :
  ∃ db', recordCompletion service rec claims correlationID outcome errorCode w s
    = (Ok tt, (S s.1, db')) ∧ journal_kept (world_interfere w s.1 s.2) db' ∧
    writes rec (world_interfere w s.1 s.2) db'.
Proof.
  unfold recordCompletion, mbind, app_bind, pure, try_call, mret, app_ret. cbn [fst snd].
  set (event := createUsageEvent service rec claims correlationID outcome errorCode w).
  pose proof (CompleteRequest_kept 0 rec event (world_interfere w s.1 s.2)
                (world_env w s.1)) as Hk.
  pose proof (CompleteRequest_writes 0 rec event (world_interfere w s.1 s.2)
                (world_env w s.1)) as Hw.
  destruct (run (CompleteRequest _ _ _) _ _) as [r db']. by exists db'.
Qed.

(** A request is served when it has a route, its row was inserted in the journal and the
    budget allows it. *)
Lemma admission_cases {R} claims req streamed serve w db r s :
  admission service claims req streamed serve w (0%nat, db)
    = (r : result error (execution R), s) →
  (∃ e, r = Ok (refused e)) ∨
  ∃ plan first rest db1,
    service_resolver service (claims_TenantID claims) (claims_AgentID claims) = Ok plan ∧
    buildRouteChain plan (request_Model req) = first :: rest ∧
    budget_refused claims plan = false ∧
    let rec := admitted_record claims req first streamed (world_now w 0%nat) in
    run (AdmitRequest rec) (world_interfere w 0%nat db) (world_env w 0%nat) = (Ok tt, db1) ∧
    serve first (first :: rest) rec (world_now w 0%nat) w (1%nat, db1) = (r, s).
Proof.
  unfold admission, mret, app_ret, mbind, app_bind at 1, pure. cbn [fst snd]. intros Hr.
  destruct (service_resolver _ _ _) as [plan|e]; [|idtac]. 2: { injection Hr as <- _. eauto. }
  destruct (buildRouteChain plan _) as [|first rest] eqn:Hroutes;
    [injection Hr as <- _; eauto|].
  unfold app_bind at 1, try_call in Hr.
  cbn [fst snd] in Hr.
  destruct (run (AdmitRequest _) _ _) as [[[]|e] db1] eqn:Hadmit; cbn [fst snd] in Hr;
    [|injection Hr as <- _; eauto].
  fold (budget_refused claims plan) in Hr.
  destruct (budget_refused claims plan) eqn:Hb.
  - left. unfold app_bind in Hr. destruct (recordFailure_writes
      (admitted_record claims req first streamed (world_now w 0%nat)) RequestStatusFailed
      "budget_exceeded" (world_now w 0%nat) 0 None w (1%nat, db1)) as (db2 & Hf & _).
    rewrite Hf in Hr. injection Hr as <- _. eauto.
  - right. exists plan, first, rest, db1. by rewrite Hadmit.
Qed.

(** ** The journal along a request *)

Section Kept.
Context (w : world) (Hw : ∀ n db, journal_kept db (world_interfere w n db)).
#[local] Notation safe := (safe journal_kept w).

Lemma recordFailure_safe rec status errorCode startTime retryCount fallbackFrom :
  safe (recordFailure rec status errorCode startTime retryCount fallbackFrom).
Proof.
  intros s. destruct (recordFailure_writes rec status errorCode startTime retryCount
    fallbackFrom w s) as (db' & -> & Hk). etrans; [apply Hw|exact Hk].
Qed.

Lemma recordCompletion_safe rec claims correlationID outcome errorCode :
  safe (recordCompletion service rec claims correlationID outcome errorCode).
Proof.
  intros s. destruct (recordCompletion_writes rec claims correlationID outcome errorCode w s)
    as (db' & -> & Hk & _). etrans; [apply Hw|exact Hk].
Qed.

Lemma admission_safe {R} claims req streamed serve :
  (∀ first routes rec startTime, safe (serve first routes rec startTime)) →
  safe (admission service claims req streamed serve : app (execution R)).
Proof.
  intros Hserve. unfold admission. apply safe_bind; [apply _|apply safe_pure; apply _|].
  intros startTime. destruct (service_resolver _ _ _); [|apply safe_ret; apply _].
  destruct (buildRouteChain _ _); [apply safe_ret; apply _|].
  apply safe_bind; [apply _|apply safe_try_call; [apply _|exact Hw|apply AdmitRequest_kept]|].
  intros [u|e]; [|apply safe_ret; apply _]. destruct (_ && _); [|apply Hserve].
  apply safe_bind; [apply _|apply recordFailure_safe|intros []; apply safe_ret; apply _].
Qed.

Lemma Execute_serve_safe claims req first routes rec startTime :
  safe (Execute_serve service claims req first routes rec startTime).
Proof.
  apply safe_bind; [apply _|apply safe_pure; apply _|]. intros now.
  destruct (routing_selected _) as [[selected res]|];
    (apply safe_bind; [apply _|apply recordCompletion_safe || apply recordFailure_safe|
                       intros []; apply safe_ret; apply _]).
Qed.

Lemma ExecuteStream_serve_safe onChunk claims req first routes rec startTime :
  safe (ExecuteStream_serve service onChunk claims req first routes rec startTime).
Proof.
  apply safe_bind; [apply _|apply safe_pure; apply _|]. intros elapsedMS.
  destruct (try_stream _ _ _ _ _ _ _ _ _ _) as [st ss].
  apply safe_bind; [apply _|apply safe_pure; apply _|]. intros now.
  destruct (routing_selected st) as [[selected usage]|];
    [destruct (stream_outcome st ss) as [[[? ?] ?] ?]|];
    (apply safe_bind; [apply _|apply recordCompletion_safe || apply recordFailure_safe|
                       intros []; apply safe_ret; apply _]).
Qed.

End Kept.

(** ** The two use cases, once admitted *)

Lemma Execute_serve_run claims req first routes rec startTime w s r s' :
  Execute_serve service claims req first routes rec startTime w s = (r, s') →
  let st := try_complete service (claims_TenantID claims) req first 0 routes (no_routing _) in
  match routing_selected st with
  | None => r = Ok {| execution_result := Err ErrProviderCallFailed;
                      execution_calls := routing_calls st; execution_offered := [] |}
  | Some (selected, res) =>
      r = Ok {| execution_result := Ok res; execution_calls := routing_calls st;
                execution_offered := [] |} ∧
      writes (completed_record rec selected RequestStatusSucceeded (result_Usage res) ""
        (routing_retryCount st) (routing_fallbackFrom st)
        (Milliseconds (world_now w 1%nat - startTime)) 0 (world_now w 2%nat))
        (world_interfere w s.1 s.2) s'.2
  end.
Proof.
  unfold Execute_serve, mbind, app_bind, pure, mret, app_ret. cbn [fst snd].
  set (st := try_complete _ _ _ _ _ _ _). intros Hr. cbn zeta.
  destruct (routing_selected st) as [[selected res]|] eqn:Hsel.
  - match type of Hr with context [recordCompletion service ?rec ?c ?i ?o ?e] =>
      destruct (recordCompletion_writes rec c i o e w s) as (db' & Hc & _ & Hwrites) end.
    rewrite Hc in Hr. by injection Hr as <- <-.
  - match type of Hr with context [recordFailure ?rec ?a ?b ?c ?d ?e] =>
      destruct (recordFailure_writes rec a b c d e w s) as (db' & Hc & _) end.
    rewrite Hc in Hr. by injection Hr as <- _.
Qed.

Lemma ExecuteStream_serve_run onChunk claims req first routes rec startTime w s r s' :
  ExecuteStream_serve service onChunk claims req first routes rec startTime w s = (r, s') →
  ∃ elapsedMS st ss,
    try_stream service onChunk (claims_TenantID claims) req first elapsedMS 0 routes
      (no_routing _) no_stream = (st, ss) ∧
    r = Ok {| execution_result :=
                match routing_selected st with
                | None => Err ErrProviderCallFailed
                | Some _ => (stream_outcome st ss).2
                end;
              execution_calls := routing_calls st;
              execution_offered := stream_offered ss |}.
Proof.
  unfold ExecuteStream_serve, mbind, app_bind, pure, mret, app_ret. cbn [fst snd].
  set (elapsedMS := λ n, Milliseconds (world_now w (10 + n)%nat - startTime)).
  destruct (try_stream _ _ _ _ _ _ _ _ _ _) as [st ss] eqn:Hst. intros Hr.
  exists elapsedMS, st, ss. split; [done|].
  destruct (routing_selected st) as [[selected res]|] eqn:Hsel.
  - destruct (stream_outcome st ss) as [[[status outcome] errorCode] res'].
    match type of Hr with context [recordCompletion service ?rec ?c ?i ?o ?e] =>
      destruct (recordCompletion_writes rec c i o e w s) as (db' & Hc & _) end.
    rewrite Hc in Hr. by injection Hr as <- _.
  - match type of Hr with context [recordFailure ?rec ?a ?b ?c ?d ?e] =>
      destruct (recordFailure_writes rec a b c d e w s) as (db' & Hc & _) end.
    rewrite Hc in Hr. by injection Hr as <- _.
Qed.

End Requests.

(** ** At most once *)

(** A request as it arrives, in the world it is served in. *)
Record incoming := {
  incoming_onChunk : option (nat → StreamChunk → option error);
  incoming_claims : RuntimeClaims;
  incoming_request : InferenceRequest;
  incoming_world : world;
}.

(** The providers called for a request, whether it succeeded, and the tables after it. *)
Definition serve_incoming (service : Service) (i : incoming) (db : gateway_tables)
  : list InferenceRoute * bool * gateway_tables :=
  let outcome {R} (x : result error (execution R) * gateway_tables) :=
    match x.1 with
    | Ok ex => (execution_calls ex, is_ok (execution_result ex), x.2)
    | Err _ => ([], false, x.2)
    end in
  match incoming_onChunk i with
  | None =>
      outcome (perform (Execute service (incoming_claims i) (incoming_request i))
                 (incoming_world i) db)
  | Some onChunk =>
      outcome (perform (ExecuteStream service onChunk (incoming_claims i) (incoming_request i))
                 (incoming_world i) db)
  end.

(** One request after the other. *)
Fixpoint serve_all (service : Service) (l : list incoming) (db : gateway_tables)
  : list (list InferenceRoute * bool) :=
  match l with
  | [] => []
  | i :: l =>
      let '(calls, ok, db') := serve_incoming service i db in
      (calls, ok) :: serve_all service l db'
  end.

(** The key of a request: its tenant and the identifier its caller chose. *)
Definition incoming_key (i : incoming) : option (string * string) :=
  t ← uuid_in (claims_TenantID (incoming_claims i));
  Some (t, request_RequestID (incoming_request i)).

(** Other transactions leave requests in the journal. *)
Definition keeps_journal (i : incoming) : Prop :=
  ∀ n db, journal_kept db (world_interfere (incoming_world i) n db).

(** A request that called a provider or succeeded has inserted its row. *)
Lemma served_admitted {R} service claims req streamed serve w db r s :
  (∀ n d, journal_kept d (world_interfere w n d)) →
  (∀ first routes rec startTime,
     safe journal_kept w (serve first routes rec startTime : app (execution R))) →
  perform (admission service claims req streamed serve) w db = (r, s) →
  journal_kept db s ∧
  ((∃ e, r = Ok (refused e)) ∨
   ∃ t, uuid_in (claims_TenantID claims) = Some t ∧
     gateway_journal (world_interfere w 0%nat db) !! (t, request_RequestID req) = None ∧
     is_Some (gateway_journal s !! (t, request_RequestID req))).
Proof.
  intros Hw Hserve Hp. split.
  { pose proof (safe_perform journal_kept w _ db
      (admission_safe service w Hw claims req streamed serve Hserve)) as Hk.
    by rewrite Hp in Hk. }
  apply perform_Ok in Hp as (s' & Hr & <-).
  destruct (admission_cases _ _ _ _ _ _ _ _ _ Hr)
    as [?|(plan & first & rest & db1 & _ & _ & _ & Hadmit & Hs)]; [by left|right].
  apply AdmitRequest_Ok in Hadmit as (t & row & Ht & Hnone & _ & Hdb1).
  exists t. split_and!; [done|done|].
  specialize (Hserve first (first :: rest)
    (admitted_record claims req first streamed (world_now w 0%nat)) (world_now w 0%nat)
    (1%nat, db1)).
  rewrite Hs in Hserve. apply Hserve. cbn. rewrite Hdb1. cbn. rewrite lookup_insert_eq. eauto.
Qed.

Lemma serve_incoming_admitted service i db calls ok db' :
  keeps_journal i → serve_incoming service i db = (calls, ok, db') →
  journal_kept db db' ∧
  (calls = [] ∧ ok = false ∨
   ∃ k, incoming_key i = Some k ∧
     gateway_journal (world_interfere (incoming_world i) 0%nat db) !! k = None ∧
     is_Some (gateway_journal db' !! k)).
Proof.
  intros Hw. unfold serve_incoming, incoming_key.
  destruct i as [mode claims req w]. unfold keeps_journal in Hw. cbn in *.
  assert (∀ R (m : app (execution R)) streamed serve,
    m = admission service claims req streamed serve →
    (∀ first routes rec startTime, safe journal_kept w (serve first routes rec startTime)) →
    match (perform m w db).1 with
    | Ok ex => (execution_calls ex, is_ok (execution_result ex), (perform m w db).2)
    | Err _ => ([], false, (perform m w db).2)
    end = (calls, ok, db') →
    journal_kept db db' ∧ (calls = [] ∧ ok = false ∨
      ∃ k, (t ← uuid_in (claims_TenantID claims); Some (t, request_RequestID req)) = Some k ∧
        gateway_journal (world_interfere w 0%nat db) !! k = None ∧
        is_Some (gateway_journal db' !! k))) as Hcase.
  { intros R m streamed serve -> Hserve.
    destruct (perform _ _ _) as [r s] eqn:Hp. cbn [fst snd]. intros Hr.
    assert (db' = s) as -> by (by destruct r; injection Hr as _ _ <-).
    destruct (served_admitted _ _ _ _ _ _ _ _ _ Hw Hserve Hp)
      as [Hk [[e ->]|(t & Ht & Hnone & Hsome)]]; (split; [exact Hk|]).
    - injection Hr as <- <-. by left.
    - right. rewrite Ht. by exists (t, request_RequestID req). }
  destruct mode as [onChunk|]; cbn zeta beta; eapply Hcase; try reflexivity; intros.
  - by apply ExecuteStream_serve_safe.
  - by apply Execute_serve_safe.
Qed.

(** The key of a row already in the journal is refused. *)
Lemma serve_incoming_known service i k db calls ok db' :
  keeps_journal i → incoming_key i = Some k → is_Some (gateway_journal db !! k) →
  serve_incoming service i db = (calls, ok, db') → calls = [] ∧ ok = false.
Proof.
  intros Hw Hk Hrow Hs. destruct (serve_incoming_admitted _ _ _ _ _ _ Hw Hs)
    as [_ [?|(k' & Hk' & Hnone & _)]]; [done|].
  assert (k' = k) as -> by congruence.
  destruct (Hw 0%nat db k Hrow) as [row Hrow']. congruence.
Qed.

Lemma serve_all_known service l k db j i calls ok :
  (∀ i, i ∈ l → keeps_journal i) → is_Some (gateway_journal db !! k) →
  l !! j = Some i → incoming_key i = Some k →
  serve_all service l db !! j = Some (calls, ok) → calls = [] ∧ ok = false.
Proof.
  revert db j. induction l as [|x l IH]; intros db j Hl Hrow; [done|]. cbn.
  destruct (serve_incoming service x db) as [[c o] db1] eqn:Hs.
  assert (keeps_journal x) as Hx by (apply Hl; by left).
  destruct j as [|j]; cbn.
  - intros [= ->] Hk [= <- <-]. by eapply serve_incoming_known.
  - intros Hi Hk Hj. eapply (IH db1); [|..|done]; try done.
    + intros y Hy. apply Hl. by right.
    + by apply (serve_incoming_admitted _ _ _ _ _ _ Hx Hs).
Qed.

(** C26 (a request runs once). Of the requests of a tenant that carry the same identifier,
    streamed or not, retried or repeated in any order and among any others, only one is
    ever sent to a provider or answered with a success: once one has, every later one is
    refused before any provider is called. *)
Theorem request_runs_once service l db i j x y calls1 ok1 calls2 ok2 k :
  (∀ z, z ∈ l → keeps_journal z) →
  l !! i = Some x → l !! j = Some y → (i < j)%nat →
  incoming_key x = Some k → incoming_key y = Some k →
  serve_all service l db !! i = Some (calls1, ok1) →
  serve_all service l db !! j = Some (calls2, ok2) →
  (calls1 ≠ [] ∨ ok1 = true) → calls2 = [] ∧ ok2 = false.
Proof.
  revert db i j. induction l as [|z l IH]; intros db i j Hl; [done|]. cbn.
  destruct (serve_incoming service z db) as [[c o] db1] eqn:Hs.
  assert (keeps_journal z) as Hz by (apply Hl; by left).
  assert (∀ z, z ∈ l → keeps_journal z) as Hl' by (intros y' Hy; apply Hl; by right).
  destruct j as [|j]; [lia|]. destruct i as [|i]; cbn.
  - intros [= ->] Hy _ Hkx Hky [= -> ->] Hj Hcalled.
    destruct (serve_incoming_admitted _ _ _ _ _ _ Hz Hs)
      as [_ [[-> ->]|(k' & Hk' & _ & Hrow)]]; [by destruct Hcalled|].
    assert (k' = k) as -> by congruence. by eapply serve_all_known.
  - intros Hx Hy Hij. apply IH; [done..|lia].
Qed.

(** ** The route that answers *)

Definition routes_of (service : Service) (claims : RuntimeClaims) (req : InferenceRequest)
  : list InferenceRoute :=
  match service_resolver service (claims_TenantID claims) (claims_AgentID claims) with
  | Ok plan => buildRouteChain plan (request_Model req)
  | Err _ => []
  end.

Lemma ExecuteStream_cases service onChunk claims req w db ex db' :
  perform (ExecuteStream service onChunk claims req) w db = (Ok ex, db') →
  (∃ e, ex = refused e) ∨
  ∃ st ss, routes_of service claims req ≠ [] ∧
    (routing_selected st = None ∧ stream_offered ss = [] ∨
     stream_taken service (claims_TenantID claims) 0 (routes_of service claims req)
       (no_routing _) st ss) ∧
    ex = {| execution_result := match routing_selected st with
                                | None => Err ErrProviderCallFailed
                                | Some _ => (stream_outcome st ss).2
                                end;
            execution_calls := routing_calls st; execution_offered := stream_offered ss |}.
Proof.
  intros (s & Hr & _)%perform_Ok. unfold ExecuteStream in Hr.
  apply admission_cases in Hr as [[e [= ->]]|(plan & first & rest & db1 & Hp & Hroutes & _ & Hr)];
    [by left; exists e|right].
  destruct Hr as [_ Hr]. apply ExecuteStream_serve_run in Hr as (el & st & ss & Hst & [= ->]).
  exists st, ss. unfold routes_of. rewrite Hp, Hroutes. split_and!; [done| |done].
  eapply try_stream_spec; [..|exact Hst]; reflexivity.
Qed.

(** A stream has one route. All chunks that a client is handed for a request come
    from the same route; it is the last whose provider is called, those before it having
    sent nothing. A stream that has started is never continued by another route. *)
Theorem stream_single_route service onChunk claims req w db ex db' :
  perform (ExecuteStream service onChunk claims req) w db = (Ok ex, db') →
  execution_offered ex ≠ [] →
  ∃ k route, routes_of service claims req !! k = Some route ∧
    (∀ c, c ∈ execution_offered ex → c.1 = k) ∧
    execution_calls ex =
      callable service (claims_TenantID claims) 0 (take k (routes_of service claims req))
      ++ [route] ∧
    execution_result ex ≠ Err ErrProviderCallFailed.
Proof.
  intros [[e ->]|(st & ss & _ & Hst & ->)]%ExecuteStream_cases Hoff; [done|]. cbn in *.
  destruct Hst as [[_ Hnone]|(k & route & usage & Hk & Hsel & Hall & Hcalls & _)]; [done|].
  exists k, route. split_and!; [done|done|done|]. rewrite Hsel. unfold stream_outcome.
  by destruct (stream_clientDisconnected ss), (routing_lastErr st).
Qed.

(** No stream succeeds after a fallback. A streamed request is reported as successful
    only when the first route of the plan served it: the error of a failed route is never
    forgotten, so the complete stream of a fallback route is reported, and recorded, as
    interrupted. *)
Theorem stream_success_first_route service onChunk claims req w db ex db' :
  perform (ExecuteStream service onChunk claims req) w db = (Ok ex, db') →
  execution_result ex = Ok tt →
  ∃ first rest, routes_of service claims req = first :: rest ∧
    execution_calls ex = [first] ∧ ∀ c, c ∈ execution_offered ex → c.1 = 0%nat.
Proof.
  intros [[e ->]|(st & ss & _ & Hst & ->)]%ExecuteStream_cases Hok; [done|]. cbn in *.
  destruct Hst as [[Hnone _]|(k & route & usage & Hk & Hsel & Hall & Hcalls & Hlast)].
  { by rewrite Hnone in Hok. }
  rewrite Hsel in Hok. unfold stream_outcome in Hok.
  destruct (stream_clientDisconnected ss); [done|].
  destruct (routing_lastErr st) eqn:Herr; [done|].
  destruct (Hlast eq_refl) as [-> _].
  destruct (routes_of service claims req) as [|first rest]; [done|]. injection Hk as ->.
  by exists route, rest.
Qed.

(** The first route that answers. A request succeeds with the answer of the first
    route of the plan, in its order, that has a credential, an adapter and an answer; it
    fails after calling providers only when no route has one. When no other transaction
    touches the request's row, the journal then holds the row as admitted (its completion
    was lost) or says which route answered and how many had failed. *)
Theorem execute_first_answer service claims req w db ex db' :
  perform (Execute service claims req) w db = (Ok ex, db') →
  match execution_result ex with
  | Ok res => ∃ k route,
      routes_of service claims req !! k = Some route ∧
      attempt service (claims_TenantID claims) req k route = Ok res ∧
      fails service (claims_TenantID claims) req 0 (take k (routes_of service claims req)) ∧
      ∃ t, uuid_in (claims_TenantID claims) = Some t ∧
        let key := (t, request_RequestID req) in
        ((∀ d, gateway_journal (world_interfere w 1%nat d) !! key = gateway_journal d !! key) →
         ∃ row, gateway_journal db' !! key = Some row ∧
           (journal_Status row = RequestStatusAdmitted ∨
            journal_Status row = RequestStatusSucceeded ∧
            journal_RetryCount row = Z.of_nat k ∧
            uuid_in (route_OfferingId route) = Some (journal_OfferingID row)))
  | Err e => execution_calls ex ≠ [] → e = ErrProviderCallFailed ∧
      fails service (claims_TenantID claims) req 0 (routes_of service claims req)
  end.
Proof.
  intros (s & Hr & <-)%perform_Ok. unfold Execute in Hr.
  apply admission_cases in Hr as [[e [= ->]]|(plan & first & rest & db1 & Hp & Hroutes & _ & Hr)];
    [done|]. destruct Hr as [Hadmit Hr]. unfold routes_of. rewrite Hp, Hroutes.
  apply AdmitRequest_Ok in Hadmit as (t & row & Ht & _ & Hrow & ->). cbn in Ht.
  apply Execute_serve_run in Hr.
  destruct (try_complete_spec service (claims_TenantID claims) req first 0 (first :: rest)
    (no_routing _) eq_refl) as [[Hsel Hf]|(k & route & res & Hk & Ha & Hf & Hsel & Hcount & _)];
    rewrite Hsel in Hr; [by injection Hr as ->|].
  destruct Hr as [[= ->] Hwrites]. cbn. exists k, route. split_and!; [done..|].
  exists t. split; [done|]. intros Hkey. cbn in Hwrites.
  destruct (Hwrites (t, request_RequestID req)) as [Hsame|(row' & Hrow' & Hrec)].
  - rewrite Hkey in Hsame. cbn in Hsame. rewrite lookup_insert_eq in Hsame. eauto.
  - exists row'. split; [done|right]. destruct Hrec as (Hs & Hc & Ho). cbn in *.
    rewrite Hcount in Hc. by rewrite Z.add_0_l in Hc.
Qed.

End Properties.

(** ** Concrete requests

    Two providers, one of which refuses every request, a plan with a fallback, and the
    properties of the gateway at these requests. *)

#[local] Existing Instances concrete_platform.

#[local] Instance text_chat : Chat := {|
  chat_Body := string; chat_Message := string; chat_Delta := string |}.

Inductive gateway_wire :=
| UsageBytes (m : ModelUsageRecorded)
| UsageEnvelope (e : EventEnvelope gateway_wire).

#[local] Instance gateway_wire_proto : Proto := {|
  wire := gateway_wire;
  marshal_envelope e := Some (UsageEnvelope e);
  unmarshal_envelope w := match w with UsageEnvelope e => Some e | _ => None end;
  timestamp_valid _ := true |}.
#[local] Instance usage_proto : GatewayProto := {| marshal_usage m := Some (UsageBytes m) |}.

Definition example_route (n : nat) (provider : string) : InferenceRoute := {|
  route_OfferingId := uuid n; route_ConnectionId := uuid 0; route_ProviderKey := provider;
  route_ProviderModelId := "model"; route_ConnectionType := "byok";
  route_ProviderPoolKey := None; route_ContextWindowTokens := 0;
  route_MaxOutputTokens := 0; route_Capabilities := [] |}.
Definition route_acme := example_route 1 "acme".
Definition route_bolt := example_route 2 "bolt".

Definition example_answer : InferenceResult := {|
  result_ID := "answer"; result_Model := "model"; result_Created := 1; result_Message := "hi";
  result_FinishReason := "stop"; result_Usage := no_usage |}.
Definition example_chunk (text : string) : StreamChunk := {|
  chunk_ID := "chunk"; chunk_Model := "model"; chunk_Created := 1; chunk_Delta := text;
  chunk_FinishReason := None; chunk_Usage := None |}.

(** A provider that refuses, and one that answers. *)
Definition acme : ProviderAdapter := {|
  adapter_ProviderKey := "acme";
  adapter_Complete _ _ _ _ := Err (ErrOther "overloaded");
  adapter_Stream _ _ _ _ := StreamEnd no_usage (Some (ErrOther "overloaded")) |}.
Definition bolt : ProviderAdapter := {|
  adapter_ProviderKey := "bolt";
  adapter_Complete _ _ _ _ := Ok example_answer;
  adapter_Stream _ _ _ _ := StreamNext (example_chunk "h") (λ _,
    StreamNext (example_chunk "i") (λ err, StreamEnd no_usage err)) |}.

Definition example_service (primary : InferenceRoute) (fallbacks : list InferenceRoute)
  : Service :=
  New {| config_EventTopic := "model.events"; config_RequireBudgetReservation := true |}
    (λ _ _, Ok {| plan_PrimaryRoute := Some primary; plan_FastRoute := None;
                  plan_FallbackRoutes := fallbacks; plan_MaxModelCostMicrousd := None |})
    (λ _ _ _, Ok "key") Deferred_CheckBudget [acme; bolt].

(** [acme] first, then [bolt]; and [bolt] alone. *)
Definition two_routes := example_service route_acme [route_bolt].
Definition one_route := example_service route_bolt [].

Definition example_claims : RuntimeClaims := {|
  claims_TenantID := uuid 3; claims_AgentID := uuid 4; claims_ExecutionID := uuid 5;
  claims_WorkflowID := "workflow"; claims_RunID := "run"; claims_StepID := "step";
  claims_IssuedAt := 0; claims_ExpiresAt := 100 |}.
Definition example_request (id : string) : InferenceRequest := {|
  request_RequestID := id; request_CorrelationID := "correlation";
  request_Model := "primary"; request_Body := "hello" |}.

Definition gateway_world : Usecase.world gateway_tables := {|
  world_env _ := {| env_clock := 1000; env_budget := None |};
  world_interfere _ db := db;
  world_ids n := Some (uuid2 7 n);
  world_now _ := 1000 |}.
Definition all_received : nat → StreamChunk → option error := λ _ _, None.

Definition key1 : string * string := (uuid 3, "request-1").

(** ** Completions *)

Definition completed := perform (Execute two_routes example_claims (example_request "request-1"))
  gateway_world no_gateway_tables.

Example completed_by_fallback :
  (execution_result <$> completed.1) = Ok (Ok example_answer) ∧
  (execution_calls <$> completed.1) = Ok [route_acme; route_bolt] ∧
  ((λ r, (journal_Status r, journal_RetryCount r, journal_OfferingID r)) <$>
     gateway_journal completed.2 !! key1) = Some (RequestStatusSucceeded, 1, uuid 2).
Proof. vm_compute. done. Qed.

Lemma completed_Ok : is_ok completed.1 = true.
Proof. vm_compute. done. Qed.

Lemma execute_first_answer_witness :
  ∃ k route, [route_acme; route_bolt] !! k = Some route ∧
    attempt two_routes (uuid 3) (example_request "request-1") k route = Ok example_answer.
Proof.
  pose proof (execute_first_answer two_routes example_claims (example_request "request-1")
    gateway_world no_gateway_tables (get_ok completed.1 completed_Ok) completed.2) as Hr.
  assert (execution_result (get_ok completed.1 completed_Ok) = Ok example_answer) as He
    by (vm_compute; done).
  rewrite He in Hr.
  destruct Hr as (k & route & Hk & Ha & _).
  - rewrite <-get_ok_Ok. apply surjective_pairing.
  - exists k, route. split; [exact Hk|exact Ha].
Defined.

(** ** Streams *)

Definition streamed := perform
  (ExecuteStream two_routes all_received example_claims (example_request "request-1"))
  gateway_world no_gateway_tables.
Definition streamed_first := perform
  (ExecuteStream one_route all_received example_claims (example_request "request-1"))
  gateway_world no_gateway_tables.

(** The client has the complete stream of the second route, and an error. *)
Example complete_stream_interrupted :
  (execution_result <$> streamed.1) = Ok (Err ErrStreamingInterrupted) ∧
  (execution_offered <$> streamed.1)
    = Ok [(1%nat, example_chunk "h"); (1%nat, example_chunk "i")] ∧
  ((λ r, (journal_Status r, journal_ErrorCode r)) <$> gateway_journal streamed.2 !! key1)
    = Some (RequestStatusFailed, "stream_interrupted").
Proof. vm_compute. done. Qed.

Lemma streamed_Ok : is_ok streamed.1 = true.
Proof. vm_compute. done. Qed.
Lemma streamed_first_Ok : is_ok streamed_first.1 = true.
Proof. vm_compute. done. Qed.

Lemma stream_single_route_witness :
  ∃ k route, [route_acme; route_bolt] !! k = Some route ∧
    ∀ c, c ∈ execution_offered (get_ok streamed.1 streamed_Ok) → c.1 = k.
Proof.
  destruct (stream_single_route two_routes all_received example_claims
    (example_request "request-1") gateway_world no_gateway_tables
    (get_ok streamed.1 streamed_Ok) streamed.2) as (k & route & Hk & Hall & _).
  - rewrite <-get_ok_Ok. apply surjective_pairing.
  - by vm_compute.
  - exists k, route. split; [exact Hk|exact Hall].
Defined.

Lemma stream_success_first_route_witness :
  ∃ first rest, [route_bolt] = first :: rest ∧
    execution_calls (get_ok streamed_first.1 streamed_first_Ok) = [first].
Proof.
  destruct (stream_success_first_route one_route all_received example_claims
    (example_request "request-1") gateway_world no_gateway_tables
    (get_ok streamed_first.1 streamed_first_Ok) streamed_first.2)
    as (first & rest & Hf & Hc & _).
  - rewrite <-get_ok_Ok. apply surjective_pairing.
  - by vm_compute.
  - exists first, rest. split; [exact Hf|exact Hc].
Defined.

(** ** Repeated requests *)

Definition incoming_completion : incoming := {|
  incoming_onChunk := None; incoming_claims := example_claims;
  incoming_request := example_request "request-1"; incoming_world := gateway_world |}.
Definition incoming_stream : incoming := {|
  incoming_onChunk := Some all_received; incoming_claims := example_claims;
  incoming_request := example_request "request-1"; incoming_world := gateway_world |}.

Lemma incoming_keep i :
  i ∈ [incoming_completion; incoming_stream] → keeps_journal i.
Proof. intros [->|[->|[]%not_elem_of_nil]%elem_of_cons]%elem_of_cons; by intros n db k. Qed.

Lemma request_runs_once_witness :
  serve_all two_routes [incoming_completion; incoming_stream] no_gateway_tables
    = [([route_acme; route_bolt], true); ([], false)] ∧ @nil InferenceRoute = [] ∧ false = false.
Proof.
  assert (serve_all two_routes [incoming_completion; incoming_stream] no_gateway_tables
    = [([route_acme; route_bolt], true); ([], false)]) as Hs by (vm_compute; done).
  split; [exact Hs|].
  apply (request_runs_once two_routes [incoming_completion; incoming_stream]
    no_gateway_tables 0 1 incoming_completion incoming_stream [route_acme; route_bolt] true
    [] false key1);
    [exact incoming_keep|reflexivity|reflexivity|lia|vm_compute; reflexivity
    |vm_compute; reflexivity|rewrite Hs; reflexivity|rewrite Hs; reflexivity
    |left; discriminate].
Defined.
