(* ===== verification/OrganizationDomain.v ===== *)
(** * Organization: companies and agents

    Models [services/organization-agent/internal/domain], the parameter structs of
    [internal/ports/repository.go] and the checks of values in [internal/application]
    ([validation.go], [pagination.go], the normalizations and the lifecycle of
    [agent.go]). *)

From S2P Require Import Prelude GoStrings Postgres Outbox.
From stdpp Require Import strings list sorting.
From Stdlib Require Import String Ascii Lia.
Open Scope string_scope.
Open Scope list_scope.
Open Scope Z_scope.

(** ** errors.go

    [ErrDatabase] is an error of the database that is passed on unmapped,
    [ErrInternal] every other failure without a sentinel. *)
Inductive error :=
| ErrInvalidArgument
| ErrNotFound
| ErrForbidden
| ErrTenantNotActive
| ErrConflict
| ErrVersionConflict
| ErrHierarchyCycle
| ErrAgentHasReports
| ErrCompanyHasAgents
| ErrInvalidTransition
| ErrDefaultCompany
| ErrDatabase (e : db_error)
| ErrInternal.

#[global] Instance organization_error_eq_dec : EqDecision error.
Proof. solve_decision. Defined.
#[global] Instance organization_db_error : DbError error := ErrDatabase.

(** ** models.go *)

Definition CompanyStatus := string.
Definition CompanyStatusActive : CompanyStatus := "active".
Definition CompanyStatusArchived : CompanyStatus := "archived".

Definition AgentStatus := string.
Definition AgentStatusDraft : AgentStatus := "draft".
Definition AgentStatusProvisioning : AgentStatus := "provisioning".
Definition AgentStatusConfiguringRuntime : AgentStatus := "configuring_runtime".
Definition AgentStatusHealthChecking : AgentStatus := "health_checking".
Definition AgentStatusReady : AgentStatus := "ready".
Definition AgentStatusDegraded : AgentStatus := "degraded".
Definition AgentStatusPaused : AgentStatus := "paused".
Definition AgentStatusFailed : AgentStatus := "failed".
Definition AgentStatusDeleting : AgentStatus := "deleting".
Definition AgentStatusDeleted : AgentStatus := "deleted".

Definition ExecutionProfile := string.
Definition ExecutionProfileBalanced : ExecutionProfile := "balanced".
Definition ExecutionProfilePersistent : ExecutionProfile := "persistent".
Definition ExecutionProfileTechnicalWorker : ExecutionProfile := "technical_worker".

Definition AutonomyLevel := string.
Definition AutonomyObserveOnly : AutonomyLevel := "observe_only".
Definition AutonomySuggest : AutonomyLevel := "suggest".
Definition AutonomyApprovalRequired : AutonomyLevel := "approval_required".
Definition AutonomyPolicyBounded : AutonomyLevel := "policy_bounded".

Record Company := {
  company_TenantID : string;
  company_ID : string;
  company_Slug : string;
  company_DisplayName : string;
  company_Description : string;
  company_Status : CompanyStatus;
  company_IsDefault : bool;
  company_Version : Z;
  company_CreatedByUserID : string;
  company_CreatedAt : Z;
  company_UpdatedAt : Z;
  company_ArchivedAt : option Z;
}.

(** A JSON document; the text of a number stands for it. *)
Inductive json :=
| JNull
| JBool (b : bool)
| JNumber (text : string)
| JString (s : string)
| JArray (items : list json)
| JObject (members : list (string * json)).

(** A [map[string]any], which may be nil, and the document [json.Marshal] makes of it. *)
Definition Configuration : Type := option (list (string * json)).
Definition json_of (c : Configuration) : json :=
  match c with Some members => JObject members | None => JNull end.

Record Agent := {
  agent_TenantID : string;
  agent_CompanyID : string;
  agent_ID : string;
  agent_Slug : string;
  agent_DisplayName : string;
  agent_RoleTitle : string;
  agent_Objective : string;
  agent_ManagerAgentID : option string;
  agent_Status : AgentStatus;
  agent_ExecutionProfile : ExecutionProfile;
  agent_AutonomyLevel : AutonomyLevel;
  agent_Capabilities : list string;
  agent_Configuration : Configuration;
  agent_Version : Z;
  agent_CreatedByUserID : string;
  agent_CreatedAt : Z;
  agent_UpdatedAt : Z;
  agent_DeletedAt : option Z;
}.

(** The snapshot is a JSON document that holds the agent. *)
Record AgentRevision := {
  revision_TenantID : string;
  revision_AgentID : string;
  revision_Version : Z;
  revision_ChangeKind : string;
  revision_Snapshot : Agent;
  revision_ActorUserID : string;
  revision_OccurredAt : Z;
}.

Record HierarchyNode := {
  node_Agent : Agent;
  node_Depth : Z;
}.

(** [encoding/json] on configurations: the bytes, or the failure on a value without a
    JSON form; and PostgreSQL's [pg_column_size] of a [jsonb] value. *)
Class Json := {
  json_Marshal : json → option string;
  pg_column_size : json → Z;
}.

(** ** ports/repository.go *)

Section Ports.
Context `{Proto}.

Record CreateCompanyParams := {
  createCompany_ActorUserID : string;
  createCompany_Company : Company;
  createCompany_Event : OutboxEvent;
}.

Record EnsureDefaultCompanyParams := {
  ensure_ServicePrincipalID : string;
  ensure_OnboardingOperationID : string;
  ensure_Company : Company;
  ensure_Event : OutboxEvent;
}.

Record UpdateCompanyParams := {
  updateCompany_ActorUserID : string;
  updateCompany_Company : Company;
  updateCompany_ExpectedVersion : Z;
  updateCompany_Event : OutboxEvent;
}.

Record CreateAgentParams := {
  createAgent_ActorUserID : string;
  createAgent_Agent : Agent;
  createAgent_Event : OutboxEvent;
}.

Record UpdateAgentParams := {
  updateAgent_ActorUserID : string;
  updateAgent_Agent : Agent;
  updateAgent_ExpectedVersion : Z;
  updateAgent_ChangeKind : string;
  updateAgent_Event : OutboxEvent;
}.

End Ports.

(** ** validation.go *)

(** [^[a-z0-9](?:[a-z0-9-]{0,61}[a-z0-9])?$] *)
Definition is_slug_byte (c : ascii) : bool := is_lower_alnum c || Ascii.eqb c "-"%char.
Definition slugPattern_MatchString (s : string) : bool :=
  match list_ascii_of_string s, rev (list_ascii_of_string s) with
  | first :: rest, last :: _ =>
      is_lower_alnum first && is_lower_alnum last && forallb is_slug_byte rest
      && (len s <=? 63)
  | _, _ => false
  end.

Section Validation.
Context `{Platform, Json}.

Definition validateUUID (value : string) : result error unit :=
  fail_if (negb (is_some (uuid_Parse (TrimSpace value)))) ErrInvalidArgument.

(** The identifiers of a request, checked in the order of a map's iteration: every
    failure is the same error. *)
Definition validateUUIDs (values : list string) : result error unit :=
  fail_if (negb (forallb (λ v, is_some (uuid_Parse (TrimSpace v))) values))
    ErrInvalidArgument.

Definition validateOptionalUUID (value : option string) : result error unit :=
  match value with Some v => validateUUID v | None => Ok tt end.

Definition normalizeSlug (value : string) : result error string :=
  let value := ToLower (TrimSpace value) in
  fail_if (negb (slugPattern_MatchString value)) ErrInvalidArgument;; Ok value.

(** The length is in runes; a string of a message is valid UTF-8. *)
Definition boundedText (value : string) (minimum maximum : Z) : result error string :=
  let value := TrimSpace value in
  fail_if ((char_length value <? minimum) || (maximum <? char_length value))
    ErrInvalidArgument;; Ok value.

(** The capabilities kept so far, then the rest; [strings.ToLower] may lengthen. *)
Fixpoint collect_capabilities (values kept : list string) : result error (list string) :=
  match values with
  | [] => Ok kept
  | value :: values =>
      let value := ToLower (TrimSpace value) in
      fail_if (String.eqb value "" || (128 <? len value)) ErrInvalidArgument;;
      collect_capabilities values
        (if slices_Contains kept value then kept else kept ++ [value])
  end.

Definition normalizeCapabilities (values : list string) : result error (list string) :=
  fail_if (64 <? Z.of_nat (List.length values)) ErrInvalidArgument;;
  kept ← collect_capabilities values [];
  Ok (slices_SortFunc String.compare kept).

Definition forbiddenKeys : list string :=
  ["api_key"; "apikey"; "access_token"; "refresh_token"; "password"; "secret";
   "private_key"].

(** [inspect]: the keys of an object and of the objects that are its values; the members
    of an array are not visited. *)
Fixpoint inspect (v : json) : bool :=
  match v with
  | JObject members =>
      forallb (λ kv, negb (slices_Contains forbiddenKeys (ToLower kv.1)) && inspect kv.2)
        members
  | _ => true
  end.

Definition validateConfiguration (value : Configuration) : result error unit :=
  match value with
  | None => Ok tt
  | Some members =>
      encoded ← from_option_err ErrInvalidArgument (json_Marshal (JObject members));
      fail_if (64 * 1024 <? len encoded) ErrInvalidArgument;;
      fail_if (negb (inspect (JObject members))) ErrInvalidArgument
  end.

(** ** agent.go: normalizations and lifecycle *)

Definition normalizeExecutionProfile (value : ExecutionProfile)
  : result error ExecutionProfile :=
  if String.eqb value "" then Ok ExecutionProfileBalanced
  else fail_if (negb (slices_Contains [ExecutionProfileBalanced; ExecutionProfilePersistent;
                                       ExecutionProfileTechnicalWorker] value))
         ErrInvalidArgument;; Ok value.

Definition normalizeAutonomyLevel (value : AutonomyLevel) : result error AutonomyLevel :=
  if String.eqb value "" then Ok AutonomyApprovalRequired
  else fail_if (negb (slices_Contains [AutonomyObserveOnly; AutonomySuggest;
                                       AutonomyApprovalRequired; AutonomyPolicyBounded] value))
         ErrInvalidArgument;; Ok value.

Definition canPause (status : AgentStatus) : bool :=
  slices_Contains [AgentStatusReady; AgentStatusDegraded; AgentStatusFailed] status.
Definition canResume (status : AgentStatus) : bool := String.eqb status AgentStatusPaused.
Definition canDelete (status : AgentStatus) : bool :=
  slices_Contains [AgentStatusDraft; AgentStatusPaused; AgentStatusFailed] status.

(** ** pagination.go *)

Definition encodePageToken (value : string) : string :=
  if String.eqb value "" then "" else EncodeToString value.

Definition decodePageToken (value : string) : result error string :=
  let value := TrimSpace value in
  if String.eqb value "" then Ok ""
  else from_option_err ErrInvalidArgument (DecodeString value).

Definition normalizePageSize (value : Z) : Z :=
  if value <=? 0 then 50 else if 100 <? value then 100 else value.

(** The cursor of a list request and the token of its next page. *)
Definition page_cursor (pageToken : string) : result error (option string) :=
  cursorValue ← decodePageToken pageToken;
  if String.eqb cursorValue "" then Ok None
  else validateUUID cursorValue;; Ok (Some cursorValue).

Definition nextToken {A} (id : A → string) (limit : Z) (items : list A) : string :=
  match last items with
  | Some x => if Z.of_nat (List.length items) =? limit then encodePageToken (id x) else ""
  | None => ""
  end.

End Validation.
