(* ===== verification/OrganizationStore.v ===== *)
(** * Organization: tables, row security and SQL statements

    Models the tables of [services/organization-agent/migrations] and, one definition per
    statement, the SQL of [company.go], [agent.go] and [hierarchy.go] in
    [services/organization-agent/internal/adapters/postgres]. *)

From S2P Require Import Prelude GoStrings Postgres Outbox OrganizationDomain.
From stdpp Require Import strings gmap list sorting.
From Stdlib Require Import String Lia.
Open Scope string_scope.
Open Scope list_scope.
Open Scope Z_scope.

(** repository.go *)
Definition mapDatabaseError (err : error) : error :=
  match err with
  | ErrDatabase ErrNoRows => ErrNotFound
  | ErrDatabase (ErrUniqueViolation _) => ErrConflict
  | ErrDatabase (ErrForeignKeyViolation _) => ErrInvalidArgument
  | ErrDatabase (ErrCheckViolation _) => ErrInvalidArgument
  | _ => err
  end.

(** ** Checks of the schema *)

Definition company_checks (c : Company) : bool :=
  slices_Contains [CompanyStatusActive; CompanyStatusArchived] (company_Status c)
  && slugPattern_MatchString (company_Slug c)
  && in_bounds 1 120 (char_length (company_DisplayName c))
  && (char_length (company_Description c) <=? 2000)
  && (0 <? company_Version c)
  && Bool.eqb (String.eqb (company_Status c) CompanyStatusArchived)
       (is_some (company_ArchivedAt c)).

Definition is_object (j : json) : bool := match j with JObject _ => true | _ => false end.

Section Checks.
Context `{Json}.

Definition agent_checks (a : Agent) : bool :=
  match agent_ManagerAgentID a with
  | Some m => negb (String.eqb m (agent_ID a)) | None => true end
  && slugPattern_MatchString (agent_Slug a)
  && in_bounds 1 120 (char_length (agent_DisplayName a))
  && in_bounds 1 120 (char_length (agent_RoleTitle a))
  && in_bounds 1 4000 (char_length (agent_Objective a))
  && slices_Contains [AgentStatusDraft; AgentStatusProvisioning;
                      AgentStatusConfiguringRuntime; AgentStatusHealthChecking;
                      AgentStatusReady; AgentStatusDegraded; AgentStatusPaused;
                      AgentStatusFailed; AgentStatusDeleting; AgentStatusDeleted]
       (agent_Status a)
  && slices_Contains [ExecutionProfileBalanced; ExecutionProfilePersistent;
                      ExecutionProfileTechnicalWorker] (agent_ExecutionProfile a)
  && slices_Contains [AutonomyObserveOnly; AutonomySuggest; AutonomyApprovalRequired;
                      AutonomyPolicyBounded] (agent_AutonomyLevel a)
  && (Z.of_nat (List.length (agent_Capabilities a)) <=? 64)
  && is_object (json_of (agent_Configuration a))
  && (pg_column_size (json_of (agent_Configuration a)) <=? 65536)
  && (0 <? agent_Version a)
  && Bool.eqb (String.eqb (agent_Status a) AgentStatusDeleted)
       (is_some (agent_DeletedAt a)).

End Checks.

Definition revision_checks (r : AgentRevision) : bool :=
  slices_Contains ["created"; "updated"; "manager_changed"; "paused"; "resumed"; "deleted"]
    (revision_ChangeKind r).

Record bootstrap_request := {
  bootstrap_TenantID : string;
  bootstrap_CompanyID : string;
  bootstrap_ActorUserID : string;
  bootstrap_CreatedAt : Z;
}.

Section Store.
Context `{Platform, Proto, Json}.

(** ** Tables

    Rows by primary key: the tenant and the row's identifier, for a revision the agent and
    its version, for a bootstrap request the onboarding operation. *)
Record organization_tables := {
  organization_companies : gmap (string * string) Company;
  organization_agents : gmap (string * string) Agent;
  organization_revisions : gmap (string * string * Z) AgentRevision;
  organization_bootstrap : gmap string bootstrap_request;
  organization_outbox : outbox_table;
}.

Definition set_companies v (db : organization_tables) : organization_tables := {|
  organization_companies := v; organization_agents := organization_agents db;
  organization_revisions := organization_revisions db;
  organization_bootstrap := organization_bootstrap db;
  organization_outbox := organization_outbox db |}.
Definition set_agents v (db : organization_tables) : organization_tables := {|
  organization_companies := organization_companies db; organization_agents := v;
  organization_revisions := organization_revisions db;
  organization_bootstrap := organization_bootstrap db;
  organization_outbox := organization_outbox db |}.
Definition set_revisions v (db : organization_tables) : organization_tables := {|
  organization_companies := organization_companies db;
  organization_agents := organization_agents db; organization_revisions := v;
  organization_bootstrap := organization_bootstrap db;
  organization_outbox := organization_outbox db |}.
Definition set_bootstrap v (db : organization_tables) : organization_tables := {|
  organization_companies := organization_companies db;
  organization_agents := organization_agents db;
  organization_revisions := organization_revisions db; organization_bootstrap := v;
  organization_outbox := organization_outbox db |}.
Definition set_organization_outbox v (db : organization_tables) : organization_tables := {|
  organization_companies := organization_companies db;
  organization_agents := organization_agents db;
  organization_revisions := organization_revisions db;
  organization_bootstrap := organization_bootstrap db; organization_outbox := v |}.

Definition no_organization_tables : organization_tables := {|
  organization_companies := ∅; organization_agents := ∅; organization_revisions := ∅;
  organization_bootstrap := ∅;
  organization_outbox := {| outbox_rows := ∅; outbox_next := 1 |} |}.

(** A single row by its key. *)
Definition sql_row {R} (table : organization_tables → gmap (string * string) R)
    (tenantID id : string) (sc : Scope) (db : organization_tables) : result db_error R :=
  r ← rls_of sc; t ← cast tenantID; i ← cast id;
  match table db !! (t, i) with
  | Some row => if tenant_scoped r t then Ok row else Err ErrNoRows
  | None => Err ErrNoRows
  end.

(** The guarded updates: [SET ..., version = version + 1 ... WHERE tenant_id = $1
    AND id = $2 AND version = $3]. The value is the affected-row count; [referenced] is the
    check of the row's foreign keys. *)
Definition sql_versioned_update {R} (table : organization_tables → gmap (string * string) R)
    (set : gmap (string * string) R → organization_tables → organization_tables)
    (version : R → Z) (checks : R → bool) (referenced : R → organization_tables → bool)
    (name tenantID id : string) (expected : Z) (change : R → R)
    (sc : Scope) (db : organization_tables) : result db_error (Z * organization_tables) :=
  r ← rls_of sc; t ← cast tenantID; i ← cast id;
  match table db !! (t, i) with
  | Some row =>
      if tenant_scoped r t && (version row =? expected) then
        fail_if (int64_max <? version row + 1) ErrOutOfRange;;
        fail_if (negb (checks (change row))) (ErrCheckViolation name);;
        fail_if (negb (referenced (change row) db)) (ErrForeignKeyViolation name);;
        Ok (1, set (<[(t, i) := change row]> (table db)) db)
      else Ok (0, db)
  | None => Ok (0, db)
  end.

(** ** company.go *)

Definition company_row (t i u : string) (c : Company) : Company := {|
  company_TenantID := t; company_ID := i; company_Slug := company_Slug c;
  company_DisplayName := company_DisplayName c;
  company_Description := company_Description c; company_Status := company_Status c;
  company_IsDefault := company_IsDefault c; company_Version := company_Version c;
  company_CreatedByUserID := u; company_CreatedAt := timestamptz (company_CreatedAt c);
  company_UpdatedAt := timestamptz (company_UpdatedAt c);
  company_ArchivedAt := timestamptz <$> company_ArchivedAt c |}.

Definition active_default (t : string) (c : Company) : bool :=
  String.eqb (company_TenantID c) t && company_IsDefault c
  && String.eqb (company_Status c) CompanyStatusActive.

Definition sql_insert_company (c : Company) (sc : Scope) (db : organization_tables)
  : result db_error (unit * organization_tables) :=
  r ← rls_of sc; t ← cast (company_TenantID c); i ← cast (company_ID c);
  u ← cast (company_CreatedByUserID c);
  let row := company_row t i u c in
  fail_if (negb (tenant_scoped r t)) (ErrRowSecurity "organization_companies");;
  fail_if (negb (company_checks row)) (ErrCheckViolation "organization_companies");;
  fail_if (is_some (organization_companies db !! (t, i)))
    (ErrUniqueViolation "organization_companies_pkey");;
  fail_if (table_any (λ c', String.eqb (company_TenantID c') t
                            && String.eqb (company_Slug c') (company_Slug row))
             (organization_companies db))
    (ErrUniqueViolation "organization_companies_slug_unique");;
  fail_if (active_default t row && table_any (active_default t) (organization_companies db))
    (ErrUniqueViolation "organization_companies_default_unique");;
  Ok (tt, set_companies (<[(t, i) := row]> (organization_companies db)) db).

Definition sql_company : string → string → Scope → organization_tables →
    result db_error Company := sql_row organization_companies.

Definition sql_list_companies (tenantID : string) (limit : Z) (cursor : option string)
    (includeArchived : bool) (sc : Scope) (db : organization_tables)
  : result db_error (list Company) :=
  r ← rls_of sc; t ← cast tenantID; from ← cast_option cursor;
  Ok (sql_page company_ID limit (λ c,
        String.eqb (company_TenantID c) t && tenant_scoped r t && after from (company_ID c)
        && (includeArchived || String.eqb (company_Status c) CompanyStatusActive))
       (snd <$> map_to_list (organization_companies db))).

Definition sql_update_company := sql_versioned_update organization_companies set_companies
  company_Version company_checks (λ _ _, true) "organization_companies".

Definition company_updated (c row : Company) : Company := {|
  company_TenantID := company_TenantID row; company_ID := company_ID row;
  company_Slug := company_Slug row; company_DisplayName := company_DisplayName c;
  company_Description := company_Description c; company_Status := company_Status row;
  company_IsDefault := company_IsDefault row; company_Version := company_Version row + 1;
  company_CreatedByUserID := company_CreatedByUserID row;
  company_CreatedAt := company_CreatedAt row;
  company_UpdatedAt := timestamptz (company_UpdatedAt c);
  company_ArchivedAt := company_ArchivedAt row |}.

Definition company_archived (c row : Company) : Company := {|
  company_TenantID := company_TenantID row; company_ID := company_ID row;
  company_Slug := company_Slug row; company_DisplayName := company_DisplayName row;
  company_Description := company_Description row; company_Status := CompanyStatusArchived;
  company_IsDefault := company_IsDefault row; company_Version := company_Version row + 1;
  company_CreatedByUserID := company_CreatedByUserID row;
  company_CreatedAt := company_CreatedAt row;
  company_UpdatedAt := timestamptz (company_UpdatedAt c);
  company_ArchivedAt := timestamptz <$> company_ArchivedAt c |}.

(** The agents of a company that are not deleted. *)
Definition employed (t c : string) (a : Agent) : bool :=
  String.eqb (agent_TenantID a) t && String.eqb (agent_CompanyID a) c
  && negb (String.eqb (agent_Status a) AgentStatusDeleted).

Definition sql_company_has_agents (tenantID companyID : string) (sc : Scope)
    (db : organization_tables) : result db_error bool :=
  r ← rls_of sc; t ← cast tenantID; c ← cast companyID;
  Ok (tenant_scoped r t && table_any (employed t c) (organization_agents db)).

(** The company that onboarded the tenant by this operation. *)
Definition sql_bootstrap_company (operationID tenantID : string) (sc : Scope)
    (db : organization_tables) : result db_error string :=
  r ← rls_of sc; o ← cast operationID; t ← cast tenantID;
  match organization_bootstrap db !! o with
  | Some b => if String.eqb (bootstrap_TenantID b) t && tenant_scoped r t
              then Ok (bootstrap_CompanyID b) else Err ErrNoRows
  | None => Err ErrNoRows
  end.

(** The active default company of a tenant: the partial index allows one. *)
Definition sql_default_company (tenantID : string) (sc : Scope) (db : organization_tables)
  : result db_error string :=
  r ← rls_of sc; t ← cast tenantID;
  match List.filter (λ c, active_default t c && tenant_scoped r t)
          (snd <$> map_to_list (organization_companies db)) with
  | c :: _ => Ok (company_ID c)
  | [] => Err ErrNoRows
  end.

(** [ON CONFLICT (onboarding_operation_id) DO NOTHING]; a second operation of the tenant
    violates the other key. *)
Definition sql_record_bootstrap (operationID companyID : string) (company : Company)
    (sc : Scope) (db : organization_tables) : result db_error (unit * organization_tables) :=
  r ← rls_of sc; o ← cast operationID; t ← cast (company_TenantID company);
  c ← cast companyID; u ← cast (company_CreatedByUserID company);
  fail_if (negb (tenant_scoped r t)) (ErrRowSecurity "organization_bootstrap_requests");;
  if is_some (organization_bootstrap db !! o) then Ok (tt, db)
  else
    fail_if (table_any (λ b, String.eqb (bootstrap_TenantID b) t) (organization_bootstrap db))
      (ErrUniqueViolation "organization_bootstrap_requests_tenant_id_key");;
    fail_if (negb (is_some (organization_companies db !! (t, c))))
      (ErrForeignKeyViolation "organization_bootstrap_requests");;
    Ok (tt, set_bootstrap (<[o := {| bootstrap_TenantID := t; bootstrap_CompanyID := c;
                                     bootstrap_ActorUserID := u;
                                     bootstrap_CreatedAt :=
                                       timestamptz (company_CreatedAt company) |}]>
                             (organization_bootstrap db)) db).

(** ** agent.go *)

Definition agent_row (t c i : string) (m : option string) (u : string) (a : Agent) : Agent := {|
  agent_TenantID := t; agent_CompanyID := c; agent_ID := i; agent_Slug := agent_Slug a;
  agent_DisplayName := agent_DisplayName a; agent_RoleTitle := agent_RoleTitle a;
  agent_Objective := agent_Objective a; agent_ManagerAgentID := m;
  agent_Status := agent_Status a; agent_ExecutionProfile := agent_ExecutionProfile a;
  agent_AutonomyLevel := agent_AutonomyLevel a;
  agent_Capabilities := agent_Capabilities a;
  agent_Configuration := agent_Configuration a; agent_Version := agent_Version a;
  agent_CreatedByUserID := u; agent_CreatedAt := timestamptz (agent_CreatedAt a);
  agent_UpdatedAt := timestamptz (agent_UpdatedAt a);
  agent_DeletedAt := timestamptz <$> agent_DeletedAt a |}.

(** [organization_agents_manager_fk]: the manager is an agent of the same company, in
    whatever status. *)
Definition manager_exists (a : Agent) (db : organization_tables) : bool :=
  match agent_ManagerAgentID a with
  | Some m => match organization_agents db !! (agent_TenantID a, m) with
              | Some manager => String.eqb (agent_CompanyID manager) (agent_CompanyID a)
              | None => false
              end
  | None => true
  end.

(** The columns that the [INSERT] leaves out: [deleted_at] is null. *)
Definition sql_insert_agent (a : Agent) (sc : Scope) (db : organization_tables)
  : result db_error (unit * organization_tables) :=
  r ← rls_of sc; t ← cast (agent_TenantID a); c ← cast (agent_CompanyID a);
  i ← cast (agent_ID a); m ← cast_option (agent_ManagerAgentID a);
  u ← cast (agent_CreatedByUserID a);
  let row := agent_row t c i m u a in
  fail_if (negb (tenant_scoped r t)) (ErrRowSecurity "organization_agents");;
  fail_if (negb (agent_checks row)) (ErrCheckViolation "organization_agents");;
  fail_if (is_some (organization_agents db !! (t, i)))
    (ErrUniqueViolation "organization_agents_pkey");;
  fail_if (table_any (λ a', String.eqb (agent_TenantID a') t
                            && String.eqb (agent_CompanyID a') c
                            && String.eqb (agent_Slug a') (agent_Slug row))
             (organization_agents db))
    (ErrUniqueViolation "organization_agents_slug_unique");;
  fail_if (negb (is_some (organization_companies db !! (t, c))))
    (ErrForeignKeyViolation "organization_agents_company_fk");;
  fail_if (negb (manager_exists row db)) (ErrForeignKeyViolation "organization_agents_manager_fk");;
  Ok (tt, set_agents (<[(t, i) := row]> (organization_agents db)) db).

Definition sql_agent : string → string → Scope → organization_tables →
    result db_error Agent := sql_row organization_agents.

Definition sql_list_agents (tenantID companyID : string) (limit : Z)
    (cursor : option string) (includeDeleted : bool) (sc : Scope) (db : organization_tables)
  : result db_error (list Agent) :=
  r ← rls_of sc; t ← cast tenantID; c ← cast companyID; from ← cast_option cursor;
  Ok (sql_page agent_ID limit (λ a,
        String.eqb (agent_TenantID a) t && tenant_scoped r t
        && String.eqb (agent_CompanyID a) c && after from (agent_ID a)
        && (includeDeleted || negb (String.eqb (agent_Status a) AgentStatusDeleted)))
       (snd <$> map_to_list (organization_agents db))).

Definition sql_update_agent := sql_versioned_update organization_agents set_agents
  agent_Version agent_checks manager_exists "organization_agents".

Definition agent_updated (a row : Agent) : Agent := {|
  agent_TenantID := agent_TenantID row; agent_CompanyID := agent_CompanyID row;
  agent_ID := agent_ID row; agent_Slug := agent_Slug row;
  agent_DisplayName := agent_DisplayName a; agent_RoleTitle := agent_RoleTitle a;
  agent_Objective := agent_Objective a; agent_ManagerAgentID := agent_ManagerAgentID row;
  agent_Status := agent_Status row; agent_ExecutionProfile := agent_ExecutionProfile a;
  agent_AutonomyLevel := agent_AutonomyLevel a;
  agent_Capabilities := agent_Capabilities a;
  agent_Configuration := agent_Configuration a; agent_Version := agent_Version row + 1;
  agent_CreatedByUserID := agent_CreatedByUserID row;
  agent_CreatedAt := agent_CreatedAt row;
  agent_UpdatedAt := timestamptz (agent_UpdatedAt a);
  agent_DeletedAt := agent_DeletedAt row |}.

(** A change of the manager, the status or the deletion of a row. *)
Definition agent_moved (manager : option string) (status : AgentStatus)
    (deletedAt : option Z) (a row : Agent) : Agent := {|
  agent_TenantID := agent_TenantID row; agent_CompanyID := agent_CompanyID row;
  agent_ID := agent_ID row; agent_Slug := agent_Slug row;
  agent_DisplayName := agent_DisplayName row; agent_RoleTitle := agent_RoleTitle row;
  agent_Objective := agent_Objective row; agent_ManagerAgentID := manager;
  agent_Status := status; agent_ExecutionProfile := agent_ExecutionProfile row;
  agent_AutonomyLevel := agent_AutonomyLevel row;
  agent_Capabilities := agent_Capabilities row;
  agent_Configuration := agent_Configuration row; agent_Version := agent_Version row + 1;
  agent_CreatedByUserID := agent_CreatedByUserID row;
  agent_CreatedAt := agent_CreatedAt row;
  agent_UpdatedAt := timestamptz (agent_UpdatedAt a); agent_DeletedAt := deletedAt |}.

Definition agent_manager_set (manager : option string) (a row : Agent) : Agent :=
  agent_moved manager (agent_Status row) (agent_DeletedAt row) a row.
Definition sql_set_manager (a : Agent) (expected : Z) (sc : Scope)
    (db : organization_tables) : result db_error (Z * organization_tables) :=
  m ← cast_option (agent_ManagerAgentID a);
  sql_update_agent (agent_TenantID a) (agent_ID a) expected (agent_manager_set m a) sc db.
Definition agent_status_changed (a row : Agent) : Agent :=
  agent_moved (agent_ManagerAgentID row) (agent_Status a) (agent_DeletedAt row) a row.
Definition agent_deleted (a row : Agent) : Agent :=
  agent_moved (agent_ManagerAgentID row) AgentStatusDeleted
    (timestamptz <$> agent_DeletedAt a) a row.

Definition sql_has_reports (tenantID companyID agentID : string) (sc : Scope)
    (db : organization_tables) : result db_error bool :=
  r ← rls_of sc; t ← cast tenantID; c ← cast companyID; i ← cast agentID;
  Ok (tenant_scoped r t
      && table_any (λ a, employed t c a && is_id (agent_ManagerAgentID a) i)
           (organization_agents db)).

Definition sql_insert_revision (v : AgentRevision) (sc : Scope) (db : organization_tables)
  : result db_error (unit * organization_tables) :=
  r ← rls_of sc; t ← cast (revision_TenantID v); i ← cast (revision_AgentID v);
  u ← cast (revision_ActorUserID v);
  let key := (t, i, revision_Version v) in
  fail_if (negb (tenant_scoped r t)) (ErrRowSecurity "organization_agent_revisions");;
  fail_if (negb (revision_checks v)) (ErrCheckViolation "organization_agent_revisions");;
  fail_if (is_some (organization_revisions db !! key))
    (ErrUniqueViolation "organization_agent_revisions_pkey");;
  fail_if (negb (is_some (organization_agents db !! (t, i))))
    (ErrForeignKeyViolation "organization_agent_revisions");;
  Ok (tt, set_revisions (<[key := {|
        revision_TenantID := t; revision_AgentID := i;
        revision_Version := revision_Version v; revision_ChangeKind := revision_ChangeKind v;
        revision_Snapshot := revision_Snapshot v; revision_ActorUserID := u;
        revision_OccurredAt := timestamptz (revision_OccurredAt v) |}]>
        (organization_revisions db)) db).

(** ** hierarchy.go *)

(** [SELECT company_id ... AND status = 'active' FOR UPDATE] *)
Definition sql_lock_company (tenantID companyID : string) (sc : Scope)
    (db : organization_tables) : result db_error string :=
  c ← sql_company tenantID companyID sc db;
  if String.eqb (company_Status c) CompanyStatusActive then Ok (company_ID c)
  else Err ErrNoRows.

(** The row that the recursive term adds to one row of [manager_chain]. *)
Definition chain_parent (t c : string) (db : organization_tables) (visited : list string)
    (row : Agent) : option Agent :=
  m ← agent_ManagerAgentID row;
  parent ← organization_agents db !! (t, m);
  if employed t c parent && negb (slices_Contains visited (agent_ID parent))
  then Some parent else None.

(** The rows of the query from [row] on, in the order it finds them; [None] when [fuel]
    rounds do not end it. *)
Fixpoint chain_from (fuel : nat) (t c : string) (db : organization_tables)
    (visited : list string) (row : Agent) : option (list Agent) :=
  match fuel with
  | O => None
  | S fuel =>
      match chain_parent t c db visited row with
      | None => Some [row]
      | Some parent =>
          rest ← chain_from fuel t c db (visited ++ [agent_ID parent]) parent;
          Some (row :: rest)
      end
  end.

Definition manager_chain (t c manager : string) (db : organization_tables)
  : option (list Agent) :=
  match organization_agents db !! (t, manager) with
  | Some row =>
      if employed t c row
      then chain_from (S (size (organization_agents db))) t c db [agent_ID row] row
      else Some []
  | None => Some []
  end.

(** Whether the agent is in the chain of the proposed manager. *)
Definition sql_would_cycle (tenantID companyID agentID managerAgentID : string)
    (sc : Scope) (db : organization_tables) : result db_error bool :=
  r ← rls_of sc; t ← cast tenantID; c ← cast companyID; m ← cast managerAgentID;
  i ← cast agentID;
  if tenant_scoped r t then
    chain ← from_option_err ErrOutOfRange (manager_chain t c m db);
    Ok (existsb (λ a, String.eqb (agent_ID a) i) chain)
  else Ok false.

(** The reports of the agents of one level of a company's tree, in the order of the
    table. *)
Definition reports_of (t c : string) (db : organization_tables) (level : list Agent)
  : list Agent :=
  List.filter (λ a, employed t c a
                    && existsb (λ h, is_id (agent_ManagerAgentID a) (agent_ID h)) level)
    (snd <$> map_to_list (organization_agents db)).

Fixpoint hierarchy_from (fuel : nat) (t c : string) (db : organization_tables) (depth : Z)
    (level : list Agent) : option (list HierarchyNode) :=
  match level with
  | [] => Some []
  | _ :: _ =>
      match fuel with
      | O => None
      | S fuel =>
          rest ← hierarchy_from fuel t c db (depth + 1) (reports_of t c db level);
          Some (((λ a, {| node_Agent := a; node_Depth := depth |}) <$> level) ++ rest)
      end
  end.

Definition roots_of (t c : string) (db : organization_tables) : list Agent :=
  List.filter (λ a, employed t c a && negb (is_some (agent_ManagerAgentID a)))
    (snd <$> map_to_list (organization_agents db)).

Definition sql_hierarchy (tenantID companyID : string) (sc : Scope)
    (db : organization_tables) : result db_error (list HierarchyNode) :=
  r ← rls_of sc; t ← cast tenantID; c ← cast companyID;
  if tenant_scoped r t then
    from_option_err ErrOutOfRange
      (hierarchy_from (S (size (organization_agents db))) t c db 0 (roots_of t c db))
  else Ok [].

End Store.
