(* ===== verification/OrganizationRepository.v ===== *)
(** * Organization: the repository

    Models [services/organization-agent/internal/adapters/postgres] ([repository.go],
    [company.go], [agent.go], [hierarchy.go]), each method as its sequence of statements.
    Every method that changes agents, and the archiving of a company, begins with the lock
    of the company's row. *)

From S2P Require Import Prelude GoStrings Postgres Usecase Outbox.
From S2P Require Import OrganizationDomain OrganizationStore.
From stdpp Require Import strings gmap list.
From Stdlib Require Import String Lia.
Open Scope string_scope.
Open Scope list_scope.
Open Scope Z_scope.

Section Repository.
Context `{Platform, Proto, Json}.

(** ** repository.go *)

Definition repo (A : Type) : Type := tx organization_tables error A.

Definition beginUserTenant (ctx : Ctx) (tenantID actorUserID : string)
    (read_only : bool) : repo unit :=
  Begin (TenantScope tenantID actorUserID (ctx_RequestID ctx) (ctx_CorrelationID ctx))
    read_only.

Definition beginServiceTenant (ctx : Ctx) (tenantID servicePrincipalID : string)
    (read_only : bool) : repo unit :=
  Begin (ServiceTenantScope tenantID servicePrincipalID (ctx_RequestID ctx)
           (ctx_CorrelationID ctx)) read_only.

Definition insertOutbox (tenantID : string) (event : OutboxEvent) : repo unit :=
  map_err mapDatabaseError
    (now ← clock_timestamp;
     exec (λ _ db, ob ← sql_insert_outbox now tenantID event (organization_outbox db);
                   Ok (tt, set_organization_outbox ob db))).

(** [rejectVersionOrMissing], [rejectAgentVersionOrMissing]: what zero affected rows
    mean. *)
Definition rejectVersionOrMissing {R}
    (row : Scope → organization_tables → result db_error R) : repo unit :=
  _ ← map_err (λ e, match e with ErrDatabase ErrNoRows => ErrNotFound | _ => e end)
        (query row);
  lift (Err ErrVersionConflict).

(** A guarded update and the reading of its affected-row count. *)
Definition versioned {R}
    (update : Scope → organization_tables → result db_error (Z * organization_tables))
    (row : Scope → organization_tables → result db_error R) : repo unit :=
  affected ← map_err mapDatabaseError (exec update);
  if affected =? 0 then rejectVersionOrMissing row else mret tt.

Definition lockCompany (tenantID companyID : string) : repo unit :=
  _ ← map_err mapDatabaseError (query (sql_lock_company tenantID companyID)); mret tt.

(** ** company.go *)

Definition insertCompany (company : Company) : repo unit :=
  map_err mapDatabaseError (exec (sql_insert_company company)).

Definition queryCompany (tenantID companyID : string) : repo Company :=
  map_err mapDatabaseError (query (sql_company tenantID companyID)).

Definition CreateCompany (ctx : Ctx) (params : CreateCompanyParams) : repo Company :=
  let company := createCompany_Company params in
  beginUserTenant ctx (company_TenantID company) (createCompany_ActorUserID params) false;;
  insertCompany company;;
  insertOutbox (company_TenantID company) (createCompany_Event params);;
  commit;; mret company.

Definition recordBootstrapRequest (params : EnsureDefaultCompanyParams) (companyID : string)
  : repo unit :=
  map_err mapDatabaseError
    (exec (sql_record_bootstrap (ensure_OnboardingOperationID params) companyID
             (ensure_Company params))).

(** A query of one row, whose absence the caller tells from other errors. *)
Definition find_row {A} (q : Scope → organization_tables → result db_error A)
  : repo (option A) :=
  query (λ sc db, match q sc db with
                  | Ok a => Ok (Some a)
                  | Err ErrNoRows => Ok None
                  | Err e => Err e
                  end).

(** The advisory lock is one statement without effect on the tables. *)
Definition advisory_lock : repo unit := statement.

Definition EnsureDefaultCompany (ctx : Ctx) (params : EnsureDefaultCompanyParams)
  : repo Company :=
  let company := ensure_Company params in
  let tenantID := company_TenantID company in
  beginServiceTenant ctx tenantID (ensure_ServicePrincipalID params) false;;
  existing ← find_row (sql_bootstrap_company (ensure_OnboardingOperationID params) tenantID);
  match existing with
  | Some companyID => found ← queryCompany tenantID companyID; commit;; mret found
  | None =>
      advisory_lock;;
      existing ← find_row (sql_default_company tenantID);
      match existing with
      | Some companyID =>
          recordBootstrapRequest params companyID;;
          found ← queryCompany tenantID companyID; commit;; mret found
      | None =>
          insertCompany company;;
          recordBootstrapRequest params (company_ID company);;
          insertOutbox tenantID (ensure_Event params);;
          commit;; mret company
      end
  end.

Definition GetCompany (ctx : Ctx) (actorUserID tenantID companyID : string) : repo Company :=
  beginUserTenant ctx tenantID actorUserID true;;
  company ← queryCompany tenantID companyID;
  commit;; mret company.

Definition ListCompanies (ctx : Ctx) (actorUserID tenantID : string) (limit : Z)
    (cursor : option string) (includeArchived : bool) : repo (list Company) :=
  beginUserTenant ctx tenantID actorUserID true;;
  companies ← map_err mapDatabaseError
    (query (sql_list_companies tenantID limit cursor includeArchived));
  commit;; mret companies.

Definition UpdateCompany (ctx : Ctx) (params : UpdateCompanyParams) : repo Company :=
  let company := updateCompany_Company params in
  let tenantID := company_TenantID company in
  beginUserTenant ctx tenantID (updateCompany_ActorUserID params) false;;
  versioned (sql_update_company tenantID (company_ID company)
               (updateCompany_ExpectedVersion params) (company_updated company))
    (sql_company tenantID (company_ID company));;
  insertOutbox tenantID (updateCompany_Event params);;
  commit;; mret company.

Definition ArchiveCompany (ctx : Ctx) (params : UpdateCompanyParams) : repo Company :=
  let company := updateCompany_Company params in
  let tenantID := company_TenantID company in
  beginUserTenant ctx tenantID (updateCompany_ActorUserID params) false;;
  lockCompany tenantID (company_ID company);;
  hasAgents ← query (sql_company_has_agents tenantID (company_ID company));
  lift (fail_if hasAgents ErrCompanyHasAgents);;
  versioned (sql_update_company tenantID (company_ID company)
               (updateCompany_ExpectedVersion params) (company_archived company))
    (sql_company tenantID (company_ID company));;
  insertOutbox tenantID (updateCompany_Event params);;
  commit;; mret company.

(** ** agent.go *)

Definition queryAgent (tenantID agentID : string) : repo Agent :=
  map_err mapDatabaseError (query (sql_agent tenantID agentID)).

Definition insertAgentRevision (agent : Agent) (changeKind actorUserID : string)
    (occurredAt : Z) : repo unit :=
  lift (from_option_err ErrInternal (json_Marshal (json_of (agent_Configuration agent))));;
  map_err mapDatabaseError (exec (sql_insert_revision {|
    revision_TenantID := agent_TenantID agent; revision_AgentID := agent_ID agent;
    revision_Version := agent_Version agent; revision_ChangeKind := changeKind;
    revision_Snapshot := agent; revision_ActorUserID := actorUserID;
    revision_OccurredAt := occurredAt |})).

(** The manager of a new or moved agent is an agent of its company. *)
Definition requireManager (tenantID companyID manager : string) : repo unit :=
  found ← queryAgent tenantID manager;
  lift (fail_if (negb (String.eqb (agent_CompanyID found) companyID)) ErrInvalidArgument).

Definition CreateAgent (ctx : Ctx) (params : CreateAgentParams) : repo Agent :=
  let agent := createAgent_Agent params in
  let tenantID := agent_TenantID agent in
  beginUserTenant ctx tenantID (createAgent_ActorUserID params) false;;
  lockCompany tenantID (agent_CompanyID agent);;
  match agent_ManagerAgentID agent with
  | Some manager => requireManager tenantID (agent_CompanyID agent) manager
  | None => mret tt
  end;;
  lift (from_option_err ErrInternal (json_Marshal (json_of (agent_Configuration agent))));;
  map_err mapDatabaseError (exec (sql_insert_agent agent));;
  insertAgentRevision agent "created" (createAgent_ActorUserID params) (agent_CreatedAt agent);;
  insertOutbox tenantID (createAgent_Event params);;
  commit;; mret agent.

Definition GetAgent (ctx : Ctx) (actorUserID tenantID agentID : string) : repo Agent :=
  beginUserTenant ctx tenantID actorUserID true;;
  agent ← queryAgent tenantID agentID;
  commit;; mret agent.

Definition GetAgentAsService (ctx : Ctx) (tenantID servicePrincipalID agentID : string)
  : repo Agent :=
  beginServiceTenant ctx tenantID servicePrincipalID true;;
  agent ← queryAgent tenantID agentID;
  commit;; mret agent.

Definition ListAgents (ctx : Ctx) (actorUserID tenantID companyID : string) (limit : Z)
    (cursor : option string) (includeDeleted : bool) : repo (list Agent) :=
  beginUserTenant ctx tenantID actorUserID true;;
  agents ← map_err mapDatabaseError
    (query (sql_list_agents tenantID companyID limit cursor includeDeleted));
  commit;; mret agents.

(** What follows the update of an agent's row in every method. *)
Definition recordChange (params : UpdateAgentParams) : repo Agent :=
  let agent := updateAgent_Agent params in
  insertAgentRevision agent (updateAgent_ChangeKind params) (updateAgent_ActorUserID params)
    (agent_UpdatedAt agent);;
  insertOutbox (agent_TenantID agent) (updateAgent_Event params);;
  commit;; mret agent.

(** [updateAgent], with the statement given by its change of the row. *)
Definition updateAgent (ctx : Ctx) (params : UpdateAgentParams) (change : Agent → Agent)
  : repo Agent :=
  let agent := updateAgent_Agent params in
  let tenantID := agent_TenantID agent in
  beginUserTenant ctx tenantID (updateAgent_ActorUserID params) false;;
  lockCompany tenantID (agent_CompanyID agent);;
  versioned (sql_update_agent tenantID (agent_ID agent) (updateAgent_ExpectedVersion params)
               change) (sql_agent tenantID (agent_ID agent));;
  recordChange params.

Definition UpdateAgent (ctx : Ctx) (params : UpdateAgentParams) : repo Agent :=
  let agent := updateAgent_Agent params in
  lift (from_option_err ErrInternal (json_Marshal (json_of (agent_Configuration agent))));;
  updateAgent ctx params (agent_updated agent).

Definition ChangeAgentStatus (ctx : Ctx) (params : UpdateAgentParams) : repo Agent :=
  updateAgent ctx params (agent_status_changed (updateAgent_Agent params)).

Definition hierarchyWouldCycle (tenantID companyID agentID managerAgentID : string)
  : repo bool :=
  query (sql_would_cycle tenantID companyID agentID managerAgentID).

Definition SetAgentManager (ctx : Ctx) (params : UpdateAgentParams) : repo Agent :=
  let agent := updateAgent_Agent params in
  let tenantID := agent_TenantID agent in
  beginUserTenant ctx tenantID (updateAgent_ActorUserID params) false;;
  lockCompany tenantID (agent_CompanyID agent);;
  match agent_ManagerAgentID agent with
  | Some manager =>
      lift (fail_if (String.eqb manager (agent_ID agent)) ErrHierarchyCycle);;
      requireManager tenantID (agent_CompanyID agent) manager;;
      cycle ← hierarchyWouldCycle tenantID (agent_CompanyID agent) (agent_ID agent) manager;
      lift (fail_if cycle ErrHierarchyCycle)
  | None => mret tt
  end;;
  versioned (sql_set_manager agent (updateAgent_ExpectedVersion params))
    (sql_agent tenantID (agent_ID agent));;
  recordChange params.

Definition DeleteAgent (ctx : Ctx) (params : UpdateAgentParams) : repo Agent :=
  let agent := updateAgent_Agent params in
  let tenantID := agent_TenantID agent in
  beginUserTenant ctx tenantID (updateAgent_ActorUserID params) false;;
  lockCompany tenantID (agent_CompanyID agent);;
  hasReports ← query (sql_has_reports tenantID (agent_CompanyID agent) (agent_ID agent));
  lift (fail_if hasReports ErrAgentHasReports);;
  versioned (sql_update_agent tenantID (agent_ID agent) (updateAgent_ExpectedVersion params)
               (agent_deleted agent)) (sql_agent tenantID (agent_ID agent));;
  recordChange params.

(** The rows of [GetHierarchy] have nineteen columns; [scanAgent] has eighteen
    destinations for them, which pgx refuses at the first row. *)
Definition scanNodes (rows : list HierarchyNode) : result error (list HierarchyNode) :=
  match rows with [] => Ok [] | _ :: _ => Err ErrInternal end.

Definition GetHierarchy (ctx : Ctx) (actorUserID tenantID companyID : string)
  : repo (list HierarchyNode) :=
  beginUserTenant ctx tenantID actorUserID true;;
  rows ← map_err mapDatabaseError (query (sql_hierarchy tenantID companyID));
  nodes ← lift (scanNodes rows);
  commit;; mret nodes.

End Repository.
