(* ===== verification/OrganizationService.v ===== *)
(** * Organization: the application layer

    Models [service.go], [events.go], [company.go], [agent.go] and [policy.go] of
    [services/organization-agent/internal/application], the mapping of
    [internal/protoutil] and the tenant authorizer
    ([internal/adapters/authorization/tenant.go]). *)

From S2P Require Import Prelude GoStrings Postgres Usecase Outbox.
From S2P Require TenantDomain.
From S2P Require Import OrganizationDomain OrganizationStore OrganizationRepository.
From stdpp Require Import strings gmap list.
From Stdlib Require Import String Lia.
Open Scope string_scope.
Open Scope list_scope.
Open Scope Z_scope.

#[local] Notation app := (Usecase.app organization_tables error).
#[local] Notation world := (Usecase.world organization_tables).

(** ** protoutil

    An enum constant of [gereh.organization.v1] is named by the domain value it stands
    for, the unspecified one by the empty string. *)
Definition proto_enum (known : list string) (value : string) : string :=
  if slices_Contains known value then value else "".

Definition protoutil_CompanyStatus : string → string :=
  proto_enum [CompanyStatusActive; CompanyStatusArchived].
Definition protoutil_AgentStatus : string → string :=
  proto_enum [AgentStatusDraft; AgentStatusProvisioning; AgentStatusConfiguringRuntime;
              AgentStatusHealthChecking; AgentStatusReady; AgentStatusDegraded;
              AgentStatusPaused; AgentStatusFailed; AgentStatusDeleting; AgentStatusDeleted].
Definition protoutil_executionProfile : string → string :=
  proto_enum [ExecutionProfileBalanced; ExecutionProfilePersistent;
              ExecutionProfileTechnicalWorker].
Definition protoutil_AutonomyLevel : string → string :=
  proto_enum [AutonomyObserveOnly; AutonomySuggest; AutonomyApprovalRequired;
              AutonomyPolicyBounded].

(** The messages have the fields of the domain values. *)
Definition protoutil_Company (c : Company) : Company := {|
  company_TenantID := company_TenantID c; company_ID := company_ID c;
  company_Slug := company_Slug c; company_DisplayName := company_DisplayName c;
  company_Description := company_Description c;
  company_Status := protoutil_CompanyStatus (company_Status c);
  company_IsDefault := company_IsDefault c; company_Version := company_Version c;
  company_CreatedByUserID := company_CreatedByUserID c;
  company_CreatedAt := company_CreatedAt c; company_UpdatedAt := company_UpdatedAt c;
  company_ArchivedAt := company_ArchivedAt c |}.

Definition protoutil_Agent (a : Agent) : Agent := {|
  agent_TenantID := agent_TenantID a; agent_CompanyID := agent_CompanyID a;
  agent_ID := agent_ID a; agent_Slug := agent_Slug a;
  agent_DisplayName := agent_DisplayName a; agent_RoleTitle := agent_RoleTitle a;
  agent_Objective := agent_Objective a; agent_ManagerAgentID := agent_ManagerAgentID a;
  agent_Status := protoutil_AgentStatus (agent_Status a);
  agent_ExecutionProfile := protoutil_executionProfile (agent_ExecutionProfile a);
  agent_AutonomyLevel := protoutil_AutonomyLevel (agent_AutonomyLevel a);
  agent_Capabilities := agent_Capabilities a;
  agent_Configuration := agent_Configuration a; agent_Version := agent_Version a;
  agent_CreatedByUserID := agent_CreatedByUserID a; agent_CreatedAt := agent_CreatedAt a;
  agent_UpdatedAt := agent_UpdatedAt a; agent_DeletedAt := agent_DeletedAt a |}.

(** The event payloads of [gereh.organization.v1]. *)
Inductive OrganizationMessage :=
| CompanyCreated (company : Company)
| CompanyUpdated (company : Company) (updatedByUserID : string)
| CompanyArchived (company : Company) (archivedByUserID : string)
| AgentCreated (agent : Agent)
| AgentUpdated (agent : Agent) (updatedByUserID : string)
| AgentManagerChanged (agent : Agent) (previousManagerAgentID : option string)
    (changedByUserID : string)
| AgentLifecycleChanged (agent : Agent) (previousStatus : AgentStatus)
    (changedByUserID : string)
| AgentDeleted (agent : Agent) (deletedByUserID : string) (deletedAt : Z).

(** [proto.Marshal] of the payloads. *)
Class OrganizationProto `{Proto} := {
  marshal_organization_message : OrganizationMessage → option wire;
}.

Section Service.
Context `{Platform, OrganizationProto, !Json}.

(** ** events.go *)

Definition newOutboxEvent (eventID : option string) (ctx : Ctx)
    (topic key eventType tenantID aggregateType aggregateID : string)
    (aggregateVersion : Z) (payload : OrganizationMessage) (now : Z)
  : result error OutboxEvent :=
  eventID ← from_option_err ErrInternal eventID;
  payloadBytes ← from_option_err ErrInternal (marshal_organization_message payload);
  envelopeBytes ← from_option_err ErrInternal (marshal_envelope {|
    envelope_EventId := eventID; envelope_EventType := eventType;
    envelope_EventVersion := 1; envelope_TenantId := tenantID;
    envelope_AggregateType := aggregateType; envelope_AggregateId := aggregateID;
    envelope_AggregateVersion := aggregateVersion mod 2 ^ 64;
    envelope_OccurredAt := Some now; envelope_Producer := "organization-agent";
    envelope_TraceId := ctx_TraceID ctx; envelope_CorrelationId := ctx_CorrelationID ctx;
    envelope_CausationId := ctx_RequestID ctx; envelope_Payload := payloadBytes |});
  Ok {| event_ID := eventID; event_Topic := topic; event_Key := key;
        event_Envelope := envelopeBytes; event_OccurredAt := now |}.

(** ** service.go *)

Record Config := {
  config_CompanyEventTopic : string;
  config_AgentEventTopic : string;
  config_BootstrapServicePrincipalID : string;
}.

(** [New], with its collaborators present. *)
Definition New (config : Config) : result error Config :=
  fail_if (String.eqb (TrimSpace (config_CompanyEventTopic config)) "") ErrInternal;;
  fail_if (String.eqb (TrimSpace (config_AgentEventTopic config)) "") ErrInternal;;
  validateUUID (config_BootstrapServicePrincipalID config);;
  Ok config.

(** The tenant service's [CheckAuthorization] as its client returns it. *)
Definition Authorization : Type :=
  string → string → TenantDomain.Permission →
  result error (option TenantDomain.AuthorizationDecision).

Variables (config : Config) (CheckAuthorization : Authorization).

(** adapters/authorization/tenant.go *)
Definition Authorizer_Require (actorUserID tenantID : string)
    (permission : TenantDomain.Permission) : result error unit :=
  response ← CheckAuthorization actorUserID tenantID permission;
  decision ← from_option_err ErrInternal response;
  if TenantDomain.decision_Allowed decision then Ok tt
  else if String.eqb (TenantDomain.decision_DenialReason decision)
            TenantDomain.DenialReasonTenantNotActive
          || String.eqb (TenantDomain.decision_DenialReason decision)
               TenantDomain.DenialReasonTenantArchived
  then Err ErrTenantNotActive
  else Err ErrForbidden.

Definition company_event (eventID : option string) (ctx : Ctx) (eventType : string)
    (company : Company) (payload : OrganizationMessage) (now : Z) : result error OutboxEvent :=
  newOutboxEvent eventID ctx (config_CompanyEventTopic config) (company_ID company) eventType
    (company_TenantID company) "company" (company_ID company) (company_Version company)
    payload now.

Definition agent_event (eventID : option string) (ctx : Ctx) (eventType : string)
    (agent : Agent) (payload : OrganizationMessage) (now : Z) : result error OutboxEvent :=
  newOutboxEvent eventID ctx (config_AgentEventTopic config) (agent_ID agent) eventType
    (agent_TenantID agent) "agent" (agent_ID agent) (agent_Version agent) payload now.

(** ** company.go *)

Record CreateCompanyInput := {
  companyIn_ActorUserID : string;
  companyIn_TenantID : string;
  companyIn_Slug : string;
  companyIn_DisplayName : string;
  companyIn_Description : string;
}.

Record UpdateCompanyInput := {
  companyUp_ActorUserID : string;
  companyUp_TenantID : string;
  companyUp_CompanyID : string;
  companyUp_ExpectedVersion : Z;
  companyUp_DisplayName : option string;
  companyUp_Description : option string;
}.

Record EnsureDefaultCompanyInput := {
  ensureIn_TenantID : string;
  ensureIn_OnboardingOperationID : string;
  ensureIn_ActorUserID : string;
  ensureIn_TenantDisplayName : string;
}.

(** [if input.X != nil { ... }] *)
Definition optional {A B} (check : A → result error B) (value : option A) (current : B)
  : result error B :=
  match value with Some v => check v | None => Ok current end.

Definition CreateCompany_params (ctx : Ctx) (input : CreateCompanyInput) (w : world)
  : result error CreateCompanyParams :=
  validateUUID (companyIn_ActorUserID input);;
  validateUUID (companyIn_TenantID input);;
  Authorizer_Require (companyIn_ActorUserID input) (companyIn_TenantID input)
    TenantDomain.PermissionCompanyCreate;;
  slug ← normalizeSlug (companyIn_Slug input);
  displayName ← boundedText (companyIn_DisplayName input) 1 120;
  description ← boundedText (companyIn_Description input) 0 2000;
  companyID ← from_option_err ErrInternal (world_ids w 0%nat);
  let now := world_now w 0%nat in
  let company := {|
    company_TenantID := companyIn_TenantID input; company_ID := companyID;
    company_Slug := slug; company_DisplayName := displayName;
    company_Description := description; company_Status := CompanyStatusActive;
    company_IsDefault := false; company_Version := 1;
    company_CreatedByUserID := companyIn_ActorUserID input; company_CreatedAt := now;
    company_UpdatedAt := now; company_ArchivedAt := None |} in
  event ← company_event (world_ids w 1%nat) ctx "company.created" company
            (CompanyCreated (protoutil_Company company)) now;
  Ok {| createCompany_ActorUserID := companyIn_ActorUserID input;
        createCompany_Company := company; createCompany_Event := event |}.

Definition CreateCompany (ctx : Ctx) (input : CreateCompanyInput) : app Company :=
  params ← pure (CreateCompany_params ctx input);
  call (OrganizationRepository.CreateCompany ctx params).

Definition GetCompany (ctx : Ctx) (actorUserID tenantID companyID : string) : app Company :=
  pure (λ _, validateUUIDs [actorUserID; tenantID; companyID];;
             Authorizer_Require actorUserID tenantID TenantDomain.PermissionCompanyRead);;
  call (OrganizationRepository.GetCompany ctx actorUserID tenantID companyID).

Definition ListCompanies (ctx : Ctx) (actorUserID tenantID : string) (pageSize : Z)
    (pageToken : string) (includeArchived : bool) : app (list Company * string) :=
  pure (λ _, validateUUID actorUserID;; validateUUID tenantID;;
             Authorizer_Require actorUserID tenantID TenantDomain.PermissionCompanyRead);;
  let limit := normalizePageSize pageSize in
  cursor ← pure (λ _, page_cursor pageToken);
  companies ← call (OrganizationRepository.ListCompanies ctx actorUserID tenantID limit
                      cursor includeArchived);
  mret (companies, nextToken company_ID limit companies).

(** [UpdateCompany] between its two repository calls. *)
Definition UpdateCompany_params (ctx : Ctx) (input : UpdateCompanyInput) (company : Company)
    (w : world) : result error UpdateCompanyParams :=
  fail_if (String.eqb (company_Status company) CompanyStatusArchived) ErrInvalidTransition;;
  let now := world_now w 0%nat in
  displayName ← optional (λ v, boundedText v 1 120) (companyUp_DisplayName input)
                  (company_DisplayName company);
  description ← optional (λ v, boundedText v 0 2000) (companyUp_Description input)
                  (company_Description company);
  let company := {|
    company_TenantID := company_TenantID company; company_ID := company_ID company;
    company_Slug := company_Slug company; company_DisplayName := displayName;
    company_Description := description; company_Status := company_Status company;
    company_IsDefault := company_IsDefault company;
    company_Version := int64_incr (company_Version company);
    company_CreatedByUserID := company_CreatedByUserID company;
    company_CreatedAt := company_CreatedAt company; company_UpdatedAt := now;
    company_ArchivedAt := company_ArchivedAt company |} in
  event ← company_event (world_ids w 0%nat) ctx "company.updated" company
            (CompanyUpdated (protoutil_Company company) (companyUp_ActorUserID input)) now;
  Ok {| updateCompany_ActorUserID := companyUp_ActorUserID input;
        updateCompany_Company := company;
        updateCompany_ExpectedVersion := companyUp_ExpectedVersion input;
        updateCompany_Event := event |}.

Definition UpdateCompany (ctx : Ctx) (input : UpdateCompanyInput) : app Company :=
  pure (λ _,
    validateUUIDs [companyUp_ActorUserID input; companyUp_TenantID input;
                   companyUp_CompanyID input];;
    Authorizer_Require (companyUp_ActorUserID input) (companyUp_TenantID input)
      TenantDomain.PermissionCompanyUpdate);;
  company ← call (OrganizationRepository.GetCompany ctx (companyUp_ActorUserID input)
                    (companyUp_TenantID input) (companyUp_CompanyID input));
  params ← pure (UpdateCompany_params ctx input company);
  call (OrganizationRepository.UpdateCompany ctx params).

(** [ArchiveCompany] between its two repository calls, for a company not archived yet. *)
Definition ArchiveCompany_params (ctx : Ctx) (actorUserID : string) (expectedVersion : Z)
    (company : Company) (w : world) : result error UpdateCompanyParams :=
  let now := world_now w 0%nat in
  let company := {|
    company_TenantID := company_TenantID company; company_ID := company_ID company;
    company_Slug := company_Slug company; company_DisplayName := company_DisplayName company;
    company_Description := company_Description company;
    company_Status := CompanyStatusArchived;
    company_IsDefault := company_IsDefault company;
    company_Version := int64_incr (company_Version company);
    company_CreatedByUserID := company_CreatedByUserID company;
    company_CreatedAt := company_CreatedAt company; company_UpdatedAt := now;
    company_ArchivedAt := Some now |} in
  event ← company_event (world_ids w 0%nat) ctx "company.archived" company
            (CompanyArchived (protoutil_Company company) actorUserID) now;
  Ok {| updateCompany_ActorUserID := actorUserID; updateCompany_Company := company;
        updateCompany_ExpectedVersion := expectedVersion; updateCompany_Event := event |}.

Definition ArchiveCompany (ctx : Ctx) (actorUserID tenantID companyID : string)
    (expectedVersion : Z) : app Company :=
  pure (λ _, validateUUIDs [actorUserID; tenantID; companyID];;
             Authorizer_Require actorUserID tenantID TenantDomain.PermissionCompanyArchive);;
  company ← call (OrganizationRepository.GetCompany ctx actorUserID tenantID companyID);
  pure (λ _, fail_if (company_IsDefault company) ErrDefaultCompany);;
  if String.eqb (company_Status company) CompanyStatusArchived then mret company
  else
    params ← pure (ArchiveCompany_params ctx actorUserID expectedVersion company);
    call (OrganizationRepository.ArchiveCompany ctx params).

Definition EnsureDefaultCompany_params (ctx : Ctx) (input : EnsureDefaultCompanyInput)
    (w : world) : result error EnsureDefaultCompanyParams :=
  validateUUIDs [ensureIn_TenantID input; ensureIn_OnboardingOperationID input;
                 ensureIn_ActorUserID input];;
  displayName ← boundedText (ensureIn_TenantDisplayName input) 1 120;
  companyID ← from_option_err ErrInternal (world_ids w 0%nat);
  let now := world_now w 0%nat in
  let company := {|
    company_TenantID := ensureIn_TenantID input; company_ID := companyID;
    company_Slug := "main"; company_DisplayName := displayName;
    company_Description := "Default AI organization";
    company_Status := CompanyStatusActive; company_IsDefault := true; company_Version := 1;
    company_CreatedByUserID := ensureIn_ActorUserID input; company_CreatedAt := now;
    company_UpdatedAt := now; company_ArchivedAt := None |} in
  event ← company_event (world_ids w 1%nat) ctx "company.created" company
            (CompanyCreated (protoutil_Company company)) now;
  Ok {| ensure_ServicePrincipalID := config_BootstrapServicePrincipalID config;
        ensure_OnboardingOperationID := ensureIn_OnboardingOperationID input;
        ensure_Company := company; ensure_Event := event |}.

Definition EnsureDefaultCompany (ctx : Ctx) (input : EnsureDefaultCompanyInput)
  : app Company :=
  params ← pure (EnsureDefaultCompany_params ctx input);
  call (OrganizationRepository.EnsureDefaultCompany ctx params).

(** ** agent.go *)

Record CreateAgentInput := {
  agentIn_ActorUserID : string;
  agentIn_TenantID : string;
  agentIn_CompanyID : string;
  agentIn_Slug : string;
  agentIn_DisplayName : string;
  agentIn_RoleTitle : string;
  agentIn_Objective : string;
  agentIn_ManagerAgentID : option string;
  agentIn_ExecutionProfile : ExecutionProfile;
  agentIn_AutonomyLevel : AutonomyLevel;
  agentIn_Capabilities : list string;
  agentIn_Configuration : Configuration;
}.

Record UpdateAgentInput := {
  agentUp_ActorUserID : string;
  agentUp_TenantID : string;
  agentUp_AgentID : string;
  agentUp_ExpectedVersion : Z;
  agentUp_DisplayName : option string;
  agentUp_RoleTitle : option string;
  agentUp_Objective : option string;
  agentUp_ExecutionProfile : option ExecutionProfile;
  agentUp_AutonomyLevel : option AutonomyLevel;
  agentUp_Capabilities : option (list string);
  agentUp_Configuration : Configuration;
}.

Record SetAgentManagerInput := {
  managerIn_ActorUserID : string;
  managerIn_TenantID : string;
  managerIn_AgentID : string;
  managerIn_ExpectedVersion : Z;
  managerIn_ManagerAgentID : option string;
}.

Record LifecycleInput := {
  lifecycle_ActorUserID : string;
  lifecycle_TenantID : string;
  lifecycle_AgentID : string;
  lifecycle_ExpectedVersion : Z;
}.

Definition CreateAgent_params (ctx : Ctx) (input : CreateAgentInput) (w : world)
  : result error CreateAgentParams :=
  validateUUIDs [agentIn_ActorUserID input; agentIn_TenantID input;
                 agentIn_CompanyID input];;
  validateOptionalUUID (agentIn_ManagerAgentID input);;
  Authorizer_Require (agentIn_ActorUserID input) (agentIn_TenantID input)
    TenantDomain.PermissionAgentCreate;;
  slug ← normalizeSlug (agentIn_Slug input);
  displayName ← boundedText (agentIn_DisplayName input) 1 120;
  roleTitle ← boundedText (agentIn_RoleTitle input) 1 120;
  objective ← boundedText (agentIn_Objective input) 1 4000;
  executionProfile ← normalizeExecutionProfile (agentIn_ExecutionProfile input);
  autonomyLevel ← normalizeAutonomyLevel (agentIn_AutonomyLevel input);
  capabilities ← normalizeCapabilities (agentIn_Capabilities input);
  validateConfiguration (agentIn_Configuration input);;
  agentID ← from_option_err ErrInternal (world_ids w 0%nat);
  let now := world_now w 0%nat in
  let agent := {|
    agent_TenantID := agentIn_TenantID input; agent_CompanyID := agentIn_CompanyID input;
    agent_ID := agentID; agent_Slug := slug; agent_DisplayName := displayName;
    agent_RoleTitle := roleTitle; agent_Objective := objective;
    agent_ManagerAgentID := agentIn_ManagerAgentID input; agent_Status := AgentStatusDraft;
    agent_ExecutionProfile := executionProfile; agent_AutonomyLevel := autonomyLevel;
    agent_Capabilities := capabilities; agent_Configuration := agentIn_Configuration input;
    agent_Version := 1; agent_CreatedByUserID := agentIn_ActorUserID input;
    agent_CreatedAt := now; agent_UpdatedAt := now; agent_DeletedAt := None |} in
  event ← agent_event (world_ids w 1%nat) ctx "agent.created" agent
            (AgentCreated (protoutil_Agent agent)) now;
  Ok {| createAgent_ActorUserID := agentIn_ActorUserID input; createAgent_Agent := agent;
        createAgent_Event := event |}.

Definition CreateAgent (ctx : Ctx) (input : CreateAgentInput) : app Agent :=
  params ← pure (CreateAgent_params ctx input);
  call (OrganizationRepository.CreateAgent ctx params).

Definition GetAgent (ctx : Ctx) (actorUserID tenantID agentID : string) : app Agent :=
  pure (λ _, validateUUIDs [actorUserID; tenantID; agentID];;
             Authorizer_Require actorUserID tenantID TenantDomain.PermissionAgentRead);;
  call (OrganizationRepository.GetAgent ctx actorUserID tenantID agentID).

Definition ListAgents (ctx : Ctx) (actorUserID tenantID companyID : string) (pageSize : Z)
    (pageToken : string) (includeDeleted : bool) : app (list Agent * string) :=
  pure (λ _, validateUUIDs [actorUserID; tenantID; companyID];;
             Authorizer_Require actorUserID tenantID TenantDomain.PermissionAgentRead);;
  let limit := normalizePageSize pageSize in
  cursor ← pure (λ _, page_cursor pageToken);
  agents ← call (OrganizationRepository.ListAgents ctx actorUserID tenantID companyID limit
                   cursor includeDeleted);
  mret (agents, nextToken agent_ID limit agents).

(** The agent after a change that is not an update of its description. *)
Definition agent_next (current : Agent) (manager : option string) (status : AgentStatus)
    (deletedAt : option Z) (now : Z) : Agent := {|
  agent_TenantID := agent_TenantID current; agent_CompanyID := agent_CompanyID current;
  agent_ID := agent_ID current; agent_Slug := agent_Slug current;
  agent_DisplayName := agent_DisplayName current;
  agent_RoleTitle := agent_RoleTitle current; agent_Objective := agent_Objective current;
  agent_ManagerAgentID := manager; agent_Status := status;
  agent_ExecutionProfile := agent_ExecutionProfile current;
  agent_AutonomyLevel := agent_AutonomyLevel current;
  agent_Capabilities := agent_Capabilities current;
  agent_Configuration := agent_Configuration current;
  agent_Version := int64_incr (agent_Version current);
  agent_CreatedByUserID := agent_CreatedByUserID current;
  agent_CreatedAt := agent_CreatedAt current; agent_UpdatedAt := now;
  agent_DeletedAt := deletedAt |}.

(** [UpdateAgent] between its two repository calls. *)
Definition UpdateAgent_params (ctx : Ctx) (input : UpdateAgentInput) (current : Agent)
    (w : world) : result error UpdateAgentParams :=
  fail_if (String.eqb (agent_Status current) AgentStatusDeleted) ErrInvalidTransition;;
  let now := world_now w 0%nat in
  displayName ← optional (λ v, boundedText v 1 120) (agentUp_DisplayName input)
                  (agent_DisplayName current);
  roleTitle ← optional (λ v, boundedText v 1 120) (agentUp_RoleTitle input)
                (agent_RoleTitle current);
  objective ← optional (λ v, boundedText v 1 4000) (agentUp_Objective input)
                (agent_Objective current);
  executionProfile ← optional normalizeExecutionProfile (agentUp_ExecutionProfile input)
                       (agent_ExecutionProfile current);
  autonomyLevel ← optional normalizeAutonomyLevel (agentUp_AutonomyLevel input)
                    (agent_AutonomyLevel current);
  capabilities ← optional normalizeCapabilities (agentUp_Capabilities input)
                   (agent_Capabilities current);
  configuration ← match agentUp_Configuration input with
                  | None => Ok (agent_Configuration current)
                  | c => validateConfiguration c;; Ok c
                  end;
  let agent := {|
    agent_TenantID := agent_TenantID current; agent_CompanyID := agent_CompanyID current;
    agent_ID := agent_ID current; agent_Slug := agent_Slug current;
    agent_DisplayName := displayName; agent_RoleTitle := roleTitle;
    agent_Objective := objective; agent_ManagerAgentID := agent_ManagerAgentID current;
    agent_Status := agent_Status current; agent_ExecutionProfile := executionProfile;
    agent_AutonomyLevel := autonomyLevel; agent_Capabilities := capabilities;
    agent_Configuration := configuration;
    agent_Version := int64_incr (agent_Version current);
    agent_CreatedByUserID := agent_CreatedByUserID current;
    agent_CreatedAt := agent_CreatedAt current; agent_UpdatedAt := now;
    agent_DeletedAt := agent_DeletedAt current |} in
  event ← agent_event (world_ids w 0%nat) ctx "agent.updated" agent
            (AgentUpdated (protoutil_Agent agent) (agentUp_ActorUserID input)) now;
  Ok {| updateAgent_ActorUserID := agentUp_ActorUserID input; updateAgent_Agent := agent;
        updateAgent_ExpectedVersion := agentUp_ExpectedVersion input;
        updateAgent_ChangeKind := "updated"; updateAgent_Event := event |}.

Definition UpdateAgent (ctx : Ctx) (input : UpdateAgentInput) : app Agent :=
  pure (λ _,
    validateUUIDs [agentUp_ActorUserID input; agentUp_TenantID input; agentUp_AgentID input];;
    Authorizer_Require (agentUp_ActorUserID input) (agentUp_TenantID input)
      TenantDomain.PermissionAgentUpdate);;
  current ← call (OrganizationRepository.GetAgent ctx (agentUp_ActorUserID input)
                    (agentUp_TenantID input) (agentUp_AgentID input));
  params ← pure (UpdateAgent_params ctx input current);
  call (OrganizationRepository.UpdateAgent ctx params).

(** [SetAgentManager] between its two repository calls. *)
Definition SetAgentManager_params (ctx : Ctx) (input : SetAgentManagerInput)
    (current : Agent) (w : world) : result error UpdateAgentParams :=
  fail_if (String.eqb (agent_Status current) AgentStatusDeleted) ErrInvalidTransition;;
  let now := world_now w 0%nat in
  let agent := agent_next current (managerIn_ManagerAgentID input) (agent_Status current)
                 (agent_DeletedAt current) now in
  event ← agent_event (world_ids w 0%nat) ctx "agent.manager_changed" agent
            (AgentManagerChanged (protoutil_Agent agent) (agent_ManagerAgentID current)
               (managerIn_ActorUserID input)) now;
  Ok {| updateAgent_ActorUserID := managerIn_ActorUserID input; updateAgent_Agent := agent;
        updateAgent_ExpectedVersion := managerIn_ExpectedVersion input;
        updateAgent_ChangeKind := "manager_changed"; updateAgent_Event := event |}.

Definition SetAgentManager (ctx : Ctx) (input : SetAgentManagerInput) : app Agent :=
  pure (λ _,
    validateUUIDs [managerIn_ActorUserID input; managerIn_TenantID input;
                   managerIn_AgentID input];;
    validateOptionalUUID (managerIn_ManagerAgentID input);;
    fail_if (match managerIn_ManagerAgentID input with
             | Some manager => String.eqb manager (managerIn_AgentID input)
             | None => false end) ErrHierarchyCycle;;
    Authorizer_Require (managerIn_ActorUserID input) (managerIn_TenantID input)
      TenantDomain.PermissionAgentHierarchyManage);;
  current ← call (OrganizationRepository.GetAgent ctx (managerIn_ActorUserID input)
                    (managerIn_TenantID input) (managerIn_AgentID input));
  params ← pure (SetAgentManager_params ctx input current);
  call (OrganizationRepository.SetAgentManager ctx params).

(** [changeAgentStatus] between its two repository calls. *)
Definition changeAgentStatus_params (ctx : Ctx) (input : LifecycleInput)
    (target : AgentStatus) (changeKind eventType : string) (current : Agent) (w : world)
  : result error UpdateAgentParams :=
  fail_if (String.eqb target AgentStatusPaused && negb (canPause (agent_Status current)))
    ErrInvalidTransition;;
  fail_if (String.eqb target AgentStatusReady && negb (canResume (agent_Status current)))
    ErrInvalidTransition;;
  let now := world_now w 0%nat in
  let agent := agent_next current (agent_ManagerAgentID current) target
                 (agent_DeletedAt current) now in
  event ← agent_event (world_ids w 0%nat) ctx eventType agent
            (AgentLifecycleChanged (protoutil_Agent agent)
               (protoutil_AgentStatus (agent_Status current))
               (lifecycle_ActorUserID input)) now;
  Ok {| updateAgent_ActorUserID := lifecycle_ActorUserID input; updateAgent_Agent := agent;
        updateAgent_ExpectedVersion := lifecycle_ExpectedVersion input;
        updateAgent_ChangeKind := changeKind; updateAgent_Event := event |}.

Definition changeAgentStatus (ctx : Ctx) (input : LifecycleInput) (target : AgentStatus)
    (changeKind eventType : string) : app Agent :=
  pure (λ _,
    validateUUIDs [lifecycle_ActorUserID input; lifecycle_TenantID input;
                   lifecycle_AgentID input];;
    Authorizer_Require (lifecycle_ActorUserID input) (lifecycle_TenantID input)
      TenantDomain.PermissionAgentLifecycleManage);;
  current ← call (OrganizationRepository.GetAgent ctx (lifecycle_ActorUserID input)
                    (lifecycle_TenantID input) (lifecycle_AgentID input));
  params ← pure (changeAgentStatus_params ctx input target changeKind eventType current);
  call (OrganizationRepository.ChangeAgentStatus ctx params).

Definition PauseAgent (ctx : Ctx) (input : LifecycleInput) : app Agent :=
  changeAgentStatus ctx input AgentStatusPaused "paused" "agent.paused".
Definition ResumeAgent (ctx : Ctx) (input : LifecycleInput) : app Agent :=
  changeAgentStatus ctx input AgentStatusReady "resumed" "agent.resumed".

(** [DeleteAgent] between its two repository calls. *)
Definition DeleteAgent_params (ctx : Ctx) (input : LifecycleInput) (current : Agent)
    (w : world) : result error UpdateAgentParams :=
  fail_if (negb (canDelete (agent_Status current))) ErrInvalidTransition;;
  let now := world_now w 0%nat in
  let agent := agent_next current (agent_ManagerAgentID current) AgentStatusDeleted
                 (Some now) now in
  event ← agent_event (world_ids w 0%nat) ctx "agent.deleted" agent
            (AgentDeleted (protoutil_Agent agent) (lifecycle_ActorUserID input) now) now;
  Ok {| updateAgent_ActorUserID := lifecycle_ActorUserID input; updateAgent_Agent := agent;
        updateAgent_ExpectedVersion := lifecycle_ExpectedVersion input;
        updateAgent_ChangeKind := "deleted"; updateAgent_Event := event |}.

Definition DeleteAgent (ctx : Ctx) (input : LifecycleInput) : app Agent :=
  pure (λ _,
    validateUUIDs [lifecycle_ActorUserID input; lifecycle_TenantID input;
                   lifecycle_AgentID input];;
    Authorizer_Require (lifecycle_ActorUserID input) (lifecycle_TenantID input)
      TenantDomain.PermissionAgentDelete);;
  current ← call (OrganizationRepository.GetAgent ctx (lifecycle_ActorUserID input)
                    (lifecycle_TenantID input) (lifecycle_AgentID input));
  params ← pure (DeleteAgent_params ctx input current);
  call (OrganizationRepository.DeleteAgent ctx params).

Definition GetHierarchy (ctx : Ctx) (actorUserID tenantID companyID : string)
  : app (list HierarchyNode) :=
  pure (λ _, validateUUIDs [actorUserID; tenantID; companyID];;
             Authorizer_Require actorUserID tenantID TenantDomain.PermissionAgentRead);;
  call (OrganizationRepository.GetHierarchy ctx actorUserID tenantID companyID).

(** ** policy.go *)

Definition GetAgentPolicyContext (ctx : Ctx) (tenantID agentID : string) : app Agent :=
  pure (λ _, validateUUID tenantID;; validateUUID agentID);;
  call (OrganizationRepository.GetAgentAsService ctx tenantID
          (config_BootstrapServicePrincipalID config) agentID).

End Service.
