(* ===== verification/OrganizationHierarchy.v ===== *)
(** * Organization: the hierarchy of agents

    What the recursive queries of [hierarchy.go] compute: that they end on every table,
    and which agents they find. *)

From S2P Require Import Prelude GoStrings Postgres Graph Outbox.
From S2P Require Import OrganizationDomain OrganizationStore.
From stdpp Require Import strings gmap fin_maps list relations.
From Stdlib Require Import String Lia.
Open Scope string_scope.
Open Scope list_scope.
Open Scope nat_scope.

Section Hierarchy.
Context `{Platform, Proto, Json}.
Implicit Types (db : organization_tables).

(** The agent [a] of the tenant reports to [m]: neither is deleted. *)
Definition reports_to db (t : string) : relation string := λ a m, ∃ row boss,
  organization_agents db !! (t, a) = Some row ∧
  organization_agents db !! (t, m) = Some boss ∧
  agent_ManagerAgentID row = Some m ∧
  agent_Status row ≠ AgentStatusDeleted ∧ agent_Status boss ≠ AgentStatusDeleted.

(** The rows of the table lie under their keys, and a manager belongs to the company of
    the agents it manages. *)
Record agents_linked db : Prop := {
  linked_keys t i row : organization_agents db !! (t, i) = Some row →
    agent_TenantID row = t ∧ agent_ID row = i;
  linked_manager k row : organization_agents db !! k = Some row → manager_exists row db = true;
}.

Lemma employed_true t c a :
  employed t c a = true ↔
  agent_TenantID a = t ∧ agent_CompanyID a = c ∧ agent_Status a ≠ AgentStatusDeleted.
Proof. unfold employed. rewrite !andb_true_iff, negb_true_iff, !String.eqb_eq, String.eqb_neq. tauto. Qed.

Lemma manager_exists_true row db m :
  manager_exists row db = true → agent_ManagerAgentID row = Some m →
  ∃ boss, organization_agents db !! (agent_TenantID row, m) = Some boss ∧
    agent_CompanyID boss = agent_CompanyID row.
Proof.
  unfold manager_exists. intros Hm E. rewrite E in Hm. destruct (_ !! _) as [boss|] eqn:Hb; [|done].
  apply String.eqb_eq in Hm. eauto.
Qed.

Lemma reports_to_functional db t a m m' : reports_to db t a m → reports_to db t a m' → m = m'.
Proof. intros (? & ? & ? & ? & ? & _) (? & ? & ? & ? & ? & _). congruence. Qed.

Section Chain.
Context db (Hdb : agents_linked db) (t c : string).

(** The next row of the chain of an agent of the company. *)
Lemma chain_parent_Some visited row parent :
  organization_agents db !! (t, agent_ID row) = Some row → employed t c row = true →
  chain_parent t c db visited row = Some parent →
  organization_agents db !! (t, agent_ID parent) = Some parent ∧
  employed t c parent = true ∧ agent_ID parent ∉ visited ∧
  reports_to db t (agent_ID row) (agent_ID parent).
Proof.
  unfold chain_parent. intros Hrow He Hp.
  apply bind_Some in Hp as (m & Hm & (p & Hl & Hp)%bind_Some). case_match eqn:Hc; [|done].
  injection Hp as ->. bool_facts. destruct (linked_keys _ Hdb _ _ _ Hl) as [_ Hid]. subst m.
  split_and!; [done..| |].
  - intros Hv%slices_Contains_true. congruence.
  - apply employed_true in He as (_ & _ & He). exists row, parent. split_and!; [done..|].
    match goal with Hx : employed _ _ parent = true |- _ => by apply employed_true in Hx as (_ & _ & ?) end.
Qed.

Lemma chain_parent_None visited row m :
  organization_agents db !! (t, agent_ID row) = Some row → employed t c row = true →
  chain_parent t c db visited row = None → reports_to db t (agent_ID row) m → m ∈ visited.
Proof.
  unfold chain_parent. intros Hrow He Hp (row' & boss & Hrow' & Hl & Hm & _ & Hs).
  rewrite Hrow in Hrow'. injection Hrow' as <-. rewrite Hm in Hp. cbn in Hp. rewrite Hl in Hp. cbn in Hp.
  apply employed_true in He as (Ht & Hc & _).
  destruct (manager_exists_true _ _ _ (linked_manager _ Hdb _ _ Hrow) Hm) as (b & Hb & Hbc).
  rewrite Ht, Hl in Hb. injection Hb as <-. destruct (linked_keys _ Hdb _ _ _ Hl) as [Hbt Hid].
  assert (employed t c boss = true) as Hb' by (apply employed_true; by rewrite Hbc).
  rewrite Hb', Hid in Hp. cbn in Hp. apply slices_Contains_true.
  by destruct (slices_Contains visited m).
Qed.

(** Every round that does not end the query visits an agent not visited before. *)
Lemma chain_from_total fuel visited row :
  organization_agents db !! (t, agent_ID row) = Some row → employed t c row = true →
  NoDup visited → (∀ x, x ∈ visited → is_Some (organization_agents db !! (t, x))) →
  size (organization_agents db) < fuel + List.length visited →
  is_Some (chain_from fuel t c db visited row).
Proof.
  revert visited row. induction fuel as [|fuel IH]; intros visited row Hrow He Hnd Hin Hfuel.
  - exfalso. enough (List.length visited ≤ size (organization_agents db)) by lia.
    rewrite <-(length_fmap (pair t) visited), <-size_dom.
    rewrite <-(size_list_to_set (C := gset (string * string))) by (by apply NoDup_fmap_2; [intros ?? [=]|]).
    apply subseteq_size. intros k (x & -> & Hx%Hin)%elem_of_list_to_set%list_elem_of_fmap.
    by apply elem_of_dom.
  - cbn. destruct (chain_parent _ _ _ _ _) as [parent|] eqn:Hp; [|done].
    destruct (chain_parent_Some _ _ _ Hrow He Hp) as (Hp1 & Hp2 & Hnew & _).
    destruct (IH (visited ++ [agent_ID parent]) parent) as [rest ->]; [done..| | | |done].
    + apply NoDup_app. split_and!; [done| |apply NoDup_singleton]. intros x Hx ->%list_elem_of_singleton. done.
    + intros x [Hx| ->%list_elem_of_singleton]%elem_of_app; eauto.
    + rewrite length_app. cbn. lia.
Qed.

(** The rows found, with those visited before, are behind the start, and closed. *)
Lemma chain_from_reaches fuel start visited row rows :
  organization_agents db !! (t, agent_ID row) = Some row → employed t c row = true →
  agent_ID row ∈ visited → (∀ x, x ∈ visited → rtc (reports_to db t) start x) →
  (∀ x y, x ∈ visited → x ≠ agent_ID row → reports_to db t x y → y ∈ visited) →
  chain_from fuel t c db visited row = Some rows →
  agent_ID row ∈ agent_ID <$> rows ∧
  let found x := x ∈ visited ∨ x ∈ agent_ID <$> rows in
  (∀ x, found x → rtc (reports_to db t) start x) ∧
  (∀ x y, found x → reports_to db t x y → found y).
Proof.
  revert visited row rows.
  induction fuel as [|fuel IH]; intros visited row rows Hrow He Hv Hsound Hclosed; cbn; [done|].
  destruct (chain_parent _ _ _ _ _) as [parent|] eqn:Hp.
  - destruct (chain_parent_Some _ _ _ Hrow He Hp) as (Hp1 & Hp2 & Hnew & Hedge).
    destruct (chain_from _ _ _ _ _ _) as [rest|] eqn:Hrest; [|done]. intros [= <-].
    assert (∀ x, x ∈ visited ++ [agent_ID parent] → rtc (reports_to db t) start x) as Hs'.
    { intros x [Hx| ->%list_elem_of_singleton]%elem_of_app; [auto|].
      eapply rtc_r; [by apply Hsound|done]. }
    destruct (IH (visited ++ [agent_ID parent]) parent rest) as (Hin & Hfs & Hfc);
      [done|done|set_solver|done| |done|].
    { intros x y [Hx| ->%list_elem_of_singleton]%elem_of_app Hne Hxy; [|done].
      destruct (decide (x = agent_ID row)) as [->|Hx']; [|set_solver].
      rewrite (reports_to_functional _ _ _ _ _ Hxy Hedge). set_solver. }
    split; [set_solver|]. cbn.
    assert (∀ x, x ∈ visited ++ [agent_ID parent] ∨ x ∈ agent_ID <$> rest ↔
                 x ∈ visited ∨ x ∈ agent_ID <$> row :: rest) as Hsame.
    { intros x. rewrite elem_of_app, list_elem_of_singleton. cbn. rewrite elem_of_cons.
      naive_solver. }
    split; [intros x Hx%Hsame; by apply Hfs|intros x y Hx%Hsame Hxy; apply Hsame; by eapply Hfc].
  - intros [= <-]. cbn. split; [set_solver|]. split.
    + intros x [Hx|Hx%list_elem_of_singleton]; [auto|]. subst. auto.
    + intros x y Hx Hxy. left. assert (x ∈ visited) as Hxv by set_solver.
      destruct (decide (x = agent_ID row)) as [->|]; [|by eapply Hclosed].
      by eapply chain_parent_None.
Qed.

(** The query ends on every table. *)
Lemma manager_chain_total m : is_Some (manager_chain t c m db).
Proof.
  unfold manager_chain. destruct (_ !! _) as [row|] eqn:Hrow; [|done].
  destruct (employed t c row) eqn:He; [|done].
  destruct (linked_keys _ Hdb _ _ _ Hrow) as [_ <-].
  apply chain_from_total; [done|done|apply NoDup_singleton| |cbn; lia].
  intros x ->%list_elem_of_singleton. eauto.
Qed.

(** It finds the proposed manager, unless that one is deleted or of another company, and
    all agents the manager reports to. *)
Lemma manager_chain_reaches m rows i :
  manager_chain t c m db = Some rows →
  existsb (λ a, String.eqb (agent_ID a) i) rows = true ↔
  (∃ boss, organization_agents db !! (t, m) = Some boss ∧ employed t c boss = true) ∧
  rtc (reports_to db t) m i.
Proof.
  assert (existsb (λ a, String.eqb (agent_ID a) i) rows = true ↔ i ∈ agent_ID <$> rows) as ->.
  { rewrite existsb_exists, list_elem_of_fmap. setoid_rewrite String.eqb_eq.
    setoid_rewrite list_elem_of_In. naive_solver. }
  unfold manager_chain. destruct (_ !! _) as [row|] eqn:Hrow.
  2:{ intros [= <-]. cbn. split; [by intros ?%elem_of_nil|by intros [(? & ? & _) _]]. }
  destruct (employed t c row) eqn:He.
  2:{ intros [= <-]. cbn. split; [by intros ?%elem_of_nil|].
      intros [(? & [= ->] & ?) _]. congruence. }
  destruct (linked_keys _ Hdb _ _ _ Hrow) as [_ <-]. intros Hrows.
  destruct (chain_from_reaches (S (size (organization_agents db))) (agent_ID row)
    [agent_ID row] _ rows Hrow He ltac:(set_solver)
    ltac:(intros ? ->%list_elem_of_singleton; done)
    ltac:(intros ?? ->%list_elem_of_singleton; done) Hrows) as (Hin & Hs & Hc).
  split.
  - intros Hi. split; [by exists row|]. apply Hs. by right.
  - intros [_ Hi]. enough (i ∈ [agent_ID row] ∨ i ∈ agent_ID <$> rows) by set_solver.
    assert (agent_ID row ∈ [agent_ID row] ∨ agent_ID row ∈ agent_ID <$> rows) as Hf by (by right).
    revert Hc Hf. generalize [agent_ID row]. clear -Hi. intros v Hc Hf.
    induction Hi as [|x y z Hxy _ IH]; [done|]. by eapply IH, Hc.
Qed.

(** ** The levels of a company's tree *)

Definition level (n : nat) : list Agent := Nat.iter n (reports_of t c db) (roots_of t c db).

Lemma level_agent n a :
  a ∈ level n → organization_agents db !! (t, agent_ID a) = Some a ∧ employed t c a = true.
Proof.
  assert (∀ p, a ∈ List.filter (λ a, employed t c a && p a) (snd <$> map_to_list
            (organization_agents db)) →
          organization_agents db !! (t, agent_ID a) = Some a ∧ employed t c a = true) as Ht.
  { intros p [([k' a'] & -> & Hk%elem_of_map_to_list)%list_elem_of_fmap Hb]%elem_of_filter_b.
    apply andb_true_iff in Hb as [He _]. destruct k' as [t' i]. cbn in *. split; [|done].
    destruct (linked_keys _ Hdb _ _ _ Hk) as [<- <-]. by apply employed_true in He as [<- _]. }
  destruct n; cbn; apply Ht.
Qed.

Lemma level_manager n a m :
  agent_ManagerAgentID a = Some m → a ∈ level n → ∃ n' b, n = S n' ∧ b ∈ level n' ∧ agent_ID b = m.
Proof.
  intros Hm. destruct n as [|n]; cbn; intros [_ Hb]%elem_of_filter_b; rewrite Hm in Hb.
  - by apply andb_true_iff in Hb as [_ ?].
  - apply andb_true_iff in Hb as [_ (b & Hb & Hid)%existsb_exists]. cbn in Hid.
    apply String.eqb_eq in Hid. exists n, b. by rewrite list_elem_of_In.
Qed.

Lemma level_managed n a :
  a ∈ level (S n) → ∃ m, agent_ManagerAgentID a = Some m.
Proof.
  cbn. intros [_ Hb]%elem_of_filter_b. apply andb_true_iff in Hb as [_ (b & _ & Hid)%existsb_exists].
  destruct (agent_ManagerAgentID a); [eauto|done].
Qed.

(** An agent is in one level. *)
Lemma level_unique n n' a a' : a ∈ level n → a' ∈ level n' → agent_ID a = agent_ID a' → n = n'.
Proof.
  revert n' a a'. induction n as [|n IH]; intros n' a a' Ha Ha' Hid.
  all: destruct (level_agent _ _ Ha) as [Hr _], (level_agent _ _ Ha') as [Hr' _].
  all: rewrite Hid in Hr; assert (a = a') as <- by congruence.
  - destruct n' as [|n']; [done|]. destruct (level_managed _ _ Ha') as [m Hm].
    by destruct (level_manager _ _ _ Hm Ha) as (? & ? & ? & _).
  - destruct (level_managed _ _ Ha) as [m Hm].
    destruct (level_manager _ _ _ Hm Ha) as (? & b & [= <-] & Hb & Hbm).
    destruct (level_manager _ _ _ Hm Ha') as (k & b' & -> & Hb' & Hbm').
    f_equal. by eapply IH; [exact Hb|exact Hb'|congruence].
Qed.

(** So one of the first levels, as many as there are agents, is empty. *)
Lemma level_empty : ∃ n, n ≤ size (organization_agents db) ∧ level n = [].
Proof.
  destruct (decide (Exists (λ n, level n = []) (seq 0 (S (size (organization_agents db))))))
    as [(n & Hn%elem_of_seq & He)%Exists_exists|Hall]; [exists n; split; [lia|done]|].
  exfalso. apply not_Exists_Forall in Hall; [|intros n; destruct (level n); [by left|by right]].
  set (pick n := match level n with a :: _ => (t, agent_ID a) | [] => (t, "") end).
  assert (∀ n, n ∈ seq 0 (S (size (organization_agents db))) →
    ∃ a, a ∈ level n ∧ pick n = (t, agent_ID a)) as Hpick.
  { intros n Hn. rewrite Forall_forall in Hall. specialize (Hall n Hn). unfold pick. cbn in Hall.
    destruct (level n) as [|a l]; [done|]. exists a. split; [left|done]. }
  assert (NoDup (pick <$> seq 0 (S (size (organization_agents db))))) as Hnd.
  { apply NoDup_fmap_2_strong; [|apply NoDup_seq]. intros n n' Hn Hn' Heq.
    destruct (Hpick n Hn) as (a & Ha & E), (Hpick n' Hn') as (a' & Ha' & E').
    eapply level_unique; [exact Ha|exact Ha'|congruence]. }
  apply (size_list_to_set (C := gset (string * string))) in Hnd.
  rewrite length_fmap, length_seq in Hnd.
  enough (S (size (organization_agents db)) ≤ size (organization_agents db)) by lia.
  rewrite <-Hnd at 1. etrans; [|apply Nat.eq_le_incl, (size_dom (organization_agents db))].
  apply subseteq_size.
  intros k (n & -> & (a & Ha & ->)%Hpick)%elem_of_list_to_set%list_elem_of_fmap.
  apply elem_of_dom. destruct (level_agent _ _ Ha) as [Hr _]. eauto.
Qed.

Lemma hierarchy_from_total fuel n depth l :
  n ≤ fuel → Nat.iter n (reports_of t c db) l = [] →
  is_Some (hierarchy_from fuel t c db depth l).
Proof.
  revert n depth l. induction fuel as [|fuel IH]; intros n depth l Hn Hl.
  - destruct n; [|lia]. cbn in Hl. by subst.
  - destruct l as [|a l]; [done|]. destruct n as [|n]; [done|]. cbn -[reports_of].
    rewrite Nat.iter_succ_r in Hl.
    destruct (IH n (depth + 1)%Z (reports_of t c db (a :: l))) as [rest ->]; [lia|done|done].
Qed.

(** The query of the tree ends on every table. *)
Lemma hierarchy_total :
  is_Some (hierarchy_from (S (size (organization_agents db))) t c db 0 (roots_of t c db)).
Proof.
  destruct level_empty as (n & Hn & He). eapply hierarchy_from_total; [|exact He]. lia.
Qed.

End Chain.
End Hierarchy.
