(* ===== verification/OrganizationEffects.v ===== *)
(** * Organization: what the methods of the repository commit

    Every method that changes the tables, inverted: the rows it found, the guards that let
    it pass and the tables it publishes. *)

From S2P Require Import Prelude GoStrings Postgres Usecase Outbox.
From S2P Require Import OrganizationDomain OrganizationStore OrganizationRepository.
From stdpp Require Import strings gmap list.
From Stdlib Require Import String Lia.
Open Scope string_scope.
Open Scope list_scope.
Open Scope Z_scope.

Section Effects.
Context `{Platform, Proto, Json}.
Implicit Types (ctx : Ctx) (ev : env) (db : organization_tables).

(** ** Statements *)

Lemma cast_Ok s u : cast s = Ok u ↔ uuid_in s = Some u.
Proof. unfold cast. apply from_option_err_Ok. Qed.

(** The session sees the rows of the tenant. *)
Definition scoped (sc : Scope) (t : string) : Prop :=
  ∃ r, rls_of sc = Ok r ∧ tenant_scoped r t = true.

Lemma sql_row_Ok {R} (table : organization_tables → gmap (string * string) R) tenantID id sc db
    row :
  sql_row table tenantID id sc db = Ok row →
  ∃ t i, scoped sc t ∧ uuid_in tenantID = Some t ∧ uuid_in id = Some i ∧ table db !! (t, i) = Some row.
Proof.
  unfold sql_row. intros Hr. apply result_bind_Ok in Hr as (r & Hsc & Hr).
  apply result_bind_Ok in Hr as (t & Ht%cast_Ok & Hr).
  apply result_bind_Ok in Hr as (i & Hi%cast_Ok & Hr).
  destruct (_ !! _) as [row'|] eqn:Hl; [|done]. case_match; [|done]. simplify_eq.
  exists t, i. split; [by exists r|done].
Qed.

Lemma company_versioned_Ok {R} (table : organization_tables → gmap (string * string) R) set version
    checks referenced name tenantID id expected change
    (row : Scope → organization_tables → result db_error R) s u s' :
  versioned (sql_versioned_update table set version checks referenced name tenantID id
               expected change) row s = (Ok u, s') →
  ∃ t i old, uuid_in tenantID = Some t ∧ uuid_in id = Some i ∧
    table (session_db s) !! (t, i) = Some old ∧ version old = expected ∧
    version old + 1 ≤ int64_max ∧ checks (change old) = true ∧
    referenced (change old) (session_db s) = true ∧
    session_db s' = set (<[(t, i) := change old]> (table (session_db s))) (session_db s) ∧
    session_scope s' = session_scope s.
Proof.
  unfold versioned, rejectVersionOrMissing. intros Hv.
  apply tx_bind_Ok in Hv as (n & s1 & (_ & E & Hsc & _)%map_err_Ok%exec_Ok & Hv).
  assert (n ≠ 0 ∧ s' = s1) as [Hn ->].
  { destruct (Z.eqb_spec n 0) as [->|]; [exfalso|by apply ret_Ok in Hv as [_ ->]].
    apply tx_bind_Ok in Hv as (? & s2 & _ & [Hl _]%lift_Ok). done. }
  unfold sql_versioned_update in E. apply result_bind_Ok in E as (r & _ & E).
  apply result_bind_Ok in E as (t & Ht%cast_Ok & E).
  apply result_bind_Ok in E as (i & Hi%cast_Ok & E).
  destruct (table _ !! _) as [old|] eqn:Hold; [|by simplify_eq].
  destruct (_ && _) eqn:Hv1; [|by simplify_eq]. result_inv E. bool_facts.
  injection E as _ <-. exists t, i, old. by split_and!.
Qed.

Lemma organization_outbox_Ok tenantID event s u s' :
  insertOutbox tenantID event s = (Ok u, s') →
  ∃ clock ob, sql_insert_outbox clock tenantID event (organization_outbox (session_db s))
                = Ok ob ∧
    session_db s' = set_organization_outbox ob (session_db s).
Proof.
  unfold insertOutbox. intros Hi%map_err_Ok.
  apply tx_bind_Ok in Hi as (now & s1 & ->%clock_Ok & Hi).
  apply exec_Ok in Hi as (_ & Hi & _). result_inv Hi. simplify_eq. eauto.
Qed.

Lemma lockCompany_Ok tenantID companyID s u s' :
  lockCompany tenantID companyID s = (Ok u, s') →
  same_view s s' ∧ ∃ t c company, scoped (session_scope s) t ∧ uuid_in tenantID = Some t ∧ uuid_in companyID = Some c ∧
    organization_companies (session_db s) !! (t, c) = Some company ∧
    company_Status company = CompanyStatusActive.
Proof.
  unfold lockCompany. intros Hl.
  apply tx_bind_Ok in Hl as (id & s1 & [Hq Hv]%map_err_Ok%query_Ok & [_ ->]%ret_Ok).
  split; [done|]. unfold sql_lock_company in Hq.
  apply result_bind_Ok in Hq as (company & (t & c & Hsc & Ht & Hc & Hrow)%sql_row_Ok & Hq).
  case_match eqn:Hs; [|done]. bool_facts. by exists t, c, company.
Qed.

Lemma sql_insert_revision_Ok v sc db u db' :
  sql_insert_revision v sc db = Ok (u, db') →
  ∃ t i w, uuid_in (revision_TenantID v) = Some t ∧ uuid_in (revision_AgentID v) = Some i ∧
    let key := (t, i, revision_Version v) in
    organization_revisions db !! key = None ∧
    revision_TenantID w = t ∧ revision_AgentID w = i ∧
    revision_Version w = revision_Version v ∧ revision_ChangeKind w = revision_ChangeKind v ∧
    revision_Snapshot w = revision_Snapshot v ∧
    db' = set_revisions (<[key := w]> (organization_revisions db)) db.
Proof.
  unfold sql_insert_revision. intros Hr. apply result_bind_Ok in Hr as (r & _ & Hr).
  apply result_bind_Ok in Hr as (t & Ht%cast_Ok & Hr).
  apply result_bind_Ok in Hr as (i & Hi%cast_Ok & Hr).
  apply result_bind_Ok in Hr as (a & Ha%cast_Ok & Hr). result_inv Hr. simplify_eq.
  destruct (organization_revisions db !! _) eqn:Hnone; [done|].
  eexists t, i, _. split; [done|]. split; [done|]. cbn. by split_and!; [..|reflexivity].
Qed.

(** ** Changes of an agent *)

(** The tables after the row of an agent took the form [row], with its revision. *)
Definition with_agent t i row n v ob db : organization_tables :=
  set_organization_outbox ob (set_revisions
    (<[(t, i, n) := v]> (organization_revisions db))
    (set_agents (<[(t, i) := row]> (organization_agents db)) db)).

Inductive agent_rewritten (params : UpdateAgentParams) (change : Agent → Agent) db
  : organization_tables → Prop :=
| Rewritten t i c old company v clock ob :
    uuid_in (agent_TenantID (updateAgent_Agent params)) = Some t →
    uuid_in (agent_ID (updateAgent_Agent params)) = Some i →
    uuid_in (agent_CompanyID (updateAgent_Agent params)) = Some c →
    organization_companies db !! (t, c) = Some company →
    company_Status company = CompanyStatusActive →
    organization_agents db !! (t, i) = Some old →
    agent_Version old = updateAgent_ExpectedVersion params →
    agent_Version old + 1 ≤ int64_max →
    agent_checks (change old) = true → manager_exists (change old) db = true →
    organization_revisions db !! (t, i, agent_Version (updateAgent_Agent params)) = None →
    revision_TenantID v = t → revision_AgentID v = i →
    revision_Version v = agent_Version (updateAgent_Agent params) →
    revision_ChangeKind v = updateAgent_ChangeKind params →
    revision_Snapshot v = updateAgent_Agent params →
    sql_insert_outbox clock (agent_TenantID (updateAgent_Agent params))
      (updateAgent_Event params) (organization_outbox db) = Ok ob →
    agent_rewritten params change db
      (with_agent t i (change old) (agent_Version (updateAgent_Agent params)) v ob db).

(** The last part of every method that changes an agent. *)
Lemma rewritten params change
    (row : Scope → organization_tables → result db_error Agent) s s1 s2 db u a t c company :
  session_db s = db →
  uuid_in (agent_TenantID (updateAgent_Agent params)) = Some t →
  uuid_in (agent_CompanyID (updateAgent_Agent params)) = Some c →
  organization_companies db !! (t, c) = Some company →
  company_Status company = CompanyStatusActive →
  versioned (sql_update_agent (agent_TenantID (updateAgent_Agent params))
               (agent_ID (updateAgent_Agent params)) (updateAgent_ExpectedVersion params)
               change) row s = (Ok u, s1) →
  recordChange params s1 = (Ok a, s2) →
  a = updateAgent_Agent params ∧
  agent_rewritten params change db (default db (session_committed s2)).
Proof.
  intros <- Ht Hc Hco Hst Hv Hr.
  apply company_versioned_Ok in Hv as (t' & i & old & Ht' & Hi & Hold & Hver & Hmax & Hch & Hm & Hdb & _).
  rewrite Ht in Ht'. injection Ht' as <-.
  unfold recordChange, insertAgentRevision in Hr.
  apply tx_bind_Ok in Hr as ([] & s3 & Hrev & Hr).
  apply tx_bind_Ok in Hrev as (? & s4 & [_ ->]%lift_Ok & (_ & Hrev & _)%map_err_Ok%exec_Ok).
  apply sql_insert_revision_Ok in Hrev as (t2 & i2 & v & Ht2 & Hi2 & Hn & Hvt & Hvi & Hvv & Hk & Hs & Hdb3).
  cbn in *. rewrite Ht in Ht2. rewrite Hi in Hi2. injection Ht2 as <-. injection Hi2 as <-.
  apply tx_bind_Ok in Hr as ([] & s5 & (clock & ob & Hob & Hdb5)%organization_outbox_Ok & Hr).
  apply tx_bind_Ok in Hr as ([] & s6 & (Hcom & _ & _)%commit_Ok & [-> ->]%ret_Ok).
  split; [done|]. rewrite Hcom. cbn. rewrite Hdb5, Hdb3, Hdb in *. cbn in *.
  by econstructor.
Qed.

Lemma updateAgent_Ok ctx params change db ev a db' :
  run (updateAgent ctx params change) db ev = (Ok a, db') →
  a = updateAgent_Agent params ∧ agent_rewritten params change db db'.
Proof.
  intros (s & Hr & ->)%run_Ok. unfold updateAgent, beginUserTenant in Hr.
  apply tx_bind_Ok in Hr as ([] & s1 & (_ & Hd1 & _)%Begin_Ok & Hr).
  apply tx_bind_Ok in Hr as ([] & s2 & [(Hd2 & _) (t & c & co & _ & Ht & Hc & Hco & Hst)]%lockCompany_Ok & Hr).
  apply tx_bind_Ok in Hr as (u & s3 & Hv & Hr). rewrite Hd1 in *.
  eapply rewritten; [|exact Ht|exact Hc|exact Hco|exact Hst|exact Hv|exact Hr]. done.
Qed.

Lemma UpdateAgent_Ok ctx params db ev a db' :
  run (UpdateAgent ctx params) db ev = (Ok a, db') →
  a = updateAgent_Agent params ∧
  agent_rewritten params (agent_updated (updateAgent_Agent params)) db db'.
Proof.
  intros Hr. apply (updateAgent_Ok ctx params _ db ev). revert Hr. unfold run, UpdateAgent.
  unfold lift at 1, mbind at 1, tx_bind at 1. by destruct (from_option_err _ _).
Qed.

(** The guards of a method on the manager of the agent. *)
Lemma requireManager_Ok tenantID companyID manager s u s' :
  requireManager tenantID companyID manager s = (Ok u, s') →
  same_view s s' ∧ ∃ t m boss, uuid_in tenantID = Some t ∧ uuid_in manager = Some m ∧
    organization_agents (session_db s) !! (t, m) = Some boss ∧
    agent_CompanyID boss = companyID.
Proof.
  unfold requireManager, queryAgent. intros Hr.
  apply tx_bind_Ok in Hr as (boss & s1 & [(t & m & _ & Ht & Hm & Hb)%sql_row_Ok Hv]%map_err_Ok%query_Ok
    & [Hc%fail_if_Ok ->]%lift_Ok).
  bool_facts. eauto 10.
Qed.

(** The check of a change of manager, for the rows it read. *)
Definition cycle_checked agent db : Prop := ∀ manager, agent_ManagerAgentID agent = Some manager →
  ∃ sc t c m i, uuid_in (agent_TenantID agent) = Some t ∧
    uuid_in (agent_CompanyID agent) = Some c ∧ uuid_in manager = Some m ∧
    uuid_in (agent_ID agent) = Some i ∧ manager ≠ agent_ID agent ∧
    sql_would_cycle (agent_TenantID agent) (agent_CompanyID agent) (agent_ID agent) manager sc db
      = Ok false ∧ scoped sc t.

Lemma versioned_manager agent expected
    (row : Scope → organization_tables → result db_error Agent) s u s' :
  versioned (sql_set_manager agent expected) row s = (Ok u, s') →
  ∃ m, cast_option (agent_ManagerAgentID agent) = Ok m ∧
    versioned (sql_update_agent (agent_TenantID agent) (agent_ID agent) expected
                 (agent_manager_set m agent)) row s = (Ok u, s').
Proof.
  unfold versioned, map_err, exec, raw, mbind, tx_bind, sql_set_manager.
  destruct (statement s) as [[[]|?] s1]; [|done].
  destruct (cast_option _) as [m|e]; cbn; [eauto|]. by destruct (session_read_only s1).
Qed.

Lemma SetAgentManager_Ok ctx params db ev a db' :
  run (SetAgentManager ctx params) db ev = (Ok a, db') →
  a = updateAgent_Agent params ∧ cycle_checked (updateAgent_Agent params) db ∧
  ∃ m, cast_option (agent_ManagerAgentID (updateAgent_Agent params)) = Ok m ∧
    agent_rewritten params (agent_manager_set m (updateAgent_Agent params)) db db'.
Proof.
  intros (s & Hr & ->)%run_Ok. unfold SetAgentManager, beginUserTenant in Hr.
  apply tx_bind_Ok in Hr as ([] & s1 & (_ & Hd1 & Hs1 & _)%Begin_Ok & Hr).
  apply tx_bind_Ok in Hr as ([] & s2 &
    [(Hd2 & Hs2 & _) (t & c & co & Hsc & Ht & Hc & Hco & Hst)]%lockCompany_Ok & Hr).
  apply tx_bind_Ok in Hr as (u & s3 & Hg & Hr). rewrite Hd1 in *.
  apply tx_bind_Ok in Hr as (u' & s4 & (m & Hm & Hv)%versioned_manager & Hr). cbn in Hd2, Hco.
  assert (∃ i, uuid_in (agent_ID (updateAgent_Agent params)) = Some i) as [i Hi].
  { apply company_versioned_Ok in Hv as (? & i & ? & _ & Hi & _). eauto. }
  assert (session_db s3 = db ∧ cycle_checked (updateAgent_Agent params) db) as [Hd3 Hchk].
  { clear Hv Hr. destruct (agent_ManagerAgentID _) as [manager|] eqn:Hman.
    2:{ apply ret_Ok in Hg as [_ ->]. split; [done|]. intros ??. congruence. }
    apply tx_bind_Ok in Hg as (? & ? & [Hne%fail_if_Ok ->]%lift_Ok & Hg).
    apply tx_bind_Ok in Hg as ([] & s5 &
      [(Hd5 & Hs5 & _) (? & m' & boss & _ & Hm' & _)]%requireManager_Ok & Hg).
    unfold hierarchyWouldCycle in Hg. apply tx_bind_Ok in Hg
      as (cy & s6 & [Hq (Hd6 & Hs6 & _)]%query_Ok & [->%fail_if_Ok ->]%lift_Ok).
    split; [congruence|]. intros m2 Hm2. rewrite Hman in Hm2. injection Hm2 as <-.
    rewrite Hd5, Hd2, Hs5, Hs2 in Hq. bool_facts.
    exists (session_scope s1), t, c, m', i. by split_and!. }
  destruct (rewritten _ _ _ _ _ _ db _ _ t c co Hd3 Ht Hc Hco Hst Hv Hr) as [-> Heff].
  split_and!; eauto.
Qed.

Lemma DeleteAgent_Ok ctx params db ev a db' :
  run (DeleteAgent ctx params) db ev = (Ok a, db') →
  a = updateAgent_Agent params ∧
  (∃ t c i, uuid_in (agent_TenantID a) = Some t ∧ uuid_in (agent_CompanyID a) = Some c ∧
     uuid_in (agent_ID a) = Some i ∧ ∀ k row, organization_agents db !! k = Some row →
       employed t c row && is_id (agent_ManagerAgentID row) i = false) ∧
  agent_rewritten params (agent_deleted (updateAgent_Agent params)) db db'.
Proof.
  intros (s & Hr & ->)%run_Ok. unfold DeleteAgent, beginUserTenant in Hr.
  apply tx_bind_Ok in Hr as ([] & s1 & (_ & Hd1 & Hs1 & _)%Begin_Ok & Hr).
  apply tx_bind_Ok in Hr as ([] & s2 &
    [(Hd2 & Hs2 & _) (t & c & co & Hsc & Ht & Hc & Hco & Hst)]%lockCompany_Ok & Hr).
  apply tx_bind_Ok in Hr as (has & s3 & [Hq (Hd3 & Hs3 & _)]%query_Ok & Hr).
  apply tx_bind_Ok in Hr as (? & ? & [->%fail_if_Ok ->]%lift_Ok & Hr).
  apply tx_bind_Ok in Hr as (u' & s4 & Hv & Hr). rewrite Hd1 in *. rewrite Hd2, Hs2 in *.
  destruct (rewritten _ _ _ _ _ _ db _ _ t c co Hd3 Ht Hc Hco Hst Hv Hr) as [-> Heff].
  split_and!; [done| |done].
  assert (∃ i, uuid_in (agent_ID (updateAgent_Agent params)) = Some i) as [i Hi].
  { apply company_versioned_Ok in Hv as (? & i & ? & _ & Hi & _). eauto. }
  exists t, c, i. split_and!; [done..|]. unfold sql_has_reports, cast in Hq. rewrite Ht, Hc, Hi in Hq.
  destruct Hsc as (r & Hr' & Hsc). rewrite Hr' in Hq. cbn in Hq. rewrite Hsc in Hq.
  injection Hq as Hq. intros k row Hrow.
  exact (table_any_false _ _ _ _ Hq Hrow).
Qed.

(** ** New agents *)

(** The row that the columns of an agent are stored in. *)
Definition stored_agent (a : Agent) : option Agent :=
  t ← uuid_in (agent_TenantID a); c ← uuid_in (agent_CompanyID a); i ← uuid_in (agent_ID a);
  m ← match agent_ManagerAgentID a with Some m => Some <$> uuid_in m | None => Some None end;
  u ← uuid_in (agent_CreatedByUserID a);
  Some (agent_row t c i m u a).

Lemma cast_option_Ok o m :
  cast_option o = Ok m ↔ match o with Some s => Some <$> uuid_in s | None => Some None end = Some m.
Proof. destruct o as [s|]; cbn; [|naive_solver]. unfold cast. destruct (uuid_in s); naive_solver. Qed.

Lemma sql_insert_agent_Ok a sc db u db' :
  sql_insert_agent a sc db = Ok (u, db') →
  ∃ row, stored_agent a = Some row ∧
    organization_agents db !! (agent_TenantID row, agent_ID row) = None ∧
    agent_checks row = true ∧
    is_Some (organization_companies db !! (agent_TenantID row, agent_CompanyID row)) ∧
    manager_exists row db = true ∧
    db' = set_agents (<[(agent_TenantID row, agent_ID row) := row]>
                       (organization_agents db)) db.
Proof.
  unfold sql_insert_agent. intros Hr. apply result_bind_Ok in Hr as (r & _ & Hr).
  apply result_bind_Ok in Hr as (t & Ht%cast_Ok & Hr).
  apply result_bind_Ok in Hr as (c & Hc%cast_Ok & Hr).
  apply result_bind_Ok in Hr as (i & Hi%cast_Ok & Hr).
  apply result_bind_Ok in Hr as (m & Hm%cast_option_Ok & Hr).
  apply result_bind_Ok in Hr as (w & Hw%cast_Ok & Hr). cbv zeta in Hr.
  result_inv Hr. bool_facts. injection Hr as _ <-.
  exists (agent_row t c i m w a). unfold stored_agent. rewrite Ht, Hc, Hi, Hm, Hw.
  split; [done|]. cbn. split_and!; try done.
  - by destruct (organization_agents db !! (t, i)).
  - by destruct (organization_companies db !! (t, c)).
Qed.

Inductive agent_created (params : CreateAgentParams) db : organization_tables → Prop :=
| Created row company v clock ob :
    stored_agent (createAgent_Agent params) = Some row →
    organization_companies db !! (agent_TenantID row, agent_CompanyID row) = Some company →
    company_Status company = CompanyStatusActive →
    organization_agents db !! (agent_TenantID row, agent_ID row) = None →
    agent_checks row = true → manager_exists row db = true →
    organization_revisions db !! (agent_TenantID row, agent_ID row, agent_Version row) = None →
    revision_TenantID v = agent_TenantID row → revision_AgentID v = agent_ID row →
    revision_Version v = agent_Version row → revision_ChangeKind v = "created" →
    revision_Snapshot v = createAgent_Agent params →
    sql_insert_outbox clock (agent_TenantID (createAgent_Agent params))
      (createAgent_Event params) (organization_outbox db) = Ok ob →
    agent_created params db
      (with_agent (agent_TenantID row) (agent_ID row) row (agent_Version row) v ob db).

Lemma stored_agent_keys a row :
  stored_agent a = Some row →
  uuid_in (agent_TenantID a) = Some (agent_TenantID row) ∧
  uuid_in (agent_CompanyID a) = Some (agent_CompanyID row) ∧
  uuid_in (agent_ID a) = Some (agent_ID row) ∧ agent_Version row = agent_Version a ∧
  agent_Status row = agent_Status a.
Proof.
  unfold stored_agent. intros (t & -> & (c & -> & (i & -> & (m & _ & (u & _ & [= <-])
    %bind_Some)%bind_Some)%bind_Some)%bind_Some)%bind_Some. done.
Qed.

Lemma CreateAgent_Ok ctx params db ev a db' :
  run (CreateAgent ctx params) db ev = (Ok a, db') →
  a = createAgent_Agent params ∧ agent_created params db db'.
Proof.
  intros (s & Hr & ->)%run_Ok. unfold CreateAgent, beginUserTenant in Hr.
  apply tx_bind_Ok in Hr as ([] & s1 & (_ & Hd1 & Hs1 & _)%Begin_Ok & Hr).
  apply tx_bind_Ok in Hr as ([] & s2 &
    [(Hd2 & Hs2 & _) (t & c & co & Hsc & Ht & Hc & Hco & Hst)]%lockCompany_Ok & Hr).
  apply tx_bind_Ok in Hr as (u & s3 & Hg & Hr). rewrite Hd1 in *. cbn in Hd2, Hco.
  assert (session_db s3 = db) as Hd3.
  { destruct (agent_ManagerAgentID _) as [m|]; [|by apply ret_Ok in Hg as [_ ->]].
    apply requireManager_Ok in Hg as [(Hd3 & _) _]. congruence. }
  apply tx_bind_Ok in Hr as (? & ? & [_ ->]%lift_Ok & Hr).
  apply tx_bind_Ok in Hr as (u1 & s4 & (_ & Hins & _)%map_err_Ok%exec_Ok & Hr).
  unfold insertAgentRevision in Hr.
  apply tx_bind_Ok in Hr as ([] & s5 & Hrev & Hr).
  apply tx_bind_Ok in Hrev as (? & ? & [_ ->]%lift_Ok & (_ & Hrev & _)%map_err_Ok%exec_Ok).
  apply tx_bind_Ok in Hr as ([] & s6 & (clock & ob & Hob & Hdb6)%organization_outbox_Ok & Hr).
  apply tx_bind_Ok in Hr as ([] & s7 & (Hcom & _ & _)%commit_Ok & [-> ->]%ret_Ok).
  split; [done|]. rewrite Hcom. cbn.
  apply sql_insert_agent_Ok in Hins as (row & Hrow & Hnone & Hch & _ & Hm & Hd4).
  destruct (stored_agent_keys _ _ Hrow) as (Ht' & Hc' & Hi' & Hv' & _).
  apply sql_insert_revision_Ok in Hrev
    as (t2 & i2 & v & Ht2 & Hi2 & Hn & Hvt & Hvi & Hvv & Hk & Hs & Hd5).
  cbn in *. rewrite Ht' in Ht2. rewrite Hi' in Hi2. rewrite Ht' in Ht. rewrite Hc' in Hc.
  injection Ht as <-. injection Hc as <-. injection Ht2 as <-. injection Hi2 as <-.
  rewrite Hdb6, Hd5, Hd4, Hd3 in *. cbn in *. rewrite <-Hv' in *. by econstructor.
Qed.

(** ** Companies *)

Definition with_company t i row ob db : organization_tables :=
  set_organization_outbox ob
    (set_companies (<[(t, i) := row]> (organization_companies db)) db).

(** The insertion of a company's row, before the event. *)
Definition company_inserted c db db' : Prop := ∃ t i u,
  let row := company_row t i u c in
  uuid_in (company_TenantID c) = Some t ∧ uuid_in (company_ID c) = Some i ∧
  company_checks row = true ∧ organization_companies db !! (t, i) = None ∧
  (active_default t row = true → ∀ k c', organization_companies db !! k = Some c' →
     active_default t c' = false) ∧
  db' = set_companies (<[(t, i) := row]> (organization_companies db)) db.

Lemma sql_insert_company_Ok c sc db u db' :
  sql_insert_company c sc db = Ok (u, db') → company_inserted c db db'.
Proof.
  unfold sql_insert_company. intros Hr. apply result_bind_Ok in Hr as (r & _ & Hr).
  apply result_bind_Ok in Hr as (t & Ht%cast_Ok & Hr).
  apply result_bind_Ok in Hr as (i & Hi%cast_Ok & Hr).
  apply result_bind_Ok in Hr as (w & Hw%cast_Ok & Hr). cbv zeta in Hr.
  result_inv Hr. bool_facts. injection Hr as _ <-. exists t, i, w. split_and!; try done.
  - by destruct (organization_companies db !! (t, i)).
  - intros Hd k c' Hc'.
    match goal with Hx : _ && table_any _ _ = false |- _ => rewrite Hd in Hx; cbn in Hx end.
    by eapply (table_any_false (active_default t)).
Qed.

Lemma sql_insert_company_scoped c sc db u db' :
  sql_insert_company c sc db = Ok (u, db') →
  ∃ t, uuid_in (company_TenantID c) = Some t ∧ scoped sc t.
Proof.
  unfold sql_insert_company. intros Hr. apply result_bind_Ok in Hr as (r & Hsc & Hr).
  apply result_bind_Ok in Hr as (t & Ht%cast_Ok & Hr).
  apply result_bind_Ok in Hr as (i & _ & Hr). apply result_bind_Ok in Hr as (w & _ & Hr).
  cbv zeta in Hr. result_inv Hr. bool_facts. exists t. split; [done|by exists r].
Qed.

Lemma CreateCompany_Ok ctx params db ev a db' :
  run (CreateCompany ctx params) db ev = (Ok a, db') →
  a = createCompany_Company params ∧
  ∃ db1 ob, company_inserted a db db1 ∧ db' = set_organization_outbox ob db1.
Proof.
  intros (s & Hr & ->)%run_Ok. unfold CreateCompany, insertCompany, beginUserTenant in Hr.
  apply tx_bind_Ok in Hr as ([] & s1 & (_ & Hd1 & _)%Begin_Ok & Hr).
  apply tx_bind_Ok in Hr as (u & s2 & (_ & Hi%sql_insert_company_Ok & _)%map_err_Ok%exec_Ok & Hr).
  apply tx_bind_Ok in Hr as ([] & s3 & (clock & ob & _ & Hd3)%organization_outbox_Ok & Hr).
  apply tx_bind_Ok in Hr as ([] & s4 & (Hcom & _ & _)%commit_Ok & [-> ->]%ret_Ok).
  split; [done|]. rewrite Hcom. cbn. rewrite Hd1 in Hi. rewrite Hd3. eauto.
Qed.

Inductive company_rewritten (params : UpdateCompanyParams) (change : Company → Company) db
  : organization_tables → Prop :=
| CompanyRewritten t i old clock ob :
    uuid_in (company_TenantID (updateCompany_Company params)) = Some t →
    uuid_in (company_ID (updateCompany_Company params)) = Some i →
    organization_companies db !! (t, i) = Some old →
    company_Version old = updateCompany_ExpectedVersion params →
    company_Version old + 1 ≤ int64_max → company_checks (change old) = true →
    sql_insert_outbox clock (company_TenantID (updateCompany_Company params))
      (updateCompany_Event params) (organization_outbox db) = Ok ob →
    company_rewritten params change db (with_company t i (change old) ob db).

Lemma company_rewritten_by params change
    (row : Scope → organization_tables → result db_error Company) s s1 s2 db u a :
  session_db s = db →
  versioned (sql_update_company (company_TenantID (updateCompany_Company params))
               (company_ID (updateCompany_Company params))
               (updateCompany_ExpectedVersion params) change) row s = (Ok u, s1) →
  (insertOutbox (company_TenantID (updateCompany_Company params))
     (updateCompany_Event params);; commit;; mret (updateCompany_Company params) : repo Company)
    s1 = (Ok a, s2) →
  a = updateCompany_Company params ∧
  company_rewritten params change db (default db (session_committed s2)).
Proof.
  intros <- (t & i & old & Ht & Hi & Hold & Hver & Hmax & Hch & _ & Hdb & _)%company_versioned_Ok Hr.
  apply tx_bind_Ok in Hr as ([] & s3 & (clock & ob & Hob & Hd3)%organization_outbox_Ok & Hr).
  apply tx_bind_Ok in Hr as ([] & s4 & (Hcom & _ & _)%commit_Ok & [-> ->]%ret_Ok).
  split; [done|]. rewrite Hcom. cbn. rewrite Hd3, Hdb in *. by econstructor.
Qed.

Lemma UpdateCompany_Ok ctx params db ev a db' :
  run (UpdateCompany ctx params) db ev = (Ok a, db') →
  a = updateCompany_Company params ∧
  company_rewritten params (company_updated (updateCompany_Company params)) db db'.
Proof.
  intros (s & Hr & ->)%run_Ok. unfold UpdateCompany, beginUserTenant in Hr.
  apply tx_bind_Ok in Hr as ([] & s1 & (_ & Hd1 & _)%Begin_Ok & Hr).
  apply tx_bind_Ok in Hr as (u & s2 & Hv & Hr). by eapply company_rewritten_by.
Qed.

Lemma ArchiveCompany_Ok ctx params db ev a db' :
  run (ArchiveCompany ctx params) db ev = (Ok a, db') →
  a = updateCompany_Company params ∧
  (∃ t c, uuid_in (company_TenantID a) = Some t ∧ uuid_in (company_ID a) = Some c ∧
     ∀ k row, organization_agents db !! k = Some row → employed t c row = false) ∧
  company_rewritten params (company_archived (updateCompany_Company params)) db db'.
Proof.
  intros (s & Hr & ->)%run_Ok. unfold ArchiveCompany, beginUserTenant in Hr.
  apply tx_bind_Ok in Hr as ([] & s1 & (_ & Hd1 & Hs1 & _)%Begin_Ok & Hr).
  apply tx_bind_Ok in Hr as ([] & s2 &
    [(Hd2 & Hs2 & _) (t & c & co & Hsc & Ht & Hc & Hco & Hst)]%lockCompany_Ok & Hr).
  apply tx_bind_Ok in Hr as (has & s3 & [Hq (Hd3 & Hs3 & _)]%query_Ok & Hr).
  apply tx_bind_Ok in Hr as (? & ? & [->%fail_if_Ok ->]%lift_Ok & Hr).
  apply tx_bind_Ok in Hr as (u & s4 & Hv & Hr).
  rewrite Hd2, Hs2 in *. rewrite Hd1 in *.
  destruct (company_rewritten_by _ _ _ _ _ _ db _ _ Hd3 Hv Hr) as [-> Heff].
  split_and!; [done| |done]. exists t, c. split_and!; [done..|].
  unfold sql_company_has_agents, cast in Hq. rewrite Ht, Hc in Hq.
  destruct Hsc as (r & Hr' & Hsc). rewrite Hr' in Hq. cbn in Hq. rewrite Hsc in Hq.
  injection Hq as Hq. intros k row. by apply table_any_false.
Qed.

(** ** The default company *)

Definition bootstrap_recorded (params : EnsureDefaultCompanyParams) companyID db db' : Prop :=
  ∃ t o c u, uuid_in (company_TenantID (ensure_Company params)) = Some t ∧
    uuid_in (ensure_OnboardingOperationID params) = Some o ∧ uuid_in companyID = Some c ∧
    uuid_in (company_CreatedByUserID (ensure_Company params)) = Some u ∧
    (is_Some (organization_bootstrap db !! o) ∧ db' = db ∨
     organization_bootstrap db !! o = None ∧
     is_Some (organization_companies db !! (t, c)) ∧
     db' = set_bootstrap (<[o := {| bootstrap_TenantID := t; bootstrap_CompanyID := c;
                                    bootstrap_ActorUserID := u;
                                    bootstrap_CreatedAt := timestamptz
                                      (company_CreatedAt (ensure_Company params)) |}]>
                            (organization_bootstrap db)) db).

Lemma recordBootstrapRequest_Ok params companyID s u s' :
  recordBootstrapRequest params companyID s = (Ok u, s') →
  bootstrap_recorded params companyID (session_db s) (session_db s') ∧
  session_scope s' = session_scope s.
Proof.
  unfold recordBootstrapRequest. intros (_ & Hr & Hsc & _)%map_err_Ok%exec_Ok.
  split; [|done]. unfold sql_record_bootstrap in Hr. apply result_bind_Ok in Hr as (r & _ & Hr).
  apply result_bind_Ok in Hr as (o & Ho%cast_Ok & Hr).
  apply result_bind_Ok in Hr as (t & Ht%cast_Ok & Hr).
  apply result_bind_Ok in Hr as (c & Hc%cast_Ok & Hr).
  apply result_bind_Ok in Hr as (w & Hw%cast_Ok & Hr).
  exists t, o, c, w. split_and!; [done..|].
  apply result_bind_Ok in Hr as (? & _ & Hr).
  destruct (organization_bootstrap _ !! o); cbn in Hr; [left; split; [done|congruence]|].
  right. result_inv Hr. bool_facts. destruct (organization_companies _ !! _); [|done].
  split_and!; [done..|congruence].
Qed.

Lemma find_row_Ok {A} (q : Scope → organization_tables → result db_error A) s o s' :
  find_row q s = (Ok o, s') →
  same_view s s' ∧ q (session_scope s) (session_db s) = from_option_err ErrNoRows o.
Proof.
  unfold find_row. intros [Hq Hv]%query_Ok. split; [done|].
  destruct (q _ _) as [a|[]]; naive_solver.
Qed.

Lemma sql_default_company_Ok tenantID sc db i :
  sql_default_company tenantID sc db = Ok i → ∃ t k row, uuid_in tenantID = Some t ∧
    organization_companies db !! k = Some row ∧ active_default t row = true ∧ company_ID row = i.
Proof.
  unfold sql_default_company. intros Hr. apply result_bind_Ok in Hr as (r & _ & Hr).
  apply result_bind_Ok in Hr as (t & Ht%cast_Ok & Hr).
  destruct (List.filter _ _) as [|row l] eqn:Hf; [done|]. injection Hr as <-.
  assert (row ∈ row :: l) as Hin by left. rewrite <-Hf in Hin.
  apply elem_of_filter_b in Hin as [([k c] & -> & Hk%elem_of_map_to_list)%list_elem_of_fmap Hb].
  apply andb_true_iff in Hb as [Hb _]. exists t, k, c. by split_and!.
Qed.

(** The onboarding operation has no company of the tenant. *)
Definition not_bootstrapped (params : EnsureDefaultCompanyParams) t db : Prop := ∀ o b,
  uuid_in (ensure_OnboardingOperationID params) = Some o →
  organization_bootstrap db !! o = Some b → bootstrap_TenantID b ≠ t.

Lemma sql_bootstrap_company_none params tenantID sc t db :
  scoped sc t → uuid_in tenantID = Some t →
  sql_bootstrap_company (ensure_OnboardingOperationID params) tenantID sc db = Err ErrNoRows →
  not_bootstrapped params t db.
Proof.
  intros (r & Hr & Hsc) Ht Hq o b Ho Hb <-. revert Hq. unfold sql_bootstrap_company, cast.
  rewrite Hr, Ho, Ht. cbn. by rewrite Hb, String.eqb_refl, Hsc.
Qed.

Inductive default_ensured (params : EnsureDefaultCompanyParams) db
  : Company → organization_tables → Prop :=
| EnsuredBefore t o c b row :
    uuid_in (company_TenantID (ensure_Company params)) = Some t →
    uuid_in (ensure_OnboardingOperationID params) = Some o →
    organization_bootstrap db !! o = Some b → bootstrap_TenantID b = t →
    uuid_in (bootstrap_CompanyID b) = Some c →
    organization_companies db !! (t, c) = Some row →
    default_ensured params db row db
| EnsuredExisting t c k found row db' :
    uuid_in (company_TenantID (ensure_Company params)) = Some t → not_bootstrapped params t db →
    organization_companies db !! k = Some found → active_default t found = true →
    bootstrap_recorded params (company_ID found) db db' →
    uuid_in (company_ID found) = Some c →
    organization_companies db' !! (t, c) = Some row →
    default_ensured params db row db'
| EnsuredCreated t db1 db2 ob :
    uuid_in (company_TenantID (ensure_Company params)) = Some t → not_bootstrapped params t db →
    company_inserted (ensure_Company params) db db1 →
    bootstrap_recorded params (company_ID (ensure_Company params)) db1 db2 →
    default_ensured params db (ensure_Company params) (set_organization_outbox ob db2).

(** The scope of a call of [EnsureDefaultCompany] sees the tenant. *)
Definition ensure_scope ctx (params : EnsureDefaultCompanyParams) : Scope :=
  ServiceTenantScope (company_TenantID (ensure_Company params))
    (ensure_ServicePrincipalID params) (ctx_RequestID ctx) (ctx_CorrelationID ctx).

Lemma sql_bootstrap_company_Ok operationID tenantID sc db i :
  sql_bootstrap_company operationID tenantID sc db = Ok i →
  ∃ t o b, scoped sc t ∧ uuid_in tenantID = Some t ∧ uuid_in operationID = Some o ∧
    organization_bootstrap db !! o = Some b ∧ bootstrap_TenantID b = t ∧
    bootstrap_CompanyID b = i.
Proof.
  unfold sql_bootstrap_company. intros Hr. apply result_bind_Ok in Hr as (r & Hsc & Hr).
  apply result_bind_Ok in Hr as (o & Ho%cast_Ok & Hr).
  apply result_bind_Ok in Hr as (t & Ht%cast_Ok & Hr).
  destruct (_ !! _) as [b|] eqn:Hb; [|done]. case_match; [|done]. bool_facts.
  injection Hr as <-. exists t, o, b. split; [by exists r|done].
Qed.

Lemma EnsureDefaultCompany_Ok ctx params db ev a db' :
  run (EnsureDefaultCompany ctx params) db ev = (Ok a, db') →
  default_ensured params db a db' ∧ Scope_Validate (ensure_scope ctx params) = Ok tt ∧
  ∃ t, uuid_in (company_TenantID (ensure_Company params)) = Some t ∧
    scoped (ensure_scope ctx params) t.
Proof.
  intros (s & Hr & ->)%run_Ok. unfold EnsureDefaultCompany, queryCompany, beginServiceTenant,
    insertCompany, advisory_lock in Hr. fold (ensure_scope ctx params) in Hr.
  apply tx_bind_Ok in Hr as ([] & s1 & (Hval & Hd1 & Hs1 & _)%Begin_Ok & Hr). cbn in Hd1.
  apply tx_bind_Ok in Hr as ([id|] & s2 & [(Hd2 & Hs2 & _) Hq]%find_row_Ok & Hr).
  - apply sql_bootstrap_company_Ok in Hq as (t & o & b & Hsc & Ht & Ho & Hb & Hbt & <-).
    apply tx_bind_Ok in Hr as (row & s3 & [Hrow%sql_row_Ok (Hd3 & _)]%map_err_Ok%query_Ok & Hr).
    apply tx_bind_Ok in Hr as ([] & s4 & (Hcom & _ & _)%commit_Ok & [-> ->]%ret_Ok).
    destruct Hrow as (t' & c & _ & Ht' & Hc & Hrow). rewrite Ht in Ht'. injection Ht' as <-.
    rewrite Hcom. cbn. rewrite Hd3, Hd2, Hd1, Hs1 in *.
    split; [by econstructor|]. eauto.
  - apply tx_bind_Ok in Hr as ([] & s3 & (Hd3 & Hs3 & _)%statement_Ok & Hr).
    apply tx_bind_Ok in Hr as ([id|] & s4 & [(Hd4 & Hs4 & _) Hq']%find_row_Ok & Hr);
      rewrite Hd3, Hd2, Hd1, Hs3, Hs2, Hs1 in *.
    + cbn in Hq'. apply sql_default_company_Ok in Hq' as (t & k & found & Ht & Hk & Hact & <-).
      apply tx_bind_Ok in Hr as (u & s5 & [Hrec Hs5]%recordBootstrapRequest_Ok & Hr).
      apply tx_bind_Ok in Hr as (row & s6 & [Hrow%sql_row_Ok (Hd6 & _)]%map_err_Ok%query_Ok & Hr).
      apply tx_bind_Ok in Hr as ([] & s7 & (Hcom & _ & _)%commit_Ok & [-> ->]%ret_Ok).
      destruct Hrow as (t' & c & Hsc & Ht' & Hc & Hrow). rewrite Ht in Ht'. injection Ht' as <-.
      rewrite Hcom. cbn. rewrite Hd6, Hs5, Hs4 in *. rewrite Hd4 in Hrec.
      pose proof (sql_bootstrap_company_none _ _ _ _ _ Hsc Ht Hq).
      split; [by econstructor|]. eauto.
    + apply tx_bind_Ok in Hr as (u & s5 & (_ & Hi & _)%map_err_Ok%exec_Ok & Hr).
      rewrite Hd4, Hs4 in Hi. pose proof (sql_insert_company_scoped _ _ _ _ _ Hi) as (t & Ht & Hsc).
      apply sql_insert_company_Ok in Hi.
      apply tx_bind_Ok in Hr as (u' & s6 & [Hrec _]%recordBootstrapRequest_Ok & Hr).
      apply tx_bind_Ok in Hr as ([] & s7 & (clock & ob & _ & Hd7)%organization_outbox_Ok & Hr).
      apply tx_bind_Ok in Hr as ([] & s8 & (Hcom & _ & _)%commit_Ok & [-> ->]%ret_Ok).
      pose proof (sql_bootstrap_company_none _ _ _ _ _ Hsc Ht Hq).
      rewrite Hcom. cbn. rewrite Hd7. split; [by econstructor|]. eauto.
Qed.

End Effects.
