(* ===== verification/OrganizationInvariant.v ===== *)
(** * Organization: the invariant of the tables

    What holds of the companies, agents and revisions after every committed method, and
    that each effect of [OrganizationEffects] keeps it. *)

From S2P Require Import Prelude GoStrings Postgres Graph Usecase Outbox.
From S2P Require Import OrganizationDomain OrganizationStore OrganizationRepository.
From S2P Require Import OrganizationHierarchy OrganizationEffects.
From stdpp Require Import strings gmap list relations.
From Stdlib Require Import String Lia.
Open Scope string_scope.
Open Scope list_scope.
Open Scope Z_scope.

Section Invariant.
Context `{PlatformLaws, !Proto, !Json}.
Implicit Types (db : organization_tables) (a row current : Agent).

(** ** The invariant *)

(** The statuses that agents have. *)
Definition live_statuses : list AgentStatus := [AgentStatusDraft; AgentStatusDeleted].

Record organization_ok db : Prop := {
  ok_company t c co : organization_companies db !! (t, c) = Some co →
    company_TenantID co = t ∧ company_ID co = c ∧ uuid_in t = Some t ∧ uuid_in c = Some c;
  ok_default t k k' co co' : organization_companies db !! k = Some co →
    organization_companies db !! k' = Some co' →
    active_default t co = true → active_default t co' = true → k = k';
  ok_default_active k co : organization_companies db !! k = Some co →
    company_IsDefault co = true → company_Status co = CompanyStatusActive;
  ok_bootstrap o b : organization_bootstrap db !! o = Some b →
    is_Some (organization_companies db !! (bootstrap_TenantID b, bootstrap_CompanyID b));
  ok_linked : agents_linked db;
  ok_agent k row : organization_agents db !! k = Some row →
    stored_agent row = Some row ∧ 0 < agent_Version row ∧ agent_Status row ∈ live_statuses;
  ok_staffed k row : organization_agents db !! k = Some row →
    agent_Status row ≠ AgentStatusDeleted →
    ∃ co, organization_companies db !! (agent_TenantID row, agent_CompanyID row) = Some co ∧
      company_Status co = CompanyStatusActive;
  ok_acyclic t : acyclic (reports_to db t);
  ok_history t i n : is_Some (organization_revisions db !! (t, i, n)) ↔
    ∃ row, organization_agents db !! (t, i) = Some row ∧ 1 ≤ n ≤ agent_Version row;
  ok_revision t i n v : organization_revisions db !! (t, i, n) = Some v →
    ∃ row, stored_agent (revision_Snapshot v) = Some row ∧ agent_TenantID row = t ∧
      agent_ID row = i ∧ agent_Version row = n;
  ok_snapshot t i row : organization_agents db !! (t, i) = Some row →
    ∃ v, organization_revisions db !! (t, i, agent_Version row) = Some v ∧
      stored_agent (revision_Snapshot v) = Some row;
}.

Lemma no_tables_ok : organization_ok no_organization_tables.
Proof.
  split; cbn; try (intros; by rewrite lookup_empty in * ).
  - split; cbn; intros; by rewrite lookup_empty in *.
  - intros t x Hx. apply tc_invariant with (P := λ x, x ≠ x) in Hx; [done| |].
    + intros ?? (? & ? & Hl & _). cbn in Hl. by rewrite lookup_empty in Hl.
    + exfalso. inversion Hx as [?? (? & ? & Hl & _)|??? (? & ? & Hl & _)]; subst;
        cbn in Hl; by rewrite lookup_empty in Hl.
  - intros t i n. rewrite lookup_empty. split; [by intros [? ?]|intros (? & Hl & _)].
    by rewrite lookup_empty in Hl.
Qed.

(** ** How rows evolve *)

(** Agents keep their company and get new versions, companies stay. *)
Record grows db db' : Prop := {
  grows_agent k row : organization_agents db !! k = Some row →
    ∃ row', organization_agents db' !! k = Some row' ∧
      agent_CompanyID row' = agent_CompanyID row ∧
      (row' = row ∨ agent_Version row < agent_Version row');
  grows_company k co : organization_companies db !! k = Some co →
    ∃ co', organization_companies db' !! k = Some co' ∧
      company_IsDefault co' = company_IsDefault co;
}.

#[export] Instance grows_refl : Reflexive grows.
Proof. intros db. split; eauto. Qed.

(** What is left of an agent that was read: the row has its version still, and is the same,
    or a later one. *)
Definition agent_read a db : Prop :=
  stored_agent a = Some a ∧ 0 < agent_Version a ∧ agent_Status a ∈ live_statuses ∧
  ∃ row, organization_agents db !! (agent_TenantID a, agent_ID a) = Some row ∧
    agent_CompanyID row = agent_CompanyID a ∧
    (row = a ∨ agent_Version a < agent_Version row).

Definition company_read (co : Company) db : Prop := ∃ co',
  organization_companies db !! (company_TenantID co, company_ID co) = Some co' ∧
  company_IsDefault co' = company_IsDefault co.

Lemma agent_read_grows a db db' : grows db db' → agent_read a db → agent_read a db'.
Proof.
  intros Hg (Hs & Hv & Hst & row & Hrow & Hc & Hr). split_and!; [done..|].
  destruct (grows_agent _ _ Hg _ _ Hrow) as (row' & Hrow' & Hc' & Hr').
  exists row'. split_and!; [done|congruence|]. naive_solver lia.
Qed.

Lemma company_read_grows co db db' : grows db db' → company_read co db → company_read co db'.
Proof.
  intros Hg (row & Hrow & Hd). destruct (grows_company _ _ Hg _ _ Hrow) as (row' & ? & ?).
  exists row'. split; [done|congruence].
Qed.

(** ** Agents are rewritten from the row they were read as *)

(** A change of [current] by an agent computed from it. *)
Record changes (params : UpdateAgentParams) (change : Agent → Agent) current : Prop := {
  changes_tenant : agent_TenantID (updateAgent_Agent params) = agent_TenantID current;
  changes_id : agent_ID (updateAgent_Agent params) = agent_ID current;
  changes_company : agent_CompanyID (updateAgent_Agent params) = agent_CompanyID current;
  changes_version : agent_Version (updateAgent_Agent params)
                      = int64_incr (agent_Version current);
}.

Lemma stored_canonical a row :
  stored_agent a = Some row → stored_agent row = Some row.
Proof.
  unfold stored_agent. intros (t & Ht%uuid_in_canonical & (c & Hc%uuid_in_canonical &
    (i & Hi%uuid_in_canonical & (m & Hm & (u & Hu%uuid_in_canonical & [= <-])
    %bind_Some)%bind_Some)%bind_Some)%bind_Some)%bind_Some. cbn. rewrite Ht, Hc, Hi, Hu. cbn.
  assert (match m with Some m0 => Some <$> uuid_in m0 | None => Some None end = Some m) as ->.
  { destruct (agent_ManagerAgentID a) as [m0|]; [|by injection Hm as <-].
    destruct (uuid_in m0) as [m1|] eqn:E; [|done].
    injection Hm as <-. by rewrite (uuid_in_canonical _ _ E). }
  cbn. unfold agent_row. cbn. by rewrite !timestamptz_idem; destruct (agent_DeletedAt a); cbn;
    rewrite ?timestamptz_idem.
Qed.

Lemma int64_incr_below v : 0 < v → v + 1 ≤ int64_max → int64_incr v = v + 1.
Proof. intros. apply int64_wrap_small. unfold int64_min, int64_max in *. lia. Qed.

(** The row that a change rewrites is the agent that the change was computed from: the
    revision of the next version is taken otherwise. *)
Lemma rewritten_current params change current db db' :
  organization_ok db → agent_read current db → changes params change current →
  agent_rewritten params change db db' →
  let key := (agent_TenantID current, agent_ID current) in
  organization_agents db !! key = Some current ∧
  agent_Version current = updateAgent_ExpectedVersion params ∧
  agent_Version current + 1 ≤ int64_max.
Proof.
  intros Hok (Hs & Hv & _ & row & Hrow & _ & Hr) [Ct Ci Cc Cv] Heff key.
  destruct Heff as [t i c old company v clock ob Ht Hi _ _ _ Hold Hver Hmax _ _ Hnone _ _ _ _ _ _].
  destruct (stored_agent_keys _ _ Hs) as (Ht' & _ & Hi' & _).
  rewrite Ct, Ht' in Ht. rewrite Ci, Hi' in Hi. injection Ht as <-. injection Hi as <-.
  rewrite Hrow in Hold. injection Hold as <-. subst key.
  destruct Hr as [->|Hlt]; [done|]. exfalso. rewrite Cv, int64_incr_below in Hnone by lia.
  apply eq_None_not_Some in Hnone. apply Hnone, (ok_history _ Hok). exists row.
  split; [done|lia].
Qed.

(** The edges of a table after a row took another form: an agent that has the manager it had
    and does not come back keeps its edges, and loses those that its deletion hides. *)
Lemma reports_kept db t i old row t' n v ob x y :
  organization_agents db !! (t, i) = Some old →
  agent_ManagerAgentID row = agent_ManagerAgentID old →
  (agent_Status row ≠ AgentStatusDeleted → agent_Status old ≠ AgentStatusDeleted) →
  reports_to (with_agent t i row n v ob db) t' x y → reports_to db t' x y.
Proof.
  intros Hold Hm Hst (r & b & Hr & Hb & Hrm & Hrs & Hbs). cbn in Hr, Hb.
  apply lookup_insert_Some in Hr as [[Hx <-]|[Hne Hr]];
    apply lookup_insert_Some in Hb as [[Hy <-]|[Hne' Hb]];
    try injection Hx as -> ->; try injection Hy; intros; subst.
  - exists old, old. split_and!; [done|done|congruence|auto|auto].
  - exists old, b. split_and!; [done|done|congruence|auto|auto].
  - exists r, old. split_and!; [done|done|congruence|auto|auto].
  - exists r, b. by split_and!.
Qed.

Lemma lookup_revisions (R : gmap (string * string * Z) AgentRevision)
    (A : gmap (string * string) Agent) k row n :
  (agent_Version row = n) →
  (∀ t i n, is_Some (R !! (t, i, n)) ↔ ∃ r, A !! (t, i) = Some r ∧ 1 ≤ n ≤ agent_Version r) →
  0 < n →
  (∃ old, A !! k = Some old ∧ agent_Version old + 1 = n) ∨ A !! k = None ∧ n = 1 →
  ∀ v t' i' n', is_Some ((<[(k.1, k.2, n) := v]> R) !! (t', i', n')) ↔
    ∃ r, (<[k := row]> A) !! (t', i') = Some r ∧ 1 ≤ n' ≤ agent_Version r.
Proof.
  intros Hn Hh H0n Hcase v t' i' n'. destruct k as [t i]; cbn in *.
  destruct (decide ((t', i') = (t, i))) as [[= -> ->]|Hk].
  - rewrite lookup_insert_eq. destruct (decide (n' = n)) as [->|Hn'].
    + rewrite lookup_insert_eq. split; [intros _; exists row; split; [done|]|by intros _].
      naive_solver lia.
    + rewrite lookup_insert_ne by congruence. rewrite Hh.
      destruct Hcase as [(old & Hk & Hv)|[Hk ->]]; rewrite Hk; naive_solver lia.
  - rewrite !lookup_insert_ne by congruence. apply Hh.
Qed.

(** What the new row of an agent has to satisfy, whatever the change is. *)
Record row_ok row a db : Prop := {
  row_stored : stored_agent a = Some row;
  row_live : agent_Status row ∈ live_statuses;
  row_manager : manager_exists row db = true;
  row_staffed : agent_Status row ≠ AgentStatusDeleted → ∃ co,
    organization_companies db !! (agent_TenantID row, agent_CompanyID row) = Some co ∧
    company_Status co = CompanyStatusActive;
}.

Lemma manager_exists_with row' db t i row n v ob :
  (∀ old, organization_agents db !! (t, i) = Some old →
     agent_CompanyID row = agent_CompanyID old) →
  manager_exists row' db = true → manager_exists row' (with_agent t i row n v ob db) = true.
Proof.
  intros Hc. unfold manager_exists. destruct (agent_ManagerAgentID row') as [m|]; [|done].
  cbn. destruct (decide ((agent_TenantID row', m) = (t, i))) as [->|Hne].
  - rewrite lookup_insert_eq. destruct (_ !! _) as [old|] eqn:Hold; [|done].
    by rewrite (Hc _ eq_refl).
  - by rewrite lookup_insert_ne.
Qed.

(** An agent that is written, with the revision of its version, keeps the invariant. *)
Lemma with_agent_ok row a v ob db :
  let t := agent_TenantID row in let i := agent_ID row in let n := agent_Version row in
  organization_ok db → row_ok row a db →
  (∃ old, organization_agents db !! (t, i) = Some old ∧
     agent_CompanyID row = agent_CompanyID old ∧ agent_Version old + 1 = n) ∨
  organization_agents db !! (t, i) = None ∧ n = 1 →
  revision_Snapshot v = a → (∀ t', acyclic (reports_to (with_agent t i row n v ob db) t')) →
  organization_ok (with_agent t i row n v ob db).
Proof.
  intros t i n Hok [Hs Hl Hm Hst] Hcase Hv Hac. assert (0 < n) as Hn.
  { destruct Hcase as [(old & Hold & _ & <-)|[_ ->]]; [|done].
    pose proof (ok_agent _ Hok _ _ Hold). naive_solver lia. }
  split; cbn; try apply Hok; try exact Hac.
  - destruct (ok_linked _ Hok) as [Hk Hb]. split; cbn.
    + intros t' i' r [[[= <- <-] <-]|[_ Hr]]%lookup_insert_Some; [done|by apply Hk].
    + intros k r Hr. apply manager_exists_with; [naive_solver|].
      apply lookup_insert_Some in Hr as [[_ <-]|[_ Hr]]; [done|by eapply Hb].
  - intros k r [[_ <-]|[_ Hr]]%lookup_insert_Some; [|by eapply ok_agent].
    split_and!; [by eapply stored_canonical|done|done].
  - intros k r [[_ <-]|[_ Hr]]%lookup_insert_Some; [done|by eapply ok_staffed].
  - apply (lookup_revisions _ _ (t, i) row); [done|by apply ok_history|done|naive_solver].
  - intros t' i' n' w [[[= <- <- <-] <-]|[_ Hw]]%lookup_insert_Some.
    + exists row. by rewrite Hv.
    + by eapply ok_revision.
  - intros t' i' r [[[= <- <-] <-]|[Hne Hr]]%lookup_insert_Some.
    + exists v. rewrite lookup_insert_eq, Hv. done.
    + destruct (ok_snapshot _ Hok _ _ _ Hr) as (w & Hw & Hws). exists w.
      rewrite lookup_insert_ne by congruence. done.
Qed.

Lemma with_agent_grows row v ob db :
  let key := (agent_TenantID row, agent_ID row) in
  (∀ old, organization_agents db !! key = Some old →
     agent_CompanyID row = agent_CompanyID old ∧ agent_Version old < agent_Version row) →
  grows db (with_agent key.1 key.2 row (agent_Version row) v ob db).
Proof.
  intros key Hold. split; cbn; [|eauto]. intros k r Hr.
  destruct (decide (k = key)) as [->|Hne].
  - destruct (Hold _ Hr). exists row. rewrite lookup_insert_eq. auto.
  - exists r. rewrite lookup_insert_ne by done. auto.
Qed.

(** A change that keeps the identity of the agent, does not revive it, and adds no cycle
    keeps the invariant. *)
Lemma rewritten_ok params change current db db' :
  let new := change current in
  organization_ok db → agent_read current db → changes params change current →
  agent_TenantID new = agent_TenantID current → agent_ID new = agent_ID current →
  agent_CompanyID new = agent_CompanyID current →
  (agent_Version current + 1 ≤ int64_max →
     stored_agent (updateAgent_Agent params) = Some new) →
  agent_Status new ∈ live_statuses →
  (agent_Status new ≠ AgentStatusDeleted → agent_Status current ≠ AgentStatusDeleted) →
  (∀ v n ob t', organization_agents db !! (agent_TenantID current, agent_ID current)
     = Some current → manager_exists new db = true → acyclic (reports_to
       (with_agent (agent_TenantID current) (agent_ID current) new n v ob db) t')) →
  agent_rewritten params change db db' → organization_ok db' ∧ grows db db'.
Proof.
  intros new Hok Hread Hch Et Ei Ec Hstored Hlive Halive Hac Heff.
  destruct (rewritten_current _ _ _ _ _ Hok Hread Hch Heff) as (Hcur & _ & Hmax).
  destruct Hread as (Hs & Hv & _).
  destruct Heff as [t i c old co v clock ob Ht Hi Hc Hco Hst Hold _ _ _ Hm _ _ _ _ _ Hsnap _].
  destruct Hch as [Ct Ci Cc Cv], (stored_agent_keys _ _ Hs) as (Ht' & Hc' & Hi' & _).
  rewrite Ct, Ht' in Ht. rewrite Ci, Hi' in Hi. rewrite Cc, Hc' in Hc.
  injection Ht as <-. injection Hi as <-. injection Hc as <-.
  rewrite Hcur in Hold. injection Hold as <-. fold new in Hm |- *. specialize (Hstored Hmax).
  destruct (stored_agent_keys _ _ Hstored) as (_ & _ & _ & Hvn & _).
  assert (agent_Version new = agent_Version current + 1) as Hvn'
    by (by rewrite Hvn, Cv, int64_incr_below).
  rewrite <-Hvn, <-Et, <-Ei. split.
  - eapply (with_agent_ok new (updateAgent_Agent params)); [done| | |done|].
    + split; [done..|]. intros _. rewrite Et, Ec. eauto.
    + left. exists current. rewrite Et, Ei. by split_and!.
    + intros t'. rewrite Et, Ei. by apply Hac.
  - apply with_agent_grows. rewrite Et, Ei, Hcur. intros ? [= <-]. split; [done|lia].
Qed.

Lemma reports_kept_acyclic db t i old row n v ob t' :
  organization_ok db → organization_agents db !! (t, i) = Some old →
  agent_ManagerAgentID row = agent_ManagerAgentID old →
  (agent_Status row ≠ AgentStatusDeleted → agent_Status old ≠ AgentStatusDeleted) →
  acyclic (reports_to (with_agent t i row n v ob db) t').
Proof.
  intros Hok Hold Hm Hst. eapply acyclic_subrel; [|by apply (ok_acyclic _ Hok t')].
  intros x y. by apply (reports_kept _ _ _ _ _ _ _ _ _ _ _ Hold).
Qed.

(** The edges of a table with one agent moved or added: those it had and the new one. *)
Lemma reports_moved db t i row n v ob x y :
  (∀ old, organization_agents db !! (t, i) = Some old →
     agent_Status row ≠ AgentStatusDeleted → agent_Status old ≠ AgentStatusDeleted) →
  (organization_agents db !! (t, i) = None → ∀ k r, organization_agents db !! k = Some r →
     agent_TenantID r = k.1 ∧ manager_exists r db = true) →
  ∀ t', reports_to (with_agent t i row n v ob db) t' x y →
  reports_to db t' x y ∨
  t' = t ∧ x = i ∧ agent_ManagerAgentID row = Some y ∧
    (i ≠ y → ∃ boss, organization_agents db !! (t, y) = Some boss ∧
       agent_Status boss ≠ AgentStatusDeleted).
Proof.
  intros Hold Hnone t' (r & b & Hr & Hb & Hrm & Hrs & Hbs). cbn in Hr, Hb.
  apply lookup_insert_Some in Hr as [[[= <- <-] <-]|[Hne Hr]].
  - right. split_and!; [done..|]. intros Hiy. exists b.
    by rewrite lookup_insert_ne in Hb by congruence.
  - left. apply lookup_insert_Some in Hb as [[[= <- <-] <-]|[Hne' Hb]]; [|by exists r, b].
    destruct (organization_agents db !! (t, i)) as [old|] eqn:Ho.
    + exists r, old. split_and!; [done..|by eapply Hold].
    + exfalso. destruct (Hnone eq_refl _ _ Hr) as [Ht Hm]. cbn in Ht.
      destruct (manager_exists_true _ _ _ Hm Hrm) as (? & ? & _). congruence.
Qed.

(** One more edge to an agent that is not behind [i] makes no cycle. *)
Lemma moved_acyclic db row n v ob t' :
  let t := agent_TenantID row in let i := agent_ID row in
  organization_ok db → manager_exists row db = true →
  (∀ old, organization_agents db !! (t, i) = Some old →
     agent_Status row ≠ AgentStatusDeleted → agent_Status old ≠ AgentStatusDeleted) →
  (∀ y boss, agent_ManagerAgentID row = Some y → organization_agents db !! (t, y) = Some boss →
     employed t (agent_CompanyID row) boss = true → i ≠ y ∧ ¬ rtc (reports_to db t) y i) →
  acyclic (reports_to (with_agent t i row n v ob db) t').
Proof.
  intros t i Hok Hm Hold Hno.
  assert (Hnone : organization_agents db !! (t, i) = None → ∀ k r,
    organization_agents db !! k = Some r → agent_TenantID r = k.1 ∧ manager_exists r db = true).
  { intros _ [t1 i1] r Hr. destruct (ok_linked _ Hok) as [Hk Hb].
    split; [by destruct (Hk _ _ _ Hr)|by eapply Hb]. }
  pose proof (λ x y, reports_moved db t i row n v ob x y Hold Hnone t') as Hsub.
  destruct (decide (t' = t)) as [->|Ht].
  2:{ eapply acyclic_subrel; [|by apply (ok_acyclic _ Hok t')]. intros x y Hxy%Hsub. naive_solver. }
  destruct (agent_ManagerAgentID row) as [y|] eqn:Hy.
  2:{ eapply acyclic_subrel; [|by apply (ok_acyclic _ Hok t)]. intros x z Hxz%Hsub. naive_solver. }
  destruct (manager_exists_true _ _ _ Hm Hy) as (boss & Hboss & Hbc).
  destruct (decide (employed t (agent_CompanyID row) boss = true)) as [He|He].
  - destruct (Hno y boss eq_refl Hboss He) as [Hiy Hrtc].
    eapply acyclic_subrel; [|apply (acyclic_new_edge (reports_to db t) i y);
      [by apply ok_acyclic| |done]].
    + intros x z [?|(_ & -> & [= <-] & _)]%Hsub; [by left|by right].
    + by intros ?%tc_rtc.
  - assert (agent_Status boss = AgentStatusDeleted) as Hd.
    { destruct (decide (agent_Status boss = AgentStatusDeleted)) as [|Hs]; [done|].
      exfalso. apply He, employed_true. split_and!; [|done|done].
      by destruct (linked_keys _ (ok_linked _ Hok) _ _ _ Hboss). }
    destruct (decide (i = y)) as [<-|Hiy].
    + eapply acyclic_subrel; [|by apply (ok_acyclic _ Hok t)].
      intros x z Hxz. pose proof Hxz as (r & b & _ & Hb & _ & _ & Hbs).
      apply Hsub in Hxz as [?|(_ & -> & [= <-] & _)]; [done|]. exfalso.
      cbn in Hb. rewrite lookup_insert_eq in Hb. injection Hb as <-. by eapply Hold.
    + eapply acyclic_subrel; [|by apply (ok_acyclic _ Hok t)].
      intros x z [?|(_ & -> & [= <-] & Hb)]%Hsub; [done|].
      destruct (Hb Hiy) as (b & Hb' & Hbs). unfold t in Hb'. congruence.
Qed.

(** The manager that passed the check of [SetAgentManager]. *)
Lemma cycle_checked_free a db t c i y boss :
  organization_ok db → cycle_checked a db →
  uuid_in (agent_TenantID a) = Some t → uuid_in (agent_CompanyID a) = Some c →
  uuid_in (agent_ID a) = Some i →
  cast_option (agent_ManagerAgentID a) = Ok (Some y) →
  organization_agents db !! (t, y) = Some boss → employed t c boss = true →
  i ≠ y ∧ ¬ rtc (reports_to db t) y i.
Proof.
  intros Hok Hchk Ht Hc Hi Hm Hboss He.
  destruct (agent_ManagerAgentID a) as [manager|] eqn:Hman; [|done].
  apply cast_option_Ok in Hm. destruct (uuid_in manager) as [y'|] eqn:Hy; [|done].
  injection Hm as ->.
  destruct (Hchk _ Hman) as (sc & t' & c' & m' & i' & Ht' & Hc' & Hm' & Hi' & _ & Hq & r & Hr & Hsc).
  assert (t' = t ∧ c' = c ∧ m' = y ∧ i' = i) as (-> & -> & -> & ->) by naive_solver.
  unfold sql_would_cycle, cast in Hq. rewrite Hr, Ht, Hc, Hy, Hi in Hq.
  cbn in Hq. rewrite Hsc in Hq. apply result_bind_Ok in Hq as (rows & Hrows%from_option_err_Ok & Hq).
  injection Hq as Hq.
  assert (¬ rtc (reports_to db t) y i) as Hrtc.
  { intros Hrtc. pose proof (manager_chain_reaches db (ok_linked _ Hok) t c y rows i Hrows)
      as [_ Hreach].
    rewrite Hreach in Hq; [done|]. split; [by exists boss|done]. }
  split; [|done]. intros ->. by apply Hrtc.
Qed.

(** ** New agents *)

Lemma created_ok params db db' :
  organization_ok db → agent_created params db db' →
  agent_Version (createAgent_Agent params) = 1 →
  agent_Status (createAgent_Agent params) = AgentStatusDraft →
  organization_ok db' ∧ grows db db'.
Proof.
  intros Hok Heff Hv Hs.
  destruct Heff as [row co v clock ob Hrow Hco Hact Hnone _ Hm _ _ _ _ _ Hsnap _].
  destruct (stored_agent_keys _ _ Hrow) as (_ & _ & _ & Hrv & Hrs).
  rewrite Hv in Hrv. rewrite Hs in Hrs. split.
  - eapply (with_agent_ok row (createAgent_Agent params)); [done| |by right|done|].
    + split; [done| |done|intros _; by exists co]. rewrite Hrs. left.
    + intros t'. apply moved_acyclic; [done|done|by rewrite Hnone|].
      intros y boss _ Hboss _. split; [congruence|]. intros Hrtc.
      apply rtc_inv_r in Hrtc as [->|(x & _ & (? & ? & _ & Hx & _))]; congruence.
  - apply with_agent_grows. rewrite Hnone. done.
Qed.

(** ** Companies *)

Lemma outbox_ok ob db : organization_ok db → organization_ok (set_organization_outbox ob db).
Proof. intros [? ? ? ? [] ]. by split. Qed.

Lemma active_default_true t co :
  active_default t co = true ↔ company_TenantID co = t ∧ company_IsDefault co = true ∧
    company_Status co = CompanyStatusActive.
Proof. unfold active_default. rewrite !andb_true_iff, !String.eqb_eq. tauto. Qed.

Lemma company_put_ok db t i co :
  organization_ok db → company_TenantID co = t → company_ID co = i →
  uuid_in t = Some t → uuid_in i = Some i →
  (company_IsDefault co = true → company_Status co = CompanyStatusActive) →
  (active_default t co = true → ∀ k co', organization_companies db !! k = Some co' →
     active_default t co' = true → k = (t, i)) →
  company_Status co = CompanyStatusActive ∨
    (∀ k row, organization_agents db !! k = Some row → employed t i row = false) →
  organization_ok (set_companies (<[(t, i) := co]> (organization_companies db)) db).
Proof.
  intros Hok Et Ei Ht Hi Hda Hdu Hst. split; cbn; try apply Hok.
  - intros t' c' co' [[[= <- <-] <-]|[_ Hc]]%lookup_insert_Some; [done|by apply Hok].
  - intros t' k k' c c' [[<- <-]|[Hk Hc]]%lookup_insert_Some [[<- <-]|[Hk' Hc']]%lookup_insert_Some
      Ha Ha'; [done| | |by eapply (ok_default _ Hok)].
    + assert (t' = t) as -> by (apply active_default_true in Ha as [<- _]; done).
      symmetry. by eapply Hdu.
    + assert (t' = t) as -> by (apply active_default_true in Ha' as [<- _]; done).
      by eapply Hdu.
  - intros k c [[_ <-]|[_ Hc]]%lookup_insert_Some; [done|by eapply Hok].
  - intros o b Hb. apply lookup_insert_is_Some'. right. by eapply Hok.
  - destruct (ok_linked _ Hok). by split.
  - intros k row Hrow Hs. destruct (ok_staffed _ Hok _ _ Hrow Hs) as (co' & Hco' & Hact).
    destruct (decide ((t, i) = (agent_TenantID row, agent_CompanyID row))) as [E|Hne].
    + rewrite <-E, lookup_insert_eq. exists co. split; [done|]. destruct Hst as [|Hno]; [done|].
      exfalso. assert (employed t i row = true) as He.
      { apply employed_true. injection E as -> ->. done. }
      by rewrite (Hno _ _ Hrow) in He.
    + exists co'. by rewrite lookup_insert_ne.
Qed.

Lemma company_put_grows db k co ob :
  (∀ old, organization_companies db !! k = Some old →
     company_IsDefault co = company_IsDefault old) →
  grows db (set_organization_outbox ob
    (set_companies (<[k := co]> (organization_companies db)) db)).
Proof.
  intros Hold. split; cbn; [eauto|]. intros k' c Hc. destruct (decide (k' = k)) as [->|Hne].
  - exists co. by rewrite lookup_insert_eq, (Hold _ Hc).
  - exists c. by rewrite lookup_insert_ne.
Qed.

Lemma company_rewritten_ok params change db db' :
  organization_ok db →
  (∀ co, company_TenantID (change co) = company_TenantID co ∧
         company_ID (change co) = company_ID co ∧
         company_IsDefault (change co) = company_IsDefault co) →
  (∀ t i old, uuid_in (company_TenantID (updateCompany_Company params)) = Some t →
     uuid_in (company_ID (updateCompany_Company params)) = Some i →
     organization_companies db !! (t, i) = Some old →
     company_Status (change old) = company_Status old ∨
     company_IsDefault old = false ∧ ∀ k row,
       organization_agents db !! k = Some row → employed t i row = false) →
  company_rewritten params change db db' → organization_ok db' ∧ grows db db'.
Proof.
  intros Hok Hsame Hstat [t i old clock ob Ht Hi Hold _ _ _ _].
  destruct (Hsame old) as (Et & Ei & Ed). destruct (ok_company _ Hok _ _ _ Hold) as (Ot & Oi & Ut & Ui).
  specialize (Hstat _ _ _ Ht Hi Hold). split; [|apply company_put_grows; congruence].
  apply outbox_ok, company_put_ok; [done|congruence..|done|done| | |].
  - rewrite Ed. intros Hd. destruct Hstat as [->|[? _]]; [by eapply Hok|congruence].
  - intros Ha k co' Hco' Ha'. eapply (ok_default _ Hok t); [done|exact Hold|done|].
    apply active_default_true in Ha as (_ & Hd & _). rewrite Ed in Hd.
    apply active_default_true. split_and!; [done..|by eapply Hok].
  - destruct Hstat as [->|[_ Hno]]; [|by right].
    destruct (decide (company_Status old = CompanyStatusActive)) as [|Hn]; [by left|].
    right. intros k row Hrow. destruct (employed t i row) eqn:He; [|done]. exfalso.
    apply employed_true in He as (<- & <- & Hs).
    destruct (ok_staffed _ Hok _ _ Hrow Hs) as (co' & Hco' & Hact). congruence.
Qed.

Lemma company_inserted_ok c db db' ob :
  organization_ok db → company_inserted c db db' → company_Status c = CompanyStatusActive →
  organization_ok db' ∧ grows db (set_organization_outbox ob db').
Proof.
  intros Hok (t & i & u & Ht & Hi & _ & Hnone & Hdef & ->) Hs. split.
  - apply company_put_ok; [done|done|done|by eapply uuid_in_canonical..|done| |by left].
    intros Ha k co' Hco' Ha'. by rewrite (Hdef Ha _ _ Hco') in Ha'.
  - apply company_put_grows. by rewrite Hnone.
Qed.

Lemma bootstrap_recorded_ok params i db db' :
  organization_ok db → bootstrap_recorded params i db db' →
  organization_ok db' ∧ organization_companies db' = organization_companies db ∧
  organization_agents db' = organization_agents db.
Proof.
  intros Hok (t & o & c & u & Ht & Ho & Hc & _ & [[_ ->]|(Hnone & Hco & ->)]); [done|].
  split; [|done]. split; cbn; try apply Hok.
  - intros o' b [[_ <-]|[_ Hb]]%lookup_insert_Some; [done|by eapply Hok].
  - destruct (ok_linked _ Hok). by split.
Qed.

Lemma grows_tables db db' db'' :
  organization_companies db'' = organization_companies db' →
  organization_agents db'' = organization_agents db' → grows db db' → grows db db''.
Proof. intros Hc Ha [? ?]. split; [by rewrite Ha|by rewrite Hc]. Qed.

Lemma default_ensured_ok params db (co : Company) db' :
  organization_ok db → default_ensured params db co db' →
  company_Status (ensure_Company params) = CompanyStatusActive →
  organization_ok db' ∧ grows db db'.
Proof.
  intros Hok Heff Hs. destruct Heff as [|t c k found row db' _ _ _ _ Hrec _ _|t db1 db2 ob _ _ Hins Hrec].
  - done.
  - destruct (bootstrap_recorded_ok _ _ _ _ Hok Hrec) as (Hok' & Hc & Ha).
    split; [done|]. by eapply grows_tables.
  - destruct (company_inserted_ok _ _ _ ob Hok Hins Hs) as [Hok1 Hg].
    destruct (bootstrap_recorded_ok _ _ _ _ Hok1 Hrec) as (Hok' & Hc & Ha).
    split; [by apply outbox_ok|]. by eapply grows_tables; [..|exact Hg].
Qed.

End Invariant.
