(* ===== verification/OrganizationSystem.v ===== *)
(** * Organization: all requests as one transition system

    A request that changes an agent or a company reads it in one transaction and writes it
    in another. The system interleaves such requests: it knows the agents and companies
    that requests have read, any of which may be written back, computed by the application
    layer, at any later time. [OrganizationProperties] shows that the use cases run in it. *)

From S2P Require Import Prelude GoStrings Postgres Graph Usecase Outbox.
From S2P Require TenantDomain.
From S2P Require Import OrganizationDomain OrganizationStore OrganizationService.
From S2P Require Import OrganizationRepository OrganizationHierarchy OrganizationEffects.
From S2P Require Import OrganizationInvariant.
From stdpp Require Import strings gmap list relations.
From Stdlib Require Import String Lia.
Open Scope string_scope.
Open Scope list_scope.
Open Scope Z_scope.

#[local] Notation world := (Usecase.world organization_tables).

Section System.
Context `{PlatformLaws, OrganizationProto, !Json}.
Variables (config : Config) (CheckAuthorization : Authorization).
Implicit Types (ctx : Ctx) (ev : env) (w : world).

Record system := {
  sys_tables : organization_tables;
  sys_agents : list Agent;
  sys_companies : list Company;
}.

Definition after_run {A} (σ : system) (m : repo A) ev : system := {|
  sys_tables := (run m (sys_tables σ) ev).2;
  sys_agents := sys_agents σ; sys_companies := sys_companies σ |}.

(** The two changes of status that are asked for. *)
Definition lifecycle_changes : list (AgentStatus * string * string) :=
  [(AgentStatusPaused, "paused", "agent.paused"); (AgentStatusReady, "resumed", "agent.resumed")].

Inductive step (σ : system) : system → Prop :=
| step_read_agent ctx a t i ev agent :
    (run (GetAgent ctx a t i) (sys_tables σ) ev).1 = Ok agent →
    step σ {| sys_tables := sys_tables σ; sys_agents := agent :: sys_agents σ;
              sys_companies := sys_companies σ |}
| step_read_company ctx a t c ev company :
    (run (GetCompany ctx a t c) (sys_tables σ) ev).1 = Ok company →
    step σ {| sys_tables := sys_tables σ; sys_agents := sys_agents σ;
              sys_companies := company :: sys_companies σ |}
| step_create_company ctx input w ev params :
    CreateCompany_params config CheckAuthorization ctx input w = Ok params →
    step σ (after_run σ (CreateCompany ctx params) ev)
| step_update_company ctx input company w ev params :
    company ∈ sys_companies σ → UpdateCompany_params config ctx input company w = Ok params →
    step σ (after_run σ (UpdateCompany ctx params) ev)
| step_archive_company ctx a v company w ev params :
    company ∈ sys_companies σ → company_IsDefault company = false →
    ArchiveCompany_params config ctx a v company w = Ok params →
    step σ (after_run σ (ArchiveCompany ctx params) ev)
| step_ensure_default ctx input w ev params :
    EnsureDefaultCompany_params config ctx input w = Ok params →
    step σ (after_run σ (EnsureDefaultCompany ctx params) ev)
| step_create_agent ctx input w ev params :
    CreateAgent_params config CheckAuthorization ctx input w = Ok params →
    step σ (after_run σ (CreateAgent ctx params) ev)
| step_update_agent ctx input agent w ev params :
    agent ∈ sys_agents σ → UpdateAgent_params config ctx input agent w = Ok params →
    step σ (after_run σ (UpdateAgent ctx params) ev)
| step_set_manager ctx input agent w ev params :
    agent ∈ sys_agents σ → SetAgentManager_params config ctx input agent w = Ok params →
    step σ (after_run σ (SetAgentManager ctx params) ev)
| step_change_status ctx input target kind type agent w ev params :
    agent ∈ sys_agents σ → (target, kind, type) ∈ lifecycle_changes →
    changeAgentStatus_params config ctx input target kind type agent w = Ok params →
    step σ (after_run σ (ChangeAgentStatus ctx params) ev)
| step_delete_agent ctx input agent w ev params :
    agent ∈ sys_agents σ → DeleteAgent_params config ctx input agent w = Ok params →
    step σ (after_run σ (DeleteAgent ctx params) ev).

Definition start : system :=
  {| sys_tables := no_organization_tables; sys_agents := []; sys_companies := [] |}.

Definition reachable : system → Prop := rtc step start.

(** ** The invariant of the system *)

Record sys_ok (σ : system) : Prop := {
  sys_tables_ok : organization_ok (sys_tables σ);
  sys_agents_read agent : agent ∈ sys_agents σ → agent_read agent (sys_tables σ);
  sys_companies_read company : company ∈ sys_companies σ →
    company_read company (sys_tables σ);
}.

(** ** Agents computed from one that was read *)

Lemma stored_deleted_at a : stored_agent a = Some a →
  timestamptz <$> agent_DeletedAt a = agent_DeletedAt a ∧
  timestamptz (agent_CreatedAt a) = agent_CreatedAt a.
Proof.
  unfold stored_agent. intros (t & _ & (c & _ & (i & _ & (m & _ & (u & _ & [= Ha])
    %bind_Some)%bind_Some)%bind_Some)%bind_Some)%bind_Some. rewrite <-Ha. cbn.
  rewrite timestamptz_idem. split; [|done]. by destruct (agent_DeletedAt a); cbn; rewrite ?timestamptz_idem.
Qed.

Lemma stored_next current manager m status deleted now :
  stored_agent current = Some current → 0 < agent_Version current →
  agent_Version current + 1 ≤ int64_max → cast_option manager = Ok m →
  let next := agent_next current manager status deleted now in
  stored_agent next = Some (agent_moved m status (timestamptz <$> deleted) next current).
Proof.
  intros Hs Hv Hmax Hm next. pose proof (stored_deleted_at _ Hs) as [_ Hca].
  destruct (stored_agent_keys _ _ Hs) as (Ht & Hc & Hi & _).
  apply cast_option_Ok in Hm. unfold stored_agent in Hs |- *. cbn.
  rewrite Ht, Hc, Hi in *. cbn in *. rewrite Hm. cbn.
  apply bind_Some in Hs as (m' & _ & (u & Hu & [= Hu'])%bind_Some). rewrite Hu. cbn.
  pose proof (f_equal agent_CreatedByUserID Hu') as Hby. cbn in Hby.
  unfold agent_row, agent_moved. cbn. by rewrite Hca, Hby, int64_incr_below.
Qed.

(** The agent that [UpdateAgent] writes. *)
Lemma UpdateAgent_params_Ok ctx input current w params :
  UpdateAgent_params config ctx input current w = Ok params →
  let next := updateAgent_Agent params in
  agent_Status current ≠ AgentStatusDeleted ∧
  changes params (agent_updated next) current ∧
  (stored_agent current = Some current → 0 < agent_Version current →
   agent_Version current + 1 ≤ int64_max →
   stored_agent next = Some (agent_updated next current)).
Proof.
  unfold UpdateAgent_params. intros Hp. result_inv Hp. cbv zeta in Hp. result_inv Hp.
  bool_facts. injection Hp as <-. cbn. split; [done|]. split; [by split|].
  intros Hs Hv Hmax. destruct (stored_deleted_at _ Hs) as [Hda Hca].
  destruct (stored_agent_keys _ _ Hs) as (Ht & Hc & Hi & _). unfold stored_agent in Hs |- *. cbn.
  rewrite Ht, Hc, Hi in *. cbn in *. apply bind_Some in Hs as (m & -> & (u & Hu & [= Hu'])%bind_Some).
  rewrite Hu. cbn. pose proof (f_equal agent_CreatedByUserID Hu') as Hby.
  pose proof (f_equal agent_ManagerAgentID Hu') as Hma. cbn in Hby, Hma.
  unfold agent_row, agent_updated. cbn. by rewrite Hda, Hca, Hby, Hma, int64_incr_below.
Qed.

Definition moves params current manager status deleted : Prop := ∃ now,
  updateAgent_Agent params = agent_next current manager status deleted now.

Lemma moves_changes params change current manager status deleted :
  moves params current manager status deleted → changes params change current.
Proof. intros (now & E). split; by rewrite E. Qed.

Lemma SetAgentManager_params_Ok ctx input current w params :
  SetAgentManager_params config ctx input current w = Ok params →
  agent_Status current ≠ AgentStatusDeleted ∧
  moves params current (managerIn_ManagerAgentID input) (agent_Status current)
    (agent_DeletedAt current).
Proof.
  unfold SetAgentManager_params. intros Hp. result_inv Hp. cbv zeta in Hp. result_inv Hp.
  bool_facts. injection Hp as <-. split; [done|]. by exists (world_now w 0%nat).
Qed.

Lemma DeleteAgent_params_Ok ctx input current w params :
  DeleteAgent_params config ctx input current w = Ok params →
  canDelete (agent_Status current) = true ∧
  ∃ now, updateAgent_Agent params = agent_next current (agent_ManagerAgentID current)
    AgentStatusDeleted (Some now) now.
Proof.
  unfold DeleteAgent_params. intros Hp. result_inv Hp. cbv zeta in Hp. result_inv Hp.
  bool_facts. injection Hp as <-. split; [done|]. by exists (world_now w 0%nat).
Qed.

(** No agent has a status that it could be paused or resumed from. *)
Lemma changeAgentStatus_params_fails ctx input target kind type current w :
  agent_Status current ∈ live_statuses → (target, kind, type) ∈ lifecycle_changes →
  changeAgentStatus_params config ctx input target kind type current w = Err ErrInvalidTransition.
Proof.
  intros Hs Hch. unfold changeAgentStatus_params. unfold live_statuses, lifecycle_changes in *.
  set_unfold. destruct Hch as [[= -> -> ->]|[[= -> -> ->]|[]]], Hs as [->|[->|[]]]; done.
Qed.

(** ** Every write keeps the invariant *)

Lemma run_keeps {A} (m : repo A) db ev :
  commit_last m → organization_ok db →
  (∀ a db', run m db ev = (Ok a, db') → organization_ok db' ∧ grows db db') →
  organization_ok (run m db ev).2 ∧ grows db (run m db ev).2.
Proof.
  intros Hm Hok Hrun. destruct (run m db ev) as [[a|e] db'] eqn:Hr; [by eapply Hrun|].
  by rewrite (run_Err _ _ _ _ _ Hm Hr).
Qed.

#[local] Instance commit_free_lock t c : commit_free (lockCompany t c).
Proof. unfold lockCompany. apply _. Qed.
#[local] Instance commit_free_outbox t e : commit_free (insertOutbox t e).
Proof. unfold insertOutbox. apply _. Qed.
#[local] Instance commit_free_versioned {R} u (q : Scope → organization_tables → result db_error R) :
  commit_free (versioned u q).
Proof. unfold versioned, rejectVersionOrMissing. apply _. Qed.
#[local] Instance commit_free_manager t c m : commit_free (requireManager t c m).
Proof. unfold requireManager, queryAgent. apply _. Qed.
#[local] Instance commit_free_revision a k u n : commit_free (insertAgentRevision a k u n).
Proof. unfold insertAgentRevision. apply _. Qed.
#[local] Instance commit_free_find {A} (q : Scope → organization_tables → result db_error A) :
  commit_free (find_row q).
Proof. unfold find_row. apply _. Qed.
#[local] Instance commit_free_option {A B} (o : option A) (f : A → repo B) (m : repo B) :
  (∀ a, commit_free (f a)) → commit_free m →
  commit_free (match o with Some a => f a | None => m end).
Proof. by destruct o. Qed.
#[local] Instance commit_last_option {A B} (o : option A) (f : A → repo B) (m : repo B) :
  (∀ a, commit_last (f a)) → commit_last m →
  commit_last (match o with Some a => f a | None => m end).
Proof. by destruct o. Qed.
#[local] Instance commit_last_change params : commit_last (recordChange params).
Proof. unfold recordChange. apply _. Qed.

Lemma read_manager current :
  stored_agent current = Some current →
  cast_option (agent_ManagerAgentID current) = Ok (agent_ManagerAgentID current).
Proof.
  intros Hs. apply cast_option_Ok. unfold stored_agent in Hs.
  apply bind_Some in Hs as (t & _ & (c & _ & (i & _ & (m & Hm & (u & _ & [= Ha])
    %bind_Some)%bind_Some)%bind_Some)%bind_Some). rewrite Hm. by rewrite <-Ha.
Qed.

Lemma UpdateAgent_keeps ctx input current w params db ev :
  organization_ok db → agent_read current db →
  UpdateAgent_params config ctx input current w = Ok params →
  organization_ok (run (UpdateAgent ctx params) db ev).2 ∧
  grows db (run (UpdateAgent ctx params) db ev).2.
Proof.
  intros Hok Hread (Hlive & Hch & Hst)%UpdateAgent_params_Ok.
  apply run_keeps; [unfold UpdateAgent, updateAgent, beginUserTenant; apply _|done|].
  intros a db' [_ Heff]%UpdateAgent_Ok. pose proof Hread as (Hs & Hv & Hl & _).
  apply (rewritten_ok params (agent_updated (updateAgent_Agent params)) current);
    [done..|by apply Hst|done|done| |done].
  intros v n ob t' Hcur _. by eapply reports_kept_acyclic.
Qed.

Lemma DeleteAgent_keeps ctx input current w params db ev :
  organization_ok db → agent_read current db →
  DeleteAgent_params config ctx input current w = Ok params →
  organization_ok (run (DeleteAgent ctx params) db ev).2 ∧
  grows db (run (DeleteAgent ctx params) db ev).2.
Proof.
  intros Hok Hread (_ & now & Hnext)%DeleteAgent_params_Ok.
  apply run_keeps; [unfold DeleteAgent, beginUserTenant; apply _|done|].
  intros a db' (_ & _ & Heff)%DeleteAgent_Ok. pose proof Hread as (Hs & Hv & Hl & _).
  apply (rewritten_ok params (agent_deleted (updateAgent_Agent params)) current);
    [done|done|eapply moves_changes; by exists now|done..| | | | |done].
  - intros Hmax. rewrite Hnext.
    apply (stored_next _ _ _ AgentStatusDeleted (Some now) now Hs Hv Hmax (read_manager _ Hs)).
  - by right; left.
  - by intros [].
  - intros v n ob t' Hcur _. eapply reports_kept_acyclic; [done|done|done|by intros []].
Qed.

Lemma SetAgentManager_keeps ctx input current w params db ev :
  organization_ok db → agent_read current db →
  SetAgentManager_params config ctx input current w = Ok params →
  organization_ok (run (SetAgentManager ctx params) db ev).2 ∧
  grows db (run (SetAgentManager ctx params) db ev).2.
Proof.
  intros Hok Hread (Hlive & now & Hnext)%SetAgentManager_params_Ok.
  apply run_keeps; [unfold SetAgentManager, hierarchyWouldCycle, beginUserTenant; apply _|done|].
  intros a db' (_ & Hchk & m & Hm & Heff)%SetAgentManager_Ok.
  pose proof Hread as (Hs & Hv & Hl & _). destruct (stored_deleted_at _ Hs) as [Hda _].
  apply (rewritten_ok params (agent_manager_set m (updateAgent_Agent params)) current);
    [done|done|eapply moves_changes; by exists now|done..| |done|done| |done].
  - intros Hmax. rewrite Hnext. rewrite Hnext in Hm.
    pose proof (stored_next _ _ _ (agent_Status current) (agent_DeletedAt current) now
      Hs Hv Hmax Hm) as Hst. by rewrite Hda in Hst.
  - intros v n ob t' Hcur Hman.
    destruct (stored_agent_keys _ _ Hs) as (Ht & Hc & Hi & _).
    apply (moved_acyclic db (agent_manager_set m (updateAgent_Agent params) current));
      [done|done| |].
    + cbn. rewrite Hcur. by intros ? [= <-].
    + cbn. intros y boss -> Hboss He.
      eapply (cycle_checked_free (updateAgent_Agent params)); [done|done| | | |done|done|done];
        by rewrite Hnext.
Qed.

Lemma CreateAgent_keeps ctx input w params db ev :
  organization_ok db →
  CreateAgent_params config CheckAuthorization ctx input w = Ok params →
  organization_ok (run (CreateAgent ctx params) db ev).2 ∧
  grows db (run (CreateAgent ctx params) db ev).2.
Proof.
  intros Hok Hp.
  apply run_keeps; [unfold CreateAgent, beginUserTenant; apply _|done|].
  intros a db' [_ Heff]%CreateAgent_Ok. apply (created_ok params); [done|done|..].
  all: unfold CreateAgent_params in Hp; result_inv Hp; cbv zeta in Hp; result_inv Hp;
    by injection Hp as <-.
Qed.

Lemma CreateCompany_keeps ctx input w params db ev :
  organization_ok db →
  CreateCompany_params config CheckAuthorization ctx input w = Ok params →
  organization_ok (run (CreateCompany ctx params) db ev).2 ∧
  grows db (run (CreateCompany ctx params) db ev).2.
Proof.
  intros Hok Hp.
  apply run_keeps; [unfold CreateCompany, insertCompany, beginUserTenant; apply _|done|].
  intros a db' (-> & db1 & ob & Hins & ->)%CreateCompany_Ok.
  destruct (company_inserted_ok _ _ _ ob Hok Hins) as [Hok1 Hg]; [|by split; [apply outbox_ok|]].
  unfold CreateCompany_params in Hp. result_inv Hp; cbv zeta in Hp; result_inv Hp.
  by injection Hp as <-.
Qed.

Lemma EnsureDefaultCompany_covers ctx input w params db ev :
  organization_ok db → EnsureDefaultCompany_params config ctx input w = Ok params →
  organization_ok (run (EnsureDefaultCompany ctx params) db ev).2 ∧
  grows db (run (EnsureDefaultCompany ctx params) db ev).2.
Proof.
  intros Hok Hp. apply run_keeps; [|done|].
  - unfold EnsureDefaultCompany, insertCompany, recordBootstrapRequest, queryCompany,
      advisory_lock, beginServiceTenant. apply _.
  - intros a db' [Heff _]%EnsureDefaultCompany_Ok. eapply default_ensured_ok; [done|done|].
    unfold EnsureDefaultCompany_params in Hp. result_inv Hp; cbv zeta in Hp; result_inv Hp.
    by injection Hp as <-.
Qed.

Lemma UpdateCompany_keeps ctx params db ev :
  organization_ok db →
  organization_ok (run (UpdateCompany ctx params) db ev).2 ∧
  grows db (run (UpdateCompany ctx params) db ev).2.
Proof.
  intros Hok. apply run_keeps; [unfold UpdateCompany, beginUserTenant; apply _|done|].
  intros a db' [_ Heff]%UpdateCompany_Ok.
  apply (company_rewritten_ok params (company_updated (updateCompany_Company params)));
    [done|done|by left|done].
Qed.

Lemma ArchiveCompany_keeps ctx a v company w params db ev :
  organization_ok db → company_read company db → company_IsDefault company = false →
  ArchiveCompany_params config ctx a v company w = Ok params →
  organization_ok (run (ArchiveCompany ctx params) db ev).2 ∧
  grows db (run (ArchiveCompany ctx params) db ev).2.
Proof.
  intros Hok (co & Hco & Hdef) Hnot Hp.
  apply run_keeps; [unfold ArchiveCompany, beginUserTenant; apply _|done|].
  intros b db' (-> & (t & c & Ht & Hc & Hno) & Heff)%ArchiveCompany_Ok.
  assert (company_TenantID (updateCompany_Company params) = company_TenantID company ∧
          company_ID (updateCompany_Company params) = company_ID company) as [Et Ei].
  { unfold ArchiveCompany_params in Hp. cbv zeta in Hp. result_inv Hp. by injection Hp as <-. }
  apply (company_rewritten_ok params (company_archived (updateCompany_Company params)));
    [done|done| |done].
  intros t' i' old Ht' Hi' Hold. right. rewrite Ht in Ht'. rewrite Hc in Hi'.
  injection Ht' as <-. injection Hi' as <-. split; [|done].
  destruct (ok_company _ Hok _ _ _ Hco) as (_ & _ & Ut & Ui).
  rewrite Et, Ut in Ht. rewrite Ei, Ui in Hc. injection Ht as <-. injection Hc as <-.
  congruence.
Qed.

(** ** Reads *)

Lemma GetAgent_read ctx a t i db ev agent :
  organization_ok db → (run (GetAgent ctx a t i) db ev).1 = Ok agent → agent_read agent db.
Proof.
  intros Hok Hr. destruct (run _ _ _) as [r db'] eqn:Hrun. cbn in Hr. subst r.
  apply run_Ok in Hrun as (s & Hr & _). unfold GetAgent, queryAgent, beginUserTenant in Hr.
  apply tx_bind_Ok in Hr as ([] & s1 & (_ & Hd1 & _)%Begin_Ok & Hr).
  apply tx_bind_Ok in Hr as (row & s2 & [(t' & i' & _ & _ & _ & Hrow)%sql_row_Ok _]%map_err_Ok%query_Ok & Hr).
  apply tx_bind_Ok in Hr as (? & s3 & _ & [-> ->]%ret_Ok). rewrite Hd1 in Hrow. cbn in Hrow.
  destruct (ok_agent _ Hok _ _ Hrow) as (Hs & Hv & Hl). split_and!; [done..|].
  destruct (linked_keys _ (ok_linked _ Hok) _ _ _ Hrow) as [<- <-]. exists row. auto.
Qed.

Lemma GetCompany_read ctx a t c db ev company :
  organization_ok db → (run (GetCompany ctx a t c) db ev).1 = Ok company →
  company_read company db.
Proof.
  intros Hok Hr. destruct (run _ _ _) as [r db'] eqn:Hrun. cbn in Hr. subst r.
  apply run_Ok in Hrun as (s & Hr & _). unfold GetCompany, queryCompany, beginUserTenant in Hr.
  apply tx_bind_Ok in Hr as ([] & s1 & (_ & Hd1 & _)%Begin_Ok & Hr).
  apply tx_bind_Ok in Hr as (row & s2 & [(t' & i' & _ & _ & _ & Hrow)%sql_row_Ok _]%map_err_Ok%query_Ok & Hr).
  apply tx_bind_Ok in Hr as (? & s3 & _ & [-> ->]%ret_Ok). rewrite Hd1 in Hrow. cbn in Hrow.
  destruct (ok_company _ Hok _ _ _ Hrow) as (<- & <- & _). by exists row.
Qed.

(** ** Every reachable state *)

Lemma sys_ok_write σ db :
  sys_ok σ → organization_ok db ∧ grows (sys_tables σ) db →
  sys_ok {| sys_tables := db; sys_agents := sys_agents σ; sys_companies := sys_companies σ |}.
Proof.
  intros Hσ [Hok Hg]. split; cbn; [done| |].
  - intros agent Ha. eapply agent_read_grows; [done|by apply Hσ].
  - intros company Hc. eapply company_read_grows; [done|by apply Hσ].
Qed.

Lemma step_organization_ok σ σ' : step σ σ' → sys_ok σ → sys_ok σ'.
Proof.
  intros Hstep Hσ. pose proof (sys_tables_ok _ Hσ) as Hok.
  destruct Hstep as
    [? ? ? ? ? ? Hr|? ? ? ? ? ? Hr|? ? ? ? ? Hp|? ? ? ? ? ? Hin Hp|? ? ? ? ? ? ? Hin Hd Hp
    |? ? ? ? ? Hp|? ? ? ? ? Hp|? ? ? ? ? ? Hin Hp|? ? ? ? ? ? Hin Hp
    |? ? ? ? ? ? ? ? ? Hin Hch Hp|? ? ? ? ? ? Hin Hp].
  - split; cbn; [done| |apply Hσ]. intros x [->|Hx]%elem_of_cons; [by eapply GetAgent_read|by apply Hσ].
  - split; cbn; [done|apply Hσ|]. intros x [->|Hx]%elem_of_cons; [by eapply GetCompany_read|by apply Hσ].
  - by apply sys_ok_write; [|eapply CreateCompany_keeps].
  - by apply sys_ok_write; [|eapply UpdateCompany_keeps].
  - apply sys_ok_write; [done|]. eapply ArchiveCompany_keeps; [done|by apply Hσ|done|done].
  - by apply sys_ok_write; [|eapply EnsureDefaultCompany_covers].
  - by apply sys_ok_write; [|eapply CreateAgent_keeps].
  - apply sys_ok_write; [done|]. eapply UpdateAgent_keeps; [done|by apply Hσ|done].
  - apply sys_ok_write; [done|]. eapply SetAgentManager_keeps; [done|by apply Hσ|done].
  - exfalso. destruct (sys_agents_read _ Hσ _ Hin) as (_ & _ & Hl & _).
    by rewrite (changeAgentStatus_params_fails _ _ _ _ _ _ _ Hl Hch) in Hp.
  - apply sys_ok_write; [done|]. eapply DeleteAgent_keeps; [done|by apply Hσ|done].
Qed.

Lemma start_organization_ok : sys_ok start.
Proof.
  split; cbn; [apply no_tables_ok|by intros ? ?%elem_of_nil..].
Qed.

Lemma reachable_organization_ok σ : reachable σ → sys_ok σ.
Proof.
  intros Hr. generalize start_organization_ok. induction Hr as [|x y z Hxy _ IH]; [done|].
  intros Hx. apply IH. by eapply step_organization_ok.
Qed.

End System.
