(* ===== verification/OrganizationProperties.v ===== *)
(** * Organization: the use cases as runs of the system

    Every use case of the service, among other requests of the system, takes reachable
    tables to reachable tables; the properties of the component follow. *)

From S2P Require Import Prelude GoStrings Postgres Usecase Graph Outbox OrganizationDomain.
From S2P Require TenantDomain OrganizationRepository.
From S2P Require Import OrganizationStore OrganizationService OrganizationHierarchy.
From S2P Require Import OrganizationEffects OrganizationInvariant OrganizationSystem.
From stdpp Require Import strings gmap list relations.
From Stdlib Require Import String Lia.
Open Scope string_scope.
Open Scope list_scope.
Open Scope Z_scope.

#[local] Notation app := (Usecase.app organization_tables error).
#[local] Notation world := (Usecase.world organization_tables).
#[local] Notation repo := (OrganizationRepository.repo).

Section Operations.
Context `{PlatformLaws, OrganizationProto, !Json}.
Variables (config : Config) (CheckAuthorization : Authorization).
Implicit Types (ctx : Ctx) (ev : env) (w : world) (db : organization_tables).

(** Every use case of the service. *)
Inductive operation :=
| OpCreateCompany (input : CreateCompanyInput)
| OpGetCompany (actorUserID tenantID companyID : string)
| OpListCompanies (actorUserID tenantID : string) (pageSize : Z) (pageToken : string)
    (includeArchived : bool)
| OpUpdateCompany (input : UpdateCompanyInput)
| OpArchiveCompany (actorUserID tenantID companyID : string) (expectedVersion : Z)
| OpEnsureDefaultCompany (input : EnsureDefaultCompanyInput)
| OpCreateAgent (input : CreateAgentInput)
| OpGetAgent (actorUserID tenantID agentID : string)
| OpListAgents (actorUserID tenantID companyID : string) (pageSize : Z) (pageToken : string)
    (includeDeleted : bool)
| OpUpdateAgent (input : UpdateAgentInput)
| OpSetAgentManager (input : SetAgentManagerInput)
| OpPauseAgent (input : LifecycleInput)
| OpResumeAgent (input : LifecycleInput)
| OpDeleteAgent (input : LifecycleInput)
| OpGetHierarchy (actorUserID tenantID companyID : string)
| OpGetAgentPolicyContext (tenantID agentID : string).

Definition operate ctx (op : operation) : app unit :=
  match op with
  | OpCreateCompany i => CreateCompany config CheckAuthorization ctx i;; mret tt
  | OpGetCompany a t c => GetCompany CheckAuthorization ctx a t c;; mret tt
  | OpListCompanies a t n k r => ListCompanies CheckAuthorization ctx a t n k r;; mret tt
  | OpUpdateCompany i => UpdateCompany config CheckAuthorization ctx i;; mret tt
  | OpArchiveCompany a t c v => ArchiveCompany config CheckAuthorization ctx a t c v;; mret tt
  | OpEnsureDefaultCompany i => EnsureDefaultCompany config ctx i;; mret tt
  | OpCreateAgent i => CreateAgent config CheckAuthorization ctx i;; mret tt
  | OpGetAgent a t i => GetAgent CheckAuthorization ctx a t i;; mret tt
  | OpListAgents a t c n k r => ListAgents CheckAuthorization ctx a t c n k r;; mret tt
  | OpUpdateAgent i => UpdateAgent config CheckAuthorization ctx i;; mret tt
  | OpSetAgentManager i => SetAgentManager config CheckAuthorization ctx i;; mret tt
  | OpPauseAgent i => PauseAgent config CheckAuthorization ctx i;; mret tt
  | OpResumeAgent i => ResumeAgent config CheckAuthorization ctx i;; mret tt
  | OpDeleteAgent i => DeleteAgent config CheckAuthorization ctx i;; mret tt
  | OpGetHierarchy a t c => GetHierarchy CheckAuthorization ctx a t c;; mret tt
  | OpGetAgentPolicyContext t i => GetAgentPolicyContext config ctx t i;; mret tt
  end.

(** The tables of a reachable state in which requests have read the given rows. *)
Definition possible (agents : list Agent) (companies : list Company) db : Prop :=
  ∃ σ, reachable config CheckAuthorization σ ∧ sys_tables σ = db ∧
    agents ⊆ sys_agents σ ∧ companies ⊆ sys_companies σ.

(** Between two transactions of a use case other requests take the system further. *)
Definition cooperative w : Prop := ∀ n db agents companies,
  possible agents companies db → possible agents companies (world_interfere w n db).

Lemma possible_ok agents companies db : possible agents companies db → organization_ok db.
Proof. by intros (σ & Hσ%reachable_organization_ok & <- & _); apply Hσ. Qed.

Lemma possible_step agents companies db db' :
  (∀ σ, sys_tables σ = db → agents ⊆ sys_agents σ → companies ⊆ sys_companies σ →
     step config CheckAuthorization σ {| sys_tables := db'; sys_agents := sys_agents σ;
                                         sys_companies := sys_companies σ |}) →
  possible agents companies db → possible agents companies db'.
Proof.
  intros Hstep (σ & Hσ & Hdb & Ha & Hc).
  exists {| sys_tables := db'; sys_agents := sys_agents σ; sys_companies := sys_companies σ |}.
  split_and!; [|done..]. eapply rtc_r; [exact Hσ|by apply Hstep].
Qed.

(** ** Methods that only read *)

#[export] Instance readonly_GetCompany c a t i :
  readonly (OrganizationRepository.GetCompany c a t i).
Proof. unfold OrganizationRepository.GetCompany, OrganizationRepository.queryCompany, OrganizationRepository.beginUserTenant. apply _. Qed.
#[export] Instance readonly_GetAgent c a t i :
  readonly (OrganizationRepository.GetAgent c a t i).
Proof. unfold OrganizationRepository.GetAgent, OrganizationRepository.queryAgent, OrganizationRepository.beginUserTenant. apply _. Qed.
#[export] Instance readonly_GetAgentAsService c t p i :
  readonly (OrganizationRepository.GetAgentAsService c t p i).
Proof. unfold OrganizationRepository.GetAgentAsService, OrganizationRepository.queryAgent, OrganizationRepository.beginServiceTenant. apply _. Qed.
#[export] Instance readonly_ListCompanies c a t l k i :
  readonly (OrganizationRepository.ListCompanies c a t l k i).
Proof. unfold OrganizationRepository.ListCompanies, OrganizationRepository.beginUserTenant. apply _. Qed.
#[export] Instance readonly_ListAgents c a t o l k i :
  readonly (OrganizationRepository.ListAgents c a t o l k i).
Proof. unfold OrganizationRepository.ListAgents, OrganizationRepository.beginUserTenant. apply _. Qed.
#[export] Instance readonly_GetHierarchy c a t o :
  readonly (OrganizationRepository.GetHierarchy c a t o).
Proof. unfold OrganizationRepository.GetHierarchy, OrganizationRepository.beginUserTenant. apply _. Qed.

(** ** Rules *)

Definition proceeds {A} agents companies w (m : app A) : Prop :=
  triple (possible agents companies) w m (λ _, True).

Lemma proceeds_bind {A B} agents companies w (m : app A) (f : A → app B) :
  proceeds agents companies w m → (∀ a, proceeds agents companies w (f a)) →
  proceeds agents companies w (m ≫= f).
Proof. intros Hm Hf. eapply triple_bind; [exact Hm|]. intros a _. apply Hf. Qed.

Lemma proceeds_pure {A B} agents companies w (f : world → result error A) (g : A → app B) :
  (∀ a, f w = Ok a → proceeds agents companies w (g a)) →
  proceeds agents companies w (pure f ≫= g).
Proof.
  intros Hg. eapply (triple_bind _ _ _ _ (λ a, f w = Ok a)); [by apply triple_pure|exact Hg].
Qed.

Lemma proceeds_ret {A} agents companies w (a : A) : proceeds agents companies w (mret a).
Proof. by apply triple_ret. Qed.

Lemma proceeds_last_pure {A} agents companies w (f : world → result error A) :
  proceeds agents companies w (pure f).
Proof. by apply triple_pure. Qed.

Lemma proceeds_reading {A} agents companies w (m : repo A) :
  cooperative w → readonly m → proceeds agents companies w (call m).
Proof.
  intros Hw Hm. apply triple_call; [intros n db; apply Hw|]. intros db ev Hdb.
  by rewrite run_readonly.
Qed.

Lemma proceeds_write {A} agents companies w (m : repo A) :
  cooperative w →
  (∀ σ ev, agents ⊆ sys_agents σ → companies ⊆ sys_companies σ →
     step config CheckAuthorization σ (after_run σ m ev)) →
  proceeds agents companies w (call m).
Proof.
  intros Hw Hm. apply triple_call; [intros n db; apply Hw|]. intros db ev Hdb.
  split; [|done]. eapply possible_step; [|exact Hdb]. intros σ <- Ha Hc. by apply Hm.
Qed.

(** After a read the system knows the row. *)
Lemma proceeds_read {A B} agents companies w (m : repo A) (f : A → app B)
    (agents' : A → list Agent) (companies' : A → list Company) :
  cooperative w → readonly m →
  (∀ db ev a, possible agents companies db → (run m db ev).1 = Ok a →
     possible (agents' a) (companies' a) db) →
  (∀ a, agents ⊆ agents' a) → (∀ a, companies ⊆ companies' a) →
  (∀ a, proceeds (agents' a) (companies' a) w (f a)) →
  proceeds agents companies w (call m ≫= f).
Proof.
  intros Hw Hm Hread Ha Hc Hf s Hs. unfold mbind, app_bind, call.
  pose proof (run_readonly m (world_interfere w s.1 s.2) (world_env w s.1) Hm) as Hsame.
  pose proof (λ a, Hread _ (world_env w s.1) a (Hw s.1 _ _ _ Hs)) as Hr'.
  destruct (run _ _ _) as [[a|e] db'] eqn:Hrun; cbn in *; subst db'.
  - destruct (Hf a (S s.1, world_interfere w s.1 s.2)) as [Hp _]; [by apply Hr'|].
    cbn in *. split; [|done]. destruct Hp as (σ & ? & ? & ? & ?).
    exists σ. split_and!; [done|done|etrans; [apply Ha|done]|etrans; [apply Hc|done]].
  - split; [|done]. by apply Hw.
Qed.

(** The two reads that precede a write. *)
Lemma proceeds_read_agent {B} w ctx a t i (f : Agent → app B) :
  cooperative w → (∀ agent, proceeds [agent] [] w (f agent)) →
  proceeds [] [] w (call (OrganizationRepository.GetAgent ctx a t i) ≫= f).
Proof.
  intros Hw Hf. apply (proceeds_read _ _ _ _ _ (λ agent, [agent]) (λ _, []));
    [done|apply _| |set_solver|set_solver|done].
  intros db ev agent (σ & Hσ & <- & _) Hr. eexists. split; [|split; [|split]].
  - eapply rtc_r; [exact Hσ|by eapply step_read_agent].
  - done.
  - cbn. set_solver.
  - set_solver.
Qed.

Lemma proceeds_read_company {B} w ctx a t c (f : Company → app B) :
  cooperative w → (∀ company, proceeds [] [company] w (f company)) →
  proceeds [] [] w (call (OrganizationRepository.GetCompany ctx a t c) ≫= f).
Proof.
  intros Hw Hf. apply (proceeds_read _ _ _ _ _ (λ _, []) (λ company, [company]));
    [done|apply _| |set_solver|set_solver|done].
  intros db ev company (σ & Hσ & <- & _) Hr. eexists. split; [|split; [|split]].
  - eapply rtc_r; [exact Hσ|by eapply step_read_company].
  - done.
  - set_solver.
  - cbn. set_solver.
Qed.

#[local] Opaque OrganizationRepository.CreateCompany OrganizationRepository.GetCompany
  OrganizationRepository.ListCompanies OrganizationRepository.UpdateCompany
  OrganizationRepository.ArchiveCompany OrganizationRepository.EnsureDefaultCompany
  OrganizationRepository.CreateAgent OrganizationRepository.GetAgent
  OrganizationRepository.ListAgents OrganizationRepository.UpdateAgent
  OrganizationRepository.SetAgentManager OrganizationRepository.ChangeAgentStatus
  OrganizationRepository.DeleteAgent OrganizationRepository.GetHierarchy
  OrganizationRepository.GetAgentAsService.

Ltac proceed :=
  repeat match goal with
  | |- proceeds _ _ _ (mret _) => apply proceeds_ret
  | |- proceeds _ _ _ (pure _ ≫= _) => apply proceeds_pure; intros ? ?
  | Hw : cooperative _ |- proceeds _ _ _ (call (OrganizationRepository.GetAgent _ _ _ _) ≫= _) =>
      apply (proceeds_read_agent _ _ _ _ _ _ Hw); intros ?
  | Hw : cooperative _ |- proceeds _ _ _ (call (OrganizationRepository.GetCompany _ _ _ _) ≫= _) =>
      apply (proceeds_read_company _ _ _ _ _ _ Hw); intros ?
  | |- proceeds _ _ _ (call _ ≫= _) => apply proceeds_bind; [|intros ?]
  | Hw : cooperative _ |- proceeds _ _ _ (call _) =>
      first [ apply (proceeds_reading _ _ _ _ Hw); apply _
            | apply (proceeds_write _ _ _ _ Hw); intros σ ev Ha Hc;
              econstructor; [..|eassumption] ]
  end.

(** What the writes of a request need of the system: it knows the row that was read. *)
Lemma changeAgentStatus_proceeds w ctx input target kind type :
  cooperative w → (target, kind, type) ∈ lifecycle_changes →
  proceeds [] [] w (changeAgentStatus config CheckAuthorization ctx input target kind type).
Proof.
  intros Hw Hch. unfold changeAgentStatus. proceed. all: set_solver.
Qed.

Lemma operate_proceeds w ctx op : cooperative w → proceeds [] [] w (operate ctx op).
Proof.
  intros Hw. destruct op; cbn; apply proceeds_bind; try (intros; by apply proceeds_ret).
  all: try (apply changeAgentStatus_proceeds; [done|set_solver]).
  all: unfold CreateCompany, GetCompany, ListCompanies, UpdateCompany, ArchiveCompany,
    EnsureDefaultCompany, CreateAgent, GetAgent, ListAgents, UpdateAgent, SetAgentManager,
    DeleteAgent, GetHierarchy, GetAgentPolicyContext; proceed.
  all: try set_solver.
  case_match; proceed; [set_solver|].
  by match goal with Hd : fail_if _ _ = Ok _ |- _ => apply fail_if_Ok in Hd end.
Qed.

(** ** Interleaved requests *)

Lemma operate_possible w ctx op db :
  cooperative w → possible [] [] db → possible [] [] (perform (operate ctx op) w db).2.
Proof.
  intros Hw Hdb.
  destruct (triple_perform (possible [] []) w (operate ctx op) (λ _, True) db) as [Hp _];
    [by apply operate_proceeds|done|done].
Qed.

End Operations.

(** ** What the service promises

    The hierarchy, the history of agents, the companies' rules, and what is left of a
    change whose row was read in an earlier transaction. *)

Section Properties.
Context `{PlatformLaws, OrganizationProto, !Json}.
Variables (config : Config) (CheckAuthorization : Authorization).
Implicit Types (ctx : Ctx) (ev : env) (w : world) (db : organization_tables).

(** C4 (no agent is above itself). However whole repository transactions interleave, each
    one atomic step, no agent of a tenant reports to itself along managers that are not
    deleted ([reports_to] follows no edge to a deleted manager: a cycle that closes over a
    deleted one is accepted by the service); and every manager, deleted or not, is an agent
    of the same company. That two transactions on one company do not overlap is what
    [lockCompany] is for; the atomic steps take it for granted. *)
Theorem hierarchy_acyclic (σ : system) t :
  reachable config CheckAuthorization σ →
  acyclic (reports_to (sys_tables σ) t) ∧
  ∀ i row m, organization_agents (sys_tables σ) !! (t, i) = Some row →
    agent_ManagerAgentID row = Some m →
    ∃ boss, organization_agents (sys_tables σ) !! (t, m) = Some boss ∧
      agent_CompanyID boss = agent_CompanyID row.
Proof.
  intros Hσ%reachable_organization_ok. pose proof (sys_tables_ok _ Hσ) as Hok.
  split; [by apply ok_acyclic|]. intros i row m Hrow Hm.
  destruct (linked_keys _ (ok_linked _ Hok) _ _ _ Hrow) as [<- _].
  eapply manager_exists_true; [|done]. by eapply (linked_manager _ (ok_linked _ Hok)).
Qed.

(** C5 (the history of an agent is complete). In every reachable state an agent has
    exactly one revision for each of its versions from the first on; a revision holds the
    agent of its version, and the last one is stored as the agent's row. *)
Theorem agent_history_complete (σ : system) t i row :
  reachable config CheckAuthorization σ →
  organization_agents (sys_tables σ) !! (t, i) = Some row →
  (∀ n, is_Some (organization_revisions (sys_tables σ) !! (t, i, n)) ↔
        1 ≤ n ≤ agent_Version row) ∧
  (∀ n v, organization_revisions (sys_tables σ) !! (t, i, n) = Some v →
     agent_Version (revision_Snapshot v) = n ∧
     uuid_in (agent_ID (revision_Snapshot v)) = Some i) ∧
  ∃ v, organization_revisions (sys_tables σ) !! (t, i, agent_Version row) = Some v ∧
    stored_agent (revision_Snapshot v) = Some row.
Proof.
  intros Hσ%reachable_organization_ok Hrow. pose proof (sys_tables_ok _ Hσ) as Hok. split_and!.
  - intros n. rewrite (ok_history _ Hok). naive_solver.
  - intros n v Hv. destruct (ok_revision _ Hok _ _ _ _ Hv) as (r & Hs & _ & Hi & Hn).
    destruct (stored_agent_keys _ _ Hs) as (_ & _ & Hi' & Hn' & _). split; [congruence|].
    by rewrite Hi', Hi.
  - by apply ok_snapshot.
Qed.

(** Companies. In every reachable state an agent that is not deleted belongs to a
    company that is not archived, a tenant has at most one default company, and a default
    company is never archived. *)
Theorem companies_staffed (σ : system) :
  reachable config CheckAuthorization σ →
  (∀ k row, organization_agents (sys_tables σ) !! k = Some row →
     agent_Status row ≠ AgentStatusDeleted →
     ∃ co, organization_companies (sys_tables σ)
             !! (agent_TenantID row, agent_CompanyID row) = Some co ∧
       company_Status co = CompanyStatusActive) ∧
  (∀ t c c' co co', organization_companies (sys_tables σ) !! (t, c) = Some co →
     organization_companies (sys_tables σ) !! (t, c') = Some co' →
     company_IsDefault co = true → company_IsDefault co' = true → c = c') ∧
  ∀ k co, organization_companies (sys_tables σ) !! k = Some co →
    company_IsDefault co = true → company_Status co = CompanyStatusActive.
Proof.
  intros Hσ%reachable_organization_ok. pose proof (sys_tables_ok _ Hσ) as Hok. split_and!.
  - by apply ok_staffed.
  - intros t c c' co co' Hc Hc' Hd Hd'.
    enough ((t, c) = (t, c')) by congruence. eapply (ok_default _ Hok t); [done..| |];
      apply active_default_true; split_and!; try done.
    all: try by eapply (ok_company _ Hok). all: by eapply (ok_default_active _ Hok).
  - by apply ok_default_active.
Qed.

(** What a committed change of an agent is: [current], the row that was replaced, is the
    one the change was computed from. *)
Definition serial_change (params : UpdateAgentParams) (change : Agent → Agent)
    (current : Agent) db db' : Prop :=
  ∃ v ob, organization_agents db !! (agent_TenantID current, agent_ID current) = Some current ∧
    agent_Version current = updateAgent_ExpectedVersion params ∧
    revision_Snapshot v = updateAgent_Agent params ∧
    stored_agent (updateAgent_Agent params) = Some (change current) ∧
    db' = with_agent (agent_TenantID current) (agent_ID current) (change current)
            (agent_Version current + 1) v ob db.

Lemma rewritten_serial params change current db db' :
  organization_ok db → agent_read current db → changes params change current →
  (agent_Version current + 1 ≤ int64_max →
     stored_agent (updateAgent_Agent params) = Some (change current)) →
  agent_rewritten params change db db' → serial_change params change current db db'.
Proof.
  intros Hok Hread Hch Hst Heff.
  destruct (rewritten_current _ _ _ _ _ Hok Hread Hch Heff) as (Hcur & Hver & Hmax).
  destruct Hread as (Hs & Hv & _), (stored_agent_keys _ _ Hs) as (Ht' & _ & Hi' & _), Hch as [Ct Ci _ Cv].
  destruct Heff as [t i c old co v clock ob Ht Hi _ _ _ Hold _ _ _ _ _ _ _ _ _ Hsnap _].
  rewrite Ct, Ht' in Ht. rewrite Ci, Hi' in Hi. injection Ht as <-. injection Hi as <-.
  rewrite Hcur in Hold. injection Hold as <-. exists v, ob. rewrite Cv, int64_incr_below by done.
  split_and!; [done..|by apply Hst|done].
Qed.

(** The state in which a row that was read is written. *)
Lemma written_after_read w ctx a t i ev n db current db1 n' :
  cooperative config CheckAuthorization w → possible config CheckAuthorization [] [] db →
  run (OrganizationRepository.GetAgent ctx a t i) (world_interfere w n db) ev
    = (Ok current, db1) →
  possible config CheckAuthorization [current] [] (world_interfere w n' db1) ∧
  organization_ok (world_interfere w n' db1) ∧ agent_read current (world_interfere w n' db1).
Proof.
  intros Hw Hdb Hrun.
  assert (db1 = world_interfere w n db) as ->.
  { change db1 with ((Ok current : result error Agent, db1).2). rewrite <-Hrun.
    apply run_readonly, _. }
  destruct (Hw n _ _ _ Hdb) as (σ & Hσ & Hσdb & _).
  assert (possible config CheckAuthorization [current] [] (world_interfere w n db)) as Hp.
  { exists {| sys_tables := sys_tables σ; sys_agents := current :: sys_agents σ;
              sys_companies := sys_companies σ |}. split; [|split; [exact Hσdb|split]].
    - eapply rtc_r; [exact Hσ|]. eapply step_read_agent. rewrite Hσdb. by rewrite Hrun.
    - cbn. set_solver.
    - set_solver. }
  apply (Hw n') in Hp as Hp'. split; [done|]. destruct Hp' as (σ' & Hσ'%reachable_organization_ok & <- & Hin & _).
  split; [apply Hσ'|]. apply Hσ'. set_solver.
Qed.

(** No update of an agent is lost. An update that succeeds replaced the very row
    that the service had read for it, at the version the caller expects, although that
    was read in an earlier transaction and other requests ran since: the stored row is
    the answer, computed from the row it replaces, and so is the new revision. *)
Theorem agent_update_serial ctx input w db agent db' :
  cooperative config CheckAuthorization w → possible config CheckAuthorization [] [] db →
  perform (UpdateAgent config CheckAuthorization ctx input) w db = (Ok agent, db') →
  ∃ current params db1, UpdateAgent_params config ctx input current w = Ok params ∧
    agent = updateAgent_Agent params ∧
    possible config CheckAuthorization [current] [] db1 ∧
    serial_change params (agent_updated agent) current db1 db'.
Proof.
  intros Hw Hdb (s & Hr & <-)%perform_Ok. unfold UpdateAgent in Hr. app_inv Hr.
  apply call_run in Hr as [Hr _]. cbn in E0.
  destruct (written_after_read _ _ _ _ _ _ _ _ _ _ s0.1 Hw Hdb E0) as (Hpos & Hok & Hread).
  destruct (UpdateAgent_params_Ok _ _ _ _ _ _ E1) as (_ & Hch & Hst).
  apply UpdateAgent_Ok in Hr as [-> Heff]. exists a0, a1, (world_interfere w s0.1 s0.2).
  split_and!; [done..|]. apply rewritten_serial; [done..| |done].
  destruct Hread as (? & ? & _). auto.
Qed.

(** Agents stay drafts. No agent has ever another status than draft or deleted, so
    that no agent can be paused or resumed: both requests always fail. *)
Theorem pause_resume_unreachable ctx input w db :
  cooperative config CheckAuthorization w → possible config CheckAuthorization [] [] db →
  (∀ k row, organization_agents db !! k = Some row →
     agent_Status row ∈ [AgentStatusDraft; AgentStatusDeleted]) ∧
  is_ok (perform (PauseAgent config CheckAuthorization ctx input) w db).1 = false ∧
  is_ok (perform (ResumeAgent config CheckAuthorization ctx input) w db).1 = false.
Proof.
  intros Hw Hdb. assert (Hfail : ∀ target kind type,
    (target, kind, type) ∈ lifecycle_changes →
    is_ok (perform (changeAgentStatus config CheckAuthorization ctx input target kind type) w db).1
      = false).
  { intros target kind type Hch.
    destruct (perform _ w db) as [[agent|e] db'] eqn:Hr; [exfalso|done].
    apply perform_Ok in Hr as (s & Hr & _). unfold changeAgentStatus in Hr. app_inv Hr.
    cbn in E0. destruct (written_after_read _ _ _ _ _ _ _ _ _ _ s0.1 Hw Hdb E0)
      as (_ & _ & _ & _ & Hs & _).
    by rewrite changeAgentStatus_params_fails in E1. }
  split_and!; [|apply Hfail; set_solver..].
  intros k row Hrow. apply possible_ok in Hdb. by eapply (ok_agent _ Hdb).
Qed.

(** The cycle check is exact. On tables whose rows lie under their keys and whose
    managers exist, the recursive query of [hierarchyWouldCycle] ends, and answers whether
    the proposed manager is an agent of the company, not deleted, that is the agent or
    reports to it over agents that are not deleted. The query of the tree ends as well. *)
Theorem cycle_check_exact db sc tenantID companyID agentID managerAgentID t c i m :
  agents_linked db → scoped sc t →
  uuid_in tenantID = Some t → uuid_in companyID = Some c → uuid_in agentID = Some i →
  uuid_in managerAgentID = Some m →
  (∃ found, sql_would_cycle tenantID companyID agentID managerAgentID sc db = Ok found ∧
    (found = true ↔
      (∃ boss, organization_agents db !! (t, m) = Some boss ∧ employed t c boss = true) ∧
      rtc (reports_to db t) m i)) ∧
  ∃ nodes, sql_hierarchy tenantID companyID sc db = Ok nodes.
Proof.
  intros Hdb (r & Hr & Hsc) Ht Hc Hi Hm.
  unfold sql_would_cycle, sql_hierarchy, cast. rewrite Hr, Ht, Hc, Hi, Hm.
  unfold mbind, result_bind. cbn [from_option_err]. rewrite Hsc.
  destruct (manager_chain_total db Hdb t c m) as [rows Hrows].
  destruct (hierarchy_total db Hdb t c) as [nodes Hnodes]. rewrite Hrows, Hnodes.
  split; [|by exists nodes]. eexists. split; [done|]. by apply manager_chain_reaches.
Qed.

(** The scope of a user's call sees the tenant it names. *)
Lemma user_scoped t tenantID actorUserID requestID correlationID r :
  uuid_in tenantID = Some t →
  rls_of (TenantScope tenantID actorUserID requestID correlationID) = Ok r →
  tenant_scoped r t = true.
Proof.
  intros Ht Hr. unfold rls_of, rls_setting in Hr. cbn in Hr.
  rewrite (uuid_in_trimmed _ _ Ht), Ht in Hr.
  destruct (String.eqb_spec tenantID "") as [->|_]; [by rewrite uuid_in_empty in Ht|].
  cbn in Hr. apply result_bind_Ok in Hr as (p & _ & [= <-]). apply tenant_scoped_true. by split.
Qed.

(** The hierarchy is never returned. [GetHierarchy] succeeds only for a company
    without an agent at the top, and then returns nothing: its rows have a column more than
    the scan has destinations. *)
Theorem get_hierarchy_empty ctx actorUserID tenantID companyID w db nodes db' :
  cooperative config CheckAuthorization w → possible config CheckAuthorization [] [] db →
  perform (GetHierarchy CheckAuthorization ctx actorUserID tenantID companyID) w db
    = (Ok nodes, db') →
  nodes = [] ∧ ∃ t c, uuid_in tenantID = Some t ∧ uuid_in companyID = Some c ∧
    ∀ k row, organization_agents db' !! k = Some row → employed t c row = true →
      is_Some (agent_ManagerAgentID row).
Proof.
  intros Hw Hdb (s & Hr & <-)%perform_Ok. unfold GetHierarchy in Hr. app_inv Hr.
  apply call_run in Hr as [Hr _]. cbn in Hr.
  assert (s.2 = world_interfere w 0 db) as ->.
  { change s.2 with ((Ok nodes : result error _, s.2).2). rewrite <-Hr. apply run_readonly, _. }
  apply run_Ok in Hr as (s1 & Hr & _).
  unfold OrganizationRepository.GetHierarchy, OrganizationRepository.beginUserTenant in Hr.
  apply tx_bind_Ok in Hr as ([] & s2 & (_ & Hd2 & Hs2 & _)%Begin_Ok & Hr). cbn in Hd2.
  apply tx_bind_Ok in Hr as (rows & s3 & [Hq _]%map_err_Ok%query_Ok & Hr).
  apply tx_bind_Ok in Hr as (nodes' & s4 & [Hscan ->]%lift_Ok & Hr).
  apply tx_bind_Ok in Hr as (? & s5 & _ & [-> ->]%ret_Ok).
  destruct rows; [|done]. injection Hscan as <-. split; [done|].
  rewrite Hd2, Hs2 in Hq. unfold sql_hierarchy in Hq.
  apply result_bind_Ok in Hq as (r & Hr & Hq).
  apply result_bind_Ok in Hq as (t & Ht%cast_Ok & Hq).
  apply result_bind_Ok in Hq as (c & Hc%cast_Ok & Hq).
  rewrite (user_scoped _ _ _ _ _ _ Ht Hr) in Hq. apply from_option_err_Ok in Hq.
  exists t, c. split_and!; [done..|]. intros k row Hrow He.
  destruct (agent_ManagerAgentID row) eqn:Hm; [done|]. exfalso.
  assert (row ∈ roots_of t c (world_interfere w 0 db)) as Hroot.
  { unfold roots_of. apply elem_of_filter_b. rewrite He, Hm. split; [|done].
    apply list_elem_of_fmap. exists (k, row). split; [done|by apply elem_of_map_to_list]. }
  cbn in Hq. destruct (roots_of _ _ _) as [|root roots]; [by apply elem_of_nil in Hroot|].
  by destruct (hierarchy_from _ _ _ _ _ _).
Qed.

End Properties.

(** ** The default company of a tenant

    The orchestrator's activity [EnsureDefaultCompany] is delivered at least once: a
    repeated request answers with the company of the first one. *)

Section Default.
Context `{PlatformLaws, OrganizationProto, !Json}.
Implicit Types (ctx : Ctx) (ev : env) (w : world) (db : organization_tables).

(** What a call leaves: the company it answered with is found by the next call, as the
    company of the operation, or as the default company when the operation is another
    tenant's. *)
Definition ensured (params : EnsureDefaultCompanyParams) (company : Company) db : Prop :=
  ∃ t o b row, uuid_in (company_TenantID (ensure_Company params)) = Some t ∧
    uuid_in (ensure_OnboardingOperationID params) = Some o ∧
    organization_bootstrap db !! o = Some b ∧
    organization_companies db !! (t, company_ID row) = Some row ∧
    uuid_in (company_ID company) = Some (company_ID row) ∧
    (bootstrap_TenantID b = t ∧ uuid_in (bootstrap_CompanyID b) = Some (company_ID row) ∨
     bootstrap_TenantID b ≠ t ∧ active_default t row = true ∧
     is_Some (uuid_in (company_CreatedByUserID (ensure_Company params)))).

Lemma default_ensured_post params db company db' :
  organization_ok db → company_Status (ensure_Company params) = CompanyStatusActive →
  company_IsDefault (ensure_Company params) = true →
  default_ensured params db company db' → ensured params company db'.
Proof.
  intros Hok Hact Hdef Heff.
  destruct Heff as [t o c b row Ht Ho Hb Hbt Hc Hrow
    |t c k found row db' Ht Hnot Hk Hfound (t' & o & c' & u & Ht' & Ho & Hc' & Hu & Hrec) Hc Hrow
    |t db1 db2 ob Ht Hnot (t1 & i & u1 & Ht1 & Hi & _ & _ & _ & ->)
       (t' & o & c' & u & Ht' & Ho & Hc' & Hu & Hrec)].
  - destruct (ok_company _ Hok _ _ _ Hrow) as (_ & <- & _ & Hcc).
    exists t, o, b, row. split_and!; auto.
  - destruct k as [t0 c0], (ok_company _ Hok _ _ _ Hk) as (Hft & Hfc & _ & Hcc).
    pose proof Hfound as (Hft' & _)%active_default_true.
    rewrite Hfc, Hcc in Hc, Hc'. injection Hc as <-. injection Hc' as <-.
    rewrite Ht in Ht'. injection Ht' as <-. rewrite Hft in Hft'. subst t0.
    assert (organization_companies db' = organization_companies db) as Hsame
      by (by destruct Hrec as [[_ ->]|(_ & _ & ->)]).
    assert (row = found) as -> by congruence.
    destruct Hrec as [[[b Hb] ->]|(Hnone & _ & ->)]; cbn.
    + exists t, o, b, found. rewrite Hfc. split_and!; [done..|]. right. eauto.
    + eexists t, o, _, found. cbn. rewrite lookup_insert_eq, Hfc.
      split_and!; [done|done|done|done|done|by left].
  - rewrite Ht in Ht1, Ht'. injection Ht1 as <-. injection Ht' as <-.
    rewrite Hi in Hc'. injection Hc' as <-.
    set (row := company_row t i u1 (ensure_Company params)) in *.
    destruct Hrec as [[[b Hb] ->]|(Hnone & _ & ->)]; cbn in *.
    + exists t, o, b, row. cbn. rewrite lookup_insert_eq. split_and!; [done..|]. right.
      split; [by eapply Hnot|]. split; [|done]. by apply active_default_true.
    + eexists t, o, _, row. cbn. rewrite !lookup_insert_eq.
      split_and!; [done|done|done|done|done|left]. split; [done|by eapply uuid_in_canonical].
Qed.

Lemma find_row_at_work {A} (q : Scope → organization_tables → result db_error A) o db sc ro clock :
  q sc db = from_option_err ErrNoRows o →
  (OrganizationRepository.find_row q : repo _) (at_work db sc ro clock)
    = (Ok o, at_work db sc ro clock).
Proof.
  intros Hq. unfold OrganizationRepository.find_row. apply query_at_work. rewrite Hq.
  by destruct o.
Qed.

Lemma sql_row_found {R} (table : organization_tables → gmap (string * string) R) tenantID id
    sc db t i row :
  scoped sc t → uuid_in tenantID = Some t → uuid_in id = Some i → table db !! (t, i) = Some row →
  sql_row table tenantID id sc db = Ok row.
Proof.
  intros (r & Hr & Hsc) Ht Hi Hrow. unfold sql_row, cast. rewrite Hr, Ht, Hi. cbn.
  by rewrite Hrow, Hsc.
Qed.

Lemma default_company_found db t row tenantID sc :
  organization_ok db → scoped sc t → uuid_in tenantID = Some t →
  organization_companies db !! (t, company_ID row) = Some row → active_default t row = true →
  sql_default_company tenantID sc db = Ok (company_ID row).
Proof.
  intros Hok (r & Hr & Hsc) Ht Hrow Hact. unfold sql_default_company, cast. rewrite Hr, Ht. cbn.
  destruct (List.filter _ _) as [|c l] eqn:Hf.
  - exfalso. assert (row ∈ []) as []%elem_of_nil. rewrite <-Hf. apply elem_of_filter_b.
    rewrite Hact, Hsc. split; [|done]. apply list_elem_of_fmap. eexists (_, row).
    split; [done|by apply elem_of_map_to_list].
  - assert (c ∈ c :: l) as Hin by left. rewrite <-Hf in Hin.
    apply elem_of_filter_b in Hin as [([k c'] & -> & Hk%elem_of_map_to_list)%list_elem_of_fmap Hb].
    apply andb_true_iff in Hb as [Hb _]. cbn in *.
    pose proof (ok_default _ Hok t _ _ _ _ Hk Hrow Hb Hact) as ->. congruence.
Qed.

(** A call on a working connection, after one with the same tenant and operation. *)
Lemma ensured_again params params' ctx ev company db t :
  organization_ok db → ensured params company db →
  company_TenantID (ensure_Company params') = company_TenantID (ensure_Company params) →
  company_CreatedByUserID (ensure_Company params')
    = company_CreatedByUserID (ensure_Company params) →
  ensure_OnboardingOperationID params' = ensure_OnboardingOperationID params →
  Scope_Validate (ensure_scope ctx params') = Ok tt →
  uuid_in (company_TenantID (ensure_Company params)) = Some t →
  scoped (ensure_scope ctx params') t → env_budget ev = None →
  ∃ row, run (OrganizationRepository.EnsureDefaultCompany ctx params') db ev = (Ok row, db) ∧
    uuid_in (company_ID company) = Some (company_ID row) ∧
    organization_companies db !! (t, company_ID row) = Some row.
Proof.
  intros Hok (t' & o & b & row & Ht & Ho & Hb & Hrow & Hid & Hcase) Et Eu Eo Hval Ht' Hsc Hev.
  rewrite Ht in Ht'. injection Ht' as ->. exists row. split; [|done].
  eapply run_commits; [done|done|]. unfold OrganizationRepository.EnsureDefaultCompany,
    OrganizationRepository.beginServiceTenant, OrganizationRepository.queryCompany.
  cbv zeta. fold (ensure_scope ctx params'). rewrite Et, Eo.
  assert (uuid_in (company_ID row) = Some (company_ID row)) as Hcc
    by (by apply (ok_company _ Hok) in Hrow as (_ & _ & _ & ?)).
  destruct Hsc as (r & Hr & Hsc).
  assert (scoped (ensure_scope ctx params') t) as Hsc' by (by exists r).
  at_work_step; [done|]. destruct Hcase as [[Hbt Hbc]|(Hbt & Hact & [u Hu])].
  - etrans; [eapply tx_bind_step, (find_row_at_work _ (Some (bootstrap_CompanyID b)))|].
    { unfold sql_bootstrap_company, cast. rewrite Hr, Ht, Ho. cbn. rewrite Hb, Hbt.
      by rewrite String.eqb_refl, Hsc. }
    cbv beta iota. at_work_step; [by eapply sql_row_found|]. done.
  - etrans; [eapply tx_bind_step, (find_row_at_work _ None)|].
    { unfold sql_bootstrap_company, cast. rewrite Hr, Ht, Ho. cbn. rewrite Hb.
      by apply String.eqb_neq in Hbt as ->. }
    cbv beta iota. etrans; [by eapply tx_bind_step|cbv beta].
    etrans; [eapply tx_bind_step, (find_row_at_work _ (Some (company_ID row)))|].
    { by eapply default_company_found. }
    cbv beta iota. unfold OrganizationRepository.recordBootstrapRequest. at_work_step.
    { cbn [session_scope session_db at_work]. unfold sql_record_bootstrap, cast. rewrite Et, Eo, Eu, Hr, Ho, Ht, Hcc, Hu. cbn.
      rewrite Hsc. cbn. by rewrite Hb. }
    at_work_step; [by eapply sql_row_found|]. done.
Qed.

Lemma EnsureDefaultCompany_params_Ok config ctx input w params :
  EnsureDefaultCompany_params config ctx input w = Ok params →
  let company := ensure_Company params in
  company_TenantID company = ensureIn_TenantID input ∧
  company_CreatedByUserID company = ensureIn_ActorUserID input ∧
  ensure_OnboardingOperationID params = ensureIn_OnboardingOperationID input ∧
  ensure_ServicePrincipalID params = config_BootstrapServicePrincipalID config ∧
  company_Status company = CompanyStatusActive ∧ company_IsDefault company = true.
Proof.
  unfold EnsureDefaultCompany_params. intros Hp. result_inv Hp; cbv zeta in Hp; result_inv Hp.
  by injection Hp as <-.
Qed.

(** A tenant is onboarded once. Whatever company a first request for the default
    company of a tenant answered with, the same request made again, on a working
    connection, answers with that company and changes nothing, although it comes with new
    identifiers and another time. *)
Theorem ensure_default_idempotent config CheckAuthorization ctx input w w' db company db' params' :
  cooperative config CheckAuthorization w → possible config CheckAuthorization [] [] db →
  perform (EnsureDefaultCompany config ctx input) w db = (Ok company, db') →
  world_interfere w' 0 db' = db' → env_budget (world_env w' 0) = None →
  EnsureDefaultCompany_params config ctx input w' = Ok params' →
  ∃ row, perform (EnsureDefaultCompany config ctx input) w' db' = (Ok row, db') ∧
    uuid_in (company_ID company) = Some (company_ID row) ∧
    ∃ t, organization_companies db' !! (t, company_ID row) = Some row.
Proof.
  intros Hw Hdb (s & Hr & <-)%perform_Ok Hinter Hev Hp'. unfold EnsureDefaultCompany in Hr.
  app_inv Hr. apply call_run in Hr as [Hr _]. cbn in Hr.
  rename a into params. rename E into Hp.
  pose proof (possible_ok _ _ _ _ _ (Hw 0%nat _ _ _ Hdb)) as Hok.
  destruct (EnsureDefaultCompany_params_Ok _ _ _ _ _ Hp) as (Et & Eu & Eo & Es & Hact & Hdef).
  destruct (EnsureDefaultCompany_params_Ok _ _ _ _ _ Hp') as (Et' & Eu' & Eo' & Es' & _).
  destruct (EnsureDefaultCompany_covers _ ctx input w params _ (world_env w 0) Hok Hp) as [Hok' _].
  rewrite Hr in Hok'. cbn in Hok'.
  apply EnsureDefaultCompany_Ok in Hr as (Heff & Hval & t & Ht & Hsc).
  assert (ensure_scope ctx params' = ensure_scope ctx params) as Hscope
    by (unfold ensure_scope; congruence).
  pose proof (default_ensured_post _ _ _ _ Hok Hact Hdef Heff) as Hens.
  destruct (ensured_again params params' ctx (world_env w' 0) company s.2 t) as (row & Hrun & Hid & Hrow);
    [done|done|congruence|congruence|congruence|by rewrite Hscope|done|by rewrite Hscope|done|].
  exists row. split_and!; [|done|by exists t].
  unfold perform, EnsureDefaultCompany, call, pure, mbind, app_bind. rewrite Hp'. cbn.
  by rewrite Hinter, Hrun.
Qed.

End Default.
