(* ===== verification/OrganizationExamples.v ===== *)
(** * Organization: a concrete company

    A tenant is onboarded, two agents are created, one reports to the other, and the
    properties of the service at these requests. *)

From S2P Require Import Prelude GoStrings Postgres Graph Usecase Outbox.
From S2P Require TenantDomain.
From S2P Require Import Concrete.
From S2P Require Import OrganizationDomain OrganizationStore.
From S2P Require OrganizationRepository.
From S2P Require Import OrganizationService OrganizationHierarchy OrganizationEffects.
From S2P Require Import OrganizationInvariant OrganizationSystem OrganizationProperties.
From stdpp Require Import strings gmap list relations.
From Stdlib Require Import String Lia.
Open Scope string_scope.
Open Scope list_scope.
Open Scope Z_scope.

#[local] Notation world := (Usecase.world organization_tables).

#[local] Existing Instances concrete_platform concrete_platform_laws.

Inductive organization_wire :=
| MessageBytes (m : OrganizationMessage)
| EnvelopeBytes (e : EventEnvelope organization_wire).

#[local] Instance organization_wire_proto : Proto := {|
  wire := organization_wire;
  marshal_envelope e := Some (EnvelopeBytes e);
  unmarshal_envelope w := match w with EnvelopeBytes e => Some e | _ => None end;
  timestamp_valid _ := true |}.
#[local] Instance organization_message_proto : OrganizationProto := {|
  marshal_organization_message m := Some (MessageBytes m) |}.

(** Documents are short. *)
#[local] Instance organization_json : Json := {|
  json_Marshal _ := Some "{}"; pg_column_size _ := 2 |}.

Definition example_config : Config := {|
  config_CompanyEventTopic := "company.events"; config_AgentEventTopic := "agent.events";
  config_BootstrapServicePrincipalID := uuid 9 |}.
Definition allow_all : Authorization := λ actor tenant permission, Ok (Some {|
  TenantDomain.decision_Allowed := true; TenantDomain.decision_TenantID := tenant;
  TenantDomain.decision_ActorUserID := actor;
  TenantDomain.decision_Permission := permission;
  TenantDomain.decision_Role := TenantDomain.RoleOwner;
  TenantDomain.decision_TenantVersion := 1; TenantDomain.decision_MembershipVersion := 1;
  TenantDomain.decision_DenialReason := "" |}).

(** The world of the [k]th request: no other request runs. *)
Definition example_world (k : nat) : world := {|
  world_env _ := {| env_clock := 1000; env_budget := None |};
  world_interfere _ db := db;
  world_ids n := Some (uuid2 k n);
  world_now _ := 1000 * Z.of_nat k + 500 |}.

Lemma example_cooperative k : cooperative example_config allow_all (example_world k).
Proof. by intros n db agents companies. Qed.

Definition request_ctx : Ctx := {|
  ctx_RequestID := "request"; ctx_CorrelationID := "correlation"; ctx_TraceID := "trace" |}.

Definition after_request (k : nat) (op : operation) (db : organization_tables)
  : organization_tables :=
  (perform (operate example_config allow_all request_ctx op) (example_world k) db).2.

(** ** The history *)

Definition tenant := uuid 1.
Definition owner := uuid 2.
Definition company := uuid2 1 0.
Definition lead := uuid2 2 0.
Definition worker := uuid2 3 0.

Definition onboarding : EnsureDefaultCompanyInput := {|
  ensureIn_TenantID := tenant; ensureIn_OnboardingOperationID := uuid 5;
  ensureIn_ActorUserID := owner; ensureIn_TenantDisplayName := "Acme" |}.
Definition new_agent (slug : string) (manager : option string) : CreateAgentInput := {|
  agentIn_ActorUserID := owner; agentIn_TenantID := tenant; agentIn_CompanyID := company;
  agentIn_Slug := slug; agentIn_DisplayName := slug; agentIn_RoleTitle := "role";
  agentIn_Objective := "objective"; agentIn_ManagerAgentID := manager;
  agentIn_ExecutionProfile := ""; agentIn_AutonomyLevel := ""; agentIn_Capabilities := [];
  agentIn_Configuration := Some [] |}.
Definition rename_agent (agent name : string) (expected : Z) : UpdateAgentInput := {|
  agentUp_ActorUserID := owner; agentUp_TenantID := tenant; agentUp_AgentID := agent;
  agentUp_ExpectedVersion := expected; agentUp_DisplayName := Some name;
  agentUp_RoleTitle := None; agentUp_Objective := None; agentUp_ExecutionProfile := None;
  agentUp_AutonomyLevel := None; agentUp_Capabilities := None;
  agentUp_Configuration := None |}.
Definition move_agent (agent : string) (manager : option string) (expected : Z)
  : SetAgentManagerInput := {|
  managerIn_ActorUserID := owner; managerIn_TenantID := tenant; managerIn_AgentID := agent;
  managerIn_ExpectedVersion := expected; managerIn_ManagerAgentID := manager |}.
Definition lifecycle (agent : string) (expected : Z) : LifecycleInput := {|
  lifecycle_ActorUserID := owner; lifecycle_TenantID := tenant;
  lifecycle_AgentID := agent; lifecycle_ExpectedVersion := expected |}.

Definition tables1 := after_request 1 (OpEnsureDefaultCompany onboarding) no_organization_tables.
Definition tables2 := after_request 2 (OpCreateAgent (new_agent "lead" None)) tables1.
Definition tables3 := after_request 3 (OpCreateAgent (new_agent "worker" (Some lead))) tables2.
Definition tables4 := after_request 4 (OpUpdateAgent (rename_agent worker "Worker" 1)) tables3.

Lemma possible_start : possible example_config allow_all [] [] no_organization_tables.
Proof. exists start. split; [apply rtc_refl|done]. Qed.

Lemma possible_after k op db :
  possible example_config allow_all [] [] db →
  possible example_config allow_all [] [] (after_request k op db).
Proof. intros Hdb. apply operate_possible; [apply example_cooperative|done]. Qed.

Lemma possible4 : possible example_config allow_all [] [] tables4.
Proof. do 4 apply possible_after. apply possible_start. Qed.

Example worker_renamed :
  ((λ a, (agent_DisplayName a, agent_ManagerAgentID a, agent_Version a)) <$>
     organization_agents tables4 !! (tenant, worker)) = Some ("Worker", Some lead, 2).
Proof. vm_compute. done. Qed.

(** ** The properties at this history *)

(** The row that a table is known to hold. *)
Definition the {A} (o : option A) : is_some o = true → A :=
  match o with
  | Some a => λ _, a
  | None => λ H, False_rect A (Bool.diff_false_true H)
  end.
Lemma the_Some {A} (o : option A) (H : is_some o = true) : o = Some (the o H).
Proof. by destruct o. Qed.

Lemma worker_found : is_some (organization_agents tables4 !! (tenant, worker)) = true.
Proof. vm_compute. done. Qed.
Lemma lead_found : is_some (organization_agents tables4 !! (tenant, lead)) = true.
Proof. vm_compute. done. Qed.
Definition worker_row := the _ worker_found.
Definition lead_row := the _ lead_found.

Lemma worker_reports : reports_to tables4 tenant worker lead.
Proof.
  exists worker_row, lead_row. split_and!.
  - apply the_Some.
  - apply the_Some.
  - vm_compute. done.
  - vm_compute. done.
  - vm_compute. done.
Qed.

Lemma hierarchy_acyclic_witness :
  ∃ σ, sys_tables σ = tables4 ∧ reports_to (sys_tables σ) tenant worker lead ∧
    acyclic (reports_to (sys_tables σ) tenant).
Proof.
  destruct possible4 as (σ & Hσ & Hdb & _). exists σ. split; [exact Hdb|]. split.
  - rewrite Hdb. exact worker_reports.
  - exact (proj1 (hierarchy_acyclic example_config allow_all σ tenant Hσ)).
Defined.

(** Two versions, two revisions. *)
Lemma agent_history_complete_witness :
  agent_Version worker_row = 2 ∧
  is_Some (organization_revisions tables4 !! (tenant, worker, 1)) ∧
  is_Some (organization_revisions tables4 !! (tenant, worker, 2)) ∧
  ¬ is_Some (organization_revisions tables4 !! (tenant, worker, 3)).
Proof.
  assert (agent_Version worker_row = 2) as Hv by (vm_compute; done).
  destruct possible4 as (σ & Hσ & Hdb & _).
  destruct (agent_history_complete example_config allow_all σ tenant worker worker_row Hσ)
    as [Hh _]; [rewrite Hdb; apply the_Some|]. rewrite Hdb, Hv in Hh. split; [exact Hv|].
  rewrite !Hh. lia.
Defined.

Lemma companies_staffed_witness :
  ∃ co, organization_companies tables4 !! (tenant, company) = Some co ∧
    company_Status co = CompanyStatusActive.
Proof.
  destruct possible4 as (σ & Hσ & Hdb & _).
  destruct (companies_staffed example_config allow_all σ Hσ) as [Hstaffed _].
  rewrite Hdb in Hstaffed. apply (Hstaffed (tenant, worker) worker_row).
  - apply the_Some.
  - vm_compute. done.
Defined.

Lemma possible3 : possible example_config allow_all [] [] tables3.
Proof. do 3 apply possible_after. apply possible_start. Qed.

Definition renamed := perform
  (UpdateAgent example_config allow_all request_ctx (rename_agent worker "Worker" 1))
  (example_world 4) tables3.
Lemma renamed_Ok : is_ok renamed.1 = true.
Proof. vm_compute. done. Qed.

Lemma agent_update_serial_witness :
  ∃ current params db1,
    serial_change params (agent_updated (get_ok renamed.1 renamed_Ok)) current db1 renamed.2.
Proof.
  destruct (agent_update_serial example_config allow_all request_ctx
    (rename_agent worker "Worker" 1) (example_world 4) tables3
    (get_ok renamed.1 renamed_Ok) renamed.2) as (current & params & db1 & Hp & _ & _ & Hs).
  - apply example_cooperative.
  - exact possible3.
  - rewrite <-(get_ok_Ok renamed.1 renamed_Ok). unfold renamed. apply surjective_pairing.
  - exists current, params, db1. exact Hs.
Defined.

Lemma pause_resume_unreachable_witness :
  is_ok (perform (PauseAgent example_config allow_all request_ctx (lifecycle worker 2))
           (example_world 5) tables4).1 = false.
Proof.
  destruct (pause_resume_unreachable example_config allow_all request_ctx (lifecycle worker 2)
    (example_world 5) tables4) as (_ & Hpause & _).
  - apply example_cooperative.
  - exact possible4.
  - exact Hpause.
Defined.

Definition owner_scope : Scope := TenantScope tenant owner "request" "correlation".

Lemma owner_scoped : scoped owner_scope tenant.
Proof. eexists. split; [vm_compute; reflexivity|vm_compute; done]. Qed.

(** The lead cannot be placed below the worker. *)
Lemma cycle_check_exact_witness :
  sql_would_cycle tenant company lead worker owner_scope tables4 = Ok true ∧
  rtc (reports_to tables4 tenant) worker lead.
Proof.
  destruct (cycle_check_exact tables4 owner_scope tenant company lead worker tenant company
    lead worker) as [(found & Hq & Hf) _].
  - destruct possible4 as (σ & Hσ%reachable_organization_ok & Hdb & _). rewrite <-Hdb. apply Hσ.
  - exact owner_scoped.
  - vm_compute. done.
  - vm_compute. done.
  - vm_compute. done.
  - vm_compute. done.
  - assert (found = true) as ->.
    { apply Hf. split.
      - exists worker_row. split; [apply the_Some|vm_compute; done].
      - apply rtc_once, worker_reports. }
    split; [exact Hq|]. by apply Hf.
Defined.

Definition empty_tree := perform (GetHierarchy allow_all request_ctx owner tenant company)
  (example_world 6) tables1.
Lemma empty_tree_Ok : is_ok empty_tree.1 = true.
Proof. vm_compute. done. Qed.

Lemma get_hierarchy_empty_witness : get_ok empty_tree.1 empty_tree_Ok = [].
Proof.
  destruct (get_hierarchy_empty example_config allow_all request_ctx owner tenant company
    (example_world 6) tables1 (get_ok empty_tree.1 empty_tree_Ok) empty_tree.2) as [Hnodes _].
  - apply example_cooperative.
  - apply possible_after, possible_start.
  - rewrite <-(get_ok_Ok empty_tree.1 empty_tree_Ok). unfold empty_tree. apply surjective_pairing.
  - exact Hnodes.
Defined.

(** With an agent the same request fails. *)
Example tree_fails :
  (perform (GetHierarchy allow_all request_ctx owner tenant company)
     (example_world 6) tables4).1 = Err ErrInternal.
Proof. vm_compute. done. Qed.

Definition onboarded := perform (EnsureDefaultCompany example_config request_ctx onboarding)
  (example_world 1) no_organization_tables.
Lemma onboarded_Ok : is_ok onboarded.1 = true.
Proof. vm_compute. done. Qed.
Definition again_params :=
  EnsureDefaultCompany_params example_config request_ctx onboarding (example_world 7).
Lemma again_params_Ok : is_ok again_params = true.
Proof. vm_compute. done. Qed.

Lemma ensure_default_idempotent_witness :
  ∃ row, perform (EnsureDefaultCompany example_config request_ctx onboarding)
    (example_world 7) onboarded.2 = (Ok row, onboarded.2) ∧ company_ID row = company.
Proof.
  destruct (ensure_default_idempotent example_config allow_all request_ctx onboarding
    (example_world 1) (example_world 7) no_organization_tables (get_ok onboarded.1 onboarded_Ok)
    onboarded.2 (get_ok again_params again_params_Ok)) as (row & Hrow & Hid & _).
  - apply example_cooperative.
  - exact possible_start.
  - rewrite <-(get_ok_Ok onboarded.1 onboarded_Ok). unfold onboarded. apply surjective_pairing.
  - reflexivity.
  - reflexivity.
  - apply get_ok_Ok.
  - exists row. split; [exact Hrow|].
    assert (uuid_in (company_ID (get_ok onboarded.1 onboarded_Ok)) = Some company) as Hc
      by (vm_compute; done).
    rewrite Hid in Hc. by injection Hc.
Defined.

(** ** What the checks let pass *)

(** A deleted agent is accepted as a manager: the agent below it is in no tree. *)
Definition tables5 := after_request 4
  (OpSetAgentManager (move_agent worker None 1)) tables3.
Definition tables6 := after_request 5 (OpDeleteAgent (lifecycle lead 1)) tables5.
Definition tables7 := after_request 6
  (OpSetAgentManager (move_agent worker (Some lead) 2)) tables6.

Example deleted_manager :
  (agent_Status <$> organization_agents tables7 !! (tenant, lead)) = Some AgentStatusDeleted ∧
  (agent_ManagerAgentID <$> organization_agents tables7 !! (tenant, worker))
    = Some (Some lead) ∧
  sql_hierarchy tenant company owner_scope tables7 = Ok [].
Proof. vm_compute. done. Qed.

(** An agent without a configuration is refused: a nil map is the document null. *)
Example no_configuration_refused :
  let input := {| agentIn_ActorUserID := owner; agentIn_TenantID := tenant;
    agentIn_CompanyID := company; agentIn_Slug := "lead"; agentIn_DisplayName := "lead";
    agentIn_RoleTitle := "role"; agentIn_Objective := "objective";
    agentIn_ManagerAgentID := None; agentIn_ExecutionProfile := "";
    agentIn_AutonomyLevel := ""; agentIn_Capabilities := [];
    agentIn_Configuration := None |} in
  (perform (CreateAgent example_config allow_all request_ctx input) (example_world 2)
     tables1).1 = Err ErrInvalidArgument.
Proof. vm_compute. done. Qed.
