(* ===== verification/ProjectionDomain.v ===== *)
(** * Projections: read models and the mapping of events

    Models [services/projection/internal/domain] (the read models and the errors), the
    protobuf messages that the worker decodes, and the snapshots it takes of them
    ([adapters/projection/mapping.go]). *)

From S2P Require Import Prelude GoStrings Postgres Outbox.
From stdpp Require Import strings gmap list.
From Stdlib Require Import String Lia.
Open Scope string_scope.
Open Scope list_scope.
Open Scope Z_scope.

(** ** errors.go

    [ErrDatabase] is an error of the database that is passed on unmapped; [ErrInternal]
    every other failure without a sentinel. *)
Inductive error :=
| ErrInvalidArgument
| ErrNotFound
| ErrForbidden
| ErrTenantNotActive
| ErrEventIdentityConflict
| ErrDatabase (e : db_error)
| ErrInternal.

#[global] Instance projection_error_eq_dec : EqDecision error.
Proof. solve_decision. Defined.
#[global] Instance projection_db_error : DbError error := ErrDatabase.

(** ** models.go *)

Record EventMeta := {
  meta_EventID : string;
  meta_TenantID : string;
  meta_Topic : string;
  meta_Partition : Z;
  meta_Offset : Z;
  meta_EventType : string;
  meta_EventVersion : Z;
  meta_AggregateType : string;
  meta_AggregateID : string;
  meta_AggregateVersion : Z;
  meta_EventHash : string;
  meta_OccurredAt : Z;
  meta_ProcessedAt : Z;
}.

(** [SourceVersion], [SourceEventID], [SourceEventAt] and [ProjectedAt], the last four
    fields of every snapshot: the event it was taken from. *)
Record Source := {
  source_Version : Z;
  source_EventID : string;
  source_EventAt : Z;
  source_ProjectedAt : Z;
}.

Record Tenant := {
  tenant_ID : string;
  tenant_Slug : string;
  tenant_DisplayName : string;
  tenant_Status : string;
  tenant_Region : string;
  tenant_RetentionDays : Z;
  tenant_Source : Source;
}.

Record Company := {
  company_TenantID : string;
  company_ID : string;
  company_Slug : string;
  company_DisplayName : string;
  company_Description : string;
  company_Status : string;
  company_IsDefault : bool;
  company_Source : Source;
}.

Record Agent := {
  agent_TenantID : string;
  agent_CompanyID : string;
  agent_ID : string;
  agent_Slug : string;
  agent_DisplayName : string;
  agent_RoleTitle : string;
  agent_Objective : string;
  agent_ManagerAgentID : option string;
  agent_Status : string;
  agent_ExecutionProfile : string;
  agent_AutonomyLevel : string;
  agent_Source : Source;
}.

Record Goal := {
  goal_TenantID : string;
  goal_CompanyID : string;
  goal_ID : string;
  goal_Title : string;
  goal_Description : string;
  goal_Status : string;
  goal_Source : Source;
}.

Record Project := {
  project_TenantID : string;
  project_CompanyID : string;
  project_GoalID : string;
  project_ID : string;
  project_Title : string;
  project_Description : string;
  project_Status : string;
  project_Source : Source;
}.

Record Task := {
  task_TenantID : string;
  task_CompanyID : string;
  task_ProjectID : string;
  task_ID : string;
  task_ParentTaskID : option string;
  task_Title : string;
  task_Description : string;
  task_Status : string;
  task_Priority : string;
  task_CreatedByUserID : string;
  task_Source : Source;
}.

(** A dependency and an assignment have no source version. *)
Record Dependency := {
  dependency_TenantID : string;
  dependency_ProjectID : string;
  dependency_TaskID : string;
  dependency_DependsOnTaskID : string;
  dependency_SourceEventID : string;
  dependency_SourceEventAt : Z;
  dependency_ProjectedAt : Z;
}.

Record Assignment := {
  assignment_TenantID : string;
  assignment_TaskID : string;
  assignment_ID : string;
  assignment_AssigneeType : string;
  assignment_UserID : option string;
  assignment_AgentID : option string;
  assignment_Role : string;
  assignment_AssignedAt : Z;
  assignment_SourceEventID : string;
  assignment_SourceEventAt : Z;
  assignment_ProjectedAt : Z;
}.

Record Activity := {
  activity_TenantID : string;
  activity_EventID : string;
  activity_EventType : string;
  activity_CompanyID : option string;
  activity_ProjectID : option string;
  activity_TaskID : option string;
  activity_ActorType : option string;
  activity_ActorID : option string;
  activity_Summary : string;
  activity_OccurredAt : Z;
  activity_ProjectedAt : Z;
}.

(** The source of a document holds its [UpdatedAt] in the place of [SourceEventAt]. *)
Record SearchDocument := {
  document_TenantID : string;
  document_Type : string;
  document_ID : string;
  document_CompanyID : option string;
  document_Title : string;
  document_Subtitle : string;
  document_Body : string;
  document_Status : string;
  document_Deleted : bool;
  document_Source : Source;
}.

Record ProjectionMetadata := {
  metadata_ProjectedThroughEventTime : Z;
  metadata_LastProcessedAt : Z;
}.

Record DashboardSummary := {
  summary_CompaniesTotal : Z;
  summary_CompaniesActive : Z;
  summary_AgentsTotal : Z;
  summary_AgentsReady : Z;
  summary_AgentsDegraded : Z;
  summary_AgentsPaused : Z;
  summary_AgentsFailed : Z;
  summary_GoalsActive : Z;
  summary_GoalsCompleted : Z;
  summary_ProjectsActive : Z;
  summary_ProjectsOnHold : Z;
  summary_ProjectsCompleted : Z;
  summary_TasksTotal : Z;
  summary_TasksBacklog : Z;
  summary_TasksReady : Z;
  summary_TasksInProgress : Z;
  summary_TasksWaitingApproval : Z;
  summary_TasksCompleted : Z;
  summary_TasksCanceled : Z;
  summary_TasksBlocked : Z;
}.

Record CompanyOverview := {
  overview_TenantID : string;
  overview_CompanyID : string;
  overview_Slug : string;
  overview_DisplayName : string;
  overview_Status : string;
  overview_IsDefault : bool;
  overview_AgentsTotal : Z;
  overview_AgentsReady : Z;
  overview_AgentsDegraded : Z;
  overview_AgentsPaused : Z;
  overview_TasksTotal : Z;
  overview_TasksReady : Z;
  overview_TasksInProgress : Z;
  overview_TasksWaitingApproval : Z;
  overview_TasksCompleted : Z;
  overview_TasksBlocked : Z;
}.

Record AgentOverview := {
  agentOverview_TenantID : string;
  agentOverview_CompanyID : string;
  agentOverview_AgentID : string;
  agentOverview_Slug : string;
  agentOverview_DisplayName : string;
  agentOverview_RoleTitle : string;
  agentOverview_Status : string;
  agentOverview_ManagerAgentID : option string;
  agentOverview_AssignedTaskCount : Z;
  agentOverview_ActiveTaskCount : Z;
  agentOverview_UpdatedAt : Z;
}.

(** ** The messages

    The fields of the messages of [gereh.tenant.v1], [gereh.organization.v1] and
    [gereh.work.v1] that the worker reads. An enum is open: any [int32] may arrive, and the
    constants are the numbers of the contracts. An [optional] field is an [option], and so
    is a timestamp. *)
Record Tenant_pb := {
  tenantPb_TenantId : string;
  tenantPb_Slug : string;
  tenantPb_DisplayName : string;
  tenantPb_Status : Z;
  tenantPb_Region : string;
  tenantPb_RetentionDays : Z;
}.

Record TenantContext_pb := { contextPb_Tenant : option Tenant_pb }.

Record Company_pb := {
  companyPb_TenantId : string;
  companyPb_CompanyId : string;
  companyPb_Slug : string;
  companyPb_DisplayName : string;
  companyPb_Description : string;
  companyPb_Status : Z;
  companyPb_IsDefault : bool;
}.

Record Agent_pb := {
  agentPb_TenantId : string;
  agentPb_CompanyId : string;
  agentPb_AgentId : string;
  agentPb_Slug : string;
  agentPb_DisplayName : string;
  agentPb_RoleTitle : string;
  agentPb_Objective : string;
  agentPb_ManagerAgentId : option string;
  agentPb_Status : Z;
  agentPb_ExecutionProfile : Z;
  agentPb_AutonomyLevel : Z;
}.

Record Goal_pb := {
  goalPb_TenantId : string;
  goalPb_CompanyId : string;
  goalPb_GoalId : string;
  goalPb_Title : string;
  goalPb_Description : string;
  goalPb_Status : Z;
}.

Record Project_pb := {
  projectPb_TenantId : string;
  projectPb_CompanyId : string;
  projectPb_GoalId : string;
  projectPb_ProjectId : string;
  projectPb_Title : string;
  projectPb_Description : string;
  projectPb_Status : Z;
}.

Record Task_pb := {
  taskPb_TenantId : string;
  taskPb_CompanyId : string;
  taskPb_ProjectId : string;
  taskPb_TaskId : string;
  taskPb_ParentTaskId : option string;
  taskPb_Title : string;
  taskPb_Description : string;
  taskPb_Status : Z;
  taskPb_Priority : Z;
  taskPb_CreatedByUserId : string;
}.

Record TaskDependency_pb := {
  dependencyPb_TenantId : string;
  dependencyPb_ProjectId : string;
  dependencyPb_TaskId : string;
  dependencyPb_DependsOnTaskId : string;
}.

Record TaskAssignment_pb := {
  assignmentPb_TenantId : string;
  assignmentPb_TaskId : string;
  assignmentPb_AssignmentId : string;
  assignmentPb_AssigneeType : Z;
  assignmentPb_UserId : option string;
  assignmentPb_AgentId : option string;
  assignmentPb_Role : Z;
  assignmentPb_AssignedAt : option Z;
}.

Record Comment_pb := {
  commentPb_TenantId : string;
  commentPb_TaskId : string;
  commentPb_AuthorType : Z;
  commentPb_AuthorUserId : option string;
  commentPb_AuthorAgentId : option string;
}.

Record Artifact_pb := {
  artifactPb_TenantId : string;
  artifactPb_CompanyId : string;
  artifactPb_TaskId : string;
}.

(** A checklist item or a schedule. *)
Record TaskPart_pb := { partPb_TenantId : string; partPb_TaskId : string }.

(** [proto.Unmarshal] into each message: [None] when it fails; the message holds one value,
    which may be absent. *)
Class ProjectionProto `{Proto} := {
  unmarshal_TenantCreated : wire → option (option TenantContext_pb);
  unmarshal_TenantActivated : wire → option (option TenantContext_pb);
  unmarshal_TenantOnboardingFailed : wire → option (option Tenant_pb);
  unmarshal_TenantUpdated : wire → option (option Tenant_pb);
  unmarshal_TenantArchived : wire → option (option Tenant_pb);
  unmarshal_CompanyCreated : wire → option (option Company_pb);
  unmarshal_AgentCreated : wire → option (option Agent_pb);
  unmarshal_AgentDeleted : wire → option (option Agent_pb);
  unmarshal_GoalCreated : wire → option (option Goal_pb);
  unmarshal_ProjectCreated : wire → option (option Project_pb);
  unmarshal_TaskCreated : wire → option (option Task_pb);
  unmarshal_TaskDependencyAdded : wire → option (option TaskDependency_pb);
  unmarshal_TaskDependencyRemoved : wire → option (option TaskDependency_pb);
  unmarshal_TaskAssigned : wire → option (option TaskAssignment_pb);
  unmarshal_TaskUnassigned : wire → option (option TaskAssignment_pb);
  unmarshal_TaskCommentAdded : wire → option (option Comment_pb);
  unmarshal_TaskArtifactAdded : wire → option (option Artifact_pb);
  unmarshal_TaskArtifactDeleted : wire → option (option Artifact_pb);
  unmarshal_TaskChecklistChanged : wire → option (option TaskPart_pb);
  unmarshal_TaskScheduleChanged : wire → option (option TaskPart_pb);
  (** [sha256.Sum256] *)
  sha256_Sum256 : wire → string;
}.

(** ** mapping.go

    [switch value { case c: return name ... default: return "unknown" }] *)
Definition enum_name (cases : list (Z * string)) (value : Z) : string :=
  match List.find (λ c, c.1 =? value) cases with
  | Some c => c.2
  | None => "unknown"
  end.

Definition TENANT_STATUS_ACTIVE : Z := 1.
Definition TENANT_STATUS_ARCHIVED : Z := 2.
Definition TENANT_STATUS_PROVISIONING : Z := 3.
Definition TENANT_STATUS_PROVISIONING_FAILED : Z := 4.
Definition tenantStatus : Z → string := enum_name
  [(TENANT_STATUS_ACTIVE, "active"); (TENANT_STATUS_ARCHIVED, "archived");
   (TENANT_STATUS_PROVISIONING, "provisioning");
   (TENANT_STATUS_PROVISIONING_FAILED, "provisioning_failed")].

Definition COMPANY_STATUS_ACTIVE : Z := 1.
Definition COMPANY_STATUS_ARCHIVED : Z := 2.
Definition companyStatus : Z → string := enum_name
  [(COMPANY_STATUS_ACTIVE, "active"); (COMPANY_STATUS_ARCHIVED, "archived")].

Definition AGENT_STATUS_DELETED : Z := 10.
Definition agentStatus : Z → string := enum_name
  [(1, "draft"); (2, "provisioning"); (3, "configuring_runtime"); (4, "health_checking");
   (5, "ready"); (6, "degraded"); (7, "paused"); (8, "failed"); (9, "deleting");
   (AGENT_STATUS_DELETED, "deleted")].

Definition executionProfile : Z → string := enum_name
  [(1, "balanced"); (2, "persistent"); (3, "technical_worker")].

Definition autonomyLevel : Z → string := enum_name
  [(1, "observe_only"); (2, "suggest"); (3, "approval_required"); (4, "policy_bounded")].

Definition goalStatus : Z → string := enum_name
  [(1, "active"); (2, "completed"); (3, "canceled"); (4, "archived")].

Definition projectStatus : Z → string := enum_name
  [(1, "planned"); (2, "active"); (3, "on_hold"); (4, "completed"); (5, "canceled");
   (6, "archived")].

Definition taskStatus : Z → string := enum_name
  [(1, "backlog"); (2, "ready"); (3, "in_progress"); (4, "waiting_approval");
   (5, "completed"); (6, "canceled")].

Definition taskPriority : Z → string := enum_name
  [(1, "low"); (2, "normal"); (3, "high"); (4, "urgent")].

Definition assigneeType : Z → string := enum_name [(1, "user"); (2, "agent")].

Definition assignmentRole : Z → string := enum_name
  [(1, "primary"); (2, "collaborator"); (3, "reviewer")].

(** [time.Time{}], in nanoseconds of the Unix epoch. *)
Definition zero_time : Z := -62135596800 * 1000000000.

Definition protoTime (value : option Z) : Z := default zero_time value.

Definition source (meta : EventMeta) (now : Z) : Source := {|
  source_Version := meta_AggregateVersion meta; source_EventID := meta_EventID meta;
  source_EventAt := meta_OccurredAt meta; source_ProjectedAt := now |}.

Definition tenantSnapshot (value : Tenant_pb) (meta : EventMeta) (now : Z) : Tenant := {|
  tenant_ID := tenantPb_TenantId value; tenant_Slug := tenantPb_Slug value;
  tenant_DisplayName := tenantPb_DisplayName value;
  tenant_Status := tenantStatus (tenantPb_Status value);
  tenant_Region := tenantPb_Region value;
  tenant_RetentionDays := tenantPb_RetentionDays value;
  tenant_Source := source meta now |}.

Definition companySnapshot (value : Company_pb) (meta : EventMeta) (now : Z) : Company := {|
  company_TenantID := companyPb_TenantId value; company_ID := companyPb_CompanyId value;
  company_Slug := companyPb_Slug value; company_DisplayName := companyPb_DisplayName value;
  company_Description := companyPb_Description value;
  company_Status := companyStatus (companyPb_Status value);
  company_IsDefault := companyPb_IsDefault value; company_Source := source meta now |}.

Definition agentSnapshot (value : Agent_pb) (meta : EventMeta) (now : Z) : Agent := {|
  agent_TenantID := agentPb_TenantId value; agent_CompanyID := agentPb_CompanyId value;
  agent_ID := agentPb_AgentId value; agent_Slug := agentPb_Slug value;
  agent_DisplayName := agentPb_DisplayName value; agent_RoleTitle := agentPb_RoleTitle value;
  agent_Objective := agentPb_Objective value;
  agent_ManagerAgentID := agentPb_ManagerAgentId value;
  agent_Status := agentStatus (agentPb_Status value);
  agent_ExecutionProfile := executionProfile (agentPb_ExecutionProfile value);
  agent_AutonomyLevel := autonomyLevel (agentPb_AutonomyLevel value);
  agent_Source := source meta now |}.

Definition goalSnapshot (value : Goal_pb) (meta : EventMeta) (now : Z) : Goal := {|
  goal_TenantID := goalPb_TenantId value; goal_CompanyID := goalPb_CompanyId value;
  goal_ID := goalPb_GoalId value; goal_Title := goalPb_Title value;
  goal_Description := goalPb_Description value;
  goal_Status := goalStatus (goalPb_Status value); goal_Source := source meta now |}.

Definition projectSnapshot (value : Project_pb) (meta : EventMeta) (now : Z) : Project := {|
  project_TenantID := projectPb_TenantId value; project_CompanyID := projectPb_CompanyId value;
  project_GoalID := projectPb_GoalId value; project_ID := projectPb_ProjectId value;
  project_Title := projectPb_Title value; project_Description := projectPb_Description value;
  project_Status := projectStatus (projectPb_Status value);
  project_Source := source meta now |}.

Definition taskSnapshot (value : Task_pb) (meta : EventMeta) (now : Z) : Task := {|
  task_TenantID := taskPb_TenantId value; task_CompanyID := taskPb_CompanyId value;
  task_ProjectID := taskPb_ProjectId value; task_ID := taskPb_TaskId value;
  task_ParentTaskID := taskPb_ParentTaskId value; task_Title := taskPb_Title value;
  task_Description := taskPb_Description value;
  task_Status := taskStatus (taskPb_Status value);
  task_Priority := taskPriority (taskPb_Priority value);
  task_CreatedByUserID := taskPb_CreatedByUserId value; task_Source := source meta now |}.

Definition dependencySnapshot (value : TaskDependency_pb) (meta : EventMeta) (now : Z)
  : Dependency := {|
  dependency_TenantID := dependencyPb_TenantId value;
  dependency_ProjectID := dependencyPb_ProjectId value;
  dependency_TaskID := dependencyPb_TaskId value;
  dependency_DependsOnTaskID := dependencyPb_DependsOnTaskId value;
  dependency_SourceEventID := meta_EventID meta;
  dependency_SourceEventAt := meta_OccurredAt meta; dependency_ProjectedAt := now |}.

Definition assignmentSnapshot (value : TaskAssignment_pb) (meta : EventMeta) (now : Z)
  : Assignment := {|
  assignment_TenantID := assignmentPb_TenantId value;
  assignment_TaskID := assignmentPb_TaskId value;
  assignment_ID := assignmentPb_AssignmentId value;
  assignment_AssigneeType := assigneeType (assignmentPb_AssigneeType value);
  assignment_UserID := assignmentPb_UserId value;
  assignment_AgentID := assignmentPb_AgentId value;
  assignment_Role := assignmentRole (assignmentPb_Role value);
  assignment_AssignedAt := protoTime (assignmentPb_AssignedAt value);
  assignment_SourceEventID := meta_EventID meta;
  assignment_SourceEventAt := meta_OccurredAt meta; assignment_ProjectedAt := now |}.

Definition companySearchDocument (value : Company_pb) (meta : EventMeta) (now : Z)
  : SearchDocument := {|
  document_TenantID := companyPb_TenantId value; document_Type := "company";
  document_ID := companyPb_CompanyId value;
  document_CompanyID := Some (companyPb_CompanyId value);
  document_Title := companyPb_DisplayName value; document_Subtitle := companyPb_Slug value;
  document_Body := companyPb_Description value;
  document_Status := companyStatus (companyPb_Status value);
  document_Deleted := companyPb_Status value =? COMPANY_STATUS_ARCHIVED;
  document_Source := source meta now |}.

Definition agentSearchDocument (value : Agent_pb) (meta : EventMeta) (now : Z)
  : SearchDocument := {|
  document_TenantID := agentPb_TenantId value; document_Type := "agent";
  document_ID := agentPb_AgentId value;
  document_CompanyID := Some (agentPb_CompanyId value);
  document_Title := agentPb_DisplayName value; document_Subtitle := agentPb_RoleTitle value;
  document_Body := agentPb_Objective value;
  document_Status := agentStatus (agentPb_Status value);
  document_Deleted := agentPb_Status value =? AGENT_STATUS_DELETED;
  document_Source := source meta now |}.

Definition goalSearchDocument (value : Goal_pb) (meta : EventMeta) (now : Z)
  : SearchDocument := {|
  document_TenantID := goalPb_TenantId value; document_Type := "goal";
  document_ID := goalPb_GoalId value; document_CompanyID := Some (goalPb_CompanyId value);
  document_Title := goalPb_Title value; document_Subtitle := goalPb_Description value;
  document_Body := ""; document_Status := goalStatus (goalPb_Status value);
  document_Deleted := false; document_Source := source meta now |}.

Definition projectSearchDocument (value : Project_pb) (meta : EventMeta) (now : Z)
  : SearchDocument := {|
  document_TenantID := projectPb_TenantId value; document_Type := "project";
  document_ID := projectPb_ProjectId value;
  document_CompanyID := Some (projectPb_CompanyId value);
  document_Title := projectPb_Title value;
  document_Subtitle := projectPb_Description value; document_Body := "";
  document_Status := projectStatus (projectPb_Status value);
  document_Deleted := false; document_Source := source meta now |}.

Definition taskSearchDocument (value : Task_pb) (meta : EventMeta) (now : Z)
  : SearchDocument := {|
  document_TenantID := taskPb_TenantId value; document_Type := "task";
  document_ID := taskPb_TaskId value; document_CompanyID := Some (taskPb_CompanyId value);
  document_Title := taskPb_Title value; document_Subtitle := taskPb_Description value;
  document_Body := ""; document_Status := taskStatus (taskPb_Status value);
  document_Deleted := false; document_Source := source meta now |}.

Definition taskEventSummary (eventType : string) (value : Task_pb) : string :=
  if String.eqb eventType "task.created" then "task created"
  else if String.eqb eventType "task.updated" then "task updated"
  else if String.eqb eventType "task.status_changed"
  then String.append "task status changed to " (taskStatus (taskPb_Status value))
  else "task changed".
