(* ===== verification/ProjectionStore.v ===== *)
(** * Projections: tables

    The tables of [services/projection/migrations/000001_projection.up.sql] with their row
    security, and the statements of [internal/adapters/postgres] as functions on them. *)

From S2P Require Import Prelude GoStrings Postgres Outbox ProjectionDomain.
From stdpp Require Import strings gmap list sorting.
From Stdlib Require Import String Lia.
Open Scope string_scope.
Open Scope list_scope.
Open Scope Z_scope.

Record Checkpoint := {
  checkpoint_LastOffset : Z;
  checkpoint_LastEventID : string;
  checkpoint_LastEventAt : Z;
  checkpoint_ProcessedAt : Z;
}.

(** The inbox by event, the checkpoints by topic and partition, the watermarks by tenant, and
    the read models by their primary keys. *)
Record projection_tables := {
  projection_consumed : gmap string EventMeta;
  projection_checkpoints : gmap (string * Z) Checkpoint;
  projection_watermarks : gmap string ProjectionMetadata;
  projection_tenants : gmap string Tenant;
  projection_companies : gmap (string * string) Company;
  projection_agents : gmap (string * string) Agent;
  projection_goals : gmap (string * string) Goal;
  projection_projects : gmap (string * string) Project;
  projection_tasks : gmap (string * string) Task;
  projection_dependencies : gmap (string * string * string) Dependency;
  projection_assignments : gmap (string * string) Assignment;
  projection_activity : gmap (string * string) Activity;
  projection_search : gmap (string * string * string) SearchDocument;
}.

Definition no_projections : projection_tables := {|
  projection_consumed := ∅; projection_checkpoints := ∅;
  projection_watermarks := ∅; projection_tenants := ∅;
  projection_companies := ∅; projection_agents := ∅;
  projection_goals := ∅; projection_projects := ∅;
  projection_tasks := ∅; projection_dependencies := ∅;
  projection_assignments := ∅; projection_activity := ∅;
  projection_search := ∅ |}.

Definition set_consumed v (db : projection_tables) : projection_tables := {|
  projection_consumed := v; projection_checkpoints := projection_checkpoints db;
  projection_watermarks := projection_watermarks db; projection_tenants := projection_tenants db;
  projection_companies := projection_companies db; projection_agents := projection_agents db;
  projection_goals := projection_goals db; projection_projects := projection_projects db;
  projection_tasks := projection_tasks db; projection_dependencies := projection_dependencies db;
  projection_assignments := projection_assignments db; projection_activity := projection_activity db;
  projection_search := projection_search db |}.
Definition set_checkpoints v (db : projection_tables) : projection_tables := {|
  projection_consumed := projection_consumed db; projection_checkpoints := v;
  projection_watermarks := projection_watermarks db; projection_tenants := projection_tenants db;
  projection_companies := projection_companies db; projection_agents := projection_agents db;
  projection_goals := projection_goals db; projection_projects := projection_projects db;
  projection_tasks := projection_tasks db; projection_dependencies := projection_dependencies db;
  projection_assignments := projection_assignments db; projection_activity := projection_activity db;
  projection_search := projection_search db |}.
Definition set_watermarks v (db : projection_tables) : projection_tables := {|
  projection_consumed := projection_consumed db; projection_checkpoints := projection_checkpoints db;
  projection_watermarks := v; projection_tenants := projection_tenants db;
  projection_companies := projection_companies db; projection_agents := projection_agents db;
  projection_goals := projection_goals db; projection_projects := projection_projects db;
  projection_tasks := projection_tasks db; projection_dependencies := projection_dependencies db;
  projection_assignments := projection_assignments db; projection_activity := projection_activity db;
  projection_search := projection_search db |}.
Definition set_tenants v (db : projection_tables) : projection_tables := {|
  projection_consumed := projection_consumed db; projection_checkpoints := projection_checkpoints db;
  projection_watermarks := projection_watermarks db; projection_tenants := v;
  projection_companies := projection_companies db; projection_agents := projection_agents db;
  projection_goals := projection_goals db; projection_projects := projection_projects db;
  projection_tasks := projection_tasks db; projection_dependencies := projection_dependencies db;
  projection_assignments := projection_assignments db; projection_activity := projection_activity db;
  projection_search := projection_search db |}.
Definition set_companies v (db : projection_tables) : projection_tables := {|
  projection_consumed := projection_consumed db; projection_checkpoints := projection_checkpoints db;
  projection_watermarks := projection_watermarks db; projection_tenants := projection_tenants db;
  projection_companies := v; projection_agents := projection_agents db;
  projection_goals := projection_goals db; projection_projects := projection_projects db;
  projection_tasks := projection_tasks db; projection_dependencies := projection_dependencies db;
  projection_assignments := projection_assignments db; projection_activity := projection_activity db;
  projection_search := projection_search db |}.
Definition set_agents v (db : projection_tables) : projection_tables := {|
  projection_consumed := projection_consumed db; projection_checkpoints := projection_checkpoints db;
  projection_watermarks := projection_watermarks db; projection_tenants := projection_tenants db;
  projection_companies := projection_companies db; projection_agents := v;
  projection_goals := projection_goals db; projection_projects := projection_projects db;
  projection_tasks := projection_tasks db; projection_dependencies := projection_dependencies db;
  projection_assignments := projection_assignments db; projection_activity := projection_activity db;
  projection_search := projection_search db |}.
Definition set_goals v (db : projection_tables) : projection_tables := {|
  projection_consumed := projection_consumed db; projection_checkpoints := projection_checkpoints db;
  projection_watermarks := projection_watermarks db; projection_tenants := projection_tenants db;
  projection_companies := projection_companies db; projection_agents := projection_agents db;
  projection_goals := v; projection_projects := projection_projects db;
  projection_tasks := projection_tasks db; projection_dependencies := projection_dependencies db;
  projection_assignments := projection_assignments db; projection_activity := projection_activity db;
  projection_search := projection_search db |}.
Definition set_projects v (db : projection_tables) : projection_tables := {|
  projection_consumed := projection_consumed db; projection_checkpoints := projection_checkpoints db;
  projection_watermarks := projection_watermarks db; projection_tenants := projection_tenants db;
  projection_companies := projection_companies db; projection_agents := projection_agents db;
  projection_goals := projection_goals db; projection_projects := v;
  projection_tasks := projection_tasks db; projection_dependencies := projection_dependencies db;
  projection_assignments := projection_assignments db; projection_activity := projection_activity db;
  projection_search := projection_search db |}.
Definition set_tasks v (db : projection_tables) : projection_tables := {|
  projection_consumed := projection_consumed db; projection_checkpoints := projection_checkpoints db;
  projection_watermarks := projection_watermarks db; projection_tenants := projection_tenants db;
  projection_companies := projection_companies db; projection_agents := projection_agents db;
  projection_goals := projection_goals db; projection_projects := projection_projects db;
  projection_tasks := v; projection_dependencies := projection_dependencies db;
  projection_assignments := projection_assignments db; projection_activity := projection_activity db;
  projection_search := projection_search db |}.
Definition set_dependencies v (db : projection_tables) : projection_tables := {|
  projection_consumed := projection_consumed db; projection_checkpoints := projection_checkpoints db;
  projection_watermarks := projection_watermarks db; projection_tenants := projection_tenants db;
  projection_companies := projection_companies db; projection_agents := projection_agents db;
  projection_goals := projection_goals db; projection_projects := projection_projects db;
  projection_tasks := projection_tasks db; projection_dependencies := v;
  projection_assignments := projection_assignments db; projection_activity := projection_activity db;
  projection_search := projection_search db |}.
Definition set_assignments v (db : projection_tables) : projection_tables := {|
  projection_consumed := projection_consumed db; projection_checkpoints := projection_checkpoints db;
  projection_watermarks := projection_watermarks db; projection_tenants := projection_tenants db;
  projection_companies := projection_companies db; projection_agents := projection_agents db;
  projection_goals := projection_goals db; projection_projects := projection_projects db;
  projection_tasks := projection_tasks db; projection_dependencies := projection_dependencies db;
  projection_assignments := v; projection_activity := projection_activity db;
  projection_search := projection_search db |}.
Definition set_activity v (db : projection_tables) : projection_tables := {|
  projection_consumed := projection_consumed db; projection_checkpoints := projection_checkpoints db;
  projection_watermarks := projection_watermarks db; projection_tenants := projection_tenants db;
  projection_companies := projection_companies db; projection_agents := projection_agents db;
  projection_goals := projection_goals db; projection_projects := projection_projects db;
  projection_tasks := projection_tasks db; projection_dependencies := projection_dependencies db;
  projection_assignments := projection_assignments db; projection_activity := v;
  projection_search := projection_search db |}.
Definition set_search v (db : projection_tables) : projection_tables := {|
  projection_consumed := projection_consumed db; projection_checkpoints := projection_checkpoints db;
  projection_watermarks := projection_watermarks db; projection_tenants := projection_tenants db;
  projection_companies := projection_companies db; projection_agents := projection_agents db;
  projection_goals := projection_goals db; projection_projects := projection_projects db;
  projection_tasks := projection_tasks db; projection_dependencies := projection_dependencies db;
  projection_assignments := projection_assignments db; projection_activity := projection_activity db;
  projection_search := v |}.

(** [INSERT ... ON CONFLICT (key) DO UPDATE ... WHERE replaces old new] *)
Definition upsert {K R} `{Countable K} (replaces : R → R → bool) (key : K) (row : R)
    (m : gmap K R) : gmap K R :=
  match m !! key with
  | Some old => if replaces old row then <[key := row]> m else m
  | None => <[key := row]> m
  end.

(** [DO UPDATE] without a condition, and with [source_version < EXCLUDED.source_version]. *)
Definition always {R} (old new : R) : bool := true.
Definition newer {R} (src : R → Source) (old new : R) : bool :=
  source_Version (src old) <? source_Version (src new).

(** [WHERE deleted OR source_version < EXCLUDED.source_version] *)
Definition document_newer (old new : SearchDocument) : bool :=
  document_Deleted old || newer document_Source old new.

Section Store.
Context `{Platform}.

(** How pgx writes a [uint64] and a [uint32] into a [bigint] and an [integer]. *)
Definition bigint (v : Z) : result db_error Z :=
  fail_if (int64_max <? v) ErrOutOfRange;; Ok v.
Definition integer (v : Z) : result db_error Z :=
  fail_if (2 ^ 31 - 1 <? v) ErrOutOfRange;; Ok v.

(** ** The inbox and the state of the consumer *)

Definition consumed_checks (e : EventMeta) : bool :=
  (0 <=? meta_Partition e) && (0 <=? meta_Offset e) && (0 <? meta_EventVersion e)
  && (0 <=? meta_AggregateVersion e) && (len (meta_EventHash e) =? 32).

Definition same_position (a b : EventMeta) : bool :=
  String.eqb (meta_Topic a) (meta_Topic b) && (meta_Partition a =? meta_Partition b)
  && (meta_Offset a =? meta_Offset b).

Definition consumed_row (i t : string) (e : EventMeta) : EventMeta := {|
  meta_EventID := i; meta_TenantID := t; meta_Topic := meta_Topic e;
  meta_Partition := meta_Partition e; meta_Offset := meta_Offset e;
  meta_EventType := meta_EventType e; meta_EventVersion := meta_EventVersion e;
  meta_AggregateType := meta_AggregateType e; meta_AggregateID := meta_AggregateID e;
  meta_AggregateVersion := meta_AggregateVersion e; meta_EventHash := meta_EventHash e;
  meta_OccurredAt := timestamptz (meta_OccurredAt e);
  meta_ProcessedAt := timestamptz (meta_ProcessedAt e) |}.

(** [INSERT ... ON CONFLICT (event_id) DO NOTHING RETURNING event_id]: the conflict is found
    whatever the tenant of the row. *)
Definition sql_insert_consumed (e : EventMeta) (sc : Scope) (db : projection_tables)
  : result db_error (option string * projection_tables) :=
  r ← rls_of sc; i ← cast (meta_EventID e); t ← cast (meta_TenantID e);
  _ ← integer (meta_EventVersion e); _ ← bigint (meta_AggregateVersion e);
  let row := consumed_row i t e in
  fail_if (negb (tenant_scoped r t)) (ErrRowSecurity "projection_consumed_events");;
  fail_if (negb (consumed_checks row)) (ErrCheckViolation "projection_consumed_events");;
  if is_some (projection_consumed db !! i) then Ok (None, db)
  else
    fail_if (table_any (same_position row) (projection_consumed db))
      (ErrUniqueViolation "projection_consumed_events_topic_partition_offset_value_key");;
    Ok (Some i, set_consumed (<[i := row]> (projection_consumed db)) db).

Definition sql_event_hash (eventID : string) (sc : Scope) (db : projection_tables)
  : result db_error string :=
  r ← rls_of sc; i ← cast eventID;
  row ← from_option_err ErrNoRows (projection_consumed db !! i);
  fail_if (negb (tenant_scoped r (meta_TenantID row))) ErrNoRows;;
  Ok (meta_EventHash row).

(** The greater of two moments, per column. *)
Definition watermark_join (old new : ProjectionMetadata) : ProjectionMetadata := {|
  metadata_ProjectedThroughEventTime :=
    Z.max (metadata_ProjectedThroughEventTime old) (metadata_ProjectedThroughEventTime new);
  metadata_LastProcessedAt :=
    Z.max (metadata_LastProcessedAt old) (metadata_LastProcessedAt new) |}.

Definition sql_update_watermark (e : EventMeta) (sc : Scope) (db : projection_tables)
  : result db_error (unit * projection_tables) :=
  r ← rls_of sc; t ← cast (meta_TenantID e);
  let row := {| metadata_ProjectedThroughEventTime := timestamptz (meta_OccurredAt e);
                metadata_LastProcessedAt := timestamptz (meta_ProcessedAt e) |} in
  fail_if (negb (tenant_scoped r t)) (ErrRowSecurity "projection_tenant_watermarks");;
  Ok (tt, set_watermarks
            (<[t := match projection_watermarks db !! t with
                    | Some old => watermark_join old row
                    | None => row
                    end]> (projection_watermarks db)) db).

(** [WHERE last_offset < EXCLUDED.last_offset]; the table has no row security. *)
Definition later_offset (old new : Checkpoint) : bool :=
  checkpoint_LastOffset old <? checkpoint_LastOffset new.

Definition sql_update_checkpoint (e : EventMeta) (sc : Scope) (db : projection_tables)
  : result db_error (unit * projection_tables) :=
  i ← cast (meta_EventID e);
  fail_if (negb ((0 <=? meta_Partition e) && (0 <=? meta_Offset e)))
    (ErrCheckViolation "projection_partition_checkpoints");;
  let row := {| checkpoint_LastOffset := meta_Offset e; checkpoint_LastEventID := i;
                checkpoint_LastEventAt := timestamptz (meta_OccurredAt e);
                checkpoint_ProcessedAt := timestamptz (meta_ProcessedAt e) |} in
  Ok (tt, set_checkpoints (upsert later_offset (meta_Topic e, meta_Partition e) row
                             (projection_checkpoints db)) db).

(** ** The read models

    A table of rows [R] by their keys [K]: where it is, its primary key and the tenant in it,
    the casts of the parameters, the checks of a row, and when a written row replaces the one
    it conflicts with. *)
Record read_model (K R : Type) `{Countable K} := {
  model_name : string;
  model_rows : projection_tables → gmap K R;
  model_set : gmap K R → projection_tables → projection_tables;
  model_key : R → K;
  model_tenant : K → string;
  model_cast : R → result db_error R;
  model_check : R → bool;
  model_replaces : R → R → bool;
}.
Arguments model_name {K R _ _} _.
Arguments model_rows {K R _ _} _ _.
Arguments model_set {K R _ _} _ _ _.
Arguments model_key {K R _ _} _ _.
Arguments model_tenant {K R _ _} _ _.
Arguments model_cast {K R _ _} _ _.
Arguments model_check {K R _ _} _ _.
Arguments model_replaces {K R _ _} _ _ _.

(** [INSERT ... ON CONFLICT (key) DO ...] under the row security of the table. *)
Definition sql_put {K R} `{Countable K} (M : read_model K R) (value : R) (sc : Scope)
    (db : projection_tables) : result db_error (unit * projection_tables) :=
  r ← rls_of sc; row ← model_cast M value;
  fail_if (negb (tenant_scoped r (model_tenant M (model_key M row))))
    (ErrRowSecurity (model_name M));;
  fail_if (negb (model_check M row)) (ErrCheckViolation (model_name M));;
  Ok (tt, model_set M (upsert (model_replaces M) (model_key M row) row (model_rows M db)) db).

(** [DELETE ... WHERE key]: it touches the row if the policy shows it. *)
Definition sql_drop {K R} `{Countable K} (M : read_model K R) (key : result db_error K)
    (sc : Scope) (db : projection_tables) : result db_error (unit * projection_tables) :=
  r ← rls_of sc; k ← key;
  Ok (tt, if tenant_scoped r (model_tenant M k)
          then model_set M (delete k (model_rows M db)) db else db).

Definition source_row (s : Source) : result db_error Source :=
  v ← bigint (source_Version s); e ← cast (source_EventID s);
  Ok {| source_Version := v; source_EventID := e;
        source_EventAt := timestamptz (source_EventAt s);
        source_ProjectedAt := timestamptz (source_ProjectedAt s) |}.

(** [CHECK (source_version > 0)] *)
Definition source_check {R} (src : R → Source) (row : R) : bool :=
  0 <? source_Version (src row).
Definition no_check {R} (row : R) : bool := true.

Definition tenant_row (v : Tenant) : result db_error Tenant :=
  t ← cast (tenant_ID v); s ← source_row (tenant_Source v);
  Ok {| tenant_ID := t; tenant_Slug := tenant_Slug v;
        tenant_DisplayName := tenant_DisplayName v; tenant_Status := tenant_Status v;
        tenant_Region := tenant_Region v; tenant_RetentionDays := tenant_RetentionDays v;
        tenant_Source := s |}.

Definition tenants : read_model string Tenant := {|
  model_name := "projection_tenants"; model_rows := projection_tenants;
  model_set := set_tenants; model_key := tenant_ID; model_tenant := id;
  model_cast := tenant_row; model_check := source_check tenant_Source;
  model_replaces := newer tenant_Source |}.

Definition company_row (v : Company) : result db_error Company :=
  t ← cast (company_TenantID v); i ← cast (company_ID v); s ← source_row (company_Source v);
  Ok {| company_TenantID := t; company_ID := i; company_Slug := company_Slug v;
        company_DisplayName := company_DisplayName v;
        company_Description := company_Description v; company_Status := company_Status v;
        company_IsDefault := company_IsDefault v; company_Source := s |}.

Definition companies : read_model (string * string) Company := {|
  model_name := "projection_companies"; model_rows := projection_companies;
  model_set := set_companies; model_key v := (company_TenantID v, company_ID v);
  model_tenant := fst; model_cast := company_row; model_check := source_check company_Source;
  model_replaces := newer company_Source |}.

Definition agent_row (v : Agent) : result db_error Agent :=
  t ← cast (agent_TenantID v); c ← cast (agent_CompanyID v); i ← cast (agent_ID v);
  m ← cast_option (agent_ManagerAgentID v); s ← source_row (agent_Source v);
  Ok {| agent_TenantID := t; agent_CompanyID := c; agent_ID := i; agent_Slug := agent_Slug v;
        agent_DisplayName := agent_DisplayName v; agent_RoleTitle := agent_RoleTitle v;
        agent_Objective := agent_Objective v; agent_ManagerAgentID := m;
        agent_Status := agent_Status v; agent_ExecutionProfile := agent_ExecutionProfile v;
        agent_AutonomyLevel := agent_AutonomyLevel v; agent_Source := s |}.

Definition agents : read_model (string * string) Agent := {|
  model_name := "projection_agents"; model_rows := projection_agents;
  model_set := set_agents; model_key v := (agent_TenantID v, agent_ID v);
  model_tenant := fst; model_cast := agent_row; model_check := source_check agent_Source;
  model_replaces := newer agent_Source |}.

Definition goal_row (v : Goal) : result db_error Goal :=
  t ← cast (goal_TenantID v); c ← cast (goal_CompanyID v); i ← cast (goal_ID v);
  s ← source_row (goal_Source v);
  Ok {| goal_TenantID := t; goal_CompanyID := c; goal_ID := i; goal_Title := goal_Title v;
        goal_Description := goal_Description v; goal_Status := goal_Status v;
        goal_Source := s |}.

Definition goals : read_model (string * string) Goal := {|
  model_name := "projection_goals"; model_rows := projection_goals;
  model_set := set_goals; model_key v := (goal_TenantID v, goal_ID v);
  model_tenant := fst; model_cast := goal_row; model_check := source_check goal_Source;
  model_replaces := newer goal_Source |}.

Definition project_row (v : Project) : result db_error Project :=
  t ← cast (project_TenantID v); c ← cast (project_CompanyID v);
  g ← cast (project_GoalID v); i ← cast (project_ID v); s ← source_row (project_Source v);
  Ok {| project_TenantID := t; project_CompanyID := c; project_GoalID := g; project_ID := i;
        project_Title := project_Title v; project_Description := project_Description v;
        project_Status := project_Status v; project_Source := s |}.

Definition projects : read_model (string * string) Project := {|
  model_name := "projection_projects"; model_rows := projection_projects;
  model_set := set_projects; model_key v := (project_TenantID v, project_ID v);
  model_tenant := fst; model_cast := project_row;
  model_check := source_check project_Source; model_replaces := newer project_Source |}.

Definition task_row (v : Task) : result db_error Task :=
  t ← cast (task_TenantID v); c ← cast (task_CompanyID v); p ← cast (task_ProjectID v);
  i ← cast (task_ID v); parent ← cast_option (task_ParentTaskID v);
  u ← cast (task_CreatedByUserID v); s ← source_row (task_Source v);
  Ok {| task_TenantID := t; task_CompanyID := c; task_ProjectID := p; task_ID := i;
        task_ParentTaskID := parent; task_Title := task_Title v;
        task_Description := task_Description v; task_Status := task_Status v;
        task_Priority := task_Priority v; task_CreatedByUserID := u; task_Source := s |}.

Definition tasks : read_model (string * string) Task := {|
  model_name := "projection_tasks"; model_rows := projection_tasks;
  model_set := set_tasks; model_key v := (task_TenantID v, task_ID v);
  model_tenant := fst; model_cast := task_row; model_check := source_check task_Source;
  model_replaces := newer task_Source |}.

Definition dependency_row (v : Dependency) : result db_error Dependency :=
  t ← cast (dependency_TenantID v); p ← cast (dependency_ProjectID v);
  i ← cast (dependency_TaskID v); d ← cast (dependency_DependsOnTaskID v);
  e ← cast (dependency_SourceEventID v);
  Ok {| dependency_TenantID := t; dependency_ProjectID := p; dependency_TaskID := i;
        dependency_DependsOnTaskID := d; dependency_SourceEventID := e;
        dependency_SourceEventAt := timestamptz (dependency_SourceEventAt v);
        dependency_ProjectedAt := timestamptz (dependency_ProjectedAt v) |}.

Definition dependencies : read_model (string * string * string) Dependency := {|
  model_name := "projection_task_dependencies"; model_rows := projection_dependencies;
  model_set := set_dependencies;
  model_key v := (dependency_TenantID v, dependency_TaskID v, dependency_DependsOnTaskID v);
  model_tenant k := k.1.1; model_cast := dependency_row; model_check := no_check;
  model_replaces := always |}.

Definition assignment_row (v : Assignment) : result db_error Assignment :=
  t ← cast (assignment_TenantID v); k ← cast (assignment_TaskID v);
  i ← cast (assignment_ID v); u ← cast_option (assignment_UserID v);
  a ← cast_option (assignment_AgentID v); e ← cast (assignment_SourceEventID v);
  Ok {| assignment_TenantID := t; assignment_TaskID := k; assignment_ID := i;
        assignment_AssigneeType := assignment_AssigneeType v; assignment_UserID := u;
        assignment_AgentID := a; assignment_Role := assignment_Role v;
        assignment_AssignedAt := timestamptz (assignment_AssignedAt v);
        assignment_SourceEventID := e;
        assignment_SourceEventAt := timestamptz (assignment_SourceEventAt v);
        assignment_ProjectedAt := timestamptz (assignment_ProjectedAt v) |}.

Definition assignments : read_model (string * string) Assignment := {|
  model_name := "projection_task_assignments"; model_rows := projection_assignments;
  model_set := set_assignments; model_key v := (assignment_TenantID v, assignment_ID v);
  model_tenant := fst; model_cast := assignment_row; model_check := no_check;
  model_replaces := always |}.

(** [ON CONFLICT DO NOTHING]; [CHECK (char_length(summary) BETWEEN 1 AND 500)]. *)
Definition never {R} (old new : R) : bool := false.
Definition activity_check (v : Activity) : bool :=
  in_bounds 1 500 (char_length (activity_Summary v)).

Definition activity_row (v : Activity) : result db_error Activity :=
  t ← cast (activity_TenantID v); e ← cast (activity_EventID v);
  c ← cast_option (activity_CompanyID v); p ← cast_option (activity_ProjectID v);
  k ← cast_option (activity_TaskID v); a ← cast_option (activity_ActorID v);
  Ok {| activity_TenantID := t; activity_EventID := e;
        activity_EventType := activity_EventType v; activity_CompanyID := c;
        activity_ProjectID := p; activity_TaskID := k;
        activity_ActorType := activity_ActorType v; activity_ActorID := a;
        activity_Summary := activity_Summary v;
        activity_OccurredAt := timestamptz (activity_OccurredAt v);
        activity_ProjectedAt := timestamptz (activity_ProjectedAt v) |}.

Definition activity : read_model (string * string) Activity := {|
  model_name := "projection_task_activity"; model_rows := projection_activity;
  model_set := set_activity; model_key v := (activity_TenantID v, activity_EventID v);
  model_tenant := fst; model_cast := activity_row; model_check := activity_check;
  model_replaces := never |}.

Definition document_types : list string := ["company"; "agent"; "goal"; "project"; "task"].
Definition document_check (v : SearchDocument) : bool :=
  slices_Contains document_types (document_Type v) && source_check document_Source v.

Definition document_row (v : SearchDocument) : result db_error SearchDocument :=
  t ← cast (document_TenantID v); i ← cast (document_ID v);
  c ← cast_option (document_CompanyID v); s ← source_row (document_Source v);
  Ok {| document_TenantID := t; document_Type := document_Type v; document_ID := i;
        document_CompanyID := c; document_Title := document_Title v;
        document_Subtitle := document_Subtitle v; document_Body := document_Body v;
        document_Status := document_Status v; document_Deleted := document_Deleted v;
        document_Source := s |}.

Definition documents : read_model (string * string * string) SearchDocument := {|
  model_name := "projection_search_documents"; model_rows := projection_search;
  model_set := set_search;
  model_key v := (document_TenantID v, document_Type v, document_ID v);
  model_tenant k := k.1.1; model_cast := document_row; model_check := document_check;
  model_replaces := document_newer |}.

End Store.
#[global] Arguments model_name {_ _ _ _} _.
#[global] Arguments model_rows {_ _ _ _} _ _.
#[global] Arguments model_set {_ _ _ _} _ _ _.
#[global] Arguments model_key {_ _ _ _} _ _.
#[global] Arguments model_tenant {_ _ _ _} _ _.
#[global] Arguments model_cast {_ _ _ _} _ _.
#[global] Arguments model_check {_ _ _ _} _ _.
#[global] Arguments model_replaces {_ _ _ _} _ _ _.

(** ** From events to statements

    Models [services/projection/internal/adapters/projection/ingest.go]: the decoding of an
    event into the function that applies it, and the transaction methods that these functions
    call ([ports.ProjectionTransaction], [adapters/postgres]). *)

(** What runs inside a transaction on the projection's tables. *)
Notation repo := (tx projection_tables error).

Section Ingest.
Context `{Platform, ProjectionProto}.

(** ** entities.go, relations.go, activity.go *)

Definition UpsertTenant (value : Tenant) : repo unit := exec (sql_put tenants value).
Definition UpsertCompany (value : Company) : repo unit := exec (sql_put companies value).
Definition UpsertAgent (value : Agent) : repo unit := exec (sql_put agents value).
Definition UpsertGoal (value : Goal) : repo unit := exec (sql_put goals value).
Definition UpsertProject (value : Project) : repo unit := exec (sql_put projects value).
Definition UpsertTask (value : Task) : repo unit := exec (sql_put tasks value).
Definition UpsertDependency (value : Dependency) : repo unit :=
  exec (sql_put dependencies value).
Definition DeleteDependency (tenantID taskID dependsOnTaskID : string) : repo unit :=
  exec (sql_drop dependencies
          (t ← cast tenantID; i ← cast taskID; d ← cast dependsOnTaskID; Ok (t, i, d))).
Definition UpsertAssignment (value : Assignment) : repo unit := exec (sql_put assignments value).
Definition DeleteAssignment (tenantID assignmentID : string) : repo unit :=
  exec (sql_drop assignments (t ← cast tenantID; i ← cast assignmentID; Ok (t, i))).
Definition AppendActivity (value : Activity) : repo unit := exec (sql_put activity value).
Definition UpsertSearchDocument (value : SearchDocument) : repo unit :=
  exec (sql_put documents value).

(** [ports.ApplyFunc] *)
Definition ApplyFunc : Type := repo unit.

(** ** ingest.go *)

Definition requireTenantMatch (meta : EventMeta) (payloadTenantID : string)
  : result error unit :=
  fail_if (negb (String.eqb (TrimSpace payloadTenantID) (TrimSpace (meta_TenantID meta))))
    ErrInternal.

(** [unmarshalTyped], then the value the message must carry. *)
Definition unmarshalTyped {A} (unmarshal : wire → option A) (payload : wire)
  : result error A := from_option_err ErrInternal (unmarshal payload).
Definition carried {A} (value : option A) : result error A := from_option_err ErrInternal value.

Definition optionalTaskID (value : string) : option string :=
  if String.eqb value "" then None else Some value.

Definition taskActivity (meta : EventMeta) (now : Z) (companyID projectID taskID : string)
    (summary : string) : Activity := {|
  activity_TenantID := meta_TenantID meta; activity_EventID := meta_EventID meta;
  activity_EventType := meta_EventType meta; activity_CompanyID := optionalTaskID companyID;
  activity_ProjectID := optionalTaskID projectID; activity_TaskID := optionalTaskID taskID;
  activity_ActorType := None; activity_ActorID := None; activity_Summary := summary;
  activity_OccurredAt := meta_OccurredAt meta; activity_ProjectedAt := now |}.

Definition decodeTenantContextHolder (eventType : string) (payload : wire)
  : result error (option TenantContext_pb) :=
  if String.eqb eventType "tenant.created" then unmarshalTyped unmarshal_TenantCreated payload
  else if String.eqb eventType "tenant.activated"
  then unmarshalTyped unmarshal_TenantActivated payload
  else Err ErrInternal.

Definition decodeTenantContextEvent (eventType : string) (payload : wire) (meta : EventMeta)
    (now : Z) : result error ApplyFunc :=
  holder ← decodeTenantContextHolder eventType payload;
  contextValue ← carried holder;
  tenant ← carried (contextPb_Tenant contextValue);
  requireTenantMatch meta (tenantPb_TenantId tenant);;
  Ok (UpsertTenant (tenantSnapshot tenant meta now)).

Definition decodeTenantHolder (eventType : string) (payload : wire)
  : result error (option Tenant_pb) :=
  if String.eqb eventType "tenant.onboarding_failed"
  then unmarshalTyped unmarshal_TenantOnboardingFailed payload
  else if String.eqb eventType "tenant.updated"
  then unmarshalTyped unmarshal_TenantUpdated payload
  else if String.eqb eventType "tenant.archived"
  then unmarshalTyped unmarshal_TenantArchived payload
  else Err ErrInternal.

Definition decodeTenantEvent (eventType : string) (payload : wire) (meta : EventMeta) (now : Z)
  : result error ApplyFunc :=
  holder ← decodeTenantHolder eventType payload;
  tenant ← carried holder;
  requireTenantMatch meta (tenantPb_TenantId tenant);;
  Ok (UpsertTenant (tenantSnapshot tenant meta now)).

(** Every company event is read as a [CompanyCreated]: the company is the first field of each
    of them. The same holds for the agents, goals, projects, tasks and comments below. *)
Definition decodeCompanyEvent (payload : wire) (meta : EventMeta) (now : Z)
  : result error ApplyFunc :=
  value ← unmarshalTyped unmarshal_CompanyCreated payload;
  company ← carried value;
  requireTenantMatch meta (companyPb_TenantId company);;
  Ok (UpsertCompany (companySnapshot company meta now);;
      UpsertSearchDocument (companySearchDocument company meta now)).

Definition decodeAgentEvent (payload : wire) (meta : EventMeta) (now : Z)
  : result error ApplyFunc :=
  value ← unmarshalTyped unmarshal_AgentCreated payload;
  agent ← carried value;
  requireTenantMatch meta (agentPb_TenantId agent);;
  Ok (UpsertAgent (agentSnapshot agent meta now);;
      UpsertSearchDocument (agentSearchDocument agent meta now)).

(** [projection.Status = "deleted"], [document.Deleted = true] *)
Definition mark_agent_deleted (a : Agent) : Agent := {|
  agent_TenantID := agent_TenantID a; agent_CompanyID := agent_CompanyID a;
  agent_ID := agent_ID a; agent_Slug := agent_Slug a;
  agent_DisplayName := agent_DisplayName a; agent_RoleTitle := agent_RoleTitle a;
  agent_Objective := agent_Objective a; agent_ManagerAgentID := agent_ManagerAgentID a;
  agent_Status := "deleted"; agent_ExecutionProfile := agent_ExecutionProfile a;
  agent_AutonomyLevel := agent_AutonomyLevel a; agent_Source := agent_Source a |}.
Definition mark_document_deleted (d : SearchDocument) : SearchDocument := {|
  document_TenantID := document_TenantID d; document_Type := document_Type d;
  document_ID := document_ID d; document_CompanyID := document_CompanyID d;
  document_Title := document_Title d; document_Subtitle := document_Subtitle d;
  document_Body := document_Body d; document_Status := document_Status d;
  document_Deleted := true; document_Source := document_Source d |}.

Definition decodeAgentDeletedEvent (payload : wire) (meta : EventMeta) (now : Z)
  : result error ApplyFunc :=
  value ← unmarshalTyped unmarshal_AgentDeleted payload;
  agent ← carried value;
  requireTenantMatch meta (agentPb_TenantId agent);;
  Ok (UpsertAgent (mark_agent_deleted (agentSnapshot agent meta now));;
      UpsertSearchDocument (mark_document_deleted (agentSearchDocument agent meta now))).

Definition decodeGoalEvent (payload : wire) (meta : EventMeta) (now : Z)
  : result error ApplyFunc :=
  value ← unmarshalTyped unmarshal_GoalCreated payload;
  goal ← carried value;
  requireTenantMatch meta (goalPb_TenantId goal);;
  Ok (UpsertGoal (goalSnapshot goal meta now);;
      UpsertSearchDocument (goalSearchDocument goal meta now)).

Definition decodeProjectEvent (payload : wire) (meta : EventMeta) (now : Z)
  : result error ApplyFunc :=
  value ← unmarshalTyped unmarshal_ProjectCreated payload;
  project ← carried value;
  requireTenantMatch meta (projectPb_TenantId project);;
  Ok (UpsertProject (projectSnapshot project meta now);;
      UpsertSearchDocument (projectSearchDocument project meta now)).

Definition decodeTaskEvent (eventType : string) (payload : wire) (meta : EventMeta) (now : Z)
  : result error ApplyFunc :=
  value ← unmarshalTyped unmarshal_TaskCreated payload;
  task ← carried value;
  requireTenantMatch meta (taskPb_TenantId task);;
  let summary := taskEventSummary eventType task in
  Ok (UpsertTask (taskSnapshot task meta now);;
      UpsertSearchDocument (taskSearchDocument task meta now);;
      AppendActivity (taskActivity meta now (taskPb_CompanyId task) (taskPb_ProjectId task)
                        (taskPb_TaskId task) summary)).

Definition decodeDependencyAddedEvent (payload : wire) (meta : EventMeta) (now : Z)
  : result error ApplyFunc :=
  value ← unmarshalTyped unmarshal_TaskDependencyAdded payload;
  dependency ← carried value;
  requireTenantMatch meta (dependencyPb_TenantId dependency);;
  Ok (UpsertDependency (dependencySnapshot dependency meta now);;
      AppendActivity (taskActivity meta now "" (dependencyPb_ProjectId dependency)
                        (dependencyPb_TaskId dependency) "task dependency added")).

Definition decodeDependencyRemovedEvent (payload : wire) (meta : EventMeta) (now : Z)
  : result error ApplyFunc :=
  value ← unmarshalTyped unmarshal_TaskDependencyRemoved payload;
  dependency ← carried value;
  requireTenantMatch meta (dependencyPb_TenantId dependency);;
  Ok (DeleteDependency (meta_TenantID meta) (dependencyPb_TaskId dependency)
        (dependencyPb_DependsOnTaskId dependency);;
      AppendActivity (taskActivity meta now "" (dependencyPb_ProjectId dependency)
                        (dependencyPb_TaskId dependency) "task dependency removed")).

Definition decodeAssignedEvent (payload : wire) (meta : EventMeta) (now : Z)
  : result error ApplyFunc :=
  value ← unmarshalTyped unmarshal_TaskAssigned payload;
  assignment ← carried value;
  requireTenantMatch meta (assignmentPb_TenantId assignment);;
  Ok (UpsertAssignment (assignmentSnapshot assignment meta now);;
      AppendActivity (taskActivity meta now "" "" (assignmentPb_TaskId assignment)
                        "task assigned")).

Definition decodeUnassignedEvent (payload : wire) (meta : EventMeta) (now : Z)
  : result error ApplyFunc :=
  value ← unmarshalTyped unmarshal_TaskUnassigned payload;
  assignment ← carried value;
  requireTenantMatch meta (assignmentPb_TenantId assignment);;
  Ok (DeleteAssignment (meta_TenantID meta) (assignmentPb_AssignmentId assignment);;
      AppendActivity (taskActivity meta now "" "" (assignmentPb_TaskId assignment)
                        "task unassigned")).

Definition commentEventKind (eventType : string) : string :=
  if String.eqb eventType "task.comment_updated" then "updated"
  else if String.eqb eventType "task.comment_deleted" then "deleted"
  else "added".

Definition COMMENT_AUTHOR_TYPE_AGENT : Z := 2.

(** [activity.ActorType = actorType; activity.ActorID = actorID] *)
Definition with_actor (actorType actorID : option string) (a : Activity) : Activity := {|
  activity_TenantID := activity_TenantID a; activity_EventID := activity_EventID a;
  activity_EventType := activity_EventType a; activity_CompanyID := activity_CompanyID a;
  activity_ProjectID := activity_ProjectID a; activity_TaskID := activity_TaskID a;
  activity_ActorType := actorType; activity_ActorID := actorID;
  activity_Summary := activity_Summary a; activity_OccurredAt := activity_OccurredAt a;
  activity_ProjectedAt := activity_ProjectedAt a |}.

Definition decodeCommentEvent (eventType : string) (payload : wire) (meta : EventMeta)
    (now : Z) : result error ApplyFunc :=
  value ← unmarshalTyped unmarshal_TaskCommentAdded payload;
  comment ← carried value;
  requireTenantMatch meta (commentPb_TenantId comment);;
  let '(actorType, actorID) :=
    if commentPb_AuthorType comment =? COMMENT_AUTHOR_TYPE_AGENT
    then (Some "agent", optionalTaskID (default "" (commentPb_AuthorAgentId comment)))
    else (Some "user", optionalTaskID (default "" (commentPb_AuthorUserId comment))) in
  Ok (AppendActivity (with_actor actorType actorID
        (taskActivity meta now "" "" (commentPb_TaskId comment)
           (String.append "task comment " (commentEventKind eventType))))).

Definition decodeArtifactAddedEvent (payload : wire) (meta : EventMeta) (now : Z)
  : result error ApplyFunc :=
  value ← unmarshalTyped unmarshal_TaskArtifactAdded payload;
  artifact ← carried value;
  requireTenantMatch meta (artifactPb_TenantId artifact);;
  Ok (AppendActivity (taskActivity meta now (artifactPb_CompanyId artifact) ""
                        (artifactPb_TaskId artifact) "task artifact added")).

Definition taskActivityEventKind (eventType : string) : string :=
  if String.eqb eventType "task.artifact_deleted" then "artifact deleted"
  else if String.eqb eventType "task.checklist_changed" then "checklist changed"
  else if String.eqb eventType "task.schedule_changed" then "schedule changed"
  else "changed".

(** The task and the tenant of the payload; an absent value leaves both empty. *)
Definition activity_subject (eventType : string) (payload : wire)
  : result error (option string * string) :=
  if String.eqb eventType "task.artifact_deleted" then
    value ← unmarshalTyped unmarshal_TaskArtifactDeleted payload;
    Ok (match value with
        | Some artifact => (Some (artifactPb_TaskId artifact), artifactPb_TenantId artifact)
        | None => (None, "")
        end)
  else if String.eqb eventType "task.checklist_changed" then
    value ← unmarshalTyped unmarshal_TaskChecklistChanged payload;
    Ok (match value with
        | Some item => (Some (partPb_TaskId item), partPb_TenantId item)
        | None => (None, "")
        end)
  else if String.eqb eventType "task.schedule_changed" then
    value ← unmarshalTyped unmarshal_TaskScheduleChanged payload;
    Ok (match value with
        | Some schedule => (Some (partPb_TaskId schedule), partPb_TenantId schedule)
        | None => (None, "")
        end)
  else Ok (None, "").

Definition decodeActivityOnlyEvent (eventType : string) (payload : wire) (meta : EventMeta)
    (now : Z) : result error ApplyFunc :=
  subject ← activity_subject eventType payload;
  let '(taskID, payloadTenantID) := subject in
  requireTenantMatch meta payloadTenantID;;
  Ok (AppendActivity (taskActivity meta now "" "" (default "" taskID)
        (String.append "task " (taskActivityEventKind eventType)))).

(** [Ok None] is an event of an unknown type. *)
Definition decodeEvent (eventType : string) (payload : wire) (meta : EventMeta) (now : Z)
  : result error (option ApplyFunc) :=
  let one_of names := slices_Contains names eventType in
  if one_of ["tenant.created"; "tenant.activated"]
  then Some <$> decodeTenantContextEvent eventType payload meta now
  else if one_of ["tenant.onboarding_failed"; "tenant.updated"; "tenant.archived"]
  then Some <$> decodeTenantEvent eventType payload meta now
  else if one_of ["company.created"; "company.updated"; "company.archived"]
  then Some <$> decodeCompanyEvent payload meta now
  else if one_of ["agent.created"; "agent.updated"; "agent.manager_changed"; "agent.paused";
                  "agent.resumed"]
  then Some <$> decodeAgentEvent payload meta now
  else if one_of ["agent.deleted"]
  then Some <$> decodeAgentDeletedEvent payload meta now
  else if one_of ["goal.created"; "goal.updated"; "goal.status_changed"]
  then Some <$> decodeGoalEvent payload meta now
  else if one_of ["project.created"; "project.updated"; "project.status_changed"]
  then Some <$> decodeProjectEvent payload meta now
  else if one_of ["task.created"; "task.updated"; "task.status_changed"]
  then Some <$> decodeTaskEvent eventType payload meta now
  else if one_of ["task.dependency_added"]
  then Some <$> decodeDependencyAddedEvent payload meta now
  else if one_of ["task.dependency_removed"]
  then Some <$> decodeDependencyRemovedEvent payload meta now
  else if one_of ["task.assigned"]
  then Some <$> decodeAssignedEvent payload meta now
  else if one_of ["task.unassigned"]
  then Some <$> decodeUnassignedEvent payload meta now
  else if one_of ["task.comment_added"; "task.comment_updated"; "task.comment_deleted"]
  then Some <$> decodeCommentEvent eventType payload meta now
  else if one_of ["task.artifact_added"]
  then Some <$> decodeArtifactAddedEvent payload meta now
  else if one_of ["task.artifact_deleted"; "task.checklist_changed"; "task.schedule_changed"]
  then Some <$> decodeActivityOnlyEvent eventType payload meta now
  else Ok None.

End Ingest.
