(* ===== verification/ProjectionRepository.v ===== *)
(** * Projections: the repository

    Models [services/projection/internal/adapters/postgres/repository.go] ([ApplyEvent], the
    watermark and the checkpoint) and [queries.go] (the five reads). The full text search of
    PostgreSQL is a parameter. *)

From S2P Require Import Prelude GoStrings Postgres Usecase Outbox.
From S2P Require Import ProjectionDomain ProjectionStore.
From stdpp Require Import strings gmap list sorting.
From Stdlib Require Import String Lia.
Open Scope string_scope.
Open Scope list_scope.
Open Scope Z_scope.

(** ** Rows and counts *)

Section Rows.
Context `{Platform}.

(** The rows of a table that the policy shows. *)
Definition visible {K R} `{Countable K} (M : read_model K R) (r : rls)
    (db : projection_tables) : list R :=
  snd <$> map_to_list (filter (λ row, tenant_scoped r (model_tenant M row.1) = true)
                         (model_rows M db)).

Definition count {R} (p : R → bool) (rows : list R) : Z :=
  Z.of_nat (List.length (List.filter p rows)).

(** [COUNT(DISTINCT ...)] *)
Definition count_distinct (ids : list string) : Z :=
  Z.of_nat (List.length (remove_dups ids)).

Definition has_status {R} (status : R → string) (s : string) (row : R) : bool :=
  String.eqb (status row) s.

(** [$n::uuid IS NULL OR column = $n::uuid] *)
Definition matches (filter : option string) (column : option string) : bool :=
  match filter with Some v => is_id column v | None => true end.

(** The ids of the tasks of the join of tasks, dependencies and prerequisites, one per row of
    the join. *)
Definition blocked_join (keep : Task → bool) (tasks : list Task)
    (dependencies : list Dependency) : list string :=
  task ← List.filter (λ task, keep task
            && negb (slices_Contains ["completed"; "canceled"] (task_Status task))) tasks;
  dependency ← List.filter (λ d, String.eqb (dependency_TenantID d) (task_TenantID task)
            && String.eqb (dependency_TaskID d) (task_ID task)) dependencies;
  prerequisite ← List.filter (λ p,
            String.eqb (task_TenantID p) (dependency_TenantID dependency)
            && String.eqb (task_ID p) (dependency_DependsOnTaskID dependency)
            && negb (has_status task_Status "completed" p)) tasks;
  [task_ID task].

(** ** queries.go: the statements *)

Definition sql_dashboard (sc : Scope) (db : projection_tables)
  : result db_error DashboardSummary :=
  r ← rls_of sc;
  let companies := visible companies r db in
  let agents := visible agents r db in
  let goals := visible goals r db in
  let projects := visible projects r db in
  let tasks := visible tasks r db in
  let dependencies := visible dependencies r db in
  Ok {| summary_CompaniesTotal := count (λ _, true) companies;
        summary_CompaniesActive := count (has_status company_Status "active") companies;
        summary_AgentsTotal :=
          count (λ a, negb (has_status agent_Status "deleted" a)) agents;
        summary_AgentsReady := count (has_status agent_Status "ready") agents;
        summary_AgentsDegraded := count (has_status agent_Status "degraded") agents;
        summary_AgentsPaused := count (has_status agent_Status "paused") agents;
        summary_AgentsFailed := count (has_status agent_Status "failed") agents;
        summary_GoalsActive := count (has_status goal_Status "active") goals;
        summary_GoalsCompleted := count (has_status goal_Status "completed") goals;
        summary_ProjectsActive := count (has_status project_Status "active") projects;
        summary_ProjectsOnHold := count (has_status project_Status "on_hold") projects;
        summary_ProjectsCompleted := count (has_status project_Status "completed") projects;
        summary_TasksTotal := count (λ _, true) tasks;
        summary_TasksBacklog := count (has_status task_Status "backlog") tasks;
        summary_TasksReady := count (has_status task_Status "ready") tasks;
        summary_TasksInProgress := count (has_status task_Status "in_progress") tasks;
        summary_TasksWaitingApproval :=
          count (has_status task_Status "waiting_approval") tasks;
        summary_TasksCompleted := count (has_status task_Status "completed") tasks;
        summary_TasksCanceled := count (has_status task_Status "canceled") tasks;
        summary_TasksBlocked :=
          count_distinct (blocked_join (λ _, true) tasks dependencies) |}.

(** The company of the scope's tenant with this identifier, and its counts. *)
Definition sql_company_overview (companyID : string) (sc : Scope) (db : projection_tables)
  : result db_error CompanyOverview :=
  r ← rls_of sc; c ← cast companyID;
  company ← from_option_err ErrNoRows
    (List.find (λ v, String.eqb (company_ID v) c)
       (visible companies r db));
  let agents := List.filter (λ a, String.eqb (agent_CompanyID a) (company_ID company))
                  (visible agents r db) in
  let all_tasks := visible tasks r db in
  let of_company := λ k, String.eqb (task_CompanyID k) (company_ID company) in
  let tasks := List.filter of_company all_tasks in
  let dependencies := visible dependencies r db in
  Ok {| overview_TenantID := company_TenantID company; overview_CompanyID := company_ID company;
        overview_Slug := company_Slug company;
        overview_DisplayName := company_DisplayName company;
        overview_Status := company_Status company;
        overview_IsDefault := company_IsDefault company;
        overview_AgentsTotal :=
          count (λ a, negb (has_status agent_Status "deleted" a)) agents;
        overview_AgentsReady := count (has_status agent_Status "ready") agents;
        overview_AgentsDegraded := count (has_status agent_Status "degraded") agents;
        overview_AgentsPaused := count (has_status agent_Status "paused") agents;
        overview_TasksTotal := count (λ _, true) tasks;
        overview_TasksReady := count (has_status task_Status "ready") tasks;
        overview_TasksInProgress := count (has_status task_Status "in_progress") tasks;
        overview_TasksWaitingApproval :=
          count (has_status task_Status "waiting_approval") tasks;
        overview_TasksCompleted := count (has_status task_Status "completed") tasks;
        overview_TasksBlocked :=
          count_distinct (blocked_join of_company all_tasks dependencies) |}.

(** The rows of the left joins with the assignments of an agent and their tasks, grouped. *)
Definition agent_overview (assignments : list Assignment) (tasks : list Task) (a : Agent)
  : AgentOverview :=
  let assigned := List.filter (λ s, is_id (assignment_AgentID s) (agent_ID a)) assignments in
  let joined :=
    s ← assigned;
    List.filter (λ k, String.eqb (task_ID k) (assignment_TaskID s)) tasks in
  {| agentOverview_TenantID := agent_TenantID a; agentOverview_CompanyID := agent_CompanyID a;
     agentOverview_AgentID := agent_ID a; agentOverview_Slug := agent_Slug a;
     agentOverview_DisplayName := agent_DisplayName a;
     agentOverview_RoleTitle := agent_RoleTitle a; agentOverview_Status := agent_Status a;
     agentOverview_ManagerAgentID := agent_ManagerAgentID a;
     agentOverview_AssignedTaskCount := count_distinct (assignment_ID <$> assigned);
     agentOverview_ActiveTaskCount :=
       count_distinct (task_ID <$> List.filter
         (λ k, slices_Contains ["ready"; "in_progress"; "waiting_approval"] (task_Status k))
         joined);
     agentOverview_UpdatedAt := source_ProjectedAt (agent_Source a) |}.

(** ** Keyset pages

    [ORDER BY time DESC, id DESC]: a row comes before another when its key is greater. *)
Definition key : Type := Z * string.
Definition key_lt (a b : key) : bool :=
  (a.1 <? b.1) || (a.1 =? b.1) && String.ltb a.2 b.2.
Definition key_le (a b : key) : bool := negb (key_lt b a).

Definition newest_first {R} (k : R → key) (a b : R) : Prop := key_le (k b) (k a) = true.
#[export] Instance newest_first_dec {R} (k : R → key) : RelDecision (newest_first k).
Proof. intros a b. unfold newest_first. apply _. Defined.

(** [AND (NOT $has OR (time, id) < ($time, $id)) ... LIMIT n] *)
Definition before (cursor : option key) (k : key) : bool :=
  match cursor with Some c => key_lt k c | None => true end.

Definition keyset_page {R} (k : R → key) (limit : Z) (cursor : option key) (rows : list R)
  : list R :=
  take (Z.to_nat limit)
    (merge_sort (newest_first k) (List.filter (λ row, before cursor (k row)) rows)).

Definition cast_key (cursor : option key) : result db_error (option key) :=
  match cursor with
  | Some (t, i) => u ← cast i; Ok (Some (timestamptz t, u))
  | None => Ok None
  end.

Definition agent_key (v : AgentOverview) : key :=
  (agentOverview_UpdatedAt v, agentOverview_AgentID v).
Definition activity_key (v : Activity) : key := (activity_OccurredAt v, activity_EventID v).

Definition sql_agent_overviews (companyID : option string) (limit : Z) (cursor : option key)
    (sc : Scope) (db : projection_tables) : result db_error (list AgentOverview) :=
  r ← rls_of sc; c ← cast_option companyID; from ← cast_key cursor;
  let assignments := visible assignments r db in
  let tasks := visible tasks r db in
  let agents := List.filter (λ a, matches c (Some (agent_CompanyID a)))
                  (visible agents r db) in
  Ok (keyset_page agent_key limit from (agent_overview assignments tasks <$> agents)).

Definition sql_activity (companyID taskID : option string) (limit : Z) (cursor : option key)
    (sc : Scope) (db : projection_tables) : result db_error (list Activity) :=
  r ← rls_of sc; c ← cast_option companyID; k ← cast_option taskID; from ← cast_key cursor;
  Ok (keyset_page activity_key limit from
        (List.filter (λ v, matches c (activity_CompanyID v) && matches k (activity_TaskID v))
           (visible activity r db))).

Definition sql_watermark (tenantID : string) (sc : Scope) (db : projection_tables)
  : result db_error ProjectionMetadata :=
  r ← rls_of sc; t ← cast tenantID;
  row ← from_option_err ErrNoRows (projection_watermarks db !! t);
  fail_if (negb (tenant_scoped r t)) ErrNoRows;; Ok row.

End Rows.

(** Full text search: whether a document answers a query ([search_vector @@ ...] or
    [title % query]) and its rank, a non-negative [real] given by the integer with the same
    bits, which orders as the [real] does. *)
Class TextSearch := {
  text_match : SearchDocument → string → bool;
  text_rank : SearchDocument → string → Z;
}.

Record SearchResult := {
  result_Type : string;
  result_ID : string;
  result_CompanyID : option string;
  result_Title : string;
  result_Subtitle : string;
  result_Status : string;
  result_Rank : Z;
  result_UpdatedAt : Z;
}.

Record SearchCursor := {
  searchCursor_Rank : Z;
  searchCursor_UpdatedAt : Z;
  searchCursor_Type : string;
  searchCursor_ID : string;
}.

Section Search.
Context `{Platform, TextSearch}.

Definition search_result (query : string) (d : SearchDocument) : SearchResult := {|
  result_Type := document_Type d; result_ID := document_ID d;
  result_CompanyID := document_CompanyID d; result_Title := document_Title d;
  result_Subtitle := document_Subtitle d; result_Status := document_Status d;
  result_Rank := text_rank d query; result_UpdatedAt := source_EventAt (document_Source d) |}.

Definition cursor_of (v : SearchResult) : SearchCursor := {|
  searchCursor_Rank := result_Rank v; searchCursor_UpdatedAt := result_UpdatedAt v;
  searchCursor_Type := result_Type v; searchCursor_ID := result_ID v |}.

(** [(rank, updated_at, document_type, document_id) < ($6, $7, $8, $9)] *)
Definition search_tuple_lt (a b : SearchCursor) : bool :=
  (searchCursor_Rank a <? searchCursor_Rank b)
  || (searchCursor_Rank a =? searchCursor_Rank b)
     && ((searchCursor_UpdatedAt a <? searchCursor_UpdatedAt b)
         || (searchCursor_UpdatedAt a =? searchCursor_UpdatedAt b)
            && (String.ltb (searchCursor_Type a) (searchCursor_Type b)
                || String.eqb (searchCursor_Type a) (searchCursor_Type b)
                   && String.ltb (searchCursor_ID a) (searchCursor_ID b))).

(** [ORDER BY rank DESC, updated_at DESC, document_type ASC, document_id ASC] *)
Definition search_before (a b : SearchCursor) : bool :=
  (searchCursor_Rank b <? searchCursor_Rank a)
  || (searchCursor_Rank a =? searchCursor_Rank b)
     && ((searchCursor_UpdatedAt b <? searchCursor_UpdatedAt a)
         || (searchCursor_UpdatedAt a =? searchCursor_UpdatedAt b)
            && (String.ltb (searchCursor_Type a) (searchCursor_Type b)
                || String.eqb (searchCursor_Type a) (searchCursor_Type b)
                   && String.leb (searchCursor_ID a) (searchCursor_ID b))).
Definition search_order (a b : SearchResult) : Prop :=
  search_before (cursor_of a) (cursor_of b) = true.
#[export] Instance search_order_dec : RelDecision search_order.
Proof. intros a b. unfold search_order. apply _. Defined.

Definition cast_search_cursor (cursor : option SearchCursor)
  : result db_error (option SearchCursor) :=
  match cursor with
  | Some c => u ← cast (searchCursor_ID c);
              Ok (Some {| searchCursor_Rank := searchCursor_Rank c;
                          searchCursor_UpdatedAt := timestamptz (searchCursor_UpdatedAt c);
                          searchCursor_Type := searchCursor_Type c; searchCursor_ID := u |})
  | None => Ok None
  end.

(** The documents that answer a search, before the page is cut. *)
Definition search_hits (query : string) (companyID : option string) (types : list string)
    (documents : list SearchDocument) : list SearchResult :=
  search_result query <$>
    List.filter (λ d, negb (document_Deleted d) && matches companyID (document_CompanyID d)
                      && match types with [] => true | _ => slices_Contains types (document_Type d) end
                      && text_match d query) documents.

Definition after_search (cursor : option SearchCursor) (v : SearchResult) : bool :=
  match cursor with Some c => search_tuple_lt (cursor_of v) c | None => true end.

Definition sql_search (query : string) (companyID : option string) (types : list string)
    (limit : Z) (cursor : option SearchCursor) (sc : Scope) (db : projection_tables)
  : result db_error (list SearchResult) :=
  r ← rls_of sc; c ← cast_option companyID; from ← cast_search_cursor cursor;
  Ok (take (Z.to_nat limit)
        (merge_sort search_order
           (List.filter (after_search from)
              (search_hits query c types (visible documents r db))))).

End Search.

Section Repository.
Context `{Platform, Proto, TextSearch}.

(** ** repository.go *)

Definition beginUserTenant (ctx : Ctx) (tenantID actorUserID : string) (read_only : bool)
  : repo unit :=
  Begin (TenantScope tenantID actorUserID (ctx_RequestID ctx) (ctx_CorrelationID ctx))
    read_only.

Definition beginServiceTenant (ctx : Ctx) (tenantID servicePrincipalID : string)
    (read_only : bool) : repo unit :=
  Begin (ServiceTenantScope tenantID servicePrincipalID (ctx_RequestID ctx)
           (ctx_CorrelationID ctx)) read_only.

Definition updateWatermark (event : EventMeta) : repo unit := exec (sql_update_watermark event).
Definition updateCheckpoint (event : EventMeta) : repo unit :=
  exec (sql_update_checkpoint event).

(** An event that is in the inbox already: verify that it is the same, move the checkpoint. *)
Definition redelivered (event : EventMeta) : repo bool :=
  existingHash ← query (sql_event_hash (meta_EventID event));
  lift (fail_if (negb (String.eqb existingHash (meta_EventHash event)))
          ErrEventIdentityConflict);;
  updateCheckpoint event;;
  commit;; mret false.

(** A new event: apply it, move the watermark and the checkpoint. *)
Definition apply_new (event : EventMeta) (apply : option ApplyFunc) : repo bool :=
  match apply with Some f => f | None => mret tt end;;
  updateWatermark event;;
  updateCheckpoint event;;
  commit;; mret true.

Definition ApplyEvent (ctx : Ctx) (servicePrincipalID : string) (event : EventMeta)
    (apply : option ApplyFunc) : repo bool :=
  beginServiceTenant ctx (meta_TenantID event) servicePrincipalID false;;
  inserted ← exec (sql_insert_consumed event);
  match inserted with
  | Some _ => apply_new event apply
  | None => redelivered event
  end.

(** ** queries.go *)

Definition no_metadata : ProjectionMetadata := {|
  metadata_ProjectedThroughEventTime := zero_time; metadata_LastProcessedAt := zero_time |}.

(** [readTenantWatermark]: a tenant without a watermark has the zero metadata. *)
Definition readTenantWatermark (tenantID : string) : repo ProjectionMetadata := λ s,
  match query (sql_watermark tenantID) s with
  | (Err (ErrDatabase ErrNoRows), s') => (Ok no_metadata, s')
  | r => r
  end.

Definition GetDashboardSummary (ctx : Ctx) (actorUserID tenantID : string)
  : repo (DashboardSummary * ProjectionMetadata) :=
  beginUserTenant ctx tenantID actorUserID true;;
  summary ← query sql_dashboard;
  metadata ← readTenantWatermark tenantID;
  commit;; mret (summary, metadata).

Definition GetCompanyOverview (ctx : Ctx) (actorUserID tenantID companyID : string)
  : repo (CompanyOverview * ProjectionMetadata) :=
  beginUserTenant ctx tenantID actorUserID true;;
  overview ← map_err (λ e, match e with ErrDatabase ErrNoRows => ErrNotFound | _ => e end)
               (query (sql_company_overview companyID));
  metadata ← readTenantWatermark tenantID;
  commit;; mret (overview, metadata).

(** The page that is returned and the cursor after it: the page is cut to [pageSize] rows,
    and when nothing was cut the cursor is the one of the request. *)
Definition cut_page {R C} (cursor_of : R → C) (pageSize : Z) (cursor : option C)
    (rows : list R) : list R * option C :=
  let '(rows, nextCursor) :=
    if pageSize <? Z.of_nat (List.length rows)
    then let kept := take (Z.to_nat pageSize) rows in (kept, cursor_of <$> last kept)
    else (rows, None) in
  (rows, match nextCursor with Some c => Some c | None => cursor end).

(** One of the three lists: a query for one row more than the page holds. *)
Definition list_page {R C} (ctx : Ctx) (actorUserID tenantID : string)
    (rows : Scope → projection_tables → result db_error (list R)) (cursor_of : R → C)
    (pageSize : Z) (cursor : option C) : repo (list R * option C * ProjectionMetadata) :=
  beginUserTenant ctx tenantID actorUserID true;;
  fetched ← query rows;
  metadata ← readTenantWatermark tenantID;
  commit;; mret (cut_page cursor_of pageSize cursor fetched, metadata).

Definition ListAgentOverviews (ctx : Ctx) (actorUserID tenantID : string)
    (companyID : option string) (pageSize : Z) (cursor : option key)
  : repo (list AgentOverview * option key * ProjectionMetadata) :=
  list_page ctx actorUserID tenantID
    (sql_agent_overviews companyID (pageSize + 1) cursor) agent_key pageSize cursor.

Definition ListTaskActivity (ctx : Ctx) (actorUserID tenantID : string)
    (companyID taskID : option string) (pageSize : Z) (cursor : option key)
  : repo (list Activity * option key * ProjectionMetadata) :=
  list_page ctx actorUserID tenantID
    (sql_activity companyID taskID (pageSize + 1) cursor) activity_key pageSize cursor.

Definition Search (ctx : Ctx) (actorUserID tenantID query : string)
    (companyID : option string) (types : list string) (pageSize : Z)
    (cursor : option SearchCursor)
  : repo (list SearchResult * option SearchCursor * ProjectionMetadata) :=
  list_page ctx actorUserID tenantID
    (sql_search query companyID types (pageSize + 1) cursor) cursor_of pageSize cursor.

End Repository.
