(* ===== verification/ProjectionService.v ===== *)
(** * Projections: the use cases, the worker and the server

    Models [services/projection/internal/application] (the service, its validation and its
    reads), the tenant authorizer ([adapters/authorization/tenant.go]), the worker
    ([adapters/projection/worker.go]) and the server with its page tokens
    ([transport/grpc]). The metrics and the field-by-field copies of [protoutil] are left
    out. *)

From S2P Require Import Prelude GoStrings Postgres Usecase Outbox Consumer.
From S2P Require TenantDomain.
From S2P Require Import ProjectionDomain ProjectionStore ProjectionRepository.
From stdpp Require Import strings gmap list.
From Stdlib Require Import String Lia.
Open Scope string_scope.
Open Scope list_scope.
Open Scope Z_scope.

#[local] Notation app := (Usecase.app projection_tables error).

Section Service.
Context `{Platform, ProjectionProto, TextSearch}.

(** ** validation.go *)

Definition validateUUID (value : string) : result error unit :=
  let value := TrimSpace value in
  fail_if (String.eqb value "") ErrInvalidArgument;;
  fail_if (negb (is_uuid value)) ErrInvalidArgument.

Definition optionalUUID (value : string) : result error unit :=
  let value := TrimSpace value in
  if String.eqb value "" then Ok tt
  else fail_if (negb (is_uuid value)) ErrInvalidArgument.

Definition boundedText (value : string) (maxLength : Z) : result error unit :=
  fail_if (String.eqb (TrimSpace value) "") ErrInvalidArgument;;
  fail_if (maxLength <? len value) ErrInvalidArgument.

(** ** service.go *)

Record Config := { config_ServicePrincipalID : string }.

(** [New], with its collaborators present. *)
Definition New (config : Config) : result error Config :=
  fail_if (String.eqb (TrimSpace (config_ServicePrincipalID config)) "") ErrInternal;;
  validateUUID (config_ServicePrincipalID config);;
  Ok config.

(** The tenant service's [CheckAuthorization] as its client returns it. *)
Definition Authorization : Type :=
  string → string → TenantDomain.Permission →
  result error (option TenantDomain.AuthorizationDecision).

Variables (config : Config) (CheckAuthorization : Authorization).

(** adapters/authorization/tenant.go *)
Definition RequireTenantRead (actorUserID tenantID : string) : result error unit :=
  response ← CheckAuthorization actorUserID tenantID TenantDomain.PermissionTenantRead;
  decision ← from_option_err ErrInternal response;
  if TenantDomain.decision_Allowed decision then Ok tt
  else if String.eqb (TenantDomain.decision_DenialReason decision)
            TenantDomain.DenialReasonTenantNotActive
          || String.eqb (TenantDomain.decision_DenialReason decision)
               TenantDomain.DenialReasonTenantArchived
  then Err ErrTenantNotActive
  else Err ErrForbidden.

Definition Project (ctx : Ctx) (domainEvent : EventMeta) (apply : option ApplyFunc) : app bool :=
  _ ← pure (λ _, validateUUID (meta_TenantID domainEvent));
  call (ApplyEvent ctx (config_ServicePrincipalID config) domainEvent apply).

(** ** reads.go *)

Record GetDashboardSummaryInput := {
  dashboardIn_ActorUserID : string;
  dashboardIn_TenantID : string;
}.
Record GetCompanyOverviewInput := {
  overviewIn_ActorUserID : string;
  overviewIn_TenantID : string;
  overviewIn_CompanyID : string;
}.
Record ListAgentOverviewsInput := {
  agentsIn_ActorUserID : string;
  agentsIn_TenantID : string;
  agentsIn_CompanyID : string;
  agentsIn_PageSize : Z;
  agentsIn_Cursor : option key;
}.
Record ListTaskActivityInput := {
  activityIn_ActorUserID : string;
  activityIn_TenantID : string;
  activityIn_CompanyID : string;
  activityIn_TaskID : string;
  activityIn_PageSize : Z;
  activityIn_Cursor : option key;
}.
Record SearchInput := {
  searchIn_ActorUserID : string;
  searchIn_TenantID : string;
  searchIn_Query : string;
  searchIn_CompanyID : string;
  searchIn_Types : list string;
  searchIn_PageSize : Z;
  searchIn_Cursor : option SearchCursor;
}.

(** It does not trim: only the empty string is absent. *)
Definition trimToNil (value : string) : option string :=
  if String.eqb value "" then None else Some value.

Definition validDocumentType (value : string) : bool := slices_Contains document_types value.

Definition GetDashboardSummary (ctx : Ctx) (input : GetDashboardSummaryInput)
  : app (DashboardSummary * ProjectionMetadata) :=
  _ ← pure (λ _,
    validateUUID (dashboardIn_ActorUserID input);;
    validateUUID (dashboardIn_TenantID input);;
    RequireTenantRead (dashboardIn_ActorUserID input) (dashboardIn_TenantID input));
  call (ProjectionRepository.GetDashboardSummary ctx (dashboardIn_ActorUserID input)
          (dashboardIn_TenantID input)).

Definition GetCompanyOverview (ctx : Ctx) (input : GetCompanyOverviewInput)
  : app (CompanyOverview * ProjectionMetadata) :=
  _ ← pure (λ _,
    validateUUID (overviewIn_ActorUserID input);;
    validateUUID (overviewIn_TenantID input);;
    validateUUID (overviewIn_CompanyID input);;
    RequireTenantRead (overviewIn_ActorUserID input) (overviewIn_TenantID input));
  call (ProjectionRepository.GetCompanyOverview ctx (overviewIn_ActorUserID input)
          (overviewIn_TenantID input) (overviewIn_CompanyID input)).

Definition ListAgentOverviews (ctx : Ctx) (input : ListAgentOverviewsInput)
  : app (list AgentOverview * option key * ProjectionMetadata) :=
  _ ← pure (λ _,
    validateUUID (agentsIn_ActorUserID input);;
    validateUUID (agentsIn_TenantID input);;
    optionalUUID (agentsIn_CompanyID input);;
    RequireTenantRead (agentsIn_ActorUserID input) (agentsIn_TenantID input));
  call (ProjectionRepository.ListAgentOverviews ctx (agentsIn_ActorUserID input)
          (agentsIn_TenantID input) (trimToNil (agentsIn_CompanyID input))
          (agentsIn_PageSize input) (agentsIn_Cursor input)).

Definition ListTaskActivity (ctx : Ctx) (input : ListTaskActivityInput)
  : app (list Activity * option key * ProjectionMetadata) :=
  _ ← pure (λ _,
    validateUUID (activityIn_ActorUserID input);;
    validateUUID (activityIn_TenantID input);;
    optionalUUID (activityIn_CompanyID input);;
    optionalUUID (activityIn_TaskID input);;
    RequireTenantRead (activityIn_ActorUserID input) (activityIn_TenantID input));
  call (ProjectionRepository.ListTaskActivity ctx (activityIn_ActorUserID input)
          (activityIn_TenantID input) (trimToNil (activityIn_CompanyID input))
          (trimToNil (activityIn_TaskID input)) (activityIn_PageSize input)
          (activityIn_Cursor input)).

Definition Search (ctx : Ctx) (input : SearchInput)
  : app (list SearchResult * option SearchCursor * ProjectionMetadata) :=
  _ ← pure (λ _,
    validateUUID (searchIn_ActorUserID input);;
    validateUUID (searchIn_TenantID input);;
    boundedText (searchIn_Query input) 256;;
    optionalUUID (searchIn_CompanyID input);;
    fail_if (negb (forallb validDocumentType (searchIn_Types input))) ErrInvalidArgument;;
    RequireTenantRead (searchIn_ActorUserID input) (searchIn_TenantID input));
  call (ProjectionRepository.Search ctx (searchIn_ActorUserID input) (searchIn_TenantID input)
          (searchIn_Query input) (trimToNil (searchIn_CompanyID input)) (searchIn_Types input)
          (searchIn_PageSize input) (searchIn_Cursor input)).

(** ** worker.go *)

Definition eventHash (envelope : EventEnvelope wire) : result error string :=
  value ← from_option_err ErrInternal (marshal_envelope envelope);
  Ok (sha256_Sum256 value).

(** [envelope.GetOccurredAt()], checked. *)
Definition occurred_at (envelope : EventEnvelope wire) : result error Z :=
  match envelope_OccurredAt envelope with
  | Some t => fail_if (negb (timestamp_valid t)) ErrInternal;; Ok t
  | None => Ok zero_time
  end.

Definition buildEventMeta (message : Message) (projectedAt : Z) : result error EventMeta :=
  let envelope := message_Envelope message in
  occurredAt ← occurred_at envelope;
  hash ← eventHash envelope;
  Ok {| meta_EventID := envelope_EventId envelope;
        meta_TenantID := envelope_TenantId envelope;
        meta_Topic := message_Topic message; meta_Partition := message_Partition message;
        meta_Offset := message_Offset message;
        meta_EventType := envelope_EventType envelope;
        meta_EventVersion := envelope_EventVersion envelope;
        meta_AggregateType := envelope_AggregateType envelope;
        meta_AggregateID := envelope_AggregateId envelope;
        meta_AggregateVersion := envelope_AggregateVersion envelope;
        meta_EventHash := hash; meta_OccurredAt := occurredAt;
        meta_ProcessedAt := projectedAt |}.

(** The context of the consumer carries no request metadata. *)
Definition no_ctx : Ctx := {| ctx_RequestID := ""; ctx_CorrelationID := ""; ctx_TraceID := "" |}.

(** What the message says and how it is applied. *)
Definition decodeMessage (message : Message) (projectedAt : Z)
  : result error (EventMeta * option ApplyFunc) :=
  meta ← buildEventMeta message projectedAt;
  apply ← decodeEvent (envelope_EventType (message_Envelope message))
            (envelope_Payload (message_Envelope message)) meta projectedAt;
  Ok (meta, apply).

(** [worker.now()]: the clock when the transaction of that number begins. *)
Definition now : app Z := λ w s, (Ok (world_now w s.1), s).

(** [handle]: [None] when the event is of an unknown type, else whether it was applied for
    the first time. *)
Definition handle (message : Message) : app (option bool) :=
  projectedAt ← now;
  decoded ← pure (λ _, decodeMessage message projectedAt);
  match decoded.2 with
  | None => mret None
  | Some apply => applied ← Project no_ctx decoded.1 (Some apply); mret (Some applied)
  end.

(** [Worker.Run] hands every message to [handle] and looks at the error only. *)
Definition handler (w : world projection_tables) (message : Message)
    (s : nat * projection_tables) : result error unit * (nat * projection_tables) :=
  match handle message w s with
  | (Ok _, s') => (Ok tt, s')
  | (Err e, s') => (Err e, s')
  end.

Definition Worker_Run (w : world projection_tables) (commits : kgo_Record → broker_outcome)
    (polls : list poll) (st : consuming (nat * projection_tables))
  : option (result (consume_error error) unit) * consuming (nat * projection_tables) :=
  Run (Some (handler w)) commits polls st.

End Service.

(** ** pagination.go *)

Record encodedCursor := {
  cursor_Kind : string;
  cursor_Time : string;
  cursor_ID : string;
  cursor_Rank : Z;
  cursor_Type : string;
}.

(** [encoding/json] on a cursor and [time.RFC3339Nano]: the text of a cursor, the text of a
    moment, and what is read back from a text. *)
Class CursorCodec := {
  json_Marshal_cursor : encodedCursor → option string;
  json_Unmarshal_cursor : string → option encodedCursor;
  time_Format : Z → string;
  time_Parse : string → option Z;
}.

Section Transport.
Context `{Platform, ProjectionProto, TextSearch, CursorCodec}.

Definition paginationKindAgent := "agent-v1".
Definition paginationKindActivity := "activity-v1".
Definition paginationKindSearch := "search-v1".

Definition encodeCursor (cursor : encodedCursor) : string :=
  match json_Marshal_cursor cursor with
  | Some raw => EncodeToString raw
  | None => ""
  end.

Definition decodeCursor (token : string) : result error (option encodedCursor) :=
  if String.eqb token "" then Ok None
  else
    raw ← from_option_err ErrInvalidArgument (DecodeString token);
    cursor ← from_option_err ErrInvalidArgument (json_Unmarshal_cursor raw);
    Ok (Some cursor).

(** [parseAgentCursor], [parseActivityCursor] *)
Definition parseKeyCursor (kind token : string) : result error (option key) :=
  cursor ← decodeCursor token;
  match cursor with
  | None => Ok None
  | Some cursor =>
      fail_if (negb (String.eqb (cursor_Kind cursor) kind)) ErrInvalidArgument;;
      at_ ← from_option_err ErrInvalidArgument (time_Parse (cursor_Time cursor));
      Ok (Some (at_, cursor_ID cursor))
  end.

(** [encodeAgentCursor], [encodeActivityCursor] *)
Definition encodeKeyCursor (kind : string) (cursor : option key) : string :=
  match cursor with
  | None => ""
  | Some (at_, id) => encodeCursor {|
      cursor_Kind := kind; cursor_Time := time_Format at_; cursor_ID := id;
      cursor_Rank := 0; cursor_Type := "" |}
  end.

Definition parseAgentCursor := parseKeyCursor paginationKindAgent.
Definition encodeAgentCursor := encodeKeyCursor paginationKindAgent.
Definition parseActivityCursor := parseKeyCursor paginationKindActivity.
Definition encodeActivityCursor := encodeKeyCursor paginationKindActivity.

Definition parseSearchCursor (token : string) : result error (option SearchCursor) :=
  cursor ← decodeCursor token;
  match cursor with
  | None => Ok None
  | Some cursor =>
      fail_if (negb (String.eqb (cursor_Kind cursor) paginationKindSearch))
        ErrInvalidArgument;;
      updatedAt ← from_option_err ErrInvalidArgument (time_Parse (cursor_Time cursor));
      Ok (Some {| searchCursor_Rank := cursor_Rank cursor;
                  searchCursor_UpdatedAt := updatedAt;
                  searchCursor_Type := cursor_Type cursor;
                  searchCursor_ID := cursor_ID cursor |})
  end.

Definition encodeSearchCursor (cursor : option SearchCursor) : string :=
  match cursor with
  | None => ""
  | Some cursor => encodeCursor {|
      cursor_Kind := paginationKindSearch;
      cursor_Time := time_Format (searchCursor_UpdatedAt cursor);
      cursor_ID := searchCursor_ID cursor; cursor_Rank := searchCursor_Rank cursor;
      cursor_Type := if String.eqb (searchCursor_Type cursor) "" then "task"
                     else searchCursor_Type cursor |}
  end.

Definition normalizePageSize (value : Z) : Z :=
  if value <=? 0 then 25 else if 100 <? value then 100 else value.

(** [documentTypeName], [mapSearchTypes] *)
Definition documentTypeName (value : Z) : result error string :=
  match List.find (λ c, c.1 =? value)
          [(1, "company"); (2, "agent"); (3, "goal"); (4, "project"); (5, "task")] with
  | Some c => Ok c.2
  | None => Err ErrInternal
  end.
Definition mapSearchTypes (values : list Z) : result error (list string) :=
  foldr (λ v r, name ← documentTypeName v; names ← r; Ok (name :: names)) (Ok []) values.

(** ** errors.go *)

Inductive status :=
| StatusInvalidArgument
| StatusNotFound
| StatusPermissionDenied
| StatusFailedPrecondition
| StatusUnknown (e : error).

Definition mapError (e : error) : status :=
  match e with
  | ErrInvalidArgument => StatusInvalidArgument
  | ErrNotFound => StatusNotFound
  | ErrForbidden => StatusPermissionDenied
  | ErrTenantNotActive => StatusFailedPrecondition
  | e => StatusUnknown e
  end.

(** ** server.go *)

Variables (config : Config) (CheckAuthorization : Authorization).

(** [if err != nil { return nil, mapError(err) }] around a use case. *)
Definition serve {A} (m : app A) (w : world projection_tables) (db : projection_tables)
  : result status A * projection_tables :=
  match perform m w db with
  | (Ok a, db') => (Ok a, db')
  | (Err e, db') => (Err (mapError e), db')
  end.

Record ListAgentOverviewsRequest := {
  agentsReq_ActorUserId : string;
  agentsReq_TenantId : string;
  agentsReq_CompanyId : string;
  agentsReq_PageSize : Z;
  agentsReq_PageToken : string;
}.

Definition Server_ListAgentOverviews (ctx : Ctx) (request : ListAgentOverviewsRequest)
  : app (list AgentOverview * string * ProjectionMetadata) :=
  cursor ← pure (λ _, parseAgentCursor (agentsReq_PageToken request));
  result ← ListAgentOverviews CheckAuthorization ctx {|
    agentsIn_ActorUserID := agentsReq_ActorUserId request;
    agentsIn_TenantID := agentsReq_TenantId request;
    agentsIn_CompanyID := agentsReq_CompanyId request;
    agentsIn_PageSize := normalizePageSize (agentsReq_PageSize request);
    agentsIn_Cursor := cursor |};
  let '(agents, nextCursor, metadata) := result in
  mret (agents, encodeAgentCursor nextCursor, metadata).

Record ListTaskActivityRequest := {
  activityReq_ActorUserId : string;
  activityReq_TenantId : string;
  activityReq_CompanyId : string;
  activityReq_TaskId : string;
  activityReq_PageSize : Z;
  activityReq_PageToken : string;
}.

Definition Server_ListTaskActivity (ctx : Ctx) (request : ListTaskActivityRequest)
  : app (list Activity * string * ProjectionMetadata) :=
  cursor ← pure (λ _, parseActivityCursor (activityReq_PageToken request));
  result ← ListTaskActivity CheckAuthorization ctx {|
    activityIn_ActorUserID := activityReq_ActorUserId request;
    activityIn_TenantID := activityReq_TenantId request;
    activityIn_CompanyID := activityReq_CompanyId request;
    activityIn_TaskID := activityReq_TaskId request;
    activityIn_PageSize := normalizePageSize (activityReq_PageSize request);
    activityIn_Cursor := cursor |};
  let '(items, nextCursor, metadata) := result in
  mret (items, encodeActivityCursor nextCursor, metadata).

Record SearchRequest := {
  searchReq_ActorUserId : string;
  searchReq_TenantId : string;
  searchReq_Query : string;
  searchReq_CompanyId : string;
  searchReq_Types : list Z;
  searchReq_PageSize : Z;
  searchReq_PageToken : string;
}.

Definition Server_Search (ctx : Ctx) (request : SearchRequest)
  : app (list SearchResult * string * ProjectionMetadata) :=
  documentTypes ← pure (λ _, mapSearchTypes (searchReq_Types request));
  cursor ← pure (λ _, parseSearchCursor (searchReq_PageToken request));
  result ← Search CheckAuthorization ctx {|
    searchIn_ActorUserID := searchReq_ActorUserId request;
    searchIn_TenantID := searchReq_TenantId request;
    searchIn_Query := searchReq_Query request;
    searchIn_CompanyID := searchReq_CompanyId request; searchIn_Types := documentTypes;
    searchIn_PageSize := normalizePageSize (searchReq_PageSize request);
    searchIn_Cursor := cursor |};
  let '(results, nextCursor, metadata) := result in
  mret (results, encodeSearchCursor nextCursor, metadata).

End Transport.
