(* ===== verification/ProjectionHistory.v ===== *)
(** * Projections: what a delivery does

    The statements that an event means ([changes]), the effect of one delivery of a message in
    closed form, and the states that deliveries lead to ([reached]). *)

From S2P Require Import Prelude GoStrings Postgres Usecase Outbox Consumer.
From S2P Require Import ProjectionDomain ProjectionStore ProjectionRepository.
From S2P Require Import ProjectionService.
From stdpp Require Import strings gmap list relations.
From Stdlib Require Import String Lia.
Open Scope string_scope.
Open Scope list_scope.
Open Scope Z_scope.

(** ** Statements on the read models *)

Inductive Statement :=
| PutTenant (v : Tenant)
| PutCompany (v : Company)
| PutAgent (v : Agent)
| PutGoal (v : Goal)
| PutProject (v : ProjectionDomain.Project)
| PutTask (v : Task)
| PutDependency (v : Dependency)
| DropDependency (tenantID taskID dependsOnTaskID : string)
| PutAssignment (v : Assignment)
| DropAssignment (tenantID assignmentID : string)
| PutActivity (v : Activity)
| PutDocument (v : SearchDocument).

Section History.
Context `{Platform, ProjectionProto, TextSearch}.

(** A property of every read model. *)
Definition every_model (P : ∀ (K R : Type) (E : EqDecision K) (C : Countable K),
    read_model K R → Prop) : Prop :=
  P _ _ _ _ tenants ∧ P _ _ _ _ companies ∧ P _ _ _ _ agents ∧ P _ _ _ _ goals ∧
  P _ _ _ _ projects ∧ P _ _ _ _ tasks ∧ P _ _ _ _ dependencies ∧ P _ _ _ _ assignments ∧
  P _ _ _ _ activity ∧ P _ _ _ _ documents.

Lemma every_model_all (P : ∀ (K R : Type) (E : EqDecision K) (C : Countable K),
    read_model K R → Prop) : (∀ K R E C M, P K R E C M) → every_model P.
Proof. intros HP. unfold every_model. split_and!; apply HP. Qed.

Lemma every_model_combine (P Q S : ∀ (K R : Type) (E : EqDecision K) (C : Countable K),
    read_model K R → Prop) :
  (∀ K R E C M, P K R E C M → Q K R E C M → S K R E C M) →
  every_model P → every_model Q → every_model S.
Proof.
  intros HS (?&?&?&?&?&?&?&?&?&?) (?&?&?&?&?&?&?&?&?&?). unfold every_model.
  split_and!; by apply HS.
Qed.

Definition sql_statement (s : Statement) (sc : Scope) (db : projection_tables)
  : result db_error (unit * projection_tables) :=
  match s with
  | PutTenant v => sql_put tenants v sc db
  | PutCompany v => sql_put companies v sc db
  | PutAgent v => sql_put agents v sc db
  | PutGoal v => sql_put goals v sc db
  | PutProject v => sql_put projects v sc db
  | PutTask v => sql_put tasks v sc db
  | PutDependency v => sql_put dependencies v sc db
  | DropDependency t k d =>
      sql_drop dependencies (t ← cast t; k ← cast k; d ← cast d; Ok (t, k, d)) sc db
  | PutAssignment v => sql_put assignments v sc db
  | DropAssignment t i => sql_drop assignments (t ← cast t; i ← cast i; Ok (t, i)) sc db
  | PutActivity v => sql_put activity v sc db
  | PutDocument v => sql_put documents v sc db
  end.

Fixpoint run_statements (l : list Statement) : repo unit :=
  match l with
  | [] => mret tt
  | [s] => exec (sql_statement s)
  | s :: l => exec (sql_statement s);; run_statements l
  end.

Fixpoint sql_statements (l : list Statement) (sc : Scope) (db : projection_tables)
  : result db_error projection_tables :=
  match l with
  | [] => Ok db
  | s :: l => r ← sql_statement s sc db; sql_statements l sc r.2
  end.

(** ** What an event means *)

Definition one {A} (unmarshal : wire → option (option A)) (payload : wire)
    (statements : A → list Statement) : list Statement :=
  match unmarshal payload with Some (Some v) => statements v | _ => [] end.

Definition tenant_changes (meta : EventMeta) (now : Z) (v : Tenant_pb) : list Statement :=
  [PutTenant (tenantSnapshot v meta now)].
Definition context_changes (meta : EventMeta) (now : Z) (c : TenantContext_pb)
  : list Statement :=
  match contextPb_Tenant c with Some v => tenant_changes meta now v | None => [] end.

Definition note (meta : EventMeta) (now : Z) (companyID projectID taskID summary : string)
  : list Statement := [PutActivity (taskActivity meta now companyID projectID taskID summary)].

Definition comment_changes (eventType : string) (meta : EventMeta) (now : Z)
    (v : Comment_pb) : list Statement :=
  let '(actorType, actorID) :=
    if commentPb_AuthorType v =? COMMENT_AUTHOR_TYPE_AGENT
    then (Some "agent", optionalTaskID (default "" (commentPb_AuthorAgentId v)))
    else (Some "user", optionalTaskID (default "" (commentPb_AuthorUserId v))) in
  [PutActivity (with_actor actorType actorID
     (taskActivity meta now "" "" (commentPb_TaskId v)
        (String.append "task comment " (commentEventKind eventType))))].

Definition changes (eventType : string) (payload : wire) (meta : EventMeta) (now : Z)
  : list Statement :=
  let event name := String.eqb eventType name in
  let one_of names := slices_Contains names eventType in
  if event "tenant.created" then one unmarshal_TenantCreated payload (context_changes meta now)
  else if event "tenant.activated"
  then one unmarshal_TenantActivated payload (context_changes meta now)
  else if event "tenant.onboarding_failed"
  then one unmarshal_TenantOnboardingFailed payload (tenant_changes meta now)
  else if event "tenant.updated" then one unmarshal_TenantUpdated payload (tenant_changes meta now)
  else if event "tenant.archived" then one unmarshal_TenantArchived payload (tenant_changes meta now)
  else if one_of ["company.created"; "company.updated"; "company.archived"] then
    one unmarshal_CompanyCreated payload (λ v,
      [PutCompany (companySnapshot v meta now); PutDocument (companySearchDocument v meta now)])
  else if one_of ["agent.created"; "agent.updated"; "agent.manager_changed"; "agent.paused";
                  "agent.resumed"] then
    one unmarshal_AgentCreated payload (λ v,
      [PutAgent (agentSnapshot v meta now); PutDocument (agentSearchDocument v meta now)])
  else if event "agent.deleted" then
    one unmarshal_AgentDeleted payload (λ v,
      [PutAgent (mark_agent_deleted (agentSnapshot v meta now));
       PutDocument (mark_document_deleted (agentSearchDocument v meta now))])
  else if one_of ["goal.created"; "goal.updated"; "goal.status_changed"] then
    one unmarshal_GoalCreated payload (λ v,
      [PutGoal (goalSnapshot v meta now); PutDocument (goalSearchDocument v meta now)])
  else if one_of ["project.created"; "project.updated"; "project.status_changed"] then
    one unmarshal_ProjectCreated payload (λ v,
      [PutProject (projectSnapshot v meta now); PutDocument (projectSearchDocument v meta now)])
  else if one_of ["task.created"; "task.updated"; "task.status_changed"] then
    one unmarshal_TaskCreated payload (λ v,
      PutTask (taskSnapshot v meta now) :: PutDocument (taskSearchDocument v meta now) ::
      note meta now (taskPb_CompanyId v) (taskPb_ProjectId v) (taskPb_TaskId v)
        (taskEventSummary eventType v))
  else if event "task.dependency_added" then
    one unmarshal_TaskDependencyAdded payload (λ v,
      PutDependency (dependencySnapshot v meta now) ::
      note meta now "" (dependencyPb_ProjectId v) (dependencyPb_TaskId v)
        "task dependency added")
  else if event "task.dependency_removed" then
    one unmarshal_TaskDependencyRemoved payload (λ v,
      DropDependency (meta_TenantID meta) (dependencyPb_TaskId v)
        (dependencyPb_DependsOnTaskId v) ::
      note meta now "" (dependencyPb_ProjectId v) (dependencyPb_TaskId v)
        "task dependency removed")
  else if event "task.assigned" then
    one unmarshal_TaskAssigned payload (λ v,
      PutAssignment (assignmentSnapshot v meta now) ::
      note meta now "" "" (assignmentPb_TaskId v) "task assigned")
  else if event "task.unassigned" then
    one unmarshal_TaskUnassigned payload (λ v,
      DropAssignment (meta_TenantID meta) (assignmentPb_AssignmentId v) ::
      note meta now "" "" (assignmentPb_TaskId v) "task unassigned")
  else if one_of ["task.comment_added"; "task.comment_updated"; "task.comment_deleted"] then
    one unmarshal_TaskCommentAdded payload (comment_changes eventType meta now)
  else if event "task.artifact_added" then
    one unmarshal_TaskArtifactAdded payload (λ v,
      note meta now (artifactPb_CompanyId v) "" (artifactPb_TaskId v) "task artifact added")
  else if one_of ["task.artifact_deleted"; "task.checklist_changed"; "task.schedule_changed"] then
    match activity_subject eventType payload with
    | Ok (taskID, _) => note meta now "" "" (default "" taskID)
                          (String.append "task " (taskActivityEventKind eventType))
    | Err _ => []
    end
  else [].

(** The shapes of these statements. *)
Inductive meaning (meta : EventMeta) (now : Z) : list Statement → Prop :=
| means_nothing : meaning meta now []
| means_tenant v : meaning meta now [PutTenant (tenantSnapshot v meta now)]
| means_company v : meaning meta now
    [PutCompany (companySnapshot v meta now); PutDocument (companySearchDocument v meta now)]
| means_agent v : meaning meta now
    [PutAgent (agentSnapshot v meta now); PutDocument (agentSearchDocument v meta now)]
| means_agent_deleted v : meaning meta now
    [PutAgent (mark_agent_deleted (agentSnapshot v meta now));
     PutDocument (mark_document_deleted (agentSearchDocument v meta now))]
| means_goal v : meaning meta now
    [PutGoal (goalSnapshot v meta now); PutDocument (goalSearchDocument v meta now)]
| means_project v : meaning meta now
    [PutProject (projectSnapshot v meta now); PutDocument (projectSearchDocument v meta now)]
| means_task v c p k summary : meaning meta now
    [PutTask (taskSnapshot v meta now); PutDocument (taskSearchDocument v meta now);
     PutActivity (taskActivity meta now c p k summary)]
| means_dependency v p k summary : meaning meta now
    [PutDependency (dependencySnapshot v meta now);
     PutActivity (taskActivity meta now "" p k summary)]
| means_no_dependency i d p k summary : meaning meta now
    [DropDependency (meta_TenantID meta) i d;
     PutActivity (taskActivity meta now "" p k summary)]
| means_assignment v k summary : meaning meta now
    [PutAssignment (assignmentSnapshot v meta now);
     PutActivity (taskActivity meta now "" "" k summary)]
| means_no_assignment i k summary : meaning meta now
    [DropAssignment (meta_TenantID meta) i;
     PutActivity (taskActivity meta now "" "" k summary)]
| means_comment actorType actorID k summary : meaning meta now
    [PutActivity (with_actor actorType actorID (taskActivity meta now "" "" k summary))]
| means_note c k summary : meaning meta now
    [PutActivity (taskActivity meta now c "" k summary)].

Lemma one_meaning {A} (u : wire → option (option A)) p f meta now :
  (∀ v, meaning meta now (f v)) → meaning meta now (one u p f).
Proof. intros Hf. unfold one. destruct (u p) as [[v|]|]; [apply Hf|constructor..]. Qed.

Lemma changes_meaning eventType payload meta now :
  meaning meta now (changes eventType payload meta now).
Proof.
  unfold changes.
  repeat match goal with |- context [if ?b then _ else _] =>
    lazymatch b with context [eventType] => destruct b; [solve [
        apply one_meaning; intros v; unfold context_changes, comment_changes;
          repeat case_match; constructor
      | destruct (activity_subject eventType payload) as [[]|]; constructor ]|]
    end
  end; constructor.
Qed.

Lemma fmap_Some_Ok {E A} (r : result E A) a : Some <$> r = Ok (Some a) → r = Ok a.
Proof. destruct r; cbn; naive_solver. Qed.

(** The function of an event runs the statements the event means, in the tenant of the
    envelope. *)
Lemma decodeEvent_changes eventType payload meta now f :
  decodeEvent eventType payload meta now = Ok (Some f) →
  f = run_statements (changes eventType payload meta now).
Proof.
  unfold decodeEvent, changes, slices_Contains. cbn [existsb].
  repeat match goal with
  | |- context [String.eqb eventType ?name] =>
      destruct (String.eqb_spec eventType name) as [->|?]; cbn [orb];
      [clear; intros Hd%fmap_Some_Ok|]
  end.
  all: try (by intros [=]).
  all: unfold decodeTenantContextEvent, decodeTenantEvent, decodeCompanyEvent,
    decodeAgentEvent, decodeAgentDeletedEvent, decodeGoalEvent, decodeProjectEvent,
    decodeTaskEvent, decodeDependencyAddedEvent, decodeDependencyRemovedEvent,
    decodeAssignedEvent, decodeUnassignedEvent, decodeCommentEvent, decodeArtifactAddedEvent,
    decodeActivityOnlyEvent, decodeTenantContextHolder, decodeTenantHolder,
    unmarshalTyped, carried in Hd; cbn [String.eqb Ascii.eqb Bool.eqb] in Hd.
  all: result_inv Hd; repeat case_match; result_inv Hd; simplify_eq;
    unfold one, context_changes, tenant_changes, comment_changes;
    repeat match goal with E : ?x = _ |- context [?x] => rewrite E end; try done.
Qed.

(** ** One delivery *)

#[global] Instance run_statements_free l : commit_free (run_statements l).
Proof. induction l as [|s [|s' l] IH]; cbn [run_statements]; apply _. Qed.

Lemma run_statements_Ok l s u s' :
  run_statements l s = (Ok u, s') →
  sql_statements l (session_scope s) (session_db s) = Ok (session_db s') ∧
  session_scope s' = session_scope s ∧ session_committed s' = session_committed s ∧
  session_read_only s' = session_read_only s.
Proof.
  revert s. induction l as [|st l IH]; intros s.
  - by intros [-> ->]%ret_Ok.
  - assert (run_statements (st :: l) s = (Ok u, s') →
      ∃ v s1, exec (sql_statement st) s = (Ok v, s1) ∧ run_statements l s1 = (Ok u, s'))
      as Hst.
    { destruct l as [|st' l]; [|by intros (v & s1 & ? & ?)%tx_bind_Ok; eauto].
      cbn. intros Hs. exists u, s'. by destruct u. }
    intros (v & s1 & (Hro & Hw & Hsc & Hcm & Hro')%exec_Ok & Hl)%Hst. cbn [sql_statements].
    rewrite Hw. apply IH in Hl as (Hl & ? & ? & ?). rewrite Hsc in Hl. cbn.
    split_and!; congruence.
Qed.

Definition event_scope (config : Config) (meta : EventMeta) : Scope :=
  ServiceTenantScope (meta_TenantID meta) (config_ServicePrincipalID config) "" "".

(** The tables after an event that the inbox did not hold, and after one that it did. *)
Definition first_time (sc : Scope) (meta : EventMeta) (l : list Statement)
    (db db' : projection_tables) : Prop := ∃ i db1 db2 db3,
  sql_insert_consumed meta sc db = Ok (Some i, db1) ∧
  sql_statements l sc db1 = Ok db2 ∧
  sql_update_watermark meta sc db2 = Ok (tt, db3) ∧
  sql_update_checkpoint meta sc db3 = Ok (tt, db').

Definition once_more (sc : Scope) (meta : EventMeta) (db db' : projection_tables) : Prop :=
  sql_insert_consumed meta sc db = Ok (None, db) ∧
  sql_event_hash (meta_EventID meta) sc db = Ok (meta_EventHash meta) ∧
  sql_update_checkpoint meta sc db = Ok (tt, db').

Lemma insert_consumed_None meta sc db db' :
  sql_insert_consumed meta sc db = Ok (None, db') → db' = db.
Proof. unfold sql_insert_consumed. intros Hi. result_inv Hi. case_match; [|result_inv Hi]; by simplify_eq. Qed.

Lemma ApplyEvent_Ok config meta l db ev applied db' :
  run (ApplyEvent no_ctx (config_ServicePrincipalID config) meta (Some (run_statements l)))
    db ev = (Ok applied, db') →
  if applied : bool then first_time (event_scope config meta) meta l db db'
  else once_more (event_scope config meta) meta db db'.
Proof.
  unfold ApplyEvent, beginServiceTenant. intros (s & Hm & ->)%run_Ok.
  apply tx_bind_Ok in Hm as (u & s1 & (_ & Hdb & Hsc & Hcm & _)%Begin_Ok & Hm).
  apply tx_bind_Ok in Hm as (inserted & s2 & (_ & Hi & Hsc2 & Hcm2 & _)%exec_Ok & Hm).
  rewrite Hdb, Hsc in Hi. rewrite Hsc in Hsc2. cbn in Hi. destruct inserted as [i|].
  - unfold apply_new in Hm.
    apply tx_bind_Ok in Hm as (u1 & s3 & (Hl & Hsc3 & _)%run_statements_Ok & Hm).
    apply tx_bind_Ok in Hm as ([] & s4 & (_ & Hw & Hsc4 & _)%exec_Ok & Hm).
    apply tx_bind_Ok in Hm as ([] & s5 & (_ & Hk & Hsc5 & _)%exec_Ok & Hm).
    apply tx_bind_Ok in Hm as (u2 & s6 & (Hc & _)%commit_Ok & [-> ->]%ret_Ok).
    exists i, (session_db s2), (session_db s3), (session_db s4). rewrite Hc. cbn.
    rewrite Hsc4, Hsc3, Hsc2 in Hk. rewrite Hsc3, Hsc2 in Hw. rewrite Hsc2 in Hl. done.
  - unfold redelivered in Hm. apply insert_consumed_None in Hi as Hs2.
    apply tx_bind_Ok in Hm as (h & s3 & (Hh & Hd3 & Hsc3 & _)%query_Ok & Hm).
    apply tx_bind_Ok in Hm as (u1 & s4 & [Hf ->]%lift_Ok & Hm).
    apply tx_bind_Ok in Hm as ([] & s5 & (_ & Hk & Hsc5 & _)%exec_Ok & Hm).
    apply tx_bind_Ok in Hm as (u2 & s6 & (Hc & _)%commit_Ok & [-> ->]%ret_Ok).
    apply fail_if_Ok in Hf. bool_facts. rewrite Hc. cbn.
    rewrite Hsc3, Hsc2, Hd3, Hs2 in Hk. rewrite Hsc2, Hs2 in Hh. rewrite Hs2 in Hi.
    split_and!; [done|by rewrite <-Hf|done].
Qed.

Lemma ApplyEvent_Err config meta l db ev e db' :
  run (ApplyEvent no_ctx (config_ServicePrincipalID config) meta (Some (run_statements l)))
    db ev = (Err e, db') → db' = db.
Proof.
  apply run_Err. unfold ApplyEvent, beginServiceTenant.
  apply commit_last_bind; [apply _|intros _]. apply commit_last_bind; [apply _|intros [i|]];
    unfold apply_new, redelivered, updateWatermark, updateCheckpoint; apply _.
Qed.

(** The world of one delivery: no other transaction comes between. *)
Definition at_clock (clock : Z) (ev : env) : world projection_tables := {|
  world_env _ := ev; world_interfere _ db := db; world_ids _ := None;
  world_now _ := clock |}.

Definition deliver (config : Config) (message : Message) (clock : Z) (ev : env)
    (db : projection_tables) : result error (option bool) * projection_tables :=
  perform (handle config message) (at_clock clock ev) db.

Lemma decodeMessage_Ok message clock meta f :
  decodeMessage message clock = Ok (meta, f) →
  buildEventMeta message clock = Ok meta ∧
  decodeEvent (meta_EventType meta) (envelope_Payload (message_Envelope message)) meta clock
    = Ok f.
Proof.
  unfold decodeMessage. intros Hd. result_inv Hd. simplify_eq. split; [done|].
  unfold buildEventMeta in E. result_inv E. by simplify_eq.
Qed.

(** The statements of a message that is delivered at that time. *)
Definition message_changes (message : Message) (clock : Z) (meta : EventMeta)
  : list Statement :=
  changes (meta_EventType meta) (envelope_Payload (message_Envelope message)) meta clock.

Lemma deliver_cases config message clock ev db r db' :
  deliver config message clock ev db = (r, db') →
  match r with
  | Ok (Some applied) => ∃ meta f, decodeMessage message clock = Ok (meta, Some f) ∧
      if applied : bool
      then first_time (event_scope config meta) meta (message_changes message clock meta) db db'
      else once_more (event_scope config meta) meta db db'
  | Ok None => db' = db ∧ ∃ meta, decodeMessage message clock = Ok (meta, None)
  | Err _ => db' = db
  end.
Proof.
  unfold deliver, perform, handle, now, Project, pure, call, mbind, app_bind, mret, app_ret.
  cbn. destruct (decodeMessage message clock) as [[meta f]|e] eqn:Hd; cbn;
    [|by intros [= <- <-]].
  destruct f as [f|]; cbn; [|intros [= <- <-]; eauto].
  destruct (validateUUID _) as [[]|e]; cbn; [|by intros [= <- <-]].
  apply decodeMessage_Ok in Hd as Hd'. destruct Hd' as [_ ->%decodeEvent_changes].
  destruct (run _ _ _) as [[applied|e] db1] eqn:Hr; cbn; intros [= <- <-].
  - apply ApplyEvent_Ok in Hr. eauto.
  - by eapply ApplyEvent_Err.
Qed.

End History.
