(* ===== verification/ProjectionCurrent.v ===== *)
(** * Projections: what the read models hold

    The states that deliveries lead to ([reached]), with the deliveries that were applied.
    A read model is the rows its events wrote, folded in the order of application; one that is
    guarded by the source version holds the newest of them ([current]). *)

From S2P Require Import Prelude GoStrings Postgres Usecase Outbox Consumer.
From S2P Require Import ProjectionDomain ProjectionStore ProjectionRepository.
From S2P Require Import ProjectionService ProjectionHistory.
From stdpp Require Import strings gmap list relations.
From Stdlib Require Import String Lia.
Open Scope string_scope.
Open Scope list_scope.
Open Scope Z_scope.

Lemma elem_of_snoc {A} (l : list A) x y : y ∈ l ++ [x] ↔ y ∈ l ∨ y = x.
Proof. by rewrite elem_of_app, list_elem_of_singleton. Qed.

(** ** Rows by version *)

Section Current.
Context {K R : Type} `{Countable K} (key : R → K) (src : R → Source).

Definition version (r : R) : Z := source_Version (src r).

(** [m] holds, under every key, a newest of the rows with that key, if there is one. *)
Definition current (rows : list R) (m : gmap K R) : Prop := ∀ k,
  match m !! k with
  | None => ∀ r, r ∈ rows → key r ≠ k
  | Some r => r ∈ rows ∧ key r = k ∧ ∀ r', r' ∈ rows → key r' = k → version r' ≤ version r
  end.

Lemma current_nil : current [] ∅.
Proof. intros k. rewrite lookup_empty. intros r Hr. by apply elem_of_nil in Hr. Qed.

Lemma current_upsert rows m row :
  current rows m → current (rows ++ [row]) (upsert (newer src) (key row) row m).
Proof.
  intros Hm k. unfold upsert, newer. specialize (Hm (key row)) as Hrow. specialize (Hm k).
  destruct (decide (k = key row)) as [->|Hk].
  - destruct (m !! key row) as [old|] eqn:Hold.
    + destruct Hrow as (Hin & Hkey & Hmax).
      destruct (Z.ltb_spec (source_Version (src old)) (source_Version (src row))).
      * rewrite lookup_insert_eq. split_and!; [set_solver|done|].
        intros r' [Hr'| ->]%elem_of_snoc Hkey'; [|done].
        specialize (Hmax _ Hr' Hkey'). unfold version in *. lia.
      * rewrite Hold. split_and!; [set_solver|done|].
        intros r' [Hr'| ->]%elem_of_snoc Hkey'; [by apply Hmax|done].
    + rewrite lookup_insert_eq. split_and!; [set_solver|done|].
      intros r' [Hr'| ->]%elem_of_snoc Hkey'; [|done].
      by destruct (Hrow _ Hr').
  - assert ((match m !! key row with
             | Some old => if source_Version (src old) <? source_Version (src row)
                           then <[key row := row]> m else m
             | None => <[key row := row]> m
             end) !! k = m !! k) as ->.
    { destruct (m !! key row); [destruct (_ <? _)|]; rewrite ?lookup_insert_ne by congruence; reflexivity. }
    destruct (m !! k) as [r|].
    + destruct Hm as (Hin & Hkey & Hmax). split_and!; [set_solver|done|].
      intros r' [Hr'| ->]%elem_of_snoc Hkey'; [by apply Hmax|done].
    + intros r [Hr| ->]%elem_of_snoc; [by apply Hm|done].
Qed.

(** Two lists of rows that agree, up to [R'], with one row per key and version, leave
    related maps. *)
Context (same : relation R) `{!Equivalence same}.
Hypothesis same_key : ∀ r r', same r r' → key r = key r' ∧ version r = version r'.

Lemma current_agree rows rows' m m' :
  current rows m → current rows' m' →
  (∀ r, r ∈ rows → ∃ r', r' ∈ rows' ∧ same r r') →
  (∀ r', r' ∈ rows' → ∃ r, r ∈ rows ∧ same r r') →
  (∀ r1 r2, r1 ∈ rows → r2 ∈ rows → key r1 = key r2 → version r1 = version r2 → same r1 r2) →
  ∀ k, option_relation same (λ _, False) (λ _, False) (m !! k) (m' !! k).
Proof.
  intros Hm Hm' Hto Hfrom Huniq k. specialize (Hm k). specialize (Hm' k).
  destruct (m !! k) as [r|], (m' !! k) as [r'|]; cbn; [| | |done].
  - destruct Hm as (Hin & Hk & Hmax), Hm' as (Hin' & Hk' & Hmax').
    destruct (Hto _ Hin) as (r2 & Hin2 & Hs2), (Hfrom _ Hin') as (r1 & Hin1 & Hs1).
    destruct (same_key _ _ Hs1) as [Hk1 Hv1], (same_key _ _ Hs2) as [Hk2 Hv2].
    assert (version r1 ≤ version r) by (apply Hmax; congruence).
    assert (version r2 ≤ version r') by (apply Hmax'; congruence).
    trans r1; [|done]. apply Huniq; [done..|congruence|lia].
  - destruct Hm as (Hin & Hk & _). destruct (Hto _ Hin) as (r2 & Hin2 & Hs2).
    destruct (same_key _ _ Hs2) as [Hk2 _]. apply (Hm' _ Hin2). congruence.
  - destruct Hm' as (Hin & Hk & _). destruct (Hfrom _ Hin) as (r1 & Hin1 & Hs1).
    destruct (same_key _ _ Hs1) as [Hk1 _]. apply (Hm _ Hin1). congruence.
Qed.

End Current.

Section Reached.
Context `{Platform, ProjectionProto, TextSearch} (config : Config).

(** ** The statements on one read model *)

Lemma sql_put_Ok {K R} `{Countable K} (M : read_model K R) v sc db u db' :
  sql_put M v sc db = Ok (u, db') → ∃ r row,
    rls_of sc = Ok r ∧ model_cast M v = Ok row ∧
    tenant_scoped r (model_tenant M (model_key M row)) = true ∧ model_check M row = true ∧
    db' = model_set M (upsert (model_replaces M) (model_key M row) row (model_rows M db)) db.
Proof. unfold sql_put. intros Hp. result_inv Hp. bool_facts. simplify_eq. eauto 10. Qed.

Lemma sql_drop_Ok {K R} `{Countable K} (M : read_model K R) key sc db u db' :
  sql_drop M key sc db = Ok (u, db') → ∃ r k,
    rls_of sc = Ok r ∧ key = Ok k ∧
    db' = if tenant_scoped r (model_tenant M k)
          then model_set M (delete k (model_rows M db)) db else db.
Proof. unfold sql_drop. intros Hp. result_inv Hp. simplify_eq. eauto 10. Qed.

(** [put] says which row a statement offers to [M]; no statement deletes from [M]. *)
Definition writes {K R} `{Countable K} (M : read_model K R) (put : Statement → option R)
  : Prop := ∀ s sc db u db', sql_statement s sc db = Ok (u, db') →
  match put s with
  | Some v => ∃ row, model_cast M v = Ok row ∧
      model_rows M db' = upsert (model_replaces M) (model_key M row) row (model_rows M db)
  | None => model_rows M db' = model_rows M db
  end.

Definition put_tenant s := match s with PutTenant v => Some v | _ => None end.
Definition put_company s := match s with PutCompany v => Some v | _ => None end.
Definition put_agent s := match s with PutAgent v => Some v | _ => None end.
Definition put_goal s := match s with PutGoal v => Some v | _ => None end.
Definition put_project s := match s with PutProject v => Some v | _ => None end.
Definition put_task s := match s with PutTask v => Some v | _ => None end.
Definition put_activity s := match s with PutActivity v => Some v | _ => None end.
Definition put_document s := match s with PutDocument v => Some v | _ => None end.

Ltac writes_tac :=
  intros [] sc db u db'; cbn [sql_statement];
  first [ intros (r & row & _ & Hc & _ & _ & ->)%sql_put_Ok; first [reflexivity | exists row; split; [exact Hc|reflexivity]]
        | intros (r & k & _ & _ & ->)%sql_drop_Ok; destruct (tenant_scoped _ _); reflexivity ].

Lemma tenants_written : writes tenants put_tenant. Proof. writes_tac. Qed.
Lemma companies_written : writes companies put_company. Proof. writes_tac. Qed.
Lemma agents_written : writes agents put_agent. Proof. writes_tac. Qed.
Lemma goals_written : writes goals put_goal. Proof. writes_tac. Qed.
Lemma projects_written : writes projects put_project. Proof. writes_tac. Qed.
Lemma tasks_written : writes tasks put_task. Proof. writes_tac. Qed.
Lemma activity_written : writes activity put_activity. Proof. writes_tac. Qed.
Lemma documents_written : writes documents put_document. Proof. writes_tac. Qed.

(** The rows that statements write to [M], and what they leave in it. *)
Definition row_written {K R} `{Countable K} (M : read_model K R) (put : Statement → option R)
    (s : Statement) : option R :=
  v ← put s; match model_cast M v with Ok row => Some row | Err _ => None end.

Definition upserts {K R} `{Countable K} (M : read_model K R) (rows : list R) (m : gmap K R)
  : gmap K R :=
  foldl (λ m row, upsert (model_replaces M) (model_key M row) row m) m rows.

Lemma upserts_app {K R} `{Countable K} (M : read_model K R) rows rows' m :
  upserts M (rows ++ rows') m = upserts M rows' (upserts M rows m).
Proof. apply foldl_app. Qed.

Lemma statements_written {K R} `{Countable K} (M : read_model K R) put l sc db db' :
  writes M put → sql_statements l sc db = Ok db' →
  model_rows M db' = upserts M (omap (row_written M put) l) (model_rows M db).
Proof.
  intros Hw. revert db. induction l as [|s l IH]; intros db; cbn [sql_statements].
  - by intros [= ->].
  - intros ([u db1] & Hs%Hw & Hl)%result_bind_Ok. rewrite (IH _ Hl). cbn [snd].
    unfold row_written at 2. cbn. destruct (put s) as [v|]; cbn.
    + destruct Hs as (row & -> & ->). done.
    + by rewrite Hs.
Qed.

(** ** Reachable states *)

(** A message that was delivered and when. *)
Definition delivery : Type := Message * Z.

Definition delivery_changes (d : delivery) : list Statement :=
  match decodeMessage d.1 d.2 with
  | Ok (meta, Some _) => message_changes d.1 d.2 meta
  | _ => []
  end.

(** The tables after deliveries of any messages in any order, each under its own
    circumstances, with those that were applied for the first time. *)
Inductive reached : list delivery → projection_tables → Prop :=
| reached_start : reached [] no_projections
| reached_deliver h db message clock ev r db' :
    reached h db → deliver config message clock ev db = (r, db') →
    reached (match r with Ok (Some true) => h ++ [(message, clock)] | _ => h end) db'.

(** The rows that the applied events wrote to [M]. *)
Definition history_rows {K R} `{Countable K} (M : read_model K R)
    (put : Statement → option R) (h : list delivery) : list R :=
  h ≫= λ d, omap (row_written M put) (delivery_changes d).

(** The inbox, the watermarks and the checkpoints are no read models. *)
Definition same_models (db db' : projection_tables) : Prop :=
  every_model (λ K R E C M, model_rows M db' = model_rows M db).

Lemma consumed_models meta sc db o db' :
  sql_insert_consumed meta sc db = Ok (o, db') → same_models db db'.
Proof.
  unfold sql_insert_consumed. intros Hi. result_inv Hi.
  case_match; [|result_inv Hi]; by simplify_eq.
Qed.
Lemma watermark_models meta sc db u db' :
  sql_update_watermark meta sc db = Ok (u, db') → same_models db db'.
Proof. unfold sql_update_watermark. intros Hi. result_inv Hi. by simplify_eq. Qed.
Lemma checkpoint_models meta sc db u db' :
  sql_update_checkpoint meta sc db = Ok (u, db') → same_models db db'.
Proof. unfold sql_update_checkpoint. intros Hi. result_inv Hi. by simplify_eq. Qed.

(** [M] is one of the read models, and statements write to it as [put] says. *)
Record written_model {K R} `{Countable K} (M : read_model K R) (put : Statement → option R)
  : Prop := {
  written_writes : writes M put;
  written_every : ∀ P, every_model P → P _ _ _ _ M;
}.

Ltac written_tac w := split; [exact w|by intros P (?&?&?&?&?&?&?&?&?&?)].
Lemma tenants_model : written_model tenants put_tenant.
Proof. written_tac tenants_written. Qed.
Lemma companies_model : written_model companies put_company.
Proof. written_tac companies_written. Qed.
Lemma agents_model : written_model agents put_agent.
Proof. written_tac agents_written. Qed.
Lemma goals_model : written_model goals put_goal.
Proof. written_tac goals_written. Qed.
Lemma projects_model : written_model projects put_project.
Proof. written_tac projects_written. Qed.
Lemma tasks_model : written_model tasks put_task.
Proof. written_tac tasks_written. Qed.
Lemma activity_model : written_model activity put_activity.
Proof. written_tac activity_written. Qed.
Lemma documents_model : written_model documents put_document.
Proof. written_tac documents_written. Qed.

Section Model.
Context {K R : Type} `{Countable K} (M : read_model K R) (put : Statement → option R).
Hypothesis HM : written_model M put.

Lemma first_time_written sc meta l db db' :
  first_time sc meta l db db' →
  model_rows M db' = upserts M (omap (row_written M put) l) (model_rows M db).
Proof.
  intros (i & db1 & db2 & db3 & Hi%consumed_models & Hl & Hw%watermark_models &
    Hk%checkpoint_models).
  apply (written_every _ _ HM) in Hi, Hw, Hk.
  apply (statements_written _ _ _ _ _ _ (written_writes _ _ HM)) in Hl. cbn in *. congruence.
Qed.

Lemma once_more_written sc meta db db' :
  once_more sc meta db db' → model_rows M db' = model_rows M db.
Proof.
  intros (_ & _ & Hk%checkpoint_models). by apply (written_every _ _ HM) in Hk.
Qed.

(** The read model is the fold of the rows that the applied events wrote. *)
Lemma reached_written h db :
  reached h db → model_rows M db = upserts M (history_rows M put h) ∅.
Proof.
  induction 1 as [|h db message clock ev r db' _ IH Hd].
  - apply (written_every _ _ HM (λ K R E C M, model_rows M no_projections = ∅)).
    by split_and!.
  - apply deliver_cases in Hd as Hc. destruct r as [[[]|]|].
    + destruct Hc as (meta & f & Hm & Hf%first_time_written).
      unfold history_rows. rewrite bind_app, upserts_app. unfold history_rows in IH.
      rewrite <-IH, Hf. cbn. unfold delivery_changes. cbn. by rewrite Hm, app_nil_r.
    + destruct Hc as (meta & f & _ & Hf%once_more_written). congruence.
    + destruct Hc as [-> _]. done.
    + by subst.
Qed.

(** A read model that is guarded by the version holds the newest rows. *)
Lemma upserts_current (src : R → Source) rows :
  model_replaces M = newer src → current (model_key M) src rows (upserts M rows ∅).
Proof.
  intros Hnew. induction rows as [|row rows IH] using rev_ind; [apply current_nil|].
  rewrite upserts_app. cbn. rewrite Hnew. by apply current_upsert.
Qed.

Lemma reached_current (src : R → Source) h db :
  model_replaces M = newer src → reached h db →
  current (model_key M) src (history_rows M put h) (model_rows M db).
Proof. intros Hnew ->%reached_written. by apply upserts_current. Qed.

(** Where a row was written. *)
Lemma elem_of_history_rows h row :
  row ∈ history_rows M put h ↔
  ∃ d s v, d ∈ h ∧ s ∈ delivery_changes d ∧ put s = Some v ∧ model_cast M v = Ok row.
Proof.
  unfold history_rows. rewrite list_elem_of_bind. unfold row_written. split.
  - intros (d & (s & Hs & Hr)%list_elem_of_omap & Hd).
    destruct (put s) as [v|] eqn:Hv; cbn in Hr; [|done].
    case_match; simplify_eq. by exists d, s, v.
  - intros (d & s & v & Hd & Hs & Hv & Hr). exists d. split; [|done].
    apply list_elem_of_omap. exists s. rewrite Hv; cbn; by rewrite Hr.
Qed.

End Model.

(** ** The inbox *)

(** The entry that an applied message leaves in the inbox. *)
Definition inbox_entry (d : delivery) : option (string * EventMeta) :=
  match decodeMessage d.1 d.2 with
  | Ok (meta, _) =>
      i ← uuid_in (meta_EventID meta); t ← uuid_in (meta_TenantID meta);
      Some (i, consumed_row i t meta)
  | Err _ => None
  end.

(** The inbox holds an entry for every applied message and no two of them are one event. *)
Record inbox_ok (h : list delivery) (db : projection_tables) : Prop := {
  inbox_complete : Forall (λ d, is_Some (inbox_entry d)) h;
  inbox_distinct : NoDup (omap inbox_entry h).*1;
  inbox_entries : projection_consumed db = list_to_map (omap inbox_entry h);
}.

Lemma insert_consumed_Some meta sc db i db' :
  sql_insert_consumed meta sc db = Ok (Some i, db') → ∃ t,
    uuid_in (meta_EventID meta) = Some i ∧ uuid_in (meta_TenantID meta) = Some t ∧
    projection_consumed db !! i = None ∧
    db' = set_consumed (<[i := consumed_row i t meta]> (projection_consumed db)) db.
Proof.
  unfold sql_insert_consumed. intros Hi. result_inv Hi.
  destruct (is_some _) eqn:Hs; result_inv Hi; simplify_eq.
  exists v1. split_and!; [done..| |done].
  by destruct (projection_consumed db !! _).
Qed.

(** The statements that follow leave the inbox alone. *)
Lemma statements_consumed l sc db db' :
  sql_statements l sc db = Ok db' → projection_consumed db' = projection_consumed db.
Proof.
  revert db. induction l as [|s l IH]; intros db; cbn [sql_statements]; [by intros [= ->]|].
  intros ([u db1] & Hs & ->%IH)%result_bind_Ok. cbn [snd].
  destruct s; cbn [sql_statement] in Hs;
    first [ apply sql_put_Ok in Hs as (r & row & _ & _ & _ & _ & ->); reflexivity
          | apply sql_drop_Ok in Hs as (r & k & _ & _ & ->);
            destruct (tenant_scoped _ _); reflexivity ].
Qed.

Lemma update_watermark_consumed meta sc db u db' :
  sql_update_watermark meta sc db = Ok (u, db') →
  projection_consumed db' = projection_consumed db.
Proof. unfold sql_update_watermark. intros Hw. result_inv Hw. by simplify_eq. Qed.
Lemma update_checkpoint_consumed meta sc db u db' :
  sql_update_checkpoint meta sc db = Ok (u, db') →
  projection_consumed db' = projection_consumed db.
Proof. unfold sql_update_checkpoint. intros Hw. result_inv Hw. by simplify_eq. Qed.

Lemma first_time_consumed sc meta l db db' :
  first_time sc meta l db db' → ∃ i t,
    uuid_in (meta_EventID meta) = Some i ∧ uuid_in (meta_TenantID meta) = Some t ∧
    projection_consumed db !! i = None ∧
    projection_consumed db' = <[i := consumed_row i t meta]> (projection_consumed db).
Proof.
  intros (i & db1 & db2 & db3 & (t & Hi & Ht & Hnone & ->)%insert_consumed_Some &
    Hl%statements_consumed & Hw%update_watermark_consumed & Hk%update_checkpoint_consumed).
  exists i, t. split_and!; [done..|]. by rewrite Hk, Hw, Hl.
Qed.

Lemma reached_inbox h db : reached h db → inbox_ok h db.
Proof.
  induction 1 as [|h db message clock ev r db' _ IH Hd].
  { split; [constructor|apply NoDup_nil_2|done]. }
  apply deliver_cases in Hd as Hc. destruct r as [[[]|]|]; [| |by destruct Hc as [-> _]|by subst].
  - destruct Hc as (meta & f & Hm & (i & t & Hi & Ht & Hnone & Hdb')%first_time_consumed).
    destruct IH as [Hall Hnd Hdb].
    assert (inbox_entry (message, clock) = Some (i, consumed_row i t meta)) as He
      by (unfold inbox_entry; cbn; by rewrite Hm, Hi, Ht).
    assert (i ∉ (omap inbox_entry h).*1) as Hni.
    { intros Hin. rewrite Hdb in Hnone. by apply not_elem_of_list_to_map_2 in Hnone. }
    split.
    + apply Forall_app. split; [done|]. apply Forall_singleton. by rewrite He.
    + rewrite omap_app, fmap_app. cbn. rewrite He. cbn. apply NoDup_app.
      split_and!; [done| |apply NoDup_singleton].
      intros j Hj ->%list_elem_of_singleton. done.
    + rewrite omap_app. cbn. rewrite He. cbn. by rewrite list_to_map_snoc, <-Hdb.
  - destruct Hc as (meta & f & _ & _ & _ & Hk%update_checkpoint_consumed).
    destruct IH. by split; rewrite ?Hk.
Qed.

(** ** The watermarks

    The moments that the applied events of a tenant carry, as the tables keep them. *)
Definition tenant_events (t : string) (h : list delivery) : list EventMeta :=
  List.filter (λ e, String.eqb (meta_TenantID e) t) (omap inbox_entry h).*2.

(** [v] is the greatest of the values of the rows. *)
Definition greatest {A} (f : A → Z) (rows : list A) (v : Z) : Prop :=
  (∃ r, r ∈ rows ∧ f r = v) ∧ ∀ r, r ∈ rows → f r ≤ v.

Definition watermark_ok (rows : list EventMeta) (w : option ProjectionMetadata) : Prop :=
  match w with
  | None => rows = []
  | Some w => greatest meta_OccurredAt rows (metadata_ProjectedThroughEventTime w) ∧
              greatest meta_ProcessedAt rows (metadata_LastProcessedAt w)
  end.

Lemma greatest_snoc {A} (f : A → Z) rows v r :
  greatest f rows v → greatest f (rows ++ [r]) (Z.max v (f r)).
Proof.
  intros [(x & Hx & <-) Hmax]. split.
  - destruct (Z.max_spec (f x) (f r)) as [[_ ->]|[_ ->]].
    + exists r. set_solver.
    + exists x. set_solver.
  - intros y [Hy| ->]%elem_of_snoc; [|lia]. specialize (Hmax _ Hy). lia.
Qed.

Lemma greatest_one {A} (f : A → Z) r : greatest f [r] (f r).
Proof. split; [exists r; set_solver|]. by intros y ->%list_elem_of_singleton. Qed.

(** The statements of an event move no watermark, the next statement does. *)
Lemma statements_watermarks l sc db db' :
  sql_statements l sc db = Ok db' → projection_watermarks db' = projection_watermarks db.
Proof.
  revert db. induction l as [|s l IH]; intros db; cbn [sql_statements]; [by intros [= ->]|].
  intros ([u db1] & Hs & ->%IH)%result_bind_Ok. cbn [snd].
  destruct s; cbn [sql_statement] in Hs;
    first [ apply sql_put_Ok in Hs as (r & row & _ & _ & _ & _ & ->); reflexivity
          | apply sql_drop_Ok in Hs as (r & k & _ & _ & ->);
            destruct (tenant_scoped _ _); reflexivity ].
Qed.

Definition event_watermark (meta : EventMeta) : ProjectionMetadata := {|
  metadata_ProjectedThroughEventTime := timestamptz (meta_OccurredAt meta);
  metadata_LastProcessedAt := timestamptz (meta_ProcessedAt meta) |}.

Lemma update_checkpoint_watermarks meta sc db u db' :
  sql_update_checkpoint meta sc db = Ok (u, db') →
  projection_watermarks db' = projection_watermarks db.
Proof. unfold sql_update_checkpoint. intros Hw. result_inv Hw. by simplify_eq. Qed.

Lemma first_time_watermarks sc meta l db db' t :
  first_time sc meta l db db' → uuid_in (meta_TenantID meta) = Some t →
  projection_watermarks db' =
  <[t := match projection_watermarks db !! t with
         | Some old => watermark_join old (event_watermark meta)
         | None => event_watermark meta
         end]> (projection_watermarks db).
Proof.
  intros (i & db1 & db2 & db3 & (t' & Hi & Ht & _ & ->)%insert_consumed_Some &
    Hl%statements_watermarks & Hw & ->%update_checkpoint_watermarks) Ht'.
  unfold sql_update_watermark in Hw. result_inv Hw. simplify_eq. by rewrite Hl.
Qed.

Lemma reached_watermarks h db t :
  reached h db → watermark_ok (tenant_events t h) (projection_watermarks db !! t).
Proof.
  induction 1 as [|h db message clock ev r db' _ IH Hd]; [done|].
  apply deliver_cases in Hd as Hc. destruct r as [[[]|]|]; [| |by destruct Hc as [-> _]|by subst].
  - destruct Hc as (meta & f & Hm & Hf).
    destruct (first_time_consumed _ _ _ _ _ Hf) as (i & t' & Hi & Ht & _).
    rewrite (first_time_watermarks _ _ _ _ _ _ Hf Ht). unfold tenant_events.
    assert (inbox_entry (message, clock) = Some (i, consumed_row i t' meta)) as He
      by (unfold inbox_entry; cbn; by rewrite Hm, Hi, Ht).
    rewrite omap_app. cbn [omap list_omap]. rewrite He, fmap_app, List.filter_app. cbn.
    destruct (String.eqb_spec t' t) as [->|Hne].
    + rewrite lookup_insert_eq. unfold tenant_events in IH.
      destruct (projection_watermarks db !! t) as [w|]; cbn in IH |- *.
      * destruct IH as [H1' H2']. split; [by apply (greatest_snoc meta_OccurredAt _ _ (consumed_row i t meta))|
          by apply (greatest_snoc meta_ProcessedAt _ _ (consumed_row i t meta))].
      * rewrite IH. split; [apply (greatest_one meta_OccurredAt (consumed_row i t meta))|
          apply (greatest_one meta_ProcessedAt (consumed_row i t meta))].
    + rewrite lookup_insert_ne by done. by rewrite app_nil_r.
  - destruct Hc as (meta & f & _ & _ & _ & Hk%update_checkpoint_watermarks). by rewrite Hk.
Qed.

End Reached.
