(* ===== verification/ProjectionConvergence.v ===== *)
(** * Projections: the same events give the same read models

    Rows with their projection time erased ([unproject]), and why the rows of an event depend
    on its envelope only, whenever, wherever and after whatever it is delivered. *)

From S2P Require Import Prelude GoStrings Postgres Usecase Outbox Consumer.
From S2P Require Import ProjectionDomain ProjectionStore ProjectionRepository.
From S2P Require Import ProjectionService ProjectionHistory ProjectionCurrent.
From stdpp Require Import strings gmap list relations.
From Stdlib Require Import String Lia.
Open Scope string_scope.
Open Scope list_scope.
Open Scope Z_scope.

(** ** Rows without their projection time *)

Definition source_unproject (s : Source) : Source := {|
  source_Version := source_Version s; source_EventID := source_EventID s;
  source_EventAt := source_EventAt s; source_ProjectedAt := 0 |}.

(** [unproject v]: [v] with [ProjectedAt] erased. *)
Class Unproject (R : Type) := unproject : R → R.

#[export] Instance unproject_tenant : Unproject Tenant := λ v, {|
  tenant_ID := tenant_ID v; tenant_Slug := tenant_Slug v;
  tenant_DisplayName := tenant_DisplayName v; tenant_Status := tenant_Status v;
  tenant_Region := tenant_Region v; tenant_RetentionDays := tenant_RetentionDays v;
  tenant_Source := source_unproject (tenant_Source v) |}.
#[export] Instance unproject_company : Unproject Company := λ v, {|
  company_TenantID := company_TenantID v; company_ID := company_ID v;
  company_Slug := company_Slug v; company_DisplayName := company_DisplayName v;
  company_Description := company_Description v; company_Status := company_Status v;
  company_IsDefault := company_IsDefault v;
  company_Source := source_unproject (company_Source v) |}.
#[export] Instance unproject_agent : Unproject Agent := λ v, {|
  agent_TenantID := agent_TenantID v; agent_CompanyID := agent_CompanyID v;
  agent_ID := agent_ID v; agent_Slug := agent_Slug v;
  agent_DisplayName := agent_DisplayName v; agent_RoleTitle := agent_RoleTitle v;
  agent_Objective := agent_Objective v; agent_ManagerAgentID := agent_ManagerAgentID v;
  agent_Status := agent_Status v; agent_ExecutionProfile := agent_ExecutionProfile v;
  agent_AutonomyLevel := agent_AutonomyLevel v;
  agent_Source := source_unproject (agent_Source v) |}.
#[export] Instance unproject_goal : Unproject Goal := λ v, {|
  goal_TenantID := goal_TenantID v; goal_CompanyID := goal_CompanyID v; goal_ID := goal_ID v;
  goal_Title := goal_Title v; goal_Description := goal_Description v;
  goal_Status := goal_Status v; goal_Source := source_unproject (goal_Source v) |}.
#[export] Instance unproject_project : Unproject ProjectionDomain.Project := λ v, {|
  project_TenantID := project_TenantID v; project_CompanyID := project_CompanyID v;
  project_GoalID := project_GoalID v; project_ID := project_ID v;
  project_Title := project_Title v; project_Description := project_Description v;
  project_Status := project_Status v;
  project_Source := source_unproject (project_Source v) |}.
#[export] Instance unproject_task : Unproject Task := λ v, {|
  task_TenantID := task_TenantID v; task_CompanyID := task_CompanyID v;
  task_ProjectID := task_ProjectID v; task_ID := task_ID v;
  task_ParentTaskID := task_ParentTaskID v; task_Title := task_Title v;
  task_Description := task_Description v; task_Status := task_Status v;
  task_Priority := task_Priority v; task_CreatedByUserID := task_CreatedByUserID v;
  task_Source := source_unproject (task_Source v) |}.
#[export] Instance unproject_dependency : Unproject Dependency := λ v, {|
  dependency_TenantID := dependency_TenantID v; dependency_ProjectID := dependency_ProjectID v;
  dependency_TaskID := dependency_TaskID v;
  dependency_DependsOnTaskID := dependency_DependsOnTaskID v;
  dependency_SourceEventID := dependency_SourceEventID v;
  dependency_SourceEventAt := dependency_SourceEventAt v; dependency_ProjectedAt := 0 |}.
#[export] Instance unproject_assignment : Unproject Assignment := λ v, {|
  assignment_TenantID := assignment_TenantID v; assignment_TaskID := assignment_TaskID v;
  assignment_ID := assignment_ID v; assignment_AssigneeType := assignment_AssigneeType v;
  assignment_UserID := assignment_UserID v; assignment_AgentID := assignment_AgentID v;
  assignment_Role := assignment_Role v; assignment_AssignedAt := assignment_AssignedAt v;
  assignment_SourceEventID := assignment_SourceEventID v;
  assignment_SourceEventAt := assignment_SourceEventAt v; assignment_ProjectedAt := 0 |}.
#[export] Instance unproject_activity : Unproject Activity := λ v, {|
  activity_TenantID := activity_TenantID v; activity_EventID := activity_EventID v;
  activity_EventType := activity_EventType v; activity_CompanyID := activity_CompanyID v;
  activity_ProjectID := activity_ProjectID v; activity_TaskID := activity_TaskID v;
  activity_ActorType := activity_ActorType v; activity_ActorID := activity_ActorID v;
  activity_Summary := activity_Summary v; activity_OccurredAt := activity_OccurredAt v;
  activity_ProjectedAt := 0 |}.
#[export] Instance unproject_document : Unproject SearchDocument := λ v, {|
  document_TenantID := document_TenantID v; document_Type := document_Type v;
  document_ID := document_ID v; document_CompanyID := document_CompanyID v;
  document_Title := document_Title v; document_Subtitle := document_Subtitle v;
  document_Body := document_Body v; document_Status := document_Status v;
  document_Deleted := document_Deleted v;
  document_Source := source_unproject (document_Source v) |}.

Definition statement_unproject (s : Statement) : Statement :=
  match s with
  | PutTenant v => PutTenant (unproject v)
  | PutCompany v => PutCompany (unproject v)
  | PutAgent v => PutAgent (unproject v)
  | PutGoal v => PutGoal (unproject v)
  | PutProject v => PutProject (unproject v)
  | PutTask v => PutTask (unproject v)
  | PutDependency v => PutDependency (unproject v)
  | PutAssignment v => PutAssignment (unproject v)
  | PutActivity v => PutActivity (unproject v)
  | PutDocument v => PutDocument (unproject v)
  | DropDependency _ _ _ | DropAssignment _ _ => s
  end.

(** The part of the metadata that the statements of an event are made of. *)
Definition meta_core (meta : EventMeta) : EventMeta := {|
  meta_EventID := meta_EventID meta; meta_TenantID := meta_TenantID meta;
  meta_Topic := ""; meta_Partition := 0; meta_Offset := 0;
  meta_EventType := meta_EventType meta; meta_EventVersion := 0; meta_AggregateType := "";
  meta_AggregateID := ""; meta_AggregateVersion := meta_AggregateVersion meta;
  meta_EventHash := ""; meta_OccurredAt := meta_OccurredAt meta; meta_ProcessedAt := 0 |}.

Section Convergence.
Context `{Platform, ProjectionProto, TextSearch} (config : Config).

Lemma one_unproject {A} (u : wire → option (option A)) p (f g : A → list Statement) :
  (∀ v, statement_unproject <$> f v = g v) →
  statement_unproject <$> one u p f = one u p g.
Proof. intros Hfg. unfold one. by destruct (u p) as [[v|]|]. Qed.

(** The statements do not depend on when the event is projected, but for the time they
    record. *)
Lemma changes_unproject eventType payload meta now :
  statement_unproject <$> changes eventType payload meta now
  = changes eventType payload (meta_core meta) 0.
Proof.
  unfold changes.
  repeat match goal with |- context [if ?b then _ else _] =>
    lazymatch b with
    | context [eventType] => destruct b; [solve [
        apply one_unproject; intros v; unfold context_changes, comment_changes;
          repeat case_match; reflexivity
      | destruct (activity_subject eventType payload) as [[]|]; reflexivity ]|]
    end
  end; reflexivity.
Qed.

(** The casts leave the projection time alone. *)
Record casts_unproject {K R} `{Countable K, !Unproject R} (M : read_model K R)
    (put : Statement → option R) : Prop := {
  unproject_cast : ∀ v, model_cast M (unproject v) = unproject <$> model_cast M v;
  unproject_key : ∀ v, model_key M (unproject v) = model_key M v;
  unproject_put : ∀ s, put (statement_unproject s) = unproject <$> put s;
}.

Lemma source_row_unproject s :
  source_row (source_unproject s) = source_unproject <$> source_row s.
Proof. unfold source_row, source_unproject. cbn. by destruct (bigint _), (cast _). Qed.

Ltac casts_tac row_of :=
  split; [|done|by intros []];
  intros v; cbn; unfold row_of; cbn; rewrite ?source_row_unproject;
  repeat match goal with
  | |- context [cast ?x] => destruct (cast x); cbn; [|reflexivity]
  | |- context [cast_option ?x] => destruct (cast_option x); cbn; [|reflexivity]
  end; repeat match goal with
  | |- context [source_row ?x] => destruct (source_row x); cbn
  end; first [reflexivity|idtac].

Lemma tenants_unproject : casts_unproject tenants put_tenant.
Proof. casts_tac (@tenant_row). Qed.
Lemma companies_unproject : casts_unproject companies put_company.
Proof. casts_tac (@company_row). Qed.
Lemma agents_unproject : casts_unproject agents put_agent.
Proof. casts_tac (@agent_row). Qed.
Lemma goals_unproject : casts_unproject goals put_goal.
Proof. casts_tac (@goal_row). Qed.
Lemma projects_unproject : casts_unproject projects put_project.
Proof. casts_tac (@project_row). Qed.
Lemma tasks_unproject : casts_unproject tasks put_task.
Proof. casts_tac (@task_row). Qed.
Lemma activity_unproject : casts_unproject activity put_activity.
Proof. casts_tac (@activity_row). Qed.

(** ** The same events *)

Lemma decodeMessage_core message message' clock clock' meta meta' f f' :
  message_Envelope message = message_Envelope message' →
  decodeMessage message clock = Ok (meta, f) → decodeMessage message' clock' = Ok (meta', f') →
  meta_core meta = meta_core meta'.
Proof.
  intros He [Hm _]%decodeMessage_Ok [Hm' _]%decodeMessage_Ok.
  unfold buildEventMeta in Hm, Hm'. rewrite <-He in Hm'. unfold meta_core.
  result_inv Hm. result_inv Hm'. simplify_eq. cbn. congruence.
Qed.

(** Two deliveries of one envelope mean the same statements, but for the time. *)
Lemma delivery_changes_core (d d' : delivery) meta meta' f f' :
  message_Envelope d.1 = message_Envelope d'.1 →
  decodeMessage d.1 d.2 = Ok (meta, Some f) → decodeMessage d'.1 d'.2 = Ok (meta', Some f') →
  statement_unproject <$> delivery_changes d = statement_unproject <$> delivery_changes d'.
Proof.
  intros He Hm Hm'. pose proof (decodeMessage_core _ _ _ _ _ _ _ _ He Hm Hm') as Hc.
  unfold delivery_changes. rewrite Hm, Hm'. unfold message_changes.
  rewrite !changes_unproject, Hc, He. injection Hc as _ _ -> _ _. done.
Qed.

Lemma reached_decoded h db d :
  reached config h db → d ∈ h → ∃ meta f, decodeMessage d.1 d.2 = Ok (meta, Some f).
Proof.
  induction 1 as [|h db message clock ev r db' _ IH Hd]; [by intros ?%elem_of_nil|].
  apply deliver_cases in Hd. destruct r as [[[]|]|]; [|done..].
  intros [Hin| ->]%elem_of_snoc; [auto|]. destruct Hd as (meta & f & Hm & _). eauto.
Qed.

Definition same_envelopes (h h' : list delivery) : Prop := ∀ e,
  (∃ d, d ∈ h ∧ message_Envelope d.1 = e) ↔ (∃ d, d ∈ h' ∧ message_Envelope d.1 = e).

(** Of the events of a history, no two wrote the same version of a row of [M]. *)
Definition one_event_per_version {K R} `{Countable K} (M : read_model K R)
    (put : Statement → option R) (src : R → Source) (h : list delivery) : Prop :=
  ∀ d d' r r', d ∈ h → d' ∈ h → r ∈ history_rows M put [d] → r' ∈ history_rows M put [d'] →
  model_key M r = model_key M r' → version src r = version src r' →
  message_Envelope d.1 = message_Envelope d'.1.

Section Model.
Context {K R : Type} `{Countable K, !Unproject R} (M : read_model K R).
Context (put : Statement → option R) (src : R → Source).
Hypothesis HM : written_model M put.
Hypothesis Hnew : model_replaces M = newer src.
Hypothesis Hcasts : casts_unproject M put.
Hypothesis Hsrc : ∀ v, source_Version (src (unproject v)) = source_Version (src v).
(** An event writes at most one row of [M]. *)
Hypothesis Hsingle : ∀ meta now l, meaning meta now l →
  (List.length (omap put l) ≤ 1)%nat.

Definition same_row (r r' : R) : Prop := unproject r = unproject r'.
#[local] Instance same_row_equivalence : Equivalence same_row.
Proof. split; unfold same_row; intros ?*; congruence. Qed.

Lemma history_rows_one h d r :
  d ∈ h → r ∈ history_rows M put [d] → r ∈ history_rows M put h.
Proof.
  rewrite !elem_of_history_rows. intros Hd (d' & s & v & ->%list_elem_of_singleton & ?).
  eauto 10.
Qed.

Lemma history_rows_inv h r : r ∈ history_rows M put h → ∃ d, d ∈ h ∧ r ∈ history_rows M put [d].
Proof.
  rewrite elem_of_history_rows. intros (d & s & v & Hd & ?). exists d. split; [done|].
  rewrite elem_of_history_rows. exists d, s, v. split; [by apply list_elem_of_singleton|done].
Qed.

(** A row of a delivery, and the one of another delivery of the envelope. *)
Lemma row_again d d' r meta meta' f f' :
  message_Envelope d.1 = message_Envelope d'.1 →
  decodeMessage d.1 d.2 = Ok (meta, Some f) → decodeMessage d'.1 d'.2 = Ok (meta', Some f') →
  r ∈ history_rows M put [d] → ∃ r', r' ∈ history_rows M put [d'] ∧ same_row r r'.
Proof.
  intros He Hm Hm'. pose proof (delivery_changes_core _ _ _ _ _ _ He Hm Hm') as Hc.
  rewrite elem_of_history_rows. intros (? & s & v & ->%list_elem_of_singleton & Hs & Hv & Hr).
  assert (statement_unproject s ∈ statement_unproject <$> delivery_changes d') as
    (s' & Hss & Hs')%list_elem_of_fmap by (rewrite <-Hc; by apply list_elem_of_fmap_2).
  pose proof (unproject_put _ _ Hcasts s) as Hp. rewrite Hss, (unproject_put _ _ Hcasts), Hv in Hp.
  destruct (put s') as [v'|] eqn:Hv'; [|done]. injection Hp as Hvv.
  pose proof (unproject_cast _ _ Hcasts v) as Hcv. rewrite Hr in Hcv.
  rewrite <-Hvv, (unproject_cast _ _ Hcasts) in Hcv.
  destruct (model_cast M v') as [r'|] eqn:Hr'; [|done]. injection Hcv as Hrr.
  exists r'. split; [|done]. rewrite elem_of_history_rows.
  exists d', s', v'. split_and!; [by apply list_elem_of_singleton|done..].
Qed.

(** One delivery wrote one row. *)
Lemma row_single d r r' meta f :
  decodeMessage d.1 d.2 = Ok (meta, Some f) →
  r ∈ history_rows M put [d] → r' ∈ history_rows M put [d] → r = r'.
Proof.
  intros Hm. rewrite !elem_of_history_rows.
  intros (? & s & v & ->%list_elem_of_singleton & Hs & Hv & Hr)
    (? & s' & v' & ->%list_elem_of_singleton & Hs' & Hv' & Hr').
  assert (List.length (omap put (delivery_changes d)) ≤ 1)%nat as Hl.
  { unfold delivery_changes. rewrite Hm. eapply Hsingle, changes_meaning. }
  assert (v ∈ omap put (delivery_changes d)) as Hin by (apply list_elem_of_omap; eauto).
  assert (v' ∈ omap put (delivery_changes d)) as Hin' by (apply list_elem_of_omap; eauto).
  destruct (omap put _) as [|x [|]]; cbn in Hl; [set_solver| |lia].
  apply list_elem_of_singleton in Hin, Hin'. congruence.
Qed.

Lemma rows_follow h h' db db' r :
  reached config h db → reached config h' db' → same_envelopes h h' →
  r ∈ history_rows M put h → ∃ r', r' ∈ history_rows M put h' ∧ same_row r r'.
Proof.
  intros Hh Hh' Hsame (d & Hd & Hr)%history_rows_inv.
  destruct (proj1 (Hsame (message_Envelope d.1))) as (d' & Hd' & He); [eauto|].
  destruct (reached_decoded _ _ _ Hh Hd) as (meta & f & Hm).
  destruct (reached_decoded _ _ _ Hh' Hd') as (meta' & f' & Hm').
  destruct (row_again d d' r meta meta' f f') as (r' & Hr' & Hs); [done..|].
  exists r'. split; [|done]. by eapply history_rows_one.
Qed.

Lemma model_converges h h' db db' :
  reached config h db → reached config h' db' → same_envelopes h h' →
  one_event_per_version M put src h →
  ∀ k, unproject <$> model_rows M db !! k = unproject <$> model_rows M db' !! k.
Proof.
  intros Hh Hh' Hsame Huniq k.
  pose proof (reached_current config M put HM src h db Hnew Hh) as Hc.
  pose proof (reached_current config M put HM src h' db' Hnew Hh') as Hc'.
  assert (option_relation same_row (λ _, False) (λ _, False)
    (model_rows M db !! k) (model_rows M db' !! k)) as Hk.
  { apply (current_agree (model_key M) src same_row) with (history_rows M put h)
      (history_rows M put h'); [|done|done| | |].
    - intros r r' Hr. split.
      + by rewrite <-(unproject_key _ _ Hcasts r), Hr, (unproject_key _ _ Hcasts).
      + unfold version. by rewrite <-(Hsrc r), Hr, Hsrc.
    - intros r Hr. by apply (rows_follow h h' db db').
    - intros r' Hr'. destruct (rows_follow h' h db' db r') as (r & Hr & Hs); [done|done| |done|].
      { intros e. symmetry. apply Hsame. }
      by exists r.
    - intros r1 r2 (d1 & Hd1 & Hr1)%history_rows_inv (d2 & Hd2 & Hr2)%history_rows_inv Hke Hv.
      destruct (reached_decoded _ _ _ Hh Hd1) as (meta1 & f1 & Hm1).
      destruct (reached_decoded _ _ _ Hh Hd2) as (meta2 & f2 & Hm2).
      assert (message_Envelope d1.1 = message_Envelope d2.1) as He by (by eapply Huniq).
      destruct (row_again d1 d2 r1 meta1 meta2 f1 f2) as (r' & Hr' & Hs); [done..|].
      by rewrite (row_single d2 r2 r' meta2 f2). }
  destruct (model_rows M db !! k), (model_rows M db' !! k); cbn in *; [|done..].
  by f_equal.
Qed.

End Model.

End Convergence.

(** ** What identifies an event

    An applied event is the only one with its identifier, so the activity of a task does not
    depend on the order of the events either, and neither do the watermarks; the search
    documents do, unless the events of each document come in the order of their versions. *)

(** ** Versions that increase *)

Section InOrder.
Context {K R : Type} `{Countable K} (key : R → K) (src : R → Source).

(** Of two rows under one key the later one has the greater version. *)
Definition in_version_order (rows : list R) : Prop := ∀ i j r r',
  (i < j)%nat → rows !! i = Some r → rows !! j = Some r' → key r = key r' →
  version src r < version src r'.

Lemma in_version_order_snoc rows row :
  in_version_order (rows ++ [row]) →
  in_version_order rows ∧ ∀ r, r ∈ rows → key r = key row → version src r < version src row.
Proof.
  intros Ho. split.
  - intros i j r r' Hij Hi Hj. apply (Ho i j); [done|by apply lookup_app_l_Some..].
  - intros r [i Hi]%list_elem_of_lookup. apply (Ho i (List.length rows)).
    + by eapply lookup_lt_Some.
    + by apply lookup_app_l_Some.
    + apply lookup_snoc_Some. by right.
Qed.

(** It is decided by comparing each row with those after it. *)
Fixpoint versions_increase (l : list (K * Z)) : bool :=
  match l with
  | [] => true
  | x :: l => forallb (λ y, negb (bool_decide (x.1 = y.1)) || (x.2 <? y.2)) l
              && versions_increase l
  end.

Lemma in_version_order_check rows :
  versions_increase ((λ r, (key r, version src r)) <$> rows) = true → in_version_order rows.
Proof.
  induction rows as [|x rows IH]; [by intros _ [] ? ? ?|]. cbn. intros [Hx Hl]%andb_true_iff.
  rewrite forallb_forall in Hx. intros [|i] [|j] r r' Hij Hi Hj Hk; cbn in Hi, Hj; try lia.
  - injection Hi as <-. apply list_elem_of_lookup_2 in Hj.
    assert (In (key r', version src r') ((λ r, (key r, version src r)) <$> rows)) as Hin
      by (apply list_elem_of_In, list_elem_of_fmap; eauto).
    specialize (Hx _ Hin). cbn in Hx. rewrite bool_decide_eq_true_2 in Hx by done. by apply Z.ltb_lt.
  - apply (IH Hl i j); [lia|done..].
Qed.

(** A newer row is written whatever else would be. *)
Lemma current_replaced rows m row (replaces : R → R → bool) :
  current key src rows m → (∀ old new, newer src old new = true → replaces old new = true) →
  (∀ r, r ∈ rows → key r = key row → version src r < version src row) →
  current key src (rows ++ [row]) (upsert replaces (key row) row m).
Proof.
  intros Hm Hr Hrow.
  assert (upsert replaces (key row) row m = upsert (newer src) (key row) row m) as ->;
    [|by apply current_upsert].
  unfold upsert. specialize (Hm (key row)). destruct (m !! key row) as [old|]; [|done].
  destruct Hm as (Hin & Hk & _). assert (newer src old row = true) as Hn.
  { unfold newer. apply Z.ltb_lt. by apply Hrow. }
  by rewrite Hn, Hr.
Qed.

End InOrder.

Section Order.
Context `{Platform, ProjectionProto, TextSearch} (config : Config).

(** The search documents hold the newest rows when each document's events come in order. *)
Lemma documents_current h db :
  reached config h db →
  in_version_order (model_key documents) document_Source (history_rows documents put_document h) →
  current (model_key documents) document_Source (history_rows documents put_document h)
    (projection_search db).
Proof.
  intros Hh. change (projection_search db) with (model_rows documents db).
  rewrite (reached_written config documents put_document documents_model h db Hh).
  generalize (history_rows documents put_document h). intros rows.
  induction rows as [|row rows IH] using rev_ind; intros Ho; [apply current_nil|].
  apply in_version_order_snoc in Ho as [Ho Hrow]. rewrite upserts_app. cbn [upserts foldl].
  apply current_replaced; [by apply IH| |done].
  intros old new Hn. cbn. unfold document_newer. rewrite Hn. apply orb_true_r.
Qed.

(** ** An identifier names one delivery *)

Lemma inbox_unique h db d d' i e e' :
  reached config h db → d ∈ h → d' ∈ h → inbox_entry d = Some (i, e) →
  inbox_entry d' = Some (i, e') → d = d'.
Proof.
  intros [_ Hnd _]%reached_inbox. revert Hnd. induction h as [|x h IH]; [set_solver|].
  cbn. intros Hnd Hd Hd' He He'.
  assert (∀ y z, y ∈ h → inbox_entry y = Some (i, z) → i ∈ (omap inbox_entry h).*1) as Hin.
  { intros y z Hy Hz. apply list_elem_of_fmap. exists (i, z). split; [done|].
    apply list_elem_of_omap. eauto. }
  apply elem_of_cons in Hd as [->|Hd], Hd' as [->|Hd']; [done| | |].
  - rewrite He in Hnd. cbn in Hnd. apply NoDup_cons in Hnd as [Hni _]. destruct Hni; eauto.
  - rewrite He' in Hnd. cbn in Hnd. apply NoDup_cons in Hnd as [Hni _]. destruct Hni; eauto.
  - apply IH; [|done..]. destruct (inbox_entry x) as [[]|]; cbn in Hnd; [|done].
    by apply NoDup_cons in Hnd as [_ ?].
Qed.

(** An activity stands under the identifier of its event. *)
Lemma changes_activity meta now l v :
  meaning meta now l → v ∈ omap put_activity l → activity_EventID v = meta_EventID meta.
Proof.
  intros Hl Hv. destruct Hl; cbn in Hv; try (by apply elem_of_nil in Hv);
    apply list_elem_of_singleton in Hv as ->; reflexivity.
Qed.

Lemma activity_entry h db d r :
  reached config h db → d ∈ h → r ∈ history_rows activity put_activity [d] →
  ∃ e, inbox_entry d = Some (activity_EventID r, e).
Proof.
  intros Hh Hd (? & s & v & ->%list_elem_of_singleton & Hs & Hv & Hr)%elem_of_history_rows.
  destruct (reached_decoded _ _ _ _ Hh Hd) as (meta & f & Hm).
  pose proof (inbox_complete _ _ (reached_inbox _ _ _ Hh)) as Hall.
  rewrite Forall_forall in Hall. destruct (Hall d Hd) as [[i e] He].
  unfold delivery_changes in Hs. rewrite Hm in Hs.
  assert (activity_EventID v = meta_EventID meta) as Hid.
  { eapply changes_activity; [apply changes_meaning|].
    apply list_elem_of_omap. by exists s. }
  exists e. rewrite He. unfold inbox_entry in He. rewrite Hm in He.
  cbn in Hr. unfold activity_row in Hr. result_inv Hr. simplify_eq. cbn.
  rewrite Hid in E0. rewrite E0 in He. cbn in He.
  destruct (uuid_in (meta_TenantID meta)); cbn in He; [|done]. congruence.
Qed.

(** So no two events wrote one activity. *)
Lemma activity_one_event h db src :
  reached config h db → one_event_per_version activity put_activity src h.
Proof.
  intros Hh d d' r r' Hd Hd' Hr Hr' Hk _.
  destruct (activity_entry _ _ _ _ Hh Hd Hr) as [e He].
  destruct (activity_entry _ _ _ _ Hh Hd' Hr') as [e' He'].
  injection Hk as _ Hid. rewrite Hid in He. by rewrite (inbox_unique _ _ _ _ _ _ _ Hh Hd Hd' He He').
Qed.

(** Rows with distinct keys and versions come from distinct events. *)
Lemma bind_unique {A B C} (f : A → list B) (g : B → C) l a a' b b' :
  NoDup (g <$> (l ≫= f)) → a ∈ l → a' ∈ l → b ∈ f a → b' ∈ f a' → g b = g b' → a = a'.
Proof.
  induction l as [|x l IH]; [set_solver|]. cbn. rewrite fmap_app. intros Hnd Ha Ha' Hb Hb' Hg.
  apply NoDup_app in Hnd as (_ & Hsep & Hnd).
  assert (∀ y z, y ∈ l → z ∈ f y → g z ∈ g <$> (l ≫= f)) as Hin
    by (intros y z Hy Hz; apply list_elem_of_fmap_2, list_elem_of_bind; eauto).
  apply elem_of_cons in Ha as [->|Ha], Ha' as [->|Ha']; [done| | |by apply IH].
  - destruct (Hsep (g b)); [by apply list_elem_of_fmap_2|rewrite Hg; by eapply Hin].
  - destruct (Hsep (g b')); [by apply list_elem_of_fmap_2|rewrite <-Hg; by eapply Hin].
Qed.

Lemma one_event_check {K R} `{Countable K} (M : read_model K R) put (src : R → Source) h :
  NoDup ((λ r, (model_key M r, version src r)) <$> history_rows M put h) →
  one_event_per_version M put src h.
Proof.
  intros Hnd d d' r r' Hd Hd' Hr Hr' Hk Hv. unfold history_rows in Hr, Hr'. cbn in Hr, Hr'.
  rewrite app_nil_r in Hr, Hr'. f_equal.
  by rewrite (bind_unique _ _ _ d d' r r' Hnd Hd Hd' Hr Hr') by congruence.
Qed.

(** ** Watermarks *)

Lemma elem_of_tenant_events t h e :
  e ∈ tenant_events t h ↔
  ∃ d i, d ∈ h ∧ inbox_entry d = Some (i, e) ∧ meta_TenantID e = t.
Proof.
  unfold tenant_events. rewrite elem_of_filter_b, String.eqb_eq, list_elem_of_fmap. split.
  - intros [([i e'] & -> & (d & Hd & He)%list_elem_of_omap) Ht]. eauto.
  - intros (d & i & Hd & He & Ht). split; [|done]. exists (i, e). split; [done|].
    apply list_elem_of_omap. eauto.
Qed.

Lemma tenant_events_follow h h' db db' t e :
  reached config h db → reached config h' db' → same_envelopes h h' →
  e ∈ tenant_events t h → ∃ e', e' ∈ tenant_events t h' ∧ meta_OccurredAt e' = meta_OccurredAt e.
Proof.
  intros Hh Hh' Hsame (d & i & Hd & He & Ht)%elem_of_tenant_events.
  destruct (proj1 (Hsame (message_Envelope d.1))) as (d' & Hd' & Henv); [eauto|].
  destruct (reached_decoded _ _ _ _ Hh Hd) as (meta & f & Hm).
  destruct (reached_decoded _ _ _ _ Hh' Hd') as (meta' & f' & Hm').
  assert (message_Envelope d.1 = message_Envelope d'.1) as Hee by done.
  pose proof (decodeMessage_core _ _ _ _ _ _ _ _ Hee Hm Hm') as [= Hi Htn _ _ Ho].
  unfold inbox_entry in He. rewrite Hm, Hi, Htn in He. cbn in He.
  destruct (uuid_in (meta_EventID meta')) as [j|] eqn:Hj; cbn in He; [|done].
  destruct (uuid_in (meta_TenantID meta')) as [u|] eqn:Hu; cbn in He; [|done].
  injection He as <- <-. cbn in Ht. subst u.
  exists (consumed_row j t meta'). split; [|cbn; by rewrite Ho].
  apply elem_of_tenant_events. exists d', j. split_and!; [done| |done].
  unfold inbox_entry. by rewrite Hm', Hj; cbn; rewrite Hu.
Qed.

Lemma greatest_agree {A} (f : A → Z) rows rows' v v' :
  greatest f rows v → greatest f rows' v' →
  (∀ r, r ∈ rows → ∃ r', r' ∈ rows' ∧ f r' = f r) →
  (∀ r', r' ∈ rows' → ∃ r, r ∈ rows ∧ f r = f r') → v = v'.
Proof.
  intros [(r & Hr & <-) Hmax] [(r' & Hr' & <-) Hmax'] Hto Hfrom.
  destruct (Hto _ Hr) as (x & Hx%Hmax' & Hfx), (Hfrom _ Hr') as (y & Hy%Hmax & Hfy). lia.
Qed.

Lemma watermarks_agree h h' db db' t :
  reached config h db → reached config h' db' → same_envelopes h h' →
  metadata_ProjectedThroughEventTime <$> projection_watermarks db !! t =
  metadata_ProjectedThroughEventTime <$> projection_watermarks db' !! t.
Proof.
  intros Hh Hh' Hsame.
  assert (same_envelopes h' h) as Hsame' by (intros e; symmetry; apply Hsame).
  pose proof (reached_watermarks config h db t Hh) as Hw.
  pose proof (reached_watermarks config h' db' t Hh') as Hw'.
  pose proof (λ e, tenant_events_follow h h' db db' t e Hh Hh' Hsame) as Hto.
  pose proof (λ e, tenant_events_follow h' h db' db t e Hh' Hh Hsame') as Hfrom.
  destruct (projection_watermarks db !! t) as [w|], (projection_watermarks db' !! t) as [w'|];
    cbn in *; [|rewrite Hw' in *|rewrite Hw in *|done].
  - f_equal. destruct Hw as [Hw _], Hw' as [Hw' _].
    eapply (greatest_agree meta_OccurredAt); eauto.
  - destruct Hw as [[(e & He & _) _] _]. destruct (Hto _ He) as (e' & He' & _). set_solver.
  - destruct Hw' as [[(e & He & _) _] _]. destruct (Hfrom _ He) as (e' & He' & _). set_solver.
Qed.

End Order.
