(* ===== verification/ProjectionIsolation.v ===== *)
(** * Projections: tenants are isolated

    A delivery touches only rows of the tenant of its envelope ([untouched]). *)

From S2P Require Import Prelude GoStrings Postgres Usecase Outbox Consumer.
From S2P Require Import ProjectionDomain ProjectionStore ProjectionRepository.
From S2P Require Import ProjectionService ProjectionHistory ProjectionCurrent.
From stdpp Require Import strings gmap list sorting relations.
From Stdlib Require Import String Lia.
Open Scope string_scope.
Open Scope list_scope.
Open Scope Z_scope.

Section Isolation.
Context `{Platform, !PlatformLaws, ProjectionProto, TextSearch} (config : Config).

(** ** Writes *)

(** Nothing of another tenant than [t] differs: no row of a read model, no inbox entry and no
    watermark. The checkpoints belong to no tenant. *)
Record untouched (t : string) (db db' : projection_tables) : Prop := {
  untouched_models : every_model (λ K R E C M, ∀ k,
    model_tenant M k ≠ t → model_rows M db' !! k = model_rows M db !! k);
  untouched_consumed : ∀ i e, meta_TenantID e ≠ t →
    projection_consumed db' !! i = Some e ↔ projection_consumed db !! i = Some e;
  untouched_watermarks : ∀ t', t' ≠ t →
    projection_watermarks db' !! t' = projection_watermarks db !! t';
}.

#[export] Instance untouched_preorder t : PreOrder (untouched t).
Proof.
  split.
  - intros db. split; [by apply every_model_all|done..].
  - intros db1 db2 db3 [Hm Hc Hw] [Hm' Hc' Hw']. split.
    + eapply every_model_combine; [|exact Hm|exact Hm']. cbn.
      intros K R E C M H1' H2' k Hk. by rewrite H2', H1'.
    + intros i e He. by rewrite Hc', Hc.
    + intros t' Ht. by rewrite Hw', Hw.
Qed.

Lemma upsert_ne {K R} `{Countable K} replaces (k k' : K) (row : R) m :
  k ≠ k' → upsert replaces k row m !! k' = m !! k'.
Proof.
  intros Hk. unfold upsert. destruct (m !! k) as [old|].
  - destruct (replaces old row); [by rewrite lookup_insert_ne|done].
  - by rewrite lookup_insert_ne.
Qed.

Lemma statement_untouched s sc r t db u db' :
  rls_of sc = Ok r → (∀ t', tenant_scoped r t' = true → t' = t) →
  sql_statement s sc db = Ok (u, db') → untouched t db db'.
Proof.
  intros Hr Ht Hs.
  destruct s; cbn [sql_statement] in Hs;
    first [ apply sql_put_Ok in Hs as (r' & row & Hr' & _ & Hk & _ & ->)
          | apply sql_drop_Ok in Hs as (r' & k & Hr' & _ & ->);
            destruct (tenant_scoped r' _) eqn:Hk; [|reflexivity] ];
    rewrite Hr in Hr'; injection Hr' as <-; apply Ht in Hk;
    (split; [|done..]); unfold every_model; split_and!; intros k' Hk'; try reflexivity;
    first [ apply upsert_ne | apply lookup_delete_ne ]; congruence.
Qed.

Lemma statements_untouched l sc r t db db' :
  rls_of sc = Ok r → (∀ t', tenant_scoped r t' = true → t' = t) →
  sql_statements l sc db = Ok db' → untouched t db db'.
Proof.
  intros Hr Ht. revert db. induction l as [|s l IH]; intros db; cbn [sql_statements].
  { by intros [= ->]. }
  intros ([u db1] & Hs & Hl)%result_bind_Ok. etrans; [by eapply statement_untouched|by apply IH].
Qed.

(** The scope of an event shows the rows of its tenant. *)
Lemma event_scope_tenant meta r t :
  rls_of (event_scope config meta) = Ok r → uuid_in (meta_TenantID meta) = Some t →
  ∀ t', tenant_scoped r t' = true → t' = t.
Proof.
  intros (_ & _ & Hr)%rls_of_Ok Ht t' [_ Ht']%tenant_scoped_true.
  apply Hr in Ht'. cbn in Ht'. rewrite (uuid_in_trimmed _ _ Ht), Ht in Ht'. congruence.
Qed.

Lemma same_models_untouched t db db' :
  same_models db db' → projection_consumed db' = projection_consumed db →
  projection_watermarks db' = projection_watermarks db → untouched t db db'.
Proof.
  intros Hm Hc Hw. split; [|intros; by rewrite Hc|intros; by rewrite Hw].
  eapply every_model_combine; [|exact Hm|exact Hm]. cbn. intros K R E C M -> _ k _. done.
Qed.

Lemma update_watermark_untouched meta sc t db u db' :
  uuid_in (meta_TenantID meta) = Some t → sql_update_watermark meta sc db = Ok (u, db') →
  untouched t db db'.
Proof.
  unfold sql_update_watermark. intros Ht Hw. result_inv Hw. simplify_eq.
  split; [unfold every_model; split_and!; by intros|done|]. intros t' Ht'. cbn.
  by rewrite lookup_insert_ne.
Qed.

Lemma insert_consumed_untouched meta sc t db i db' :
  uuid_in (meta_TenantID meta) = Some t → sql_insert_consumed meta sc db = Ok (Some i, db') →
  untouched t db db'.
Proof.
  intros Ht (t' & Hi & Ht' & Hnone & ->)%insert_consumed_Some. rewrite Ht in Ht'.
  injection Ht' as <-. split; [unfold every_model; split_and!; by intros| |done].
  intros j e He. cbn. destruct (decide (i = j)) as [->|Hij]; [|by rewrite lookup_insert_ne].
  rewrite lookup_insert_eq, Hnone. split; [|done]. by intros [= <-].
Qed.

Lemma update_checkpoint_untouched meta sc t db u db' :
  sql_update_checkpoint meta sc db = Ok (u, db') → untouched t db db'.
Proof.
  intros Hk. apply same_models_untouched.
  - exact (checkpoint_models _ _ _ _ _ Hk).
  - exact (update_checkpoint_consumed _ _ _ _ _ Hk).
  - exact (update_checkpoint_watermarks _ _ _ _ _ Hk).
Qed.

(** A delivery leaves the other tenants alone. *)
Lemma deliver_untouched message clock ev db r db' :
  deliver config message clock ev db = (r, db') →
  db' = db ∨ ∃ t, uuid_in (envelope_TenantId (message_Envelope message)) = Some t ∧
    untouched t db db'.
Proof.
  intros Hd%deliver_cases. destruct r as [[applied|]|]; [|by left; destruct Hd|by left].
  right. destruct Hd as (meta & f & Hm & Hc).
  assert (meta_TenantID meta = envelope_TenantId (message_Envelope message)) as <-.
  { apply decodeMessage_Ok in Hm as [Hb _]. unfold buildEventMeta in Hb. result_inv Hb.
    by simplify_eq. }
  destruct applied.
  - destruct (first_time_consumed _ _ _ _ _ Hc) as (_ & t & _ & Ht & _).
    exists t. split; [done|]. destruct Hc as (i & db1 & db2 & db3 & Hi & Hl & Hw & Hk).
    etrans; [by eapply insert_consumed_untouched|].
    assert (∃ r, rls_of (event_scope config meta) = Ok r) as [r Hr].
    { unfold sql_insert_consumed in Hi. apply result_bind_Ok in Hi as (r & ? & _). eauto. }
    etrans; [exact (statements_untouched _ _ _ _ _ _ Hr (event_scope_tenant _ _ _ Hr Ht) Hl)|].
    etrans; [by eapply update_watermark_untouched|].
    exact (update_checkpoint_untouched _ _ _ _ _ _ Hk).
  - destruct Hc as (Hi & _ & Hk).
    assert (∃ t, uuid_in (meta_TenantID meta) = Some t) as [t Ht].
    { unfold sql_insert_consumed in Hi. result_inv Hi. eauto. }
    exists t. split; [done|].
    exact (update_checkpoint_untouched _ _ _ _ _ _ Hk).
Qed.

End Isolation.

(** ** What the reads depend on

    The answer of a read depends only on the rows of the tenant it is made for: two states
    that agree on them ([agree]) are told apart by none of the five reads. *)

(** ** Methods on two states

    [alike sc sc' m]: from the states [db] and [db'], in the scope [sc] each, [m] answers the
    same and changes neither; it leaves the scope [sc']. *)

Section Alike.
Context {DB E : Type} `{Platform, !DbError E} (db db' : DB).

Record twins (sc : Scope) (s s' : session DB) : Prop := {
  twins_left : session_db s = db;
  twins_right : session_db s' = db';
  twins_scope : session_scope s = sc ∧ session_scope s' = sc;
  twins_committed : is_Some (session_committed s) ↔ is_Some (session_committed s');
  twins_ro : session_read_only s = session_read_only s';
  twins_clock : session_clock s = session_clock s';
  twins_budget : session_budget s = session_budget s';
}.

Definition alike {A} (sc sc' : Scope) (m : tx DB E A) : Prop := ∀ s s', twins sc s s' →
  (m s).1 = (m s').1 ∧ match (m s).1 with Ok _ => twins sc' (m s).2 (m s').2 | Err _ => True end.

Lemma alike_ret {A} sc (a : A) : alike sc sc (mret a).
Proof. by intros s s'. Qed.

Lemma alike_bind {A B} sc1 sc2 sc3 (m : tx DB E A) (f : A → tx DB E B) :
  alike sc1 sc2 m → (∀ a, alike sc2 sc3 (f a)) → alike sc1 sc3 (m ≫= f).
Proof.
  intros Hm Hf s s' [Hr Hs]%Hm. unfold mbind, tx_bind.
  destruct (m s) as [[a|e] s1], (m s') as [[a'|e'] s1']; cbn in *; simplify_eq; [|done].
  by apply Hf.
Qed.

Lemma alike_map_err {A} sc sc' f (m : tx DB E A) : alike sc sc' m → alike sc sc' (map_err f m).
Proof.
  intros Hm s s' [Hr Hs]%Hm. unfold map_err.
  destruct (m s) as [[a|e] s1], (m s') as [[a'|e'] s1']; cbn in *; by simplify_eq.
Qed.

(** A statement leaves related sessions, whether it succeeds or not. *)
Lemma statement_twins sc s s' : twins sc s s' →
  (statement s : result E unit * session DB).1 = (statement s').1 ∧
  twins sc (statement s : result E unit * session DB).2
           (statement s' : result E unit * session DB).2.
Proof.
  intros Hs. pose proof Hs as [Hd Hd' _ Hc Hr Hk Hb]. unfold statement.
  destruct (session_committed s) eqn:E1, (session_committed s') eqn:E2; cbn.
  - done.
  - by destruct (proj1 Hc ltac:(eauto)).
  - by destruct (proj2 Hc ltac:(eauto)).
  - rewrite <-Hb. destruct (consume (session_budget s)); cbn; [|done].
    split; [done|]. destruct Hs. split; cbn; rewrite ?E1, ?E2; done.
Qed.

Lemma alike_statement sc : alike sc sc statement.
Proof. intros s s' [Hr Hs]%statement_twins. split; [done|]. by destruct (statement s).1. Qed.

Lemma query_twins {A} sc (q : Scope → DB → result db_error A) s s' :
  q sc db = q sc db' → twins sc s s' →
  (query q s : result E A * session DB).1 = (query q s').1 ∧
  twins sc (query q s : result E A * session DB).2 (query q s' : result E A * session DB).2.
Proof.
  intros Hq [Hr Hs]%statement_twins. unfold query, mbind, tx_bind.
  destruct (statement s) as [[u|e] s1], (statement s') as [[u'|e'] s1'];
    cbn in *; simplify_eq; [|done].
  destruct Hs as [Hd Hd' [Hs Hs'] ? ? ? ?]. unfold raw, lift_db.
  rewrite Hs, Hs', Hd, Hd', <-Hq. by destruct (q sc db).
Qed.

Lemma alike_query {A} sc (q : Scope → DB → result db_error A) :
  q sc db = q sc db' → alike sc sc (query q).
Proof.
  intros Hq s s' [Hr Hs]%(query_twins sc q s s' Hq). split; [done|]. by destruct (query q s).1.
Qed.

Lemma alike_commit sc : alike sc sc commit.
Proof.
  refine (alike_bind sc sc sc statement _ (alike_statement sc) _).
  intros _ s s' [Hd Hd' Hs Hc Hr Hk Hb]. unfold raw. cbn. split; [done|].
  split; cbn; done.
Qed.

Lemma alike_Begin sc scope ro : alike sc scope (Begin scope ro).
Proof.
  assert (∀ sc1 sc2 f, (∀ s s', twins sc1 s s' → twins sc2 (f s) (f s')) →
    alike sc1 sc2 (raw (λ s, (Ok tt, f s)) : tx DB E unit)) as Hraw
    by (intros sc1 sc2 f Hf s s' Hs; split; [done|by apply Hf]).
  assert (∀ sc1, alike sc1 sc1 (lift_db (Scope_Validate scope) : tx DB E unit)) as Hvalid
    by (intros sc1 s s' Hs; unfold lift_db; cbn; by destruct (Scope_Validate scope)).
  unfold Begin, ApplyScope.
  refine (alike_bind _ sc _ _ _ (Hvalid sc) _). intros _.
  refine (alike_bind _ sc _ _ _ (alike_statement sc) _). intros _.
  refine (alike_bind _ no_scope _ _ _ (Hraw _ _ _ _) _);
    [by intros s s' [? ? ? ? ? ? ?]; split|]. intros _.
  refine (alike_bind _ no_scope _ _ _ (Hvalid _) _). intros _.
  refine (alike_bind _ no_scope _ _ _ (alike_statement _) _). intros _.
  apply Hraw. by intros s s' [? ? ? ? ? ? ?]; split.
Qed.

Lemma alike_run {A} sc' (m : tx DB E A) ev :
  alike no_scope sc' m → (run m db ev).1 = (run m db' ev).1.
Proof.
  intros Hm. unfold run. destruct (Hm (new_session db ev) (new_session db' ev)) as [Hr _].
  { by split. }
  by destruct (m (new_session db ev)), (m (new_session db' ev)).
Qed.

End Alike.

(** ** The rows of one tenant *)

Section Reads.
Context `{Platform, !PlatformLaws, ProjectionProto, TextSearch}.

(** [db] and [db'] hold the same rows and the same watermark of the tenant. *)
Record agree (tenantID : string) (db db' : projection_tables) : Prop := {
  agree_models : every_model (λ K R E C M, ∀ k,
    uuid_in (TrimSpace tenantID) = Some (model_tenant M k) →
    model_rows M db' !! k = model_rows M db !! k);
  agree_watermark : ∀ t, uuid_in tenantID = Some t →
    projection_watermarks db' !! t = projection_watermarks db !! t;
}.

Lemma untouched_agree t tenantID db db' :
  untouched t db db' → uuid_in (TrimSpace tenantID) ≠ Some t → agree tenantID db db'.
Proof.
  intros [Hm _ Hw] Hne. split.
  - eapply every_model_combine; [|exact Hm|exact Hm]. cbn.
    intros K R E C M Hk _ k Hu. apply Hk. congruence.
  - intros t' Ht. apply Hw. intros ->. by rewrite (uuid_in_trimmed _ _ Ht) in Hne.
Qed.

Lemma agree_refl tenantID db : agree tenantID db db.
Proof. split; [by apply every_model_all|done]. Qed.

(** The scope of a user shows the rows of its tenant. *)
Lemma user_scope_tenant tenantID actor rq co r t :
  rls_of (TenantScope tenantID actor rq co) = Ok r → tenant_scoped r t = true →
  uuid_in (TrimSpace tenantID) = Some t.
Proof. intros (_ & _ & Hr)%rls_of_Ok [_ Ht]%tenant_scoped_true. by apply Hr in Ht. Qed.

Lemma visible_agree {K R} `{Countable K} (M : read_model K R) (r : rls) (tenantID : string)
    db db' :
  (∀ t, tenant_scoped r t = true → uuid_in (TrimSpace tenantID) = Some t) →
  (∀ k, uuid_in (TrimSpace tenantID) = Some (model_tenant M k) →
        model_rows M db' !! k = model_rows M db !! k) →
  visible M r db' = visible M r db.
Proof.
  intros Hr Hm. unfold visible. do 2 f_equal. apply map_eq. intros k.
  apply option_eq. intros row. rewrite !map_lookup_filter_Some. cbn.
  split; intros [Hk Ht]; (split; [|done]);
    [rewrite <-Hm by eauto|rewrite Hm by eauto]; done.
Qed.

Section Agree.
Context (tenantID actorUserID requestID correlationID : string) (db db' : projection_tables).
Hypothesis Hagree : agree tenantID db db'.
#[local] Notation scope := (TenantScope tenantID actorUserID requestID correlationID).

Lemma every_visible_agree r : rls_of scope = Ok r →
  every_model (λ K R E C M, visible M r db' = visible M r db).
Proof.
  intros Hr. eapply every_model_combine; [|apply (agree_models _ _ _ Hagree)..]. cbn.
  intros K R E C M Hk _. apply visible_agree with tenantID; [|done].
  intros t. by apply user_scope_tenant with actorUserID requestID correlationID.
Qed.

(** A statement that reads the visible rows of the read models. *)
Ltac reads_visible Hr :=
  destruct (rls_of scope) as [r|] eqn:Hr; cbn; [|reflexivity];
  destruct (every_visible_agree r Hr) as
    (Htenants & Hcompanies & Hagents & Hgoals & Hprojects & Htasks & Hdependencies &
     Hassignments & Hactivity & Hdocuments).

Lemma dashboard_agree : sql_dashboard scope db' = sql_dashboard scope db.
Proof.
  unfold sql_dashboard. reads_visible Hr.
  by rewrite Hcompanies, Hagents, Hgoals, Hprojects, Htasks, Hdependencies.
Qed.

Lemma company_overview_agree companyID :
  sql_company_overview companyID scope db' = sql_company_overview companyID scope db.
Proof.
  unfold sql_company_overview. reads_visible Hr.
  by rewrite Hcompanies, Hagents, Htasks, Hdependencies.
Qed.

Lemma agent_overviews_agree companyID limit cursor :
  sql_agent_overviews companyID limit cursor scope db' =
  sql_agent_overviews companyID limit cursor scope db.
Proof. unfold sql_agent_overviews. reads_visible Hr. by rewrite Hagents, Hassignments, Htasks. Qed.

Lemma activity_agree companyID taskID limit cursor :
  sql_activity companyID taskID limit cursor scope db' =
  sql_activity companyID taskID limit cursor scope db.
Proof. unfold sql_activity. reads_visible Hr. by rewrite Hactivity. Qed.

Lemma search_agree query companyID types limit cursor :
  sql_search query companyID types limit cursor scope db' =
  sql_search query companyID types limit cursor scope db.
Proof. unfold sql_search. reads_visible Hr. by rewrite Hdocuments. Qed.

Lemma watermark_agree : sql_watermark tenantID scope db' = sql_watermark tenantID scope db.
Proof.
  unfold sql_watermark, cast. destruct (rls_of scope) as [r|]; cbn; [|done].
  destruct (uuid_in tenantID) as [t|] eqn:Ht; cbn; [|done].
  by rewrite (agree_watermark _ _ _ Hagree t Ht).
Qed.

Lemma alike_read {A B} (m : repo A) (f : A → ProjectionMetadata → B) :
  alike db db' scope scope m →
  alike db db' no_scope scope
    (Begin scope true;; a ← m; w ← readTenantWatermark tenantID; commit;; mret (f a w)).
Proof.
  intros Hm. refine (alike_bind _ _ _ scope _ _ _ (alike_Begin _ _ _ _ _) _). intros _.
  refine (alike_bind _ _ _ scope _ _ _ Hm _). intros a.
  refine (alike_bind _ _ _ scope _ _ _ _ _).
  { intros s s' Hs. unfold readTenantWatermark.
    destruct (query_twins db db' scope (sql_watermark tenantID) s s' (eq_sym watermark_agree) Hs)
      as [Hr Hs'].
    destruct (query _ s) as [x1 s1], (query _ s') as [x2 s2]. cbn in Hr, Hs'. subst x2.
    destruct x1 as [w|[| | | | |[]|]]; by split. }
  intros w. refine (alike_bind _ _ _ scope _ _ _ (alike_commit _ _ _) _). intros _.
  apply alike_ret.
Qed.

End Agree.

(** [m] answers the same from [db] and [db']. *)
Definition same_answer {A} (db db' : projection_tables) (m : repo A) : Prop :=
  ∀ ev, (run m db ev).1 = (run m db' ev).1.

(** The five reads of the tenant do. *)
Record same_answers (tenantID : string) (db db' : projection_tables) : Prop := {
  same_dashboard ctx actor :
    same_answer db db' (ProjectionRepository.GetDashboardSummary ctx actor tenantID);
  same_overview ctx actor companyID :
    same_answer db db' (ProjectionRepository.GetCompanyOverview ctx actor tenantID companyID);
  same_agents ctx actor companyID pageSize cursor :
    same_answer db db'
      (ProjectionRepository.ListAgentOverviews ctx actor tenantID companyID pageSize cursor);
  same_activity ctx actor companyID taskID pageSize cursor :
    same_answer db db'
      (ProjectionRepository.ListTaskActivity ctx actor tenantID companyID taskID pageSize
         cursor);
  same_search ctx actor query companyID types pageSize cursor :
    same_answer db db'
      (ProjectionRepository.Search ctx actor tenantID query companyID types pageSize cursor);
}.

Lemma read_same_answer {A B} tenantID actor rq co db db' (m : repo A)
    (f : A → ProjectionMetadata → B) :
  agree tenantID db db' → alike db db' (TenantScope tenantID actor rq co)
    (TenantScope tenantID actor rq co) m →
  same_answer db db' (Begin (TenantScope tenantID actor rq co) true;; a ← m;
    w ← readTenantWatermark tenantID; commit;; mret (f a w)).
Proof. intros Ha Hm ev. eapply alike_run, alike_read; done. Qed.

Lemma agree_answers tenantID db db' :
  agree tenantID db db' → same_answers tenantID db db'.
Proof.
  intros Ha. split; intros; apply read_same_answer; try done;
    try apply alike_map_err; apply alike_query; symmetry.
  - by apply dashboard_agree.
  - by apply company_overview_agree.
  - by apply agent_overviews_agree.
  - by apply activity_agree.
  - by apply search_agree.
Qed.

(** A delivery of an event of another tenant changes no answer. *)
Lemma deliver_answers config message clock ev db r db' tenantID :
  deliver config message clock ev db = (r, db') →
  (∀ t, uuid_in (envelope_TenantId (message_Envelope message)) = Some t →
        uuid_in (TrimSpace tenantID) ≠ Some t) →
  same_answers tenantID db db'.
Proof.
  intros [->|(t & Ht & Hu)]%deliver_untouched Hne; apply agree_answers; [apply agree_refl|].
  apply untouched_agree with t; auto.
Qed.

End Reads.
