(* ===== verification/ProjectionPaging.v ===== *)
(** * Projections: keyset pages

    The order of keys, and the pages that [keyset_page] cuts from a list of rows with distinct
    keys. *)

From S2P Require Import Prelude GoStrings Postgres Usecase Outbox Consumer.
From S2P Require Import ProjectionDomain ProjectionStore ProjectionRepository.
From S2P Require Import ProjectionService ProjectionHistory ProjectionCurrent.
From S2P Require Import ProjectionIsolation.
From stdpp Require Import strings gmap list sorting.
From Stdlib Require Import String Ascii Lia.
Open Scope string_scope.
Open Scope list_scope.
Open Scope Z_scope.

(** ** The order of strings and keys *)

Lemma ascii_compare_trans a b c x :
  Ascii.compare a b = x → Ascii.compare b c = x → Ascii.compare a c = x.
Proof.
  unfold Ascii.compare. destruct x; rewrite ?N.compare_eq_iff, ?N.compare_lt_iff, ?N.compare_gt_iff; lia.
Qed.

Lemma string_compare_trans a b c x :
  String.compare a b = x → String.compare b c = x → String.compare a c = x.
Proof.
  revert b c. induction a as [|p a IH]; intros [|q b] [|r c]; cbn; try (by intros <-);
    try congruence.
  intros Hab Hbc.
  destruct (Ascii.compare p q) eqn:Hpq, (Ascii.compare q r) eqn:Hqr; subst; try done;
    try (rewrite (ascii_compare_trans _ _ _ _ Hpq Hqr); eauto; done).
  all: try (apply Ascii.compare_eq_iff in Hpq as ->);
    try (apply Ascii.compare_eq_iff in Hqr as ->); rewrite ?Hqr, ?Hpq; congruence.
Qed.

Lemma string_compare_refl a : String.compare a a = Eq.
Proof.
  pose proof (String.compare_antisym a a) as Ha. by destruct (String.compare a a).
Qed.

Lemma key_lt_spec a b :
  key_lt a b = true ↔ a.1 < b.1 ∨ a.1 = b.1 ∧ String.compare a.2 b.2 = Lt.
Proof.
  unfold key_lt, String.ltb.
  rewrite orb_true_iff, andb_true_iff, Z.ltb_lt, Z.eqb_eq.
  destruct (String.compare a.2 b.2); naive_solver.
Qed.

Lemma key_lt_irrefl a : key_lt a a = false.
Proof.
  apply not_true_is_false. rewrite key_lt_spec, string_compare_refl. intros [|[_ [=]]]. lia.
Qed.

Lemma key_lt_trans a b c : key_lt a b = true → key_lt b c = true → key_lt a c = true.
Proof.
  rewrite !key_lt_spec. intros [Hab|[Hab Ha]] [Hbc|[Hbc Hb]]; [left; lia..|].
  right. split; [lia|]. by eapply string_compare_trans.
Qed.

Lemma key_lt_total a b : key_lt a b = true ∨ a = b ∨ key_lt b a = true.
Proof.
  rewrite !key_lt_spec. destruct (Z.lt_total a.1 b.1) as [?|[Hz|?]]; [by auto| |by auto].
  rewrite (String.compare_antisym b.2 a.2).
  destruct (String.compare a.2 b.2) eqn:Hs; [right; left| by auto |right; right; right; auto].
  apply String.compare_eq_iff in Hs. destruct a, b; cbn in *; congruence.
Qed.

Lemma key_lt_asym a b : key_lt a b = true → key_lt b a = false.
Proof.
  intros Hab. destruct (key_lt b a) eqn:Hba; [|done].
  by rewrite <-(key_lt_irrefl a), (key_lt_trans _ _ _ Hab Hba).
Qed.

Lemma key_le_spec a b : key_le a b = true ↔ key_lt a b = true ∨ a = b.
Proof.
  unfold key_le. destruct (key_lt_total a b) as [Hl|[->|Hl]].
  - rewrite (key_lt_asym _ _ Hl). naive_solver.
  - rewrite key_lt_irrefl. naive_solver.
  - rewrite Hl, (key_lt_asym _ _ Hl). cbn. split; [done|]. intros [?| ->]; [done|].
    by rewrite key_lt_irrefl in Hl.
Qed.

Lemma filter_all {A} (l : list A) : List.filter (λ _, true) l = l.
Proof. induction l; cbn; congruence. Qed.

Lemma filter_perm {A} (p : A → bool) l l' : l ≡ₚ l' → List.filter p l ≡ₚ List.filter p l'.
Proof.
  induction 1 as [|x l l' _ IH|x y l|l1 l2 l3 _ IH1 _ IH2]; cbn.
  - done.
  - destruct (p x); [by constructor|done].
  - destruct (p x), (p y); try done. constructor.
  - by etrans.
Qed.

(** ** Pages of rows with distinct keys *)

Section Keyset.
Context {R : Type} (k : R → key).

#[local] Instance newest_first_trans : Transitive (newest_first k).
Proof.
  intros a b c. unfold newest_first. rewrite !key_le_spec.
  intros [Hab|Hab] [Hbc|Hbc].
  - left. by eapply key_lt_trans.
  - left. by rewrite Hbc.
  - left. by rewrite <-Hab.
  - right. congruence.
Qed.
#[local] Instance newest_first_total : Total (newest_first k).
Proof.
  intros a b. unfold newest_first. rewrite !key_le_spec.
  destruct (key_lt_total (k a) (k b)) as [?|[?|?]]; auto.
Qed.

(** Every key is greater than those that follow. *)
Definition descending : list R → Prop :=
  StronglySorted (λ a b, key_lt (k b) (k a) = true).

Definition listing (rows : list R) : list R := merge_sort (newest_first k) rows.

Lemma descending_unique l l' : descending l → descending l' → l ≡ₚ l' → l = l'.
Proof.
  intros Hl Hl'. apply StronglySorted_unique_strong with (λ a b, key_lt (k b) (k a) = true);
    [|done|done].
  intros a b _ _ Hab Hba. by rewrite (key_lt_asym _ _ Hab) in Hba.
Qed.

Lemma listing_descending rows : NoDup (k <$> rows) → descending (listing rows).
Proof.
  intros Hnd. assert (NoDup (k <$> listing rows)) as Hl.
  { unfold listing. by rewrite merge_sort_Permutation. }
  pose proof (StronglySorted_merge_sort (newest_first k) rows) as Hs.
  fold (listing rows) in Hs. unfold descending.
  induction Hs as [|a l Hs IH Ha]; [constructor|]. cbn in Hl. apply NoDup_cons in Hl as [Hal Hl].
  constructor; [by apply IH|]. rewrite Forall_forall in Ha |- *. intros b Hb.
  destruct (proj1 (key_le_spec _ _) (Ha b Hb)) as [?|He]; [done|].
  destruct Hal. rewrite <-He. by apply list_elem_of_fmap_2.
Qed.

(** The rows below the key of the row at position [m] are those after it. *)
Lemma filter_before l m x :
  descending l → l !! m = Some x →
  List.filter (λ row, before (Some (k x)) (k row)) l = drop (S m) l.
Proof.
  intros Hl. revert m. induction Hl as [|a l Hl IH Ha]; intros m Hm; [done|].
  rewrite Forall_forall in Ha. destruct m as [|m]; cbn in Hm |- *.
  - injection Hm as ->. rewrite key_lt_irrefl, drop_0.
    clear IH Hl. induction l as [|b l IH]; [done|]. cbn.
    rewrite (Ha b) by set_solver. f_equal. apply IH. intros c Hc. apply Ha. set_solver.
  - assert (key_lt (k x) (k a) = true) as Hx by (apply Ha; by eapply list_elem_of_lookup_2).
    rewrite (key_lt_asym _ _ Hx). by apply IH.
Qed.

(** ** Following the cursors *)

Context (rows : list R) (size : Z) (Hsize : 0 < size) (Hnd : NoDup (k <$> rows)).

(** The cursor that stands before position [o] of the listing. *)
Definition cursor_at (o : nat) (c : option key) : Prop :=
  o = O ∧ c = None ∨ ∃ m x, o = S m ∧ listing rows !! m = Some x ∧ c = Some (k x).

Lemma keyset_page_at limit o c :
  cursor_at o c → keyset_page k limit c rows = take (Z.to_nat limit) (drop o (listing rows)).
Proof.
  intros [[-> ->]|(m & x & -> & Hx & ->)]; unfold keyset_page; f_equal.
  - rewrite drop_0. unfold listing. f_equal. apply filter_all.
  - pose proof (listing_descending _ Hnd) as Hl.
    rewrite <-(filter_before _ _ _ Hl Hx). apply descending_unique.
    + apply listing_descending. by apply NoDup_fmap_filter.
    + rewrite (filter_before _ _ _ Hl Hx). unfold descending in *.
      rewrite <-(take_drop (S m) (listing rows)) in Hl. by apply StronglySorted_app_1_r in Hl.
    + rewrite merge_sort_Permutation. apply filter_perm. unfold listing.
      by rewrite merge_sort_Permutation.
Qed.

Definition row_count : nat := List.length (listing rows).

(** One page, and where its cursor stands. *)
Lemma cut_page_at o c :
  cursor_at o c → (o < row_count)%nat ∨ row_count = O →
  let p := cut_page k size c (keyset_page k (size + 1) c rows) in
  p.1 = take (Z.to_nat size) (drop o (listing rows)) ∧
  if (o + Z.to_nat size <? row_count)%nat
  then p.2 ≠ None ∧ cursor_at (o + Z.to_nat size) p.2 else p.2 = c.
Proof.
  intros Hc Ho. rewrite (keyset_page_at _ _ _ Hc). unfold cut_page, row_count in *.
  replace (Z.to_nat (size + 1)) with (S (Z.to_nat size)) by lia.
  rewrite length_take, length_drop.
  destruct (Nat.ltb_spec (o + Z.to_nat size) (List.length (listing rows))) as [Hlt|Hge].
  - destruct (Z.ltb_spec size (Z.of_nat (S (Z.to_nat size) `min`
      (List.length (listing rows) - o)))) as [_|]; [|lia].
    rewrite take_take. replace (Z.to_nat size `min` S (Z.to_nat size))%nat
      with (Z.to_nat size) by lia. cbn [fst snd]. split; [done|].
    destruct (Z.to_nat size) as [|n] eqn:Hn; [lia|].
    destruct (listing rows !! (o + n)%nat) as [x|] eqn:Hx;
      [|apply lookup_ge_None in Hx; lia].
    assert (last (take (S n) (drop o (listing rows))) = Some x) as ->.
    { rewrite last_lookup, length_take, length_drop.
      replace (Nat.pred (S n `min` (List.length (listing rows) - o))) with n by lia.
      rewrite lookup_take_lt by lia. by rewrite lookup_drop. }
    cbn. split; [done|]. right. exists (o + n)%nat, x. split_and!; [lia|done|done].
  - destruct (Z.ltb_spec size (Z.of_nat (S (Z.to_nat size) `min`
      (List.length (listing rows) - o)))) as [|_]; [lia|]. cbn [fst snd].
    split; [|done]. rewrite !take_ge by (rewrite length_drop; lia). done.
Qed.

(** The cursor after [n] pages, each read with the cursor of the page before. *)
Fixpoint nth_cursor (n : nat) : option key :=
  match n with
  | O => None
  | S n => (cut_page k size (nth_cursor n) (keyset_page k (size + 1) (nth_cursor n) rows)).2
  end.
Definition nth_page (n : nat) : list R :=
  (cut_page k size (nth_cursor n) (keyset_page k (size + 1) (nth_cursor n) rows)).1.

(** The number of the last page. *)
Definition last_page : nat := ((row_count - 1) / Z.to_nat size)%nat.

Lemma last_page_spec n :
  (n `min` last_page * Z.to_nat size + Z.to_nat size <? row_count)%nat = (n <? last_page)%nat
  ∧ ((n `min` last_page * Z.to_nat size < row_count)%nat ∨ row_count = O).
Proof.
  unfold last_page. set (s := Z.to_nat size). assert (0 < s)%nat as Hs by (unfold s; lia).
  pose proof (Nat.div_mod (row_count - 1) s ltac:(lia)) as Hdiv.
  pose proof (Nat.mod_upper_bound (row_count - 1) s ltac:(lia)) as Hmod.
  set (q := ((row_count - 1) / s)%nat) in *. split.
  - destruct (Nat.ltb_spec n q) as [Hn|Hn].
    + apply Nat.ltb_lt. rewrite Nat.min_l by lia. nia.
    + apply Nat.ltb_ge. rewrite Nat.min_r by lia. nia.
  - destruct (decide (row_count = O)) as [|Ht]; [by right|left].
    assert (n `min` q ≤ q)%nat by lia. nia.
Qed.

Lemma nth_cursor_at n : cursor_at (n `min` last_page * Z.to_nat size) (nth_cursor n).
Proof.
  induction n as [|n IH]; [by left|].
  destruct (last_page_spec n) as [Hlt Ho].
  destruct (cut_page_at _ _ IH Ho) as [_ Hnext]. rewrite Hlt in Hnext. cbn [nth_cursor].
  destruct (Nat.ltb_spec n last_page) as [Hn|Hn].
  - destruct Hnext as [_ Hnext]. replace (S n `min` last_page)%nat with (S n) by lia.
    rewrite Nat.min_l in Hnext by lia. by replace (S n * Z.to_nat size)%nat
      with (n * Z.to_nat size + Z.to_nat size)%nat by lia.
  - rewrite Hnext. by replace (S n `min` last_page)%nat with (n `min` last_page)%nat by lia.
Qed.

(** Page [n] is the [n]th slice of the listing; from the last page on every page is the last
    one. *)
Lemma nth_page_spec n :
  nth_page n = take (Z.to_nat size)
    (drop (n `min` last_page * Z.to_nat size) (listing rows)).
Proof. apply cut_page_at; [apply nth_cursor_at|apply last_page_spec]. Qed.

(** The first pages, up to the last one, are the listing. *)
Lemma pages_listing :
  mjoin (nth_page <$> seq 0 (S last_page)) = listing rows.
Proof.
  assert (∀ n, (n ≤ S last_page)%nat →
    mjoin (nth_page <$> seq 0 n) = take (n * Z.to_nat size) (listing rows)) as Hpre.
  { induction n as [|n IH]; intros Hn; [by rewrite take_0|].
    rewrite seq_S, fmap_app, join_app, IH by lia. cbn. rewrite app_nil_r, nth_page_spec.
    rewrite Nat.min_l by lia. rewrite Nat.add_comm, <-(take_take_drop). done. }
  rewrite Hpre by lia. apply take_ge.
  destruct (last_page_spec last_page) as [Hlt _]. rewrite Nat.ltb_irrefl, Nat.min_id in Hlt.
  apply Nat.ltb_ge in Hlt. unfold row_count in *. lia.
Qed.

(** With more rows than a page holds, no cursor after the first page is absent. *)
Lemma nth_cursor_present n : (Z.to_nat size < row_count)%nat → nth_cursor (S n) ≠ None.
Proof.
  intros Hmore. assert (0 < last_page)%nat as Hlast.
  { unfold last_page. apply Nat.div_str_pos. lia. }
  pose proof (nth_cursor_at (S n)) as [[Ho _]|(m & x & _ & _ & ->)]; [|done].
  destruct (S n `min` last_page)%nat eqn:Hmin; [lia|]. nia.
Qed.

End Keyset.

(** ** The lists that page tokens walk

    The rows of the read models that a scope shows, their keys, and what the list methods
    return on a working connection when each request carries the cursor of the answer
    before. *)

Section Listing.
Context `{Platform, !PlatformLaws, ProjectionProto, TextSearch} (config : Config).

(** ** Rows are typed

    A row stands under its key, holds values of the types of its columns (the casts leave it
    as it is), and passes the checks of its table. *)
Definition typed_rows (db : projection_tables) {K R} `{Countable K} (M : read_model K R)
  : Prop := ∀ k row, model_rows M db !! k = Some row →
  model_key M row = k ∧ model_cast M row = Ok row ∧ model_check M row = true.

Definition well_typed (db : projection_tables) : Prop :=
  every_model (λ K R E C M, typed_rows db M).

Lemma cast_canonical s u : uuid_in s = Some u → cast u = Ok u.
Proof. intros Hu%uuid_in_canonical. unfold cast. by rewrite Hu. Qed.

Lemma cast_option_idem o o' : cast_option o = Ok o' → cast_option o' = Ok o'.
Proof.
  destruct o as [s|]; cbn; [|by intros [= <-]].
  intros (u & Hu%from_option_err_Ok & [= <-])%result_bind_Ok. cbn.
  by rewrite (cast_canonical _ _ Hu).
Qed.

Lemma bigint_id v w : bigint v = Ok w → w = v.
Proof. unfold bigint. intros Hv. result_inv Hv. congruence. Qed.

Lemma source_row_idem s s' : source_row s = Ok s' → source_row s' = Ok s'.
Proof.
  unfold source_row. intros Hs. result_inv Hs. simplify_eq. cbn.
  match goal with E : bigint _ = Ok _ |- _ => pose proof (bigint_id _ _ E) as ->; rewrite E end.
  match goal with E : uuid_in _ = Some _ |- _ => rewrite (cast_canonical _ _ E) end.
  cbn. by rewrite !timestamptz_idem.
Qed.

(** What a cast returns is cast to itself. *)
Definition cast_stable {K R} `{Countable K} (M : read_model K R) : Prop := ∀ v row,
  model_cast M v = Ok row → model_cast M row = Ok row.

Ltac stable row_of :=
  intros v row; cbn; unfold row_of; intros Hc; result_inv Hc; simplify_eq; cbn;
  repeat match goal with
  | E : uuid_in _ = Some ?u |- context [cast ?u] => rewrite (cast_canonical _ _ E); cbn
  | E : cast_option _ = Ok ?o |- context [cast_option ?o] =>
      rewrite (cast_option_idem _ _ E); cbn
  | E : source_row _ = Ok ?s |- context [source_row ?s] =>
      rewrite (source_row_idem _ _ E); cbn
  end; by rewrite ?timestamptz_idem.

Lemma every_cast_stable : every_model (λ K R E C M, cast_stable M).
Proof.
  unfold every_model. split_and!.
  - stable (@tenant_row).
  - stable (@company_row).
  - stable (@agent_row).
  - stable (@goal_row).
  - stable (@project_row).
  - stable (@task_row).
  - stable (@dependency_row).
  - stable (@assignment_row).
  - stable (@activity_row).
  - stable (@document_row).
Qed.

Lemma upsert_typed {K R} `{Countable K} (M : read_model K R) db row v :
  cast_stable M → typed_rows db M → model_cast M v = Ok row → model_check M row = true →
  ∀ k r, upsert (model_replaces M) (model_key M row) row (model_rows M db) !! k = Some r →
    model_key M r = k ∧ model_cast M r = Ok r ∧ model_check M r = true.
Proof.
  intros Hs Hdb Hv Hc k r.
  destruct (decide (model_key M row = k)) as [<-|Hk]; [|rewrite upsert_ne by done; apply Hdb].
  unfold upsert. destruct (model_rows M db !! model_key M row) as [old|] eqn:Ho;
    [destruct (model_replaces M old row)|];
    rewrite ?lookup_insert_eq, ?Ho; intros [= <-]; eauto.
Qed.

Lemma delete_typed {K R} `{Countable K} (M : read_model K R) db k' :
  typed_rows db M → ∀ k r, delete k' (model_rows M db) !! k = Some r →
    model_key M r = k ∧ model_cast M r = Ok r ∧ model_check M r = true.
Proof. intros Hdb k r [_ Hr]%lookup_delete_Some. by apply Hdb. Qed.

Lemma statement_typed s sc db u db' :
  sql_statement s sc db = Ok (u, db') → well_typed db → well_typed db'.
Proof.
  intros Hs (H1'&H2'&H3'&H4'&H5'&H6'&H7'&H8'&H9'&H10').
  destruct every_cast_stable as (S1&S2&S3&S4&S5&S6&S7&S8&S9&S10).
  destruct s; cbn [sql_statement] in Hs;
    first [ apply sql_put_Ok in Hs as (r & row & _ & Hv & _ & Hc & ->)
          | apply sql_drop_Ok in Hs as (r & k & _ & _ & ->);
            destruct (tenant_scoped r _); [|done] ];
    (split; [|split; [|split; [|split; [|split; [|split; [|split; [|split; [|split]]]]]]]]);
    first [ exact H1' | exact H2' | exact H3' | exact H4' | exact H5' | exact H6' | exact H7'
          | exact H8' | exact H9' | exact H10' | idtac ].
  - exact (upsert_typed _ _ _ _ S1 H1' Hv Hc).
  - exact (upsert_typed _ _ _ _ S2 H2' Hv Hc).
  - exact (upsert_typed _ _ _ _ S3 H3' Hv Hc).
  - exact (upsert_typed _ _ _ _ S4 H4' Hv Hc).
  - exact (upsert_typed _ _ _ _ S5 H5' Hv Hc).
  - exact (upsert_typed _ _ _ _ S6 H6' Hv Hc).
  - exact (upsert_typed _ _ _ _ S7 H7' Hv Hc).
  - exact (delete_typed _ _ _ H7').
  - exact (upsert_typed _ _ _ _ S8 H8' Hv Hc).
  - exact (delete_typed _ _ _ H8').
  - exact (upsert_typed _ _ _ _ S9 H9' Hv Hc).
  - exact (upsert_typed _ _ _ _ S10 H10' Hv Hc).
Qed.

Lemma statements_typed l sc db db' :
  sql_statements l sc db = Ok db' → well_typed db → well_typed db'.
Proof.
  revert db. induction l as [|s l IH]; intros db; cbn [sql_statements]; [by intros [= ->]|].
  intros ([u db1] & Hs & Hl)%result_bind_Ok Hdb. eapply IH; [exact Hl|].
  by eapply statement_typed.
Qed.

Lemma same_models_typed db db' : same_models db db' → well_typed db → well_typed db'.
Proof.
  intros Hm Ht. eapply every_model_combine; [|exact Hm|exact Ht]. cbn.
  intros K R E C M Heq Hrows k row. rewrite Heq. apply Hrows.
Qed.

Lemma reached_typed h db : reached config h db → well_typed db.
Proof.
  induction 1 as [|h db message clock ev r db' _ IH Hd].
  { unfold well_typed, every_model, typed_rows. split_and!; cbn; intros k row; by rewrite lookup_empty. }
  apply deliver_cases in Hd. destruct r as [[[]|]|]; [| |by destruct Hd as [-> _]|by subst].
  - destruct Hd as (meta & f & _ & i & db1 & db2 & db3 & Hi%consumed_models & Hl &
      Hw%watermark_models & Hk%checkpoint_models).
    eapply same_models_typed; [exact Hk|]. eapply same_models_typed; [exact Hw|].
    eapply statements_typed; [exact Hl|]. by eapply same_models_typed.
  - destruct Hd as (meta & f & _ & _ & _ & Hk%checkpoint_models). by eapply same_models_typed.
Qed.

(** ** The rows that a scope shows *)

(** The rows that a scope shows have distinct keys, also without the tenant. *)
Lemma visible_distinct {K R} `{Countable K} (M : read_model K R) db r {A} (f : R → A) :
  typed_rows db M →
  (∀ x y, f x = f y → model_tenant M (model_key M x) = model_tenant M (model_key M y) →
          model_key M x = model_key M y) →
  NoDup (f <$> visible M r db).
Proof.
  intros HM Hf. unfold visible. rewrite <-list_fmap_compose.
  apply NoDup_fmap_2_strong; [|apply NoDup_map_to_list].
  intros [k1 r1] [k2 r2] Hin1 Hin2 Heq. cbn in Heq.
  apply elem_of_map_to_list, map_lookup_filter_Some in Hin1 as [Hr1 Ht1], Hin2 as [Hr2 Ht2].
  cbn in Ht1, Ht2. destruct (HM _ _ Hr1) as [Hk1 _], (HM _ _ Hr2) as [Hk2 _].
  apply tenant_scoped_true in Ht1 as [_ Ht1], Ht2 as [_ Ht2].
  assert (k1 = k2) as -> by (rewrite <-Hk1, <-Hk2; apply Hf; [done|congruence]).
  congruence.
Qed.

Lemma elem_of_visible {K R} `{Countable K} (M : read_model K R) r db row :
  row ∈ visible M r db ↔
  ∃ k, model_rows M db !! k = Some row ∧ tenant_scoped r (model_tenant M k) = true.
Proof.
  unfold visible. rewrite list_elem_of_fmap. split.
  - intros ([k x] & -> & Hx). apply elem_of_map_to_list, map_lookup_filter_Some in Hx. eauto.
  - intros (k & Hk & Ht). exists (k, row). split; [done|].
    by apply elem_of_map_to_list, map_lookup_filter_Some.
Qed.

(** A cursor that is a key of the table comes back as it was. *)
Definition steady (c : key) : Prop := timestamptz c.1 = c.1 ∧ uuid_in c.2 = Some c.2.

Lemma cast_key_steady c : (∀ k, c = Some k → steady k) → cast_key c = Ok c.
Proof.
  intros Hc. destruct c as [[t i]|]; [|done]. destruct (Hc _ eq_refl) as [Ht Hi]. cbn in *.
  unfold cast. by rewrite Hi, Ht.
Qed.

(** ** One request *)

(** The rows that a list answers from, each with a key that no other row has and that a page
    token carries unchanged. *)
Record listed {R} (k : R → key) (rows : list R) : Prop := {
  listed_distinct : NoDup (k <$> rows);
  listed_steady : ∀ row, row ∈ rows → steady (k row);
}.

Lemma readTenantWatermark_at_work tenantID t sc db ro clock r :
  rls_of sc = Ok r → uuid_in tenantID = Some t → ∃ w,
  (readTenantWatermark tenantID : repo _) (at_work db sc ro clock) = (Ok w, at_work db sc ro clock).
Proof.
  intros Hr Ht. unfold readTenantWatermark, query, raw, lift_db, mbind, tx_bind, sql_watermark, cast.
  cbn. rewrite Hr, Ht. cbn. destruct (projection_watermarks db !! t) as [w|]; cbn; [|eauto].
  destruct (tenant_scoped r t); cbn; eauto.
Qed.

Section Walk.
Context {R : Type} (k : R → key) (rows : list R) (size : Z).
Context (tenantID actorUserID t : string) (ctx : Ctx) (r : rls).
Context (db : projection_tables) (ev : env).
#[local] Notation scope := (TenantScope tenantID actorUserID (ctx_RequestID ctx)
                              (ctx_CorrelationID ctx)).
Context (q : Z → option key → Scope → projection_tables → result db_error (list R)).
Hypothesis Hscope : Scope_Validate scope = Ok tt.
Hypothesis Hrls : rls_of scope = Ok r.
Hypothesis Htenant : uuid_in tenantID = Some t.
Hypothesis Hev : env_budget ev = None.
Hypothesis Hsize : 0 < size.
Hypothesis Hrows : listed k rows.
Hypothesis Hq : ∀ limit c, (∀ x, c = Some x → steady x) →
  q limit c scope db = Ok (keyset_page k limit c rows).

Lemma cursor_at_steady o c : cursor_at k rows o c → ∀ x, c = Some x → steady x.
Proof.
  intros [[_ ->]|(m & row & _ & Hrow & ->)] x; [done|]. intros [= <-].
  apply (listed_steady _ _ Hrows). apply list_elem_of_lookup_2 in Hrow. unfold listing in Hrow.
  by rewrite merge_sort_Permutation in Hrow.
Qed.

Lemma list_page_answer c : (∀ x, c = Some x → steady x) → ∃ w,
  run (list_page ctx actorUserID tenantID (q (size + 1) c) k size c) db ev =
    (Ok (cut_page k size c (keyset_page k (size + 1) c rows), w), db).
Proof.
  intros Hc. destruct (readTenantWatermark_at_work tenantID t scope db true (env_clock ev) r Hrls
    Htenant) as [w Hw].
  exists w. unfold run. rewrite new_session_at_work by done.
  unfold list_page, beginUserTenant.
  rewrite (tx_bind_step _ _ _ tt (at_work db scope true (env_clock ev)))
    by (by apply Begin_at_work).
  rewrite (tx_bind_step _ _ _ (keyset_page k (size + 1) c rows)
    (at_work db scope true (env_clock ev))) by (by apply query_at_work, Hq).
  by rewrite (tx_bind_step _ _ _ w (at_work db scope true (env_clock ev))) by exact Hw.
Qed.

(** The pages of a list, each asked for with the cursor that the one before returned, are the
    rows in order; after the last page the answer stays the last page, and its cursor is
    never absent. *)
Definition walks (m : option key → repo (list R * option key * ProjectionMetadata)) : Prop :=
  ∃ (page : nat → list R) (cursor : nat → option key) (final : nat),
    cursor O = None ∧
    (∀ n, ∃ w, run (m (cursor n)) db ev = (Ok (page n, cursor (S n), w), db)) ∧
    mjoin (page <$> seq 0 (S final)) = listing k rows ∧
    (∀ n, (final ≤ n)%nat → page n = page final) ∧
    (size < Z.of_nat (List.length rows) → ∀ n, cursor (S n) ≠ None).

Lemma list_walks : walks (λ c, list_page ctx actorUserID tenantID (q (size + 1) c) k size c).
Proof.
  pose proof (listed_distinct _ _ Hrows) as Hnd.
  exists (nth_page k rows size), (nth_cursor k rows size), (last_page k rows size). split_and!.
  - done.
  - intros n. destruct (list_page_answer (nth_cursor k rows size n)) as [w Hw].
    { eapply cursor_at_steady, nth_cursor_at; done. }
    exists w. rewrite Hw. unfold nth_page. cbn [nth_cursor]. by rewrite <-surjective_pairing.
  - by apply pages_listing.
  - intros n Hn. rewrite !nth_page_spec by done. by rewrite !Nat.min_r by lia.
  - intros Hmore n. apply nth_cursor_present; try done. unfold row_count, listing.
    rewrite merge_sort_Permutation. lia.
Qed.

End Walk.

(** ** The two lists *)

Lemma listed_filter {R S} (f : R → S) (k : R → key) (k' : S → key) p rows :
  (∀ x, k' (f x) = k x) → listed k rows → listed k' (f <$> List.filter p rows).
Proof.
  intros Hk [Hnd Hst]. split.
  - rewrite <-list_fmap_compose. rewrite (list_fmap_ext _ k) by (intros; apply Hk).
    by apply NoDup_fmap_filter.
  - intros y (x & -> & Hx)%list_elem_of_fmap. rewrite Hk. apply Hst.
    by apply elem_of_filter_b in Hx as [? _].
Qed.

Lemma agents_listed db r : well_typed db →
  listed (λ a, (source_ProjectedAt (agent_Source a), agent_ID a)) (visible agents r db).
Proof.
  intros (_ & _ & Ht & _). split.
  - apply (visible_distinct agents); [done|].
    intros x y [= _ Hid] Htn. cbn in *. congruence.
  - intros row (k & (_ & Hc & _)%Ht & _)%elem_of_visible. cbn in Hc. unfold agent_row in Hc.
    result_inv Hc. injection Hc as Hrow.
    match goal with Hs : source_row _ = Ok _ |- _ =>
      unfold source_row in Hs; result_inv Hs; injection Hs as <- end.
    rewrite <-Hrow. split; cbn; [apply timestamptz_idem|]. by eapply uuid_in_canonical.
Qed.

Lemma activity_listed db r : well_typed db → listed activity_key (visible activity r db).
Proof.
  intros (_ & _ & _ & _ & _ & _ & _ & _ & Ht & _). split.
  - apply (visible_distinct activity); [done|].
    intros x y [= _ Hid] Htn. cbn in *. congruence.
  - intros row (k & (_ & Hc & _)%Ht & _)%elem_of_visible. cbn in Hc. unfold activity_row in Hc.
    result_inv Hc. injection Hc as Hrow.
    rewrite <-Hrow. split; cbn; [apply timestamptz_idem|]. by eapply uuid_in_canonical.
Qed.

End Listing.
