(* ===== verification/ProjectionDelivery.v ===== *)
(** * Projections: deliveries on a working connection

    What a delivery returns when no statement fails because of the connection: whether the
    statements of an event succeed does not depend on the tables, and the inbox decides
    between a first delivery, a repeated one and a reused identifier; then the handler
    behind the consumer. *)

From S2P Require Import Prelude GoStrings Postgres Usecase Outbox Consumer ConsumerProperties.
From S2P Require Import ProjectionDomain ProjectionStore ProjectionRepository.
From S2P Require Import ProjectionService ProjectionHistory ProjectionCurrent.
From stdpp Require Import strings gmap list relations.
From Stdlib Require Import String Lia.
Open Scope string_scope.
Open Scope list_scope.
Open Scope Z_scope.

Section Delivery.
Context `{Platform, !PlatformLaws, ProjectionProto, TextSearch} (config : Config).

(** ** Statements *)

Lemma sql_put_decided {K R} `{Countable K} (M : read_model K R) v sc db db' :
  is_ok (sql_put M v sc db) = is_ok (sql_put M v sc db').
Proof.
  unfold sql_put. destruct (rls_of sc) as [r|]; cbn; [|done].
  destruct (model_cast M v); cbn; [|done].
  destruct (tenant_scoped _ _); cbn; [|done]. by destruct (model_check _ _).
Qed.

Lemma sql_drop_decided {K R} `{Countable K} (M : read_model K R) key sc db db' :
  is_ok (sql_drop M key sc db) = is_ok (sql_drop M key sc db').
Proof. unfold sql_drop. destruct (rls_of sc) as [r|]; cbn; [|done]. by destruct key. Qed.

(** Whether the statements of an event succeed depends on the event only. *)
Lemma statements_decided l sc db db' :
  is_ok (sql_statements l sc db) = true →
  ∃ db1, sql_statements l sc db' = Ok db1.
Proof.
  revert db db'. induction l as [|s l IH]; intros db db'; cbn [sql_statements]; [eauto|].
  assert (is_ok (sql_statement s sc db) = is_ok (sql_statement s sc db')) as Hs
    by (destruct s; apply sql_put_decided || apply sql_drop_decided).
  destruct (sql_statement s sc db) as [[u db2]|]; cbn; [|done].
  destruct (sql_statement s sc db') as [[u' db2']|]; cbn; [|done]. apply IH.
Qed.

Lemma run_statements_at_work l db db' sc clock :
  sql_statements l sc db = Ok db' →
  run_statements l (at_work db sc false clock) = (Ok tt, at_work db' sc false clock).
Proof.
  revert db. induction l as [|s l IH]; intros db; cbn [sql_statements].
  { by intros [= ->]. }
  intros ([[] db1] & Hs & Hl)%result_bind_Ok. cbn in Hl. destruct l as [|s' l].
  - cbn in Hl |- *. injection Hl as <-. by apply exec_at_work.
  - cbn [run_statements]. etrans; [eapply tx_bind_step; by apply exec_at_work|]. by apply IH.
Qed.

(** ** The inbox *)

(** What the inbox requires of an event, and the scope of the transaction. *)
Definition well_formed (meta : EventMeta) : bool :=
  is_ok (validateUUID (meta_TenantID meta))
  && is_ok (Scope_Validate (event_scope config meta)) && is_ok (rls_of (event_scope config meta))
  && is_some (uuid_in (meta_EventID meta)) && is_some (uuid_in (meta_TenantID meta))
  && (meta_EventVersion meta <=? 2 ^ 31 - 1) && (meta_AggregateVersion meta <=? int64_max)
  && consumed_checks meta.

Record accepted (meta : EventMeta) (r : rls) (i t : string) : Prop := {
  accepted_valid : validateUUID (meta_TenantID meta) = Ok tt;
  accepted_scope : Scope_Validate (event_scope config meta) = Ok tt;
  accepted_rls : rls_of (event_scope config meta) = Ok r;
  accepted_event : uuid_in (meta_EventID meta) = Some i;
  accepted_tenant : uuid_in (meta_TenantID meta) = Some t;
  accepted_scoped : ∀ t', tenant_scoped r t' = String.eqb t t';
  accepted_version : meta_EventVersion meta ≤ 2 ^ 31 - 1;
  accepted_aggregate : meta_AggregateVersion meta ≤ int64_max;
  accepted_checks : consumed_checks meta = true;
}.

Lemma event_scope_rls meta r t :
  rls_of (event_scope config meta) = Ok r → uuid_in (meta_TenantID meta) = Some t →
  ∀ t', tenant_scoped r t' = String.eqb t t'.
Proof.
  unfold rls_of, rls_setting, event_scope, ServiceTenantScope. cbn. intros Hr Ht.
  rewrite (uuid_in_trimmed _ _ Ht), Ht in Hr.
  destruct (String.eqb_spec (meta_TenantID meta) "") as [He|_].
  { rewrite He, uuid_in_empty in Ht. done. }
  cbn in Hr. result_inv Hr. by simplify_eq.
Qed.

Lemma well_formed_accepted meta :
  well_formed meta = true → ∃ r i t, accepted meta r i t.
Proof.
  unfold well_formed. intros Hw. bool_facts.
  destruct (validateUUID _) as [[]|] eqn:?, (Scope_Validate _) as [[]|] eqn:?,
    (rls_of _) as [r|] eqn:?, (uuid_in (meta_EventID meta)) as [i|] eqn:?,
    (uuid_in (meta_TenantID meta)) as [t|] eqn:?; try done.
  exists r, i, t. split; try done. by apply event_scope_rls with meta.
Qed.

(** The three answers of the inbox. *)
Lemma insert_consumed_new meta r i t db :
  accepted meta r i t → projection_consumed db !! i = None →
  table_any (same_position meta) (projection_consumed db) = false →
  sql_insert_consumed meta (event_scope config meta) db =
    Ok (Some i, set_consumed (<[i := consumed_row i t meta]> (projection_consumed db)) db).
Proof.
  intros [_ _ Hr Hi Ht Hs Hv Ha Hc] Hnone Hpos. unfold sql_insert_consumed, cast, integer, bigint.
  rewrite Hr, Hi, Ht. cbn -[consumed_checks].
  destruct (Z.ltb_spec (2 ^ 31 - 1) (meta_EventVersion meta)); [lia|].
  destruct (Z.ltb_spec int64_max (meta_AggregateVersion meta)); [lia|]. cbn -[consumed_checks].
  rewrite Hs, String.eqb_refl. cbn -[consumed_checks].
  change (consumed_checks (consumed_row i t meta)) with (consumed_checks meta). rewrite Hc.
  cbn. rewrite Hnone. cbn.
  change (table_any (same_position (consumed_row i t meta)) (projection_consumed db))
    with (table_any (same_position meta) (projection_consumed db)). by rewrite Hpos.
Qed.

Lemma insert_consumed_known meta r i t db e :
  accepted meta r i t → projection_consumed db !! i = Some e →
  sql_insert_consumed meta (event_scope config meta) db = Ok (None, db).
Proof.
  intros [_ _ Hr Hi Ht Hs Hv Ha Hc] Hsome. unfold sql_insert_consumed, cast, integer, bigint.
  rewrite Hr, Hi, Ht. cbn -[consumed_checks].
  destruct (Z.ltb_spec (2 ^ 31 - 1) (meta_EventVersion meta)); [lia|].
  destruct (Z.ltb_spec int64_max (meta_AggregateVersion meta)); [lia|]. cbn -[consumed_checks].
  rewrite Hs, String.eqb_refl. cbn -[consumed_checks].
  change (consumed_checks (consumed_row i t meta)) with (consumed_checks meta). rewrite Hc.
  cbn. by rewrite Hsome.
Qed.

Lemma event_hash_known meta r i t db e :
  accepted meta r i t → projection_consumed db !! i = Some e →
  sql_event_hash (meta_EventID meta) (event_scope config meta) db =
    if String.eqb t (meta_TenantID e) then Ok (meta_EventHash e) else Err ErrNoRows.
Proof.
  intros [_ _ Hr Hi Ht Hs _ _ _] Hsome. unfold sql_event_hash, cast. rewrite Hr, Hi. cbn.
  rewrite Hsome. cbn. rewrite Hs. by destruct (String.eqb _ _).
Qed.

Lemma update_checkpoint_accepted meta r i t sc db :
  accepted meta r i t → ∃ db', sql_update_checkpoint meta sc db = Ok (tt, db').
Proof.
  intros [_ _ _ Hi _ _ _ _ Hc]. unfold sql_update_checkpoint, cast. rewrite Hi. cbn.
  unfold consumed_checks in Hc. bool_facts.
  destruct (Z.leb_spec 0 (meta_Partition meta)); [|lia].
  destruct (Z.leb_spec 0 (meta_Offset meta)); [|lia]. cbn. eauto.
Qed.

Lemma update_watermark_accepted meta r i t db :
  accepted meta r i t →
  ∃ db', sql_update_watermark meta (event_scope config meta) db = Ok (tt, db').
Proof.
  intros [_ _ Hr Hi Ht Hs _ _ _]. unfold sql_update_watermark, cast. rewrite Hr, Ht. cbn.
  rewrite Hs, String.eqb_refl. cbn. eauto.
Qed.

(** ** The method *)

Lemma commit_at_work {A} (a : A) db sc clock :
  (commit;; mret a : repo A) (at_work db sc false clock) =
  (Ok a, {| session_db := db; session_committed := Some db; session_scope := sc;
            session_read_only := false; session_clock := clock; session_budget := None |}).
Proof. done. Qed.

Lemma run_ApplyEvent db ev meta l r i t :
  accepted meta r i t → env_budget ev = None →
  run (ApplyEvent no_ctx (config_ServicePrincipalID config) meta (Some (run_statements l))) db ev
  = match sql_insert_consumed meta (event_scope config meta) db with
    | Ok (Some _, db1) =>
        match apply_new meta (Some (run_statements l))
                (at_work db1 (event_scope config meta) false (env_clock ev)) with
        | (r, s) => (r, default db (session_committed s))
        end
    | Ok (None, db1) =>
        match redelivered meta (at_work db1 (event_scope config meta) false (env_clock ev)) with
        | (r, s) => (r, default db (session_committed s))
        end
    | Err e => (Err (ErrDatabase e), db)
    end.
Proof.
  intros Ha Hev. unfold run. rewrite new_session_at_work by done.
  unfold ApplyEvent, beginServiceTenant.
  rewrite (tx_bind_step _ _ _ tt (at_work db (event_scope config meta) false (env_clock ev)))
    by (apply Begin_at_work; apply Ha).
  destruct (sql_insert_consumed _ _ _) as [[o db1]|e] eqn:Hi.
  - rewrite (tx_bind_step _ _ _ o (at_work db1 (event_scope config meta) false (env_clock ev)))
      by (by apply exec_at_work). by destruct o.
  - unfold exec, raw, mbind, tx_bind. cbn. by rewrite Hi.
Qed.

Lemma deliver_accepted message clock ev db meta f r i t :
  decodeMessage message clock = Ok (meta, Some f) → accepted meta r i t →
  deliver config message clock ev db =
    match run (ApplyEvent no_ctx (config_ServicePrincipalID config) meta
                 (Some (run_statements (message_changes message clock meta)))) db ev with
    | (Ok b, db') => (Ok (Some b), db')
    | (Err e, db') => (Err e, db')
    end.
Proof.
  intros Hd Ha. apply decodeMessage_Ok in Hd as Hf. destruct Hf as [_ ->%decodeEvent_changes].
  unfold deliver, perform, handle, now, Project, pure, call, mbind, app_bind, mret, app_ret.
  cbn. rewrite Hd. cbn. rewrite (accepted_valid _ _ _ _ Ha). cbn.
  fold (message_changes message clock meta).
  by destruct (run _ _ _) as [[b|e] db'].
Qed.

Lemma apply_new_at_work meta r i t l db clock :
  accepted meta r i t →
  is_ok (sql_statements l (event_scope config meta) no_projections) = true →
  ∃ db', (apply_new meta (Some (run_statements l))
            (at_work db (event_scope config meta) false clock)).1 = Ok true ∧
    session_committed (apply_new meta (Some (run_statements l))
            (at_work db (event_scope config meta) false clock)).2 = Some db'.
Proof.
  intros Ha Hl. destruct (statements_decided _ _ _ db Hl) as [db2 Hl2].
  destruct (update_watermark_accepted meta r i t db2 Ha) as [db3 Hw].
  destruct (update_checkpoint_accepted meta r i t (event_scope config meta) db3 Ha) as [db4 Hk].
  exists db4. unfold apply_new.
  rewrite (tx_bind_step _ _ _ tt (at_work db2 (event_scope config meta) false clock))
    by (by apply run_statements_at_work).
  rewrite (tx_bind_step _ _ _ tt (at_work db3 (event_scope config meta) false clock))
    by (by apply exec_at_work).
  rewrite (tx_bind_step _ _ _ tt (at_work db4 (event_scope config meta) false clock))
    by (by apply exec_at_work).
  by rewrite commit_at_work.
Qed.

Lemma redelivered_at_work meta r i t e db clock :
  accepted meta r i t → projection_consumed db !! i = Some e → ∃ db',
  sql_update_checkpoint meta (event_scope config meta) db = Ok (tt, db') ∧
  match redelivered meta (at_work db (event_scope config meta) false clock) with
  | (r, s) => (r, default db (session_committed s))
  end = if String.eqb t (meta_TenantID e) then
          if String.eqb (meta_EventHash e) (meta_EventHash meta) then (Ok false, db')
          else (Err ErrEventIdentityConflict, db)
        else (Err (ErrDatabase ErrNoRows), db).
Proof.
  intros Ha He. pose proof (event_hash_known _ _ _ _ _ _ Ha He) as Hh.
  destruct (update_checkpoint_accepted meta r i t (event_scope config meta) db Ha) as [db' Hk].
  exists db'. split; [done|]. unfold redelivered. destruct (String.eqb t _).
  - rewrite (tx_bind_step _ _ _ (meta_EventHash e)
      (at_work db (event_scope config meta) false clock)) by (by apply query_at_work).
    destruct (String.eqb _ _); cbn.
    + rewrite (tx_bind_step _ _ _ tt (at_work db (event_scope config meta) false clock)) by done.
      rewrite (tx_bind_step _ _ _ tt (at_work db' (event_scope config meta) false clock))
        by (by apply exec_at_work).
      by rewrite commit_at_work.
    + done.
  - unfold query, raw, lift_db, mbind, tx_bind. cbn. by rewrite Hh.
Qed.

(** ** Outcomes *)

(** What the transaction of an event leaves unchanged when the inbox holds the event. *)
Definition only_checkpoint (db db' : projection_tables) : Prop :=
  same_models db db' ∧ projection_consumed db' = projection_consumed db ∧
  projection_watermarks db' = projection_watermarks db.

Lemma deliver_new message clock ev db meta f r i t :
  decodeMessage message clock = Ok (meta, Some f) → accepted meta r i t →
  env_budget ev = None → projection_consumed db !! i = None →
  table_any (same_position meta) (projection_consumed db) = false →
  is_ok (sql_statements (message_changes message clock meta) (event_scope config meta)
           no_projections) = true →
  (deliver config message clock ev db).1 = Ok (Some true).
Proof.
  intros Hd Ha Hev Hnone Hpos Hl. rewrite (deliver_accepted _ _ _ _ _ _ _ _ _ Hd Ha).
  rewrite (run_ApplyEvent _ _ _ _ _ _ _ Ha Hev), (insert_consumed_new _ _ _ _ _ Ha Hnone Hpos).
  destruct (apply_new_at_work meta r i t (message_changes message clock meta)
    (set_consumed (<[i := consumed_row i t meta]> (projection_consumed db)) db) (env_clock ev)
    Ha Hl) as (db' & H1' & _).
  destruct (apply_new _ _ _) as [x s]. cbn in H1'. by subst x.
Qed.

Lemma deliver_known message clock ev db meta f r i t e :
  decodeMessage message clock = Ok (meta, Some f) → accepted meta r i t →
  env_budget ev = None → projection_consumed db !! i = Some e → ∃ db',
  only_checkpoint db db' ∧
  deliver config message clock ev db =
    if String.eqb t (meta_TenantID e) then
      if String.eqb (meta_EventHash e) (meta_EventHash meta) then (Ok (Some false), db')
      else (Err ErrEventIdentityConflict, db)
    else (Err (ErrDatabase ErrNoRows), db).
Proof.
  intros Hd Ha Hev He. rewrite (deliver_accepted _ _ _ _ _ _ _ _ _ Hd Ha).
  rewrite (run_ApplyEvent _ _ _ _ _ _ _ Ha Hev), (insert_consumed_known _ _ _ _ _ _ Ha He).
  destruct (redelivered_at_work meta r i t e db (env_clock ev) Ha He) as (db' & Hk & ->).
  exists db'. split.
  - split; [exact (checkpoint_models _ _ _ _ _ Hk)|].
    split; [exact (update_checkpoint_consumed _ _ _ _ _ Hk)|].
    exact (update_checkpoint_watermarks _ _ _ _ _ Hk).
  - by destruct (String.eqb t (meta_TenantID e)), (String.eqb (meta_EventHash e) (meta_EventHash meta)).
Qed.

End Delivery.

(** ** The worker behind the consumer

    Every record that the consumer group has handled is projected: its event is one of those
    that were applied, or of an unknown type. *)

(** ** What holds of the handler's state and of the records handled *)

Section Invariant.
Context `{Platform, Proto} {S E : Type}.
Variable handler : Message → S → result E unit * S.
Variable P : S → list kgo_Record → Prop.
Hypothesis Hhandler : ∀ record message s l r s',
  P s l → decodeRecord (E := E) record = Ok message → handler message s = (r, s') →
  P s' (if is_ok r then l ++ [record] else l).

Definition holds (st : consuming S) : Prop := P (consuming_state st) (consuming_handled st).

Lemma process_holds commits record st o st' :
  holds st → process handler commits record st = (o, st') → holds st'.
Proof.
  unfold holds, process. intros Hst. destruct (decodeRecord record) as [message|e] eqn:Hd;
    [|by intros [= _ <-]].
  destruct (handler message (consuming_state st)) as [r s] eqn:Hh.
  pose proof (Hhandler _ _ _ _ _ _ Hst Hd Hh) as Hs.
  destruct r as [u|e]; [destruct (commits record)|]; by intros [= _ <-].
Qed.

Lemma process_all_holds commits records st o st' :
  holds st → process_all handler commits records st = (o, st') → holds st'.
Proof.
  revert st. induction records as [|r records IH]; intros st Hst; cbn; [by intros [= _ <-]|].
  destruct (process _ _ _ _) as [[u|e] st1] eqn:Hp; pose proof (process_holds _ _ _ _ _ Hst Hp).
  - by apply IH.
  - by intros [= _ <-].
Qed.

Lemma poll_loop_holds commits polls st o st' :
  holds st → poll_loop handler commits polls st = (o, st') → holds st'.
Proof.
  revert st. induction polls as [|p polls IH]; intros st Hst; cbn; [by intros [= _ <-]|].
  destruct (poll_done p); [by intros [= _ <-]|].
  destruct (fetchErrors p); [by intros [= _ <-]|].
  destruct (process_all _ _ _ _) as [[u|e] st1] eqn:Hp;
    pose proof (process_all_holds _ _ _ _ _ Hst Hp).
  - by apply IH.
  - by intros [= _ <-].
Qed.

Lemma group_holds log start s st :
  P s [] → rtc (process_run handler log start) (group_starts s) st → holds st.
Proof.
  intros Hs Hruns. eapply (rtc_ind_l (λ st0, holds st0 → holds st)); [done| |exact Hruns|done].
  intros st1 st2 [ends commits polls o st2' _ _ Hr] _ IH Hst. apply IH. cbn in Hr.
  by eapply poll_loop_holds.
Qed.

End Invariant.

(** ** The worker *)

Section Worker.
Context `{Platform, ProjectionProto, TextSearch} (config : Config).
Context (w : world projection_tables).
(** What comes between the statements of the worker and of other members of its group are
    whole deliveries. *)
Context (Hothers : ∀ n h db, reached config h db →
  ∃ h', reached config (h ++ h') (world_interfere w n db)).

Lemma handler_deliver message s r s' :
  handler config w message s = (r, s') → ∃ db r0,
  (db = s.2 ∨ db = world_interfere w s.1 s.2) ∧
  deliver config message (world_now w s.1) (world_env w s.1) db = (r0, s'.2) ∧
  match r0 with Ok _ => r = Ok tt | Err e => r = Err e end.
Proof.
  unfold handler, deliver, perform, handle, now, Project, pure, call, mbind, app_bind, mret,
    app_ret. destruct s as [n db]. cbn. intros Hh.
  destruct (decodeMessage message (world_now w n)) as [[meta f]|e] eqn:Hd; cbn in Hh |- *;
    [|injection Hh as <- <-; exists db; eexists; split_and!; [by left|reflexivity|reflexivity]].
  destruct f as [f|]; cbn in Hh |- *; [|injection Hh as <- <-; exists db; eexists; split_and!; [by left|reflexivity|reflexivity]].
  destruct (validateUUID (meta_TenantID meta)) as [[]|e] eqn:Hv; cbn in Hh |- *;
    [|injection Hh as <- <-; exists db; eexists; split_and!; [by left|reflexivity|reflexivity]].
  exists (world_interfere w n db).
  destruct (run _ _ _) as [[b|e] db1]; cbn in Hh |- *; injection Hh as <- <-; eexists;
    (split_and!; [by right|reflexivity|reflexivity]).
Qed.

(** The record's event is among the applied ones, with the content it has there, or its type
    is not one the projection knows. *)
Definition projected (h : list delivery) (record : kgo_Record) : Prop := ∃ message meta f clock,
  decodeRecord (E := error) record = Ok message ∧ decodeMessage message clock = Ok (meta, f) ∧
  match f with
  | None => True
  | Some _ => ∃ d i e, d ∈ h ∧ inbox_entry d = Some (i, e) ∧
      uuid_in (meta_EventID meta) = Some i ∧ meta_EventHash e = meta_EventHash meta
  end.

Lemma projected_mono h h' record : projected h record → projected (h ++ h') record.
Proof.
  intros (message & meta & f & clock & Hr & Hm & Hf).
  exists message, meta, f, clock. split_and!; [done..|]. destruct f; [|done].
  destruct Hf as (d & i & e & Hd & ?). exists d, i, e. split; [set_solver|done].
Qed.

Definition worker_ok (s : nat * projection_tables) (l : list kgo_Record) : Prop := ∃ h,
  reached config h s.2 ∧ ∀ record, record ∈ l → projected h record.

(** An event that was applied, or that the inbox held with the same hash, is projected. *)
Lemma delivered_projected h db record message clock ev o db' :
  reached config h db → decodeRecord (E := error) record = Ok message →
  deliver config message clock ev db = (Ok o, db') →
  projected (match o with Some true => h ++ [(message, clock)] | _ => h end) record.
Proof.
  intros Hh Hr Hd. apply deliver_cases in Hd as Hc. destruct o as [[]|].
  - destruct Hc as (meta & f & Hm & (i & t & Hi & Ht & _)%first_time_consumed).
    exists message, meta, (Some f), clock. split_and!; [done..|].
    exists (message, clock), i, (consumed_row i t meta).
    split_and!; [set_solver| |done|done]. unfold inbox_entry. cbn. by rewrite Hm, Hi, Ht.
  - destruct Hc as (meta & f & Hm & _ & Hhash & _).
    exists message, meta, (Some f), clock. split_and!; [done..|].
    unfold sql_event_hash in Hhash. result_inv Hhash. injection Hhash as Hhash.
    destruct (reached_inbox _ _ _ Hh) as [_ _ He].
    match goal with Hrow : projection_consumed db !! ?i = Some ?e |- _ =>
      rewrite He in Hrow; apply elem_of_list_to_map_2, list_elem_of_omap in Hrow as (d & Hd' & Hde);
      by exists d, i, e end.
  - destruct Hc as [_ [meta Hm]]. by exists message, meta, None, clock.
Qed.

Lemma worker_step record message s l r s' :
  worker_ok s l → decodeRecord (E := error) record = Ok message →
  handler config w message s = (r, s') →
  worker_ok s' (if is_ok r then l ++ [record] else l).
Proof.
  intros (h0 & Hh0 & Hl0) Hr (db & r0 & Hdb & Hd & Hr0)%handler_deliver.
  assert (∃ h, reached config h db ∧ ∀ record, record ∈ l → projected h record) as (h & Hh & Hl).
  { destruct Hdb as [->| ->]; [by exists h0|].
    destruct (Hothers s.1 h0 s.2 Hh0) as [h' Hh']. exists (h0 ++ h'). split; [done|].
    intros x Hx. by apply projected_mono, Hl0. }
  pose proof (reached_deliver config _ _ _ _ _ _ _ Hh Hd) as Hh'.
  eexists. split; [exact Hh'|]. destruct r0 as [o|e]; subst r; cbn; [|done].
  pose proof (delivered_projected _ _ _ _ _ _ _ _ Hh Hr Hd) as Hp.
  intros record' [Hin| ->]%elem_of_snoc.
  - specialize (Hl _ Hin). destruct o as [[]|]; [by apply projected_mono|done..].
  - by destruct o as [[]|].
Qed.

Lemma worker_group log start st :
  rtc (process_run (handler config w) log start) (group_starts (O, no_projections)) st →
  worker_ok (consuming_state st) (consuming_handled st).
Proof.
  intros Hruns. apply (group_holds (handler config w) worker_ok) with log start (O, no_projections);
    [|by exists []; split; [constructor|set_solver]|done].
  intros record message s l r s'. apply worker_step.
Qed.

End Worker.
