(* ===== verification/ProjectionProperties.v ===== *)
(** * Projections: what the service promises

    The read models are the newest events whatever way the events came, no delivery counts
    twice or reaches another tenant, and the lists show every row once. *)

From S2P Require Import Prelude GoStrings Postgres Usecase Outbox Consumer.
From S2P Require Import ConsumerProperties.
From S2P Require Import ProjectionDomain ProjectionStore ProjectionRepository.
From S2P Require Import ProjectionService ProjectionHistory ProjectionCurrent.
From S2P Require Import ProjectionConvergence ProjectionDelivery ProjectionPaging.
From S2P Require Import ProjectionIsolation.
From stdpp Require Import strings gmap list relations.
From Stdlib Require Import String Lia.
Open Scope string_scope.
Open Scope list_scope.
Open Scope Z_scope.

Section Properties.
Context `{Platform, !PlatformLaws, ProjectionProto, TextSearch} (config : Config).

(** ** Newest versions *)

(** Every read model that is guarded by the source version holds the newest of its rows. *)
Record newest_everywhere (h : list delivery) (db : projection_tables) : Prop := {
  newest_tenants : current (model_key tenants) tenant_Source
    (history_rows tenants put_tenant h) (projection_tenants db);
  newest_companies : current (model_key companies) company_Source
    (history_rows companies put_company h) (projection_companies db);
  newest_agents : current (model_key agents) agent_Source
    (history_rows agents put_agent h) (projection_agents db);
  newest_goals : current (model_key goals) goal_Source
    (history_rows goals put_goal h) (projection_goals db);
  newest_projects : current (model_key projects) project_Source
    (history_rows projects put_project h) (projection_projects db);
  newest_tasks : current (model_key tasks) task_Source
    (history_rows tasks put_task h) (projection_tasks db);
}.

Lemma reached_newest h db : reached config h db → newest_everywhere h db.
Proof.
  intros Hh. split.
  - by apply (reached_current config tenants put_tenant tenants_model tenant_Source).
  - by apply (reached_current config companies put_company companies_model company_Source).
  - by apply (reached_current config agents put_agent agents_model agent_Source).
  - by apply (reached_current config goals put_goal goals_model goal_Source).
  - by apply (reached_current config projects put_project projects_model project_Source).
  - by apply (reached_current config tasks put_task tasks_model task_Source).
Qed.

(** C9 (the read models are the newest events). After any deliveries, in any order, any
    number of times and however they end, each tenant, company, agent, goal, project and task
    stands with a newest version among the applied events that carry it, and is absent when
    none does; the inbox holds exactly the applied events, each once; and the watermark of a
    tenant is the greatest of the moments of its events. *)
Theorem read_models_current h db :
  reached config h db →
  newest_everywhere h db ∧ inbox_ok h db ∧
  ∀ t, watermark_ok (tenant_events t h) (projection_watermarks db !! t).
Proof.
  intros Hh. split; [by apply reached_newest|split].
  - by apply (reached_inbox config).
  - intros t. by apply (reached_watermarks config).
Qed.

(** (The search documents of orderly events are the newest). When the events of every
    document were applied in the order of their versions, the search holds a newest version of
    each; the guard on the documents does not ensure it for events out of order. *)
Theorem search_documents_current h db :
  reached config h db →
  in_version_order (model_key documents) document_Source (history_rows documents put_document h) →
  current (model_key documents) document_Source (history_rows documents put_document h)
    (projection_search db).
Proof. apply documents_current. Qed.

(** ** Convergence *)

(** No two of the applied events of a history carry one version of one entity. *)
Record versions_distinct (h : list delivery) : Prop := {
  distinct_tenants : one_event_per_version tenants put_tenant tenant_Source h;
  distinct_companies : one_event_per_version companies put_company company_Source h;
  distinct_agents : one_event_per_version agents put_agent agent_Source h;
  distinct_goals : one_event_per_version goals put_goal goal_Source h;
  distinct_projects : one_event_per_version projects put_project project_Source h;
  distinct_tasks : one_event_per_version tasks put_task task_Source h;
}.

Definition same_but_time {K R} `{Countable K, !Unproject R} (m m' : gmap K R) : Prop :=
  ∀ k, unproject <$> m !! k = unproject <$> m' !! k.

(** The tables agree, but for the moments when they were written. *)
Record converged (db db' : projection_tables) : Prop := {
  converged_tenants : same_but_time (projection_tenants db) (projection_tenants db');
  converged_companies : same_but_time (projection_companies db) (projection_companies db');
  converged_agents : same_but_time (projection_agents db) (projection_agents db');
  converged_goals : same_but_time (projection_goals db) (projection_goals db');
  converged_projects : same_but_time (projection_projects db) (projection_projects db');
  converged_tasks : same_but_time (projection_tasks db) (projection_tasks db');
  converged_activity : same_but_time (projection_activity db) (projection_activity db');
  converged_watermarks : ∀ t,
    metadata_ProjectedThroughEventTime <$> projection_watermarks db !! t =
    metadata_ProjectedThroughEventTime <$> projection_watermarks db' !! t;
}.

(** An activity is never replaced, as if all were of one version. *)
Definition no_version (v : Activity) : Source := {|
  source_Version := 0; source_EventID := ""; source_EventAt := 0; source_ProjectedAt := 0 |}.

(** One table of two histories with the same envelopes. *)
Ltac converges_by M put src HM HU Hh Hh' Hsame D :=
  intros k; refine (model_converges config M put src HM eq_refl HU (λ _, eq_refl) _
    _ _ _ _ Hh Hh' Hsame D k);
  intros meta now l Hl; destruct Hl; cbn; lia.

(** C10 (the guarded read models converge). Two consumers that applied the same events, in
    whatever orders, at whatever times and from whatever partitions, hold the same tenants,
    companies, agents, goals, projects and tasks, provided that no two of the events carry one
    version of one entity; they hold the same activity and have projected through the same
    moment of each tenant. Search documents, dependencies and assignments are left out: they
    depend on the order of delivery. *)
Theorem read_models_converge h h' db db' :
  reached config h db → reached config h' db' → same_envelopes h h' → versions_distinct h →
  converged db db'.
Proof.
  intros Hh Hh' Hsame [Dt Dc Da Dg Dp Dk]. split; [..|intros t; by apply (watermarks_agree config h h')].
  - converges_by (@tenants _) put_tenant tenant_Source tenants_model tenants_unproject Hh Hh' Hsame Dt.
  - converges_by (@companies _) put_company company_Source companies_model companies_unproject Hh Hh' Hsame Dc.
  - converges_by (@agents _) put_agent agent_Source agents_model agents_unproject Hh Hh' Hsame Da.
  - converges_by (@goals _) put_goal goal_Source goals_model goals_unproject Hh Hh' Hsame Dg.
  - converges_by (@projects _) put_project project_Source projects_model projects_unproject Hh Hh' Hsame Dp.
  - converges_by (@tasks _) put_task task_Source tasks_model tasks_unproject Hh Hh' Hsame Dk.
  - converges_by (@activity _) put_activity no_version activity_model activity_unproject Hh Hh' Hsame
      (activity_one_event config h db no_version Hh).
Qed.

(** ** One delivery *)

(** C22 (an event counts once). A delivery of a well-formed event on a working connection:
    an event the inbox does not hold is applied; one it holds with the same content changes
    nothing but the checkpoint of its partition; an identifier that is reused with another
    content is refused, and so is one of another tenant, and nothing changes. *)
Theorem delivery_outcome message clock ev db meta f r i t :
  decodeMessage message clock = Ok (meta, Some f) → accepted config meta r i t →
  env_budget ev = None →
  match projection_consumed db !! i with
  | None =>
      table_any (same_position meta) (projection_consumed db) = false →
      is_ok (sql_statements (message_changes message clock meta) (event_scope config meta)
               no_projections) = true →
      (deliver config message clock ev db).1 = Ok (Some true)
  | Some e =>
      if String.eqb t (meta_TenantID e) then
        if String.eqb (meta_EventHash e) (meta_EventHash meta)
        then ∃ db', deliver config message clock ev db = (Ok (Some false), db') ∧
               only_checkpoint db db'
        else deliver config message clock ev db = (Err ErrEventIdentityConflict, db)
      else deliver config message clock ev db = (Err (ErrDatabase ErrNoRows), db)
  end.
Proof.
  intros Hd Ha Hev. destruct (projection_consumed db !! i) as [e|] eqn:He.
  - destruct (deliver_known config message clock ev db meta f r i t e Hd Ha Hev He)
      as (db' & Hc & ->).
    destruct (String.eqb t (meta_TenantID e)); [|done].
    destruct (String.eqb (meta_EventHash e) (meta_EventHash meta)); [|done]. eauto.
  - intros Hp Hl. by eapply deliver_new.
Qed.

(** ** The worker *)

(** Every record is projected, once. However often the members of the worker's group
    stop, restart and read records again, and whatever the others deliver in between, every
    record before a committed offset is projected, from the first commit of its partition on
    (from the partition's start on, when the group starts at the earliest offset): its event is
    one of those that were applied, with that content, or of a type the projection does not
    know; and no event was applied twice. *)
Theorem worker_projects_once w log start st1 st :
  log_ok log →
  (∀ n h db, reached config h db → ∃ h', reached config (h ++ h') (world_interfere w n db)) →
  rtc (process_run (handler config w) log start) (group_starts (O, no_projections)) st1 →
  rtc (process_run (handler config w) log start) st1 st →
  ∃ h, reached config h (consuming_state st).2 ∧ NoDup (omap inbox_entry h).*1 ∧
    Forall (λ d, is_Some (inbox_entry d)) h ∧
    ∀ tp c, consuming_committed st1 !! tp = Some c →
      ∃ c', consuming_committed st !! tp = Some c' ∧ c ≤ c' ∧
        ∀ record, record ∈ log tp → complete_from start c ≤ kgo_Offset record < c' →
          projected h record.
Proof.
  intros Hlog Hothers Hr1 Hr2.
  destruct (worker_group config w Hothers log start st) as (h & Hh & Hl); [by etrans|].
  pose proof (reached_inbox config h _ Hh) as [Hall Hnd _].
  exists h. split_and!; [done..|]. intros tp c Hcm.
  destruct (committed_passed (handler config w) log start Hlog _ _ _ _ _ Hr1 Hr2 Hcm)
    as (c' & ? & ? & Hp & _).
  exists c'. split_and!; [done..|]. intros record Hr Hoff. by apply Hl, (Hp record).
Qed.

(** ** Tenants *)

(** C23 (tenants are isolated). A delivery changes no row, no inbox entry and no watermark of
    another tenant than the one of its envelope, and none of the five reads of another tenant
    can tell that it happened. *)
Theorem projections_isolated message clock ev db r db' :
  deliver config message clock ev db = (r, db') →
  (db' = db ∨ ∃ t, uuid_in (envelope_TenantId (message_Envelope message)) = Some t ∧
     untouched t db db') ∧
  ∀ tenantID,
    (∀ t, uuid_in (envelope_TenantId (message_Envelope message)) = Some t →
          uuid_in (TrimSpace tenantID) ≠ Some t) →
    same_answers tenantID db db'.
Proof.
  intros Hd. split; [by eapply deliver_untouched|]. intros tenantID. by apply deliver_answers with (1 := Hd).
Qed.

(** ** Lists *)

(** C24 (the lists are complete, and never end). Asking for page after page of the agents or
    of the activity, each with the cursor of the answer before, shows every row that matches
    once, the latest first. After the last page the same page comes again: with more rows than
    a page holds no answer is without a cursor. *)
Theorem lists_walk h db ctx actorUserID tenantID t r ev companyID taskID c k size :
  reached config h db → env_budget ev = None → 0 < size → uuid_in tenantID = Some t →
  let scope := TenantScope tenantID actorUserID (ctx_RequestID ctx) (ctx_CorrelationID ctx) in
  Scope_Validate scope = Ok tt → rls_of scope = Ok r →
  cast_option companyID = Ok c → cast_option taskID = Ok k →
  walks activity_key
    (List.filter (λ v, matches c (activity_CompanyID v) && matches k (activity_TaskID v))
       (visible activity r db)) size db ev
    (ProjectionRepository.ListTaskActivity ctx actorUserID tenantID companyID taskID size) ∧
  walks agent_key
    (agent_overview (visible assignments r db) (visible tasks r db) <$>
       List.filter (λ a, matches c (Some (agent_CompanyID a))) (visible agents r db)) size db ev
    (ProjectionRepository.ListAgentOverviews ctx actorUserID tenantID companyID size).
Proof.
  intros Htyped%reached_typed Hev Hsize Ht scope Hv Hr Hc Hk. split.
  - eapply list_walks; try done.
    + pose proof (listed_filter id activity_key activity_key
        (λ v, matches c (activity_CompanyID v) && matches k (activity_TaskID v)) _
        (λ x, eq_refl) (activity_listed db r Htyped)) as Hl.
      by rewrite list_fmap_id in Hl.
    + intros limit cursor Hcur. unfold sql_activity. fold scope. rewrite Hr. cbn.
      by rewrite Hc, Hk, (cast_key_steady _ Hcur).
  - eapply list_walks; try done.
    + apply listed_filter with (2 := agents_listed db r Htyped). done.
    + intros limit cursor Hcur. unfold sql_agent_overviews. fold scope. rewrite Hr. cbn.
      by rewrite Hc, (cast_key_steady _ Hcur).
Qed.

End Properties.
