(* ===== verification/ProjectionExamples.v ===== *)
(** * Projections: concrete histories

    A task, an agent and two consumers that receive their events in different orders; each
    property holds at them. *)

From S2P Require Import Prelude GoStrings Postgres Usecase Outbox Consumer.
From S2P Require Import ConsumerProperties Concrete.
From S2P Require Import ProjectionDomain ProjectionStore ProjectionRepository.
From S2P Require Import ProjectionService ProjectionHistory ProjectionCurrent.
From S2P Require Import ProjectionConvergence ProjectionDelivery ProjectionPaging.
From S2P Require Import ProjectionIsolation.
From S2P Require Import ProjectionProperties.
From stdpp Require Import strings gmap list relations.
From Stdlib Require Import String Ascii Lia.
Open Scope string_scope.
Open Scope list_scope.
Open Scope Z_scope.

#[local] Existing Instances concrete_platform concrete_platform_laws.

Inductive projection_wire :=
| TaskBytes (v : Task_pb)
| AgentBytes (v : Agent_pb)
| EnvelopeBytes (e : EventEnvelope projection_wire).

#[local] Instance projection_wire_proto : Proto := {|
  wire := projection_wire;
  marshal_envelope e := Some (EnvelopeBytes e);
  unmarshal_envelope w := match w with EnvelopeBytes e => Some e | _ => None end;
  timestamp_valid _ := true |}.

Definition read_task (w : projection_wire) : option (option Task_pb) :=
  match w with TaskBytes v => Some (Some v) | _ => None end.
Definition read_agent (w : projection_wire) : option (option Agent_pb) :=
  match w with AgentBytes v => Some (Some v) | _ => None end.
Definition unread {A} (w : projection_wire) : option (option A) := None.

(** A hash of 32 bytes that tells the versions of the events below apart. *)
Definition example_hash (w : projection_wire) : string :=
  match w with
  | EnvelopeBytes e => String (ascii_of_nat (Z.to_nat (envelope_AggregateVersion e)))
                         "the-content-of-an-event-envelope"
  | _ => ""
  end.

#[local] Instance projection_message_proto : ProjectionProto := {|
  unmarshal_TenantCreated := unread; unmarshal_TenantActivated := unread;
  unmarshal_TenantOnboardingFailed := unread; unmarshal_TenantUpdated := unread;
  unmarshal_TenantArchived := unread; unmarshal_CompanyCreated := unread;
  unmarshal_AgentCreated := read_agent; unmarshal_AgentDeleted := read_agent;
  unmarshal_GoalCreated := unread; unmarshal_ProjectCreated := unread;
  unmarshal_TaskCreated := read_task; unmarshal_TaskDependencyAdded := unread;
  unmarshal_TaskDependencyRemoved := unread; unmarshal_TaskAssigned := unread;
  unmarshal_TaskUnassigned := unread; unmarshal_TaskCommentAdded := unread;
  unmarshal_TaskArtifactAdded := unread; unmarshal_TaskArtifactDeleted := unread;
  unmarshal_TaskChecklistChanged := unread; unmarshal_TaskScheduleChanged := unread;
  sha256_Sum256 w := String.substring 0 32 (example_hash w) |}.

(** A query matches a document with that title. *)
#[local] Instance title_search : TextSearch := {|
  text_match d query := String.eqb (document_Title d) query; text_rank _ _ := 1 |}.

Definition example_config : Config := {| config_ServicePrincipalID := uuid 9 |}.
Definition example_env : env := {| env_clock := 1000; env_budget := None |}.

(** ** Events *)

Definition tenant := uuid 1.
Definition reader := uuid 2.
Definition company := uuid2 1 0.

Definition task_pb (status : Z) : Task_pb := {|
  taskPb_TenantId := tenant; taskPb_CompanyId := company; taskPb_ProjectId := uuid2 1 1;
  taskPb_TaskId := uuid2 2 0; taskPb_ParentTaskId := None; taskPb_Title := "Write";
  taskPb_Description := ""; taskPb_Status := status; taskPb_Priority := 2;
  taskPb_CreatedByUserId := reader |}.
Definition agent_pb : Agent_pb := {|
  agentPb_TenantId := tenant; agentPb_CompanyId := company; agentPb_AgentId := uuid2 3 0;
  agentPb_Slug := "ada"; agentPb_DisplayName := "Ada"; agentPb_RoleTitle := "writer";
  agentPb_Objective := ""; agentPb_ManagerAgentId := None; agentPb_Status := 5;
  agentPb_ExecutionProfile := 1; agentPb_AutonomyLevel := 1 |}.

(** The [n]th event, of that type, about version [version] of its aggregate. *)
Definition event (n : nat) (type : string) (version : Z) (payload : projection_wire)
  : EventEnvelope projection_wire := {|
  envelope_EventId := uuid2 9 n; envelope_EventType := type; envelope_EventVersion := 1;
  envelope_TenantId := tenant; envelope_AggregateType := "aggregate";
  envelope_AggregateId := uuid2 8 0; envelope_AggregateVersion := version;
  envelope_OccurredAt := Some (1000000 * Z.of_nat n); envelope_Producer := "";
  envelope_TraceId := ""; envelope_CorrelationId := ""; envelope_CausationId := "";
  envelope_Payload := payload |}.
Definition message (n : nat) (type : string) (version : Z) (payload : projection_wire)
    (offset : Z) : Message := {|
  message_Topic := "events"; message_Key := ""; message_Envelope := event n type version payload;
  message_Headers := ∅; message_Partition := 0; message_Offset := offset;
  message_Timestamp := 0 |}.

Definition task_created (offset : Z) : Message :=
  message 1 "task.created" 1 (TaskBytes (task_pb 1)) offset.
Definition task_started (offset : Z) : Message :=
  message 2 "task.status_changed" 2 (TaskBytes (task_pb 3)) offset.
Definition agent_updated (offset : Z) : Message :=
  message 3 "agent.updated" 2 (AgentBytes agent_pb) offset.
Definition agent_deleted (offset : Z) : Message :=
  message 4 "agent.deleted" 3 (AgentBytes agent_pb) offset.

(** ** Histories *)

(** Deliveries one after the other, on a working connection. *)
Fixpoint deliveries (l : list delivery) (at_ : list delivery * projection_tables)
  : list delivery * projection_tables :=
  match l with
  | [] => at_
  | (m, clock) :: l =>
      match deliver example_config m clock example_env at_.2 with
      | (r, db) =>
          deliveries l
            (match r with Ok (Some true) => at_.1 ++ [(m, clock)] | _ => at_.1 end, db)
      end
  end.
Definition from_start (l : list delivery) := deliveries l ([], no_projections).

Lemma deliveries_reached l at_ :
  reached example_config at_.1 at_.2 →
  reached example_config (deliveries l at_).1 (deliveries l at_).2.
Proof.
  revert at_. induction l as [|[m clock] l IH]; intros at_ Hat; [done|]. cbn.
  destruct (deliver example_config m clock example_env at_.2) as [r db] eqn:Hd.
  apply IH. cbn. by eapply reached_deliver.
Qed.

Lemma from_start_reached l : reached example_config (from_start l).1 (from_start l).2.
Proof. apply deliveries_reached. constructor. Qed.

(** In order, and out of order with a repetition. *)
Definition orderly : list delivery :=
  [(task_created 0, 7000); (task_started 1, 8000); (agent_updated 2, 9000)].
Definition disorderly : list delivery :=
  [(agent_updated 0, 5000); (task_started 1, 5000); (task_created 2, 6000);
   (task_started 1, 6000)].

Example orderly_applied : (from_start orderly).1 = orderly.
Proof. vm_compute. done. Qed.
Example disorderly_applied : (from_start disorderly).1 = take 3 disorderly.
Proof. vm_compute. done. Qed.
Example task_in_progress :
  task_Status <$> projection_tasks (from_start disorderly).2 !! (tenant, uuid2 2 0)
  = Some "in_progress".
Proof. vm_compute. done. Qed.

(** A late update of the agent, after its deletion, is offered to the search again. *)
Definition revived : list delivery := [(agent_deleted 0, 5000); (agent_updated 1, 6000)].
Example agent_stays_deleted :
  agent_Status <$> projection_agents (from_start revived).2 !! (tenant, uuid2 3 0)
  = Some "deleted".
Proof. vm_compute. done. Qed.
Example document_revived :
  (λ d, (document_Deleted d, source_Version (document_Source d))) <$>
    projection_search (from_start revived).2 !! (tenant, "agent", uuid2 3 0)
  = Some (false, 2).
Proof. vm_compute. done. Qed.

(** ** The properties at these histories *)

Lemma read_models_current_witness :
  newest_everywhere (from_start disorderly).1 (from_start disorderly).2 ∧
  inbox_ok (from_start disorderly).1 (from_start disorderly).2 ∧
  ∀ t, watermark_ok (tenant_events t (from_start disorderly).1)
         (projection_watermarks (from_start disorderly).2 !! t).
Proof.
  exact (read_models_current example_config (from_start disorderly).1 (from_start disorderly).2
    (from_start_reached disorderly)).
Defined.

(** The rows that the events wrote to the search. *)
Definition orderly_documents : list SearchDocument :=
  history_rows documents put_document (from_start orderly).1.

Lemma orderly_versions : in_version_order (model_key documents) document_Source orderly_documents.
Proof. apply in_version_order_check. vm_compute. reflexivity. Qed.

Lemma search_documents_current_witness :
  current (model_key documents) document_Source orderly_documents
    (projection_search (from_start orderly).2).
Proof.
  exact (search_documents_current example_config (from_start orderly).1 (from_start orderly).2
    (from_start_reached orderly) orderly_versions).
Defined.

(** Every member of [l] has the envelope of a member of [l']. *)
Lemma envelopes_covered (l l' : list delivery) :
  Forall (λ d, Exists (λ d', message_Envelope d'.1 = message_Envelope d.1) l') l →
  ∀ e, (∃ d, d ∈ l ∧ message_Envelope d.1 = e) → ∃ d', d' ∈ l' ∧ message_Envelope d'.1 = e.
Proof.
  rewrite Forall_forall. intros Hl e (d & Hd & <-). specialize (Hl d Hd).
  by apply Exists_exists in Hl.
Qed.

Lemma same_events : same_envelopes (from_start orderly).1 (from_start disorderly).1.
Proof.
  rewrite orderly_applied, disorderly_applied. unfold orderly, disorderly.
  intros e. split; apply envelopes_covered; cbn [take];
    rewrite ?Forall_cons, ?Forall_nil, ?Exists_cons, ?Exists_nil; cbn [fst]; intuition reflexivity.
Qed.

Lemma orderly_distinct : versions_distinct (from_start orderly).1.
Proof.
  split; apply one_event_check; apply (bool_decide_unpack _); vm_compute; exact I.
Qed.

Lemma read_models_converge_witness :
  converged (from_start orderly).2 (from_start disorderly).2.
Proof.
  exact (read_models_converge example_config (from_start orderly).1 (from_start disorderly).1
    (from_start orderly).2 (from_start disorderly).2 (from_start_reached orderly)
    (from_start_reached disorderly) same_events orderly_distinct).
Defined.

(** The update of the agent arrives a second time. *)
Definition decoded_again := decodeMessage (agent_updated 3) 9000.
Lemma decoded_again_Ok : is_ok decoded_again = true.
Proof. vm_compute. done. Qed.
Definition again_meta : EventMeta := (get_ok decoded_again decoded_again_Ok).1.

Lemma again_known : is_some (projection_consumed (from_start disorderly).2 !! uuid2 9 3) = true.
Proof. vm_compute. done. Qed.

Lemma delivery_outcome_witness : ∃ db',
  deliver example_config (agent_updated 3) 9000 example_env (from_start disorderly).2
    = (Ok (Some false), db') ∧ only_checkpoint (from_start disorderly).2 db'.
Proof.
  assert (∃ f, decoded_again = Ok (again_meta, Some f)) as [f Hf].
  { assert (decoded_again = Ok (again_meta, (get_ok decoded_again decoded_again_Ok).2)) as Hd.
    { etransitivity; [exact (get_ok_Ok decoded_again decoded_again_Ok)|].
      unfold again_meta. by rewrite <-surjective_pairing. }
    assert (is_some (get_ok decoded_again decoded_again_Ok).2 = true) as Hf by (vm_compute; done).
    destruct (get_ok decoded_again decoded_again_Ok).2 as [f|]; [by exists f|discriminate]. }
  destruct (well_formed_accepted example_config again_meta) as (r & i & t & Ha);
    [vm_compute; done|].
  assert (uuid2 9 3 = i) as <- by (pose proof (accepted_event _ _ _ _ _ Ha) as Hi;
    vm_compute in Hi; injection Hi as <-; vm_compute; done).
  assert (tenant = t) as <- by (pose proof (accepted_tenant _ _ _ _ _ Ha) as Ht;
    vm_compute in Ht; injection Ht as <-; vm_compute; done).
  pose proof (delivery_outcome example_config (agent_updated 3) 9000 example_env
    (from_start disorderly).2 again_meta f r (uuid2 9 3) tenant Hf Ha eq_refl) as Ho.
  destruct (projection_consumed (from_start disorderly).2 !! uuid2 9 3) as [e|] eqn:He.
  - assert ((meta_TenantID e, meta_EventHash e) = (tenant, meta_EventHash again_meta)) as [= Ht Hh].
    { transitivity (default ("", "") ((λ e, (meta_TenantID e, meta_EventHash e)) <$>
        projection_consumed (from_start disorderly).2 !! uuid2 9 3)); [by rewrite He|].
      vm_compute. done. }
    rewrite Ht, Hh, !String.eqb_refl in Ho. exact Ho.
  - pose proof again_known as Hk. rewrite He in Hk. discriminate.
Defined.

(** An event of the tenant changes nothing for another tenant. *)
Definition one_delivery :=
  deliver example_config (task_created 0) 7000 example_env (from_start revived).2.

Lemma projections_isolated_witness :
  same_answers (uuid 8) (from_start revived).2 one_delivery.2.
Proof.
  destruct (projections_isolated example_config (task_created 0) 7000 example_env
    (from_start revived).2 one_delivery.1 one_delivery.2) as [_ Hs].
  - apply surjective_pairing.
  - apply Hs. intros t Ht. vm_compute in Ht. injection Ht as <-. vm_compute. discriminate.
Defined.

(** The activity and the agents, one on a page. *)
Definition example_ctx : Ctx := {| ctx_RequestID := "r"; ctx_CorrelationID := "c";
  ctx_TraceID := "" |}.
Definition reader_scope : Scope :=
  TenantScope tenant reader (ctx_RequestID example_ctx) (ctx_CorrelationID example_ctx).
Lemma reader_rls_Ok : is_ok (rls_of reader_scope) = true.
Proof. vm_compute. done. Qed.
Definition reader_rls : rls := get_ok (rls_of reader_scope) reader_rls_Ok.

Lemma lists_walk_witness :
  walks activity_key
    (List.filter (λ v, matches None (activity_CompanyID v) && matches None (activity_TaskID v))
       (visible activity reader_rls (from_start orderly).2)) 1 (from_start orderly).2 example_env
    (ProjectionRepository.ListTaskActivity example_ctx reader tenant None None 1).
Proof.
  apply (lists_walk example_config (from_start orderly).1 (from_start orderly).2 example_ctx reader
    tenant tenant reader_rls example_env None None None None 1).
  - apply from_start_reached.
  - reflexivity.
  - lia.
  - vm_compute. done.
  - vm_compute. done.
  - exact (get_ok_Ok (rls_of reader_scope) reader_rls_Ok).
  - reflexivity.
  - reflexivity.
Defined.

(** ** The worker *)

Definition record_of (m : Message) : kgo_Record := {|
  kgo_Topic := message_Topic m; kgo_Key := ""; kgo_Value := EnvelopeBytes (message_Envelope m);
  kgo_Headers := []; kgo_Partition := message_Partition m; kgo_Offset := message_Offset m;
  kgo_Timestamp := 0 |}.

Definition example_log (tp : string * Z) : list kgo_Record :=
  if decide (("events", 0) = tp) then [record_of (task_created 0); record_of (task_started 1)]
  else [].

Lemma example_log_ok : log_ok example_log.
Proof.
  split; unfold example_log; intros tp.
  - intros r. case_decide as Htp; [|by intros ?%elem_of_nil]. subst tp.
    intros [->|[->|?%elem_of_nil]%elem_of_cons]%elem_of_cons; done.
  - intros l1 r l2 r'. case_decide; intros Heq Hr'; [|by destruct l1].
    destruct l1 as [|x [|y [|]]]; cbn in Heq; injection Heq.
    + intros <- <-. apply list_elem_of_singleton in Hr' as ->. cbn. lia.
    + intros <- _ _. by apply elem_of_nil in Hr'.
    + intros ?. discriminate.
    + intros ?. discriminate.
  - intros r. case_decide; [|by intros ?%elem_of_nil].
    by intros [->|[->|?%elem_of_nil]%elem_of_cons]%elem_of_cons.
Qed.

(** The worker's world: it is alone. *)
Definition worker_world : world projection_tables := at_clock 9000 example_env.
Definition example_polls : list poll := [
  {| poll_done := false; poll_errors := [];
     poll_records := [record_of (task_created 0); record_of (task_started 1)] |}].
Definition example_group : consuming (nat * projection_tables) :=
  (Run (Some (handler example_config worker_world)) (λ _, Acknowledged) example_polls
     (group_starts (O, no_projections))).2.

Lemma example_group_run :
  rtc (process_run (handler example_config worker_world) example_log ConsumerStartOffsetEarliest)
    (group_starts (O, no_projections)) example_group.
Proof.
  apply rtc_once. eapply (a_run _ _ _ _ (λ _, 0) (λ _, Acknowledged) example_polls).
  - intros r ?%elem_of_nil. done.
  - intros tp. exists 2%nat. unfold of_partition, example_log.
    destruct (decide (("events", 0) = tp)) as [<-|Hne]; [vm_compute; done|].
    cbn. by rewrite !bool_decide_eq_false_2.
  - unfold example_group. apply surjective_pairing.
Qed.

(** Both records are projected. *)
Lemma worker_projects_once_witness : ∃ h,
  reached example_config h (consuming_state example_group).2 ∧
  projected h (record_of (task_created 0)) ∧ projected h (record_of (task_started 1)).
Proof.
  destruct (worker_projects_once example_config worker_world example_log ConsumerStartOffsetEarliest
    example_group example_group example_log_ok) as (h & Hh & _ & _ & Hp).
  - intros n h db Hh. exists []. by rewrite app_nil_r.
  - exact example_group_run.
  - reflexivity.
  - destruct (Hp ("events", 0) 2) as (c' & _ & Hc & Hin); [by vm_compute|].
    exists h. split; [exact Hh|]. split; apply Hin; cbn; try lia; vm_compute; [left|right; left].
Defined.
