(* ===== verification/Identity.v ===== *)
(** * Identity and sessions: logging in and the sessions of browsers

    Models [services/identity-access/internal]: the domain and ports ([domain/models.go],
    [domain/errors.go], [ports/ports.go]), the store of login transactions and sessions
    ([adapters/redis/store.go]), the OpenID Connect client ([adapters/oidc/client.go],
    [config.go]), the service ([application/service.go]) and its gRPC surface
    ([transport/grpc/server.go]). The OIDC client's
    foreign side and the table of users are in [IdentityAccess].

    A Redis command is one atomic step on the store; a use case is an [app] of [Usecase], so
    that anything may happen to the store between two commands. The OIDC library, the
    encoding of records as JSON and SHA-256 are parameters. *)

From stdpp Require Import strings gmap list.
From Stdlib Require Import String Ascii Lia.
From S2P Require Import Prelude GoStrings Postgres Usecase.
Open Scope string_scope.
Open Scope list_scope.
Open Scope Z_scope.

(** ** domain *)

(** The errors of the service. The first four are the sentinels of [domain/errors.go];
    the others stand for errors that no caller tests for. *)
Inductive error :=
| ErrInvalidRequest
| ErrAuthenticationFailed
| ErrSessionNotFound
| ErrCSRFValidation
| ErrRandom
| ErrRedis
| ErrCodec
| ErrConfiguration
| ErrDatabase (e : db_error).

#[export] Instance error_eq_dec : EqDecision error.
Proof. solve_decision. Defined.
#[export] Instance error_DbError : DbError error := ErrDatabase.

Record ExternalIdentity := {
  ext_Issuer : string;
  ext_Subject : string;
  ext_Email : string;
  ext_EmailVerified : bool;
  ext_DisplayName : string;
  ext_PictureURL : string;
  ext_RawClaims : string;
}.

Record User := {
  user_ID : string;
  user_Issuer : string;
  user_Subject : string;
  user_Email : string;
  user_EmailVerified : bool;
  user_DisplayName : string;
  user_PictureURL : string;
}.

Record LoginTransaction := {
  login_State : string;
  login_BrowserBindingHash : string;
  login_Nonce : string;
  login_PKCEVerifier : string;
  login_ReturnTo : string;
  login_CreatedAt : Z;
  login_ExpiresAt : Z;
}.

Record Session := {
  session_ID : string;
  session_CSRFHash : string;
  session_User : User;
  session_CreatedAt : Z;
  session_ExpiresAt : Z;
}.

(** ** Foreign functions

    [marshal_login t] is the document [json.Marshal] makes of a record, [None] when it
    fails; [utf8_Valid] says that a string is valid UTF-8; [json_Valid] that a byte string
    is a JSON document; [sha256_Sum256] is the digest of a byte string;
    [oauth2_GenerateVerifier b] is the PKCE verifier made from random bytes;
    [url_Scheme s] is the scheme of [url.Parse(s)]. *)
Class IdentityCodec := {
  marshal_login : LoginTransaction → option string;
  unmarshal_login : string → option LoginTransaction;
  marshal_session : Session → option string;
  unmarshal_session : string → option Session;
  utf8_Valid : string → bool;
  json_Valid : string → bool;
  sha256_Sum256 : string → string;
  oauth2_GenerateVerifier : string → string;
  url_Scheme : string → option string;
}.

(** The strings of the records that are stored. *)
Definition login_text (t : LoginTransaction) : list string :=
  [login_State t; login_BrowserBindingHash t; login_Nonce t; login_PKCEVerifier t;
   login_ReturnTo t].
Definition session_text (s : Session) : list string :=
  let u := session_User s in
  [session_ID s; session_CSRFHash s; user_ID u; user_Issuer u; user_Subject u; user_Email u;
   user_DisplayName u; user_PictureURL u].

(** A record whose strings are valid UTF-8 is read back as it was written; ASCII is valid
    UTF-8; a PKCE verifier is a base64url string. *)
Class IdentityCodecLaws `{IdentityCodec} : Prop := {
  login_roundtrip : ∀ t v, forallb utf8_Valid (login_text t) = true →
    marshal_login t = Some v → unmarshal_login v = Some t;
  session_roundtrip : ∀ s v, forallb utf8_Valid (session_text s) = true →
    marshal_session s = Some v → unmarshal_session v = Some s;
  ascii_is_utf8 : ∀ s, forall_bytes is_graphic s = true → utf8_Valid s = true;
  verifier_is_ascii : ∀ b, forall_bytes is_graphic (oauth2_GenerateVerifier b) = true;
}.

(** ** The stores of the service

    A Redis value with the millisecond after which it is gone; a row of [iam_users] (by
    [user_id]) and of [iam_external_identities] (by issuer and subject). *)
Record IamUser := {
  iam_primary_email : option string;
  iam_display_name : string;
  iam_picture_url : string;
  iam_status : string;
}.

Record IamIdentity := {
  ident_user_id : string;
  ident_email : option string;
  ident_email_verified : bool;
  ident_raw_claims : string;
}.

Definition Redis : Type := gmap string (string * Z).

Record Auth := {
  auth_redis : Redis;
  auth_users : gmap string IamUser;
  auth_identities : gmap (string * string) IamIdentity;
}.

Definition set_redis (db : Auth) (r : Redis) : Auth := {|
  auth_redis := r; auth_users := auth_users db; auth_identities := auth_identities db |}.

(** ** Redis commands

    The reply of a command and the keys it leaves, at a reading of the server's clock. *)
Definition milliseconds (t : Z) : Z := t / 1000000.

(** go-redis rounds a duration down to a millisecond, but not to zero. *)
Definition redis_ttl (d : Z) : Z :=
  if (0 <? d) && (d <? 1000000) then 1 else milliseconds d.

Definition redis_get (now : Z) (r : Redis) (k : string) : option string :=
  match r !! k with
  | Some (v, until) => if milliseconds now <=? until then Some v else None
  | None => None
  end.

Definition cmd_SET (k v : string) (ttl : Z) (now : Z) (r : Redis) : unit * Redis :=
  (tt, <[k := (v, milliseconds now + redis_ttl ttl)]> r).
Definition cmd_GET (k : string) (now : Z) (r : Redis) : option string * Redis :=
  (redis_get now r k, r).
Definition cmd_GETDEL (k : string) (now : Z) (r : Redis) : option string * Redis :=
  (redis_get now r k, delete k r).
Definition cmd_DEL (k : string) (now : Z) (r : Redis) : unit * Redis := (tt, delete k r).

(** The session after a command: its effect is there at once. *)
Definition publish (db : Auth) (s : session Auth) : session Auth := {|
  session_db := db; session_committed := Some db;
  session_scope := session_scope s; session_read_only := session_read_only s;
  session_clock := session_clock s; session_budget := session_budget s |}.

(** A command sent by the client. The environment decides whether the command does not
    arrive ([Some 0]), is carried out and its reply lost ([Some 1]), or is carried out, its
    reply lost, and sent again by the client ([Some n] with a larger [n]). *)
Definition command {A} (f : Z → Redis → A * Redis) : tx Auth error A := λ s,
  let '(a, r) := f (session_clock s) (auth_redis (session_db s)) in
  let s1 := publish (set_redis (session_db s) r) s in
  match session_budget s with
  | None => (Ok a, s1)
  | Some O => (Err ErrRedis, s)
  | Some (S O) => (Err ErrRedis, s1)
  | Some (S (S _)) =>
      let '(a2, r2) := f (session_clock s) r in
      (Ok a2, publish (set_redis (session_db s) r2) s)
  end.

(** A command sent in a use case: before each command, other callers may act. *)
Definition send {A} (f : Z → Redis → A * Redis) : app Auth error A := call (command f).

(** A step whose error the use case drops ([_ = ...]). *)
Definition attempt {A} (m : app Auth error A) : app Auth error (result error A) := λ w s,
  let '(r, s') := m w s in (Ok r, s').

(** ** ports.go *)

Record IdentityProvider := {
  AuthorizationURL : string → string → string → string;
  Exchange : string → string → string → result error ExternalIdentity;
}.

(** What the service asks of the repository of users. *)
Class UserRepository := { ResolveUser : ExternalIdentity → tx Auth error User }.

(** ** adapters/redis/store.go *)

Definition hex_digit (n : nat) : ascii :=
  match String.get n "0123456789abcdef" with Some c => c | None => "0"%char end.

(** [hex.EncodeToString] *)
Fixpoint hex_EncodeToString (s : string) : string :=
  match s with
  | EmptyString => EmptyString
  | String c s' =>
      String (hex_digit (nat_of_ascii c / 16))
        (String (hex_digit (nat_of_ascii c mod 16)) (hex_EncodeToString s'))
  end.

(** [Store.prefix], as [New] computes it. *)
Definition Store_New (prefix : string) : string :=
  let prefix := TrimSuffix (TrimSpace prefix) ":" in
  if String.eqb prefix "" then "gereh:iam" else prefix.

Section Store.
Context `{IdentityCodec} (prefix : string).

Definition hashKey (value : string) : string := hex_EncodeToString (sha256_Sum256 value).

Definition transactionKey (state : string) : string :=
  prefix +:+ ":oidc:transaction:" +:+ hashKey state.
Definition sessionKey (sessionID : string) : string :=
  prefix +:+ ":session:" +:+ hashKey sessionID.

Definition PutTransaction (t : LoginTransaction) (ttl : Z) : app Auth error unit :=
  value ← pure (λ _, from_option_err ErrCodec (marshal_login t));
  send (cmd_SET (transactionKey (login_State t)) value ttl).

Definition TakeTransaction (state : string) : app Auth error LoginTransaction :=
  value ← send (cmd_GETDEL (transactionKey state));
  value ← pure (λ _, from_option_err ErrAuthenticationFailed value);
  pure (λ _, from_option_err ErrCodec (unmarshal_login value)).

Definition PutSession (s : Session) (ttl : Z) : app Auth error unit :=
  value ← pure (λ _, from_option_err ErrCodec (marshal_session s));
  send (cmd_SET (sessionKey (session_ID s)) value ttl).

Definition Store_GetSession (sessionID : string) : app Auth error Session :=
  value ← send (cmd_GET (sessionKey sessionID));
  value ← pure (λ _, from_option_err ErrSessionNotFound value);
  pure (λ _, from_option_err ErrCodec (unmarshal_session value)).

Definition Store_DeleteSession (sessionID : string) : app Auth error unit :=
  send (cmd_DEL (sessionKey sessionID)).

End Store.

(** ** application/service.go *)

Record Config := { config_TransactionTTL : Z; config_SessionTTL : Z }.

(** The service: its configuration, the prefix of its store and its provider. *)
Record Service := {
  service_config : Config;
  service_prefix : string;
  service_provider : IdentityProvider;
}.

(** [New] *)
Definition Service_New (config : Config) (prefix : string) (provider : IdentityProvider)
  : result error Service :=
  fail_if (config_TransactionTTL config <=? 0) ErrConfiguration;;
  fail_if (config_SessionTTL config <=? 0) ErrConfiguration;;
  Ok {| service_config := config; service_prefix := Store_New prefix;
        service_provider := provider |}.

Record BeginLoginResult := {
  begin_AuthorizationURL : string;
  begin_BrowserBinding : string;
  begin_ExpiresAt : Z;
}.

Record CompleteLoginResult := {
  complete_SessionID : string;
  complete_CSRFToken : string;
  complete_Session : Session;
  complete_ReturnTo : string;
}.

(** [strings.ContainsAny] of ASCII characters. *)
Definition ContainsAny (s chars : string) : bool :=
  existsb (λ c, existsb (Ascii.eqb c) (list_ascii_of_string chars)) (list_ascii_of_string s).

Definition newlines : string := bytes [13; 10]%nat.

Definition safeReturnPath (value : string) : result error string :=
  let value := TrimSpace value in
  if String.eqb value "" then Ok "/"
  else if negb (HasPrefix value "/") || HasPrefix value "//"
          || ContainsAny value "\" || ContainsAny value newlines
  then Err ErrInvalidRequest
  else Ok value.

(** [subtle.ConstantTimeCompare] on strings of the same length. *)
Definition constantTimeEqual (left right : string) : bool :=
  if negb (Nat.eqb (String.length left) (String.length right)) then false
  else String.eqb left right.

Section Service.
Context `{IdentityCodec, UserRepository} (service : Service).

Definition hashSecret (value : string) : string := hex_EncodeToString (sha256_Sum256 value).

(** [randomToken(32)]: the [i]th reading of [crypto/rand] in a use case, in base64url. *)
Definition randomToken (i : nat) : app Auth error string :=
  pure (λ w, from_option_err ErrRandom (EncodeToString <$> world_ids w i)).

(** [service.now().UTC()] *)
Definition service_now : app Auth error Z := pure (λ w, Ok (world_now w 0%nat)).

Definition BeginLogin (returnTo : string) : app Auth error BeginLoginResult :=
  returnTo ← pure (λ _, safeReturnPath returnTo);
  state ← randomToken 0;
  browserBinding ← randomToken 1;
  nonce ← randomToken 2;
  pkceVerifier ← pure (λ w, from_option_err ErrRandom (oauth2_GenerateVerifier <$> world_ids w 3%nat));
  now ← service_now;
  let expiresAt := now + config_TransactionTTL (service_config service) in
  PutTransaction (service_prefix service) {|
    login_State := state;
    login_BrowserBindingHash := hashSecret browserBinding;
    login_Nonce := nonce;
    login_PKCEVerifier := pkceVerifier;
    login_ReturnTo := returnTo;
    login_CreatedAt := now;
    login_ExpiresAt := expiresAt |} (config_TransactionTTL (service_config service));;
  mret {|
    begin_AuthorizationURL :=
      AuthorizationURL (service_provider service) state nonce pkceVerifier;
    begin_BrowserBinding := browserBinding;
    begin_ExpiresAt := expiresAt |}.

(** What [CompleteLogin] does with the transaction it has taken. *)
Definition finish_login (code browserBinding : string) (transaction : LoginTransaction)
  : app Auth error CompleteLoginResult :=
  now ← service_now;
  pure (λ _, fail_if (negb (now <? login_ExpiresAt transaction)) ErrAuthenticationFailed);;
  pure (λ _, fail_if (negb (constantTimeEqual (login_BrowserBindingHash transaction)
                              (hashSecret browserBinding))) ErrAuthenticationFailed);;
  identity ← pure (λ _, Exchange (service_provider service) code
                          (login_PKCEVerifier transaction) (login_Nonce transaction));
  user ← call (ResolveUser identity);
  sessionID ← randomToken 0;
  csrfToken ← randomToken 1;
  let session := {|
    session_ID := sessionID;
    session_CSRFHash := hashSecret csrfToken;
    session_User := user;
    session_CreatedAt := now;
    session_ExpiresAt := now + config_SessionTTL (service_config service) |} in
  PutSession (service_prefix service) session (config_SessionTTL (service_config service));;
  mret {|
    complete_SessionID := sessionID;
    complete_CSRFToken := csrfToken;
    complete_Session := session;
    complete_ReturnTo := login_ReturnTo transaction |}.

Definition CompleteLogin (state code browserBinding : string)
  : app Auth error CompleteLoginResult :=
  pure (λ _, fail_if (String.eqb (TrimSpace state) "" || String.eqb (TrimSpace code) ""
                      || String.eqb (TrimSpace browserBinding) "") ErrInvalidRequest);;
  transaction ← TakeTransaction (service_prefix service) state;
  finish_login code browserBinding transaction.

Definition GetSession (sessionID : string) : app Auth error Session :=
  pure (λ _, fail_if (String.eqb (TrimSpace sessionID) "") ErrSessionNotFound);;
  session ← Store_GetSession (service_prefix service) sessionID;
  now ← service_now;
  if negb (now <? session_ExpiresAt session) then
    attempt (Store_DeleteSession (service_prefix service) sessionID);;
    pure (λ _, Err ErrSessionNotFound)
  else mret session.

Definition DeleteSession (sessionID csrfToken : string) : app Auth error unit :=
  session ← GetSession sessionID;
  pure (λ _, fail_if (negb (constantTimeEqual (session_CSRFHash session)
                              (hashSecret csrfToken))) ErrCSRFValidation);;
  Store_DeleteSession (service_prefix service) sessionID.

End Service.

(** ** transport/grpc/server.go *)

Inductive Code := InvalidArgument | Unauthenticated | PermissionDenied | Internal.

(** [mapError] *)
Definition mapError (err : error) : Code * string :=
  match err with
  | ErrInvalidRequest => (InvalidArgument, "invalid authentication request")
  | ErrAuthenticationFailed => (Unauthenticated, "authentication failed")
  | ErrSessionNotFound => (Unauthenticated, "session is not valid")
  | ErrCSRFValidation => (PermissionDenied, "csrf validation failed")
  | _ => (Internal, "identity operation failed")
  end.

Record AuthenticatedUser := {
  authuser_UserId : string;
  authuser_Issuer : string;
  authuser_Subject : string;
  authuser_Email : string;
  authuser_EmailVerified : bool;
  authuser_DisplayName : string;
  authuser_PictureUrl : string;
}.

Record SessionMessage := {
  message_User : AuthenticatedUser;
  message_CreatedAt : Z;
  message_ExpiresAt : Z;
}.

Definition sessionToProto (session : Session) : SessionMessage :=
  let u := session_User session in {|
  message_User := {|
    authuser_UserId := user_ID u; authuser_Issuer := user_Issuer u;
    authuser_Subject := user_Subject u; authuser_Email := user_Email u;
    authuser_EmailVerified := user_EmailVerified u;
    authuser_DisplayName := user_DisplayName u; authuser_PictureUrl := user_PictureURL u |};
  message_CreatedAt := session_CreatedAt session;
  message_ExpiresAt := session_ExpiresAt session |}.

(** [BeginLoginRequest{ReturnTo}], [CompleteLoginRequest{State, Code, BrowserBinding}],
    [GetSessionRequest{SessionId}], [DeleteSessionRequest{SessionId, CsrfToken}]. *)
Inductive Request :=
| BeginLoginRequest (returnTo : string)
| CompleteLoginRequest (state code browserBinding : string)
| GetSessionRequest (sessionId : string)
| DeleteSessionRequest (sessionId csrfToken : string).

Inductive Response :=
| BeginLoginResponse (authorizationUrl browserBinding : string) (expiresAt : Z)
| CompleteLoginResponse (sessionId csrfToken : string) (session : SessionMessage)
    (returnTo : string)
| GetSessionResponse (session : SessionMessage)
| DeleteSessionResponse.

(** One call of the server. *)
Definition handle `{IdentityCodec, UserRepository} (service : Service) (request : Request)
  : app Auth error Response :=
  match request with
  | BeginLoginRequest returnTo =>
      result ← BeginLogin service returnTo;
      mret (BeginLoginResponse (begin_AuthorizationURL result) (begin_BrowserBinding result)
              (begin_ExpiresAt result))
  | CompleteLoginRequest state code browserBinding =>
      result ← CompleteLogin service state code browserBinding;
      mret (CompleteLoginResponse (complete_SessionID result) (complete_CSRFToken result)
              (sessionToProto (complete_Session result)) (complete_ReturnTo result))
  | GetSessionRequest sessionId =>
      session ← GetSession service sessionId;
      mret (GetSessionResponse (sessionToProto session))
  | DeleteSessionRequest sessionId csrfToken =>
      DeleteSession service sessionId csrfToken;;
      mret DeleteSessionResponse
  end.

(** What the caller is answered, and the stores after the call. *)
Definition serve `{IdentityCodec, UserRepository} (service : Service) (request : Request)
  (w : world Auth) (db : Auth) : result (Code * string) Response * Auth :=
  let '(r, db') := perform (handle service request) w db in
  (match r with Ok response => Ok response | Err err => Err (mapError err) end, db').
