(* ===== verification/IdentityAccess.v ===== *)
(** * Identity and sessions: the OpenID Connect client and the table of users

    Models [services/identity-access/internal/adapters/oidc/client.go] and [config.go], and
    [adapters/postgres/repository.go] over the tables of
    [migrations/000001_oidc_identities.up.sql]. *)

From stdpp Require Import strings gmap list.
From Stdlib Require Import String Ascii Lia.
From S2P Require Import Prelude GoStrings Postgres Usecase Identity.
Open Scope string_scope.
Open Scope list_scope.
Open Scope Z_scope.

(** ** adapters/oidc/config.go *)

Record OidcConfig := {
  oidc_IssuerURL : string;
  oidc_ClientID : string;
  oidc_ClientSecret : string;
  oidc_RedirectURL : string;
  oidc_Scopes : list string;
  oidc_SupportedSigningAlgs : list string;
  oidc_RequireVerifiedEmail : bool;
  oidc_FetchUserInfo : bool;
  oidc_RequirePKCEAdvertised : bool;
  oidc_AllowInsecureHTTP : bool;
  oidc_HTTPTimeout : Z;
}.

Definition blank (s : string) : bool := String.eqb (TrimSpace s) "".

Definition OidcConfig_Validate `{IdentityCodec} (config : OidcConfig) : result error unit :=
  fail_if (blank (oidc_IssuerURL config)) ErrConfiguration;;
  fail_if (blank (oidc_ClientID config)) ErrConfiguration;;
  fail_if (blank (oidc_ClientSecret config)) ErrConfiguration;;
  fail_if (blank (oidc_RedirectURL config)) ErrConfiguration;;
  fail_if (oidc_HTTPTimeout config <=? 0) ErrConfiguration;;
  issuer ← from_option_err ErrConfiguration (url_Scheme (oidc_IssuerURL config));
  redirect ← from_option_err ErrConfiguration (url_Scheme (oidc_RedirectURL config));
  (if negb (oidc_AllowInsecureHTTP config) then
     fail_if (negb (String.eqb issuer "https")) ErrConfiguration;;
     fail_if (negb (String.eqb redirect "https")) ErrConfiguration
   else Ok tt);;
  fail_if (Nat.eqb (List.length (oidc_Scopes config)) 0) ErrConfiguration;;
  fail_if (negb (slices_Contains (oidc_Scopes config) "openid")) ErrConfiguration.

(** ** The libraries go-oidc and oauth2

    What they answer to a client: [AuthCodeURL state verifier nonce]; the token for a code
    and a PKCE verifier; the verified content of an ID token ([Verify] checks its signature,
    issuer, audience and expiry); whether an access token matches the hash in the ID token;
    the claims decoded into the struct of the client; the UserInfo response. *)
Record OauthToken := { token_AccessToken : string; token_id_token : option string }.

Record IDToken := {
  idtoken_Issuer : string;
  idtoken_Nonce : string;
  idtoken_AccessTokenHash : string;
  idtoken_payload : string;
}.

Record TokenClaims := {
  claims_Subject : string;
  claims_Email : string;
  claims_EmailVerified : bool;
  claims_Name : string;
  claims_Picture : string;
  claims_PreferredUsername : string;
}.

Record UserInfo := { userinfo_Subject : string; userinfo_Claims : option TokenClaims }.

Record Metadata := {
  CodeChallengeMethodsSupported : list string;
  ResponseTypesSupported : list string;
}.

Record Oidc := {
  oidc_AuthCodeURL : string → string → string → string;
  oidc_Exchange : string → string → option OauthToken;
  oidc_Verify : string → option IDToken;
  oidc_VerifyAccessToken : IDToken → string → bool;
  oidc_Claims : IDToken → option TokenClaims;
  oidc_UserInfo : OauthToken → option UserInfo;
}.

(** ** adapters/oidc/client.go *)

Record Client := { client_config : OidcConfig; client_oidc : Oidc }.

(** [New]: [discover issuer] is [oidc.NewProvider], with the decoded metadata of the
    provider ([None] when they do not decode). *)
Definition Client_New `{IdentityCodec} (discover : string → option (Oidc * option Metadata))
  (config : OidcConfig) : result error Client :=
  OidcConfig_Validate config;;
  provider ← from_option_err ErrConfiguration (discover (oidc_IssuerURL config));
  metadata ← from_option_err ErrConfiguration provider.2;
  fail_if (negb (slices_Contains (ResponseTypesSupported metadata) "code")) ErrConfiguration;;
  fail_if (oidc_RequirePKCEAdvertised config
           && negb (slices_Contains (CodeChallengeMethodsSupported metadata) "S256"))
    ErrConfiguration;;
  Ok {| client_config := config; client_oidc := provider.1 |}.

Definition Client_AuthorizationURL (client : Client) (state nonce pkceVerifier : string)
  : string := oidc_AuthCodeURL (client_oidc client) state pkceVerifier nonce.

(** [strings.Split] at a one-byte separator. *)
Fixpoint Split (sep : ascii) (s : string) : list string :=
  match s with
  | EmptyString => [EmptyString]
  | String c s' =>
      match Split sep s' with
      | part :: parts => if Ascii.eqb c sep then "" :: part :: parts
                         else String c part :: parts
      | [] => []
      end
  end.

Definition rawTokenClaims `{IdentityCodec} (rawToken : string) : option string :=
  match Split "."%char rawToken with
  | [_; part; _] =>
      payload ← DecodeString part;
      if json_Valid payload then Some payload else None
  | _ => None
  end.

Fixpoint firstNonEmpty (values : list string) : string :=
  match values with
  | [] => ""
  | value :: values' =>
      if negb (String.eqb (TrimSpace value) "") then TrimSpace value
      else firstNonEmpty values'
  end.

Definition mergeUserInfo (client : Client) (token : OauthToken) (identity : ExternalIdentity)
  : result error ExternalIdentity :=
  userInfo ← from_option_err ErrAuthenticationFailed
               (oidc_UserInfo (client_oidc client) token);
  fail_if (negb (String.eqb (userinfo_Subject userInfo) (ext_Subject identity)))
    ErrAuthenticationFailed;;
  claims ← from_option_err ErrAuthenticationFailed (userinfo_Claims userInfo);
  let no_email := String.eqb (ext_Email identity) "" in
  Ok {|
    ext_Issuer := ext_Issuer identity;
    ext_Subject := ext_Subject identity;
    ext_Email := if no_email then claims_Email claims else ext_Email identity;
    ext_EmailVerified :=
      if no_email then claims_EmailVerified claims else ext_EmailVerified identity;
    ext_DisplayName :=
      if String.eqb (ext_DisplayName identity) ""
      then firstNonEmpty [claims_Name claims; claims_PreferredUsername claims]
      else ext_DisplayName identity;
    ext_PictureURL :=
      if String.eqb (ext_PictureURL identity) "" then claims_Picture claims
      else ext_PictureURL identity;
    ext_RawClaims := ext_RawClaims identity |}.

Definition Client_Exchange `{IdentityCodec} (client : Client)
  (code pkceVerifier expectedNonce : string) : result error ExternalIdentity :=
  let oidc := client_oidc client in
  oauthToken ← from_option_err ErrAuthenticationFailed (oidc_Exchange oidc code pkceVerifier);
  rawIDToken ← from_option_err ErrAuthenticationFailed (token_id_token oauthToken);
  fail_if (blank rawIDToken) ErrAuthenticationFailed;;
  idToken ← from_option_err ErrAuthenticationFailed (oidc_Verify oidc rawIDToken);
  fail_if (negb (String.eqb (idtoken_Nonce idToken) expectedNonce)) ErrAuthenticationFailed;;
  fail_if (negb (String.eqb (idtoken_AccessTokenHash idToken) "")
           && negb (oidc_VerifyAccessToken oidc idToken (token_AccessToken oauthToken)))
    ErrAuthenticationFailed;;
  claims ← from_option_err ErrAuthenticationFailed (oidc_Claims oidc idToken);
  fail_if (blank (claims_Subject claims)) ErrAuthenticationFailed;;
  rawClaims ← from_option_err ErrAuthenticationFailed (rawTokenClaims rawIDToken);
  let identity := {|
    ext_Issuer := idtoken_Issuer idToken;
    ext_Subject := claims_Subject claims;
    ext_Email := claims_Email claims;
    ext_EmailVerified := claims_EmailVerified claims;
    ext_DisplayName := firstNonEmpty [claims_Name claims; claims_PreferredUsername claims];
    ext_PictureURL := claims_Picture claims;
    ext_RawClaims := rawClaims |} in
  identity ← (if oidc_FetchUserInfo (client_config client)
              then mergeUserInfo client oauthToken identity else Ok identity);
  fail_if (oidc_RequireVerifiedEmail (client_config client)
           && (blank (ext_Email identity) || negb (ext_EmailVerified identity)))
    ErrAuthenticationFailed;;
  Ok identity.

(** The client as the port of the service. *)
Definition Client_provider `{IdentityCodec} (client : Client) : IdentityProvider := {|
  AuthorizationURL := Client_AuthorizationURL client;
  Exchange := Client_Exchange client |}.

(** ** adapters/postgres/repository.go

    [gen_random_uuid users now] is the default of [iam_users.user_id] at a moment;
    [jsonb_in s] the reading of a [$n::jsonb] parameter. *)
Class IamServer := {
  gen_random_uuid : gmap string IamUser → Z → string;
  jsonb_in : string → option string;
}.

Definition nul : ascii := ascii_of_nat 0.

(** A [text] parameter: PostgreSQL's text holds no zero byte. *)
Definition text_in (s : string) : result db_error string :=
  fail_if (existsb (Ascii.eqb nul) (list_ascii_of_string s)) ErrInvalidText;; Ok s.

(** [NULLIF(s, '')] and [COALESCE(o, '')] *)
Definition nullif_empty (s : string) : option string := if String.eqb s "" then None else Some s.
Definition coalesce_empty (o : option string) : string := default "" o.

(** The user a row of [iam_users] is scanned into. *)
Definition scan_user (id : string) (row : IamUser) : User := {|
  user_ID := id; user_Issuer := ""; user_Subject := "";
  user_Email := coalesce_empty (iam_primary_email row); user_EmailVerified := false;
  user_DisplayName := iam_display_name row; user_PictureURL := iam_picture_url row |}.

Definition is_active (row : IamUser) : bool := String.eqb (iam_status row) "active".

Definition set_users (db : Auth) (users : gmap string IamUser) : Auth := {|
  auth_redis := auth_redis db; auth_users := users; auth_identities := auth_identities db |}.
Definition set_identities (db : Auth) (identities : gmap (string * string) IamIdentity)
  : Auth := {|
  auth_redis := auth_redis db; auth_users := auth_users db; auth_identities := identities |}.

Section Statements.
Context `{Platform, IamServer}.

(** The [SELECT] of [findUser]; [None] is no row. *)
Definition select_active_user (issuer subject : string) (db : Auth)
  : result db_error (option User) :=
  issuer ← text_in issuer;
  subject ← text_in subject;
  Ok (i ← auth_identities db !! (issuer, subject);
      row ← auth_users db !! ident_user_id i;
      if is_active row then Some (scan_user (ident_user_id i) row) else None).

(** The [INSERT] of [createUser]. *)
Definition insert_user (now : Z) (identity : ExternalIdentity) (db : Auth)
  : result db_error (User * Auth) :=
  email ← text_in (ext_Email identity);
  name ← text_in (ext_DisplayName identity);
  picture ← text_in (ext_PictureURL identity);
  let id := gen_random_uuid (auth_users db) now in
  let row := {| iam_primary_email := nullif_empty email; iam_display_name := name;
                iam_picture_url := picture; iam_status := "active" |} in
  fail_if (is_some (auth_users db !! id)) (ErrUniqueViolation "iam_users_pkey");;
  Ok (scan_user id row, set_users db (<[id := row]> (auth_users db))).

(** The [UPDATE] of [updateUser]. *)
Definition update_user_row (userID : string) (identity : ExternalIdentity) (db : Auth)
  : result db_error (User * Auth) :=
  id ← cast userID;
  email ← text_in (ext_Email identity);
  name ← text_in (ext_DisplayName identity);
  picture ← text_in (ext_PictureURL identity);
  row ← from_option_err ErrNoRows (auth_users db !! id);
  fail_if (negb (is_active row)) ErrNoRows;;
  let row := {|
    iam_primary_email :=
      if negb (String.eqb email "") && ext_EmailVerified identity then Some email
      else iam_primary_email row;
    iam_display_name := if negb (String.eqb name "") then name else iam_display_name row;
    iam_picture_url := if negb (String.eqb picture "") then picture else iam_picture_url row;
    iam_status := iam_status row |} in
  Ok (scan_user id row, set_users db (<[id := row]> (auth_users db))).

(** The [INSERT ... ON CONFLICT DO UPDATE] of [upsertExternalIdentity]: the user of a row
    that exists stays. *)
Definition upsert_identity_row (userID : string) (identity : ExternalIdentity)
  (rawClaims : string) (db : Auth) : result db_error (unit * Auth) :=
  issuer ← text_in (ext_Issuer identity);
  subject ← text_in (ext_Subject identity);
  id ← cast userID;
  email ← text_in (ext_Email identity);
  raw ← from_option_err ErrInvalidText (jsonb_in rawClaims);
  owner ← (match auth_identities db !! (issuer, subject) with
           | Some row => Ok (ident_user_id row)
           | None =>
               fail_if (negb (is_some (auth_users db !! id)))
                 (ErrForeignKeyViolation "iam_external_identities");;
               Ok id
           end);
  Ok (tt, set_identities db (<[(issuer, subject) := {|
        ident_user_id := owner; ident_email := nullif_empty email;
        ident_email_verified := ext_EmailVerified identity;
        ident_raw_claims := raw |}]> (auth_identities db))).

(** [pool.BeginTx] *)
Definition BeginTx : tx Auth error unit :=
  statement;; raw (λ s, (Ok tt, {|
    session_db := session_db s; session_committed := session_committed s;
    session_scope := session_scope s; session_read_only := false;
    session_clock := session_clock s; session_budget := session_budget s |})).

(** [SELECT pg_advisory_xact_lock(hashtextextended($1, 0))] *)
Definition lock_identity (lockValue : string) : tx Auth error unit :=
  query (λ _ _, text_in lockValue;; Ok tt).

Definition findUser (issuer subject : string) : tx Auth error (option User) :=
  query (λ _ db, select_active_user issuer subject db).
Definition createUser (identity : ExternalIdentity) : tx Auth error User :=
  now ← clock_timestamp;
  exec (λ _ db, insert_user now identity db).
Definition updateUser (userID : string) (identity : ExternalIdentity) : tx Auth error User :=
  exec (λ _ db, update_user_row userID identity db).
Definition upsertExternalIdentity (userID : string) (identity : ExternalIdentity)
  : tx Auth error unit :=
  let rawClaims := ext_RawClaims identity in
  let rawClaims := if len rawClaims =? 0 then "{}" else rawClaims in
  exec (λ _ db, upsert_identity_row userID identity rawClaims db).

(** What [ResolveUser] does once it holds the lock. *)
Definition resolve_locked (identity : ExternalIdentity) : tx Auth error User :=
  found ← findUser (ext_Issuer identity) (ext_Subject identity);
  user ← (match found with
          | None => createUser identity
          | Some user => updateUser (user_ID user) identity
          end);
  upsertExternalIdentity (user_ID user) identity;;
  commit;;
  mret {|
    user_ID := user_ID user;
    user_Issuer := ext_Issuer identity;
    user_Subject := ext_Subject identity;
    user_Email := user_Email user;
    user_EmailVerified := ext_EmailVerified identity;
    user_DisplayName := user_DisplayName user;
    user_PictureURL := user_PictureURL user |}.

(** [identity.Issuer + NUL + identity.Subject] *)
Definition lockValue (identity : ExternalIdentity) : string :=
  ext_Issuer identity +:+ String nul EmptyString +:+ ext_Subject identity.

Definition Repository_ResolveUser (identity : ExternalIdentity) : tx Auth error User :=
  BeginTx;;
  lock_identity (lockValue identity);;
  resolve_locked identity.

End Statements.

(** The repository as the port of the service. *)
Definition Repository `{Platform, IamServer} : UserRepository := {|
  ResolveUser := Repository_ResolveUser |}.
