(* ===== verification/IdentityProperties.v ===== *)
(** * Identity and sessions: properties

    The steps the service takes on its stores ([store_step]), the use cases as sequences of
    such steps, and what follows for logins, sessions and users. *)

From stdpp Require Import strings gmap list relations.
From Stdlib Require Import String Ascii Lia.
From S2P Require Import Prelude GoStrings Postgres Usecase Concrete.
From S2P Require Import Identity IdentityAccess.
Open Scope string_scope.
Open Scope list_scope.
Open Scope Z_scope.

(** ** Redis commands *)

Lemma set_redis_same db : set_redis db (auth_redis db) = db.
Proof. by destruct db. Qed.

(** What a command leaves: the store as it was, or the store after its last execution; the
    first execution found the store as it was. *)
Definition found {A} (f : Z → Redis → A * Redis) (now : Z) (r0 r : Redis) : Prop :=
  r = r0 ∨ r = (f now r0).2.

Lemma run_command {A} (f : Z → Redis → A * Redis) db ev r db' :
  run (command f) db ev = (r, db') →
  db' = db ∧ r = Err ErrRedis ∨
  ∃ before, found f (env_clock ev) (auth_redis db) before ∧
    db' = set_redis db (f (env_clock ev) before).2 ∧
    (r = Ok (f (env_clock ev) before).1 ∨ r = Err ErrRedis).
Proof.
  unfold run, command, found. cbn. destruct (f _ (auth_redis db)) as [a r1] eqn:Hf. cbn.
  destruct (env_budget ev) as [[|[|n]]|]; cbn.
  - intros [= <- <-]. by left.
  - intros [= <- <-]. right. exists (auth_redis db). rewrite Hf. auto.
  - destruct (f _ r1) as [a2 r2] eqn:Hf2. cbn. intros [= <- <-].
    right. exists r1. rewrite Hf2. auto.
  - intros [= <- <-]. right. exists (auth_redis db). rewrite Hf. auto.
Qed.

(** A command on one key leaves the others alone. *)
Definition on_key {A} (k : string) (f : Z → Redis → A * Redis) : Prop :=
  ∀ now r k', k' ≠ k → (f now r).2 !! k' = r !! k'.

Lemma run_command_frame {A} k (f : Z → Redis → A * Redis) db ev k' :
  on_key k f → k' ≠ k → auth_redis (run (command f) db ev).2 !! k' = auth_redis db !! k'.
Proof.
  intros Hf Hk. destruct (run (command f) db ev) as [r db'] eqn:E1. cbn.
  apply run_command in E1 as [[-> _]|(before & Hb & -> & _)]; [done|].
  cbn [auth_redis set_redis]. rewrite Hf by done. destruct Hb as [->| ->]; [done|]. by apply Hf.
Qed.

Lemma on_key_SET k v ttl : on_key k (cmd_SET k v ttl).
Proof. intros now r k' Hk. by apply lookup_insert_ne. Qed.
Lemma on_key_GET k : on_key k (cmd_GET k).
Proof. done. Qed.
Lemma on_key_GETDEL k : on_key k (cmd_GETDEL k).
Proof. intros now r k' Hk. by apply lookup_delete_ne. Qed.
Lemma on_key_DEL k : on_key k (cmd_DEL k).
Proof. intros now r k' Hk. by apply lookup_delete_ne. Qed.

Lemma redis_get_absent now r k : r !! k = None → redis_get now r k = None.
Proof. unfold redis_get. by intros ->. Qed.

(** What the client is told about a key that is not there, or that it has deleted. *)
Lemma GETDEL_reply k now r0 r :
  found (cmd_GETDEL k) now r0 r →
  (cmd_GETDEL k now r).1 = redis_get now r0 k ∧ r = r0 ∨ (cmd_GETDEL k now r).1 = None.
Proof.
  intros [->| ->]; [by left|]. right. apply redis_get_absent. apply lookup_delete_eq.
Qed.

Lemma GET_reply k now r0 r :
  found (cmd_GET k) now r0 r → (cmd_GET k now r).1 = redis_get now r0 k ∧ r = r0.
Proof. by intros [->| ->]. Qed.

#[local] Arguments cmd_SET : simpl never.
#[local] Arguments cmd_GET : simpl never.
#[local] Arguments cmd_GETDEL : simpl never.
#[local] Arguments cmd_DEL : simpl never.

(** ** The methods of the store *)
Section Store.
Context `{IdentityCodec} (prefix : string).
Implicit Types (db : Auth) (w : world Auth).

(** A stored value comes under its key. *)
Lemma run_SET_Ok k v ttl db ev u db' :
  run (command (cmd_SET k v ttl)) db ev = (Ok u, db') →
  auth_redis db' !! k = Some (v, milliseconds (env_clock ev) + redis_ttl ttl).
Proof.
  intros [[_ [=]]|(before & _ & -> & _)]%run_command. apply lookup_insert_eq.
Qed.

Lemma put_transaction_Ok t ttl w s u s' :
  PutTransaction prefix t ttl w s = (Ok u, s') →
  ∃ v, marshal_login t = Some v ∧
    auth_redis s'.2 !! transactionKey prefix (login_State t) =
      Some (v, milliseconds (env_clock (world_env w s.1)) + redis_ttl ttl).
Proof.
  unfold PutTransaction, send. intros Hr. app_inv Hr. apply from_option_err_Ok in E.
  apply call_run in Hr as [Hr%run_SET_Ok _]. eauto.
Qed.

Lemma put_session_Ok session ttl w s u s' :
  PutSession prefix session ttl w s = (Ok u, s') →
  ∃ v, marshal_session session = Some v ∧
    auth_redis s'.2 !! sessionKey prefix (session_ID session) =
      Some (v, milliseconds (env_clock (world_env w s.1)) + redis_ttl ttl).
Proof.
  unfold PutSession, send. intros Hr. app_inv Hr. apply from_option_err_Ok in E.
  apply call_run in Hr as [Hr%run_SET_Ok _]. eauto.
Qed.

(** A transaction that is taken was there, and is there no more. *)
Lemma take_Ok state w s t s' :
  TakeTransaction prefix state w s = (Ok t, s') →
  (∃ v, redis_get (env_clock (world_env w s.1)) (auth_redis (world_interfere w s.1 s.2))
          (transactionKey prefix state) = Some v ∧ unmarshal_login v = Some t) ∧
  auth_redis s'.2 !! transactionKey prefix state = None ∧ s'.1 = S s.1.
Proof.
  unfold TakeTransaction, send. intros Hr. app_inv Hr.
  apply from_option_err_Ok in E0 as ->. apply pure_Ok in Hr as [Hr%from_option_err_Ok ->].
  apply run_command in E as [[_ ?]|(before & Hb & Hs & [E|?])]; [done| |done].
  apply GETDEL_reply in Hb as [[Hb ->]|Hb]; rewrite Hb in E; [|done]. injection E as E.
  split; [by exists a0|]. split; [|done]. rewrite Hs. apply lookup_delete_eq.
Qed.

(** Without a stored transaction there is nothing to take. *)
Lemma take_absent state w s :
  auth_redis (world_interfere w s.1 s.2) !! transactionKey prefix state = None →
  ∃ e, (TakeTransaction prefix state w s).1 = Err e ∧
    (e = ErrAuthenticationFailed ∨ e = ErrRedis).
Proof.
  intros Hk. unfold TakeTransaction, send, call, mbind, app_bind.
  destruct (run _ _ _) as [r db1] eqn:E1.
  apply run_command in E1 as [[-> ->]|(before & Hb & -> & [->| ->])]; cbn; [eauto| |eauto].
  apply GETDEL_reply in Hb as [[-> _]| ->]; [rewrite redis_get_absent by done|]; cbn; eauto.
Qed.

(** Reading a session. *)
Lemma get_session_Ok sid w s session s' :
  Store_GetSession prefix sid w s = (Ok session, s') →
  ∃ v, redis_get (env_clock (world_env w s.1)) (auth_redis (world_interfere w s.1 s.2))
         (sessionKey prefix sid) = Some v ∧ unmarshal_session v = Some session.
Proof.
  unfold Store_GetSession, send. intros Hr. app_inv Hr.
  apply from_option_err_Ok in E0 as ->. apply pure_Ok in Hr as [Hr%from_option_err_Ok ->].
  apply run_command in E as [[_ ?]|(before & Hb & _ & [E|?])]; [done| |done].
  apply GET_reply in Hb as [Hb _]. rewrite Hb in E. injection E as E. by exists a0.
Qed.

Lemma get_session_same sid w s :
  (Store_GetSession prefix sid w s).2 = (S s.1, world_interfere w s.1 s.2).
Proof.
  unfold Store_GetSession, send, call, mbind, app_bind, pure.
  destruct (run _ _ _) as [r db1] eqn:E1.
  assert (db1 = world_interfere w s.1 s.2) as ->.
  { apply run_command in E1 as [[-> _]|(before & Hb & -> & _)]; [done|].
    apply GET_reply in Hb as [_ ->]. apply set_redis_same. }
  destruct r as [[v|]|e]; cbn; try done.
Qed.

(** A working connection and a key that is there. *)
Lemma get_session_present sid w s v session :
  env_budget (world_env w s.1) = None →
  redis_get (env_clock (world_env w s.1)) (auth_redis (world_interfere w s.1 s.2))
    (sessionKey prefix sid) = Some v →
  unmarshal_session v = Some session →
  (Store_GetSession prefix sid w s).1 = Ok session.
Proof.
  intros Hev Hv Hs. unfold Store_GetSession, send, call, mbind, app_bind, pure, run, command.
  cbn. unfold cmd_GET. rewrite Hev, Hv. cbn. by rewrite Hs.
Qed.

Lemma delete_session_Ok sid w s u s' :
  Store_DeleteSession prefix sid w s = (Ok u, s') →
  auth_redis s'.2 !! sessionKey prefix sid = None.
Proof.
  unfold Store_DeleteSession, send. intros [[[_ [=]]|(before & _ & -> & _)]%run_command _]%call_run.
  apply lookup_delete_eq.
Qed.

(** The keys of transactions and of sessions are disjoint. *)
Lemma append_inj_l (a b c : string) : a +:+ b = a +:+ c → b = c.
Proof. induction a as [|x a IH]; [done|]. rewrite !append_cons. intros [=]. by apply IH. Qed.

Lemma keys_disjoint state sid : transactionKey prefix state ≠ sessionKey prefix sid.
Proof. unfold transactionKey, sessionKey. by intros Hk%append_inj_l. Qed.
End Store.

(** ** The steps of the service on its stores

    What the service relies on: the repository of users does not touch the keys of Redis. *)
Class UserRepositoryLaws `{UserRepository} : Prop :=
  resolve_keeps_redis : ∀ identity db ev,
    auth_redis (run (ResolveUser identity) db ev).2 = auth_redis db.

Section Steps.
Context `{!Platform, !IdentityCodec, !UserRepository, !UserRepositoryLaws} (service : Service).
Notation prefix := (service_prefix service).

(** One command or transaction of some caller of the service, or Redis dropping a key.
    [logins] and [sessions] are the login states and the session identifiers that are drawn. *)
Inductive store_step (logins sessions : string → Prop) (db : Auth) : Auth → Prop :=
| step_set_transaction state v ttl ev :
    logins state →
    store_step logins sessions db
      (run (command (cmd_SET (transactionKey prefix state) v ttl)) db ev).2
| step_take_transaction state ev :
    store_step logins sessions db (run (command (cmd_GETDEL (transactionKey prefix state))) db ev).2
| step_set_session sid v ttl ev :
    sessions sid →
    store_step logins sessions db (run (command (cmd_SET (sessionKey prefix sid) v ttl)) db ev).2
| step_get_session sid ev :
    store_step logins sessions db (run (command (cmd_GET (sessionKey prefix sid))) db ev).2
| step_delete_session sid ev :
    store_step logins sessions db (run (command (cmd_DEL (sessionKey prefix sid))) db ev).2
| step_resolve identity ev :
    store_step logins sessions db (run (ResolveUser identity) db ev).2
| step_drop k :
    store_step logins sessions db (set_redis db (delete k (auth_redis db))).

(** Under a key that nobody draws, a value stays or disappears. *)
Definition undrawn (logins sessions : string → Prop) (k : string) : Prop :=
  (∀ state, logins state → transactionKey prefix state ≠ k) ∧
  (∀ sid, sessions sid → sessionKey prefix sid ≠ k).

(** A command that only deletes its key. *)
Lemma run_deletes {A} (f : Z → Redis → A * Redis) k db ev k' :
  (∀ now r, (f now r).2 = delete k r) →
  auth_redis (run (command f) db ev).2 !! k' = auth_redis db !! k' ∨
  auth_redis (run (command f) db ev).2 !! k' = None.
Proof.
  intros Hf. destruct (run _ _ _) as [r db1] eqn:E1. cbn.
  apply run_command in E1 as [[-> ->]|(before & Hb & -> & _)]; [by left|].
  cbn [auth_redis set_redis]. rewrite Hf. destruct (decide (k = k')) as [->|Hk].
  { right. apply lookup_delete_eq. }
  left. etrans; [by apply lookup_delete_ne|]. destruct Hb as [->| ->]; [done|].
  rewrite Hf. by apply lookup_delete_ne.
Qed.

Lemma run_GET_same k db ev : (run (command (cmd_GET k)) db ev).2 = db.
Proof.
  destruct (run _ _ _) as [r db1] eqn:E1. cbn.
  apply run_command in E1 as [[-> _]|(before & Hb & -> & _)]; [done|].
  apply GET_reply in Hb as [_ ->]. apply set_redis_same.
Qed.

Lemma store_step_key logins sessions k db db' :
  undrawn logins sessions k → store_step logins sessions db db' →
  auth_redis db' !! k = auth_redis db !! k ∨ auth_redis db' !! k = None.
Proof.
  intros [Hl Hs] [state v ttl ev Ht|state ev|sid v ttl ev Hd|sid ev|sid ev|identity ev|k'].
  - left. eapply run_command_frame; [apply on_key_SET|by apply not_eq_sym, Hl].
  - by eapply run_deletes.
  - left. eapply run_command_frame; [apply on_key_SET|by apply not_eq_sym, Hs].
  - left. by rewrite run_GET_same.
  - by eapply run_deletes.
  - left. by rewrite resolve_keeps_redis.
  - destruct (decide (k = k')) as [->|Hk]; [right; apply lookup_delete_eq|].
    left. by apply lookup_delete_ne.
Qed.

Lemma store_steps_key logins sessions k db db' :
  undrawn logins sessions k → rtc (store_step logins sessions) db db' →
  auth_redis db' !! k = auth_redis db !! k ∨ auth_redis db' !! k = None.
Proof.
  intros Hu. induction 1 as [|db db1 db' Hstep _ IH]; [by left|].
  apply (store_step_key _ _ k) in Hstep; [|done].
  destruct IH as [->|]; [done|by right].
Qed.

Lemma store_steps_gone logins sessions k db db' :
  undrawn logins sessions k → rtc (store_step logins sessions) db db' →
  auth_redis db !! k = None → auth_redis db' !! k = None.
Proof. intros Hu Hr Hk. destruct (store_steps_key _ _ k _ _ Hu Hr); congruence. Qed.

(** *** Requests are sequences of such steps *)
Section World.
Context (logins sessions : string → Prop) (w : world Auth).
Notation steps := (rtc (store_step logins sessions)).

(** The world around a request: other callers take steps between its calls, and the
    tokens it draws are among [logins] and [sessions]. *)
Record caller_world : Prop := {
  caller_interfere : ∀ n db, steps db (world_interfere w n db);
  caller_login : ∀ raw, world_ids w 0%nat = Some raw → logins (EncodeToString raw);
  caller_session : ∀ raw, world_ids w 0%nat = Some raw → sessions (EncodeToString raw);
}.
Context (Hw : caller_world).

(** A step of a use case that is no call. *)
Ltac no_call := first [apply safe_pure | apply safe_ret]; apply _.

Lemma safe_send {A} (f : Z → Redis → A * Redis) :
  (∀ db ev, store_step logins sessions db (run (command f) db ev).2) → safe steps w (send f).
Proof.
  intros Hm. apply safe_call; [apply _|apply Hw|]. intros db ev. by apply rtc_once.
Qed.

(** The methods of the store are steps. *)
Lemma put_transaction_safe t ttl :
  logins (login_State t) → safe steps w (PutTransaction prefix t ttl).
Proof.
  intros Ht. apply safe_bind; [apply _|no_call|intros v]. apply safe_send. by constructor.
Qed.
Lemma take_transaction_safe state : safe steps w (TakeTransaction prefix state).
Proof.
  apply safe_bind; [apply _|apply safe_send; constructor|intros v].
  apply safe_bind; [apply _|no_call|intros ?; no_call].
Qed.
Lemma put_session_safe session ttl :
  sessions (session_ID session) → safe steps w (PutSession prefix session ttl).
Proof.
  intros Hs. apply safe_bind; [apply _|no_call|intros v]. apply safe_send. by constructor.
Qed.
Lemma store_get_session_safe sid : safe steps w (Store_GetSession prefix sid).
Proof.
  apply safe_bind; [apply _|apply safe_send; constructor|intros v].
  apply safe_bind; [apply _|no_call|intros ?; no_call].
Qed.
Lemma store_delete_session_safe sid : safe steps w (Store_DeleteSession prefix sid).
Proof. apply safe_send. constructor. Qed.

Lemma safe_attempt {A} (m : app Auth error A) : safe steps w m → safe steps w (attempt m).
Proof. intros Hm s. specialize (Hm s). unfold attempt. by destruct (m w s). Qed.

Lemma begin_login_safe returnTo : safe steps w (BeginLogin service returnTo).
Proof.
  unfold BeginLogin. apply safe_bind; [apply _|no_call|intros path].
  unfold randomToken at 1. apply safe_bind_pure; [apply _|]. intros state Hstate.
  do 4 (apply safe_bind; [apply _|no_call|intros ?]).
  apply safe_bind; [apply _| |intros ?; no_call].
  apply put_transaction_safe. cbn.
  apply from_option_err_Ok, fmap_Some in Hstate as (raw & Hraw & ->). by apply Hw.
Qed.

Lemma finish_login_safe code binding t : safe steps w (finish_login service code binding t).
Proof.
  unfold finish_login.
  do 4 (apply safe_bind; [apply _|no_call|intros ?]).
  apply safe_bind; [apply _| |intros user].
  { apply safe_call; [apply _|apply Hw|]. intros db ev. apply rtc_once. constructor. }
  unfold randomToken at 1. apply safe_bind_pure; [apply _|]. intros sid Hsid.
  apply safe_bind; [apply _|no_call|intros ?].
  apply safe_bind; [apply _| |intros ?; no_call].
  apply put_session_safe. cbn.
  apply from_option_err_Ok, fmap_Some in Hsid as (raw & Hraw & ->). by apply Hw.
Qed.

Lemma complete_login_safe state code binding :
  safe steps w (CompleteLogin service state code binding).
Proof.
  unfold CompleteLogin. apply safe_bind; [apply _|no_call|intros _].
  apply safe_bind; [apply _|apply take_transaction_safe|intros t]. apply finish_login_safe.
Qed.

Lemma get_session_safe sid : safe steps w (GetSession service sid).
Proof.
  unfold GetSession. apply safe_bind; [apply _|no_call|intros _].
  apply safe_bind; [apply _|apply store_get_session_safe|intros s].
  apply safe_bind; [apply _|no_call|intros now].
  destruct (negb _); [|no_call].
  apply safe_bind; [apply _| |intros ?; no_call].
  apply safe_attempt, store_delete_session_safe.
Qed.

Lemma delete_session_safe sid token : safe steps w (DeleteSession service sid token).
Proof.
  unfold DeleteSession. apply safe_bind; [apply _|apply get_session_safe|intros s].
  apply safe_bind; [apply _|no_call|intros _]. apply store_delete_session_safe.
Qed.

(** Whatever a request does to the stores is a sequence of steps. *)
Lemma handle_safe request : safe steps w (handle service request).
Proof.
  destruct request; cbn; (apply safe_bind; [apply _| |intros ?; no_call]).
  - apply begin_login_safe.
  - apply complete_login_safe.
  - apply get_session_safe.
  - apply delete_session_safe.
Qed.

Lemma perform_steps request db : steps db (perform (handle service request) w db).2.
Proof. apply safe_perform, handle_safe. Qed.

End World.
End Steps.

(** ** What a login and a session tell about the past *)
Section Logins.
Context `{!Platform, !IdentityCodec, !IdentityCodecLaws, !UserRepository, !UserRepositoryLaws}
  (service : Service).
Notation prefix := (service_prefix service).
Implicit Types w : world Auth.

Lemma constantTimeEqual_true a b : constantTimeEqual a b = true ↔ a = b.
Proof.
  unfold constantTimeEqual. destruct (Nat.eqb _ _) eqn:E1; cbn; [apply String.eqb_eq|].
  split; [done|]. intros ->. by rewrite Nat.eqb_refl in E1.
Qed.

(** A completed login: it took a transaction, and finished with it. *)
Lemma complete_login_Ok state code binding w db r db' :
  perform (CompleteLogin service state code binding) w db = (Ok r, db') →
  ∃ t s1 s', TakeTransaction prefix state w (0%nat, db) = (Ok t, s1) ∧
    finish_login service code binding t w s1 = (Ok r, s') ∧ s'.2 = db'.
Proof.
  intros (s & Hr & <-)%perform_Ok. unfold CompleteLogin in Hr. app_inv Hr. eauto 10.
Qed.

(** Finishing a login, one call after the other. *)
Lemma finish_login_Ok code binding t w s r s' :
  finish_login service code binding t w s = (Ok r, s') →
  world_now w 0 < login_ExpiresAt t ∧
  login_BrowserBindingHash t = hashSecret binding ∧
  (∃ identity db2 ev2,
    Exchange (service_provider service) code (login_PKCEVerifier t) (login_Nonce t)
      = Ok identity ∧
    (run (ResolveUser identity) db2 ev2).1 = Ok (session_User (complete_Session r))) ∧
  complete_Session r = {|
    session_ID := complete_SessionID r;
    session_CSRFHash := hashSecret (complete_CSRFToken r);
    session_User := session_User (complete_Session r);
    session_CreatedAt := world_now w 0;
    session_ExpiresAt := world_now w 0 + config_SessionTTL (service_config service) |} ∧
  (∃ v, marshal_session (complete_Session r) = Some v ∧
    auth_redis s'.2 !! sessionKey prefix (complete_SessionID r) =
      Some (v, milliseconds (env_clock (world_env w (S s.1)))
               + redis_ttl (config_SessionTTL (service_config service)))) ∧
  complete_ReturnTo r = login_ReturnTo t.
Proof.
  intros Hr. unfold finish_login, randomToken, service_now in Hr. app_inv Hr.
  cbn in *. unfold mret, app_ret in Hr. simplify_eq/=.
  apply fail_if_Ok, negb_false_iff, Z.ltb_lt in E0.
  apply fail_if_Ok, negb_false_iff, constantTimeEqual_true in E1.
  apply put_session_Ok in E6 as (v & Hv & Hk). cbn in *. split_and!; eauto 10.
  - do 3 eexists. split; [done|]. by rewrite E3.
  - exists v. split; [done|]. congruence.
Qed.

(** A login that completes takes the transaction with its first command: it is spent from
    then on, wherever the call is cut off. *)
Lemma cut_caller logins sessions n w :
  caller_world service logins sessions w → caller_world service logins sessions (cut n w).
Proof.
  intros [Hi Hl Hs]. split; [|done..]. intros i db. cbn [cut world_interfere].
  by destruct (Nat.ltb i n).
Qed.

Lemma take_cut state n w db :
  TakeTransaction prefix state (cut (S n) w) (0%nat, db)
    = TakeTransaction prefix state w (0%nat, db).
Proof. reflexivity. Qed.

Lemma complete_login_spends logins sessions state code binding w n db r db' :
  undrawn service logins sessions (transactionKey prefix state) →
  caller_world service logins sessions w →
  perform (CompleteLogin service state code binding) w db = (Ok r, db') →
  auth_redis db' !! transactionKey prefix state = None ∧
  auth_redis (perform (CompleteLogin service state code binding) (cut (S n) w) db).2
    !! transactionKey prefix state = None.
Proof.
  intros Hu Hw Hc. pose proof Hc as (t & s1 & s' & Ht & Hf & <-)%complete_login_Ok.
  pose proof (take_Ok _ _ _ _ _ _ Ht) as (_ & Hk & _). split.
  - pose proof (finish_login_safe service _ _ w Hw code binding t s1) as Hs.
    rewrite Hf in Hs. by apply (store_steps_gone _ _ _ _ _ _ Hu Hs).
  - pose proof (finish_login_safe service _ _ _ (cut_caller _ _ (S n) _ Hw) code binding t s1)
      as Hs.
    apply (store_steps_gone _ _ _ _ _ _ Hu Hs) in Hk. revert Hc Hk.
    unfold perform, CompleteLogin, mbind, app_bind, pure.
    destruct (fail_if _ _); [|done]. rewrite take_cut, Ht. intros _ Hk.
    by destruct (finish_login _ _ _ _ (cut _ _) _).
Qed.

Lemma complete_login_spent logins sessions state code binding w db :
  undrawn service logins sessions (transactionKey prefix state) →
  caller_world service logins sessions w →
  auth_redis db !! transactionKey prefix state = None →
  ∃ e, (perform (CompleteLogin service state code binding) w db).1 = Err e ∧
    (e = ErrInvalidRequest ∨ e = ErrAuthenticationFailed ∨ e = ErrRedis).
Proof.
  intros Hu Hw Hk.
  pose proof (store_steps_gone _ _ _ _ _ _ Hu (caller_interfere _ _ _ _ Hw 0%nat db) Hk) as Hg.
  apply (take_absent _ _ _ (0%nat, db)) in Hg as (e & He & Hcase).
  unfold perform, CompleteLogin, mbind, app_bind, pure.
  destruct (fail_if _ _) as [u|e'] eqn:Hf.
  - destruct (TakeTransaction _ _ _ _) as [r1 db1]. cbn in He. subst r1. cbn. eauto.
  - cbn. exists e'. split; [done|left]. revert Hf. unfold fail_if. by case_match; intros [=].
Qed.

Lemma undrawn_login logins sessions state :
  (∀ st, logins st → transactionKey prefix st ≠ transactionKey prefix state) →
  undrawn service logins sessions (transactionKey prefix state).
Proof. intros Hl. split; [done|]. intros sid _ Hk. by apply (keys_disjoint prefix state sid). Qed.

Lemma undrawn_session logins sessions sid :
  (∀ s, sessions s → sessionKey prefix s ≠ sessionKey prefix sid) →
  undrawn service logins sessions (sessionKey prefix sid).
Proof. intros Hs. split; [|done]. intros st _. apply keys_disjoint. Qed.

(** The transaction a login begins with, made of what the use case draws. *)
Definition login_of w (path raw0 raw1 raw2 raw3 : string) : LoginTransaction := {|
  login_State := EncodeToString raw0;
  login_BrowserBindingHash := hashSecret (EncodeToString raw1);
  login_Nonce := EncodeToString raw2;
  login_PKCEVerifier := oauth2_GenerateVerifier raw3;
  login_ReturnTo := path;
  login_CreatedAt := world_now w 0;
  login_ExpiresAt := world_now w 0 + config_TransactionTTL (service_config service) |}.

Lemma begin_login_Ok returnTo w db b db' :
  perform (BeginLogin service returnTo) w db = (Ok b, db') →
  ∃ path raw0 raw1 raw2 raw3 v until,
    safeReturnPath returnTo = Ok path ∧
    world_ids w 0 = Some raw0 ∧ world_ids w 1 = Some raw1 ∧
    world_ids w 2 = Some raw2 ∧ world_ids w 3 = Some raw3 ∧
    marshal_login (login_of w path raw0 raw1 raw2 raw3) = Some v ∧
    auth_redis db' !! transactionKey prefix (EncodeToString raw0) = Some (v, until) ∧
    b = {| begin_AuthorizationURL :=
             AuthorizationURL (service_provider service) (EncodeToString raw0)
               (EncodeToString raw2) (oauth2_GenerateVerifier raw3);
           begin_BrowserBinding := EncodeToString raw1;
           begin_ExpiresAt :=
             world_now w 0 + config_TransactionTTL (service_config service) |}.
Proof.
  intros (s & Hr & <-)%perform_Ok. unfold BeginLogin, randomToken, service_now in Hr.
  app_inv Hr. cbn in *. unfold mret, app_ret in Hr. simplify_eq/=.
  apply from_option_err_Ok, fmap_Some in E0 as (raw0 & Hr0 & ->).
  apply from_option_err_Ok, fmap_Some in E1 as (raw1 & Hr1 & ->).
  apply from_option_err_Ok, fmap_Some in E2 as (raw2 & Hr2 & ->).
  apply from_option_err_Ok, fmap_Some in E3 as (raw3 & Hr3 & ->).
  apply put_transaction_Ok in E5 as (v & Hv & Hk).
  by exists a, raw0, raw1, raw2, raw3, v; eexists; split_and!.
Qed.

Lemma hex_EncodeToString_graphic s : forall_bytes is_graphic (hex_EncodeToString s) = true.
Proof.
  unfold forall_bytes. induction s as [|c s IH]; [done|]. cbn. rewrite IH.
  by destruct c as [[] [] [] [] [] [] [] []].
Qed.

Lemma login_of_text w path raw0 raw1 raw2 raw3 :
  utf8_Valid path = true →
  forallb utf8_Valid (login_text (login_of w path raw0 raw1 raw2 raw3)) = true.
Proof.
  intros Hp. apply forallb_forall. cbn. intros s Hs. unfold hashSecret in *.
  destruct_or! Hs; subst; try done; apply ascii_is_utf8;
    auto using EncodeToString_graphic, hex_EncodeToString_graphic, verifier_is_ascii.
Qed.

(** A path that is accepted leads into the site. *)
Definition local_path (p : string) : Prop :=
  HasPrefix p "/" = true ∧ HasPrefix p "//" = false ∧
  ContainsAny p "\" = false ∧ ContainsAny p newlines = false.

Lemma safeReturnPath_local value p : safeReturnPath value = Ok p → local_path p.
Proof.
  unfold safeReturnPath, local_path. case_match; [by intros [= <-]|].
  case_match; [done|]. intros [= <-].
  match goal with Hc : _ || _ || _ || _ = false |- _ =>
    apply orb_false_iff in Hc as [[[Hp%negb_false_iff Hpp]%orb_false_iff Hb]%orb_false_iff Hn]
  end. done.
Qed.

(** A session that is returned was stored, and has not expired. *)
Lemma get_session_returns sid w s0 s s' :
  GetSession service sid w s0 = (Ok s, s') →
  (∃ v, redis_get (env_clock (world_env w s0.1)) (auth_redis (world_interfere w s0.1 s0.2))
          (sessionKey prefix sid) = Some v ∧ unmarshal_session v = Some s) ∧
  world_now w 0 < session_ExpiresAt s.
Proof.
  intros Hr. unfold GetSession, service_now in Hr. app_inv Hr. cbn in *. simplify_eq/=.
  apply get_session_Ok in E0.
  destruct (negb _) eqn:Hn.
  - by app_inv Hr.
  - injection Hr as -> _. bool_facts. auto.
Qed.

Lemma get_session_gone logins sessions sid w db :
  undrawn service logins sessions (sessionKey prefix sid) →
  caller_world service logins sessions w →
  auth_redis db !! sessionKey prefix sid = None →
  ∀ s, (perform (GetSession service sid) w db).1 ≠ Ok s.
Proof.
  intros Hu Hw Hk s Hs. unfold perform in Hs.
  destruct (GetSession service sid w (0%nat, db)) as [r s'] eqn:Hr. cbn in Hs. subst r.
  apply get_session_returns in Hr as [(v & Hv & _) _]. cbn in Hv.
  pose proof (store_steps_gone _ _ _ _ _ _ Hu (caller_interfere _ _ _ _ Hw 0%nat db) Hk) as Hg.
  unfold redis_get in Hv. by rewrite Hg in Hv.
Qed.

(** Revoking a session. *)
Lemma delete_session_revokes sid token w db u db' :
  perform (DeleteSession service sid token) w db = (Ok u, db') →
  (∃ s s1, GetSession service sid w (0%nat, db) = (Ok s, s1) ∧
     session_CSRFHash s = hashSecret token) ∧
  auth_redis db' !! sessionKey prefix sid = None.
Proof.
  intros (s & Hr & <-)%perform_Ok. unfold DeleteSession in Hr.
  apply app_bind_Ok in Hr as (session & s1 & Hg & Hr).
  apply app_bind_Ok in Hr as ([] & s2 & Ht & Hr). apply pure_Ok in Ht as [Ht ->].
  apply fail_if_Ok, negb_false_iff, constantTimeEqual_true in Ht.
  apply delete_session_Ok in Hr. eauto.
Qed.

(** Reading leaves the stores alone, unless the session it finds has expired. *)
Lemma get_session_leaves sid w s :
  String.eqb (TrimSpace sid) "" = false →
  (∀ session s', Store_GetSession prefix sid w s = (Ok session, s') →
     world_now w 0 < session_ExpiresAt session) →
  (GetSession service sid w s).2 = (S s.1, world_interfere w s.1 s.2).
Proof.
  intros Hsid Hexp. unfold GetSession, service_now, mbind, app_bind, pure. rewrite Hsid. cbn.
  pose proof (get_session_same prefix sid w s) as Hs.
  destruct (Store_GetSession _ _ _ _) as [[session|e] s1]; cbn in Hs; subst s1; [|done]. cbn.
  specialize (Hexp _ _ eq_refl). apply Z.ltb_lt in Hexp. by rewrite Hexp.
Qed.

Lemma get_session_answers sid w s session :
  String.eqb (TrimSpace sid) "" = false →
  (Store_GetSession prefix sid w s).1 = Ok session →
  world_now w 0 < session_ExpiresAt session →
  (GetSession service sid w s).1 = Ok session.
Proof.
  intros Hsid Hg Hexp. unfold GetSession, service_now, mbind, app_bind, pure. rewrite Hsid. cbn.
  destruct (Store_GetSession _ _ _ _) as [r s1]. cbn in Hg. subst r. cbn.
  apply Z.ltb_lt in Hexp. by rewrite Hexp.
Qed.

(** A revocation with a token that is not the session's changes nothing. *)
Lemma delete_session_refused sid token w s :
  String.eqb (TrimSpace sid) "" = false →
  (∀ session s', Store_GetSession prefix sid w s = (Ok session, s') →
     world_now w 0 < session_ExpiresAt session ∧
     session_CSRFHash session ≠ hashSecret token) →
  (∃ e, (DeleteSession service sid token w s).1 = Err e) ∧
  (DeleteSession service sid token w s).2 = (S s.1, world_interfere w s.1 s.2).
Proof.
  intros Hsid Hs. pose proof (get_session_leaves sid w s Hsid) as Hl.
  specialize (Hl (λ session s' Hg, proj1 (Hs session s' Hg))).
  unfold DeleteSession, mbind, app_bind, pure.
  destruct (GetSession service sid w s) as [[session|e] s1] eqn:Hg; cbn in Hl; subst s1; [|eauto].
  assert (session_CSRFHash session ≠ hashSecret token) as Hne.
  { unfold GetSession, service_now, mbind, app_bind, pure in Hg. rewrite Hsid in Hg. cbn in Hg.
    destruct (Store_GetSession _ _ _ _) as [[session'|e] s1] eqn:Hst; [|done].
    destruct (Hs _ _ eq_refl) as [Hexp%Z.ltb_lt Htok]. cbn in Hg. rewrite Hexp in Hg.
    by injection Hg as <- _. }
  cbn. destruct (constantTimeEqual _ _) eqn:Hc; [by apply constantTimeEqual_true in Hc|].
  cbn. eauto.
Qed.

(** What a stored value is read as, after any steps that draw no key for it. *)
Lemma minted_session logins sessions s db1 db2 now v until s' :
  undrawn service logins sessions (sessionKey prefix (session_ID s)) →
  rtc (store_step service logins sessions) db1 db2 →
  forallb utf8_Valid (session_text s) = true →
  marshal_session s = Some v →
  auth_redis db1 !! sessionKey prefix (session_ID s) = Some (v, until) →
  (∃ v', redis_get now (auth_redis db2) (sessionKey prefix (session_ID s)) = Some v' ∧
     unmarshal_session v' = Some s') →
  s' = s.
Proof.
  intros Hu Hsteps Hutf Hv Hk (v' & Hget & Hs'). unfold redis_get in Hget.
  destruct (store_steps_key _ _ _ _ _ _ Hu Hsteps) as [Hk'|Hk']; rewrite Hk' in Hget; [|done].
  rewrite Hk in Hget. case_match; [|done]. injection Hget as <-.
  rewrite (session_roundtrip _ _ Hutf Hv) in Hs'. by injection Hs' as ->.
Qed.

(** C29 (a login state completes one login). Two calls complete a login with one state, and the
    first command of one of them runs before the first command of the other. Suppose the former
    completes. Then the other is refused, before the provider is asked, as an invalid request,
    as a failed authentication, or because Redis cannot be reached: when it begins after the
    former has ended, and when the two overlap, with the former [n + 1] commands into its work
    as the other begins. Commands of other callers may run at any point, among them those of
    the former call that are still to come; no login begins with the same state. *)
Theorem login_single_use logins sessions state code1 binding1 code2 binding2 w1 w2 db r1 db1
    db2 :
  (∀ st, logins st → transactionKey prefix st ≠ transactionKey prefix state) →
  caller_world service logins sessions w1 → caller_world service logins sessions w2 →
  perform (CompleteLogin service state code1 binding1) w1 db = (Ok r1, db1) →
  rtc (store_step service logins sessions) db1 db2 ∨
  (∃ n, rtc (store_step service logins sessions)
          (perform (CompleteLogin service state code1 binding1) (cut (S n) w1) db).2 db2) →
  ∃ e, (perform (CompleteLogin service state code2 binding2) w2 db2).1 = Err e ∧
    (e = ErrInvalidRequest ∨ e = ErrAuthenticationFailed ∨ e = ErrRedis).
Proof.
  intros Hl%(undrawn_login _ sessions) Hw1 Hw2 Hc Hsteps.
  apply (complete_login_spent logins sessions); [done..|].
  destruct Hsteps as [Hsteps|[n Hsteps]]; eapply (store_steps_gone _ _ _ _ _ _ Hl Hsteps).
  - by eapply (complete_login_spends _ _ _ _ _ _ 0 _ _ _ Hl Hw1 Hc).
  - by eapply (complete_login_spends _ _ _ _ _ _ n _ _ _ Hl Hw1 Hc).
Qed.

(** C27 (a login belongs to the browser that began it). When a login completes with the state
    of one that was begun, and no other login has drawn that state, then the browser presents
    the binding it was handed, in time; the provider has been asked with the nonce and the
    PKCE verifier of the authorization URL and has named the identity of the session's user;
    the browser returns to the path it asked for, a path of this site; and the session is
    in the store, for the configured time. *)
Theorem login_bound_to_browser logins sessions returnTo w0 db0 b db1 raw db2 code binding w r
    db' :
  (∀ path, safeReturnPath returnTo = Ok path → utf8_Valid path = true) →
  perform (BeginLogin service returnTo) w0 db0 = (Ok b, db1) →
  world_ids w0 0 = Some raw →
  (∀ st, logins st →
     transactionKey prefix st ≠ transactionKey prefix (EncodeToString raw)) →
  rtc (store_step service logins sessions) db1 db2 →
  caller_world service logins sessions w →
  perform (CompleteLogin service (EncodeToString raw) code binding) w db2 = (Ok r, db') →
  hashSecret binding = hashSecret (begin_BrowserBinding b) ∧
  world_now w 0 < begin_ExpiresAt b ∧
  (∃ nonce verifier identity db ev,
    begin_AuthorizationURL b =
      AuthorizationURL (service_provider service) (EncodeToString raw) nonce verifier ∧
    Exchange (service_provider service) code verifier nonce = Ok identity ∧
    (run (ResolveUser identity) db ev).1 = Ok (session_User (complete_Session r))) ∧
  safeReturnPath returnTo = Ok (complete_ReturnTo r) ∧ local_path (complete_ReturnTo r) ∧
  session_ExpiresAt (complete_Session r)
    = world_now w 0 + config_SessionTTL (service_config service) ∧
  ∃ v until, marshal_session (complete_Session r) = Some v ∧
    auth_redis db' !! sessionKey prefix (complete_SessionID r) = Some (v, until).
Proof.
  intros Hutf (path & raw0 & raw1 & raw2 & raw3 & v & until & Hpath & Hr0 & Hr1 & Hr2 & Hr3 & Hv &
    Hk & ->)%begin_login_Ok Hraw Hl%(undrawn_login _ sessions) Hsteps Hw
    (t & s1 & s' & Ht & Hf & <-)%complete_login_Ok.
  rewrite Hr0 in Hraw. injection Hraw as ->.
  apply take_Ok in Ht as ((v' & Hget & Ht) & _). cbn in Hget.
  assert (Hsteps' : rtc (store_step service logins sessions) db1 (world_interfere w 0 db2))
    by (etrans; [done|apply Hw]).
  unfold redis_get in Hget.
  destruct (store_steps_key _ _ _ _ _ _ Hl Hsteps') as [Hk'|Hk']; rewrite Hk' in Hget; [|done].
  rewrite Hk in Hget. case_match; [|done]. injection Hget as <-.
  rewrite (login_roundtrip _ _ (login_of_text _ _ _ _ _ _ (Hutf _ Hpath)) Hv) in Ht.
  injection Ht as <-.
  apply finish_login_Ok in Hf as (Hexp & Hbind & (identity & db & ev & Hx & Hu) & Hs & Hst & Hret).
  cbn in *. rewrite Hret. split_and!; try done.
  - by exists (EncodeToString raw2), (oauth2_GenerateVerifier raw3), identity, db, ev.
  - by apply safeReturnPath_local in Hpath.
  - by rewrite Hs.
  - destruct Hst as (v' & Hv' & Hk2). by eexists v', _.
Qed.

(** *** Requests that leave a session alone *)

(** In the world [w] nobody else touches the key [k] while a request is served. *)
Definition spares (k : string) w : Prop :=
  ∀ n db, auth_redis (world_interfere w n db) !! k = auth_redis db !! k.

(** The request that revokes the session of a login: it names the session and presents a token
    with the digest of the login's CSRF token. *)
Definition revokes (r : CompleteLoginResult) (request : Request) : Prop := ∃ sid token,
  request = DeleteSessionRequest sid token ∧
  sessionKey prefix sid = sessionKey prefix (complete_SessionID r) ∧
  hashSecret token = hashSecret (complete_CSRFToken r).

(** Any other request that is served before the session expires. *)
Inductive other_request (sessions : string → Prop) (r : CompleteLoginResult) (db : Auth)
  : Auth → Prop :=
| an_other_request request w :
    (∀ raw, world_ids w 0%nat = Some raw → sessions (EncodeToString raw)) →
    spares (sessionKey prefix (complete_SessionID r)) w →
    world_now w 0 < session_ExpiresAt (complete_Session r) →
    ¬ revokes r request →
    other_request sessions r db (perform (handle service request) w db).2.

Section Kept.
Context (sid v : string) (until : Z) (session : Session) (w : world Auth).
Notation key := (sessionKey prefix sid).
Hypothesis Hv : unmarshal_session v = Some session.
Hypothesis Hspares : spares key w.
Hypothesis Hnow : world_now w 0 < session_ExpiresAt session.

Definition kept (db : Auth) : Prop := auth_redis db !! key = Some (v, until).
Notation keeps m := (triple kept w m (λ _, True)).

Lemma interfere_kept n db : kept db → kept (world_interfere w n db).
Proof. unfold kept. by rewrite Hspares. Qed.

Lemma send_kept {A} k (f : Z → Redis → A * Redis) : on_key k f → k ≠ key → keeps (send f).
Proof.
  intros Hf Hk. apply triple_call; [apply interfere_kept|]. intros db ev Hdb. split; [|done].
  unfold kept. by rewrite (run_command_frame k f) by done.
Qed.

Lemma pure_kept {A} (f : world Auth → result error A) : keeps (pure f).
Proof. by apply triple_pure. Qed.

Lemma store_get_kept sid' :
  triple kept w (Store_GetSession prefix sid')
    (λ found, sessionKey prefix sid' = key → found = session).
Proof.
  intros s Hs. rewrite get_session_same. split; [by apply interfere_kept|].
  intros found Hf Hk. destruct (Store_GetSession _ _ _ _) as [r s'] eqn:Hg. cbn in Hf. subst r.
  apply get_session_Ok in Hg as (v' & Hget & Hv'). unfold redis_get in Hget.
  rewrite Hk, (interfere_kept s.1 s.2 Hs) in Hget. case_match; [|done]. congruence.
Qed.

Lemma get_session_kept sid' :
  triple kept w (GetSession service sid') (λ found, sessionKey prefix sid' = key → found = session).
Proof.
  eapply triple_bind; [apply pure_kept|intros _ _].
  eapply triple_bind; [apply store_get_kept|intros found Hf].
  eapply triple_bind; [apply (triple_pure _ _ _ (λ now, now = world_now w 0)); by intros ? [= <-]|].
  intros now ->. destruct (negb _) eqn:Hexp; [|by apply triple_ret].
  eapply triple_bind with (P := λ _, True); [|intros _ _; by apply triple_pure].
  destruct (decide (sessionKey prefix sid' = key)) as [Hk|Hk].
  - rewrite (Hf Hk) in Hexp. bool_facts. lia.
  - intros s Hs. destruct (send_kept _ _ (on_key_DEL (sessionKey prefix sid')) Hk s Hs) as [Hs' _].
    unfold attempt, Store_DeleteSession. by destruct (send _ _ _).
Qed.

Lemma delete_session_kept sid' token :
  (sessionKey prefix sid' = key → hashSecret token ≠ session_CSRFHash session) →
  keeps (DeleteSession service sid' token).
Proof.
  intros Htok. eapply triple_bind; [apply get_session_kept|intros found Hf].
  eapply triple_bind; [apply (triple_pure _ _ _ (λ _, sessionKey prefix sid' ≠ key))|].
  - intros u Ht Hk. apply fail_if_Ok, negb_false_iff, constantTimeEqual_true in Ht.
    rewrite (Hf Hk) in Ht. by apply (Htok Hk).
  - intros u Hk. apply (send_kept (sessionKey prefix sid')); [apply on_key_DEL|done].
Qed.

Lemma begin_login_kept returnTo : keeps (BeginLogin service returnTo).
Proof.
  do 6 (eapply triple_bind; [apply pure_kept|intros ? _]).
  eapply triple_bind with (P := λ _, True); [|by intros; apply triple_ret].
  eapply triple_bind; [apply pure_kept|intros value _].
  eapply send_kept; [apply on_key_SET|apply keys_disjoint].
Qed.

Lemma complete_login_kept state code binding :
  (∀ raw, world_ids w 0%nat = Some raw → sessionKey prefix (EncodeToString raw) ≠ key) →
  keeps (CompleteLogin service state code binding).
Proof.
  intros Hids. eapply triple_bind; [apply pure_kept|intros _ _].
  eapply triple_bind with (P := λ _, True).
  { eapply triple_bind; [|intros ? _; eapply triple_bind; [apply pure_kept|intros ? _; apply pure_kept]].
    eapply send_kept; [apply on_key_GETDEL|apply keys_disjoint]. }
  intros t _. do 4 (eapply triple_bind; [apply pure_kept|intros ? _]).
  eapply triple_bind with (P := λ _, True).
  { apply triple_call; [apply interfere_kept|]. intros db ev Hdb. split; [|done].
    unfold kept. by rewrite resolve_keeps_redis. }
  intros user _.
  eapply triple_bind; [apply (triple_pure _ _ _ (λ id, sessionKey prefix id ≠ key))|].
  { intros id Hid. apply from_option_err_Ok, fmap_Some in Hid as (raw & Hraw & ->). by apply Hids. }
  intros id Hid. eapply triple_bind; [apply pure_kept|intros ? _].
  eapply triple_bind with (P := λ _, True); [|by intros; apply triple_ret].
  eapply triple_bind; [apply pure_kept|intros value _].
  eapply send_kept; [apply on_key_SET|done].
Qed.
End Kept.

Lemma other_request_kept sessions r v until db db' :
  (∀ s, sessions s → sessionKey prefix s ≠ sessionKey prefix (complete_SessionID r)) →
  session_CSRFHash (complete_Session r) = hashSecret (complete_CSRFToken r) →
  unmarshal_session v = Some (complete_Session r) →
  other_request sessions r db db' →
  kept (complete_SessionID r) v until db → kept (complete_SessionID r) v until db'.
Proof.
  intros Hs Hcsrf Hv [request w Hids Hspares Hnow Hr] Hdb.
  assert (triple (kept (complete_SessionID r) v until) w (handle service request) (λ _, True)) as Ht;
    [|by apply (triple_perform _ _ _ _ _ Ht)].
  destruct request as [returnTo|state code binding|sid|sid token]; cbn;
    (eapply triple_bind with (P := λ _, True); [|by intros; apply triple_ret]).
  - by apply begin_login_kept.
  - apply complete_login_kept; [done|]. intros raw Hraw. by apply Hs, Hids.
  - eapply triple_weaken; [by eapply get_session_kept|done].
  - eapply delete_session_kept; [done..|]. intros Hk Htok. apply Hr. exists sid, token.
    split_and!; congruence.
Qed.

Lemma other_requests_kept sessions r v until db db' :
  (∀ s, sessions s → sessionKey prefix s ≠ sessionKey prefix (complete_SessionID r)) →
  session_CSRFHash (complete_Session r) = hashSecret (complete_CSRFToken r) →
  unmarshal_session v = Some (complete_Session r) →
  rtc (other_request sessions r) db db' →
  kept (complete_SessionID r) v until db → kept (complete_SessionID r) v until db'.
Proof.
  intros Hs Hcsrf Hv. induction 1 as [db|db db1 db2 Hstep _ IH]; [done|]. intros Hdb.
  apply IH. by eapply other_request_kept.
Qed.

(** C28 (the life of a session). A completed login mints a session, stored for the configured
    time; no other session draws its identifier.
    1. As long as every other request is served before the session expires and none of them
       names the session and presents its CSRF token, a call that presents the identifier in
       time, and reaches Redis, is given the session: nothing else revokes it.
    2. Whatever happens in between, a call that presents the identifier is given that session
       or an error, and the session only before it expires.
    3. A revocation succeeds only with a token of the CSRF token's digest; with another one it
       fails, and before the session expires it leaves the stores as it finds them.
    4. Once the session is revoked, no call is given a session for the identifier again. *)
Theorem session_lifecycle logins sessions state code binding w0 db0 r db1 :
  perform (CompleteLogin service state code binding) w0 db0 = (Ok r, db1) →
  forallb utf8_Valid (session_text (complete_Session r)) = true →
  String.eqb (TrimSpace (complete_SessionID r)) "" = false →
  (∀ s, sessions s → sessionKey prefix s ≠ sessionKey prefix (complete_SessionID r)) →
  let expires := world_now w0 0 + config_SessionTTL (service_config service) in
  let kept_until := milliseconds (env_clock (world_env w0 2))
                    + redis_ttl (config_SessionTTL (service_config service)) in
  (∀ db2 w, rtc (other_request sessions r) db1 db2 →
     spares (sessionKey prefix (complete_SessionID r)) w →
     env_budget (world_env w 0) = None → world_now w 0 < expires →
     milliseconds (env_clock (world_env w 0)) ≤ kept_until →
     (perform (GetSession service (complete_SessionID r)) w db2).1 = Ok (complete_Session r)) ∧
  ∀ db2 w, rtc (store_step service logins sessions) db1 db2 →
    caller_world service logins sessions w →
    (∀ s db3, perform (GetSession service (complete_SessionID r)) w db2 = (Ok s, db3) →
       s = complete_Session r ∧ world_now w 0 < expires) ∧
    (∀ token result db3,
       perform (DeleteSession service (complete_SessionID r) token) w db2 = (result, db3) →
       hashSecret token ≠ hashSecret (complete_CSRFToken r) →
       (∃ e, result = Err e) ∧
       (world_now w 0 < expires → db3 = world_interfere w 0 db2)) ∧
    (∀ token db3,
       perform (DeleteSession service (complete_SessionID r) token) w db2 = (Ok tt, db3) →
       ∀ db4 w', rtc (store_step service logins sessions) db3 db4 →
         caller_world service logins sessions w' →
         ∀ s, (perform (GetSession service (complete_SessionID r)) w' db4).1 ≠ Ok s).
Proof.
  intros (t & s1 & s2 & Ht & Hf & <-)%complete_login_Ok Hutf Hsid Hs expires kept_until.
  pose proof (undrawn_session logins sessions _ Hs) as Hu.
  apply take_Ok in Ht as (_ & _ & Hs1). cbn in Hs1.
  apply finish_login_Ok in Hf as (_ & _ & _ & Hr & (v & Hv & Hk) & _). rewrite Hs1 in Hk.
  assert (Hid : session_ID (complete_Session r) = complete_SessionID r) by (by rewrite Hr).
  assert (Hexp : session_ExpiresAt (complete_Session r) = expires) by (by rewrite Hr).
  assert (Hcsrf : session_CSRFHash (complete_Session r) = hashSecret (complete_CSRFToken r))
    by (by rewrite Hr).
  pose proof (session_roundtrip _ _ Hutf Hv) as Hv'. split.
  - intros db2 w Hother Hw Hev Hnow Huntil.
    assert (kept (complete_SessionID r) v kept_until db2) as Hdb.
    { by eapply other_requests_kept. }
    rewrite <-Hexp in Hnow.
    pose proof (get_session_answers (complete_SessionID r) w (0%nat, db2) (complete_Session r) Hsid)
      as Hg.
    unfold perform. destruct (GetSession _ _ _ _) as [res s'] eqn:E1. cbn in Hg |- *.
    apply Hg; [|done]. eapply get_session_present; [done| |done].
    unfold redis_get. cbn. rewrite Hw, Hdb. apply Z.leb_le in Huntil. by rewrite Huntil.
  - intros db2 w Hsteps Hw.
    assert (Hread : ∀ s, (∃ v', redis_get (env_clock (world_env w 0))
        (auth_redis (world_interfere w 0 db2)) (sessionKey prefix (complete_SessionID r)) = Some v'
        ∧ unmarshal_session v' = Some s) → s = complete_Session r).
    { intros s. rewrite <-Hid.
      apply (minted_session logins sessions _ s2.2 _ _ v kept_until); rewrite ?Hid; try done.
      etrans; [exact Hsteps|apply Hw]. }
    split_and!.
    + intros s db3 (s' & Hg & _)%perform_Ok.
      apply get_session_returns in Hg as [->%Hread Hnow]. by rewrite Hexp in Hnow.
    + intros token result db3 Hd Htok. split.
      * destruct result as [[]|e]; [exfalso|eauto].
        apply delete_session_revokes in Hd as [(s & s' & Hg & Hh) _].
        apply get_session_returns in Hg as [->%Hread _]. congruence.
      * intros Hnow. apply perform_Ok in Hd as (s & Hd & <-).
        destruct (delete_session_refused (complete_SessionID r) token w (0%nat, db2) Hsid) as [_ Hl];
          [|by rewrite Hd in Hl; cbn in Hl; subst s].
        intros session s' ->%get_session_Ok%Hread. rewrite Hexp, Hcsrf. split; [done|congruence].
    + intros token db3 [_ Hgone]%delete_session_revokes db4 w' Hsteps' Hw'.
      apply (get_session_gone logins sessions); [done..|].
      by apply (store_steps_gone _ _ _ _ _ _ Hu Hsteps').
Qed.

End Logins.

(** ** The OpenID Connect client *)
Section Client.
Context `{!IdentityCodec}.

Lemma mergeUserInfo_Ok client token i i' :
  mergeUserInfo client token i = Ok i' →
  ext_Issuer i' = ext_Issuer i ∧ ext_Subject i' = ext_Subject i ∧
  ∃ info claims, oidc_UserInfo (client_oidc client) token = Some info ∧
    userinfo_Subject info = ext_Subject i ∧ userinfo_Claims info = Some claims ∧
    (ext_Email i', ext_EmailVerified i') =
      if String.eqb (ext_Email i) "" then (claims_Email claims, claims_EmailVerified claims)
      else (ext_Email i, ext_EmailVerified i).
Proof.
  unfold mergeUserInfo. intros Hr. result_inv Hr. bool_facts. injection Hr as <-. cbn.
  split_and!; [done..|]. do 2 eexists. split_and!; [done..|]. by case_match.
Qed.

(** C30 (an identity is vouched for by the provider). An identity that the client returns is
    that of an ID token that the provider issued for the code and the PKCE verifier and that
    passed verification, with the nonce of the login and, where the token says one, the hash
    of the access token; its issuer and its subject, never blank, are those of the token.
    The address and whether it is verified come from the same place: the token, or, where it
    has no address, a UserInfo response about the same subject. Where a verified address is
    required, there is one. *)
Theorem exchange_trusted client code verifier nonce identity :
  Client_Exchange client code verifier nonce = Ok identity →
  let oidc := client_oidc client in
  ∃ token raw idToken claims,
    oidc_Exchange oidc code verifier = Some token ∧ token_id_token token = Some raw ∧
    oidc_Verify oidc raw = Some idToken ∧ idtoken_Nonce idToken = nonce ∧
    (idtoken_AccessTokenHash idToken ≠ "" →
       oidc_VerifyAccessToken oidc idToken (token_AccessToken token) = true) ∧
    oidc_Claims oidc idToken = Some claims ∧
    ext_Issuer identity = idtoken_Issuer idToken ∧
    ext_Subject identity = claims_Subject claims ∧ TrimSpace (ext_Subject identity) ≠ "" ∧
    ((ext_Email identity, ext_EmailVerified identity)
       = (claims_Email claims, claims_EmailVerified claims) ∨
     claims_Email claims = "" ∧
     ∃ info more, oidc_UserInfo oidc token = Some info ∧
       userinfo_Subject info = ext_Subject identity ∧ userinfo_Claims info = Some more ∧
       (ext_Email identity, ext_EmailVerified identity)
         = (claims_Email more, claims_EmailVerified more)) ∧
    (oidc_RequireVerifiedEmail (client_config client) = true →
       TrimSpace (ext_Email identity) ≠ "" ∧ ext_EmailVerified identity = true).
Proof.
  intros Hr oidc. unfold Client_Exchange in Hr. result_inv Hr. injection Hr as <-.
  unfold blank in *. bool_facts.
  exists v, v0, v2, v5.
  assert (Hmail : oidc_RequireVerifiedEmail (client_config client) = true →
    TrimSpace (ext_Email v8) ≠ "" ∧ ext_EmailVerified v8 = true).
  { intros Hreq. rewrite Hreq in *. cbn in *. bool_facts. done. }
  assert (Hhash : idtoken_AccessTokenHash v2 ≠ "" →
    oidc_VerifyAccessToken oidc v2 (token_AccessToken v) = true).
  { intros Hh%String.eqb_neq. rewrite Hh in *. cbn in *. by bool_facts. }
  destruct (oidc_FetchUserInfo _).
  - apply mergeUserInfo_Ok in E8 as (Hi & Hs & info & more & Hinfo & Hsub & Hmore & He).
    cbn in *. rewrite Hi, Hs. split_and!; try done.
    rewrite He. destruct (String.eqb_spec (claims_Email v5) ""); [right|by left].
    split; [done|]. by exists info, more.
  - injection E8 as <-. cbn in *. split_and!; try done. by left.
Qed.
End Client.

(** ** The repository of users *)

(** The identifiers of [gen_random_uuid] are in the form PostgreSQL prints. *)
Class IamServerLaws `{Platform, IamServer} : Prop :=
  gen_random_uuid_canonical : ∀ users now,
    uuid_in (gen_random_uuid users now) = Some (gen_random_uuid users now).

(** The tables: user identifiers are in their printed form, and the user of an external
    identity exists. *)
Definition users_wf `{Platform} (db : Auth) : Prop :=
  (∀ id row, auth_users db !! id = Some row → uuid_in id = Some id) ∧
  (∀ k i, auth_identities db !! k = Some i → is_Some (auth_users db !! ident_user_id i)).

Definition active (db : Auth) (id : string) : bool :=
  match auth_users db !! id with Some row => is_active row | None => false end.

(** The user an issuer and a subject are mapped to. *)
Definition owner (db : Auth) (k : string * string) : option string :=
  ident_user_id <$> auth_identities db !! k.

Section Users.
Context `{!Platform, !IamServer, !IamServerLaws}.
Implicit Types (db : Auth) (ev : env).

Lemma text_in_Ok s t : text_in s = Ok t → t = s.
Proof. unfold text_in. intros Hr. result_inv Hr. by injection Hr. Qed.

(** Only the row of [id] among the users changes. *)
Definition only_user (id : string) (db db' : Auth) : Prop :=
  auth_identities db' = auth_identities db ∧ auth_redis db' = auth_redis db ∧
  ∀ id', id' ≠ id → auth_users db' !! id' = auth_users db !! id'.

Lemma select_active_user_Ok issuer subject db found :
  select_active_user issuer subject db = Ok found →
  match found with
  | Some user => owner db (issuer, subject) = Some (user_ID user) ∧
                 active db (user_ID user) = true
  | None => ∀ id, owner db (issuer, subject) = Some id → active db id = false
  end.
Proof.
  unfold select_active_user, owner, active. intros Hr. result_inv Hr.
  apply text_in_Ok in E as ->. apply text_in_Ok in E0 as ->. injection Hr as <-.
  destruct (auth_identities db !! _) as [i|]; cbn; [|done].
  destruct (auth_users db !! ident_user_id i) as [row|] eqn:Hrow; cbn.
  - destruct (is_active row) eqn:Ha; cbn; [by rewrite Hrow|].
    intros id [= <-]. by rewrite Hrow.
  - intros id [= <-]. by rewrite Hrow.
Qed.

Lemma insert_user_Ok now identity db user db' :
  insert_user now identity db = Ok (user, db') →
  auth_users db !! user_ID user = None ∧ active db' (user_ID user) = true ∧
  uuid_in (user_ID user) = Some (user_ID user) ∧ only_user (user_ID user) db db'.
Proof.
  unfold insert_user, active, only_user. intros Hr. result_inv Hr. simplify_eq/=.
  rewrite lookup_insert_eq. split_and!; try done.
  - by destruct (auth_users db !! _).
  - intros id' Hid. by apply lookup_insert_ne.
Qed.

Lemma update_user_row_Ok userID identity db user db' :
  uuid_in userID = Some userID →
  update_user_row userID identity db = Ok (user, db') →
  user_ID user = userID ∧ active db' userID = true ∧ only_user userID db db'.
Proof.
  intros Hid. unfold update_user_row, cast, active, only_user. intros Hr. result_inv Hr.
  simplify_eq/=. rewrite lookup_insert_eq. split_and!; try done.
  - by apply negb_false_iff in E4.
  - intros id' Hne. by apply lookup_insert_ne.
Qed.

Lemma upsert_identity_row_Ok userID identity raw db u db' :
  uuid_in userID = Some userID →
  upsert_identity_row userID identity raw db = Ok (u, db') →
  auth_users db' = auth_users db ∧ auth_redis db' = auth_redis db ∧
  owner db' (ext_Issuer identity, ext_Subject identity) =
    Some (default userID (owner db (ext_Issuer identity, ext_Subject identity))) ∧
  (∀ k, k ≠ (ext_Issuer identity, ext_Subject identity) →
     auth_identities db' !! k = auth_identities db !! k) ∧
  (owner db (ext_Issuer identity, ext_Subject identity) = None →
     is_Some (auth_users db !! userID)).
Proof.
  intros Hid. unfold upsert_identity_row, cast, owner. intros Hr. result_inv Hr.
  apply text_in_Ok in E as ->. apply text_in_Ok in E0 as ->. rewrite Hid in E1.
  injection E1 as ->. injection Hr as _ <-. cbn. rewrite lookup_insert_eq.
  assert (Hother : ∀ (k : string * string) row, k ≠ (ext_Issuer identity, ext_Subject identity) →
    (<[(ext_Issuer identity, ext_Subject identity) := row]> (auth_identities db)) !! k
      = auth_identities db !! k) by (intros; by apply lookup_insert_ne).
  destruct (auth_identities db !! _) as [i|] eqn:Hi; cbn in *.
  - injection E4 as <-. split_and!; auto. done.
  - result_inv E4. injection E4 as <-. split_and!; auto. intros _.
    destruct (auth_users db !! v1); [done|]. done.
Qed.

Lemma BeginTx_Ok s u s' :
  BeginTx s = (Ok u, s') →
  session_db s' = session_db s ∧ session_committed s' = session_committed s.
Proof.
  unfold BeginTx, raw. intros (v & s1 & (Hd & _ & Hc & _)%statement_Ok & Hq)%tx_bind_Ok.
  by simplify_eq/=.
Qed.

(** The user that is updated or created, and the tables then. *)
Lemma found_or_created found identity s user s' :
  users_wf (session_db s) →
  match found with
  | Some user => owner (session_db s) (ext_Issuer identity, ext_Subject identity)
                   = Some (user_ID user) ∧ active (session_db s) (user_ID user) = true
  | None => ∀ id, owner (session_db s) (ext_Issuer identity, ext_Subject identity) = Some id →
              active (session_db s) id = false
  end →
  (match found with
   | None => createUser identity
   | Some user => updateUser (user_ID user) identity
   end) s = (Ok user, s') →
  uuid_in (user_ID user) = Some (user_ID user) ∧
  active (session_db s') (user_ID user) = true ∧
  only_user (user_ID user) (session_db s) (session_db s') ∧
  session_committed s' = session_committed s ∧
  match found with
  | Some user0 => user_ID user = user_ID user0
  | None => auth_users (session_db s) !! user_ID user = None
  end.
Proof.
  intros [Hids _] Hf. destruct found as [user0|].
  - unfold updateUser. intros (_ & Hw & _ & Hc & _)%exec_Ok. destruct Hf as [Ho Ha].
    assert (Hid : uuid_in (user_ID user0) = Some (user_ID user0)).
    { unfold active in Ha. case_match; [by eapply Hids|done]. }
    apply update_user_row_Ok in Hw as (Hu & Hact & Hon); [|done]. rewrite Hu. auto.
  - unfold createUser. intros (now & s1 & Hclock & (_ & Hw & _ & Hc & _)%exec_Ok)%tx_bind_Ok.
    apply clock_Ok in Hclock as ->.
    apply insert_user_Ok in Hw as (Hnew & Hact & Hid & Hon). auto.
Qed.

(** The tables stay well formed when a user with a printed identifier is written and the
    identity is mapped to a user that exists. *)
Lemma users_wf_after k id db db2 db3 :
  users_wf db → uuid_in id = Some id → only_user id db db2 → active db2 id = true →
  auth_users db3 = auth_users db2 → owner db3 k = Some (default id (owner db k)) →
  (∀ k', k' ≠ k → auth_identities db3 !! k' = auth_identities db2 !! k') → users_wf db3.
Proof.
  intros [Hids Hfk] Hid (Hi & _ & Ho) Hact Hus How Hk.
  assert (Hin : is_Some (auth_users db2 !! id)).
  { unfold active in Hact. by destruct (auth_users db2 !! id). }
  assert (Hsub : ∀ id', is_Some (auth_users db !! id') → is_Some (auth_users db2 !! id')).
  { intros id' Hs. destruct (decide (id' = id)) as [->|Hne]; [done|]. by rewrite Ho. }
  split; rewrite Hus.
  - intros id' row Hrow. destruct (decide (id' = id)) as [->|Hne]; [done|].
    rewrite Ho in Hrow by done. eauto.
  - intros k' i Hk'. destruct (decide (k' = k)) as [->|Hne].
    + unfold owner in How. rewrite Hk' in How. cbn in How. injection How as ->.
      destruct (auth_identities db !! k) as [i0|] eqn:Hi0; cbn; eauto.
    + rewrite Hk, Hi in Hk' by done. eauto.
Qed.

(** What resolving an identity does to the users. Past the lock on the identity,
    [ResolveUser] returns an active user and touches no other user and no other identity.
    An identity that is new is mapped to a new user; an identity of an active user stays
    with that user, who is the one returned. An identity of a disabled user also stays with
    that user, but the one returned is a new, active one: who has been disabled logs in as
    somebody else, each time. *)
Theorem resolved_users identity db ev user db' :
  users_wf db →
  run (BeginTx;; resolve_locked identity) db ev = (Ok user, db') →
  let k := (ext_Issuer identity, ext_Subject identity) in
  users_wf db' ∧ auth_redis db' = auth_redis db ∧
  active db' (user_ID user) = true ∧
  (user_Issuer user, user_Subject user) = k ∧
  (∀ id, id ≠ user_ID user → auth_users db' !! id = auth_users db !! id) ∧
  (∀ k', k' ≠ k → auth_identities db' !! k' = auth_identities db !! k') ∧
  match owner db k with
  | None => auth_users db !! user_ID user = None ∧ owner db' k = Some (user_ID user)
  | Some id =>
      owner db' k = Some id ∧
      if active db id then user_ID user = id else auth_users db !! user_ID user = None
  end.
Proof.
  intros Hwf (s & Hr & ->)%run_Ok k.
  apply tx_bind_Ok in Hr as (? & s0 & [Hd0 Hc0]%BeginTx_Ok & Hr). cbn in Hd0, Hc0.
  rewrite <-Hd0 in *. clear Hd0 db. unfold resolve_locked, findUser in Hr.
  apply tx_bind_Ok in Hr as (found & s1 & (Hf & Hd1 & _ & Hc1 & _)%query_Ok & Hr).
  rewrite <-Hd1 in *. clear Hd1. apply select_active_user_Ok in Hf.
  apply tx_bind_Ok in Hr as (u & s2 & Hu & Hr).
  apply (found_or_created _ _ _ _ _ Hwf Hf) in Hu as (Hid & Hact & Hon & Hc2 & Hcase).
  apply tx_bind_Ok in Hr as (? & s3 & (_ & Hup & _ & Hc3 & _)%exec_Ok & Hr).
  apply upsert_identity_row_Ok in Hup as (Hus & Hre & How & Hids & Hfk); [|done].
  apply tx_bind_Ok in Hr as (? & s4 & (Hc4 & _)%commit_Ok & [-> ->]%ret_Ok).
  rewrite Hc4. cbn [default]. fold k in Hf, How, Hids, Hfk.
  pose proof Hon as (Hon_i & Hon_r & Hon_u).
  assert (Ho2 : owner (session_db s2) k = owner (session_db s1) k)
    by (unfold owner; by rewrite Hon_i).
  rewrite Ho2 in How. split_and!; cbn.
  - by apply (users_wf_after k (user_ID u) (session_db s1) (session_db s2)).
  - by rewrite Hre.
  - unfold active in *. by rewrite Hus.
  - done.
  - intros id Hne. rewrite Hus. auto.
  - intros k' Hne. rewrite Hids by done. by rewrite Hon_i.
  - destruct (owner (session_db s1) k) as [id|] eqn:Hk; cbn in How; destruct found as [user0|].
    + destruct Hf as [[= ->] Ha]. by rewrite Ha, Hcase.
    + by rewrite (Hf _ eq_refl).
    + by destruct Hf.
    + done.
Qed.
End Users.

(** ** The repository behind the service *)
Section Deployed.
Context `{!Platform, !IdentityCodec, !IamServer}.
#[local] Existing Instance Repository.

(** The text that is locked holds a zero byte, whoever logs in. *)
Lemma lockValue_refused identity : text_in (lockValue identity) = Err ErrInvalidText.
Proof.
  unfold text_in, lockValue.
  assert (Hz : existsb (Ascii.eqb nul) (list_ascii_of_string
    (ext_Issuer identity +:+ String nul EmptyString +:+ ext_Subject identity)) = true).
  { induction (ext_Issuer identity) as [|c s IH]; [done|].
    rewrite append_cons. cbn. by rewrite IH, orb_true_r. }
  by rewrite Hz.
Qed.

Lemma resolve_run identity db ev :
  ∃ e, run (ResolveUser identity) db ev = (Err (ErrDatabase e), db) ∧
    (env_budget ev = None → e = ErrInvalidText).
Proof.
  unfold run, ResolveUser, Repository, Repository_ResolveUser, BeginTx, lock_identity, query,
    statement, raw, lift_db, mbind, tx_bind. cbn.
  destruct (env_budget ev) as [[|[|n]]|]; cbn; rewrite ?lockValue_refused; cbn; eauto.
  all: eexists; by split.
Qed.

(** The repository keeps the promises of the port. *)
#[export] Instance Repository_laws : UserRepositoryLaws.
Proof. intros identity db ev. by destruct (resolve_run identity db ev) as (e & -> & _). Qed.

(** C31 (no login completes). Served with the repository of users, whatever the provider
    answers, whatever the stores hold and whatever happens in between, [CompleteLogin] fails:
    the text it locks is refused by PostgreSQL. When everything else is in order - the
    transaction is there and current, the binding matches, the provider vouches for an
    identity, the database answers - the caller is told of an internal error. *)
Theorem logins_never_complete service state code binding w db :
  (∃ e, (perform (CompleteLogin service state code binding) w db).1 = Err e) ∧
  (∀ t db1 identity,
     TrimSpace state ≠ "" → TrimSpace code ≠ "" → TrimSpace binding ≠ "" →
     TakeTransaction (service_prefix service) state w (0%nat, db) = (Ok t, (1%nat, db1)) →
     world_now w 0 < login_ExpiresAt t →
     login_BrowserBindingHash t = hashSecret binding →
     Exchange (service_provider service) code (login_PKCEVerifier t) (login_Nonce t)
       = Ok identity →
     env_budget (world_env w 1) = None →
     (serve service (CompleteLoginRequest state code binding) w db).1
       = Err (Internal, "identity operation failed")).
Proof.
  split.
  - destruct (perform _ _ _) as [[r|e] db'] eqn:Hr; [exfalso|by exists e].
    apply complete_login_Ok in Hr as (t & s1 & s' & _ & Hf & _).
    apply finish_login_Ok in Hf as (_ & _ & (identity & db2 & ev2 & _ & Hu) & _).
    by destruct (resolve_run identity db2 ev2) as (e & He & _); rewrite He in Hu.
  - intros t db1 identity Hs%String.eqb_neq Hc%String.eqb_neq Hb%String.eqb_neq Ht Hexp Hbind
      Hx Hdb.
    destruct (resolve_run identity (world_interfere w 1 db1) (world_env w 1)) as (e & He & Hinv).
    rewrite (Hinv Hdb) in He.
    apply Z.ltb_lt in Hexp. apply constantTimeEqual_true in Hbind.
    unfold serve, handle, perform, CompleteLogin, finish_login, service_now, mbind, app_bind,
      pure, call.
    rewrite Hs, Hc, Hb. cbn. rewrite Ht. cbn. rewrite Hexp. cbn. rewrite Hbind. cbn.
    rewrite Hx. cbn in *. by rewrite He.
Qed.
End Deployed.

(** ** Examples

    A codec that writes the fields of a record as a binary number, a digest that is the
    content itself, one provider and one login. *)

Fixpoint bits_of_pos (p : positive) : string :=
  match p with
  | xH => ""
  | xO p' => String "0"%char (bits_of_pos p')
  | xI p' => String "1"%char (bits_of_pos p')
  end.
Fixpoint pos_of_bits (s : string) : positive :=
  match s with
  | EmptyString => xH
  | String c s' => if Ascii.eqb c "1"%char then xI (pos_of_bits s') else xO (pos_of_bits s')
  end.

Lemma pos_of_bits_of_pos p : pos_of_bits (bits_of_pos p) = p.
Proof. induction p as [p IH|p IH|]; cbn; by rewrite ?IH. Qed.

(** The fields of a record: its strings and its two times. *)
Definition write_fields (l : list string) (times : Z * Z) : string :=
  bits_of_pos (encode (l, times)).
Definition read_fields (s : string) : option (list string * (Z * Z)) :=
  decode (pos_of_bits s).

Lemma read_write_fields l times : read_fields (write_fields l times) = Some (l, times).
Proof. unfold read_fields, write_fields. by rewrite pos_of_bits_of_pos, decode_encode. Qed.

Definition bool_text (b : bool) : string := if b then "true" else "false".

#[local] Instance example_codec : IdentityCodec := {|
  marshal_login t := Some (write_fields (login_text t) (login_CreatedAt t, login_ExpiresAt t));
  unmarshal_login s :=
    match read_fields s with
    | Some ([state; hash; nonce; verifier; path], (created, expires)) => Some {|
        login_State := state; login_BrowserBindingHash := hash; login_Nonce := nonce;
        login_PKCEVerifier := verifier; login_ReturnTo := path;
        login_CreatedAt := created; login_ExpiresAt := expires |}
    | _ => None
    end;
  marshal_session s :=
    Some (write_fields (session_text s ++ [bool_text (user_EmailVerified (session_User s))])
            (session_CreatedAt s, session_ExpiresAt s));
  unmarshal_session s :=
    match read_fields s with
    | Some ([id; hash; user; issuer; subject; email; name; picture; verified],
            (created, expires)) => Some {|
        session_ID := id; session_CSRFHash := hash;
        session_User := {|
          user_ID := user; user_Issuer := issuer; user_Subject := subject;
          user_Email := email; user_EmailVerified := String.eqb verified "true";
          user_DisplayName := name; user_PictureURL := picture |};
        session_CreatedAt := created; session_ExpiresAt := expires |}
    | _ => None
    end;
  utf8_Valid _ := true;
  json_Valid _ := true;
  sha256_Sum256 s := s;
  oauth2_GenerateVerifier b := EncodeToString b;
  url_Scheme _ := Some "https" |}.

#[local] Instance example_codec_laws : IdentityCodecLaws.
Proof.
  split; cbn.
  - intros t v _ [= <-]. rewrite read_write_fields. by destruct t.
  - intros s v _ [= <-]. rewrite read_write_fields. destruct s as [? ? [? ? ? ? [] ? ?] ? ?]; done.
  - done.
  - apply EncodeToString_graphic.
Qed.

#[local] Instance example_server : IamServer := {|
  gen_random_uuid users _ := if decide (users !! uuid 1 = None) then uuid 1 else uuid 2;
  jsonb_in s := Some s |}.

#[local] Existing Instance concrete_platform.

#[local] Instance example_server_laws : IamServerLaws.
Proof. intros users now. cbn. by case_decide. Qed.

(** The repository of users without the lock. *)
#[local] Instance without_lock : UserRepository := {|
  ResolveUser identity := BeginTx;; resolve_locked identity |}.

Definition same_keys (db db' : Auth) : Prop := auth_redis db' = auth_redis db.
#[local] Instance same_keys_preorder : PreOrder same_keys.
Proof. split; [done|]. unfold same_keys. intros a b c. congruence. Qed.

Lemma insert_user_keys now identity db a db' :
  insert_user now identity db = Ok (a, db') → same_keys db db'.
Proof. unfold insert_user. intros Hr. result_inv Hr. by simplify_eq/=. Qed.
Lemma update_user_keys id identity db a db' :
  update_user_row id identity db = Ok (a, db') → same_keys db db'.
Proof. unfold update_user_row. intros Hr. result_inv Hr. by simplify_eq/=. Qed.
Lemma upsert_identity_keys id identity raw db a db' :
  upsert_identity_row id identity raw db = Ok (a, db') → same_keys db db'.
Proof. unfold upsert_identity_row. intros Hr. result_inv Hr. by simplify_eq/=. Qed.

Lemma resolve_locked_keys identity : along same_keys (resolve_locked identity).
Proof.
  unfold resolve_locked, findUser, createUser, updateUser, upsertExternalIdentity.
  apply along_bind; [apply _|intros found]. apply along_bind.
  - destruct found; [|apply along_bind; [apply _|intros now]]; apply along_exec; try apply _;
      intros; eauto using insert_user_keys, update_user_keys.
  - intros user. apply along_bind; [|apply _].
    apply along_exec; [apply _|]. intros. eauto using upsert_identity_keys.
Qed.

#[local] Instance without_lock_laws : UserRepositoryLaws.
Proof.
  intros identity db ev. apply (run_along same_keys). cbn.
  apply along_bind; [|intros _; apply resolve_locked_keys].
  apply along_bind; [apply _|]. by intros _ db0 s.
Qed.

(** *** One login *)
Definition example_identity : ExternalIdentity := {|
  ext_Issuer := "https://id.example"; ext_Subject := "42"; ext_Email := "a@example.org";
  ext_EmailVerified := true; ext_DisplayName := "Ada"; ext_PictureURL := "";
  ext_RawClaims := "{}" |}.

Definition example_provider : IdentityProvider := {|
  AuthorizationURL state nonce verifier := state +:+ "." +:+ nonce +:+ "." +:+ verifier;
  Exchange code _ _ :=
    if String.eqb code "code" then Ok example_identity else Err ErrAuthenticationFailed |}.

Definition example_service : Service := {|
  service_config := {| config_TransactionTTL := 600 * 1000000000;
                       config_SessionTTL := 28800 * 1000000000 |};
  service_prefix := Store_New "gereh:iam:";
  service_provider := example_provider |}.

(** A world that nobody else acts in, with the given tokens and time. *)
Definition quiet (token : string) (now : Z) : world Auth := {|
  world_env _ := {| env_clock := now; env_budget := None |};
  world_interfere _ db := db;
  world_ids n := Some (token +:+ uuid n);
  world_now _ := now |}.

Definition empty_auth : Auth := {|
  auth_redis := ∅; auth_users := ∅; auth_identities := ∅ |}.

Definition the_state : string := EncodeToString ("a" +:+ uuid 0).
Definition the_binding : string := EncodeToString ("a" +:+ uuid 1).

Definition begun := perform (BeginLogin example_service " /home ") (quiet "a" 1000) empty_auth.
Definition done_login :=
  perform (CompleteLogin example_service the_state "code" the_binding) (quiet "b" 2000) begun.2.

(** The tokens the requests after the login draw. *)
Definition drawn (token : string) (s : string) : Prop := s = EncodeToString (token +:+ uuid 0).

Lemma quiet_caller token now logins sessions :
  logins (EncodeToString (token +:+ uuid 0)) → sessions (EncodeToString (token +:+ uuid 0)) →
  caller_world example_service logins sessions (quiet token now).
Proof. intros Hl Hs. split; [done|..]; by intros raw [= <-]. Qed.

Lemma pair_get_ok {E A S} (p : result E A * S) (H : is_ok p.1 = true) :
  p = (Ok (get_ok p.1 H), p.2).
Proof. rewrite <-(get_ok_Ok p.1 H). by destruct p. Qed.

(** The tables when the login has taken its transaction, and nothing more. *)
Definition taken : Auth :=
  (perform (CompleteLogin example_service the_state "code" the_binding) (cut 1 (quiet "b" 2000))
     begun.2).2.

(** A second call, from that moment on. *)
Lemma login_single_use_witness :
  ∃ e, (perform (CompleteLogin example_service the_state "code" the_binding) (quiet "b" 3000)
          taken).1 = Err e ∧
    (e = ErrInvalidRequest ∨ e = ErrAuthenticationFailed ∨ e = ErrRedis).
Proof.
  assert (Hok : is_ok done_login.1 = true) by (vm_compute; reflexivity).
  apply (login_single_use example_service (drawn "b") (drawn "b") the_state "code" the_binding
    "code" the_binding (quiet "b" 2000) (quiet "b" 3000) begun.2 (get_ok done_login.1 Hok)
    done_login.2).
  - intros st ->. vm_compute. discriminate.
  - by apply quiet_caller.
  - by apply quiet_caller.
  - exact (pair_get_ok done_login Hok).
  - right. exists 0%nat. apply rtc_refl.
Defined.

Lemma login_bound_to_browser_witness :
  ∃ r, done_login.1 = Ok r ∧ safeReturnPath " /home " = Ok (complete_ReturnTo r) ∧
    local_path (complete_ReturnTo r).
Proof.
  assert (Hb : is_ok begun.1 = true) by (vm_compute; reflexivity).
  assert (Hok : is_ok done_login.1 = true) by (vm_compute; reflexivity).
  destruct (login_bound_to_browser example_service (drawn "b") (drawn "b") " /home "
    (quiet "a" 1000) empty_auth (get_ok begun.1 Hb) begun.2 ("a" +:+ uuid 0) begun.2 "code"
    the_binding (quiet "b" 2000) (get_ok done_login.1 Hok) done_login.2)
    as (_ & _ & _ & Hret & Hpath & _).
  - done.
  - exact (pair_get_ok begun Hb).
  - reflexivity.
  - intros st ->. vm_compute. discriminate.
  - apply rtc_refl.
  - by apply quiet_caller.
  - exact (pair_get_ok done_login Hok).
  - exists (get_ok done_login.1 Hok). split_and!; [apply get_ok_Ok|exact Hret|exact Hpath].
Defined.

(** A request with a wrong CSRF token, between the login and a reading of the session. *)
Definition the_session : string := EncodeToString ("b" +:+ uuid 0).
Definition tried_revoking :=
  perform (handle example_service (DeleteSessionRequest the_session "wrong")) (quiet "c" 2500)
    done_login.2.

Lemma session_lifecycle_witness :
  ∃ r, done_login.1 = Ok r ∧
    (perform (GetSession example_service (complete_SessionID r)) (quiet "c" 3000)
       tried_revoking.2).1 = Ok (complete_Session r) ∧
    (perform (DeleteSession example_service (complete_SessionID r) "wrong") (quiet "c" 3000)
       done_login.2).2 = done_login.2.
Proof.
  assert (Hok : is_ok done_login.1 = true) by (vm_compute; reflexivity).
  exists (get_ok done_login.1 Hok). split; [apply get_ok_Ok|].
  destruct (session_lifecycle example_service (drawn "c") (drawn "c") the_state "code"
    the_binding (quiet "b" 2000) begun.2 (get_ok done_login.1 Hok) done_login.2)
    as [Halive Hcalls].
  - exact (pair_get_ok done_login Hok).
  - vm_compute. reflexivity.
  - vm_compute. reflexivity.
  - intros sid ->. vm_compute. discriminate.
  - split.
    + apply (Halive tried_revoking.2 (quiet "c" 3000)); [|done|done|vm_compute; done|vm_compute; done].
      apply rtc_once. unfold tried_revoking. apply an_other_request.
      * by intros raw [= <-].
      * done.
      * vm_compute. done.
      * intros (sid & token & Hr & _ & Ht). injection Hr as <- <-. revert Ht. vm_compute.
        discriminate.
    + destruct (Hcalls done_login.2 (quiet "c" 3000)) as (_ & Hwrong & _);
        [apply rtc_refl|by apply quiet_caller|].
      destruct (Hwrong "wrong" _ _ (surjective_pairing _)) as [_ Hsame]; [vm_compute; discriminate|].
      apply Hsame. vm_compute. done.
Defined.

(** *** One ID token *)
Definition example_raw_token : string := "header." +:+ EncodeToString "{}" +:+ ".signature".

Definition example_oidc : Oidc := {|
  oidc_AuthCodeURL state verifier nonce := state;
  oidc_Exchange code verifier :=
    if String.eqb code "code"
    then Some {| token_AccessToken := "access"; token_id_token := Some example_raw_token |}
    else None;
  oidc_Verify raw :=
    if String.eqb raw example_raw_token
    then Some {| idtoken_Issuer := "https://id.example"; idtoken_Nonce := "nonce";
                 idtoken_AccessTokenHash := ""; idtoken_payload := "{}" |}
    else None;
  oidc_VerifyAccessToken _ _ := false;
  oidc_Claims _ := Some {|
    claims_Subject := "42"; claims_Email := ""; claims_EmailVerified := false;
    claims_Name := " "; claims_Picture := ""; claims_PreferredUsername := " ada " |};
  oidc_UserInfo _ := Some {|
    userinfo_Subject := "42";
    userinfo_Claims := Some {|
      claims_Subject := "42"; claims_Email := "a@example.org"; claims_EmailVerified := true;
      claims_Name := "Ada"; claims_Picture := ""; claims_PreferredUsername := "" |} |} |}.

Definition example_config : OidcConfig := {|
  oidc_IssuerURL := "https://id.example"; oidc_ClientID := "gereh";
  oidc_ClientSecret := "secret"; oidc_RedirectURL := "https://gereh.example/callback";
  oidc_Scopes := ["openid"; "email"]; oidc_SupportedSigningAlgs := [];
  oidc_RequireVerifiedEmail := true; oidc_FetchUserInfo := true;
  oidc_RequirePKCEAdvertised := true; oidc_AllowInsecureHTTP := false;
  oidc_HTTPTimeout := 10000000000 |}.

(** The client that discovery gives. *)
Definition example_discover (issuer : string) : option (Oidc * option Metadata) :=
  if String.eqb issuer "https://id.example"
  then Some (example_oidc, Some {| CodeChallengeMethodsSupported := ["plain"; "S256"];
                                   ResponseTypesSupported := ["code"] |})
  else None.

Definition example_client : Client := {|
  client_config := example_config; client_oidc := example_oidc |}.

Definition exchanged := Client_Exchange example_client "code" "verifier" "nonce".

Lemma exchange_trusted_witness :
  Client_New example_discover example_config = Ok example_client ∧
  ∃ identity, exchanged = Ok identity ∧ ext_DisplayName identity = "ada" ∧
    TrimSpace (ext_Email identity) ≠ "" ∧ ext_EmailVerified identity = true.
Proof.
  assert (Hok : is_ok exchanged = true) by (vm_compute; reflexivity).
  split; [vm_compute; reflexivity|]. exists (get_ok exchanged Hok).
  split; [apply get_ok_Ok|]. split; [vm_compute; reflexivity|].
  destruct (exchange_trusted example_client "code" "verifier" "nonce" (get_ok exchanged Hok))
    as (token & raw & t & c & _ & _ & _ & _ & _ & _ & _ & _ & _ & _ & Hmail).
  - apply get_ok_Ok.
  - apply Hmail. reflexivity.
Defined.

(** *** A disabled user logs in *)
Definition the_key : string * string := ("https://id.example", "42").

Definition disabled_auth : Auth := {|
  auth_redis := ∅;
  auth_users := {[ uuid 1 := {| iam_primary_email := Some "a@example.org";
    iam_display_name := "Ada"; iam_picture_url := ""; iam_status := "disabled" |} ]};
  auth_identities := {[ the_key := {| ident_user_id := uuid 1;
    ident_email := None; ident_email_verified := false; ident_raw_claims := "{}" |} ]} |}.

Lemma disabled_auth_wf : users_wf disabled_auth.
Proof.
  split; cbn.
  - intros id row [<- <-]%lookup_singleton_Some. done.
  - intros k i [<- <-]%lookup_singleton_Some. cbn. rewrite lookup_singleton_eq. eauto.
Qed.

Definition resolved :=
  run (BeginTx;; resolve_locked example_identity) disabled_auth
    {| env_clock := 0; env_budget := None |}.

Lemma resolved_users_witness :
  ∃ user, resolved.1 = Ok user ∧ user_ID user = uuid 2 ∧
    owner resolved.2 the_key = Some (uuid 1) ∧ active resolved.2 (user_ID user) = true.
Proof.
  assert (Hok : is_ok resolved.1 = true) by (vm_compute; reflexivity).
  exists (get_ok resolved.1 Hok). split; [apply get_ok_Ok|].
  split; [vm_compute; reflexivity|].
  destruct (resolved_users example_identity disabled_auth {| env_clock := 0; env_budget := None |}
    (get_ok resolved.1 Hok) resolved.2 disabled_auth_wf (pair_get_ok resolved Hok))
    as (_ & _ & Hact & _ & _ & _ & Hcase).
  split; [|exact Hact]. apply Hcase.
Defined.

(** *** The same login with the repository that locks *)
Definition refused :=
  @serve _ Repository example_service (CompleteLoginRequest the_state "code" the_binding)
    (quiet "b" 2000) begun.2.

Lemma logins_never_complete_witness :
  refused.1 = Err (Internal, "identity operation failed").
Proof.
  assert (Hok : is_ok (TakeTransaction "gereh:iam" the_state (quiet "b" 2000)
    (0%nat, begun.2)).1 = true) by (vm_compute; reflexivity).
  apply (proj2 (logins_never_complete example_service the_state "code" the_binding
    (quiet "b" 2000) begun.2) (get_ok _ Hok) (TakeTransaction "gereh:iam" the_state
      (quiet "b" 2000) (0%nat, begun.2)).2.2 example_identity).
  - vm_compute. discriminate.
  - vm_compute. discriminate.
  - vm_compute. discriminate.
  - exact (pair_get_ok (TakeTransaction "gereh:iam" the_state (quiet "b" 2000)
      (0%nat, begun.2)) Hok).
  - vm_compute. reflexivity.
  - vm_compute. reflexivity.
  - reflexivity.
  - reflexivity.
Defined.
