(* ===== verification/AccessStore.v ===== *)
(** * Model access: domain and tables

    Models [services/model-access/internal/domain] ([models.go], [catalog.go], [binding.go],
    [credential.go], [gateway.go], [errors.go]) and the tables of its migrations that the
    catalog of model offerings and the bindings of agents live in, with the SQL of
    [adapters/postgres/catalog.go], [bindings.go] and [gateway.go].

    A Go slice is an [option] of a list, [None] for nil: pgx sends a nil slice as NULL. *)

From stdpp Require Import strings gmap list sorting.
From Stdlib Require Import String Lia.
From S2P Require Import Prelude GoStrings Postgres Usecase Outbox.
Open Scope string_scope.
Open Scope list_scope.
Open Scope Z_scope.

(** ** domain/errors.go *)

Inductive error :=
| ErrInvalidArgument
| ErrNotFound
| ErrForbidden
| ErrTenantNotActive
| ErrConflict
| ErrVersionConflict
| ErrConnectionArchived
| ErrIdempotencyConflict
| ErrCatalogRefreshNotFound
| ErrOfferingNotFound
| ErrOfferingUnavailable
| ErrOfferingNotAgentUsable
| ErrAgentNotFound
| ErrAgentDeleted
| ErrBindingNotFound
| ErrBindingVersionConflict
| ErrInvalidFallbackPolicy
| ErrSecretStore
| ErrInternal
| ErrDatabase (e : db_error).

#[export] Instance error_eq_dec : EqDecision error.
Proof. solve_decision. Defined.
#[export] Instance error_DbError : DbError error := ErrDatabase.

(** [mapDatabaseError] of [adapters/postgres/repository.go] *)
Definition mapDatabaseError (err : error) : error :=
  match err with
  | ErrDatabase ErrNoRows => ErrNotFound
  | ErrDatabase (ErrUniqueViolation _) => ErrConflict
  | ErrDatabase (ErrForeignKeyViolation _) | ErrDatabase (ErrCheckViolation _) =>
      ErrInvalidArgument
  | _ => err
  end.

(** ** domain/models.go, domain/credential.go *)

Definition ConnectionTypePlatformManaged := "platform_managed".
Definition ConnectionStatusActive := "active".
Definition CredentialStateActive := "active".

Record Connection := {
  connection_TenantID : string;
  connection_ID : string;
  connection_ProviderKey : string;
  connection_ConnectionType : string;
  connection_ProviderPoolKey : option string;
  connection_DisplayName : string;
  connection_Status : string;
  connection_CredentialFingerprint : string;
  connection_Version : Z;
  connection_CreatedByUserID : string;
  connection_CreatedAt : Z;
  connection_UpdatedAt : Z;
  connection_ArchivedAt : option Z;
}.

(** What the catalog worker reads of a credential. *)
Record BYOKCredential := {
  credential_SecretRef : string;
  credential_State : string;
  credential_ActiveVaultVersion : Z;
}.

(** ** domain/catalog.go *)

Definition OfferingStatusAvailable := "available".
Definition OfferingStatusUnavailable := "unavailable".
Definition OfferingSourceProviderDiscovered := "provider_discovered".
Definition OfferingSourcePlatformCatalog := "platform_catalog".
Definition CatalogRefreshPending := "pending".
Definition CatalogRefreshSucceeded := "succeeded".
Definition CatalogRefreshFailed := "failed".

Definition slice : Type := option (list string).
Definition slice_elems (s : slice) : list string := default [] s.

Record ModelOffering := {
  offering_TenantID : string;
  offering_ID : string;
  offering_ConnectionID : string;
  offering_ProviderKey : string;
  offering_ProviderModelID : string;
  offering_DisplayName : string;
  offering_Description : string;
  offering_Status : string;
  offering_Source : string;
  offering_AgentUsable : bool;
  offering_Capabilities : list string;
  offering_InputModalities : list string;
  offering_OutputModalities : list string;
  offering_ContextWindowTokens : Z;
  offering_MaxOutputTokens : Z;
  offering_Version : Z;
  offering_FirstSeenAt : Z;
  offering_LastSeenAt : Z;
  offering_RefreshedAt : Z;
  offering_UnavailableAt : option Z;
}.

Record DiscoveredModel := {
  model_ProviderKey : string;
  model_ProviderModelID : string;
  model_DisplayName : string;
  model_Description : string;
  model_AgentUsable : bool;
  model_Capabilities : slice;
  model_InputModalities : slice;
  model_OutputModalities : slice;
  model_ContextWindowTokens : Z;
  model_MaxOutputTokens : Z;
}.

Record CatalogRefresh := {
  refresh_TenantID : string;
  refresh_ID : string;
  refresh_ActorUserID : string;
  refresh_ConnectionID : string;
  refresh_IdempotencyKey : string;
  refresh_Reason : string;
  refresh_Status : string;
  refresh_Generation : Z;
  refresh_DiscoveredCount : Z;
  refresh_AvailableCount : Z;
  refresh_UnavailableCount : Z;
  refresh_ErrorCode : string;
  refresh_RequestedAt : Z;
  refresh_StartedAt : option Z;
  refresh_CompletedAt : option Z;
}.

Record CatalogRefreshJob := {
  job_RefreshID : string;
  job_TenantID : string;
  job_ActorUserID : string;
  job_ConnectionID : string;
  job_Attempts : Z;
}.

Record CatalogRefreshResult := {
  result_Generation : Z;
  result_DiscoveredCount : Z;
  result_AvailableCount : Z;
  result_UnavailableCount : Z;
  result_RefreshedAt : Z;
}.

(** ** domain/binding.go *)

Definition BindingStatusActive := "active".
Definition BindingStatusRemoved := "removed".
Definition FallbackPolicyNone := "none".
Definition FallbackPolicyOrdered := "ordered".

Record AgentModelBinding := {
  binding_TenantID : string;
  binding_AgentID : string;
  binding_CompanyID : string;
  binding_Status : string;
  binding_PrimaryOfferingID : string;
  binding_FastOfferingID : option string;
  binding_FallbackOfferingIDs : slice;
  binding_FallbackPolicy : string;
  binding_MaxModelCostMicroUSD : option Z;
  binding_Version : Z;
  binding_CreatedByUserID : string;
  binding_UpdatedByUserID : string;
  binding_CreatedAt : Z;
  binding_UpdatedAt : Z;
  binding_RemovedAt : option Z;
}.

(** ** domain/gateway.go *)

Record InferenceRoute := {
  route_OfferingID : string;
  route_ConnectionID : string;
  route_ProviderKey : string;
  route_ProviderModelID : string;
  route_ConnectionType : string;
  route_ProviderPoolKey : option string;
  route_ContextWindowTokens : Z;
  route_MaxOutputTokens : Z;
  route_Capabilities : list string;
}.

Record InferencePlan := {
  plan_TenantID : string;
  plan_AgentID : string;
  plan_CompanyID : string;
  plan_BindingVersion : Z;
  plan_PrimaryRoute : InferenceRoute;
  plan_FastRoute : option InferenceRoute;
  plan_FallbackRoutes : list InferenceRoute;
  plan_MaxModelCostMicroUSD : option Z;
  plan_ResolvedAt : Z;
}.

(** ** Rows that are no domain value *)

Record catalog_state := {
  state_Generation : Z;
  state_LastSuccessAt : option Z;
  state_AvailableCount : Z;
  state_UnavailableCount : Z;
  state_UpdatedAt : Z;
}.

Record queue_row := {
  queue_TenantID : string;
  queue_ActorUserID : string;
  queue_ConnectionID : string;
  queue_AvailableAt : Z;
  queue_ClaimedAt : option Z;
  queue_Attempts : Z;
  queue_LastError : option string;
}.

Record binding_revision := {
  brev_CompanyID : string;
  brev_Status : string;
  brev_PrimaryOfferingID : string;
  brev_FastOfferingID : option string;
  brev_FallbackOfferingIDs : list string;
  brev_FallbackPolicy : string;
  brev_MaxModelCostMicroUSD : option Z;
  brev_ChangeKind : string;
  brev_ChangedByUserID : string;
  brev_CreatedAt : Z;
}.

Record binding_answer := {
  answer_RequestHash : string;
  answer_Snapshot : AgentModelBinding;
  answer_CreatedAt : Z;
  answer_ExpiresAt : Z;
}.

(** ** Checks *)

Definition offering_checks (o : ModelOffering) : bool :=
  in_bounds 1 512 (char_length (offering_ProviderModelID o))
  && in_bounds 1 256 (char_length (offering_DisplayName o))
  && (char_length (offering_Description o) <=? 4000)
  && slices_Contains [OfferingStatusAvailable; OfferingStatusUnavailable] (offering_Status o)
  && slices_Contains [OfferingSourceProviderDiscovered; OfferingSourcePlatformCatalog]
       (offering_Source o)
  && (0 <=? offering_ContextWindowTokens o) && (0 <=? offering_MaxOutputTokens o)
  && (0 <? offering_Version o)
  && Bool.eqb (String.eqb (offering_Status o) OfferingStatusUnavailable)
       (is_some (offering_UnavailableAt o)).

Definition refresh_checks (c : CatalogRefresh) : bool :=
  slices_Contains ["manual"; "connection_activated"; "credential_rotated"] (refresh_Reason c)
  && slices_Contains [CatalogRefreshPending; "running"; CatalogRefreshSucceeded;
                      CatalogRefreshFailed] (refresh_Status c)
  && (0 <=? refresh_Generation c) && (0 <=? refresh_DiscoveredCount c)
  && (0 <=? refresh_AvailableCount c) && (0 <=? refresh_UnavailableCount c)
  && (char_length (refresh_ErrorCode c) <=? 64).

(** The checks of a binding row and of a revision on what they share. *)
Definition binding_terms_ok (status policy : string) (version : Z) : bool :=
  slices_Contains [BindingStatusActive; BindingStatusRemoved] status
  && slices_Contains [FallbackPolicyNone; FallbackPolicyOrdered] policy
  && (0 <? version).

Definition binding_checks (b : AgentModelBinding) : bool :=
  binding_terms_ok (binding_Status b) (binding_FallbackPolicy b)
    (binding_Version b)
  && match binding_MaxModelCostMicroUSD b with Some c => 0 <? c | None => true end
  && Bool.eqb (String.eqb (binding_Status b) BindingStatusRemoved)
       (is_some (binding_RemovedAt b)).

Definition revision_checks (revision : Z) (r : binding_revision) : bool :=
  binding_terms_ok (brev_Status r) (brev_FallbackPolicy r) revision
  && slices_Contains ["created"; "updated"; "reactivated"; "removed"] (brev_ChangeKind r).

Section Store.
Context `{Platform, Proto}.

(** ** Tables

    Rows by primary key, the tenant first. The positions of fallbacks and the numbers of
    revisions are integers; an answer is kept under the tenant, the actor, the operation and
    the idempotency key. *)
Record access_tables := {
  access_connections : gmap (string * string) Connection;
  access_credentials : gmap (string * string) BYOKCredential;
  access_states : gmap (string * string) catalog_state;
  access_offerings : gmap (string * string) ModelOffering;
  access_refreshes : gmap (string * string) CatalogRefresh;
  access_queue : gmap string queue_row;
  access_bindings : gmap (string * string) AgentModelBinding;
  access_fallbacks : gmap (string * string * Z) string;
  access_revisions : gmap (string * string * Z) binding_revision;
  access_answers : gmap (string * string * string * string) binding_answer;
  access_outbox : outbox_table;
}.

(** The tables of the catalog and those of the bindings, replaced together. *)
Definition set_catalog states offerings refreshes queue (db : access_tables)
  : access_tables := {|
  access_connections := access_connections db; access_credentials := access_credentials db;
  access_states := states; access_offerings := offerings; access_refreshes := refreshes;
  access_queue := queue; access_bindings := access_bindings db;
  access_fallbacks := access_fallbacks db; access_revisions := access_revisions db;
  access_answers := access_answers db; access_outbox := access_outbox db |}.
Definition set_bindings bindings fallbacks revisions answers (db : access_tables)
  : access_tables := {|
  access_connections := access_connections db; access_credentials := access_credentials db;
  access_states := access_states db; access_offerings := access_offerings db;
  access_refreshes := access_refreshes db; access_queue := access_queue db;
  access_bindings := bindings; access_fallbacks := fallbacks; access_revisions := revisions;
  access_answers := answers; access_outbox := access_outbox db |}.
Definition set_access_outbox outbox (db : access_tables) : access_tables := {|
  access_connections := access_connections db; access_credentials := access_credentials db;
  access_states := access_states db; access_offerings := access_offerings db;
  access_refreshes := access_refreshes db; access_queue := access_queue db;
  access_bindings := access_bindings db; access_fallbacks := access_fallbacks db;
  access_revisions := access_revisions db; access_answers := access_answers db;
  access_outbox := outbox |}.

Definition set_states v db :=
  set_catalog v (access_offerings db) (access_refreshes db) (access_queue db) db.
Definition set_offerings v db :=
  set_catalog (access_states db) v (access_refreshes db) (access_queue db) db.
Definition set_refreshes v db :=
  set_catalog (access_states db) (access_offerings db) v (access_queue db) db.
Definition set_queue v db :=
  set_catalog (access_states db) (access_offerings db) (access_refreshes db) v db.
Definition set_binding_rows v db :=
  set_bindings v (access_fallbacks db) (access_revisions db) (access_answers db) db.
Definition set_fallbacks v db :=
  set_bindings (access_bindings db) v (access_revisions db) (access_answers db) db.
Definition set_binding_revisions v db :=
  set_bindings (access_bindings db) (access_fallbacks db) v (access_answers db) db.
Definition set_answers v db :=
  set_bindings (access_bindings db) (access_fallbacks db) (access_revisions db) v db.

Definition no_access_tables : access_tables := {|
  access_connections := ∅; access_credentials := ∅; access_states := ∅;
  access_offerings := ∅; access_refreshes := ∅; access_queue := ∅; access_bindings := ∅;
  access_fallbacks := ∅; access_revisions := ∅; access_answers := ∅;
  access_outbox := {| outbox_rows := ∅; outbox_next := 1 |} |}.

(** A row of a tenant's table, with the tenant and the identifier as they are stored. *)
Definition tenant_row {R} (table : access_tables → gmap (string * string) R)
    (tenantID id : string) (sc : Scope) (db : access_tables)
  : result db_error (string * string * option R) :=
  r ← rls_of sc; t ← cast tenantID; i ← cast id;
  Ok (t, i, if tenant_scoped r t then table db !! (t, i) else None).

(** [SELECT ... WHERE tenant_id = $1 AND id = $2] *)
Definition sql_row {R} (table : access_tables → gmap (string * string) R)
    (tenantID id : string) (sc : Scope) (db : access_tables) : result db_error R :=
  found ← tenant_row table tenantID id sc db;
  from_option_err ErrNoRows found.2.

(** A write of a tenant's row is refused outside of the tenant's scope. *)
Definition writable (name t : string) (sc : Scope) : result db_error unit :=
  r ← rls_of sc; fail_if (negb (tenant_scoped r t)) (ErrRowSecurity name).

(** ** catalog.go *)

(** A [text[]] parameter of a [NOT NULL] column. *)
Definition array_in (column : string) (s : slice) : result db_error (list string) :=
  from_option_err (ErrNotNullViolation column) s.

Definition connection_exists (t c : string) (db : access_tables) : bool :=
  is_some (access_connections db !! (t, c)).

(** The rows of one connection's models. *)
Definition offering_of (t c : string) (o : ModelOffering) : bool :=
  String.eqb (offering_TenantID o) t && String.eqb (offering_ConnectionID o) c.

Definition offering_is (t c model : string) (o : ModelOffering) : bool :=
  offering_of t c o && String.eqb (offering_ProviderModelID o) model.

(** The row that conflicts on [(tenant_id, connection_id, provider_model_id)]. *)
Definition find_offering (t c model : string) (db : access_tables) : option ModelOffering :=
  snd <$> List.find (λ kv, offering_is t c model kv.2) (map_to_list (access_offerings db)).

(** What the comparison of the upsert looks at. *)
Definition offering_terms (o : ModelOffering) :=
  (offering_DisplayName o, offering_Description o, offering_Status o, offering_Source o,
   offering_AgentUsable o, offering_Capabilities o, offering_InputModalities o,
   offering_OutputModalities o, (offering_ContextWindowTokens o, offering_MaxOutputTokens o)).

Definition offering_changed (old new : ModelOffering) : bool :=
  negb (bool_decide (offering_terms old = offering_terms new)).

(** [DO UPDATE SET ...] *)
Definition offering_refreshed (old new : ModelOffering) : ModelOffering := {|
  offering_TenantID := offering_TenantID old; offering_ID := offering_ID old;
  offering_ConnectionID := offering_ConnectionID old;
  offering_ProviderKey := offering_ProviderKey old;
  offering_ProviderModelID := offering_ProviderModelID old;
  offering_DisplayName := offering_DisplayName new;
  offering_Description := offering_Description new;
  offering_Status := OfferingStatusAvailable; offering_Source := offering_Source new;
  offering_AgentUsable := offering_AgentUsable new;
  offering_Capabilities := offering_Capabilities new;
  offering_InputModalities := offering_InputModalities new;
  offering_OutputModalities := offering_OutputModalities new;
  offering_ContextWindowTokens := offering_ContextWindowTokens new;
  offering_MaxOutputTokens := offering_MaxOutputTokens new;
  offering_Version := if offering_changed old new then offering_Version old + 1
                      else offering_Version old;
  offering_FirstSeenAt := offering_FirstSeenAt old;
  offering_LastSeenAt := offering_LastSeenAt new;
  offering_RefreshedAt := offering_RefreshedAt new; offering_UnavailableAt := None |}.

Definition sql_upsert_offering (tenantID connectionID newID source : string)
    (m : DiscoveredModel) (now : Z) (sc : Scope) (db : access_tables)
  : result db_error (unit * access_tables) :=
  t ← cast tenantID; i ← cast newID; c ← cast connectionID;
  capabilities ← array_in "capabilities" (model_Capabilities m);
  inputs ← array_in "input_modalities" (model_InputModalities m);
  outputs ← array_in "output_modalities" (model_OutputModalities m);
  writable "model_access_model_offerings" t sc;;
  let new := {|
    offering_TenantID := t; offering_ID := i; offering_ConnectionID := c;
    offering_ProviderKey := model_ProviderKey m;
    offering_ProviderModelID := model_ProviderModelID m;
    offering_DisplayName := model_DisplayName m;
    offering_Description := model_Description m;
    offering_Status := OfferingStatusAvailable; offering_Source := source;
    offering_AgentUsable := model_AgentUsable m; offering_Capabilities := capabilities;
    offering_InputModalities := inputs; offering_OutputModalities := outputs;
    offering_ContextWindowTokens := model_ContextWindowTokens m;
    offering_MaxOutputTokens := model_MaxOutputTokens m; offering_Version := 1;
    offering_FirstSeenAt := timestamptz now; offering_LastSeenAt := timestamptz now;
    offering_RefreshedAt := timestamptz now; offering_UnavailableAt := None |} in
  fail_if (negb (offering_checks new)) (ErrCheckViolation "model_access_model_offerings");;
  match find_offering t c (model_ProviderModelID m) db with
  | Some old =>
      let row := offering_refreshed old new in
      fail_if (int64_max <? offering_Version row) ErrOutOfRange;;
      Ok (tt, set_offerings (<[(t, offering_ID old) := row]> (access_offerings db)) db)
  | None =>
      fail_if (is_some (access_offerings db !! (t, i)))
        (ErrUniqueViolation "model_access_model_offerings_pkey");;
      fail_if (negb (connection_exists t c db))
        (ErrForeignKeyViolation "model_access_model_offerings");;
      Ok (tt, set_offerings (<[(t, i) := new]> (access_offerings db)) db)
  end.

Definition offering_withdrawn (now : Z) (o : ModelOffering) : ModelOffering := {|
  offering_TenantID := offering_TenantID o; offering_ID := offering_ID o;
  offering_ConnectionID := offering_ConnectionID o;
  offering_ProviderKey := offering_ProviderKey o;
  offering_ProviderModelID := offering_ProviderModelID o;
  offering_DisplayName := offering_DisplayName o;
  offering_Description := offering_Description o;
  offering_Status := OfferingStatusUnavailable; offering_Source := offering_Source o;
  offering_AgentUsable := offering_AgentUsable o;
  offering_Capabilities := offering_Capabilities o;
  offering_InputModalities := offering_InputModalities o;
  offering_OutputModalities := offering_OutputModalities o;
  offering_ContextWindowTokens := offering_ContextWindowTokens o;
  offering_MaxOutputTokens := offering_MaxOutputTokens o;
  offering_Version := offering_Version o + 1;
  offering_FirstSeenAt := offering_FirstSeenAt o;
  offering_LastSeenAt := offering_LastSeenAt o;
  offering_RefreshedAt := timestamptz now; offering_UnavailableAt := Some (timestamptz now) |}.

(** [UPDATE ... SET status = 'unavailable' ... WHERE status = 'available' AND ...]: the
    affected rows are those of the connection that [gone] selects by their model. *)
Definition withdrawn_row (t c : string) (gone : string → bool) (o : ModelOffering) : bool :=
  offering_of t c o && String.eqb (offering_Status o) OfferingStatusAvailable
  && gone (offering_ProviderModelID o).

Definition sql_withdraw_offerings (tenantID connectionID : string) (gone : string → bool)
    (now : Z) (sc : Scope) (db : access_tables) : result db_error (Z * access_tables) :=
  r ← rls_of sc; t ← cast tenantID; c ← cast connectionID;
  let gone o := tenant_scoped r t && withdrawn_row t c gone o in
  let affected := filter (λ kv, gone kv.2 = true) (access_offerings db) in
  fail_if (table_any (λ o, int64_max <? offering_Version o + 1) affected) ErrOutOfRange;;
  Ok (Z.of_nat (size affected),
      set_offerings ((λ o, if gone o then offering_withdrawn now o else o)
                       <$> access_offerings db) db).

Definition count_offerings (t c status : string) (db : access_tables) : Z :=
  Z.of_nat (size (filter (λ kv : _ * ModelOffering,
    offering_of t c kv.2 && String.eqb (offering_Status kv.2) status = true)
    (access_offerings db))).

(** [ListOfferings]: the values of the tenant's offerings, filtered. *)
Definition sql_list_offerings (tenantID connectionID : string) (agentUsableOnly : bool)
    (cursor : string) (limit : Z) (sc : Scope) (db : access_tables)
  : result db_error (list ModelOffering) :=
  r ← rls_of sc; t ← cast tenantID;
  connection ← cast_option (if String.eqb connectionID "" then None else Some connectionID);
  cursor ← cast_option (if String.eqb cursor "" then None else Some cursor);
  Ok (sql_page offering_ID limit
        (λ o, tenant_scoped r t && String.eqb (offering_TenantID o) t
              && match connection with
                 | Some c => String.eqb (offering_ConnectionID o) c
                 | None => true
                 end
              && (negb agentUsableOnly
                  || offering_AgentUsable o
                     && String.eqb (offering_Status o) OfferingStatusAvailable)
              && after cursor (offering_ID o))
        (snd <$> map_to_list (access_offerings db))).

(** [INSERT ... ON CONFLICT (tenant_id, actor_user_id, idempotency_key) DO NOTHING]: the
    affected-row count. *)
Definition same_request (t u k : string) (c : CatalogRefresh) : bool :=
  String.eqb (refresh_TenantID c) t && String.eqb (refresh_ActorUserID c) u
  && String.eqb (refresh_IdempotencyKey c) k.

Definition sql_insert_refresh (tenantID refreshID actorUserID connectionID idempotencyKey
    reason : string) (requestedAt : Z) (sc : Scope) (db : access_tables)
  : result db_error (Z * access_tables) :=
  t ← cast tenantID; i ← cast refreshID; u ← cast actorUserID; c ← cast connectionID;
  k ← cast idempotencyKey;
  writable "model_access_catalog_refreshes" t sc;;
  let row := {|
    refresh_TenantID := t; refresh_ID := i; refresh_ActorUserID := u;
    refresh_ConnectionID := c; refresh_IdempotencyKey := k; refresh_Reason := reason;
    refresh_Status := CatalogRefreshPending; refresh_Generation := 0;
    refresh_DiscoveredCount := 0; refresh_AvailableCount := 0;
    refresh_UnavailableCount := 0; refresh_ErrorCode := "";
    refresh_RequestedAt := timestamptz requestedAt; refresh_StartedAt := None;
    refresh_CompletedAt := None |} in
  fail_if (negb (refresh_checks row)) (ErrCheckViolation "model_access_catalog_refreshes");;
  if table_any (same_request t u k) (access_refreshes db) then Ok (0, db)
  else
    fail_if (is_some (access_refreshes db !! (t, i)))
      (ErrUniqueViolation "model_access_catalog_refreshes_pkey");;
    fail_if (negb (connection_exists t c db))
      (ErrForeignKeyViolation "model_access_catalog_refreshes");;
    Ok (1, set_refreshes (<[(t, i) := row]> (access_refreshes db)) db).

Definition sql_refresh_by_key (tenantID actorUserID idempotencyKey : string)
    (sc : Scope) (db : access_tables) : result db_error CatalogRefresh :=
  r ← rls_of sc; t ← cast tenantID; u ← cast actorUserID; k ← cast idempotencyKey;
  from_option_err ErrNoRows
    (snd <$> List.find (λ kv, tenant_scoped r t && same_request t u k kv.2)
               (map_to_list (access_refreshes db))).

(** The queue has no row security. *)
Definition sql_enqueue (refreshID tenantID actorUserID connectionID : string)
    (availableAt : Z) (sc : Scope) (db : access_tables)
  : result db_error (unit * access_tables) :=
  i ← cast refreshID; t ← cast tenantID; u ← cast actorUserID; c ← cast connectionID;
  fail_if (is_some (access_queue db !! i))
    (ErrUniqueViolation "model_access_catalog_refresh_queue_pkey");;
  Ok (tt, set_queue (<[i := {|
    queue_TenantID := t; queue_ActorUserID := u; queue_ConnectionID := c;
    queue_AvailableAt := timestamptz availableAt; queue_ClaimedAt := None;
    queue_Attempts := 0; queue_LastError := None |}]> (access_queue db)) db).

Definition sql_dequeue (tenantID refreshID : string) (sc : Scope) (db : access_tables)
  : result db_error (unit * access_tables) :=
  t ← cast tenantID; i ← cast refreshID;
  Ok (tt, match access_queue db !! i with
          | Some row => if String.eqb (queue_TenantID row) t
                        then set_queue (delete i (access_queue db)) db else db
          | None => db
          end).

(** An [UPDATE] of a refresh, whose affected-row count nobody reads. *)
Definition sql_finish_refresh (change : CatalogRefresh → CatalogRefresh)
    (tenantID refreshID : string) (sc : Scope) (db : access_tables)
  : result db_error (unit * access_tables) :=
  found ← tenant_row access_refreshes tenantID refreshID sc db;
  match found.2 with
  | Some row =>
      fail_if (negb (refresh_checks (change row)))
        (ErrCheckViolation "model_access_catalog_refreshes");;
      Ok (tt, set_refreshes (<[found.1 := change row]> (access_refreshes db)) db)
  | None => Ok (tt, db)
  end.

Definition refresh_succeeded (generation discovered available unavailable now : Z)
    (c : CatalogRefresh) : CatalogRefresh := {|
  refresh_TenantID := refresh_TenantID c; refresh_ID := refresh_ID c;
  refresh_ActorUserID := refresh_ActorUserID c;
  refresh_ConnectionID := refresh_ConnectionID c;
  refresh_IdempotencyKey := refresh_IdempotencyKey c; refresh_Reason := refresh_Reason c;
  refresh_Status := CatalogRefreshSucceeded; refresh_Generation := generation;
  refresh_DiscoveredCount := discovered; refresh_AvailableCount := available;
  refresh_UnavailableCount := unavailable; refresh_ErrorCode := refresh_ErrorCode c;
  refresh_RequestedAt := refresh_RequestedAt c; refresh_StartedAt := refresh_StartedAt c;
  refresh_CompletedAt := Some (timestamptz now) |}.

Definition refresh_failed (errorCode : string) (now : Z) (c : CatalogRefresh)
  : CatalogRefresh := {|
  refresh_TenantID := refresh_TenantID c; refresh_ID := refresh_ID c;
  refresh_ActorUserID := refresh_ActorUserID c;
  refresh_ConnectionID := refresh_ConnectionID c;
  refresh_IdempotencyKey := refresh_IdempotencyKey c; refresh_Reason := refresh_Reason c;
  refresh_Status := CatalogRefreshFailed; refresh_Generation := refresh_Generation c;
  refresh_DiscoveredCount := refresh_DiscoveredCount c;
  refresh_AvailableCount := refresh_AvailableCount c;
  refresh_UnavailableCount := refresh_UnavailableCount c; refresh_ErrorCode := errorCode;
  refresh_RequestedAt := refresh_RequestedAt c; refresh_StartedAt := refresh_StartedAt c;
  refresh_CompletedAt := Some (timestamptz now) |}.

(** The catalog state of a connection: its insertion, and an update of what exists. *)
Definition sql_insert_state (tenantID connectionID : string) (now : Z) (sc : Scope)
    (db : access_tables) : result db_error (unit * access_tables) :=
  t ← cast tenantID; c ← cast connectionID;
  writable "model_access_catalog_states" t sc;;
  fail_if (is_some (access_states db !! (t, c)))
    (ErrUniqueViolation "model_access_catalog_states_pkey");;
  fail_if (negb (connection_exists t c db))
    (ErrForeignKeyViolation "model_access_catalog_states");;
  Ok (tt, set_states (<[(t, c) := {|
    state_Generation := 1; state_LastSuccessAt := Some (timestamptz now);
    state_AvailableCount := 0; state_UnavailableCount := 0;
    state_UpdatedAt := timestamptz now |}]> (access_states db)) db).

Definition sql_update_state (change : string → string → catalog_state → catalog_state)
    (tenantID connectionID : string) (sc : Scope) (db : access_tables)
  : result db_error (unit * access_tables) :=
  found ← tenant_row access_states tenantID connectionID sc db;
  let '(t, c, row) := found in
  match row with
  | Some row =>
      let row := change t c row in
      fail_if ((state_Generation row <? 0) || (state_AvailableCount row <? 0)
               || (state_UnavailableCount row <? 0))
        (ErrCheckViolation "model_access_catalog_states");;
      Ok (tt, set_states (<[(t, c) := row]> (access_states db)) db)
  | None => Ok (tt, db)
  end.

Definition state_advanced (generation now : Z) (_ _ : string) (row : catalog_state)
  : catalog_state := {|
  state_Generation := generation; state_LastSuccessAt := Some (timestamptz now);
  state_AvailableCount := state_AvailableCount row;
  state_UnavailableCount := state_UnavailableCount row;
  state_UpdatedAt := timestamptz now |}.

Definition state_counted (now : Z) (db : access_tables) (t c : string) (row : catalog_state)
  : catalog_state := {|
  state_Generation := state_Generation row; state_LastSuccessAt := state_LastSuccessAt row;
  state_AvailableCount := count_offerings t c OfferingStatusAvailable db;
  state_UnavailableCount := count_offerings t c OfferingStatusUnavailable db;
  state_UpdatedAt := timestamptz now |}.

(** ** bindings.go *)

(** The elements of a [uuid[]] parameter. *)
Fixpoint cast_all (l : list string) : result db_error (list string) :=
  match l with
  | [] => Ok []
  | x :: l' => u ← cast x; us ← cast_all l'; Ok (u :: us)
  end.

Definition offering_exists (t o : string) (db : access_tables) : bool :=
  is_some (access_offerings db !! (t, o)).

(** The [INSERT ... ON CONFLICT (tenant_id, agent_id) DO UPDATE] of [SetAgentBinding]. *)
Definition sql_upsert_binding (b : AgentModelBinding) (sc : Scope) (db : access_tables)
  : result db_error (unit * access_tables) :=
  t ← cast (binding_TenantID b); a ← cast (binding_AgentID b);
  c ← cast (binding_CompanyID b); primary ← cast (binding_PrimaryOfferingID b);
  fast ← cast_option (binding_FastOfferingID b); u ← cast (binding_UpdatedByUserID b);
  writable "model_access_agent_bindings" t sc;;
  let old := access_bindings db !! (t, a) in
  let row := {|
    binding_TenantID := t; binding_AgentID := a; binding_CompanyID := c;
    binding_Status := BindingStatusActive; binding_PrimaryOfferingID := primary;
    binding_FastOfferingID := fast; binding_FallbackOfferingIDs := None;
    binding_FallbackPolicy := binding_FallbackPolicy b;
    binding_MaxModelCostMicroUSD := binding_MaxModelCostMicroUSD b;
    binding_Version := binding_Version b;
    binding_CreatedByUserID := from_option binding_CreatedByUserID u old;
    binding_UpdatedByUserID := u;
    binding_CreatedAt := from_option binding_CreatedAt (timestamptz (binding_CreatedAt b)) old;
    binding_UpdatedAt := timestamptz (binding_UpdatedAt b); binding_RemovedAt := None |} in
  fail_if (negb (binding_checks row)) (ErrCheckViolation "model_access_agent_bindings");;
  fail_if (negb (offering_exists t primary db)
           || negb (from_option (λ f, offering_exists t f db) true fast))
    (ErrForeignKeyViolation "model_access_agent_bindings");;
  Ok (tt, set_binding_rows (<[(t, a) := row]> (access_bindings db)) db).

Definition binding_removed (version : Z) (actor : string) (now : Z) (b : AgentModelBinding)
  : AgentModelBinding := {|
  binding_TenantID := binding_TenantID b; binding_AgentID := binding_AgentID b;
  binding_CompanyID := binding_CompanyID b; binding_Status := BindingStatusRemoved;
  binding_PrimaryOfferingID := binding_PrimaryOfferingID b;
  binding_FastOfferingID := binding_FastOfferingID b;
  binding_FallbackOfferingIDs := binding_FallbackOfferingIDs b;
  binding_FallbackPolicy := binding_FallbackPolicy b;
  binding_MaxModelCostMicroUSD := binding_MaxModelCostMicroUSD b;
  binding_Version := version; binding_CreatedByUserID := binding_CreatedByUserID b;
  binding_UpdatedByUserID := actor; binding_CreatedAt := binding_CreatedAt b;
  binding_UpdatedAt := now; binding_RemovedAt := Some now |}.

Definition sql_remove_binding (tenantID agentID : string) (version : Z) (actorUserID : string)
    (now : Z) (sc : Scope) (db : access_tables) : result db_error (unit * access_tables) :=
  found ← tenant_row access_bindings tenantID agentID sc db;
  u ← cast actorUserID;
  match found.2 with
  | Some row =>
      let row := binding_removed version u (timestamptz now) row in
      fail_if (negb (binding_checks row)) (ErrCheckViolation "model_access_agent_bindings");;
      Ok (tt, set_binding_rows (<[found.1 := row]> (access_bindings db)) db)
  | None => Ok (tt, db)
  end.

(** The positions of an agent's fallbacks are below five. *)
Definition positions : list Z := [0; 1; 2; 3; 4].
Definition fallbacks_at (t a : string) (db : access_tables) : list (option string) :=
  (λ p, access_fallbacks db !! (t, a, p)) <$> positions.

(** [SELECT ... ORDER BY position ASC] *)
Definition sql_fallbacks (tenantID agentID : string) (sc : Scope) (db : access_tables)
  : result db_error (list string) :=
  r ← rls_of sc; t ← cast tenantID; a ← cast agentID;
  Ok (if tenant_scoped r t then omap id (fallbacks_at t a db) else []).

Definition sql_delete_fallbacks (tenantID agentID : string) (sc : Scope) (db : access_tables)
  : result db_error (unit * access_tables) :=
  r ← rls_of sc; t ← cast tenantID; a ← cast agentID;
  Ok (tt, if tenant_scoped r t
          then set_fallbacks (filter (λ kv, kv.1.1 ≠ (t, a)) (access_fallbacks db)) db
          else db).

Definition sql_insert_fallback (tenantID agentID : string) (position : Z) (offeringID : string)
    (sc : Scope) (db : access_tables) : result db_error (unit * access_tables) :=
  t ← cast tenantID; a ← cast agentID; o ← cast offeringID;
  writable "model_access_agent_binding_fallbacks" t sc;;
  fail_if (negb (in_bounds 0 4 position))
    (ErrCheckViolation "model_access_agent_binding_fallbacks");;
  fail_if (is_some (access_fallbacks db !! (t, a, position)))
    (ErrUniqueViolation "model_access_agent_binding_fallbacks_pkey");;
  fail_if (slices_Contains (omap id (fallbacks_at t a db)) o)
    (ErrUniqueViolation "model_access_agent_binding_fallbacks_offering");;
  fail_if (negb (is_some (access_bindings db !! (t, a))) || negb (offering_exists t o db))
    (ErrForeignKeyViolation "model_access_agent_binding_fallbacks");;
  Ok (tt, set_fallbacks (<[(t, a, position) := o]> (access_fallbacks db)) db).

(** The insertion of a revision. A nil slice of fallbacks is a NULL. *)
Definition sql_insert_binding_revision (b : AgentModelBinding) (changeKind actorUserID : string)
    (now : Z) (sc : Scope) (db : access_tables) : result db_error (unit * access_tables) :=
  t ← cast (binding_TenantID b); a ← cast (binding_AgentID b);
  c ← cast (binding_CompanyID b); primary ← cast (binding_PrimaryOfferingID b);
  fast ← cast_option (binding_FastOfferingID b); u ← cast actorUserID;
  fallbacks ← array_in "fallback_offering_ids" (binding_FallbackOfferingIDs b);
  fallbacks ← cast_all fallbacks;
  writable "model_access_agent_binding_revisions" t sc;;
  let row := {|
    brev_CompanyID := c; brev_Status := binding_Status b; brev_PrimaryOfferingID := primary;
    brev_FastOfferingID := fast; brev_FallbackOfferingIDs := fallbacks;
    brev_FallbackPolicy := binding_FallbackPolicy b;
    brev_MaxModelCostMicroUSD := binding_MaxModelCostMicroUSD b;
    brev_ChangeKind := changeKind; brev_ChangedByUserID := u;
    brev_CreatedAt := timestamptz now |} in
  fail_if (negb (revision_checks (binding_Version b) row))
    (ErrCheckViolation "model_access_agent_binding_revisions");;
  fail_if (is_some (access_revisions db !! (t, a, binding_Version b)))
    (ErrUniqueViolation "model_access_agent_binding_revisions_pkey");;
  Ok (tt, set_binding_revisions
            (<[(t, a, binding_Version b) := row]> (access_revisions db)) db).

Definition sql_binding_answer (tenantID actorUserID operation idempotencyKey : string)
    (sc : Scope) (db : access_tables) : result db_error (option binding_answer) :=
  r ← rls_of sc; t ← cast tenantID; u ← cast actorUserID; k ← cast idempotencyKey;
  Ok (if tenant_scoped r t then access_answers db !! (t, u, operation, k) else None).

Definition sql_insert_answer (tenantID actorUserID operation idempotencyKey : string)
    (answer : binding_answer) (sc : Scope) (db : access_tables)
  : result db_error (unit * access_tables) :=
  t ← cast tenantID; u ← cast actorUserID; k ← cast idempotencyKey;
  writable "model_access_binding_idempotency" t sc;;
  let row := {|
    answer_RequestHash := answer_RequestHash answer;
    answer_Snapshot := answer_Snapshot answer;
    answer_CreatedAt := timestamptz (answer_CreatedAt answer);
    answer_ExpiresAt := timestamptz (answer_ExpiresAt answer) |} in
  fail_if (negb (slices_Contains ["set_agent_model_binding"; "remove_agent_model_binding"]
                   operation)
           || negb (len (answer_RequestHash row) =? 32)
           || (answer_ExpiresAt row <=? answer_CreatedAt row))
    (ErrCheckViolation "model_access_binding_idempotency");;
  fail_if (is_some (access_answers db !! (t, u, operation, k)))
    (ErrUniqueViolation "model_access_binding_idempotency_pkey");;
  Ok (tt, set_answers (<[(t, u, operation, k) := row]> (access_answers db)) db).

(** ** gateway.go *)

(** [FROM model_access_model_offerings o JOIN model_access_connections c] *)
Definition sql_route (tenantID offeringID : string) (sc : Scope) (db : access_tables)
  : result db_error (ModelOffering * Connection) :=
  r ← rls_of sc; t ← cast tenantID; o ← cast offeringID;
  from_option_err ErrNoRows
    (if tenant_scoped r t then
       offering ← access_offerings db !! (t, o);
       connection ← access_connections db !! (t, offering_ConnectionID offering);
       Some (offering, connection)
     else None).

End Store.
