(* ===== verification/AccessRepository.v ===== *)
(** * Model access: the repository

    Models [services/model-access/internal/adapters/postgres]: [repository.go], [catalog.go],
    [bindings.go], [gateway.go], and [GetConnection] and [GetBYOKCredential], each method as
    its sequence of statements. The statements on the refresh queue run on the pool, each in
    a transaction of its own. *)

From stdpp Require Import strings gmap list sorting.
From Stdlib Require Import String Lia.
From S2P Require Import Prelude GoStrings Postgres Usecase Outbox.
From S2P Require Import AccessStore.
Open Scope string_scope.
Open Scope list_scope.
Open Scope Z_scope.

Section Repository.
Context `{Platform, Proto}.

(** ** repository.go *)

Definition repo (A : Type) : Type := tx access_tables error A.

Definition beginUserTenant (ctx : Ctx) (tenantID actorUserID : string) (read_only : bool)
  : repo unit :=
  Begin (TenantScope tenantID actorUserID (ctx_RequestID ctx) (ctx_CorrelationID ctx))
    read_only.

Definition insertOutbox (tenantID : string) (event : OutboxEvent) : repo unit :=
  map_err mapDatabaseError
    (now ← clock_timestamp;
     exec (λ _ db, ob ← sql_insert_outbox now tenantID event (access_outbox db);
                   Ok (tt, set_access_outbox ob db))).

(** A statement whose error is mapped. *)
Definition mapped {A} (m : repo A) : repo A := map_err mapDatabaseError m.

(** [_, _ = transaction.Exec(...)] *)
Definition ignored {A} (m : repo A) : repo unit := λ s, (Ok tt, (m s).2).

(** A query of one row, whose absence the caller tells from other errors. *)
Definition find_row {A} (q : Scope → access_tables → result db_error A) : repo (option A) :=
  query (λ sc db, match q sc db with
                  | Ok a => Ok (Some a)
                  | Err ErrNoRows => Ok None
                  | Err e => Err e
                  end).

(** [if errors.Is(err, domain.ErrNotFound) { return otherwise }] *)
Definition or_missing (otherwise : error) (e : error) : error :=
  if bool_decide (e = ErrNotFound) then otherwise else e.

Definition GetConnection (ctx : Ctx) (actorUserID tenantID connectionID : string)
  : repo Connection :=
  beginUserTenant ctx tenantID actorUserID true;;
  connection ← mapped (query (sql_row access_connections tenantID connectionID));
  commit;; mret connection.

Definition GetBYOKCredential (ctx : Ctx) (actorUserID tenantID connectionID : string)
  : repo BYOKCredential :=
  beginUserTenant ctx tenantID actorUserID true;;
  credential ← mapped (query (sql_row access_credentials tenantID connectionID));
  commit;; mret credential.

(** ** catalog.go *)

Record ListOfferingsParams := {
  offeringsIn_ActorUserID : string;
  offeringsIn_TenantID : string;
  offeringsIn_ConnectionID : string;
  offeringsIn_AgentUsableOnly : bool;
  offeringsIn_Limit : Z;
  offeringsIn_Cursor : option string;
}.

Definition ListOfferings (ctx : Ctx) (params : ListOfferingsParams) : repo (list ModelOffering) :=
  beginUserTenant ctx (offeringsIn_TenantID params) (offeringsIn_ActorUserID params) true;;
  results ← mapped (query (sql_list_offerings (offeringsIn_TenantID params)
    (offeringsIn_ConnectionID params) (offeringsIn_AgentUsableOnly params)
    (default "" (offeringsIn_Cursor params)) (offeringsIn_Limit params)));
  commit;; mret results.

Definition GetOffering (ctx : Ctx) (actorUserID tenantID offeringID : string)
  : repo ModelOffering :=
  beginUserTenant ctx tenantID actorUserID true;;
  offering ← map_err (or_missing ErrOfferingNotFound)
               (mapped (query (sql_row access_offerings tenantID offeringID)));
  commit;; mret offering.

(** [refreshID] is what [uuid.NewV7] returns. *)
Definition EnqueueCatalogRefresh (ctx : Ctx) (refreshID : option string)
    (actorUserID tenantID connectionID idempotencyKey reason : string) (requestedAt : Z)
  : repo CatalogRefresh :=
  beginUserTenant ctx tenantID actorUserID false;;
  refreshID ← lift (from_option_err ErrInternal refreshID);
  affected ← mapped (exec (sql_insert_refresh tenantID refreshID actorUserID connectionID
                             idempotencyKey reason requestedAt));
  if affected =? 0 then
    existing ← mapped (query (sql_refresh_by_key tenantID actorUserID idempotencyKey));
    commit;; mret existing
  else
    mapped (exec (sql_enqueue refreshID tenantID actorUserID connectionID requestedAt));;
    commit;;
    mret {|
      refresh_TenantID := tenantID; refresh_ID := refreshID;
      refresh_ActorUserID := actorUserID; refresh_ConnectionID := connectionID;
      refresh_IdempotencyKey := idempotencyKey; refresh_Reason := reason;
      refresh_Status := CatalogRefreshPending; refresh_Generation := 0;
      refresh_DiscoveredCount := 0; refresh_AvailableCount := 0;
      refresh_UnavailableCount := 0; refresh_ErrorCode := "";
      refresh_RequestedAt := requestedAt; refresh_StartedAt := None;
      refresh_CompletedAt := None |}.

Definition GetCatalogRefresh (ctx : Ctx) (actorUserID tenantID refreshID : string)
  : repo CatalogRefresh :=
  beginUserTenant ctx tenantID actorUserID true;;
  found ← mapped (find_row (sql_row access_refreshes tenantID refreshID));
  refresh ← lift (from_option_err ErrCatalogRefreshNotFound found);
  commit;; mret refresh.

Record ApplyCatalogRefreshParams := {
  apply_ActorUserID : string;
  apply_TenantID : string;
  apply_ConnectionID : string;
  apply_RefreshID : string;
  apply_Discovered : list DiscoveredModel;
  apply_Source : string;
  apply_RefreshedAt : Z;
}.

(** The generation that the refresh makes current. *)
Definition advanceState (params : ApplyCatalogRefreshParams) : repo Z :=
  let t := apply_TenantID params in
  let c := apply_ConnectionID params in
  let now := apply_RefreshedAt params in
  found ← mapped (find_row (sql_row access_states t c));
  match found with
  | None => mapped (exec (sql_insert_state t c now));; mret 1
  | Some state =>
      let generation := int64_incr (state_Generation state) in
      mapped (exec (sql_update_state (state_advanced generation now) t c));;
      mret generation
  end.

(** The nil UUID is used where [uuid.NewV7] fails. *)
Definition uuid_Nil : string := "00000000-0000-0000-0000-000000000000".

(** The loop over the discovered models, [newIDs] being the results of [uuid.NewV7]. *)
Fixpoint upsertOfferings (params : ApplyCatalogRefreshParams) (newIDs : nat → option string)
    (i : nat) (models : list DiscoveredModel) : repo unit :=
  match models with
  | [] => mret tt
  | m :: models' =>
      mapped (exec (sql_upsert_offering (apply_TenantID params) (apply_ConnectionID params)
                      (default uuid_Nil (newIDs i)) (apply_Source params) m
                      (apply_RefreshedAt params)));;
      upsertOfferings params newIDs (S i) models'
  end.

Definition ApplyCatalogRefresh (ctx : Ctx) (newIDs : nat → option string)
    (params : ApplyCatalogRefreshParams) : repo CatalogRefreshResult :=
  let t := apply_TenantID params in
  let c := apply_ConnectionID params in
  let now := apply_RefreshedAt params in
  let discovered := apply_Discovered params in
  let discoveredCount := Z.of_nat (List.length discovered) in
  beginUserTenant ctx t (apply_ActorUserID params) false;;
  generation ← advanceState params;
  upsertOfferings params newIDs 0 discovered;;
  unavailable ← mapped (exec (sql_withdraw_offerings t c
    (λ model, negb (slices_Contains (model_ProviderModelID <$> discovered) model)) now));
  mapped (exec (λ sc db, sql_update_state (state_counted now db) t c sc db));;
  (if negb (String.eqb (apply_RefreshID params) "") then
     mapped (exec (sql_finish_refresh
       (refresh_succeeded generation discoveredCount discoveredCount unavailable now)
       t (apply_RefreshID params)));;
     ignored (exec (sql_dequeue t (apply_RefreshID params)))
   else mret tt);;
  commit;;
  mret {|
    result_Generation := generation; result_DiscoveredCount := discoveredCount;
    result_AvailableCount := discoveredCount; result_UnavailableCount := unavailable;
    result_RefreshedAt := now |}.

Definition FailCatalogRefresh (ctx : Ctx) (refreshID tenantID actorUserID errorCode : string)
    (failedAt : Z) : repo unit :=
  beginUserTenant ctx tenantID actorUserID false;;
  mapped (exec (sql_finish_refresh (refresh_failed errorCode failedAt) tenantID refreshID));;
  ignored (exec (sql_dequeue tenantID refreshID));;
  commit.

Definition MarkConnectionOfferingsUnavailable (ctx : Ctx)
    (actorUserID tenantID connectionID : string) (unavailableAt : Z) : repo unit :=
  beginUserTenant ctx tenantID actorUserID false;;
  mapped (exec (sql_withdraw_offerings tenantID connectionID (λ _, true) unavailableAt));;
  commit.

(** ** The queue, on the pool

    [locked] says which rows other transactions hold. *)
Definition queue_claimable (clock lease : Z) (locked : string → bool) (r : string * queue_row)
  : bool :=
  (queue_AvailableAt r.2 <=? clock)
  && match queue_ClaimedAt r.2 with Some t => t <? clock - lease | None => true end
  && negb (locked r.1).

Definition queue_le (a b : string * queue_row) : Prop :=
  queue_AvailableAt a.2 < queue_AvailableAt b.2 ∨
  queue_AvailableAt a.2 = queue_AvailableAt b.2 ∧ String.leb a.1 b.1 = true.
#[export] Instance queue_le_dec : RelDecision queue_le.
Proof. intros a b. unfold queue_le. apply _. Defined.

Definition queue_candidates (clock lease limit : Z) (locked : string → bool)
    (db : access_tables) : list (string * queue_row) :=
  take (Z.to_nat limit)
    (List.filter (queue_claimable clock lease locked)
       (merge_sort queue_le (map_to_list (access_queue db)))).

Definition queue_claimed (clock : Z) (row : queue_row) : queue_row := {|
  queue_TenantID := queue_TenantID row; queue_ActorUserID := queue_ActorUserID row;
  queue_ConnectionID := queue_ConnectionID row;
  queue_AvailableAt := queue_AvailableAt row; queue_ClaimedAt := Some clock;
  queue_Attempts := queue_Attempts row + 1; queue_LastError := queue_LastError row |}.

Definition job_of (r : string * queue_row) : CatalogRefreshJob := {|
  job_RefreshID := r.1; job_TenantID := queue_TenantID r.2;
  job_ActorUserID := queue_ActorUserID r.2; job_ConnectionID := queue_ConnectionID r.2;
  job_Attempts := queue_Attempts r.2 |}.

(** A statement that is a transaction of its own. The environment decides whether it does not
    reach the server ([Some 0]) or is carried out and its answer lost. *)
Definition pool {A} (f : Z → access_tables → result db_error (A * access_tables)) : repo A :=
  λ s, match session_budget s, f (session_clock s) (session_db s) with
       | Some O, _ => (Err (ErrDatabase ErrConnection), s)
       | _, Err e => (Err (ErrDatabase e), s)
       | budget, Ok (a, db') =>
           (match budget with None => Ok a | Some _ => Err (ErrDatabase ErrConnection) end, {|
              session_db := db'; session_committed := Some db';
              session_scope := session_scope s; session_read_only := session_read_only s;
              session_clock := session_clock s; session_budget := budget |})
       end.

(** The jobs come in the order of the candidates; [RETURNING] promises none. *)
Definition sql_claim_refreshes (limit lease : Z) (locked : string → bool) (clock : Z)
    (db : access_tables) : list CatalogRefreshJob * access_tables :=
  let claimed := prod_map id (queue_claimed clock) <$>
                 queue_candidates clock lease limit locked db in
  (job_of <$> claimed, set_queue (list_to_map claimed ∪ access_queue db) db).

Definition ClaimCatalogRefresh (limit lease : Z) (locked : string → bool)
  : repo (list CatalogRefreshJob) :=
  pool (λ clock db, Ok (sql_claim_refreshes limit lease locked clock db)).

Definition queue_released (retryAt : Z) (message : string) (row : queue_row) : queue_row := {|
  queue_TenantID := queue_TenantID row; queue_ActorUserID := queue_ActorUserID row;
  queue_ConnectionID := queue_ConnectionID row;
  queue_AvailableAt := timestamptz retryAt; queue_ClaimedAt := None;
  queue_Attempts := queue_Attempts row; queue_LastError := Some message |}.

(** [message] is what [left($3, 2000)] keeps of the error's text. *)
Definition ReleaseCatalogRefresh (refreshID : string) (retryAt : Z) (message : string)
  : repo unit :=
  pool (λ _ db, i ← cast refreshID;
                Ok (tt, set_queue (alter (queue_released retryAt message) i (access_queue db)) db)).

(** ** bindings.go *)

(** [snapshotBinding] and [domainBinding]: an empty list of fallbacks comes back as nil. *)
Definition snapshotBinding (b : AgentModelBinding) : AgentModelBinding := {|
  binding_TenantID := binding_TenantID b; binding_AgentID := binding_AgentID b;
  binding_CompanyID := binding_CompanyID b; binding_Status := binding_Status b;
  binding_PrimaryOfferingID := binding_PrimaryOfferingID b;
  binding_FastOfferingID := binding_FastOfferingID b;
  binding_FallbackOfferingIDs :=
    match slice_elems (binding_FallbackOfferingIDs b) with [] => None | l => Some l end;
  binding_FallbackPolicy := binding_FallbackPolicy b;
  binding_MaxModelCostMicroUSD := binding_MaxModelCostMicroUSD b;
  binding_Version := binding_Version b; binding_CreatedByUserID := binding_CreatedByUserID b;
  binding_UpdatedByUserID := binding_UpdatedByUserID b;
  binding_CreatedAt := binding_CreatedAt b; binding_UpdatedAt := binding_UpdatedAt b;
  binding_RemovedAt := binding_RemovedAt b |}.

Definition lookupBindingIdempotency (tenantID actorUserID operation idempotencyKey
    requestHash : string) : repo (option AgentModelBinding) :=
  found ← mapped (query (sql_binding_answer tenantID actorUserID operation idempotencyKey));
  match found with
  | None => mret None
  | Some answer =>
      lift (fail_if (negb (String.eqb (answer_RequestHash answer) requestHash))
              ErrIdempotencyConflict);;
      mret (Some (answer_Snapshot answer))
  end.

Definition insertBindingIdempotency (tenantID actorUserID operation idempotencyKey
    requestHash : string) (value : AgentModelBinding) (now expiresAt : Z) : repo unit :=
  mapped (exec (sql_insert_answer tenantID actorUserID operation idempotencyKey {|
    answer_RequestHash := requestHash; answer_Snapshot := snapshotBinding value;
    answer_CreatedAt := now; answer_ExpiresAt := expiresAt |})).

Definition GetAgentBinding (ctx : Ctx) (actorUserID tenantID agentID : string)
  : repo AgentModelBinding :=
  beginUserTenant ctx tenantID actorUserID true;;
  binding ← map_err (or_missing ErrBindingNotFound)
              (mapped (query (sql_row access_bindings tenantID agentID)));
  lift (fail_if (String.eqb (binding_Status binding) BindingStatusRemoved) ErrBindingNotFound);;
  fallbacks ← mapped (query (sql_fallbacks tenantID agentID));
  commit;;
  mret {|
    binding_TenantID := binding_TenantID binding; binding_AgentID := binding_AgentID binding;
    binding_CompanyID := binding_CompanyID binding; binding_Status := binding_Status binding;
    binding_PrimaryOfferingID := binding_PrimaryOfferingID binding;
    binding_FastOfferingID := binding_FastOfferingID binding;
    binding_FallbackOfferingIDs := Some fallbacks;
    binding_FallbackPolicy := binding_FallbackPolicy binding;
    binding_MaxModelCostMicroUSD := binding_MaxModelCostMicroUSD binding;
    binding_Version := binding_Version binding;
    binding_CreatedByUserID := binding_CreatedByUserID binding;
    binding_UpdatedByUserID := binding_UpdatedByUserID binding;
    binding_CreatedAt := binding_CreatedAt binding;
    binding_UpdatedAt := binding_UpdatedAt binding;
    binding_RemovedAt := binding_RemovedAt binding |}.

Record SetBindingParams := {
  setBinding_ActorUserID : string;
  setBinding_TenantID : string;
  setBinding_AgentID : string;
  setBinding_CompanyID : string;
  setBinding_ExpectedVersion : Z;
  setBinding_PrimaryOfferingID : string;
  setBinding_FastOfferingID : option string;
  setBinding_FallbackOfferingIDs : slice;
  setBinding_FallbackPolicy : string;
  setBinding_MaxModelCostMicroUSD : option Z;
  setBinding_IdempotencyKey : string;
  setBinding_RequestHash : string;
  setBinding_IdempotencyExpiresAt : Z;
  setBinding_Now : Z;
  setBinding_EventFactory : AgentModelBinding → result error OutboxEvent;
}.

(** The binding that is written and returned, whatever row was there before. *)
Definition newBinding (params : SetBindingParams) (version : Z) : AgentModelBinding := {|
  binding_TenantID := setBinding_TenantID params; binding_AgentID := setBinding_AgentID params;
  binding_CompanyID := setBinding_CompanyID params; binding_Status := BindingStatusActive;
  binding_PrimaryOfferingID := setBinding_PrimaryOfferingID params;
  binding_FastOfferingID := setBinding_FastOfferingID params;
  binding_FallbackOfferingIDs := setBinding_FallbackOfferingIDs params;
  binding_FallbackPolicy := setBinding_FallbackPolicy params;
  binding_MaxModelCostMicroUSD := setBinding_MaxModelCostMicroUSD params;
  binding_Version := version; binding_CreatedByUserID := setBinding_ActorUserID params;
  binding_UpdatedByUserID := setBinding_ActorUserID params;
  binding_CreatedAt := setBinding_Now params; binding_UpdatedAt := setBinding_Now params;
  binding_RemovedAt := None |}.

Fixpoint insertFallbacks (tenantID agentID : string) (position : Z) (offeringIDs : list string)
  : repo unit :=
  match offeringIDs with
  | [] => mret tt
  | offeringID :: offeringIDs' =>
      mapped (exec (sql_insert_fallback tenantID agentID position offeringID));;
      insertFallbacks tenantID agentID (position + 1) offeringIDs'
  end.

Definition setChangeKind (existing : option AgentModelBinding) : string :=
  match existing with
  | None => "created"
  | Some b => if String.eqb (binding_Status b) BindingStatusRemoved then "reactivated"
              else "updated"
  end.

(** The version check, and the version that is written. *)
Definition nextBindingVersion (existing : option AgentModelBinding) (expected : Z)
  : result error Z :=
  match existing with
  | None => fail_if (negb (expected =? 0)) ErrBindingVersionConflict;; Ok 1
  | Some b =>
      fail_if (negb (expected =? binding_Version b)) ErrBindingVersionConflict;;
      Ok (int64_incr (binding_Version b))
  end.

(** The writes of [SetAgentBinding]. *)
Definition writeBinding (params : SetBindingParams) (existing : option AgentModelBinding)
    (binding : AgentModelBinding) : repo unit :=
  let t := setBinding_TenantID params in
  let a := setBinding_AgentID params in
  mapped (exec (sql_upsert_binding binding));;
  mapped (exec (sql_delete_fallbacks t a));;
  insertFallbacks t a 0 (slice_elems (setBinding_FallbackOfferingIDs params));;
  mapped (exec (sql_insert_binding_revision binding (setChangeKind existing)
                  (setBinding_ActorUserID params) (setBinding_Now params))).

Definition SetAgentBinding (ctx : Ctx) (params : SetBindingParams) : repo AgentModelBinding :=
  let t := setBinding_TenantID params in
  let u := setBinding_ActorUserID params in
  let operation := "set_agent_model_binding" in
  let key := setBinding_IdempotencyKey params in
  let hash := setBinding_RequestHash params in
  beginUserTenant ctx t u false;;
  cached ← lookupBindingIdempotency t u operation key hash;
  match cached with
  | Some binding => mret binding
  | None =>
      existing ← mapped (find_row (sql_row access_bindings t (setBinding_AgentID params)));
      version ← lift (nextBindingVersion existing (setBinding_ExpectedVersion params));
      let binding := newBinding params version in
      writeBinding params existing binding;;
      insertBindingIdempotency t u operation key hash binding (setBinding_Now params)
        (setBinding_IdempotencyExpiresAt params);;
      event ← lift (setBinding_EventFactory params binding);
      insertOutbox t event;;
      commit;; mret binding
  end.

Record RemoveBindingParams := {
  removeBinding_ActorUserID : string;
  removeBinding_TenantID : string;
  removeBinding_AgentID : string;
  removeBinding_ExpectedVersion : Z;
  removeBinding_IdempotencyKey : string;
  removeBinding_RequestHash : string;
  removeBinding_IdempotencyExpiresAt : Z;
  removeBinding_Now : Z;
  removeBinding_EventFactory : AgentModelBinding → result error OutboxEvent;
}.

Definition RemoveAgentBinding (ctx : Ctx) (params : RemoveBindingParams)
  : repo AgentModelBinding :=
  let t := removeBinding_TenantID params in
  let u := removeBinding_ActorUserID params in
  let a := removeBinding_AgentID params in
  let now := removeBinding_Now params in
  let operation := "remove_agent_model_binding" in
  let key := removeBinding_IdempotencyKey params in
  let hash := removeBinding_RequestHash params in
  beginUserTenant ctx t u false;;
  cached ← lookupBindingIdempotency t u operation key hash;
  match cached with
  | Some binding => mret binding
  | None =>
      binding ← map_err (or_missing ErrBindingNotFound)
                  (mapped (query (sql_row access_bindings t a)));
      lift (fail_if (String.eqb (binding_Status binding) BindingStatusRemoved)
              ErrBindingNotFound);;
      lift (fail_if (negb (removeBinding_ExpectedVersion params =? binding_Version binding))
              ErrBindingVersionConflict);;
      let version := int64_incr (binding_Version binding) in
      mapped (exec (sql_remove_binding t a version u now));;
      mapped (exec (sql_delete_fallbacks t a));;
      let removed := binding_removed version u now binding in
      mapped (exec (sql_insert_binding_revision removed "removed" u now));;
      insertBindingIdempotency t u operation key hash removed now
        (removeBinding_IdempotencyExpiresAt params);;
      event ← lift (removeBinding_EventFactory params removed);
      insertOutbox t event;;
      commit;; mret removed
  end.

(** ** gateway.go *)

Definition fetchRoute (tenantID offeringID : string) : repo (result error InferenceRoute) :=
  found ← find_row (sql_route tenantID offeringID);
  mret (match found with
        | None => Err ErrOfferingNotFound
        | Some (o, c) =>
            fail_if (negb (String.eqb (offering_Status o) OfferingStatusAvailable)
                     || negb (offering_AgentUsable o)) ErrOfferingNotFound;;
            fail_if (negb (String.eqb (connection_Status c) ConnectionStatusActive))
              ErrConnectionArchived;;
            Ok {|
              route_OfferingID := offering_ID o; route_ConnectionID := offering_ConnectionID o;
              route_ProviderKey := offering_ProviderKey o;
              route_ProviderModelID := offering_ProviderModelID o;
              route_ConnectionType := connection_ConnectionType c;
              route_ProviderPoolKey := connection_ProviderPoolKey c;
              route_ContextWindowTokens := offering_ContextWindowTokens o;
              route_MaxOutputTokens := offering_MaxOutputTokens o;
              route_Capabilities := offering_Capabilities o |}
        end).

Definition usable {A} (r : result error A) : option A :=
  match r with Ok a => Some a | Err _ => None end.

(** The routes of the fallbacks that have one. *)
Fixpoint fetchRoutes (tenantID : string) (offeringIDs : list string)
  : repo (list InferenceRoute) :=
  match offeringIDs with
  | [] => mret []
  | offeringID :: offeringIDs' =>
      route ← fetchRoute tenantID offeringID;
      routes ← fetchRoutes tenantID offeringIDs';
      mret (option_list (usable route) ++ routes)
  end.

Definition ResolveInferencePlan (tenantID agentID : string) (now : Z) : repo InferencePlan :=
  Begin (ServiceTenantScope tenantID uuid_Nil "internal-plan-resolve" "internal-plan-resolve")
    true;;
  found ← mapped (find_row (sql_row access_bindings tenantID agentID));
  binding ← lift (from_option_err ErrBindingNotFound found);
  lift (fail_if (negb (String.eqb (binding_Status binding) BindingStatusActive))
          ErrBindingNotFound);;
  primary ← fetchRoute tenantID (binding_PrimaryOfferingID binding);
  primaryRoute ← lift primary;
  fastRoute ← (match binding_FastOfferingID binding with
               | Some fast =>
                   if String.eqb fast "" then mret None
                   else route ← fetchRoute tenantID fast; mret (usable route)
               | None => mret None
               end);
  fallbackRoutes ← (if String.eqb (binding_FallbackPolicy binding) FallbackPolicyOrdered then
                      ids ← mapped (query (sql_fallbacks tenantID agentID));
                      fetchRoutes tenantID ids
                    else mret []);
  commit;;
  mret {|
    plan_TenantID := tenantID; plan_AgentID := agentID;
    plan_CompanyID := binding_CompanyID binding;
    plan_BindingVersion := binding_Version binding;
    plan_PrimaryRoute := primaryRoute; plan_FastRoute := fastRoute;
    plan_FallbackRoutes := fallbackRoutes;
    plan_MaxModelCostMicroUSD := binding_MaxModelCostMicroUSD binding;
    plan_ResolvedAt := now |}.

End Repository.
