(* ===== verification/AccessCatalog.v ===== *)
(** * Model access: where models are discovered

    Models [services/model-access/internal/adapters/catalog/static.go], the platform's
    catalog file, and [adapters/provider/catalog.go], the client of the providers' model
    lists. The parsed file and the providers' replies are parameters. *)

From stdpp Require Import strings gmap list pretty.
From Stdlib Require Import String Ascii Lia.
From S2P Require Import Prelude GoStrings Postgres Usecase Outbox.
From S2P Require Import AccessStore.
Open Scope string_scope.
Open Scope list_scope.
Open Scope Z_scope.

(** ** adapters/catalog/static.go *)

Record staticModel := {
  static_ProviderModelID : string;
  static_DisplayName : string;
  static_Description : string;
  static_AgentUsable : bool;
  static_Capabilities : slice;
  static_InputModalities : slice;
  static_OutputModalities : slice;
  static_ContextWindowTokens : Z;
  static_MaxOutputTokens : Z;
}.

(** The models of the pools of the providers. *)
Definition staticPools : Type := gmap string (list staticModel).
Definition staticCatalogFile : Type := gmap string staticPools.

Definition static_discovered (providerKey : string) (m : staticModel) : DiscoveredModel := {|
  model_ProviderKey := providerKey; model_ProviderModelID := static_ProviderModelID m;
  model_DisplayName := static_DisplayName m; model_Description := static_Description m;
  model_AgentUsable := static_AgentUsable m; model_Capabilities := static_Capabilities m;
  model_InputModalities := static_InputModalities m;
  model_OutputModalities := static_OutputModalities m;
  model_ContextWindowTokens := static_ContextWindowTokens m;
  model_MaxOutputTokens := static_MaxOutputTokens m |}.

(** A loader that has read its file. *)
Definition LoadPlatformOfferings (cached : staticCatalogFile) (providerKey poolKey : string)
  : list DiscoveredModel :=
  match cached !! providerKey with
  | None => []
  | Some pools =>
      match pools !! poolKey with
      | Some models => static_discovered providerKey <$> models
      | None => static_discovered providerKey <$> default [] (pools !! "global")
      end
  end.

(** [range] is the order in which Go iterates over the pools. *)
Definition FindCuratedMetadata (range : staticPools → list (list staticModel))
    (cached : staticCatalogFile) (providerKey providerModelID : string)
  : option DiscoveredModel :=
  pools ← cached !! providerKey;
  m ← List.find (λ m, String.eqb (static_ProviderModelID m) providerModelID)
        (List.concat (range pools));
  Some (static_discovered providerKey m).

(** ** adapters/provider/catalog.go

    A reply is the error of the exchange, or a status and the body, decoded or with the error
    of reading or decoding it. An error is its text. *)
Inductive http_reply (A : Type) :=
| http_error (message : string)
| http_response (status : Z) (body : result string A).
Arguments http_error {A} _.
Arguments http_response {A} _ _.

Record openAIModel := {
  openai_ID : string;
  openai_OwnedBy : string;
}.
Record anthropicModel := {
  anthropic_ID : string;
  anthropic_DisplayName : string;
}.
Record googleModel := {
  google_Name : string;
  google_DisplayName : string;
  google_Description : string;
  google_InputTokenLimit : Z;
  google_OutputTokenLimit : Z;
  google_SupportedGenerationMethods : list string;
}.
Record openRouterModel := {
  openrouter_ID : string;
  openrouter_Name : string;
  openrouter_Description : string;
  openrouter_ContextLength : Z;
  openrouter_MaxCompletionTokens : option Z;
}.

(** The providers' answers to a key. *)
Record Providers := {
  get_openai : string → http_reply (list openAIModel);
  get_anthropic : string → http_reply (list anthropicModel);
  get_google : string → http_reply (list googleModel);
  get_openrouter : string → http_reply (list openRouterModel);
}.

(** The texts of the sentinel errors. *)
Definition text_ErrCredentialRejected := "provider rejected the credential".
Definition text_ErrCredentialVerificationUnavailable :=
  "provider credential verification is temporarily unavailable".
Definition text_ErrProviderNotFound := "model provider not found".

(** The decoded body of a successful reply; [rejected] are the statuses that say that the
    key is refused. *)
Definition provider_body {A} (name : string) (rejected : list Z) (reply : http_reply A)
  : result string A :=
  match reply with
  | http_error message => Err (name +:+ " catalog request: " +:+ message)
  | http_response status body =>
      fail_if (bool_decide (status ∈ rejected)) text_ErrCredentialRejected;;
      fail_if ((500 <=? status) || (status =? 429))
        text_ErrCredentialVerificationUnavailable;;
      fail_if (negb (status =? 200)) (name +:+ " catalog status: " +:+ pretty status);;
      body
  end.

Section Provider.
Context `{Platform}.

(** [strings.Contains] *)
Fixpoint Contains (s sub : string) : bool :=
  HasPrefix s sub || match s with String _ s' => Contains s' sub | EmptyString => false end.

(** [strings.TrimPrefix] *)
Definition TrimPrefix (s p : string) : string :=
  if HasPrefix s p then drop_bytes (String.length p) s else s.

(** The part of [s] after the last byte [c]: the last of [strings.Split]. *)
Fixpoint after_last (c : ascii) (s : string) : string :=
  match s with
  | EmptyString => EmptyString
  | String d s' =>
      if existsb (Ascii.eqb c) (list_ascii_of_string s') then after_last c s'
      else if Ascii.eqb c d then s' else s
  end.

Definition replace_byte (c d : ascii) (s : string) : string :=
  map_bytes (λ x, if Ascii.eqb c x then d else x) s.

(** [strings.Fields]; [word] is the field that is being read. *)
Fixpoint fields (fuel : nat) (s word : string) : list string :=
  let done := if String.eqb word "" then [] else [reverse word] in
  match fuel with
  | O => done
  | S fuel' =>
      match List.find (HasPrefix s) space_runes, s with
      | Some r, _ => done ++ fields fuel' (drop_bytes (String.length r) s) ""
      | None, String c s' => fields fuel' s' (String c word)
      | None, EmptyString => done
      end
  end.
Definition Fields (s : string) : list string := fields (S (String.length s)) s "".

(** [strings.ToUpper] of one byte; a byte that is no ASCII becomes U+FFFD. *)
Definition upper_byte (c : ascii) : string :=
  if in_range 97 122 c then String (ascii_of_nat (nat_of_ascii c - 32)) ""
  else if is_ascii_byte c then String c ""
  else bytes [239; 191; 189]%nat.

(** [strings.ToUpper(w[:1]) + strings.ToLower(w[1:])] *)
Definition capitalize (w : string) : string :=
  match w with
  | EmptyString => EmptyString
  | String c w' => upper_byte c +:+ ToLower w'
  end.

Definition formatDisplayName (id : string) : string :=
  String.concat " "
    (capitalize <$>
     Fields (replace_byte "_" " " (replace_byte "-" " " (after_last "/" id)))).

Definition isOpenAIAgentUsable (modelID : string) : bool :=
  let lower := ToLower modelID in
  if existsb (Contains lower)
       ["embedding"; "dall-e"; "tts"; "whisper"; "moderation"; "realtime"; "audio"]
  then false
  else existsb (HasPrefix lower) ["gpt-4"; "gpt-3.5"; "o1"; "o3"; "chatgpt"].

Definition isGoogleAgentUsable (methods : list string) : bool :=
  slices_Contains methods "generateContent".

Definition discoverOpenAI (providers : Providers) (apiKey : string)
  : result string (list DiscoveredModel) :=
  parsed ← provider_body "openai" [401; 403] (get_openai providers apiKey);
  Ok (List.map (λ m, {|
    model_ProviderKey := "openai"; model_ProviderModelID := openai_ID m;
    model_DisplayName := formatDisplayName (openai_ID m);
    model_Description :=
      "OpenAI model " +:+ openai_ID m +:+ " (owned by " +:+ openai_OwnedBy m +:+ ")";
    model_AgentUsable := isOpenAIAgentUsable (openai_ID m);
    model_Capabilities := None; model_InputModalities := None;
    model_OutputModalities := None; model_ContextWindowTokens := 0;
    model_MaxOutputTokens := 0 |}) parsed).

Definition discoverAnthropic (providers : Providers) (apiKey : string)
  : result string (list DiscoveredModel) :=
  parsed ← provider_body "anthropic" [401; 403] (get_anthropic providers apiKey);
  Ok (List.map (λ m, {|
    model_ProviderKey := "anthropic"; model_ProviderModelID := anthropic_ID m;
    model_DisplayName :=
      if String.eqb (anthropic_DisplayName m) "" then formatDisplayName (anthropic_ID m)
      else anthropic_DisplayName m;
    model_Description := "Anthropic model " +:+ anthropic_ID m;
    model_AgentUsable := true;
    model_Capabilities := None; model_InputModalities := None;
    model_OutputModalities := None; model_ContextWindowTokens := 0;
    model_MaxOutputTokens := 0 |}) parsed).

Definition discoverGoogle (providers : Providers) (apiKey : string)
  : result string (list DiscoveredModel) :=
  parsed ← provider_body "google" [401; 403; 400] (get_google providers apiKey);
  Ok (List.map (λ m, {|
    model_ProviderKey := "google";
    model_ProviderModelID := TrimPrefix (google_Name m) "models/";
    model_DisplayName := google_DisplayName m; model_Description := google_Description m;
    model_AgentUsable := isGoogleAgentUsable (google_SupportedGenerationMethods m);
    model_Capabilities := None; model_InputModalities := None;
    model_OutputModalities := None;
    model_ContextWindowTokens := google_InputTokenLimit m;
    model_MaxOutputTokens := google_OutputTokenLimit m |}) parsed).

Definition discoverOpenRouter (providers : Providers) (apiKey : string)
  : result string (list DiscoveredModel) :=
  parsed ← provider_body "openrouter" [401; 403] (get_openrouter providers apiKey);
  Ok (List.map (λ m, {|
    model_ProviderKey := "openrouter"; model_ProviderModelID := openrouter_ID m;
    model_DisplayName := openrouter_Name m; model_Description := openrouter_Description m;
    model_AgentUsable := true;
    model_Capabilities := None; model_InputModalities := None;
    model_OutputModalities := None;
    model_ContextWindowTokens := openrouter_ContextLength m;
    model_MaxOutputTokens := default 0 (openrouter_MaxCompletionTokens m) |}) parsed).

Definition DiscoverModels (providers : Providers) (providerKey apiKey : string)
  : result string (list DiscoveredModel) :=
  if String.eqb providerKey "openai" then discoverOpenAI providers apiKey
  else if String.eqb providerKey "anthropic" then discoverAnthropic providers apiKey
  else if String.eqb providerKey "google" then discoverGoogle providers apiKey
  else if String.eqb providerKey "openrouter" then discoverOpenRouter providers apiKey
  else Err text_ErrProviderNotFound.

(** No provider's list says what a model can do: the slices stay nil. *)
Definition uncurated (m : DiscoveredModel) : Prop :=
  model_Capabilities m = None ∧ model_InputModalities m = None ∧
  model_OutputModalities m = None.

Lemma DiscoverModels_uncurated providers providerKey apiKey models :
  DiscoverModels providers providerKey apiKey = Ok models → Forall uncurated models.
Proof.
  unfold DiscoverModels, discoverOpenAI, discoverAnthropic, discoverGoogle,
    discoverOpenRouter.
  repeat case_match; intros Hr; try done;
    apply result_bind_Ok in Hr as (parsed & _ & [= <-]);
    by apply Forall_map, Forall_true.
Qed.

End Provider.

(** A display name made of an identifier. *)
Example display_names :
  ∀ `{Platform}, formatDisplayName "openai/gpt-4o_mini" = "Gpt 4o Mini".
Proof. intros. vm_compute. reflexivity. Qed.
