(* ===== verification/AccessService.v ===== *)
(** * Model access: the application layer and its transport

    Models [bindings.go], [catalog.go], [catalog_worker.go], [service.go], [validation.go] and
    the events of bindings ([events.go]) of [services/model-access/internal/application]; the
    tenant authorizer ([adapters/authorization/tenant.go]); the client of the organization
    service ([adapters/organization/client.go]); the resolver for the model gateway
    ([transport/grpc/gateway_resolver.go]), the errors of the transport ([errors.go]) and its
    check of the actor ([actor_binding.go]).

    [json_Marshal] and [sha256_Sum256] fingerprint a request; the tenant service, the
    organization service, the secret store and the providers are parameters. *)

From stdpp Require Import strings gmap list pretty.
From Stdlib Require Import String Lia Cantor.
From S2P Require Import Prelude GoStrings Postgres Usecase Outbox.
From S2P Require TenantDomain OrganizationDomain.
From S2P Require Import AccessStore AccessRepository AccessCatalog.
Open Scope string_scope.
Open Scope list_scope.
Open Scope Z_scope.

#[local] Notation app := (Usecase.app access_tables error).
#[local] Notation world := (Usecase.world access_tables).

(** ** protoutil

    An enum constant is named by the domain value it stands for, the unspecified one by the
    empty string; the message has the fields of the domain value. *)
Definition proto_enum (known : list string) (value : string) : string :=
  if slices_Contains known value then value else "".

Definition protoutil_AgentModelBinding (b : AgentModelBinding) : AgentModelBinding := {|
  binding_TenantID := binding_TenantID b; binding_AgentID := binding_AgentID b;
  binding_CompanyID := binding_CompanyID b;
  binding_Status := proto_enum [BindingStatusActive; BindingStatusRemoved] (binding_Status b);
  binding_PrimaryOfferingID := binding_PrimaryOfferingID b;
  binding_FastOfferingID := binding_FastOfferingID b;
  binding_FallbackOfferingIDs := binding_FallbackOfferingIDs b;
  binding_FallbackPolicy :=
    proto_enum [FallbackPolicyOrdered; FallbackPolicyNone] (binding_FallbackPolicy b);
  binding_MaxModelCostMicroUSD := binding_MaxModelCostMicroUSD b;
  binding_Version := binding_Version b; binding_CreatedByUserID := binding_CreatedByUserID b;
  binding_UpdatedByUserID := binding_UpdatedByUserID b;
  binding_CreatedAt := binding_CreatedAt b; binding_UpdatedAt := binding_UpdatedAt b;
  binding_RemovedAt := binding_RemovedAt b |}.

(** The unspecified policy is read as none. *)
Definition DomainFallbackPolicy (value : string) : string :=
  if String.eqb value FallbackPolicyOrdered then FallbackPolicyOrdered else FallbackPolicyNone.

(** The payloads of the events. *)
Inductive AccessMessage :=
| AgentModelBindingSet (binding : AgentModelBinding)
| AgentModelBindingRemoved (binding : AgentModelBinding) (removedByUserID : string)
| ModelCatalogRefreshed (tenantID connectionID : string) (generation : Z)
    (discovered available unavailable refreshedAt : Z).

Class AccessProto `{Proto} := { marshal_access_message : AccessMessage → option wire }.

(** ** validation.go *)

(** The requests that are fingerprinted. *)
Inductive fingerprint :=
| SetFingerprint (agentID : string) (expectedVersion : Z) (primaryOfferingID fastOfferingID : string)
    (fallbackOfferingIDs : slice) (fallbackPolicy maxModelCostMicroUSD : string)
| RemoveFingerprint (agentID : string) (expectedVersion : Z).

Class Fingerprints := {
  json_Marshal : fingerprint → option string;
  sha256_Sum256 : string → string;
}.

Definition hashCanonical `{Fingerprints} (value : fingerprint) : result error string :=
  encoded ← from_option_err ErrInternal (json_Marshal value);
  Ok (sha256_Sum256 encoded).

Section Validation.
Context `{Platform}.

Definition validateUUID (value : string) : result error unit :=
  fail_if (negb (is_some (uuid_Parse (TrimSpace value)))) ErrInvalidArgument.

(** The identifiers of a request, checked in order: every failure is the same error. *)
Definition validateUUIDs (values : list string) : result error unit :=
  fail_if (negb (forallb (λ v, is_some (uuid_Parse (TrimSpace v))) values)) ErrInvalidArgument.

End Validation.

(** ** ports and clients *)

Record AgentReference := {
  agent_TenantID : string;
  agent_CompanyID : string;
  agent_AgentID : string;
  agent_Status : string;
  agent_Version : Z;
}.

(** What the organization service answers to [GetAgent]. *)
Inductive agent_reply :=
| agent_found (agent : AgentReference)
| agent_missing
| agent_refused
| agent_none
| agent_failed.

Record StaticCatalog := {
  static_cached : staticCatalogFile;
  static_range : staticPools → list (list staticModel);
}.

Record Config := {
  config_EventTopic : string;
  config_IdempotencyTTL : Z;
}.

Record Service := {
  service_config : Config;
  service_CheckAuthorization : string → string → TenantDomain.Permission →
    result error (option TenantDomain.AuthorizationDecision);
  service_ReadVersion : string → Z → result error string;
  service_catalogClient : option (string → string → result string (list DiscoveredModel));
  service_staticCatalog : option StaticCatalog;
  service_agentDirectory : option (string → string → string → agent_reply);
}.

(** [New]; the collaborators that it requires are there. *)
Definition New (service : Service) : result error Service :=
  fail_if (String.eqb (config_EventTopic (service_config service)) "") ErrInternal;;
  fail_if (config_IdempotencyTTL (service_config service) <=? 0) ErrInternal;;
  Ok service.

Section Service.
Context `{Platform, AccessProto, Fingerprints}.
Variable service : Service.

(** adapters/authorization/tenant.go *)
Definition Authorizer_Require (actorUserID tenantID : string)
    (permission : TenantDomain.Permission) : result error unit :=
  response ← service_CheckAuthorization service actorUserID tenantID permission;
  decision ← from_option_err ErrInternal response;
  if TenantDomain.decision_Allowed decision then Ok tt
  else if String.eqb (TenantDomain.decision_DenialReason decision)
            TenantDomain.DenialReasonTenantNotActive
          || String.eqb (TenantDomain.decision_DenialReason decision)
               TenantDomain.DenialReasonTenantArchived
  then Err ErrTenantNotActive
  else Err ErrForbidden.

(** adapters/organization/client.go *)
Definition Client_GetAgent (reply : agent_reply) : result error AgentReference :=
  match reply with
  | agent_found agent => Ok agent
  | agent_missing => Err ErrAgentNotFound
  | agent_refused => Err ErrForbidden
  | agent_none | agent_failed => Err ErrInternal
  end.

(** ** events.go: [bindingEvent] and [catalogRefreshedEvent] differ in the aggregate *)
Definition newOutboxEvent (eventID : option string) (ctx : Ctx)
    (eventType tenantID aggregateType aggregateID : string) (aggregateVersion : Z)
    (payload : AccessMessage) (occurredAt : Z) : result error OutboxEvent :=
  eventID ← from_option_err ErrInternal eventID;
  payloadBytes ← from_option_err ErrInternal (marshal_access_message payload);
  envelopeBytes ← from_option_err ErrInternal (marshal_envelope {|
    envelope_EventId := eventID; envelope_EventType := eventType;
    envelope_EventVersion := 1; envelope_TenantId := tenantID;
    envelope_AggregateType := aggregateType; envelope_AggregateId := aggregateID;
    envelope_AggregateVersion := aggregateVersion mod 2 ^ 64;
    envelope_OccurredAt := Some occurredAt; envelope_Producer := "model-access";
    envelope_TraceId := ctx_TraceID ctx; envelope_CorrelationId := ctx_CorrelationID ctx;
    envelope_CausationId := ctx_RequestID ctx; envelope_Payload := payloadBytes |});
  Ok {| event_ID := eventID; event_Topic := config_EventTopic (service_config service);
        event_Key := aggregateID; event_Envelope := envelopeBytes;
        event_OccurredAt := occurredAt |}.

Definition bindingEvent (eventID : option string) (ctx : Ctx) (eventType : string)
    (binding : AgentModelBinding) (payload : AccessMessage) (occurredAt : Z)
  : result error OutboxEvent :=
  newOutboxEvent eventID ctx eventType (binding_TenantID binding) "agent_model_binding"
    (binding_AgentID binding) (binding_Version binding) payload occurredAt.

Definition catalogRefreshedEvent (eventID : option string) (ctx : Ctx) (tenantID : string)
    (payload : AccessMessage) (occurredAt : Z) : result error OutboxEvent :=
  newOutboxEvent eventID ctx "model.catalog.refreshed" tenantID "model_catalog" tenantID 1
    payload occurredAt.

(** ** bindings.go *)

Record SetAgentBindingInput := {
  setIn_ActorUserID : string;
  setIn_TenantID : string;
  setIn_AgentID : string;
  setIn_IdempotencyKey : string;
  setIn_ExpectedVersion : Z;
  setIn_PrimaryOfferingID : string;
  setIn_FastOfferingID : option string;
  setIn_FallbackOfferingIDs : slice;
  setIn_FallbackPolicy : string;
  setIn_MaxModelCostMicroUSD : option Z;
}.

Record RemoveAgentBindingInput := {
  removeIn_ActorUserID : string;
  removeIn_TenantID : string;
  removeIn_AgentID : string;
  removeIn_IdempotencyKey : string;
  removeIn_ExpectedVersion : Z;
}.

Definition GetAgentModelBinding (ctx : Ctx) (actorUserID tenantID agentID : string)
  : app AgentModelBinding :=
  pure (λ _, validateUUIDs [actorUserID; tenantID; agentID];;
             Authorizer_Require actorUserID tenantID TenantDomain.PermissionModelBindingRead);;
  call (GetAgentBinding ctx actorUserID tenantID agentID).

(** [input.FastOfferingID != nil && *input.FastOfferingID != ""] *)
Definition fastOfferings (input : SetAgentBindingInput) : list string :=
  match setIn_FastOfferingID input with
  | Some fast => if String.eqb fast "" then [] else [fast]
  | None => []
  end.

Definition fallbackOfferings (input : SetAgentBindingInput) : list string :=
  slice_elems (setIn_FallbackOfferingIDs input).

(** The offerings of the request, in the order in which they are checked. *)
Definition requestedOfferings (input : SetAgentBindingInput) : list string :=
  setIn_PrimaryOfferingID input :: fastOfferings input ++ fallbackOfferings input.

Definition offering_bindable (o : ModelOffering) : result error unit :=
  fail_if (negb (String.eqb (offering_Status o) OfferingStatusAvailable)) ErrOfferingUnavailable;;
  fail_if (negb (offering_AgentUsable o)) ErrOfferingNotAgentUsable.

(** Each offering is read in a transaction of its own. *)
Fixpoint requireOfferings (ctx : Ctx) (actorUserID tenantID : string) (ids : list string)
  : app unit :=
  match ids with
  | [] => mret tt
  | offeringID :: ids' =>
      offering ← call (GetOffering ctx actorUserID tenantID offeringID);
      pure (λ _, offering_bindable offering);;
      requireOfferings ctx actorUserID tenantID ids'
  end.

(** The agent of the request, which the organization service knows. *)
Definition requireAgent (actorUserID tenantID agentID : string) : result error AgentReference :=
  GetAgent ← from_option_err ErrInternal (service_agentDirectory service);
  agentRef ← Client_GetAgent (GetAgent actorUserID tenantID agentID);
  fail_if (String.eqb (agent_Status agentRef) OrganizationDomain.AgentStatusDeleting
           || String.eqb (agent_Status agentRef) OrganizationDomain.AgentStatusDeleted)
    ErrAgentDeleted;;
  Ok agentRef.

(** The map of the offerings seen: is there one twice? *)
Fixpoint has_duplicate (ids : list string) : bool :=
  match ids with
  | [] => false
  | i :: ids' => slices_Contains ids' i || has_duplicate ids'
  end.

(** What is checked of the fallbacks, the policy and the cost once the offerings are known. *)
Definition bindingTerms (input : SetAgentBindingInput) : result error unit :=
  let fallbacks := fallbackOfferings input in
  let policy := setIn_FallbackPolicy input in
  fail_if (5 <? Z.of_nat (List.length fallbacks)) ErrInvalidArgument;;
  fail_if (has_duplicate (requestedOfferings input)) ErrInvalidArgument;;
  (if String.eqb policy FallbackPolicyNone then
     fail_if (negb (bool_decide (fallbacks = []))) ErrInvalidFallbackPolicy
   else if String.eqb policy FallbackPolicyOrdered then
     fail_if (bool_decide (fallbacks = [])) ErrInvalidFallbackPolicy
   else Err ErrInvalidFallbackPolicy);;
  fail_if (match setIn_MaxModelCostMicroUSD input with Some c => c <=? 0 | None => false end)
    ErrInvalidArgument.

Definition set_fingerprint (input : SetAgentBindingInput) : fingerprint :=
  SetFingerprint (setIn_AgentID input) (setIn_ExpectedVersion input)
    (setIn_PrimaryOfferingID input) (default "" (setIn_FastOfferingID input))
    (setIn_FallbackOfferingIDs input) (setIn_FallbackPolicy input)
    (match setIn_MaxModelCostMicroUSD input with Some c => pretty c | None => "" end).

Definition setBindingParams (ctx : Ctx) (input : SetAgentBindingInput) (companyID hash : string)
    (now : Z) (eventID : option string) : SetBindingParams := {|
  setBinding_ActorUserID := setIn_ActorUserID input;
  setBinding_TenantID := setIn_TenantID input; setBinding_AgentID := setIn_AgentID input;
  setBinding_CompanyID := companyID;
  setBinding_ExpectedVersion := setIn_ExpectedVersion input;
  setBinding_PrimaryOfferingID := setIn_PrimaryOfferingID input;
  setBinding_FastOfferingID := setIn_FastOfferingID input;
  setBinding_FallbackOfferingIDs := setIn_FallbackOfferingIDs input;
  setBinding_FallbackPolicy := setIn_FallbackPolicy input;
  setBinding_MaxModelCostMicroUSD := setIn_MaxModelCostMicroUSD input;
  setBinding_IdempotencyKey := setIn_IdempotencyKey input; setBinding_RequestHash := hash;
  setBinding_IdempotencyExpiresAt := now + config_IdempotencyTTL (service_config service);
  setBinding_Now := now;
  setBinding_EventFactory result :=
    bindingEvent eventID ctx "model.agent_binding.set" result
      (AgentModelBindingSet (protoutil_AgentModelBinding result)) now |}.

Definition SetAgentModelBinding (ctx : Ctx) (input : SetAgentBindingInput)
  : app AgentModelBinding :=
  let u := setIn_ActorUserID input in
  let t := setIn_TenantID input in
  pure (λ _,
    validateUUIDs ([u; t; setIn_AgentID input] ++ requestedOfferings input
                   ++ [setIn_IdempotencyKey input]);;
    Authorizer_Require u t TenantDomain.PermissionModelBindingUpdate);;
  agentRef ← pure (λ _, requireAgent u t (setIn_AgentID input));
  requireOfferings ctx u t (requestedOfferings input);;
  pure (λ _, bindingTerms input);;
  hash ← pure (λ _, hashCanonical (set_fingerprint input));
  params ← pure (λ w, Ok (setBindingParams ctx input (agent_CompanyID agentRef) hash
                            (world_now w 0) (world_ids w 0)));
  call (SetAgentBinding ctx params).

Definition removeBindingParams (ctx : Ctx) (input : RemoveAgentBindingInput) (hash : string)
    (now : Z) (eventID : option string) : RemoveBindingParams := {|
  removeBinding_ActorUserID := removeIn_ActorUserID input;
  removeBinding_TenantID := removeIn_TenantID input;
  removeBinding_AgentID := removeIn_AgentID input;
  removeBinding_ExpectedVersion := removeIn_ExpectedVersion input;
  removeBinding_IdempotencyKey := removeIn_IdempotencyKey input;
  removeBinding_RequestHash := hash;
  removeBinding_IdempotencyExpiresAt := now + config_IdempotencyTTL (service_config service);
  removeBinding_Now := now;
  removeBinding_EventFactory result :=
    bindingEvent eventID ctx "model.agent_binding.removed" result
      (AgentModelBindingRemoved (protoutil_AgentModelBinding result)
         (removeIn_ActorUserID input)) now |}.

Definition RemoveAgentModelBinding (ctx : Ctx) (input : RemoveAgentBindingInput)
  : app AgentModelBinding :=
  let u := removeIn_ActorUserID input in
  let t := removeIn_TenantID input in
  pure (λ _,
    validateUUIDs [u; t; removeIn_AgentID input; removeIn_IdempotencyKey input];;
    Authorizer_Require u t TenantDomain.PermissionModelBindingRemove);;
  hash ← pure (λ _, hashCanonical (RemoveFingerprint (removeIn_AgentID input)
                                     (removeIn_ExpectedVersion input)));
  params ← pure (λ w, Ok (removeBindingParams ctx input hash (world_now w 0) (world_ids w 0)));
  call (RemoveAgentBinding ctx params).

(** ** catalog.go *)

Record ListOfferingsInput := {
  listIn_ActorUserID : string;
  listIn_TenantID : string;
  listIn_ConnectionID : string;
  listIn_AgentUsableOnly : bool;
  listIn_Limit : Z;
  listIn_Cursor : option string;
}.

Definition offerings_limit (limit : Z) : Z :=
  if limit <=? 0 then 50 else if 200 <? limit then 200 else limit.

(** The page and the cursor of the next one. *)
Definition ListModelOfferings (ctx : Ctx) (input : ListOfferingsInput)
  : app (list ModelOffering * option string) :=
  pure (λ _, validateUUIDs [listIn_ActorUserID input; listIn_TenantID input];;
             Authorizer_Require (listIn_ActorUserID input) (listIn_TenantID input)
               TenantDomain.PermissionModelCatalogRead);;
  let limit := offerings_limit (listIn_Limit input) in
  offerings ← call (ListOfferings ctx {|
    offeringsIn_ActorUserID := listIn_ActorUserID input;
    offeringsIn_TenantID := listIn_TenantID input;
    offeringsIn_ConnectionID := listIn_ConnectionID input;
    offeringsIn_AgentUsableOnly := listIn_AgentUsableOnly input;
    offeringsIn_Limit := limit + 1; offeringsIn_Cursor := listIn_Cursor input |});
  mret (if limit <? Z.of_nat (List.length offerings)
        then let page := take (Z.to_nat limit) offerings in (page, offering_ID <$> last page)
        else (offerings, None)).

Record RefreshModelCatalogInput := {
  refreshIn_ActorUserID : string;
  refreshIn_TenantID : string;
  refreshIn_ConnectionID : string;
  refreshIn_IdempotencyKey : string;
  refreshIn_Reason : string;
}.

Definition RefreshModelCatalog (ctx : Ctx) (input : RefreshModelCatalogInput)
  : app CatalogRefresh :=
  let u := refreshIn_ActorUserID input in
  let t := refreshIn_TenantID input in
  let c := refreshIn_ConnectionID input in
  pure (λ _, validateUUIDs [u; t; c; refreshIn_IdempotencyKey input];;
             Authorizer_Require u t TenantDomain.PermissionModelCatalogRefresh);;
  connection ← call (GetConnection ctx u t c);
  pure (λ _, fail_if (negb (String.eqb (connection_Status connection) ConnectionStatusActive))
               ErrConnectionArchived);;
  let reason := if String.eqb (refreshIn_Reason input) "" then "manual"
                else refreshIn_Reason input in
  given ← pure (λ w, Ok (world_ids w 0, world_now w 0));
  call (EnqueueCatalogRefresh ctx given.1 u t c (refreshIn_IdempotencyKey input) reason given.2).

Definition GetModelCatalogRefresh (ctx : Ctx) (actorUserID tenantID refreshID : string)
  : app CatalogRefresh :=
  pure (λ _, validateUUIDs [actorUserID; tenantID; refreshID];;
             Authorizer_Require actorUserID tenantID TenantDomain.PermissionModelCatalogRead);;
  call (GetCatalogRefresh ctx actorUserID tenantID refreshID).

(** The clock is read, and identifiers are made, anew after every call. *)
Definition now_reading : app Z := λ w s, (Ok (world_now w s.1), s).
Definition new_ids : app (nat → option string) :=
  λ w s, (Ok (λ i, world_ids w (to_nat (s.1, i))), s).

(** A curated field replaces a discovered one where it says something. *)
Definition prefer_text (curated discovered : string) : string :=
  if String.eqb curated "" then discovered else curated.
Definition prefer_slice (curated discovered : slice) : slice :=
  match slice_elems curated with [] => discovered | _ => curated end.
Definition prefer_count (curated discovered : Z) : Z :=
  if 0 <? curated then curated else discovered.

Definition enrich (m curated : DiscoveredModel) : DiscoveredModel := {|
  model_ProviderKey := model_ProviderKey m; model_ProviderModelID := model_ProviderModelID m;
  model_DisplayName := prefer_text (model_DisplayName curated) (model_DisplayName m);
  model_Description := prefer_text (model_Description curated) (model_Description m);
  model_AgentUsable := model_AgentUsable m;
  model_Capabilities := prefer_slice (model_Capabilities curated) (model_Capabilities m);
  model_InputModalities := prefer_slice (model_InputModalities curated) (model_InputModalities m);
  model_OutputModalities :=
    prefer_slice (model_OutputModalities curated) (model_OutputModalities m);
  model_ContextWindowTokens :=
    prefer_count (model_ContextWindowTokens curated) (model_ContextWindowTokens m);
  model_MaxOutputTokens :=
    prefer_count (model_MaxOutputTokens curated) (model_MaxOutputTokens m) |}.

Definition enriched (m : DiscoveredModel) : DiscoveredModel :=
  match service_staticCatalog service with
  | Some static =>
      match FindCuratedMetadata (static_range static) (static_cached static)
              (model_ProviderKey m) (model_ProviderModelID m) with
      | Some curated => enrich m curated
      | None => m
      end
  | None => m
  end.

(** What a refresh applies, or the code of its failure. *)
Definition discovery : Type := string + (string * list DiscoveredModel).

Definition discoverPlatform (connection : Connection) : discovery :=
  match service_staticCatalog service with
  | None => inl "static_catalog_unavailable"
  | Some static =>
      let poolKey := prefer_text (default "" (connection_ProviderPoolKey connection)) "global" in
      inr (OfferingSourcePlatformCatalog,
           LoadPlatformOfferings (static_cached static) (connection_ProviderKey connection)
             poolKey)
  end.

Definition discoverProvider (ctx : Ctx) (job : CatalogRefreshJob) (connection : Connection)
  : app discovery :=
  match service_catalogClient service with
  | None => mret (inl "catalog_client_unavailable")
  | Some client =>
      credential ← call (GetBYOKCredential ctx (job_ActorUserID job) (job_TenantID job)
                           (job_ConnectionID job));
      if negb (String.eqb (credential_State credential) CredentialStateActive)
      then mret (inl "credential_inactive")
      else
        secret ← pure (λ _, service_ReadVersion service (credential_SecretRef credential)
                              (credential_ActiveVaultVersion credential));
        mret (match client (connection_ProviderKey connection) secret with
              | Err text => inl ("discovery_failed: " +:+ text)
              | Ok models => inr (OfferingSourceProviderDiscovered, enriched <$> models)
              end)
  end.

(** [publishCatalogRefreshedEvent] makes the event, and that is all. *)
Definition publishCatalogRefreshedEvent (eventID : option string) (ctx : Ctx)
    (job : CatalogRefreshJob) (r : CatalogRefreshResult) : result error unit :=
  _ ← catalogRefreshedEvent eventID ctx (job_TenantID job)
        (ModelCatalogRefreshed (job_TenantID job) (job_ConnectionID job) (result_Generation r)
           (result_DiscoveredCount r) (result_AvailableCount r) (result_UnavailableCount r)
           (result_RefreshedAt r)) (result_RefreshedAt r);
  Ok tt.

Definition ExecuteCatalogRefresh (ctx : Ctx) (job : CatalogRefreshJob) : app unit :=
  let u := job_ActorUserID job in
  let t := job_TenantID job in
  let c := job_ConnectionID job in
  let fail code now := call (FailCatalogRefresh ctx (job_RefreshID job) t u code now) in
  connection ← call (GetConnection ctx u t c);
  now ← now_reading;
  if negb (String.eqb (connection_Status connection) ConnectionStatusActive) then
    _ ← try_call (MarkConnectionOfferingsUnavailable ctx u t c now);
    fail "connection_inactive" now
  else
    found ← (if String.eqb (connection_ConnectionType connection) ConnectionTypePlatformManaged
             then mret (discoverPlatform connection)
             else discoverProvider ctx job connection);
    match found with
    | inl code => fail code now
    | inr (source, models) =>
        ids ← new_ids;
        _ ← call (ApplyCatalogRefresh ctx ids {|
          apply_ActorUserID := u; apply_TenantID := t; apply_ConnectionID := c;
          apply_RefreshID := job_RefreshID job; apply_Discovered := models;
          apply_Source := source; apply_RefreshedAt := now |});
        mret tt
    end.

(** ** catalog_worker.go *)

Record CatalogWorkerConfig := {
  worker_BatchSize : Z;
  worker_Lease : Z;
  worker_MaxBackoff : Z;
}.

(** [NewCatalogWorker] *)
Definition NewCatalogWorker (config : CatalogWorkerConfig) : CatalogWorkerConfig := {|
  worker_BatchSize := if worker_BatchSize config <=? 0 then 10 else worker_BatchSize config;
  worker_Lease := if worker_Lease config <=? 0 then 60 * 1000000000 else worker_Lease config;
  worker_MaxBackoff := if worker_MaxBackoff config <=? 0 then 300 * 1000000000
                       else worker_MaxBackoff config |}.

(** [time.Duration(1<<job.Attempts) * time.Second], in nanoseconds of 64 bits. *)
Definition worker_backoff (config : CatalogWorkerConfig) (attempts : Z) : Z :=
  let backoff := int64_wrap (int64_wrap (Z.shiftl 1 attempts) * 1000000000) in
  if worker_MaxBackoff config <? backoff then worker_MaxBackoff config else backoff.

(** [error_text] is what [err.Error()] gives, cut to 2000 characters. *)
Definition executeJob (config : CatalogWorkerConfig) (error_text : error → string) (ctx : Ctx)
    (job : CatalogRefreshJob) : app unit := λ w s,
  match ExecuteCatalogRefresh ctx job w s with
  | (Ok _, s') => (Ok tt, s')
  | (Err e, s') =>
      (now ← now_reading;
       _ ← try_call (ReleaseCatalogRefresh (job_RefreshID job)
                       (now + worker_backoff config (job_Attempts job)) (error_text e));
       mret tt) w s'
  end.

Fixpoint executeJobs (config : CatalogWorkerConfig) (error_text : error → string) (ctx : Ctx)
    (jobs : list CatalogRefreshJob) : app unit :=
  match jobs with
  | [] => mret tt
  | job :: jobs' =>
      executeJob config error_text ctx job;; executeJobs config error_text ctx jobs'
  end.

Definition processBatch (config : CatalogWorkerConfig) (error_text : error → string)
    (locked : string → bool) (ctx : Ctx) : app unit :=
  claimed ← try_call (ClaimCatalogRefresh (worker_BatchSize config) (worker_Lease config) locked);
  match claimed with
  | Ok jobs => executeJobs config error_text ctx jobs
  | Err _ => mret tt
  end.

End Service.

(** ** transport/grpc *)

Inductive code :=
| InvalidArgument | NotFound | AlreadyExists | PermissionDenied | Unauthenticated
| FailedPrecondition | Aborted | Internal.

Definition mapError (e : error) : code :=
  match e with
  | ErrInvalidArgument => InvalidArgument
  | ErrNotFound => NotFound
  | ErrForbidden => PermissionDenied
  | ErrTenantNotActive | ErrConnectionArchived => FailedPrecondition
  | ErrVersionConflict => Aborted
  | ErrConflict | ErrIdempotencyConflict => AlreadyExists
  | ErrOfferingNotFound | ErrAgentNotFound | ErrBindingNotFound | ErrCatalogRefreshNotFound =>
      NotFound
  | ErrOfferingUnavailable | ErrOfferingNotAgentUsable | ErrAgentDeleted
  | ErrInvalidFallbackPolicy => FailedPrecondition
  | ErrBindingVersionConflict => Aborted
  | ErrSecretStore | ErrInternal | ErrDatabase _ => Internal
  end.

Section Transport.
Context `{Platform, AccessProto}.

(** [ActorBindingUnaryInterceptor] before a request with an actor: [actor] is the actor of the
    request's metadata. Two strings are compared by [subtle.ConstantTimeCompare]. *)
Definition ActorBinding (actor : option string) (requestActorUserID : string)
  : result code unit :=
  let requestActorID := ToLower (TrimSpace requestActorUserID) in
  fail_if (negb (is_some (uuid_Parse requestActorID))) InvalidArgument;;
  actor ← from_option_err Unauthenticated actor;
  fail_if (String.eqb (TrimSpace actor) "") Unauthenticated;;
  fail_if (negb (String.eqb (ToLower (TrimSpace actor)) requestActorID)) PermissionDenied.

(** Unmarshalling leaves a nil slice for a repeated field without elements. *)
Definition wire_slice (l : list string) : slice := match l with [] => None | _ => Some l end.

Record SetAgentModelBindingRequest := {
  setReq_ActorUserId : string;
  setReq_TenantId : string;
  setReq_AgentId : string;
  setReq_IdempotencyKey : string;
  setReq_ExpectedVersion : Z;
  setReq_PrimaryOfferingId : string;
  setReq_FastOfferingId : option string;
  setReq_FallbackOfferingIds : list string;
  setReq_FallbackPolicy : string;
  setReq_MaxModelCostMicrousd : option Z;
}.

Definition set_input (request : SetAgentModelBindingRequest) : SetAgentBindingInput := {|
  setIn_ActorUserID := setReq_ActorUserId request; setIn_TenantID := setReq_TenantId request;
  setIn_AgentID := setReq_AgentId request;
  setIn_IdempotencyKey := setReq_IdempotencyKey request;
  setIn_ExpectedVersion := setReq_ExpectedVersion request;
  setIn_PrimaryOfferingID := setReq_PrimaryOfferingId request;
  setIn_FastOfferingID := setReq_FastOfferingId request;
  setIn_FallbackOfferingIDs := wire_slice (setReq_FallbackOfferingIds request);
  setIn_FallbackPolicy := DomainFallbackPolicy (setReq_FallbackPolicy request);
  setIn_MaxModelCostMicroUSD := setReq_MaxModelCostMicrousd request |}.

(** [Server.SetAgentModelBinding], the error before [mapError]. *)
Definition Server_SetAgentModelBinding `{Fingerprints} (service : Service) (ctx : Ctx)
    (request : SetAgentModelBindingRequest) : app AgentModelBinding :=
  SetAgentModelBinding service ctx (set_input request).

(** pagination.go *)
Definition normalizePageSize (value : Z) : Z :=
  if value <=? 0 then 25 else if 100 <? value then 100 else value.

(** [Server.ListModelOfferings]; the status of the request is not read. *)
Definition Server_ListModelOfferings (service : Service) (ctx : Ctx)
    (actorUserID tenantID : string) (connectionID : option string) (status : string)
    (pageSize : Z) (pageToken : string) : app (list ModelOffering * string) :=
  result ← ListModelOfferings service ctx {|
    listIn_ActorUserID := actorUserID; listIn_TenantID := tenantID;
    listIn_ConnectionID := default "" connectionID; listIn_AgentUsableOnly := false;
    listIn_Limit := normalizePageSize pageSize;
    listIn_Cursor := if String.eqb pageToken "" then None else Some pageToken |};
  mret (result.1, default "" result.2).

(** [Server.RefreshModelCatalog] *)
Definition Server_RefreshModelCatalog (service : Service) (ctx : Ctx)
    (actorUserID tenantID connectionID idempotencyKey : string) : app CatalogRefresh :=
  RefreshModelCatalog service ctx {|
    refreshIn_ActorUserID := actorUserID; refreshIn_TenantID := tenantID;
    refreshIn_ConnectionID := connectionID; refreshIn_IdempotencyKey := idempotencyKey;
    refreshIn_Reason := "manual" |}.

(** [GatewayResolverServer.ResolveInferencePlan]; the message of the plan has its fields. *)
Definition Resolver_ResolveInferencePlan (tenantID agentID : string)
  : app InferencePlan :=
  pure (λ _, fail_if (String.eqb tenantID "" || String.eqb agentID "") ErrInvalidArgument);;
  now ← now_reading;
  call (ResolveInferencePlan tenantID agentID now).

End Transport.
