(* ===== verification/AccessBindings.v ===== *)
(** * Model access: the bindings of agents

    What setting a binding does to the tables ([set_effect]), the invariant of the binding
    tables ([bindings_ok]) and the steps of the service's transactions ([access_step]). *)

From stdpp Require Import strings gmap fin_maps list sorting relations.
From Stdlib Require Import String Lia.
From S2P Require Import Prelude GoStrings Postgres Usecase Outbox.
From S2P Require Import AccessStore AccessRepository AccessCatalog AccessService.
Open Scope string_scope.
Open Scope list_scope.
Open Scope Z_scope.

Section Bindings.
Context `{Platform, !PlatformLaws, Proto}.
Implicit Types (db : access_tables).

(** ** Statements *)

Lemma access_cast_Ok s u : cast s = Ok u → uuid_in s = Some u.
Proof. apply from_option_err_Ok. Qed.

(** A column holds the text of a UUID. *)
Definition canonical (u : string) : Prop := uuid_in u = Some u.

Lemma access_cast_canonical s u : uuid_in s = Some u → canonical u.
Proof. apply uuid_in_canonical. Qed.

Lemma access_cast_option_Ok o v : cast_option o = Ok v → option_Forall2 (λ s u, uuid_in s = Some u) o v.
Proof.
  destruct o as [s|]; cbn; intros Hc; result_inv Hc; simplify_eq; by constructor.
Qed.

(** A row of a tenant, for a statement in the scope of a tenant. *)
Lemma tenant_row_Ok {R} (table : access_tables → gmap (string * string) R) tenantID i sc db t k o :
  tenant_row table tenantID i sc db = Ok (t, k, o) →
  ∃ r, rls_of sc = Ok r ∧ uuid_in tenantID = Some t ∧ uuid_in i = Some k ∧
    o = if tenant_scoped r t then table db !! (t, k) else None.
Proof.
  unfold tenant_row, cast. intros Hr. result_inv Hr. simplify_eq. eauto.
Qed.

Lemma access_sql_row_Ok {R} (table : access_tables → gmap (string * string) R) tenantID i sc db row :
  sql_row table tenantID i sc db = Ok row →
  ∃ r t k, rls_of sc = Ok r ∧ tenant_scoped r t = true ∧ uuid_in tenantID = Some t ∧
    uuid_in i = Some k ∧ table db !! (t, k) = Some row.
Proof.
  unfold sql_row. intros ([[t k] o] & (r & ? & ? & ? & ->)%tenant_row_Ok & Ho%from_option_err_Ok)
    %result_bind_Ok.
  cbn in Ho. destruct (tenant_scoped r t) eqn:Hs; [|done]. eauto 8.
Qed.

(** A row that is looked for, and what a write of the same tenant then knows of it. *)
Lemma access_find_row_Ok {R} (table : access_tables → gmap (string * string) R) tenantID i
    (s s' : session access_tables) (found : option R) r :
  mapped (find_row (sql_row table tenantID i)) s = (Ok found, s') →
  rls_of (session_scope s) = Ok r →
  same_view s s' ∧
  ∃ t k, uuid_in tenantID = Some t ∧ uuid_in i = Some k ∧
    (tenant_scoped r t = true → found = table (session_db s) !! (t, k)).
Proof.
  unfold mapped, find_row. intros [Hq Hv]%map_err_Ok%query_Ok Hr. split; [done|].
  unfold sql_row, tenant_row, cast in Hq. rewrite Hr in Hq. cbn in Hq.
  destruct (uuid_in tenantID) as [t|] eqn:Ht, (uuid_in i) as [k|] eqn:Hk; cbn in Hq; try done.
  exists t, k. split_and!; [done..|]. intros Hsc. rewrite Hsc in Hq.
  destruct (table _ !! _); cbn in Hq; congruence.
Qed.

Lemma writable_Ok name t sc u :
  writable name t sc = Ok u → ∃ r, rls_of sc = Ok r ∧ tenant_scoped r t = true.
Proof.
  unfold writable. intros (r & Hr & Hs%fail_if_Ok%negb_false_iff)%result_bind_Ok. eauto.
Qed.

(** The columns that a write of a binding takes from the request. *)
Record written (b : AgentModelBinding) (row : AgentModelBinding) : Prop := {
  written_company : uuid_in (binding_CompanyID b) = Some (binding_CompanyID row);
  written_primary : uuid_in (binding_PrimaryOfferingID b) = Some (binding_PrimaryOfferingID row);
  written_fast : option_Forall2 (λ s u, uuid_in s = Some u)
                   (binding_FastOfferingID b) (binding_FastOfferingID row);
  written_policy : binding_FallbackPolicy row = binding_FallbackPolicy b;
  written_cost : binding_MaxModelCostMicroUSD row = binding_MaxModelCostMicroUSD b;
  written_version : binding_Version row = binding_Version b;
  written_positive : 0 < binding_Version row;
  written_active : binding_Status row = BindingStatusActive;
  written_slice : binding_FallbackOfferingIDs row = None;
}.

(** An offering that a tenant's binding may name. *)
Definition offered db (t o : string) : Prop := is_Some (access_offerings db !! (t, o)).

Lemma offering_exists_offered t o db : offering_exists t o db = true ↔ offered db t o.
Proof.
  unfold offering_exists, offered. destruct (access_offerings db !! _); cbn; [|split; [done|]].
  - split; [by eexists|done].
  - by intros [? [=]].
Qed.

Lemma sql_upsert_binding_Ok b sc db u db' :
  sql_upsert_binding b sc db = Ok (u, db') →
  ∃ t a r row, rls_of sc = Ok r ∧ tenant_scoped r t = true ∧
    uuid_in (binding_TenantID b) = Some t ∧ uuid_in (binding_AgentID b) = Some a ∧
    written b row ∧ offered db t (binding_PrimaryOfferingID row) ∧
    (∀ f, binding_FastOfferingID row = Some f → offered db t f) ∧
    db' = set_binding_rows (<[(t, a) := row]> (access_bindings db)) db.
Proof.
  unfold sql_upsert_binding. intros Hr. result_inv Hr. injection Hr as _ <-.
  repeat match goal with Hc : cast _ = Ok _ |- _ => apply access_cast_Ok in Hc end.
  match goal with Hw : writable _ _ _ = Ok _ |- _ => apply writable_Ok in Hw as (r & Hr & Hs) end.
  match goal with Hc : cast_option _ = Ok _ |- _ => apply access_cast_option_Ok in Hc end.
  repeat match goal with Hc : fail_if _ _ = Ok _ |- _ => apply fail_if_Ok in Hc end.
  match goal with Hc : negb (binding_checks _) = false |- _ =>
    apply negb_false_iff in Hc; unfold binding_checks, binding_terms_ok in Hc; cbn in Hc end.
  match goal with Hc : negb _ || negb _ = false |- _ =>
    apply orb_false_iff in Hc as [Hp%negb_false_iff Hf%negb_false_iff] end.
  eexists _, _, r, _. split_and!; [done..| | | |reflexivity]; cbn.
  - split; cbn; try done. bool_facts. lia.
  - by apply offering_exists_offered.
  - intros f ->. by apply offering_exists_offered.
Qed.

(** ** Fallbacks *)

(** The fallbacks of an agent are a list, by position. *)
Definition fallbacks_are (m : gmap (string * string * Z) string) (t a : string)
    (l : list string) : Prop :=
  ∀ q, m !! (t, a, q) = if 0 <=? q then l !! Z.to_nat q else None.

Lemma fallbacks_at_list db t a l :
  fallbacks_are (access_fallbacks db) t a l → (List.length l ≤ 5)%nat →
  omap id (fallbacks_at t a db) = l.
Proof.
  intros Hl Hlen. unfold fallbacks_at, positions. cbn [fmap list_fmap].
  rewrite !Hl. cbn. do 6 (destruct l as [|? l]; [done|]). cbn in Hlen. lia.
Qed.

Lemma delete_fallbacks_are (m : gmap (string * string * Z) string) t a :
  fallbacks_are (filter (λ kv, kv.1.1 ≠ (t, a)) m) t a [].
Proof.
  intros q. rewrite lookup_nil. rewrite (proj2 (map_lookup_filter_None _ _ _)).
  - by destruct (0 <=? q).
  - right. intros o _. cbn. tauto.
Qed.

Lemma delete_fallbacks_other (m : gmap (string * string * Z) string) t a t' a' l :
  (t', a') ≠ (t, a) → fallbacks_are m t' a' l →
  fallbacks_are (filter (λ kv, kv.1.1 ≠ (t, a)) m) t' a' l.
Proof.
  intros Hne Hl q. rewrite <-Hl. destruct (m !! (t', a', q)) as [o|] eqn:Ho.
  - by apply map_lookup_filter_Some.
  - apply map_lookup_filter_None. by left.
Qed.

Lemma insert_fallback_are m t a l o :
  fallbacks_are m t a l →
  fallbacks_are (<[(t, a, Z.of_nat (List.length l)) := o]> m) t a (l ++ [o]).
Proof.
  intros Hl q. destruct (decide (q = Z.of_nat (List.length l))) as [->|Hq].
  - rewrite lookup_insert_eq, (proj2 (Z.leb_le _ _)), Nat2Z.id, lookup_app_r by lia.
    by rewrite Nat.sub_diag.
  - rewrite lookup_insert_ne by congruence. rewrite Hl. destruct (Z.leb_spec 0 q); [|done].
    destruct (decide (Z.to_nat q < List.length l)%nat).
    + by rewrite lookup_app_l.
    + rewrite (lookup_ge_None_2 l), lookup_ge_None_2; [done| |lia].
      rewrite length_app. cbn. lia.
Qed.

Lemma insert_fallback_other m t a p o t' a' l :
  (t', a') ≠ (t, a) → fallbacks_are m t' a' l → fallbacks_are (<[(t, a, p) := o]> m) t' a' l.
Proof. intros Hne Hl q. rewrite lookup_insert_ne by congruence. apply Hl. Qed.

Lemma sql_insert_fallback_Ok tenantID agentID p offeringID sc db u db' t a :
  sql_insert_fallback tenantID agentID p offeringID sc db = Ok (u, db') →
  uuid_in tenantID = Some t → uuid_in agentID = Some a →
  ∃ o, uuid_in offeringID = Some o ∧ 0 ≤ p ≤ 4 ∧ offered db t o ∧
    o ∉ omap id (fallbacks_at t a db) ∧
    db' = set_fallbacks (<[(t, a, p) := o]> (access_fallbacks db)) db.
Proof.
  unfold sql_insert_fallback. intros Hr Ht Ha. result_inv Hr. injection Hr as _ <-.
  repeat match goal with Hc : cast _ = Ok _ |- _ => apply access_cast_Ok in Hc end.
  repeat match goal with Hc : fail_if _ _ = Ok _ |- _ => apply fail_if_Ok in Hc end.
  simplify_eq. eexists. split_and!; [done| | | | |done];
    repeat match goal with
    | Hc : negb (in_bounds _ _ _) = false |- _ => apply negb_false_iff in Hc; unfold in_bounds in Hc
    | Hc : slices_Contains _ _ = false |- _ => apply slices_Contains_false in Hc
    | Hc : negb _ || negb _ = false |- _ =>
        apply orb_false_iff in Hc as [_ Hc%negb_false_iff%offering_exists_offered]
    end; bool_facts; try lia; done.
Qed.

(** The fallbacks are written one after the other, after those that are there already. *)
Lemma insertFallbacks_Ok tenantID agentID t a ids : ∀ before (s s' : session access_tables) u,
  insertFallbacks tenantID agentID (Z.of_nat (List.length before)) ids s = (Ok u, s') →
  uuid_in tenantID = Some t → uuid_in agentID = Some a →
  fallbacks_are (access_fallbacks (session_db s)) t a before → NoDup before →
  (List.length before ≤ 5)%nat → session_read_only s = false →
  ∃ os m, Forall2 (λ i o, uuid_in i = Some o) ids os ∧ fallbacks_are m t a (before ++ os) ∧
    (∀ t' a' l, (t', a') ≠ (t, a) → fallbacks_are (access_fallbacks (session_db s)) t' a' l →
       fallbacks_are m t' a' l) ∧
    NoDup (before ++ os) ∧ (List.length (before ++ os) ≤ 5)%nat ∧
    Forall (offered (session_db s) t) os ∧
    session_db s' = set_fallbacks m (session_db s) ∧
    session_scope s' = session_scope s ∧ session_committed s' = session_committed s ∧
    session_read_only s' = false.
Proof.
  induction ids as [|i ids IH]; intros before s s' u Hr Ht Ha Hm Hnd Hlen Hro.
  { cbn in Hr. apply ret_Ok in Hr as [_ ->]. exists [], (access_fallbacks (session_db s)).
    rewrite app_nil_r. split_and!; try done. by destruct (session_db s). }
  cbn [insertFallbacks] in Hr. apply tx_bind_Ok in Hr as (v & s1 & E1 & Hr).
  unfold mapped in E1. apply map_err_Ok, exec_Ok in E1 as (_ & E1 & Hsc & Hco & Hro1).
  apply (sql_insert_fallback_Ok _ _ _ _ _ _ _ _ _ _) with (2 := Ht) (3 := Ha) in E1
    as (o & Ho & Hp & Hoff & Hnew & Hdb).
  rewrite (fallbacks_at_list _ _ _ _ Hm Hlen) in Hnew.
  replace (Z.of_nat (List.length before) + 1) with (Z.of_nat (List.length (before ++ [o]))) in Hr
    by (rewrite length_app; cbn; lia).
  apply IH in Hr as (os & m & Hos & Hm' & Hother & Hnd' & Hlen' & Hoffs & Hdb' & Hsc' & Hco' & ?);
    [|done|done| | | |done].
  - rewrite <-app_assoc in Hm', Hnd', Hlen'. cbn in Hm', Hnd', Hlen'.
    exists (o :: os), m. rewrite Hdb in Hdb', Hoffs, Hother. cbn in *. split_and!.
    + by constructor.
    + done.
    + intros t' a' l Hne Hl. apply Hother; [done|]. by apply insert_fallback_other.
    + done.
    + done.
    + by constructor.
    + done.
    + congruence.
    + congruence.
    + done.
  - rewrite Hdb. cbn. by apply insert_fallback_are.
  - apply NoDup_app. split_and!; [done| |apply NoDup_singleton].
    intros x Hx ->%list_elem_of_singleton. done.
  - rewrite length_app. cbn. lia.
Qed.

(** ** Revisions and answers *)

Lemma cast_all_Ok l us : cast_all l = Ok us → Forall2 (λ s u, uuid_in s = Some u) l us.
Proof.
  revert us. induction l as [|s l IH]; intros us; cbn; [by intros [= <-]|].
  intros (u & Hu%access_cast_Ok & (us' & Hus & [= <-])%result_bind_Ok)%result_bind_Ok.
  constructor; auto.
Qed.

Lemma Forall2_uuid_eq l us1 us2 :
  Forall2 (λ s u, uuid_in s = Some u) l us1 → Forall2 (λ s u, uuid_in s = Some u) l us2 →
  us1 = us2.
Proof.
  intros H12. revert us2. induction H12 as [|s u l us1 Hs _ IH]; intros us2 Hl;
    inversion Hl; subst; [done|]. f_equal; [congruence|auto].
Qed.

Lemma option_uuid_eq o u1 u2 :
  option_Forall2 (λ s u, uuid_in s = Some u) o u1 →
  option_Forall2 (λ s u, uuid_in s = Some u) o u2 → u1 = u2.
Proof. intros H12 H13. inversion H12; subst; inversion H13; subst; congruence. Qed.

(** A revision says what the row says, and which fallbacks there are. *)
Record recorded (row : AgentModelBinding) (os : list string) (kind : string)
    (rev : binding_revision) : Prop := {
  recorded_company : brev_CompanyID rev = binding_CompanyID row;
  recorded_status : brev_Status rev = binding_Status row;
  recorded_primary : brev_PrimaryOfferingID rev = binding_PrimaryOfferingID row;
  recorded_fast : brev_FastOfferingID rev = binding_FastOfferingID row;
  recorded_fallbacks : brev_FallbackOfferingIDs rev = os;
  recorded_policy : brev_FallbackPolicy rev = binding_FallbackPolicy row;
  recorded_cost : brev_MaxModelCostMicroUSD rev = binding_MaxModelCostMicroUSD row;
  recorded_kind : brev_ChangeKind rev = kind;
}.

Lemma sql_insert_binding_revision_Ok b kind actor now sc db u db' t a row os ids :
  sql_insert_binding_revision b kind actor now sc db = Ok (u, db') →
  uuid_in (binding_TenantID b) = Some t → uuid_in (binding_AgentID b) = Some a →
  written b row → binding_Status b = BindingStatusActive →
  slice_elems (binding_FallbackOfferingIDs b) = ids →
  Forall2 (λ s u, uuid_in s = Some u) ids os →
  ∃ rev, binding_FallbackOfferingIDs b = Some ids ∧ recorded row os kind rev ∧
    access_revisions db !! (t, a, binding_Version b) = None ∧
    db' = set_binding_revisions (<[(t, a, binding_Version b) := rev]> (access_revisions db)) db.
Proof.
  unfold sql_insert_binding_revision, array_in. intros Hr Ht Ha Hw Hact Hids Hos.
  result_inv Hr. injection Hr as _ <-.
  repeat match goal with Hc : cast _ = Ok _ |- _ => apply access_cast_Ok in Hc end.
  match goal with Hc : cast_option _ = Ok _ |- _ => apply access_cast_option_Ok in Hc as Hf end.
  match goal with Hc : cast_all _ = Ok _ |- _ => apply cast_all_Ok in Hc as Hl end.
  repeat match goal with Hc : fail_if _ _ = Ok _ |- _ => apply fail_if_Ok in Hc end.
  destruct Hw. simplify_eq.
  match goal with Hb : binding_FallbackOfferingIDs b = Some _ |- _ =>
    rewrite Hb in Hos |- *; cbn in Hos |- * end.
  eexists. split_and!; [done| | |done].
  - split; cbn; try congruence.
    + by eapply option_uuid_eq.
    + by eapply Forall2_uuid_eq.
  - by destruct (access_revisions db !! _).
Qed.

Lemma lookupBindingIdempotency_Ok tenantID actorUserID op key hash
    (s s' : session access_tables) found :
  lookupBindingIdempotency tenantID actorUserID op key hash s = (Ok found, s') →
  same_view s s' ∧ ∀ b, found = Some b → ∃ t u k answer,
    access_answers (session_db s) !! (t, u, op, k) = Some answer ∧
    b = answer_Snapshot answer ∧ answer_RequestHash answer = hash.
Proof.
  unfold lookupBindingIdempotency, mapped. intros (o & s1 & Hq & Hr)%tx_bind_Ok.
  apply map_err_Ok, query_Ok in Hq as [Hq Hv]. destruct o as [answer|].
  - apply tx_bind_Ok in Hr as (v & s2 & [Hh%fail_if_Ok ->]%lift_Ok & [-> ->]%ret_Ok).
    bool_facts. split; [done|]. intros b [= <-]. unfold sql_binding_answer in Hq.
    result_inv Hq. injection Hq as Hq. case_match; [|done]. eauto 8.
  - apply ret_Ok in Hr as [-> ->]. by split.
Qed.

Lemma sql_insert_answer_Ok tenantID actorUserID op key answer sc db u db' :
  sql_insert_answer tenantID actorUserID op key answer sc db = Ok (u, db') →
  ∃ t u' k row, uuid_in tenantID = Some t ∧
    answer_Snapshot row = answer_Snapshot answer ∧
    access_answers db !! (t, u', op, k) = None ∧
    db' = set_answers (<[(t, u', op, k) := row]> (access_answers db)) db.
Proof.
  unfold sql_insert_answer. intros Hr. result_inv Hr. injection Hr as _ <-.
  repeat match goal with Hc : fail_if _ _ = Ok _ |- _ => apply fail_if_Ok in Hc end.
  do 4 eexists. split_and!; [done| | |reflexivity]; [done|]. by destruct (access_answers db !! _).
Qed.

(** ** Setting a binding *)

Definition same_catalog db db' : Prop :=
  access_connections db' = access_connections db ∧
  access_credentials db' = access_credentials db ∧ access_states db' = access_states db ∧
  access_offerings db' = access_offerings db ∧ access_refreshes db' = access_refreshes db ∧
  access_queue db' = access_queue db.

(** What a new binding [b] of agent [a] leaves: the row, its fallbacks [os], its revision and
    the answer for a repeated request. *)
Record set_effect (params : SetBindingParams) (b : AgentModelBinding) db db'
    (t a : string) (row : AgentModelBinding) (os : list string) (rev : binding_revision)
  : Prop := {
  set_tenant : uuid_in (setBinding_TenantID params) = Some t;
  set_agent : uuid_in (setBinding_AgentID params) = Some a;
  set_version : nextBindingVersion (access_bindings db !! (t, a))
                  (setBinding_ExpectedVersion params) = Ok (binding_Version b);
  set_result : b = newBinding params (binding_Version b);
  set_written : written b row;
  set_primary : offered db t (binding_PrimaryOfferingID row);
  set_fast : ∀ f, binding_FastOfferingID row = Some f → offered db t f;
  set_slice : ∃ ids, setBinding_FallbackOfferingIDs params = Some ids ∧
                Forall2 (λ s u, uuid_in s = Some u) ids os;
  set_distinct : NoDup os ∧ (List.length os ≤ 5)%nat ∧ Forall (offered db t) os;
  set_rows : access_bindings db' = <[(t, a) := row]> (access_bindings db);
  set_list : fallbacks_are (access_fallbacks db') t a os;
  set_lists : ∀ t' a' l, (t', a') ≠ (t, a) → fallbacks_are (access_fallbacks db) t' a' l →
                fallbacks_are (access_fallbacks db') t' a' l;
  set_recorded : recorded row os (setChangeKind (access_bindings db !! (t, a))) rev;
  set_fresh : access_revisions db !! (t, a, binding_Version b) = None;
  set_history :
    access_revisions db' = <[(t, a, binding_Version b) := rev]> (access_revisions db);
  set_answer : ∃ t' u k answer,
    access_answers db' =
      <[(t', u, "set_agent_model_binding", k) := answer]> (access_answers db) ∧
    answer_Snapshot answer = snapshotBinding b;
  set_catalog_same : same_catalog db db';
}.

#[export] Instance commit_free_mapped {A} (m : repo A) : commit_free m → commit_free (mapped m).
Proof. apply _. Qed.
#[export] Instance commit_free_find_row {A} (q : Scope → access_tables → result db_error A) :
  commit_free (find_row q : repo (option A)).
Proof. apply _. Qed.
#[export] Instance commit_free_insertFallbacks tenantID agentID p ids :
  commit_free (insertFallbacks tenantID agentID p ids).
Proof. revert p. induction ids; intros p; cbn; apply _. Qed.
#[export] Instance commit_free_lookup tenantID actorUserID op key hash :
  commit_free (lookupBindingIdempotency tenantID actorUserID op key hash).
Proof. apply commit_free_bind; [apply _|]. intros [answer|]; apply _. Qed.
#[export] Instance commit_last_SetAgentBinding ctx params : commit_last (SetAgentBinding ctx params).
Proof.
  apply commit_last_bind; [apply _|intros _]. apply commit_last_bind; [apply _|intros [b|]];
    apply _.
Qed.

Lemma mapped_exec_Ok {A} (f : Scope → access_tables → result db_error (A * access_tables))
    (s s' : session access_tables) a :
  (mapped (exec f) : repo A) s = (Ok a, s') →
  f (session_scope s) (session_db s) = Ok (a, session_db s') ∧
  session_scope s' = session_scope s ∧ session_committed s' = session_committed s ∧
  session_read_only s' = false.
Proof. unfold mapped. by intros (? & ? & ? & ? & ?)%map_err_Ok%exec_Ok. Qed.

Lemma access_insertOutbox_Ok tenantID event (s s' : session access_tables) u :
  insertOutbox tenantID event s = (Ok u, s') →
  ∃ ob, session_db s' = set_access_outbox ob (session_db s) ∧
    session_committed s' = session_committed s.
Proof.
  unfold insertOutbox. intros (now & s1 & ->%clock_Ok & (_ & He & _ & Hc & _)%exec_Ok)
    %map_err_Ok%tx_bind_Ok.
  result_inv He. injection He as _ He. eauto.
Qed.

(** The writes of a binding, from the version that was found to be next. *)
Lemma writeBinding_Ok params existing b (s s' : session access_tables) u :
  writeBinding params existing b s = (Ok u, s') →
  b = newBinding params (binding_Version b) →
  ∃ r t a row os rev m, rls_of (session_scope s) = Ok r ∧ tenant_scoped r t = true ∧
    uuid_in (setBinding_TenantID params) = Some t ∧
    uuid_in (setBinding_AgentID params) = Some a ∧ written b row ∧
    offered (session_db s) t (binding_PrimaryOfferingID row) ∧
    (∀ f, binding_FastOfferingID row = Some f → offered (session_db s) t f) ∧
    (∃ ids, setBinding_FallbackOfferingIDs params = Some ids ∧
       Forall2 (λ s u, uuid_in s = Some u) ids os) ∧
    (NoDup os ∧ (List.length os ≤ 5)%nat ∧ Forall (offered (session_db s) t) os) ∧
    fallbacks_are m t a os ∧
    (∀ t' a' l, (t', a') ≠ (t, a) → fallbacks_are (access_fallbacks (session_db s)) t' a' l →
       fallbacks_are m t' a' l) ∧
    recorded row os (setChangeKind existing) rev ∧
    access_revisions (session_db s) !! (t, a, binding_Version b) = None ∧
    session_db s' = set_bindings (<[(t, a) := row]> (access_bindings (session_db s))) m
      (<[(t, a, binding_Version b) := rev]> (access_revisions (session_db s)))
      (access_answers (session_db s)) (session_db s) ∧
    session_scope s' = session_scope s ∧ session_committed s' = session_committed s.
Proof.
  intros Hr Hb. unfold writeBinding in Hr.
  apply tx_bind_Ok in Hr as (u1 & s1 & (E1 & Hs1 & Hc1 & Hro1)%mapped_exec_Ok & Hr).
  apply tx_bind_Ok in Hr as (u2 & s2 & (E2 & Hs2 & Hc2 & Hro2)%mapped_exec_Ok & Hr).
  apply tx_bind_Ok in Hr as (u3 & s3 & E3 & (E4 & Hs4 & Hc4 & _)%mapped_exec_Ok).
  apply sql_upsert_binding_Ok in E1
    as (t & a & r & row & Hrls & Hts & Ht & Ha & Hw & Hp & Hf & Hdb1).
  assert (Ht' : uuid_in (setBinding_TenantID params) = Some t) by (rewrite Hb in Ht; exact Ht).
  assert (Ha' : uuid_in (setBinding_AgentID params) = Some a) by (rewrite Hb in Ha; exact Ha).
  unfold sql_delete_fallbacks, cast in E2. rewrite Hs1, Hrls, Ht', Ha' in E2. cbn in E2.
  rewrite Hts in E2. injection E2 as _ Hdb2.
  apply (insertFallbacks_Ok _ _ t a _ [] _ _ _) in E3
    as (os & m & Hos & Hm & Hother & Hnd & Hlen & Hoff & Hdb3 & Hs3 & Hc3 & _);
    [|done|done| |constructor|cbn; lia|done].
  2:{ rewrite <-Hdb2. cbn. apply delete_fallbacks_are. }
  cbn [app] in Hm, Hnd, Hlen.
  eapply sql_insert_binding_revision_Ok in E4 as (rev & Hsl & Hrec & Hfr & Hdb4);
    [|exact Ht|exact Ha|exact Hw|by rewrite Hb| |].
  2:{ reflexivity. }
  2:{ rewrite Hb. exact Hos. }
  rewrite Hdb3, <-Hdb2, Hdb1 in Hfr, Hdb4. cbn in Hfr, Hdb4.
  rewrite <-Hdb2, Hdb1 in Hoff. rewrite <-Hdb2, Hdb1 in Hother. cbn in Hother.
  exists r, t, a, row, os, rev, m. split_and!; try done.
  - rewrite Hb in Hsl. cbn in Hsl. rewrite Hsl. eexists. split; [done|].
    by rewrite Hsl in Hos.
  - intros t' a' l Hne Hl. apply Hother; [done|]. by apply delete_fallbacks_other.
  - congruence.
  - congruence.
Qed.

(** [SetAgentBinding] fails and leaves the tables alone, answers a request that it has answered
    before, or sets the binding. *)
Lemma SetAgentBinding_cases ctx params db ev r db' :
  run (SetAgentBinding ctx params) db ev = (r, db') →
  match r with
  | Err _ => db' = db
  | Ok b =>
      db' = db ∧ (∃ t u k answer,
        access_answers db !! (t, u, "set_agent_model_binding", k) = Some answer ∧
        b = answer_Snapshot answer ∧ answer_RequestHash answer = setBinding_RequestHash params) ∨
      ∃ t a row os rev, set_effect params b db db' t a row os rev
  end.
Proof.
  destruct r as [b|e]; [|by apply run_Err; apply _].
  intros (s' & Hr & ->)%run_Ok. unfold SetAgentBinding in Hr.
  apply tx_bind_Ok in Hr as (u0 & s1 & E1 & Hr). unfold beginUserTenant in E1.
  apply Begin_Ok in E1 as (_ & Hdb1 & Hsc1 & Hco1 & Hro1). cbn in Hdb1, Hco1.
  apply tx_bind_Ok in Hr as (cached & s2 & [(Hdb2 & Hsc2 & Hco2 & Hro2) Hcached]
    %lookupBindingIdempotency_Ok & Hr).
  destruct cached as [b'|].
  { apply ret_Ok in Hr as [-> ->]. left. rewrite Hco2, Hco1. cbn.
    destruct (Hcached b' eq_refl) as (t & u & k & answer & Ha & Hb & Hh).
    rewrite Hdb1 in Ha. split; [done|]. eauto 10. }
  apply tx_bind_Ok in Hr as (existing & s3 & E3 & Hr).
  apply tx_bind_Ok in Hr as (version & s4 & [Hv ->]%lift_Ok & Hr). cbv zeta in Hr.
  apply tx_bind_Ok in Hr as (u5 & s5 & E5 & Hr).
  apply tx_bind_Ok in Hr as (u6 & s6 & (E6 & Hs6 & Hc6 & _)%mapped_exec_Ok & Hr).
  apply tx_bind_Ok in Hr as (event & s7 & [_ ->]%lift_Ok & Hr).
  apply tx_bind_Ok in Hr as (u8 & s8 & (ob & Hdb8 & Hc8)%access_insertOutbox_Ok & Hr).
  apply tx_bind_Ok in Hr as (u9 & s9 & (Hcom & Hdb9 & _)%commit_Ok & [-> ->]%ret_Ok).
  apply writeBinding_Ok in E5 as (r & t & a & row & os & rev & m & Hrls & Hts & Ht & Ha & Hw &
    Hp & Hf & Hsl & Hos & Hm & Hother & Hrec & Hfr & Hdb5 & Hs5 & Hc5); [|done].
  assert (Hv3 : same_view s2 s3).
  { unfold mapped, find_row in E3. by apply map_err_Ok, query_Ok in E3 as [_ ?]. }
  destruct Hv3 as (Hdb3 & Hsc3 & Hco3 & Hro3). rewrite Hsc3 in Hrls.
  eapply access_find_row_Ok in E3 as (_ & t' & a' & Ht' & Ha' & Hex); [|exact Hrls].
  rewrite Ht in Ht'. injection Ht' as <-. rewrite Ha in Ha'. injection Ha' as <-.
  specialize (Hex Hts). rewrite Hdb2, Hdb1 in Hex.
  apply sql_insert_answer_Ok in E6 as (t' & u & k & answer & _ & Hsnap & _ & Hdb6).
  assert (Hs3db : session_db s3 = db) by congruence.
  rewrite Hs3db in *. rewrite Hdb5 in Hdb6. rewrite Hdb6 in Hdb8.
  right. exists t, a, row, os, rev. rewrite Hcom. cbn. rewrite Hdb8.
  split; cbn; try done.
  - rewrite <-Hex. exact Hv.
  - by rewrite <-Hex.
  - exists t', u, k, answer. split; [done|]. by rewrite Hsnap.
Qed.

(** ** Removing a binding

    The columns of a binding hold no list of fallbacks, and the revision of a removal is
    written from them: without a list it is refused. *)
Lemma RemoveAgentBinding_cases ctx params db ev r db' :
  run (RemoveAgentBinding ctx params) db ev = (r, db') →
  (∀ k row, access_bindings db !! k = Some row → binding_FallbackOfferingIDs row = None) →
  db' = db ∧ ∀ b, r = Ok b → ∃ t u k answer,
    access_answers db !! (t, u, "remove_agent_model_binding", k) = Some answer ∧
    b = answer_Snapshot answer ∧ answer_RequestHash answer = removeBinding_RequestHash params.
Proof.
  intros Hr Hrows. destruct r as [b|e].
  2:{ split; [|done]. apply run_Err in Hr; [done|]. unfold RemoveAgentBinding.
      apply commit_last_bind; [apply _|intros _].
      apply commit_last_bind; [apply _|intros [b|]]; apply _. }
  apply run_Ok in Hr as (s' & Hr & ->). unfold RemoveAgentBinding in Hr.
  apply tx_bind_Ok in Hr as (u0 & s1 & E1 & Hr). unfold beginUserTenant in E1.
  apply Begin_Ok in E1 as (_ & Hdb1 & Hsc1 & Hco1 & Hro1). cbn in Hdb1, Hco1.
  apply tx_bind_Ok in Hr as (cached & s2 & [(Hdb2 & Hsc2 & Hco2 & Hro2) Hcached]
    %lookupBindingIdempotency_Ok & Hr).
  destruct cached as [b'|].
  { apply ret_Ok in Hr as [-> ->]. rewrite Hco2, Hco1. split; [done|]. intros ? [= <-].
    rewrite Hdb1 in Hcached. by apply Hcached. }
  exfalso. unfold mapped in Hr.
  apply tx_bind_Ok in Hr as (row & s3 & E3%map_err_Ok%map_err_Ok & Hr).
  apply query_Ok in E3 as [(rl & t & a & _ & _ & _ & _ & Hrow)%access_sql_row_Ok (Hdb3 & _)].
  rewrite Hdb2, Hdb1 in Hrow. apply Hrows in Hrow.
  do 4 (apply tx_bind_Ok in Hr as (? & ? & _ & Hr)).
  apply tx_bind_Ok in Hr as (? & ? & (_ & E & _)%map_err_Ok%exec_Ok & Hr).
  unfold sql_insert_binding_revision, array_in in E. result_inv E. cbn in *. congruence.
Qed.

End Bindings.
