(* ===== verification/AccessOfferings.v ===== *)
(** * Model access: what a catalog refresh does

    The offerings of a connection before and after a refresh ([refreshed], [withdrawn_from]),
    and the refresh row and the queue ([finished]). *)

From stdpp Require Import strings gmap fin_maps list sorting relations.
From Stdlib Require Import String Lia.
From S2P Require Import Prelude GoStrings Postgres Usecase Outbox.
From S2P Require Import AccessStore AccessRepository AccessCatalog AccessService AccessBindings.
Open Scope string_scope.
Open Scope list_scope.
Open Scope Z_scope.

Section Offerings.
Context `{Platform, !PlatformLaws, Proto}.
Implicit Types (db : access_tables) (m : gmap (string * string) ModelOffering).

(** ** Rows of offerings *)

(** Rows are found under their tenant and identifier, and a connection has one row for each
    of its provider's models. *)
Record keyed m : Prop := {
  keyed_key : ∀ t o row, m !! (t, o) = Some row → offering_TenantID row = t ∧ offering_ID row = o;
  keyed_one : ∀ t c x k1 k2 r1 r2, m !! k1 = Some r1 → m !! k2 = Some r2 →
    offering_is t c x r1 = true → offering_is t c x r2 = true → k1 = k2;
}.

Lemma offering_is_true t c x row :
  offering_is t c x row = true ↔
  offering_of t c row = true ∧ offering_ProviderModelID row = x.
Proof. unfold offering_is. by rewrite andb_true_iff, String.eqb_eq. Qed.

Lemma offering_of_true t c row :
  offering_of t c row = true ↔ offering_TenantID row = t ∧ offering_ConnectionID row = c.
Proof. unfold offering_of. by rewrite andb_true_iff, !String.eqb_eq. Qed.

Lemma find_offering_Some t c x db old :
  find_offering t c x db = Some old →
  ∃ k, access_offerings db !! k = Some old ∧ offering_is t c x old = true.
Proof.
  unfold find_offering. intros ([k v] & Hf & ->)%fmap_Some. cbn in *.
  apply List.find_some in Hf as [Hin%list_elem_of_In%elem_of_map_to_list Ho]. eauto.
Qed.

Lemma find_offering_None t c x db k row :
  find_offering t c x db = None → access_offerings db !! k = Some row →
  offering_is t c x row = false.
Proof.
  unfold find_offering. intros Hf%fmap_None Hk%elem_of_map_to_list%list_elem_of_In.
  exact (List.find_none _ _ Hf _ Hk).
Qed.

(** What a refresh never changes of a row; its version only grows. *)
Record same_identity (old row : ModelOffering) : Prop := {
  same_tenant : offering_TenantID row = offering_TenantID old;
  same_id : offering_ID row = offering_ID old;
  same_connection : offering_ConnectionID row = offering_ConnectionID old;
  same_provider : offering_ProviderKey row = offering_ProviderKey old;
  same_model : offering_ProviderModelID row = offering_ProviderModelID old;
  same_first_seen : offering_FirstSeenAt row = offering_FirstSeenAt old;
  version_grows : offering_Version old ≤ offering_Version row;
}.

#[export] Instance same_identity_preorder : PreOrder same_identity.
Proof.
  split; [intros o; by split|]. intros o1 o2 o3 [] []. split; try congruence. lia.
Qed.

Lemma same_identity_is t c x old row :
  same_identity old row → offering_is t c x row = offering_is t c x old.
Proof. intros []. unfold offering_is, offering_of. congruence. Qed.
Lemma same_identity_of t c old row :
  same_identity old row → offering_of t c row = offering_of t c old.
Proof. intros []. unfold offering_of. congruence. Qed.

(** A row says what was discovered of its model. *)
Record describes (d : DiscoveredModel) (row : ModelOffering) : Prop := {
  describes_model : offering_ProviderModelID row = model_ProviderModelID d;
  describes_name : offering_DisplayName row = model_DisplayName d;
  describes_description : offering_Description row = model_Description d;
  describes_status : offering_Status row = OfferingStatusAvailable;
  describes_usable : offering_AgentUsable row = model_AgentUsable d;
  describes_capabilities : model_Capabilities d = Some (offering_Capabilities row);
  describes_inputs : model_InputModalities d = Some (offering_InputModalities row);
  describes_outputs : model_OutputModalities d = Some (offering_OutputModalities row);
  describes_context : offering_ContextWindowTokens row = model_ContextWindowTokens d;
  describes_output : offering_MaxOutputTokens row = model_MaxOutputTokens d;
}.

(** ** One model *)

(** The row of a model that was discovered: a new one, or the one there was. *)
Record upserted (t c : string) (d : DiscoveredModel) m m' : Prop := {
  upserted_row : ∃ o row, describes d row ∧ offering_is t c (model_ProviderModelID d) row = true ∧
    offering_ID row = o ∧ m' = <[(t, o) := row]> m ∧
    (∀ old, m !! (t, o) = Some old → same_identity old row) ∧
    (m !! (t, o) = None →
     ∀ k old, m !! k = Some old → offering_is t c (model_ProviderModelID d) old = false);
}.

Lemma sql_upsert_offering_Ok tenantID connectionID newID source d now sc db u db' :
  sql_upsert_offering tenantID connectionID newID source d now sc db = Ok (u, db') →
  keyed (access_offerings db) →
  ∃ t c r m', uuid_in tenantID = Some t ∧ uuid_in connectionID = Some c ∧
    rls_of sc = Ok r ∧ tenant_scoped r t = true ∧
    upserted t c d (access_offerings db) m' ∧ db' = set_offerings m' db.
Proof.
  unfold sql_upsert_offering, array_in. intros Hr Hk. result_inv Hr.
  repeat match goal with Hc : cast _ = Ok _ |- _ => apply access_cast_Ok in Hc end.
  match goal with Hw : writable _ _ _ = Ok _ |- _ => apply writable_Ok in Hw as (r & Hrl & Hs) end.
  match type of Hr with context [find_offering ?t ?c _ _] => exists t, c, r end.
  destruct (find_offering _ _ _ _) as [old|] eqn:Hf; result_inv Hr; injection Hr as _ <-;
    eexists; (split_and!; [done..| |reflexivity]); constructor.
  - apply find_offering_Some in Hf as ([t' o'] & Hold & His).
    pose proof (keyed_key _ Hk _ _ _ Hold) as [Ht' Ho'].
    pose proof His as [[Hte Hce]%offering_of_true Hmo]%offering_is_true.
    rewrite <-Ht', <-Ho', Hte in Hold.
    eexists (offering_ID old), _. split_and!; [| | |reflexivity| |]; cbn.
    + by split; cbn.
    + apply offering_is_true. split; [by apply offering_of_true|done].
    + done.
    + intros old' Hold'. rewrite Hold in Hold'. injection Hold' as <-. split; cbn; try done.
      destruct (offering_changed _ _); lia.
    + congruence.
  - eexists _, _. split_and!; [| | |reflexivity| |]; cbn.
    + by split; cbn.
    + by apply offering_is_true; split; [apply offering_of_true|].
    + done.
    + intros old Hold. by rewrite Hold in *.
    + intros _ k old. by apply find_offering_None.
Qed.

(** ** All models *)

Definition discovered_ids (models : list DiscoveredModel) : list string :=
  model_ProviderModelID <$> models.

(** The rows [m'] after the models were written into [m], for the connection [c]. *)
Record refreshed (t c : string) (models : list DiscoveredModel) m m' : Prop := {
  refreshed_keyed : keyed m';
  refreshed_old : ∀ k old, m !! k = Some old → ∃ row, m' !! k = Some row ∧
    same_identity old row ∧
    (row = old ∨ offering_of t c old = true ∧
                 offering_ProviderModelID old ∈ discovered_ids models);
  refreshed_new : ∀ k row, m' !! k = Some row → m !! k = Some row ∨
    offering_of t c row = true ∧ offering_ProviderModelID row ∈ discovered_ids models;
  refreshed_available : ∀ k row, m' !! k = Some row → offering_of t c row = true →
    offering_ProviderModelID row ∈ discovered_ids models →
    offering_Status row = OfferingStatusAvailable;
  refreshed_found : NoDup (discovered_ids models) → ∀ d, d ∈ models → ∃ o row,
    m' !! (t, o) = Some row ∧ offering_of t c row = true ∧ describes d row;
  refreshed_slices : Forall (λ d, is_Some (model_Capabilities d) ∧
    is_Some (model_InputModalities d) ∧ is_Some (model_OutputModalities d)) models;
}.

Lemma refreshed_nil t c m : keyed m → refreshed t c [] m m.
Proof.
  intros Hk. split; [done| | | | |by constructor].
  - intros k old Ho. exists old. split_and!; [done..|by left].
  - intros k row Hr. by left.
  - intros k row _ _ Hx. by apply not_elem_of_nil in Hx.
  - intros _ d Hd. by apply not_elem_of_nil in Hd.
Qed.

(** One row is put under a key of its own. *)
Lemma upserted_keyed t c d m m' : keyed m → upserted t c d m m' → keyed m'.
Proof.
  intros Hk [(o & row & Hd & His & Hid & -> & Hold & Hnew)].
  pose proof His as [[Ht Hc]%offering_of_true Hmo]%offering_is_true. split.
  - intros t' o' r [[[= <- <-] <-]|[_ Hr]]%lookup_insert_Some; [done|]. by apply (keyed_key _ Hk).
  - assert (Hone : ∀ k r t1 c1 x, m !! k = Some r → offering_is t1 c1 x r = true →
      offering_is t1 c1 x row = true → k = (t, o)).
    { intros k r t1 c1 x Hr Hi1 Hi2.
      apply offering_is_true in Hi2 as [[Ht1 Hc1]%offering_of_true Hx1].
      assert (offering_is t c (model_ProviderModelID d) r = true) as Hi3 by congruence.
      destruct (m !! (t, o)) as [old|] eqn:Ho.
      - specialize (Hold old eq_refl). eapply (keyed_one _ Hk); [exact Hr|exact Ho|exact Hi3|].
        by rewrite <-(same_identity_is _ _ _ _ _ Hold).
      - rewrite (Hnew eq_refl _ _ Hr) in Hi3. done. }
    intros t1 c1 x k1 k2 r1 r2 [[<- <-]|[Hk1 Hi1]]%lookup_insert_Some
      [[<- <-]|[Hk2 Hi2]]%lookup_insert_Some E1 E2; [done|..].
    + symmetry. by eapply Hone.
    + by eapply Hone.
    + by eapply (keyed_one _ Hk).
Qed.

(** The first model, then the others. *)
Lemma refreshed_cons t c d models m m1 m' :
  keyed m → upserted t c d m m1 → refreshed t c models m1 m' →
  refreshed t c (d :: models) m m'.
Proof.
  intros Hk Hu Hr. pose proof (upserted_keyed _ _ _ _ _ Hk Hu) as Hk1.
  destruct Hu as [(o & row & Hd & His & Hid & -> & Hold & Hnew)].
  pose proof His as [Hof Hmo]%offering_is_true.
  assert (Hrow : <[(t, o) := row]> m !! (t, o) = Some row) by apply lookup_insert_eq.
  split.
  - apply Hr.
  - intros k old Ho. destruct (decide (k = (t, o))) as [->|Hne].
    + destruct (refreshed_old _ _ _ _ _ Hr _ _ Hrow) as (row' & Hrow' & Hs & _).
      exists row'. split; [done|]. specialize (Hold _ Ho). split; [by etrans|]. right.
      rewrite <-(same_identity_of t c _ _ Hold), <-(same_model _ _ Hold), Hmo.
      split; [done|]. by apply list_elem_of_here.
    + destruct (refreshed_old _ _ _ _ _ Hr k old) as (row' & Hrow' & Hs & Hc);
        [by rewrite lookup_insert_ne|].
      exists row'. split_and!; [done..|]. destruct Hc as [->|[? ?]]; [by left|right].
      split; [done|]. by apply list_elem_of_further.
  - intros k r Hkr. destruct (refreshed_new _ _ _ _ _ Hr k r Hkr) as [Hin|[? ?]].
    + apply lookup_insert_Some in Hin as [[<- <-]|[_ ?]]; [|by left]. right. split; [done|].
      rewrite Hmo. by apply list_elem_of_here.
    + right. split; [done|]. by apply list_elem_of_further.
  - intros k r Hkr Hr1 [Hx|Hx]%elem_of_cons; [|by eapply (refreshed_available _ _ _ _ _ Hr)].
    destruct (decide (offering_ProviderModelID r ∈ discovered_ids models)) as [Hin|Hout];
      [by eapply (refreshed_available _ _ _ _ _ Hr)|].
    destruct (refreshed_new _ _ _ _ _ Hr k r Hkr) as [Hin|[_ ?]]; [|done].
    assert (k = (t, o)) as ->.
    { eapply (keyed_one _ Hk1); [exact Hin|exact Hrow| |exact His].
      by apply offering_is_true. }
    rewrite Hrow in Hin. injection Hin as <-. apply Hd.
  - intros [Hn Hnd]%NoDup_cons d' [->|Hd']%elem_of_cons;
      [|by apply (refreshed_found _ _ _ _ _ Hr)].
    destruct (refreshed_old _ _ _ _ _ Hr _ _ Hrow) as (row' & Hrow' & _ & Hc).
    destruct Hc as [->|[_ Hc]]; [by exists o, row|]. rewrite Hmo in Hc. done.
  - constructor; [|apply Hr]. destruct Hd. split_and!; by eexists.
Qed.

Lemma upsertOfferings_Ok params newIDs models : ∀ i (s s' : session access_tables) u,
  upsertOfferings params newIDs i models s = (Ok u, s') →
  keyed (access_offerings (session_db s)) → session_read_only s = false → ∀ t c,
  uuid_in (apply_TenantID params) = Some t → uuid_in (apply_ConnectionID params) = Some c →
  ∃ m', refreshed t c models (access_offerings (session_db s)) m' ∧
    session_db s' = set_offerings m' (session_db s) ∧
    session_scope s' = session_scope s ∧ session_committed s' = session_committed s ∧
    session_read_only s' = false.
Proof.
  induction models as [|d models IH]; intros i s s' u Hr Hk Hro t c Ht Hc.
  - apply ret_Ok in Hr as [_ ->]. exists (access_offerings (session_db s)).
    split_and!; try done; [by apply refreshed_nil|]. by destruct (session_db s).
  - cbn [upsertOfferings] in Hr.
    apply tx_bind_Ok in Hr as (v & s1 & (E1 & Hsc & Hco & Hro1)%mapped_exec_Ok & Hr).
    apply sql_upsert_offering_Ok in E1 as (t' & c' & r & m1 & Ht' & Hc' & _ & _ & Hu & Hdb);
      [|done]. rewrite Ht in Ht'. rewrite Hc in Hc'. simplify_eq.
    eapply IH in Hr as (m' & Hm & Hdb' & Hsc' & Hco' & ?); [| |done|exact Ht|exact Hc].
    + rewrite Hdb in Hm, Hdb'. cbn in Hm, Hdb'. exists m'.
      split_and!; [by eapply refreshed_cons|exact Hdb'|congruence..|done].
    + rewrite Hdb. cbn. by eapply upserted_keyed.
Qed.

(** ** What is no longer there *)

(** The rows after those that [gone] selects were withdrawn. *)
Record withdrawn_from (t c : string) (gone : string → bool) m m' : Prop := {
  withdrawn_keyed : keyed m → keyed m';
  withdrawn_old : ∀ k old, m !! k = Some old → ∃ row, m' !! k = Some row ∧
    same_identity old row ∧
    (row = old ∨ offering_of t c old = true ∧ gone (offering_ProviderModelID old) = true ∧
                 offering_Status row = OfferingStatusUnavailable);
  withdrawn_new : ∀ k row, m' !! k = Some row → ∃ old, m !! k = Some old ∧ same_identity old row ∧
    (row = old ∨ gone (offering_ProviderModelID old) = true);
  withdrawn_gone : ∀ k row, m' !! k = Some row → offering_of t c row = true →
    gone (offering_ProviderModelID row) = true → offering_Status row ≠ OfferingStatusAvailable;
}.

Definition withdraw (t c : string) (gone : string → bool) (now : Z) (o : ModelOffering)
  : ModelOffering := if withdrawn_row t c gone o then offering_withdrawn now o else o.

Lemma withdraw_identity t c gone now o : same_identity o (withdraw t c gone now o).
Proof.
  unfold withdraw. destruct (withdrawn_row _ _ _ _); [|reflexivity].
  split; cbn; try done. lia.
Qed.

Lemma withdraw_cases t c gone now o :
  withdraw t c gone now o = o ∧
    (offering_of t c o = true → gone (offering_ProviderModelID o) = true →
     offering_Status o ≠ OfferingStatusAvailable) ∨
  offering_of t c o = true ∧ gone (offering_ProviderModelID o) = true ∧
    offering_Status (withdraw t c gone now o) = OfferingStatusUnavailable.
Proof.
  unfold withdraw, withdrawn_row. destruct (offering_of t c o); [|by left].
  destruct (String.eqb_spec (offering_Status o) OfferingStatusAvailable) as [Ho|Ho];
    destruct (gone (offering_ProviderModelID o)) eqn:Hg; cbn; auto.
Qed.

Lemma withdrawn_map t c gone now m : withdrawn_from t c gone m (withdraw t c gone now <$> m).
Proof.
  assert (Hfrom : ∀ k row, (withdraw t c gone now <$> m) !! k = Some row → ∃ old,
    m !! k = Some old ∧ row = withdraw t c gone now old).
  { intros k row. rewrite lookup_fmap. intros (old & -> & ?)%fmap_Some. eauto. }
  split.
  - intros Hk. split.
    + intros t' o row (old & Hold & ->)%Hfrom.
      destruct (withdraw_identity t c gone now old). apply (keyed_key _ Hk) in Hold.
      intuition congruence.
    + intros t1 c1 x k1 k2 r1 r2 (o1 & Ho1 & ->)%Hfrom (o2 & Ho2 & ->)%Hfrom.
      rewrite !(same_identity_is _ _ _ _ _ (withdraw_identity _ _ _ _ _)).
      by apply (keyed_one _ Hk).
  - intros k old Hold. exists (withdraw t c gone now old). rewrite lookup_fmap, Hold.
    split_and!; [done|apply withdraw_identity|].
    destruct (withdraw_cases t c gone now old) as [[-> _]|(? & ? & ?)]; auto.
  - intros k row (old & Hold & ->)%Hfrom. exists old.
    split_and!; [done|apply withdraw_identity|].
    destruct (withdraw_cases t c gone now old) as [[-> _]|(? & ? & ?)]; auto.
  - intros k row (old & Hold & ->)%Hfrom.
    rewrite (same_identity_of _ _ _ _ (withdraw_identity _ _ _ _ _)).
    rewrite (same_model _ _ (withdraw_identity t c gone now old)). intros Hof Hg.
    destruct (withdraw_cases t c gone now old) as [[-> Hs]|(_ & _ & ->)]; auto.
Qed.

Lemma sql_withdraw_offerings_Ok tenantID connectionID gone now sc db n db' t c r :
  sql_withdraw_offerings tenantID connectionID gone now sc db = Ok (n, db') →
  uuid_in tenantID = Some t → uuid_in connectionID = Some c → rls_of sc = Ok r →
  tenant_scoped r t = true →
  db' = set_offerings (withdraw t c gone now <$> access_offerings db) db ∧
  n = Z.of_nat (size (filter (λ kv : _ * ModelOffering, withdrawn_row t c gone kv.2 = true)
                        (access_offerings db))).
Proof.
  unfold sql_withdraw_offerings, cast. intros Hr Ht Hc Hl Hs. rewrite Hl, Ht, Hc in Hr. cbn in Hr.
  rewrite Hs in Hr.
  result_inv Hr. by injection Hr as <- <-.
Qed.

(** ** The refresh row and the queue *)

Definition dequeued (t i : string) (queue : gmap string queue_row) : gmap string queue_row :=
  match queue !! i with
  | Some row => if String.eqb (queue_TenantID row) t then delete i queue else queue
  | None => queue
  end.

Definition finished (change : CatalogRefresh → CatalogRefresh) (t i : string) db
  : access_tables :=
  set_queue (dequeued t i (access_queue db))
    (set_refreshes (alter change (t, i) (access_refreshes db)) db).

Lemma insert_alter {K V} `{Countable K} (f : V → V) (k : K) (x : V) (m : gmap K V) :
  m !! k = Some x → <[k := f x]> m = alter f k m.
Proof.
  intros Hk. apply map_eq. intros j. destruct (decide (k = j)) as [<-|Hj].
  - by rewrite lookup_insert_eq, lookup_alter_eq, Hk.
  - by rewrite lookup_insert_ne, lookup_alter_ne.
Qed.

Lemma sql_finish_refresh_Ok change tenantID rid sc db u db' t r :
  sql_finish_refresh change tenantID rid sc db = Ok (u, db') →
  uuid_in tenantID = Some t → rls_of sc = Ok r → tenant_scoped r t = true →
  ∃ i, uuid_in rid = Some i ∧
    db' = set_refreshes (alter change (t, i) (access_refreshes db)) db.
Proof.
  unfold sql_finish_refresh. intros ([[t' i] o] & (r' & Hr' & Ht' & Hi & ->)%tenant_row_Ok & Hf)
    %result_bind_Ok Ht Hr Hs.
  rewrite Ht in Ht'. rewrite Hr in Hr'. simplify_eq. cbn in Hf. rewrite Hs in Hf.
  exists i. split; [done|]. destruct (access_refreshes db !! (t', i)) as [row|] eqn:Hrow.
  - result_inv Hf. injection Hf as _ <-. by rewrite <-(insert_alter _ _ row).
  - injection Hf as _ <-. rewrite alter_id; [by destruct db|].
    intros x Hx. by rewrite Hrow in Hx.
Qed.

(** The removal from the queue is written, or the commit that follows fails. *)
Lemma ignored_exec_commit {A} (f : Scope → access_tables → result db_error (A * access_tables))
    (s s1 s2 : session access_tables) u1 u2 :
  ignored (exec f : repo A) s = (Ok u1, s1) → commit s1 = (Ok u2, s2) →
  session_committed s = None → session_read_only s = false →
  session_db s1 = match f (session_scope s) (session_db s) with
                  | Ok (_, db') => db' | Err _ => session_db s end ∧
  session_committed s1 = None.
Proof.
  unfold ignored. intros [= _ Hs1] (u & s3 & Hst & _)%tx_bind_Ok Hc Hro.
  destruct s as [db com sc ro cl b]. cbn in *. subst com ro.
  unfold exec, raw, mbind, tx_bind, statement in Hs1. cbn in Hs1.
  destruct (consume b) as [b'|] eqn:Hb; cbn in Hs1.
  - destruct (f sc db) as [[a db']|e]; subst s1; by cbn.
  - subst s1. unfold statement in Hst. cbn in Hst. by rewrite Hb in Hst.
Qed.

Lemma finish_commit change tenantID rid (s s1 s2 s3 : session access_tables) u1 u2 u3 t r :
  (mapped (exec (sql_finish_refresh change tenantID rid)) : repo unit) s = (Ok u1, s1) →
  ignored (exec (sql_dequeue tenantID rid) : repo unit) s1 = (Ok u2, s2) →
  commit s2 = (Ok u3, s3) → session_committed s = None → uuid_in tenantID = Some t →
  rls_of (session_scope s) = Ok r → tenant_scoped r t = true →
  ∃ i, uuid_in rid = Some i ∧ session_db s2 = finished change t i (session_db s).
Proof.
  intros (E1 & Hsc1 & Hco1 & Hro1)%mapped_exec_Ok E2 E3 Hco Ht Hr Hs.
  eapply sql_finish_refresh_Ok in E1 as (i & Hi & Hdb1); [|exact Ht|exact Hr|exact Hs].
  exists i. split; [done|]. rewrite Hco in Hco1.
  eapply ignored_exec_commit in E2 as [Hdb2 _]; [|exact E3|done|done].
  rewrite Hdb2. unfold sql_dequeue, cast. rewrite Ht, Hi. cbn. rewrite Hdb1. cbn.
  unfold finished, dequeued. cbn. destruct (access_queue (session_db s) !! i) as [row|]; [|done].
  by destruct (String.eqb _ _).
Qed.

(** ** A refresh *)

Definition same_binding_rows db db' : Prop :=
  access_bindings db' = access_bindings db ∧ access_fallbacks db' = access_fallbacks db ∧
  access_revisions db' = access_revisions db ∧ access_answers db' = access_answers db.

Definition missing (models : list DiscoveredModel) (x : string) : bool :=
  negb (slices_Contains (discovered_ids models) x).

Record apply_effect (params : ApplyCatalogRefreshParams) (r : CatalogRefreshResult) db db'
    (t c : string) (m : gmap (string * string) ModelOffering) : Prop := {
  apply_tenant : uuid_in (apply_TenantID params) = Some t;
  apply_connection : uuid_in (apply_ConnectionID params) = Some c;
  apply_refreshed : refreshed t c (apply_Discovered params) (access_offerings db) m;
  apply_withdrawn : access_offerings db' =
    withdraw t c (missing (apply_Discovered params)) (apply_RefreshedAt params) <$> m;
  apply_count : result_UnavailableCount r =
    Z.of_nat (size (filter (λ kv : _ * ModelOffering,
      withdrawn_row t c (missing (apply_Discovered params)) kv.2 = true) m));
  apply_job :
    apply_RefreshID params = "" ∧ access_refreshes db' = access_refreshes db ∧
      access_queue db' = access_queue db ∨
    ∃ i, uuid_in (apply_RefreshID params) = Some i ∧
      access_refreshes db' =
        alter (refresh_succeeded (result_Generation r) (result_DiscoveredCount r)
                 (result_AvailableCount r) (result_UnavailableCount r) (result_RefreshedAt r))
          (t, i) (access_refreshes db) ∧
      access_queue db' = dequeued t i (access_queue db);
  apply_bindings_same : same_binding_rows db db';
  apply_connections_same : access_connections db' = access_connections db;
}.

(** Only the catalog state of a connection differs. *)
Definition states_only db db' : Prop := ∃ v, db' = set_states v db.

Lemma sql_insert_state_Ok tenantID connectionID now sc db u db' :
  sql_insert_state tenantID connectionID now sc db = Ok (u, db') →
  states_only db db' ∧ ∃ t r, uuid_in tenantID = Some t ∧ rls_of sc = Ok r ∧
    tenant_scoped r t = true.
Proof.
  unfold sql_insert_state, cast. intros Hr. result_inv Hr. injection Hr as _ <-.
  match goal with Hw : writable _ _ _ = Ok _ |- _ => apply writable_Ok in Hw as (r & ? & ?) end.
  split; [by eexists|eauto].
Qed.

Lemma sql_update_state_Ok change tenantID connectionID sc db u db' :
  sql_update_state change tenantID connectionID sc db = Ok (u, db') → states_only db db'.
Proof.
  unfold sql_update_state. intros ([[t c] row] & _ & Hr)%result_bind_Ok.
  destruct row as [row|].
  - result_inv Hr. injection Hr as _ <-. by eexists.
  - injection Hr as _ <-. exists (access_states db). by destruct db.
Qed.

(** The scope of the transaction shows the tenant's rows. *)
Lemma advanceState_Ok params (s s' : session access_tables) g :
  advanceState params s = (Ok g, s') → session_read_only s = false →
  states_only (session_db s) (session_db s') ∧ session_scope s' = session_scope s ∧
  session_committed s' = session_committed s ∧ session_read_only s' = false ∧
  ∃ t r, uuid_in (apply_TenantID params) = Some t ∧ rls_of (session_scope s) = Ok r ∧
    tenant_scoped r t = true.
Proof.
  unfold advanceState. intros (found & s1 & E1 & Hr)%tx_bind_Ok Hro.
  unfold mapped, find_row in E1. apply map_err_Ok, query_Ok in E1 as [Hq (Hd1 & Hs1 & Hc1 & Hro1)].
  destruct found as [state|].
  - apply tx_bind_Ok in Hr as (u & s2 & (E2 & Hs2 & Hc2 & Hro2)%mapped_exec_Ok & [_ ->]%ret_Ok).
    apply sql_update_state_Ok in E2. rewrite Hd1 in E2. split_and!; try congruence.
    case_match; [|by case_match].
    match goal with Hx : sql_row _ _ _ _ _ = Ok _ |- _ =>
      apply access_sql_row_Ok in Hx as (r & t & k & ? & ? & ? & ? & ?) end. eauto.
  - apply tx_bind_Ok in Hr as (u & s2 & (E2 & Hs2 & Hc2 & Hro2)%mapped_exec_Ok & [_ ->]%ret_Ok).
    apply sql_insert_state_Ok in E2 as [E2 (t & r & Ht & Hr & Hs)]. rewrite Hd1 in E2.
    rewrite Hs1 in Hr. split_and!; try congruence. eauto.
Qed.

#[export] Instance commit_free_ignored {A} (m : repo A) : commit_free m → commit_free (ignored m).
Proof. intros Hm s. apply Hm. Qed.
#[export] Instance commit_free_advanceState params : commit_free (advanceState params).
Proof. apply commit_free_bind; [apply _|]. intros [state|]; apply _. Qed.
#[export] Instance commit_free_upsertOfferings params newIDs i models :
  commit_free (upsertOfferings params newIDs i models).
Proof. revert i. induction models; intros i; cbn; apply _. Qed.
#[export] Instance commit_last_ApplyCatalogRefresh ctx newIDs params :
  commit_last (ApplyCatalogRefresh ctx newIDs params).
Proof. unfold ApplyCatalogRefresh, beginUserTenant. cbv zeta. apply _. Qed.
#[export] Instance commit_last_FailCatalogRefresh ctx rid t u code now :
  commit_last (FailCatalogRefresh ctx rid t u code now).
Proof. unfold FailCatalogRefresh, beginUserTenant. apply _. Qed.

(** A refresh fails and leaves the tables alone, or is applied. *)
Lemma ApplyCatalogRefresh_cases ctx newIDs params db ev r db' :
  run (ApplyCatalogRefresh ctx newIDs params) db ev = (r, db') →
  keyed (access_offerings db) →
  match r with
  | Err _ => db' = db
  | Ok res => ∃ t c m, apply_effect params res db db' t c m
  end.
Proof.
  destruct r as [res|e]; [|intros Hr _; by apply run_Err in Hr; [|apply _]].
  intros (s' & Hr & ->)%run_Ok Hk. unfold ApplyCatalogRefresh, beginUserTenant in Hr.
  apply tx_bind_Ok in Hr as (u0 & s1 & (_ & Hdb1 & Hsc1 & Hco1 & Hro1)%Begin_Ok & Hr).
  cbn in Hdb1, Hco1.
  apply tx_bind_Ok in Hr as (g & s2 & E2 & Hr).
  apply advanceState_Ok in E2 as ([v2 Hdb2] & Hsc2 & Hco2 & Hro2 & t & r & Ht & Hrl & Hs); [|done].
  rewrite Hdb1 in Hdb2.
  apply tx_bind_Ok in Hr as (u3 & s3 & E3 & Hr).
  apply tx_bind_Ok in Hr as (n & s4 & (E4 & Hsc4 & Hco4 & Hro4)%mapped_exec_Ok & Hr).
  apply tx_bind_Ok in Hr as (u5 & s5 & (E5 & Hsc5 & Hco5 & Hro5)%mapped_exec_Ok & Hr).
  assert (Hc : ∃ c, uuid_in (apply_ConnectionID params) = Some c).
  { unfold sql_withdraw_offerings, cast in E4. result_inv E4. eauto. }
  destruct Hc as [c Hc].
  eapply upsertOfferings_Ok in E3 as (m & Hm & Hdb3 & Hsc3 & Hco3 & Hro3);
    [|by rewrite Hdb2|done|exact Ht|exact Hc].
  rewrite Hdb2 in Hm, Hdb3. cbn in Hm.
  eapply sql_withdraw_offerings_Ok in E4 as [Hdb4 Hn];
    [|exact Ht|exact Hc|by rewrite Hsc3, Hsc2; exact Hrl|exact Hs].
  rewrite Hdb3 in Hdb4, Hn. cbn in Hdb4, Hn.
  apply sql_update_state_Ok in E5 as [v5 Hdb5]. rewrite Hdb4 in Hdb5.
  assert (Hco : session_committed s5 = None) by congruence.
  assert (Hsc : session_scope s5 = session_scope s1) by congruence.
  exists t, c, m.
  apply tx_bind_Ok in Hr as (u6 & s6 & E6 & Hr).
  apply tx_bind_Ok in Hr as (u7 & s7 & E7 & [-> ->]%ret_Ok).
  pose proof E7 as (Hcom & _ & _)%commit_Ok. rewrite Hcom. cbn [default].
  destruct (String.eqb_spec (apply_RefreshID params) "") as [Hid|Hid]; cbn in E6.
  - apply ret_Ok in E6 as [_ ->]. rewrite Hdb5.
    split; cbn; try done. by left.
  - apply tx_bind_Ok in E6 as (u8 & s8 & E8 & E9).
    eapply finish_commit in E9 as (i & Hi & Hdb9); [|exact E8|exact E7|done|exact Ht| |exact Hs].
    2:{ by rewrite Hsc. }
    rewrite Hdb9, Hdb5. split; cbn; try done. right. by exists i.
Qed.

(** The scope of a user's transaction shows the rows of its tenant. *)
Lemma tenant_scope_shows tenantID u ctx t r :
  rls_of (TenantScope tenantID u (ctx_RequestID ctx) (ctx_CorrelationID ctx)) = Ok r →
  uuid_in tenantID = Some t → tenant_scoped r t = true.
Proof.
  intros Hr Ht. apply tenant_scoped_true. unfold rls_of in Hr. cbn in Hr.
  rewrite (uuid_in_trimmed _ _ Ht) in Hr. unfold rls_setting in Hr. rewrite Ht in Hr.
  destruct (String.eqb_spec tenantID "") as [->|_]; [by rewrite uuid_in_empty in Ht|].
  cbn in Hr. apply result_bind_Ok in Hr as (p & _ & [= <-]). done.
Qed.

Lemma FailCatalogRefresh_cases ctx rid tenantID u code now db ev r db' :
  run (FailCatalogRefresh ctx rid tenantID u code now) db ev = (r, db') →
  db' = db ∨ ∃ t i, uuid_in tenantID = Some t ∧ uuid_in rid = Some i ∧
    db' = finished (refresh_failed code now) t i db.
Proof.
  destruct r as [res|e]; [|intros Hr; left; by apply run_Err in Hr; [|apply _]].
  intros (s' & Hr & ->)%run_Ok. unfold FailCatalogRefresh, beginUserTenant in Hr.
  apply tx_bind_Ok in Hr as (u0 & s1 & (_ & Hdb1 & Hsc1 & Hco1 & Hro1)%Begin_Ok & Hr).
  cbn in Hdb1, Hco1.
  apply tx_bind_Ok in Hr as (u2 & s2 & E2 & Hr).
  apply tx_bind_Ok in Hr as (u3 & s3 & E3 & E4).
  pose proof E4 as (Hcom & _ & _)%commit_Ok. rewrite Hcom. cbn [default].
  assert (∃ t rl, uuid_in tenantID = Some t ∧ rls_of (session_scope s1) = Ok rl)
    as (t & rl & Ht & Hrl).
  { apply mapped_exec_Ok in E2 as (E2 & _). unfold sql_finish_refresh in E2.
    apply result_bind_Ok in E2 as ([[t' i'] o] & (rl & ? & ? & _)%tenant_row_Ok & _). eauto. }
  eapply finish_commit in E3 as (i & Hi & Hdb); [|exact E2|exact E4|done|exact Ht|exact Hrl|].
  - right. exists t, i. by rewrite Hdb, Hdb1.
  - rewrite Hsc1 in Hrl. by eapply tenant_scope_shows.
Qed.

(** ** Withdrawing, and asking for a refresh *)

Lemma MarkConnectionOfferingsUnavailable_cases ctx u tenantID connectionID now db ev r db' :
  run (MarkConnectionOfferingsUnavailable ctx u tenantID connectionID now) db ev = (r, db') →
  db' = db ∨ ∃ t c, db' = set_offerings (withdraw t c (λ _, true) now <$> access_offerings db) db.
Proof.
  destruct r as [res|e]; [|intros Hr; left; apply run_Err in Hr; [done|]].
  2:{ unfold MarkConnectionOfferingsUnavailable, beginUserTenant. apply _. }
  intros (s' & Hr & ->)%run_Ok. unfold MarkConnectionOfferingsUnavailable, beginUserTenant in Hr.
  apply tx_bind_Ok in Hr as (u0 & s1 & (_ & Hdb1 & Hsc1 & Hco1 & Hro1)%Begin_Ok & Hr).
  apply tx_bind_Ok in Hr as (n & s2 & (E2 & _ & _ & _)%mapped_exec_Ok & (Hcom & _ & _)%commit_Ok).
  rewrite Hcom. cbn in Hdb1 |- *. right.
  assert (∃ t c rl, uuid_in tenantID = Some t ∧ uuid_in connectionID = Some c ∧
    rls_of (session_scope s1) = Ok rl) as (t & c & rl & Ht & Hc & Hrl).
  { unfold sql_withdraw_offerings, cast in E2. result_inv E2. eauto 10. }
  exists t, c. rewrite <-Hdb1.
  eapply sql_withdraw_offerings_Ok in E2 as [Hdb _]; [exact Hdb|exact Ht|exact Hc|exact Hrl|].
  rewrite Hsc1 in Hrl. by eapply tenant_scope_shows.
Qed.

Lemma sql_insert_refresh_Ok tenantID rid u connectionID key reason now sc db n db' :
  sql_insert_refresh tenantID rid u connectionID key reason now sc db = Ok (n, db') →
  n = 0 ∧ db' = db ∨
  n = 1 ∧ ∃ t i row, uuid_in tenantID = Some t ∧ uuid_in rid = Some i ∧
    uuid_in u = Some (refresh_ActorUserID row) ∧
    uuid_in connectionID = Some (refresh_ConnectionID row) ∧
    refresh_Status row = CatalogRefreshPending ∧ access_refreshes db !! (t, i) = None ∧
    db' = set_refreshes (<[(t, i) := row]> (access_refreshes db)) db.
Proof.
  unfold sql_insert_refresh, cast. intros Hr. result_inv Hr.
  destruct (table_any _ _); [injection Hr as <- <-; by left|].
  result_inv Hr. injection Hr as <- <-. right. split; [done|].
  do 3 eexists. split_and!; [done|done| | | | |reflexivity]; cbn; try done.
  by destruct (access_refreshes db !! _).
Qed.

Lemma sql_enqueue_Ok rid tenantID u connectionID now sc db v db' :
  sql_enqueue rid tenantID u connectionID now sc db = Ok (v, db') →
  ∃ i job, uuid_in rid = Some i ∧ uuid_in tenantID = Some (queue_TenantID job) ∧
    uuid_in u = Some (queue_ActorUserID job) ∧
    uuid_in connectionID = Some (queue_ConnectionID job) ∧
    access_queue db !! i = None ∧ db' = set_queue (<[i := job]> (access_queue db)) db.
Proof.
  unfold sql_enqueue, cast. intros Hr. result_inv Hr. injection Hr as _ <-.
  do 2 eexists. split_and!; [done| | | | |reflexivity]; cbn; try done.
  by destruct (access_queue db !! _).
Qed.

(** A request for a refresh adds a pending refresh and its job, or nothing. *)
Lemma EnqueueCatalogRefresh_cases ctx id u tenantID connectionID key reason now db ev r db' :
  run (EnqueueCatalogRefresh ctx id u tenantID connectionID key reason now) db ev = (r, db') →
  db' = db ∨ ∃ t i row job, uuid_in tenantID = Some t ∧
    access_refreshes db !! (t, i) = None ∧ access_queue db !! i = None ∧
    refresh_Status row = CatalogRefreshPending ∧ queue_TenantID job = t ∧
    queue_ConnectionID job = refresh_ConnectionID row ∧
    queue_ActorUserID job = refresh_ActorUserID row ∧
    db' = set_queue (<[i := job]> (access_queue db))
            (set_refreshes (<[(t, i) := row]> (access_refreshes db)) db).
Proof.
  destruct r as [res|e]; [|intros Hr; left; apply run_Err in Hr; [done|]].
  2:{ unfold EnqueueCatalogRefresh, beginUserTenant. apply _. }
  intros (s' & Hr & ->)%run_Ok. unfold EnqueueCatalogRefresh, beginUserTenant in Hr.
  apply tx_bind_Ok in Hr as (u0 & s1 & (_ & Hdb1 & _ & _ & _)%Begin_Ok & Hr). cbn in Hdb1.
  apply tx_bind_Ok in Hr as (rid & s2 & [Hid%from_option_err_Ok ->]%lift_Ok & Hr).
  apply tx_bind_Ok in Hr as (n & s3 & (E3 & _ & _ & _)%mapped_exec_Ok & Hr).
  apply sql_insert_refresh_Ok in E3 as [[-> Hdb3]|(-> & t & i & row & Ht & Hi & Hu & Hc & Hst &
    Hnone & Hdb3)]; cbn in Hr; apply tx_bind_Ok in Hr as (x & s4 & Hq & Hr);
    apply tx_bind_Ok in Hr as (x' & s5 & (Hcom & _ & _)%commit_Ok & [-> ->]%ret_Ok);
    rewrite Hcom; cbn [default]; unfold Datatypes.id.
  - left. unfold mapped in Hq. apply map_err_Ok, query_Ok in Hq as [_ (Hdb4 & _)]. congruence.
  - right. apply mapped_exec_Ok in Hq as (Hq & _ & _ & _).
    apply sql_enqueue_Ok in Hq as (i' & job & Hi' & Htj & Huj & Hcj & Hqn & Hdb4).
    rewrite Hdb1 in Hdb3, Hnone. rewrite Hdb3 in Hqn, Hdb4. cbn in Hqn, Hdb4.
    exists t, i, row, job. assert (i' = i) as -> by congruence.
    split_and!; try congruence.
Qed.

End Offerings.
