(* ===== verification/AccessSystem.v ===== *)
(** * Model access: the steps of the service and its invariant

    The transactions of the service as steps on its tables ([access_step]), the invariant of
    what they reach ([access_ok]) and the use cases as sequences of steps. *)

From stdpp Require Import strings gmap fin_maps list sorting relations.
From Stdlib Require Import String Lia.
From S2P Require Import Prelude GoStrings Postgres Usecase Outbox.
From S2P Require Import AccessStore AccessRepository AccessCatalog AccessService.
From S2P Require Import AccessBindings AccessOfferings.
Open Scope string_scope.
Open Scope list_scope.
Open Scope Z_scope.

Section System.
Context `{Platform, !PlatformLaws, Proto}.
Implicit Types (db : access_tables).

(** What the use case checks of a binding that comes from the wire, where an empty list of
    fallbacks is a nil slice. *)
Definition wire_terms (params : SetBindingParams) : Prop :=
  setBinding_FallbackOfferingIDs params ≠ Some [] ∧
  (slice_elems (setBinding_FallbackOfferingIDs params) ≠ [] →
   setBinding_FallbackPolicy params = FallbackPolicyOrdered).

(** A transaction of the service, in an environment that may make it fail anywhere, or a
    change that leaves alone all but the connections, their credentials and the outbox; no
    connection goes away. *)
Inductive access_step : relation access_tables :=
| step_enqueue ctx id u t c k reason now db ev :
    access_step db (run (EnqueueCatalogRefresh ctx id u t c k reason now) db ev).2
| step_apply ctx ids params db ev :
    access_step db (run (ApplyCatalogRefresh ctx ids params) db ev).2
| step_fail ctx rid t u code now db ev :
    access_step db (run (FailCatalogRefresh ctx rid t u code now) db ev).2
| step_mark ctx u t c now db ev :
    access_step db (run (MarkConnectionOfferingsUnavailable ctx u t c now) db ev).2
| step_claim limit lease locked db ev :
    access_step db (run (ClaimCatalogRefresh limit lease locked) db ev).2
| step_release rid retryAt message db ev :
    access_step db (run (ReleaseCatalogRefresh rid retryAt message) db ev).2
| step_set ctx params db ev : wire_terms params →
    access_step db (run (SetAgentBinding ctx params) db ev).2
| step_remove ctx params db ev :
    access_step db (run (RemoveAgentBinding ctx params) db ev).2
| step_other connections credentials outbox db :
    (∀ k, is_Some (access_connections db !! k) → is_Some (connections !! k)) →
    access_step db {|
      access_connections := connections; access_credentials := credentials;
      access_states := access_states db; access_offerings := access_offerings db;
      access_refreshes := access_refreshes db; access_queue := access_queue db;
      access_bindings := access_bindings db; access_fallbacks := access_fallbacks db;
      access_revisions := access_revisions db; access_answers := access_answers db;
      access_outbox := outbox |}.

Definition access_reachable db : Prop := rtc access_step no_access_tables db.

(** ** Bindings *)

(** A binding of agent [a]: its revision and its fallbacks, and what it names. *)
Record bound db (t a : string) (row : AgentModelBinding) (os : list string)
    (rev : binding_revision) : Prop := {
  bound_revision : access_revisions db !! (t, a, binding_Version row) = Some rev;
  bound_recorded : recorded row os (brev_ChangeKind rev) rev;
  bound_fallbacks : fallbacks_are (access_fallbacks db) t a os;
  bound_some : os ≠ [] ∧ NoDup os ∧ (List.length os ≤ 5)%nat;
  bound_offered : offered db t (binding_PrimaryOfferingID row) ∧ Forall (offered db t) os ∧
    ∀ f, binding_FastOfferingID row = Some f → offered db t f;
  bound_terms : binding_Status row = BindingStatusActive ∧
    binding_FallbackPolicy row = FallbackPolicyOrdered ∧
    binding_FallbackOfferingIDs row = None;
  bound_version : 1 ≤ binding_Version row ≤ int64_max;
  bound_canonical : canonical (binding_PrimaryOfferingID row) ∧ Forall canonical os ∧
    ∀ f, binding_FastOfferingID row = Some f → canonical f;
}.

Record bindings_ok db : Prop := {
  ok_bound : ∀ t a row, access_bindings db !! (t, a) = Some row → ∃ os rev, bound db t a row os rev;
  ok_history : ∀ t a v, is_Some (access_revisions db !! (t, a, v)) ↔
    ∃ row, access_bindings db !! (t, a) = Some row ∧ 1 ≤ v ≤ binding_Version row;
  ok_answers : ∀ t u op k answer, access_answers db !! (t, u, op, k) = Some answer →
    op = "set_agent_model_binding" ∧
    slice_elems (binding_FallbackOfferingIDs (answer_Snapshot answer)) ≠ [];
}.

(** Changes of the catalog keep what the bindings say, and every offering. *)
Definition keeps_bindings db db' : Prop :=
  same_binding_rows db db' ∧ ∀ t o, offered db t o → offered db' t o.

Lemma bound_kept db db' t a row os rev :
  keeps_bindings db db' → bound db t a row os rev → bound db' t a row os rev.
Proof.
  intros [(Hb & Hf & Hv & Ha) Ho] []. split; try done.
  - by rewrite Hv.
  - by rewrite Hf.
  - destruct bound_offered0 as (? & ? & ?). split_and!; [auto| |auto].
    eapply Forall_impl; [done|]. auto.
Qed.

Lemma bindings_ok_kept db db' : keeps_bindings db db' → bindings_ok db → bindings_ok db'.
Proof.
  intros Hk [Hbo Hh Hans]. pose proof Hk as [(Hb & Hf & Hv & Ha) _]. split.
  - intros t a row. rewrite Hb. intros (os & rev & ?)%Hbo. exists os, rev. by eapply bound_kept.
  - intros t a v. by rewrite Hb, Hv.
  - intros t u op k answer. rewrite Ha. apply Hans.
Qed.

(** The version that follows is one more, for it is positive. *)
Lemma next_version existing expected v :
  nextBindingVersion existing expected = Ok v → 0 < v →
  (∀ b, existing = Some b → 1 ≤ binding_Version b ≤ int64_max) →
  1 ≤ v ≤ int64_max ∧ v = from_option binding_Version 0 existing + 1.
Proof.
  unfold nextBindingVersion. destruct existing as [b|]; intros Hn Hv Hb; result_inv Hn;
    injection Hn as <-; cbn.
  - specialize (Hb b eq_refl). pose proof (int64_wrap_range (binding_Version b + 1)) as Hr.
    fold (int64_incr (binding_Version b)) in Hr.
    rewrite int64_incr_pos in * by (unfold int64_min, int64_max in *; lia). lia.
  - split; [|done]. unfold int64_max. lia.
Qed.

Lemma offered_same db db' t o : same_catalog db db' → offered db t o → offered db' t o.
Proof. intros (_ & _ & _ & Ho & _). unfold offered. by rewrite Ho. Qed.

Lemma uuids_canonical l os : Forall2 (λ s u, uuid_in s = Some u) l os → Forall canonical os.
Proof. induction 1; constructor; [by eapply access_cast_canonical|done]. Qed.

(** The binding that was set. *)
Lemma set_bound params b db db' t a row os rev :
  set_effect params b db db' t a row os rev → wire_terms params → bindings_ok db →
  bound db' t a row os rev ∧
  binding_Version row = from_option binding_Version 0 (access_bindings db !! (t, a)) + 1.
Proof.
  intros Hset [Hnil Hpol] Hok. destruct Hset as [Ht Ha Hv Hb Hw Hp Hf (ids & Hids & Hos)
    (Hnd & Hlen & Hoff) Hrows Hl Hls Hrec Hfr Hhist _ Hcat].
  pose proof Hw as [_ Hwp Hwf Hwpol _ Hwv Hpos Hact Hslice].
  assert (ids ≠ []) as Hne by congruence.
  eapply next_version in Hv as [Hr Hv]; [|by rewrite <-Hwv|].
  2:{ intros old (os' & rev' & Hold)%(ok_bound _ Hok). apply Hold. }
  rewrite Hwv. split; [|done]. split.
  - rewrite Hhist, Hwv. apply lookup_insert_eq.
  - by rewrite (recorded_kind _ _ _ _ Hrec).
  - done.
  - split_and!; [|done|done]. intros ->. by inversion Hos; subst.
  - split_and!; [by eapply offered_same| |].
    + eapply Forall_impl; [exact Hoff|]. intros o. by apply offered_same.
    + intros f Hrf. eapply offered_same; [done|auto].
  - split_and!; [done| |done]. rewrite Hwpol, Hb. cbn. apply Hpol. by rewrite Hids.
  - by rewrite Hwv.
  - split_and!.
    + by eapply access_cast_canonical.
    + by eapply uuids_canonical.
    + intros f Hrf. rewrite Hrf in Hwf. inversion Hwf; subst. by eapply access_cast_canonical.
Qed.

(** A binding of another agent is as it was. *)
Lemma set_other params b db db' t a row os rev t' a' row' os' rev' :
  set_effect params b db db' t a row os rev → (t', a') ≠ (t, a) →
  bound db t' a' row' os' rev' → bound db' t' a' row' os' rev'.
Proof.
  intros Hset Hne Hb. pose proof (set_catalog_same _ _ _ _ _ _ _ _ _ Hset) as Hcat.
  destruct Hb. split; try done.
  - by rewrite (set_history _ _ _ _ _ _ _ _ _ Hset), lookup_insert_ne by congruence.
  - by apply (set_lists _ _ _ _ _ _ _ _ _ Hset).
  - destruct bound_offered0 as (? & ? & ?).
    split_and!; [by eapply offered_same| |intros f Hf; eapply offered_same; [done|auto]].
    eapply Forall_impl; [done|]. intros o. by apply offered_same.
Qed.

Lemma set_preserves ctx params db ev :
  wire_terms params → bindings_ok db → bindings_ok (run (SetAgentBinding ctx params) db ev).2.
Proof.
  intros Hwire Hok. destruct (run _ _ _) as [r db'] eqn:Hr.
  apply SetAgentBinding_cases in Hr. destruct r as [b|e]; cbn; [|by subst].
  destruct Hr as [[-> _]|(t & a & row & os & rev & Hset)]; [done|].
  pose proof (set_bound _ _ _ _ _ _ _ _ _ Hset Hwire Hok) as [Hbound Hver].
  pose proof (written_version _ _ (set_written _ _ _ _ _ _ _ _ _ Hset)) as Hwv. split.
  - intros t' a' row'. rewrite (set_rows _ _ _ _ _ _ _ _ _ Hset).
    intros [[[= <- <-] <-]|[Hne Hrow]]%lookup_insert_Some; [by exists os, rev|].
    apply (ok_bound _ Hok) in Hrow as (os' & rev' & Hb'). exists os', rev'.
    eapply set_other; [exact Hset|congruence|done].
  - intros t' a' v. rewrite (set_rows _ _ _ _ _ _ _ _ _ Hset),
      (set_history _ _ _ _ _ _ _ _ _ Hset), <-Hwv.
    destruct (decide ((t', a') = (t, a))) as [[= -> ->]|Hne].
    + rewrite lookup_insert_eq.
      destruct (decide (v = binding_Version row)) as [->|Hv].
      * rewrite lookup_insert_eq. split; [|by eexists]. intros _. exists row.
        split; [done|]. pose proof (bound_version _ _ _ _ _ _ Hbound). lia.
      * rewrite lookup_insert_ne by congruence. rewrite (ok_history _ Hok).
        destruct (access_bindings db !! (t, a)) as [old|]; cbn in Hver.
        -- split; intros (x & [= <-] & Hx); eexists; (split; [done|lia]).
        -- split; intros (x & Hx & Hx2); [done|]. injection Hx as <-. lia.
    + rewrite !lookup_insert_ne by congruence. apply (ok_history _ Hok).
  - intros t' u op k answer.
    destruct (set_answer _ _ _ _ _ _ _ _ _ Hset) as (t1 & u1 & k1 & ans & -> & Hs).
    intros [[[= <- <- <- <-] <-]|[_ Hin]]%lookup_insert_Some; [|by eapply (ok_answers _ Hok)].
    split; [done|]. rewrite Hs, (set_result _ _ _ _ _ _ _ _ _ Hset). cbn.
    destruct (set_slice _ _ _ _ _ _ _ _ _ Hset) as (ids & Hids & _). rewrite Hids.
    destruct Hwire as [Hnil _]. rewrite Hids in Hnil. cbn. destruct ids; cbn; congruence.
Qed.

Lemma remove_preserves ctx params db ev :
  bindings_ok db → run (RemoveAgentBinding ctx params) db ev =
    ((run (RemoveAgentBinding ctx params) db ev).1, db) ∧
  ∀ b, (run (RemoveAgentBinding ctx params) db ev).1 ≠ Ok b.
Proof.
  intros Hok. destruct (run _ _ _) as [r db'] eqn:Hr.
  apply RemoveAgentBinding_cases in Hr as [-> Hb]; cbn.
  - split; [done|]. intros b ->. destruct (Hb b eq_refl) as (t & u & k & ans & Hans & _).
    by apply (ok_answers _ Hok) in Hans as [? _].
  - intros [t a] row (os & rev & Hb)%(ok_bound _ Hok). apply Hb.
Qed.

(** ** Jobs *)

(** The queue holds the pending refreshes, and nothing else. *)
Record jobs_ok db : Prop := {
  job_refresh : ∀ i job, access_queue db !! i = Some job → ∃ c,
    access_refreshes db !! (queue_TenantID job, i) = Some c ∧
    refresh_Status c = CatalogRefreshPending ∧
    refresh_ConnectionID c = queue_ConnectionID job ∧
    refresh_ActorUserID c = queue_ActorUserID job;
  refresh_job : ∀ t i c, access_refreshes db !! (t, i) = Some c →
    refresh_Status c = CatalogRefreshPending →
    ∃ job, access_queue db !! i = Some job ∧ queue_TenantID job = t;
}.

Lemma jobs_ok_eq db db' :
  access_refreshes db' = access_refreshes db → access_queue db' = access_queue db →
  jobs_ok db → jobs_ok db'.
Proof.
  intros Hr Hq [Hj Hp]. split; [intros i job|intros t i c]; rewrite Hr, Hq; [apply Hj|apply Hp].
Qed.

(** Claiming and releasing change no job but for its times, attempts and last error. *)
Definition same_jobs db db' : Prop :=
  access_refreshes db' = access_refreshes db ∧
  ∀ i, (λ job, (queue_TenantID job, queue_ConnectionID job, queue_ActorUserID job)) <$>
         access_queue db' !! i =
       (λ job, (queue_TenantID job, queue_ConnectionID job, queue_ActorUserID job)) <$>
         access_queue db !! i.

Lemma same_jobs_ok db db' : same_jobs db db' → jobs_ok db → jobs_ok db'.
Proof.
  intros [Hr Hq] [Hj Hp]. split.
  - intros i job Hi. specialize (Hq i). rewrite Hi in Hq. symmetry in Hq.
    apply fmap_Some in Hq as (job0 & Hi0 & [= -> -> ->]). rewrite Hr. by apply Hj.
  - intros t i c. rewrite Hr. intros Hc Hs. destruct (Hp t i c Hc Hs) as (job0 & Hi0 & Ht).
    specialize (Hq i). rewrite Hi0 in Hq. apply fmap_Some in Hq as (job & Hi & [= Ht' _ _]).
    exists job. split; [done|congruence].
Qed.

Lemma finished_jobs change t i db db' :
  (∀ c, refresh_Status (change c) ≠ CatalogRefreshPending) →
  access_refreshes db' = alter change (t, i) (access_refreshes db) →
  access_queue db' = dequeued t i (access_queue db) → jobs_ok db → jobs_ok db'.
Proof.
  intros Hch Hr Hq [Hj Hp]. split.
  - intros j job. rewrite Hq, Hr. unfold dequeued.
    destruct (access_queue db !! i) as [row|] eqn:Hrow.
    + destruct (String.eqb_spec (queue_TenantID row) t) as [Ht|Ht].
      * intros [Hne Hin]%lookup_delete_Some. rewrite lookup_alter_ne by congruence. by apply Hj.
      * intros Hin. rewrite lookup_alter_ne; [by apply Hj|]. intros [= -> ->]. simplify_eq.
    + intros Hin. rewrite lookup_alter_ne; [by apply Hj|]. congruence.
  - intros t' j c. rewrite Hr, Hq. intros [(Heq & c0 & Hc0 & ->)|[Hne Hc]]%lookup_alter_Some Hs.
    { by apply Hch in Hs. }
    destruct (Hp t' j c Hc Hs) as (job & Hjob & Ht). exists job. split; [|done].
    unfold dequeued. destruct (access_queue db !! i) as [row|] eqn:Hrow; [|done].
    destruct (String.eqb_spec (queue_TenantID row) t) as [Ht2|_]; [|done].
    rewrite lookup_delete_ne; [done|]. intros ->. rewrite Hrow in Hjob. congruence.
Qed.

Lemma enqueued_jobs t i row job db db' :
  access_refreshes db !! (t, i) = None → access_queue db !! i = None →
  refresh_Status row = CatalogRefreshPending → queue_TenantID job = t →
  queue_ConnectionID job = refresh_ConnectionID row →
  queue_ActorUserID job = refresh_ActorUserID row →
  access_refreshes db' = <[(t, i) := row]> (access_refreshes db) →
  access_queue db' = <[i := job]> (access_queue db) → jobs_ok db → jobs_ok db'.
Proof.
  intros Hn Hqn Hst Ht Hc Hu Hr Hq [Hj Hp]. split.
  - intros j job'. rewrite Hr, Hq. intros [[<- <-]|[Hne Hin]]%lookup_insert_Some.
    + exists row. rewrite Ht, lookup_insert_eq. done.
    + rewrite lookup_insert_ne by congruence. by apply Hj.
  - intros t' j c. rewrite Hr, Hq. intros [[[= <- <-] <-]|[Hne Hin]]%lookup_insert_Some Hs.
    + exists job. by rewrite lookup_insert_eq.
    + destruct (Hp t' j c Hin Hs) as (job' & Hjob & Ht').
      exists job'. rewrite lookup_insert_ne; [done|]. intros ->. congruence.
Qed.

(** ** Statements on the pool *)

Lemma run_pool {A} (f : Z → access_tables → result db_error (A * access_tables)) db ev :
  (run (pool f) db ev).2 = db ∨
  ∃ a, f (env_clock ev) db = Ok (a, (run (pool f) db ev).2).
Proof.
  unfold run, pool. cbn. destruct (env_budget ev) as [[|n]|]; cbn; [by left|..];
    destruct (f (env_clock ev) db) as [[a db']|e]; cbn; eauto.
Qed.

Lemma claim_same_jobs limit lease locked clock db :
  same_jobs db (sql_claim_refreshes limit lease locked clock db).2.
Proof.
  split; [done|]. intros i. unfold sql_claim_refreshes. cbn.
  rewrite lookup_union. set (claimed := prod_map id (queue_claimed clock) <$> _).
  destruct (list_to_map claimed !! i) as [job|] eqn:Hl.
  - assert (∃ row, access_queue db !! i = Some row ∧ job = queue_claimed clock row)
      as (row & -> & ->); [|done].
    apply elem_of_list_to_map_2 in Hl. unfold claimed in Hl.
    apply list_elem_of_fmap in Hl as ([i' row] & [= -> ->] & Hin). exists row. split; [|done].
    unfold queue_candidates in Hin. apply elem_of_take in Hin as (n & Hin & _).
    apply list_elem_of_lookup_2 in Hin. apply elem_of_filter_b in Hin as [Hin _].
    rewrite merge_sort_Permutation in Hin. by apply elem_of_map_to_list.
  - by destruct (access_queue db !! i).
Qed.

Lemma release_same_jobs i retryAt message db :
  same_jobs db (set_queue (alter (queue_released retryAt message) i (access_queue db)) db).
Proof.
  split; [done|]. intros j. cbn. destruct (decide (i = j)) as [->|Hne].
  - rewrite lookup_alter_eq. by destruct (access_queue db !! j).
  - by rewrite lookup_alter_ne.
Qed.

(** ** The invariant *)

Record access_ok db : Prop := {
  access_keyed : keyed (access_offerings db);
  access_bound : bindings_ok db;
  access_jobs : jobs_ok db;
}.

Lemma no_access_tables_ok : access_ok no_access_tables.
Proof.
  split.
  - by split.
  - split; [done| |done]. intros t a v. split; [by intros [? ?]|]. by intros (? & ? & _).
  - by split.
Qed.

Lemma same_catalog_ok db db' :
  same_catalog db db' → bindings_ok db' → access_ok db → access_ok db'.
Proof.
  intros (_ & _ & _ & Ho & Hr & Hq) Hb' [Hk _ Hj]. split; [by rewrite Ho|done|].
  by eapply jobs_ok_eq.
Qed.

(** Rows that keep their keys are offered still. *)
Lemma offered_kept db db' t o :
  (∀ k old, access_offerings db !! k = Some old → ∃ row, access_offerings db' !! k = Some row ∧
     same_identity old row) → offered db t o → offered db' t o.
Proof. intros Hk [old Ho]. apply Hk in Ho as (row & ? & _). by exists row. Qed.

Lemma apply_offerings params r db db' t c m k old :
  apply_effect params r db db' t c m → access_offerings db !! k = Some old →
  ∃ row, access_offerings db' !! k = Some row ∧ same_identity old row.
Proof.
  intros He Hold.
  destruct (refreshed_old _ _ _ _ _ (apply_refreshed _ _ _ _ _ _ _ He) _ _ Hold)
    as (row1 & Hrow1 & Hs1 & _).
  destruct (withdrawn_old _ _ _ _ _ (withdrawn_map t c (missing (apply_Discovered params))
    (apply_RefreshedAt params) m) _ _ Hrow1) as (row2 & Hrow2 & Hs2 & _).
  exists row2. rewrite (apply_withdrawn _ _ _ _ _ _ _ He). split; [done|by etrans].
Qed.

Lemma apply_preserves ctx ids params db ev :
  access_ok db → access_ok (run (ApplyCatalogRefresh ctx ids params) db ev).2.
Proof.
  intros [Hk Hb Hj]. destruct (run _ _ _) as [r db'] eqn:Hr.
  apply ApplyCatalogRefresh_cases in Hr; [|done]. destruct r as [r|e]; cbn; [|by subst].
  destruct Hr as (t & c & m & He). split.
  - rewrite (apply_withdrawn _ _ _ _ _ _ _ He). apply (withdrawn_keyed _ _ _ _ _
      (withdrawn_map _ _ _ _ _)), (refreshed_keyed _ _ _ _ _ (apply_refreshed _ _ _ _ _ _ _ He)).
  - eapply bindings_ok_kept; [|done]. split; [apply He|]. intros t' o. apply offered_kept.
    intros k old. by eapply apply_offerings.
  - destruct (apply_job _ _ _ _ _ _ _ He) as [(_ & Hr & Hq)|(i & _ & Hr & Hq)].
    + by eapply jobs_ok_eq.
    + by eapply finished_jobs; [|exact Hr|exact Hq|].
Qed.

Lemma mark_preserves ctx u tenantID connectionID now db ev :
  access_ok db →
  access_ok (run (MarkConnectionOfferingsUnavailable ctx u tenantID connectionID now) db ev).2.
Proof.
  intros [Hk Hb Hj]. destruct (run _ _ _) as [r db'] eqn:Hr. cbn.
  apply MarkConnectionOfferingsUnavailable_cases in Hr as [->|(t & c & ->)]; [done|]. split.
  - by apply (withdrawn_keyed _ _ _ _ _ (withdrawn_map _ _ _ _ _)).
  - eapply bindings_ok_kept; [|done]. split; [done|]. intros t' o. apply offered_kept.
    intros k old Hold. cbn. rewrite lookup_fmap, Hold. eexists. split; [done|].
    apply withdraw_identity.
  - by destruct Hj.
Qed.

Lemma fail_preserves ctx rid tenantID u code now db ev :
  access_ok db → access_ok (run (FailCatalogRefresh ctx rid tenantID u code now) db ev).2.
Proof.
  intros [Hk Hb Hj]. destruct (run _ _ _) as [r db'] eqn:Hr. cbn.
  apply FailCatalogRefresh_cases in Hr as [->|(t & i & _ & _ & ->)]; [done|]. split; [done| |].
  - by apply (bindings_ok_kept db); [split|].
  - by apply (finished_jobs (refresh_failed code now) t i db).
Qed.

Lemma enqueue_preserves ctx id u t c k reason now db ev :
  access_ok db → access_ok (run (EnqueueCatalogRefresh ctx id u t c k reason now) db ev).2.
Proof.
  intros [Hk Hb Hj]. destruct (run _ _ _) as [r db'] eqn:Hr. cbn.
  apply EnqueueCatalogRefresh_cases in Hr as [->|(t' & i & row & job & _ & Hn & Hqn & Hst & Ht &
    Hc & Hu & ->)]; [done|]. split; [done| |].
  - by apply (bindings_ok_kept db); [split|].
  - by eapply (enqueued_jobs t' i row job).
Qed.

Lemma pool_preserves {A} (f : Z → access_tables → result db_error (A * access_tables)) db ev :
  (∀ clock a db', f clock db = Ok (a, db') → ∃ v, db' = set_queue v db ∧ same_jobs db db') →
  access_ok db → access_ok (run (pool f) db ev).2.
Proof.
  intros Hf Hok. destruct (run_pool f db ev) as [->|[a Ha]]; [done|].
  apply Hf in Ha as (v & Hv & Hs). destruct Hok as [Hk Hb Hj]. split.
  - by rewrite Hv.
  - rewrite Hv. by apply (bindings_ok_kept db); [split|].
  - by eapply same_jobs_ok.
Qed.

Lemma access_step_ok db db' : access_step db db' → access_ok db → access_ok db'.
Proof.
  intros Hstep Hok. destruct Hstep.
  - by apply enqueue_preserves.
  - by apply apply_preserves.
  - by apply fail_preserves.
  - by apply mark_preserves.
  - apply pool_preserves; [|done]. intros clock a db' [= <- <-]. eexists.
    split; [done|]. apply claim_same_jobs.
  - apply pool_preserves; [|done]. intros clock a db' Hr. apply result_bind_Ok in Hr
      as (i & _ & [= <- <-]). eexists. split; [done|]. apply release_same_jobs.
  - destruct Hok as [Hk Hb Hj]. pose proof (set_preserves ctx params db ev) as Hs.
    destruct (run _ _ _) as [r db'] eqn:Hr. cbn in *.
    apply SetAgentBinding_cases in Hr. destruct r as [b|e]; [|by subst].
    destruct Hr as [[-> _]|(t & a & row & os & rev & Hset)]; [done|].
    eapply same_catalog_ok; [by eapply set_catalog_same|auto|done].
  - destruct (remove_preserves ctx params db ev) as [-> _]; [apply Hok|]. done.
  - destruct Hok as [Hk Hb [Hj Hp]]. split; [done| |by split].
    by apply (bindings_ok_kept db); [split|].
Qed.

Lemma reachable_access_ok db : access_reachable db → access_ok db.
Proof.
  intros Hr. assert (access_ok no_access_tables → access_ok db) as Hok.
  { unfold access_reachable in Hr. induction Hr as [|x y z Hs _ IH]; [done|].
    intros Hx. by apply IH, (access_step_ok x). }
  apply Hok, no_access_tables_ok.
Qed.

End System.
