(* ===== verification/AccessProperties.v ===== *)
(** * Model access: properties

    The history of bindings, the plans that the model gateway is given, what a refresh of a
    catalog leaves, and the jobs of the catalog worker. *)

From stdpp Require Import strings gmap fin_maps list sorting relations.
From Stdlib Require Import String Lia.
From S2P Require Import Prelude GoStrings Postgres Usecase Outbox.
From S2P Require TenantDomain.
From S2P Require Import AccessStore AccessRepository AccessCatalog AccessService.
From S2P Require Import AccessBindings AccessOfferings AccessSystem.
Open Scope string_scope.
Open Scope list_scope.
Open Scope Z_scope.

#[local] Notation app := (Usecase.app access_tables error).
#[local] Notation world := (Usecase.world access_tables).

Section Properties.
Context `{Platform, !PlatformLaws, AccessProto, Fingerprints}.
Context (service : Service).
Implicit Types (db : access_tables) (w : world).

(** ** The use cases are sequences of steps *)

#[local] Notation steps := (rtc access_step).
#[local] Instance steps_preorder : PreOrder steps := _.

Lemma readonly_reads {A} (m : repo A) db ev : readonly m → steps db (run m db ev).2.
Proof. intros Hm. by rewrite run_readonly. Qed.

#[local] Instance readonly_mapped {A} (m : repo A) : readonly m → readonly (mapped m).
Proof. apply _. Qed.
#[local] Instance readonly_find_row {A} (q : Scope → access_tables → result db_error A) :
  readonly (find_row q : repo (option A)).
Proof. apply _. Qed.
#[local] Instance readonly_fetchRoute t o : readonly (fetchRoute t o).
Proof. apply _. Qed.
#[local] Instance readonly_fetchRoutes t os : readonly (fetchRoutes t os).
Proof. induction os; cbn; apply _. Qed.
#[local] Instance readonly_ResolveInferencePlan t a now : readonly (ResolveInferencePlan t a now).
Proof.
  unfold ResolveInferencePlan. do 6 (apply along_bind; [apply _|intros ?]).
  apply along_bind; [repeat case_match; apply _|intros ?]. apply _.
Qed.

Lemma resolve_readonly t a now db ev : (run (ResolveInferencePlan t a now) db ev).2 = db.
Proof. apply run_readonly, _. Qed.

(** A request from the wire that passed its checks. *)
Lemma request_wire_terms request ctx companyID hash now id u :
  bindingTerms (set_input request) = Ok u →
  wire_terms (setBindingParams service ctx (set_input request) companyID hash now id).
Proof.
  unfold wire_terms, bindingTerms, fallbackOfferings. cbn. intros Hterms.
  destruct (setReq_FallbackOfferingIds request) as [|o os]; cbn in *; [done|].
  split; [done|]. intros _. result_inv Hterms.
  unfold DomainFallbackPolicy in *. destruct (String.eqb _ FallbackPolicyOrdered); [done|].
  cbn in *. by result_inv Hterms.
Qed.

(** A use case in a world whose other actors take steps, too. *)
Definition steady w : Prop := ∀ n db, steps db (world_interfere w n db).

Section Steady.
Context (w : world) (Hw : steady w).
#[local] Notation safe := (Usecase.safe steps w).

Lemma safe_read_call {A} (m : repo A) : readonly m → safe (call m).
Proof. intros Hm. apply safe_read; try done. apply _. Qed.

Lemma safe_step_call {A} (m : repo A) :
  (∀ db ev, access_step db (run m db ev).2) → safe (call m).
Proof. intros Hm. apply safe_call; [apply _|done|]. intros db ev. apply rtc_once, Hm. Qed.

Lemma safe_step_try {A} (m : repo A) :
  (∀ db ev, access_step db (run m db ev).2) → safe (try_call m).
Proof. intros Hm. apply safe_try_call; [apply _|done|]. intros db ev. apply rtc_once, Hm. Qed.

Lemma safe_requireOfferings ctx u t ids : safe (requireOfferings ctx u t ids).
Proof.
  induction ids as [|i ids IH]; cbn; [by apply safe_ret; apply _|].
  apply safe_bind; [apply _|apply safe_read_call, _|intros o].
  apply safe_bind; [apply _|apply safe_pure; apply _|done].
Qed.

Lemma safe_set ctx request : safe (Server_SetAgentModelBinding service ctx request).
Proof.
  unfold Server_SetAgentModelBinding, SetAgentModelBinding. cbv zeta.
  apply safe_bind; [apply _|apply safe_pure; apply _|intros _].
  apply safe_bind; [apply _|apply safe_pure; apply _|intros agent].
  apply safe_bind; [apply _|apply safe_requireOfferings|intros _].
  apply safe_bind_pure; [apply _|intros u Hterms].
  apply safe_bind; [apply _|apply safe_pure; apply _|intros hash].
  apply safe_bind_pure; [apply _|intros params [= <-]].
  apply safe_step_call. intros db ev. by eapply step_set, request_wire_terms.
Qed.

Lemma safe_remove ctx input : safe (RemoveAgentModelBinding service ctx input).
Proof.
  unfold RemoveAgentModelBinding. cbv zeta.
  apply safe_bind; [apply _|apply safe_pure; apply _|intros _].
  apply safe_bind; [apply _|apply safe_pure; apply _|intros hash].
  apply safe_bind; [apply _|apply safe_pure; apply _|intros params].
  apply safe_step_call. intros. apply step_remove.
Qed.

Lemma safe_refresh ctx input : safe (RefreshModelCatalog service ctx input).
Proof.
  unfold RefreshModelCatalog. cbv zeta.
  apply safe_bind; [apply _|apply safe_pure; apply _|intros _].
  apply safe_bind; [apply _|apply safe_read_call, _|intros connection].
  apply safe_bind; [apply _|apply safe_pure; apply _|intros _].
  apply safe_bind; [apply _|apply safe_pure; apply _|intros given].
  apply safe_step_call. intros. apply step_enqueue.
Qed.

Lemma safe_now : safe now_reading.
Proof. intros s. cbn. reflexivity. Qed.

Lemma safe_discoverProvider ctx job connection : safe (discoverProvider service ctx job connection).
Proof.
  unfold discoverProvider. case_match; [|by apply safe_ret; apply _].
  apply safe_bind; [apply _|apply safe_read_call, _|intros credential].
  case_match; [by apply safe_ret; apply _|].
  apply safe_bind; [apply _|apply safe_pure; apply _|intros secret].
  apply safe_ret; apply _.
Qed.

Lemma safe_execute ctx job : safe (ExecuteCatalogRefresh service ctx job).
Proof.
  unfold ExecuteCatalogRefresh. cbv zeta.
  assert (∀ code now, safe (call (FailCatalogRefresh ctx (job_RefreshID job) (job_TenantID job)
    (job_ActorUserID job) code now))) as Hfail.
  { intros. apply safe_step_call. intros. apply step_fail. }
  apply safe_bind; [apply _|apply safe_read_call, _|intros connection].
  apply safe_bind; [apply _|apply safe_now|intros now]. case_match.
  - apply safe_bind; [apply _| |done]. apply safe_step_try. intros. apply step_mark.
  - apply safe_bind; [apply _| |intros [code|[source models]]]; [|done|].
    + case_match; [apply safe_ret; apply _|apply safe_discoverProvider].
    + apply safe_bind; [apply _|intros s; cbn; reflexivity|intros ids].
      apply safe_bind; [apply _| |intros _; apply safe_ret; apply _].
      apply safe_step_call. intros. apply step_apply.
Qed.

Lemma safe_executeJob config text ctx job : safe (executeJob service config text ctx job).
Proof.
  intros s. unfold executeJob. pose proof (safe_execute ctx job s) as He.
  destruct (ExecuteCatalogRefresh _ _ _ _ _) as [[u|e] s'] eqn:Hx; cbn in He; [done|].
  etrans; [exact He|]. apply safe_bind; [apply _|apply safe_now|intros now].
  apply safe_bind; [apply _| |intros _; apply safe_ret; apply _].
  apply safe_step_try. intros. apply step_release.
Qed.

Lemma safe_executeJobs config text ctx jobs : safe (executeJobs service config text ctx jobs).
Proof.
  induction jobs as [|job jobs IH]; cbn; [apply safe_ret; apply _|].
  apply safe_bind; [apply _|apply safe_executeJob|done].
Qed.

Lemma safe_batch config text locked ctx : safe (processBatch service config text locked ctx).
Proof.
  unfold processBatch. apply safe_bind; [apply _| |intros [jobs|e]].
  - apply safe_step_try. intros. apply step_claim.
  - apply safe_executeJobs.
  - apply safe_ret; apply _.
Qed.

Lemma safe_checked_read {A B} (f : world → result error B) (m : B → repo A) :
  (∀ b, readonly (m b)) → safe (pure f ≫= λ b, call (m b)).
Proof.
  intros Hm. apply safe_bind; [apply _|apply safe_pure; apply _|intros b].
  by apply safe_read_call.
Qed.

End Steady.

(** A call of the service, of its worker or of the resolver for the model gateway. *)
Inductive access_call :=
| CallGetAgentModelBinding (ctx : Ctx) (actorUserID tenantID agentID : string)
| CallSetAgentModelBinding (ctx : Ctx) (request : SetAgentModelBindingRequest)
| CallRemoveAgentModelBinding (ctx : Ctx) (input : RemoveAgentBindingInput)
| CallListModelOfferings (ctx : Ctx) (input : ListOfferingsInput)
| CallRefreshModelCatalog (ctx : Ctx) (input : RefreshModelCatalogInput)
| CallGetModelCatalogRefresh (ctx : Ctx) (actorUserID tenantID refreshID : string)
| CallResolveInferencePlan (tenantID agentID : string)
| CallProcessBatch (config : CatalogWorkerConfig) (text : error → string)
    (locked : string → bool) (ctx : Ctx).

Definition serve (c : access_call) : app unit :=
  match c with
  | CallGetAgentModelBinding ctx u t a => _ ← GetAgentModelBinding service ctx u t a; mret tt
  | CallSetAgentModelBinding ctx request =>
      _ ← Server_SetAgentModelBinding service ctx request; mret tt
  | CallRemoveAgentModelBinding ctx input =>
      _ ← RemoveAgentModelBinding service ctx input; mret tt
  | CallListModelOfferings ctx input => _ ← ListModelOfferings service ctx input; mret tt
  | CallRefreshModelCatalog ctx input => _ ← RefreshModelCatalog service ctx input; mret tt
  | CallGetModelCatalogRefresh ctx u t i =>
      _ ← GetModelCatalogRefresh service ctx u t i; mret tt
  | CallResolveInferencePlan t a => _ ← Resolver_ResolveInferencePlan t a; mret tt
  | CallProcessBatch config text locked ctx => processBatch service config text locked ctx
  end.

Lemma serve_steps c w db : steady w → steps db (perform (serve c) w db).2.
Proof.
  intros Hw. apply safe_perform.
  destruct c; cbn [serve]; [..|by apply safe_batch];
    (apply safe_bind; [apply _| |intros ?; apply safe_ret; apply _]).
  - apply safe_checked_read; [done|apply _].
  - by apply safe_set.
  - by apply safe_remove.
  - unfold ListModelOfferings. cbv zeta.
    apply safe_bind; [apply _|apply safe_pure; apply _|intros _].
    apply safe_bind; [apply _|by apply safe_read_call, _|intros ?; apply safe_ret; apply _].
  - by apply safe_refresh.
  - apply safe_checked_read; [done|apply _].
  - unfold Resolver_ResolveInferencePlan.
    apply safe_bind; [apply _|apply safe_pure; apply _|intros _].
    apply safe_bind; [apply _|apply safe_now|intros now]. by apply safe_read_call, _.
Qed.

(** The states that calls lead to, one after the other; what happens in between are steps. *)
Inductive served : access_tables → Prop :=
| served_first : served no_access_tables
| served_call c w db : served db → steady w → served (perform (serve c) w db).2
| served_other db db' : served db → steps db db' → served db'.

Lemma served_reachable db : served db → access_reachable db.
Proof.
  unfold access_reachable. induction 1 as [|c w db _ IH Hw|db db' _ IH Hs]; [done|..].
  - etrans; [exact IH|by apply serve_steps].
  - by etrans.
Qed.

Lemma served_ok db : served db → access_ok db.
Proof. intros Hs. by apply reachable_access_ok, served_reachable. Qed.

(** ** The history of bindings *)

(** C11 (a binding is what its history says). In every state that calls of the service, its
    worker and the resolver lead to, in whatever order their transactions run and fail, an
    agent's binding of version [n] has exactly the revisions one to [n]; the last one records
    the binding and the fallbacks that are stored for it, which are one to five different
    offerings in the order in which they were given; and every offering that it names is an
    offering of its tenant. *)
Theorem binding_history_complete db t a row :
  served db → access_bindings db !! (t, a) = Some row →
  (∀ v, is_Some (access_revisions db !! (t, a, v)) ↔ 1 ≤ v ≤ binding_Version row) ∧
  ∃ rev, access_revisions db !! (t, a, binding_Version row) = Some rev ∧
    recorded row (omap id (fallbacks_at t a db)) (brev_ChangeKind rev) rev ∧
    NoDup (brev_FallbackOfferingIDs rev) ∧
    (1 ≤ List.length (brev_FallbackOfferingIDs rev) ≤ 5)%nat ∧
    binding_FallbackPolicy row = FallbackPolicyOrdered ∧
    Forall (offered db t) (binding_PrimaryOfferingID row ::
      option_list (binding_FastOfferingID row) ++ brev_FallbackOfferingIDs rev).
Proof.
  intros [_ Hb _]%served_ok Hrow. split.
  - intros v. rewrite (ok_history _ Hb). split; [|by exists row].
    intros (row' & Hrow' & ?). rewrite Hrow in Hrow'. by injection Hrow' as <-.
  - apply (ok_bound _ Hb) in Hrow as (os & rev & Hbound). exists rev.
    destruct Hbound as [? Hrec Hf (Hne & Hnd & Hlen) (Hp & Hos & Hfast) (_ & ? & _) _ _].
    rewrite (fallbacks_at_list _ _ _ _ Hf Hlen), (recorded_fallbacks _ _ _ _ Hrec).
    split_and!; try done.
    + destruct os; [done|cbn; lia].
    + constructor; [done|]. apply Forall_app. split; [|done].
      destruct (binding_FastOfferingID row); constructor; auto.
Qed.

Lemma steady_ok w : steady w → ∀ n db, access_ok db → access_ok (world_interfere w n db).
Proof.
  intros Hw n db Hok. pose proof (Hw n db) as Hst.
  induction Hst as [|db1 db2 db3 H12 _ IH]; [done|]. by eapply IH, access_step_ok.
Qed.

Lemma served_result {A} w (m : app A) (Q : A → Prop) db a :
  served db → (perform m w db).1 = Ok a → triple access_ok w m Q → Q a.
Proof. intros Hs Ha Ht. by apply (triple_perform _ _ _ _ _ Ht (served_ok _ Hs)). Qed.

Lemma triple_requireOfferings w ctx u t ids :
  steady w → triple access_ok w (requireOfferings ctx u t ids) (λ _, True).
Proof.
  intros Hw. induction ids as [|i ids IH]; cbn; [by apply triple_ret|].
  apply triple_bind with (P := λ _, True).
  - apply triple_call; [by apply steady_ok|]. intros db ev Hok.
    by rewrite (run_readonly (GetOffering ctx u t i)) by apply _.
  - intros o _. apply triple_bind with (P := λ _, True); [by apply triple_pure|done].
Qed.

(** A binding that is returned has fallbacks, a new one and one that was answered before. *)
Lemma set_result_fallbacks ctx params db ev b :
  wire_terms params → access_ok db → (run (SetAgentBinding ctx params) db ev).1 = Ok b →
  slice_elems (binding_FallbackOfferingIDs b) ≠ [].
Proof.
  intros [Hnil _] [_ Hb _]. destruct (run _ _ _) as [r db'] eqn:Hr. cbn. intros ->.
  apply SetAgentBinding_cases in Hr as [[_ (t & u & k & ans & Hans & -> & _)]|
    (t & a & row & os & rev & Hset)].
  - by apply (ok_answers _ Hb) in Hans as [_ ?].
  - rewrite (set_result _ _ _ _ _ _ _ _ _ Hset). cbn.
    destruct (set_slice _ _ _ _ _ _ _ _ _ Hset) as (ids & Hids & _).
    rewrite Hids in *. cbn. congruence.
Qed.

(** C32 (a binding needs fallbacks, and stays). The slice of fallbacks that the transport
    leaves nil is written as a NULL that the history does not take: in whatever world a
    binding is set, what is returned has fallbacks; no removal of a binding succeeds. *)
Theorem bindings_need_fallbacks ctx w db :
  served db → steady w →
  (∀ request b, (perform (Server_SetAgentModelBinding service ctx request) w db).1 = Ok b →
     slice_elems (binding_FallbackOfferingIDs b) ≠ []) ∧
  (∀ input b, (perform (RemoveAgentModelBinding service ctx input) w db).1 ≠ Ok b).
Proof.
  intros Hs Hw. pose proof (steady_ok w Hw) as Hi. split.
  - intros request b Hb.
    apply (served_result w _ (λ b, slice_elems (binding_FallbackOfferingIDs b) ≠ []) _ _ Hs)
      in Hb; [done|].
    unfold Server_SetAgentModelBinding, SetAgentModelBinding. cbv zeta.
    eapply triple_bind; [by apply triple_pure with (Q := λ _, True)|intros _ _].
    eapply triple_bind; [by apply triple_pure with (Q := λ _, True)|intros agent _].
    eapply triple_bind; [by apply triple_requireOfferings|intros _ _].
    apply triple_bind with (P := λ u, bindingTerms (set_input request) = Ok u);
      [by apply triple_pure|intros u Hterms].
    eapply triple_bind; [by apply triple_pure with (Q := λ _, True)|intros hash _].
    apply triple_bind with (P := λ p, p = setBindingParams service ctx (set_input request)
      (agent_CompanyID agent) hash (world_now w 0) (world_ids w 0));
      [apply triple_pure; by intros p [= <-]|intros params ->].
    apply triple_call; [done|]. intros db' ev Hok.
    pose proof (request_wire_terms _ ctx (agent_CompanyID agent) hash (world_now w 0)
      (world_ids w 0) _ Hterms) as Hwire.
    split; [by eapply access_step_ok; [apply step_set|]|]. intros a Ha.
    by eapply set_result_fallbacks.
  - intros input b Hb. apply (served_result w _ (λ _, False) _ _ Hs) in Hb; [done|].
    unfold RemoveAgentModelBinding. cbv zeta.
    eapply triple_bind; [by apply triple_pure with (Q := λ _, True)|intros _ _].
    eapply triple_bind; [by apply triple_pure with (Q := λ _, True)|intros hash _].
    eapply triple_bind; [by apply triple_pure with (Q := λ _, True)|intros params _].
    apply triple_call; [done|]. intros db' ev Hok.
    split; [by eapply access_step_ok; [apply step_remove|]|].
    apply remove_preserves, Hok.
Qed.

End Properties.
