(* ===== verification/AccessPlans.v ===== *)
(** * Model access: plans and catalogs

    The plan that the model gateway is given as a function of the tables ([plan_of]), what a
    refresh of a catalog leaves, and what keeps one from succeeding. *)

From stdpp Require Import strings gmap fin_maps list sorting relations.
From Stdlib Require Import String Lia.
From S2P Require Import Prelude GoStrings Postgres Usecase Outbox.
From S2P Require Import AccessStore AccessRepository AccessCatalog AccessService.
From S2P Require Import AccessBindings AccessOfferings AccessSystem AccessProperties.
Open Scope string_scope.
Open Scope list_scope.
Open Scope Z_scope.

#[local] Notation app := (Usecase.app access_tables error).
#[local] Notation world := (Usecase.world access_tables).

(** ** Reads as functions of the tables

    [yields m r]: in a read transaction with the scope [sc] on the tables [db], [m] gives [r],
    or the connection is lost. *)
Section Yields.
Context `{Platform, Proto} (sc : Scope) (db : access_tables) (budget : option nat).

Definition reading (s : session access_tables) : Prop :=
  session_db s = db ∧ session_scope s = sc ∧ session_committed s = None ∧
  (budget = None → session_budget s = None).

Definition lost_connection {A} (r : result error A) : Prop :=
  budget ≠ None ∧ r = Err (ErrDatabase ErrConnection).

Definition yields {A} (m : repo A) (r : result error A) : Prop := ∀ s, reading s →
  (m s).1 = r ∧ reading (m s).2 ∨ lost_connection (m s).1.

Lemma yields_ret {A} (a : A) : yields (mret a) (Ok a).
Proof. intros s Hs. by left. Qed.

Lemma yields_lift {A} (r : result error A) : yields (lift r) r.
Proof. intros s Hs. by left. Qed.

Lemma yields_bind {A B} (m : repo A) (f : A → repo B) a r :
  yields m (Ok a) → yields (f a) r → yields (m ≫= f) r.
Proof.
  intros Hm Hf s Hs. unfold mbind, tx_bind. destruct (Hm s Hs) as [[Ha Hs']|[Hb He]];
    destruct (m s) as [[a'|e] s']; cbn in *; simplify_eq; [by apply Hf|by right].
Qed.

Lemma yields_statement : yields statement (Ok tt).
Proof.
  intros s (Hd & Hsc & Hc & Hb). unfold statement. rewrite Hc.
  destruct (session_budget s) as [[|n]|] eqn:E1; cbn.
  - right. split; [|done]. intros Hn. specialize (Hb Hn); congruence.
  - left. split; [done|]. unfold reading. cbn. split_and!; try done. intros Hn.
    specialize (Hb Hn). congruence.
  - left. split; [done|]. unfold reading. cbn. by split_and!.
Qed.

Lemma yields_query {A} (q : Scope → access_tables → result db_error A) r :
  match q sc db with Ok a => Ok a | Err e => Err (ErrDatabase e) end = r →
  yields (query q) r.
Proof.
  intros Hq. unfold query. apply yields_bind with (1 := yields_statement). intros s Hs.
  pose proof Hs as (Hd & Hsc & _). left. unfold raw, lift_db. rewrite Hd, Hsc. by split.
Qed.

Lemma yields_find_row {A} (q : Scope → access_tables → result db_error A) o :
  match q sc db with Ok a => Ok (Some a) | Err ErrNoRows => Ok None | Err e => Err e end = Ok o →
  yields (find_row q) (Ok o).
Proof. intros Hq. apply yields_query. by rewrite Hq. Qed.

Lemma yields_mapped {A} (m : repo A) a : yields m (Ok a) → yields (mapped m) (Ok a).
Proof.
  intros Hm s Hs. unfold mapped, map_err. destruct (Hm s Hs) as [[Ha Hs']|[Hb He]];
    destruct (m s) as [[a'|e] s']; cbn in *; simplify_eq; [by left|by right].
Qed.

(** A computation that ends with [r], or without a connection. *)
Definition ends {A} (m : repo A) (r : result error A) : Prop := ∀ s, reading s →
  (m s).1 = r ∨ lost_connection (m s).1.

Lemma ends_bind {A B} (m : repo A) (f : A → repo B) a r :
  yields m (Ok a) → ends (f a) r → ends (m ≫= f) r.
Proof.
  intros Hm Hf s Hs. unfold mbind, tx_bind. destruct (Hm s Hs) as [[Ha Hs']|[Hb He]];
    destruct (m s) as [[a'|e] s']; cbn in *; simplify_eq; [by apply Hf|by right].
Qed.

Lemma ends_Err {A B} (m : repo A) (f : A → repo B) e :
  yields m (Err e) → ends (m ≫= f) (Err e).
Proof.
  intros Hm s Hs. unfold mbind, tx_bind. destruct (Hm s Hs) as [[Ha Hs']|[Hb He]];
    destruct (m s) as [[a'|e'] s']; cbn in *; simplify_eq; [by left|by right].
Qed.

Lemma ends_commit {A} (a : A) : ends (commit ≫= λ _, mret a) (Ok a).
Proof.
  intros s Hs. destruct (yields_statement s Hs) as [[He _]|[Hb He]];
    unfold commit, mbind, tx_bind, raw, mret, tx_ret;
    destruct (statement s) as [[u|e] s']; cbn in *; simplify_eq; [by left|by right].
Qed.

End Yields.

(** [Begin] of a scope that is valid, then a computation in it. *)
Lemma run_begin `{Platform, Proto} {A} sc (m : repo A) (r : result error A) db ev :
  Scope_Validate sc = Ok tt →
  ends sc db (env_budget ev) m r →
  (run (Begin sc true;; m) db ev).1 = r ∨
  lost_connection (env_budget ev) (run (Begin sc true;; m) db ev).1.
Proof.
  intros Hv Hm.
  assert (Hrun : ∀ m' : repo A, (run m' db ev).1 = (m' (new_session db ev)).1).
  { intros m'. unfold run. by destruct (m' _). }
  rewrite Hrun. unfold Begin, ApplyScope, lift_db, raw, mbind, tx_bind, statement. rewrite Hv. cbn.
  destruct (env_budget ev) as [[|[|n]]|] eqn:Hb; cbn;
    [by right|by right| |]; apply Hm; by split_and!.
Qed.

Section Plans.
Context `{Platform, !PlatformLaws, AccessProto, Fingerprints}.
Context (service : Service).
Implicit Types (db : access_tables) (w : world).

(** ** Plans *)

Definition route_to (o : ModelOffering) (c : Connection) : InferenceRoute := {|
  route_OfferingID := offering_ID o; route_ConnectionID := offering_ConnectionID o;
  route_ProviderKey := offering_ProviderKey o;
  route_ProviderModelID := offering_ProviderModelID o;
  route_ConnectionType := connection_ConnectionType c;
  route_ProviderPoolKey := connection_ProviderPoolKey c;
  route_ContextWindowTokens := offering_ContextWindowTokens o;
  route_MaxOutputTokens := offering_MaxOutputTokens o;
  route_Capabilities := offering_Capabilities o |}.

(** The route of a tenant's offering: it is available, agents may use it and its connection is
    active. *)
Definition route_of db (t offeringID : string) : result error InferenceRoute :=
  match access_offerings db !! (t, offeringID) with
  | Some o =>
      match access_connections db !! (t, offering_ConnectionID o) with
      | Some c =>
          if String.eqb (offering_Status o) OfferingStatusAvailable && offering_AgentUsable o then
            if String.eqb (connection_Status c) ConnectionStatusActive then Ok (route_to o c)
            else Err ErrConnectionArchived
          else Err ErrOfferingNotFound
      | None => Err ErrOfferingNotFound
      end
  | None => Err ErrOfferingNotFound
  end.

(** The plan of an agent with an active binding: the route of the primary offering, and those of
    the others that have one, the fallbacks in their order where the binding orders them. *)
Definition plan_of db (tenantID agentID t a : string) (now : Z) : result error InferencePlan :=
  match access_bindings db !! (t, a) with
  | Some b =>
      fail_if (negb (String.eqb (binding_Status b) BindingStatusActive)) ErrBindingNotFound;;
      primary ← route_of db t (binding_PrimaryOfferingID b);
      Ok {|
        plan_TenantID := tenantID; plan_AgentID := agentID; plan_CompanyID := binding_CompanyID b;
        plan_BindingVersion := binding_Version b; plan_PrimaryRoute := primary;
        plan_FastRoute := binding_FastOfferingID b ≫= λ f, usable (route_of db t f);
        plan_FallbackRoutes :=
          if String.eqb (binding_FallbackPolicy b) FallbackPolicyOrdered
          then omap (λ o, usable (route_of db t o)) (omap id (fallbacks_at t a db)) else [];
        plan_MaxModelCostMicroUSD := binding_MaxModelCostMicroUSD b; plan_ResolvedAt := now |}
  | None => Err ErrBindingNotFound
  end.

Section Resolve.
Context (tenantID agentID t a : string) (db : access_tables) (budget : option nat).
Let sc := ServiceTenantScope tenantID uuid_Nil "internal-plan-resolve" "internal-plan-resolve".
Context (Hnil : is_Some (uuid_in uuid_Nil)).
Context (Ht : uuid_in tenantID = Some t) (Ha : uuid_in agentID = Some a).

Lemma resolve_scope : ∃ r, rls_of sc = Ok r ∧ tenant_scoped r t = true.
Proof.
  destruct Hnil as [n Hn]. unfold rls_of, rls_setting, sc. cbn [scope_TenantID ServiceTenantScope
    scope_PrincipalID scope_Kind scope_PrincipalType].
  rewrite (uuid_in_trimmed _ _ Ht), (uuid_in_trimmed _ _ Hn), Ht, Hn.
  destruct (String.eqb_spec tenantID "") as [->|_]; [by rewrite uuid_in_empty in Ht|]. cbn.
  eexists. split; [done|]. by apply tenant_scoped_true.
Qed.

(** A route, for an identifier as the tables have it. *)
Lemma yields_route o :
  canonical o → yields sc db budget (fetchRoute tenantID o) (Ok (route_of db t o)).
Proof.
  intros Ho. destruct resolve_scope as (r & Hr & Hs).
  assert (Hq : sql_route tenantID o sc db = from_option_err ErrNoRows
    (offering ← access_offerings db !! (t, o);
     connection ← access_connections db !! (t, offering_ConnectionID offering);
     Some (offering, connection))).
  { unfold sql_route, cast. rewrite Hr, Ht, Ho. cbn. by rewrite Hs. }
  unfold fetchRoute. eapply yields_bind.
  - apply yields_find_row. rewrite Hq.
    instantiate (1 := offering ← access_offerings db !! (t, o);
      connection ← access_connections db !! (t, offering_ConnectionID offering);
      Some (offering, connection)).
    destruct (access_offerings db !! (t, o)) as [offering|]; [|done]. cbn.
    by destruct (access_connections db !! _).
  - assert (∀ r1 r2 : result error InferenceRoute, r1 = r2 →
      yields sc db budget (mret r1) (Ok r2)) as Hret by (intros ?? ->; apply yields_ret).
    apply Hret. unfold route_of.
    destruct (access_offerings db !! (t, o)) as [offering|]; [|done]. cbn.
    destruct (access_connections db !! _) as [c|]; [|done]. cbn.
    destruct (String.eqb (offering_Status offering) _), (offering_AgentUsable offering),
      (String.eqb (connection_Status c) _); done.
Qed.

Lemma yields_routes os :
  Forall canonical os →
  yields sc db budget (fetchRoutes tenantID os) (Ok (omap (λ o, usable (route_of db t o)) os)).
Proof.
  induction 1 as [|o os Ho _ IH]; cbn [fetchRoutes]; [apply yields_ret|].
  eapply yields_bind; [by apply yields_route|]. eapply yields_bind; [exact IH|].
  cbn [omap list_omap]. destruct (usable (route_of db t o)); apply yields_ret.
Qed.

Lemma resolve_ends os b now :
  access_bindings db !! (t, a) = Some b → canonical (binding_PrimaryOfferingID b) →
  (∀ f, binding_FastOfferingID b = Some f → canonical f) →
  omap id (fallbacks_at t a db) = os → Forall canonical os →
  binding_Status b = BindingStatusActive → binding_FallbackPolicy b = FallbackPolicyOrdered →
  ∃ m, ResolveInferencePlan tenantID agentID now = (Begin sc true;; m) ∧
    ends sc db budget m (plan_of db tenantID agentID t a now).
Proof.
  intros Hb Hp Hf Hos Hcan Hact Hpol. eexists. split; [reflexivity|].
  destruct resolve_scope as (r & Hr & Hs).
  eapply ends_bind with (a := Some b).
  { apply yields_mapped, yields_find_row. unfold sql_row, tenant_row, cast.
    rewrite Hr, Ht, Ha. cbn. by rewrite Hs, Hb. }
  eapply ends_bind with (a := b); [by apply yields_lift|].
  eapply ends_bind with (a := tt); [rewrite Hact; by apply yields_lift|].
  eapply ends_bind; [by apply yields_route|].
  unfold plan_of. rewrite Hb, Hact, Hpol. cbn -[route_of fallbacks_at omap].
  destruct (route_of db t (binding_PrimaryOfferingID b)) as [primary|e];
    [|apply ends_Err, yields_lift].
  eapply ends_bind; [apply yields_lift|]. cbn -[fallbacks_at omap].
  eapply ends_bind with (a := binding_FastOfferingID b ≫= λ f, usable (route_of db t f)).
  { destruct (binding_FastOfferingID b) as [f|]; [|apply yields_ret]. specialize (Hf f eq_refl).
    destruct (String.eqb_spec f "") as [->|_].
    - unfold canonical in Hf. by rewrite uuid_in_empty in Hf.
    - eapply yields_bind; [by apply yields_route|]. apply yields_ret. }
  cbn -[fallbacks_at omap].
  eapply ends_bind with (a := omap (λ o, usable (route_of db t o)) os).
  { eapply yields_bind with (a := os); [|by apply yields_routes].
    apply yields_mapped, yields_query. unfold sql_fallbacks, cast. rewrite Hr, Ht, Ha.
    cbn -[fallbacks_at omap]. by rewrite Hs, Hos. }
  rewrite Hos. apply ends_commit.
Qed.

Lemma resolve_missing now :
  access_bindings db !! (t, a) = None →
  ∃ m, ResolveInferencePlan tenantID agentID now = (Begin sc true;; m) ∧
    ends sc db budget m (plan_of db tenantID agentID t a now).
Proof.
  intros Hb. eexists. split; [reflexivity|]. destruct resolve_scope as (r & Hr & Hs).
  eapply ends_bind with (a := None).
  { apply yields_mapped, yields_find_row. unfold sql_row, tenant_row, cast.
    rewrite Hr, Ht, Ha. cbn. by rewrite Hs, Hb. }
  unfold plan_of. rewrite Hb. apply ends_Err, yields_lift.
Qed.

End Resolve.

(** C12 (a plan is read off the tables). In every state that the service reaches, the model
    gateway's question for an agent's plan changes nothing and is answered by [plan_of], unless
    the connection to the database is lost: the primary route is that of the offering the agent
    is bound to, which is available, usable by agents and of an active connection, and an error
    says which of these is wrong, or that the agent has no active binding; a fast or fallback offering without a route is left out, and
    the fallbacks keep their order. *)
Theorem plan_resolved tenantID agentID t a now db ev :
  served service db → is_Some (uuid_in uuid_Nil) →
  uuid_in tenantID = Some t → uuid_in agentID = Some a →
  Scope_Validate (ServiceTenantScope tenantID uuid_Nil "internal-plan-resolve"
                    "internal-plan-resolve") = Ok tt →
  (run (ResolveInferencePlan tenantID agentID now) db ev).2 = db ∧
  ((run (ResolveInferencePlan tenantID agentID now) db ev).1
     = plan_of db tenantID agentID t a now ∨
   env_budget ev ≠ None ∧
   (run (ResolveInferencePlan tenantID agentID now) db ev).1 = Err (ErrDatabase ErrConnection)).
Proof.
  intros Hok%served_ok Hnil Ht Ha Hv. split; [apply resolve_readonly|].
  destruct (access_bindings db !! (t, a)) as [b|] eqn:Hb.
  - apply (ok_bound _ (access_bound _ Hok)) in Hb as Hbound.
    destruct Hbound as (os & rev & [_ _ Hf (_ & _ & Hlen) _ (Hact & Hpol & _) _ (Hcp & Hco & Hcf)]).
    destruct (resolve_ends _ _ _ _ _ (env_budget ev) Hnil Ht Ha os b now Hb Hcp Hcf)
      as (m & -> & Hm); try done; [by apply fallbacks_at_list|]. by apply run_begin.
  - destruct (resolve_missing _ _ _ _ _ (env_budget ev) Hnil Ht Ha now Hb) as (m & -> & Hm).
    by apply run_begin.
Qed.

(** ** Catalogs *)

Lemma missing_false models x : missing models x = false ↔ x ∈ discovered_ids models.
Proof. unfold missing. by rewrite negb_false_iff, slices_Contains_true. Qed.
Lemma missing_true models x : missing models x = true ↔ x ∉ discovered_ids models.
Proof. unfold missing. by rewrite negb_true_iff, slices_Contains_false. Qed.

(** The rows that a refresh withdraws are those that were available before and whose models
    were not discovered. *)
Lemma withdrawn_before (t c : string) (models : list DiscoveredModel) (m m' : gmap (string * string) ModelOffering) :
  refreshed t c models m m' →
  filter (λ kv : _ * ModelOffering, withdrawn_row t c (missing models) kv.2 = true) m' =
  filter (λ kv : _ * ModelOffering, withdrawn_row t c (missing models) kv.2 = true) m.
Proof.
  intros Hr. apply map_eq. intros k. apply option_eq. intros row.
  rewrite !map_lookup_filter_Some. cbn. unfold withdrawn_row. rewrite !andb_true_iff, missing_true.
  split; intros [Hk ((Ho & Hs) & Hm)].
  - destruct (refreshed_new _ _ _ _ _ Hr _ _ Hk) as [?|[_ ?]]; [|done]. by split_and!.
  - destruct (refreshed_old _ _ _ _ _ Hr _ _ Hk) as (row' & Hrow' & _ & [->|[_ ?]]); [|done].
    by split_and!.
Qed.

(** C13 (a refresh makes the catalog exact). When a refresh of a connection's catalog is
    applied, the offerings of the connection that are available are those of the discovered
    models, each as it was discovered; there is one offering per model; every offering there was
    keeps its identifier, its model, its connection and when it was first seen, and those of
    other connections and tenants are untouched; and the number reported as unavailable is that
    of the offerings that were available and are not any more. *)
Theorem catalog_refreshed ctx ids params db ev r db' :
  served service db → run (ApplyCatalogRefresh ctx ids params) db ev = (Ok r, db') →
  let models := apply_Discovered params in
  ∃ t c, uuid_in (apply_TenantID params) = Some t ∧ uuid_in (apply_ConnectionID params) = Some c ∧
    (∀ k row, access_offerings db' !! k = Some row → offering_of t c row = true →
       (offering_Status row = OfferingStatusAvailable ↔
        offering_ProviderModelID row ∈ discovered_ids models)) ∧
    (NoDup (discovered_ids models) → ∀ d, d ∈ models → ∃ o row,
       access_offerings db' !! (t, o) = Some row ∧ offering_of t c row = true ∧ describes d row) ∧
    keyed (access_offerings db') ∧
    (∀ k old, access_offerings db !! k = Some old → ∃ row, access_offerings db' !! k = Some row ∧
       same_identity old row ∧ (offering_of t c old = false → row = old)) ∧
    (∀ k row, access_offerings db' !! k = Some row → access_offerings db !! k = None →
       offering_of t c row = true) ∧
    result_UnavailableCount r = Z.of_nat (size (filter (λ kv : _ * ModelOffering,
      withdrawn_row t c (missing models) kv.2 = true) (access_offerings db))).
Proof.
  intros [Hk _ _]%served_ok Hr models. apply ApplyCatalogRefresh_cases in Hr as (t & c & m & He);
    [|done].
  pose proof (apply_refreshed _ _ _ _ _ _ _ He) as Hm. fold models in Hm.
  pose proof (withdrawn_map t c (missing models) (apply_RefreshedAt params) m) as Hw.
  pose proof (apply_withdrawn _ _ _ _ _ _ _ He) as Hdb'. fold models in Hdb'. rewrite <-Hdb' in Hw.
  exists t, c. split_and!; [apply He|apply He|..].
  - intros k row Hrow Hof. destruct (withdrawn_new _ _ _ _ _ Hw _ _ Hrow)
      as (row1 & Hrow1 & Hs1 & Hc1).
    destruct (decide (offering_ProviderModelID row ∈ discovered_ids models)) as [Hin|Hin].
    + split; [done|]. intros _.
      destruct Hc1 as [->|Hg]; [by eapply (refreshed_available _ _ _ _ _ Hm)|].
      rewrite <-(same_model _ _ Hs1) in Hg. by apply missing_true in Hg.
    + split; [|done]. intros Ha. exfalso.
      eapply (withdrawn_gone _ _ _ _ _ Hw); [exact Hrow|done|by apply missing_true|done].
  - intros Hnd d Hd. destruct (refreshed_found _ _ _ _ _ Hm Hnd d Hd) as (o & row & Hrow & Hof & Hdes).
    exists o, row. split_and!; try done.
    destruct (withdrawn_old _ _ _ _ _ Hw _ _ Hrow) as (row' & Hrow' & _ & [->|(_ & Hg & _)]);
      [done|]. apply missing_true in Hg. destruct Hg. rewrite (describes_model _ _ Hdes).
    by apply list_elem_of_fmap_2.
  - apply (withdrawn_keyed _ _ _ _ _ Hw), Hm.
  - intros k old Hold. destruct (refreshed_old _ _ _ _ _ Hm _ _ Hold) as (row1 & Hrow1 & Hs1 & Hc1).
    destruct (withdrawn_old _ _ _ _ _ Hw _ _ Hrow1) as (row2 & Hrow2 & Hs2 & Hc2).
    exists row2. split_and!; [done|by etrans|]. intros Hno.
    destruct Hc1 as [->|[Hof _]]; [|congruence]. destruct Hc2 as [->|[Hof _]]; congruence.
  - intros k row Hrow Hnone. destruct (withdrawn_new _ _ _ _ _ Hw _ _ Hrow)
      as (row1 & Hrow1 & Hs1 & _).
    destruct (refreshed_new _ _ _ _ _ Hm _ _ Hrow1) as [Hin|[Hof _]]; [by rewrite Hnone in Hin|].
    by rewrite (same_identity_of _ _ _ _ Hs1).
  - rewrite (apply_count _ _ _ _ _ _ _ He). fold models.
    by rewrite (withdrawn_before _ _ _ _ _ Hm).
Qed.

(** No refresh is forgotten. In every state that the service reaches, the queue of the
    catalog worker holds exactly the refreshes that are pending: a job is of a pending refresh
    of its tenant, connection and actor, and a refresh that has neither succeeded nor failed
    has its job. *)
Theorem pending_refreshes_queued db :
  served service db →
  (∀ i job, access_queue db !! i = Some job → ∃ c,
     access_refreshes db !! (queue_TenantID job, i) = Some c ∧
     refresh_Status c = CatalogRefreshPending ∧
     refresh_ConnectionID c = queue_ConnectionID job ∧
     refresh_ActorUserID c = queue_ActorUserID job) ∧
  (∀ t i c, access_refreshes db !! (t, i) = Some c → refresh_Status c = CatalogRefreshPending →
     ∃ job, access_queue db !! i = Some job ∧ queue_TenantID job = t).
Proof. by intros [_ _ [Hj Hp]]%served_ok. Qed.

(** ** Refreshes that cannot succeed *)

Lemma run_get {R} (table : access_tables → gmap (string * string) R) sc tenantID i t k row db ev
    (got : R) :
  uuid_in tenantID = Some t → uuid_in i = Some k → table db !! (t, k) = Some row →
  (run (Begin sc true;; x ← mapped (query (sql_row table tenantID i)); commit;; mret x) db ev).1
    = Ok got → got = row.
Proof.
  intros Ht Hi Hrow Hr. destruct (run _ _ _) as [r db'] eqn:Hrun. cbn in Hr. subst r.
  apply run_Ok in Hrun as (s' & Hrun & _).
  apply tx_bind_Ok in Hrun as (u & s1 & (_ & Hdb & _)%Begin_Ok & Hrun). cbn in Hdb.
  apply tx_bind_Ok in Hrun as (x & s2 & [Hq _]%map_err_Ok%query_Ok & Hrun).
  apply tx_bind_Ok in Hrun as (u' & s3 & _ & [-> _]%ret_Ok).
  apply access_sql_row_Ok in Hq as (r & t' & k' & _ & _ & Ht' & Hk' & Hx). rewrite Hdb in Hx. congruence.
Qed.

(** A model whose slices are nil is not taken by the table of offerings. *)
Lemma apply_uncurated ctx ids params db ev d :
  access_ok db → d ∈ apply_Discovered params → model_Capabilities d = None →
  (∃ e, (run (ApplyCatalogRefresh ctx ids params) db ev).1 = Err e) ∧
  (run (ApplyCatalogRefresh ctx ids params) db ev).2 = db.
Proof.
  intros [Hk _ _] Hd Hnone. destruct (run _ _ _) as [r db'] eqn:Hr.
  apply ApplyCatalogRefresh_cases in Hr; [|done]. destruct r as [r|e]; cbn; [|by eauto].
  destruct Hr as (t & c & m & He).
  pose proof (refreshed_slices _ _ _ _ _ (apply_refreshed _ _ _ _ _ _ _ He)) as Hs.
  rewrite Forall_forall in Hs. destruct (Hs d Hd) as [[x Hx] _]. congruence.
Qed.

(** In the world [w], alone with the tables [db], [m] fails and changes nothing. *)
Definition blocked w db {A} (m : app A) : Prop := ∀ n,
  (∃ e, (m w (n, db)).1 = Err e) ∧ (m w (n, db)).2.2 = db.

Lemma blocked_bind w db {A B} (m : app A) (f : A → app B) :
  (∀ n, (m w (n, db)).2.2 = db) → (∀ n a, (m w (n, db)).1 = Ok a → blocked w db (f a)) →
  blocked w db (m ≫= f).
Proof.
  intros Hm Hf n. unfold mbind, app_bind. specialize (Hm n). specialize (Hf n).
  destruct (m w (n, db)) as [[a|e] [n' db']]; cbn in *; subst; [by apply Hf|]. split; [by eexists|done].
Qed.

Lemma read_alone w db {A} (m : repo A) n :
  (∀ i db, world_interfere w i db = db) → readonly m → (call m w (n, db)).2.2 = db.
Proof.
  intros Hw Hm. unfold call. cbn. rewrite Hw. pose proof (run_readonly m db (world_env w n) Hm).
  by destruct (run _ _ _).
Qed.

Lemma read_result w db {A} (m : repo A) n a :
  (∀ i db, world_interfere w i db = db) → (call m w (n, db)).1 = Ok a →
  (run m db (world_env w n)).1 = Ok a.
Proof. intros Hw. unfold call. cbn. rewrite Hw. by destruct (run _ _ _). Qed.

(** C33 (one uncurated model blocks a provider's catalog). The lists of the providers do not
    say what a model can do, and the slices that stay nil are written as NULLs that the table
    of offerings does not take: while a provider lists a model that the platform's catalog
    file does not describe, a refresh of a connection with a key of that provider fails, and
    nothing changes; its job stays in the queue. *)
Theorem uncurated_model_blocks_refresh ctx job w n db providers t c connection credential secret
    models d :
  served service db → (∀ i db, world_interfere w i db = db) →
  service_catalogClient service = Some (DiscoverModels providers) →
  uuid_in (job_TenantID job) = Some t → uuid_in (job_ConnectionID job) = Some c →
  access_connections db !! (t, c) = Some connection →
  connection_Status connection = ConnectionStatusActive →
  connection_ConnectionType connection ≠ ConnectionTypePlatformManaged →
  access_credentials db !! (t, c) = Some credential →
  credential_State credential = CredentialStateActive →
  service_ReadVersion service (credential_SecretRef credential)
    (credential_ActiveVaultVersion credential) = Ok secret →
  DiscoverModels providers (connection_ProviderKey connection) secret = Ok models →
  d ∈ models → enriched service d = d →
  (∃ e, (ExecuteCatalogRefresh service ctx job w (n, db)).1 = Err e) ∧
  (ExecuteCatalogRefresh service ctx job w (n, db)).2.2 = db.
Proof.
  intros Hok%served_ok Hw Hclient Ht Hc Hconn Hact Htype Hcred Hstate Hsecret Hmodels Hd Henr.
  revert n. change (blocked w db (ExecuteCatalogRefresh service ctx job)).
  unfold ExecuteCatalogRefresh. cbv zeta.
  apply blocked_bind; [intros n; by apply read_alone, _|].
  intros n got Hget%read_result; [|done].
  apply (run_get access_connections _ _ _ t c connection) in Hget as ->; [|done..].
  apply blocked_bind; [done|]. intros n1 now _. rewrite Hact. cbn [negb String.eqb].
  rewrite (proj2 (String.eqb_neq _ _) Htype), String.eqb_refl. cbn [negb].
  assert (Hcap : model_Capabilities d = None).
  { pose proof (DiscoverModels_uncurated _ _ _ _ Hmodels) as Hu.
    rewrite Forall_forall in Hu. by destruct (Hu d Hd). }
  apply blocked_bind.
  - intros i. unfold discoverProvider. rewrite Hclient.
    pose proof (read_alone w db (GetBYOKCredential ctx (job_ActorUserID job) (job_TenantID job)
      (job_ConnectionID job)) i Hw _) as Hr.
    unfold mbind, app_bind. destruct (call _ w (i, db)) as [[cred|e] [j db']]; cbn in *; [|done].
    subst db'. destruct (negb _); [done|].
    cbv beta. by case_match.
  - intros i found Hfound.
    assert (found = inr (OfferingSourceProviderDiscovered, enriched service <$> models)) as ->.
    { unfold discoverProvider in Hfound. rewrite Hclient in Hfound.
      unfold mbind, app_bind in Hfound.
      destruct (call _ w (i, db)) as [[cred|e] [j db']] eqn:Hcall; cbn in Hfound; [|done].
      assert ((run (GetBYOKCredential ctx (job_ActorUserID job) (job_TenantID job)
        (job_ConnectionID job)) db (world_env w i)).1 = Ok cred) as Hget.
      { apply read_result; [done|]. by rewrite Hcall. }
      apply (run_get access_credentials _ _ _ t c credential) in Hget as ->; [|done..].
      rewrite Hstate in Hfound. cbn in Hfound. unfold pure in Hfound. rewrite Hsecret in Hfound.
      cbn in Hfound. rewrite Hmodels in Hfound. by injection Hfound as <-. }
    apply blocked_bind; [done|]. intros n2 ids _. apply blocked_bind.
    + intros k. unfold call. cbn. rewrite Hw.
      match goal with |- context [run ?m db ?ev] => destruct (run m db ev) as [r db'] eqn:Hr end.
      cbn. match type of Hr with run (ApplyCatalogRefresh _ _ ?p) _ ?ev = _ =>
        destruct (apply_uncurated ctx ids p db ev d) as [_ Hdb]; [done| |done|] end.
      * cbn. rewrite <-Henr. by apply list_elem_of_fmap_2.
      * by rewrite Hr in Hdb.
    + intros k r Hr%read_result; [|done]. exfalso.
      match type of Hr with (run (ApplyCatalogRefresh _ _ ?p) _ ?ev).1 = _ =>
        destruct (apply_uncurated ctx ids p db ev d) as [[e He] _]; [done| |done|] end.
      * cbn. rewrite <-Henr. by apply list_elem_of_fmap_2.
      * congruence.
Qed.

End Plans.
