(* ===== verification/AccessExamples.v ===== *)
(** * Model access: concrete runs

    A connection whose catalog is refreshed by the worker, an agent bound to two of its models
    and the plan that the model gateway is given; a connection with a key of the tenant's own,
    whose catalog is never refreshed; and the properties at these tables. *)

From stdpp Require Import strings gmap list relations.
From Stdlib Require Import String Lia.
From S2P Require Import Prelude GoStrings Postgres Usecase Outbox Concrete.
From S2P Require TenantDomain OrganizationDomain.
From S2P Require Import AccessStore AccessRepository AccessCatalog AccessService.
From S2P Require Import AccessBindings AccessOfferings AccessSystem AccessProperties AccessPlans.
Open Scope string_scope.
Open Scope list_scope.
Open Scope Z_scope.

#[local] Notation world := (Usecase.world access_tables).

#[local] Existing Instance concrete_platform.
#[local] Existing Instance concrete_platform_laws.

Inductive access_wire :=
| AccessBytes (m : AccessMessage)
| AccessEnvelopeBytes (e : EventEnvelope access_wire).

#[local] Instance access_proto : Proto := {|
  wire := access_wire;
  marshal_envelope e := Some (AccessEnvelopeBytes e);
  unmarshal_envelope w := match w with AccessEnvelopeBytes e => Some e | _ => None end;
  timestamp_valid _ := true |}.

#[local] Instance access_messages : AccessProto := {|
  marshal_access_message m := Some (AccessBytes m) |}.

(** A digest of 32 bytes. *)
#[local] Instance fingerprints : Fingerprints := {|
  json_Marshal f := match f with
                    | SetFingerprint a _ _ _ _ _ _ | RemoveFingerprint a _ => Some a
                    end;
  sha256_Sum256 s := substring 0 32 s |}.

(** ** The service and its collaborators *)

Definition tenant := uuid2 1 0.
Definition user := uuid2 1 1.
Definition agent := uuid2 1 2.
Definition platform_connection := uuid2 1 3.
Definition byok_connection := uuid2 1 4.
Definition company := uuid2 1 5.

Definition static_model (id : string) : staticModel := {|
  static_ProviderModelID := id; static_DisplayName := id; static_Description := "";
  static_AgentUsable := true; static_Capabilities := Some ["chat"];
  static_InputModalities := Some ["text"]; static_OutputModalities := Some ["text"];
  static_ContextWindowTokens := 128000; static_MaxOutputTokens := 4096 |}.

Definition catalog_file : staticCatalogFile :=
  {[ "openai" := {[ "global" := [static_model "gpt-4o"; static_model "gpt-4o-mini"] ]} ]}.

Definition providers : Providers := {|
  get_openai _ := http_response 200 (Ok [{| openai_ID := "gpt-4o"; openai_OwnedBy := "openai" |};
                                         {| openai_ID := "whisper-1"; openai_OwnedBy := "openai" |}]);
  get_anthropic _ := http_error "refused"; get_google _ := http_response 400 (Ok []);
  get_openrouter _ := http_response 503 (Ok []) |}.

Definition service : Service := {|
  service_config := {| config_EventTopic := "gereh.model.events.v1";
                       config_IdempotencyTTL := 86400 * 1000000000 |};
  service_CheckAuthorization u t permission := Ok (Some {|
    TenantDomain.decision_Allowed := true; TenantDomain.decision_TenantID := t;
    TenantDomain.decision_ActorUserID := u; TenantDomain.decision_Permission := permission;
    TenantDomain.decision_Role := TenantDomain.RoleOwner;
    TenantDomain.decision_TenantVersion := 1; TenantDomain.decision_MembershipVersion := 1;
    TenantDomain.decision_DenialReason := "" |});
  service_ReadVersion _ _ := Ok "sk-key";
  service_catalogClient := Some (DiscoverModels providers);
  service_staticCatalog := Some {| static_cached := catalog_file;
                                   static_range pools := (map_to_list pools).*2 |};
  service_agentDirectory := Some (λ u t a, agent_found {|
    agent_TenantID := t; agent_CompanyID := company; agent_AgentID := a;
    agent_Status := "ready"; agent_Version := 1 |}) |}.

Example service_accepted : New service = Ok service.
Proof. vm_compute. reflexivity. Qed.

Definition ctx : Ctx :=
  {| ctx_RequestID := "request-1"; ctx_CorrelationID := ""; ctx_TraceID := "" |}.

Definition alone : world := {|
  world_env _ := {| env_clock := 5000000; env_budget := None |};
  world_interfere _ db := db; world_ids n := Some (uuid n); world_now _ := 1000000 |}.

Lemma alone_steady : steady alone.
Proof. intros n db. cbn. reflexivity. Qed.

(** ** The run *)

Definition a_connection (id kind : string) : Connection := {|
  connection_TenantID := tenant; connection_ID := id; connection_ProviderKey := "openai";
  connection_ConnectionType := kind; connection_ProviderPoolKey := None;
  connection_DisplayName := "models"; connection_Status := ConnectionStatusActive;
  connection_CredentialFingerprint := ""; connection_Version := 1;
  connection_CreatedByUserID := user; connection_CreatedAt := 0; connection_UpdatedAt := 0;
  connection_ArchivedAt := None |}.

Definition platform_row := a_connection platform_connection ConnectionTypePlatformManaged.
Definition byok_row := a_connection byok_connection "byok".
Definition byok_credential : BYOKCredential := {|
  credential_SecretRef := "tenants/1"; credential_State := CredentialStateActive;
  credential_ActiveVaultVersion := 1 |}.

Definition connected : access_tables := {|
  access_connections := {[ (tenant, platform_connection) := platform_row;
                           (tenant, byok_connection) := byok_row ]};
  access_credentials := {[ (tenant, byok_connection) := byok_credential ]};
  access_states := ∅; access_offerings := ∅; access_refreshes := ∅; access_queue := ∅;
  access_bindings := ∅; access_fallbacks := ∅; access_revisions := ∅; access_answers := ∅;
  access_outbox := {| outbox_rows := ∅; outbox_next := 1 |} |}.

Definition refresh_input (connection : string) : RefreshModelCatalogInput := {|
  refreshIn_ActorUserID := user; refreshIn_TenantID := tenant;
  refreshIn_ConnectionID := connection; refreshIn_IdempotencyKey := uuid2 2 0;
  refreshIn_Reason := "" |}.

Definition worker : CatalogWorkerConfig :=
  NewCatalogWorker {| worker_BatchSize := 0; worker_Lease := 0; worker_MaxBackoff := 0 |}.

Definition requested : access_tables :=
  (perform (serve service (CallRefreshModelCatalog ctx (refresh_input platform_connection)))
     alone connected).2.
Definition batch : access_call := CallProcessBatch worker (λ _, "error") (λ _, false) ctx.
Definition refreshed_tables : access_tables := (perform (serve service batch) alone requested).2.

Example worker_refreshes :
  (omap (λ kv, if String.eqb (offering_Status kv.2) OfferingStatusAvailable
               then Some (offering_ProviderModelID kv.2) else None)
     (map_to_list (access_offerings refreshed_tables)),
   refresh_Status <$> access_refreshes refreshed_tables !! (tenant, uuid 0),
   is_some (access_queue requested !! uuid 0), is_some (access_queue refreshed_tables !! uuid 0))
  = (["gpt-4o-mini"; "gpt-4o"], Some CatalogRefreshSucceeded, true, false).
Proof. vm_compute. reflexivity. Qed.

Lemma requested_served : served service requested.
Proof.
  apply served_call; [|apply alone_steady]. eapply served_other; [apply served_first|].
  apply rtc_once. apply (step_other (access_connections connected)
    (access_credentials connected) (access_outbox connected) no_access_tables).
  by intros k [? ?].
Qed.

Lemma refreshed_served : served service refreshed_tables.
Proof. apply served_call; [apply requested_served|apply alone_steady]. Qed.

Definition set_request (fallbacks : list string) : SetAgentModelBindingRequest := {|
  setReq_ActorUserId := user; setReq_TenantId := tenant; setReq_AgentId := agent;
  setReq_IdempotencyKey := uuid2 2 1; setReq_ExpectedVersion := 0;
  setReq_PrimaryOfferingId := uuid 3; setReq_FastOfferingId := None;
  setReq_FallbackOfferingIds := fallbacks;
  setReq_FallbackPolicy := match fallbacks with [] => FallbackPolicyNone
                                           | _ => FallbackPolicyOrdered end;
  setReq_MaxModelCostMicrousd := Some 1000 |}.

Definition bound_tables : access_tables :=
  (perform (serve service (CallSetAgentModelBinding ctx (set_request [uuid 7])))
     alone refreshed_tables).2.

Lemma bound_served : served service bound_tables.
Proof. apply served_call; [apply refreshed_served|apply alone_steady]. Qed.

Definition removal : RemoveAgentBindingInput := {|
  removeIn_ActorUserID := user; removeIn_TenantID := tenant; removeIn_AgentID := agent;
  removeIn_IdempotencyKey := uuid2 2 2; removeIn_ExpectedVersion := 1 |}.

(** A binding with a fallback is set; one without is refused, and one that is there stays. *)
Example bindings_set :
  (is_ok (perform (Server_SetAgentModelBinding service ctx (set_request [uuid 7]))
            alone refreshed_tables).1,
   (perform (Server_SetAgentModelBinding service ctx (set_request [])) alone refreshed_tables).1,
   (perform (RemoveAgentModelBinding service ctx removal) alone bound_tables).1)
  = (true, Err (ErrDatabase (ErrNotNullViolation "fallback_offering_ids")),
     Err (ErrDatabase (ErrNotNullViolation "fallback_offering_ids"))).
Proof. vm_compute. reflexivity. Qed.

Definition bound_row : AgentModelBinding :=
  default (newBinding (setBindingParams service ctx (set_input (set_request [])) company "" 0 None) 0)
    (access_bindings bound_tables !! (tenant, agent)).

Lemma binding_history_complete_witness :
  access_bindings bound_tables !! (tenant, agent) = Some bound_row ∧
  (∀ v, is_Some (access_revisions bound_tables !! (tenant, agent, v)) ↔
        1 ≤ v ≤ binding_Version bound_row).
Proof.
  assert (access_bindings bound_tables !! (tenant, agent) = Some bound_row) as Hrow
    by (vm_compute; reflexivity).
  split; [exact Hrow|].
  exact (proj1 (binding_history_complete service bound_tables tenant agent bound_row
                  bound_served Hrow)).
Defined.

Lemma bindings_need_fallbacks_witness :
  is_ok (perform (RemoveAgentModelBinding service ctx removal) alone bound_tables).1 = false ∧
  match (perform (Server_SetAgentModelBinding service ctx (set_request [uuid 7]))
           alone refreshed_tables).1 with
  | Ok b => slice_elems (binding_FallbackOfferingIDs b) ≠ []
  | Err _ => False
  end.
Proof.
  split.
  - destruct (bindings_need_fallbacks service ctx alone bound_tables bound_served alone_steady)
      as [_ Hremove]. specialize (Hremove removal).
    destruct (perform (RemoveAgentModelBinding service ctx removal) alone bound_tables).1
      as [b|e]; [by destruct (Hremove b)|done].
  - destruct (bindings_need_fallbacks service ctx alone refreshed_tables refreshed_served
      alone_steady) as [Hset _]. specialize (Hset (set_request [uuid 7])).
    assert (is_ok (perform (Server_SetAgentModelBinding service ctx (set_request [uuid 7]))
      alone refreshed_tables).1 = true) as Hok by (vm_compute; reflexivity).
    destruct (perform (Server_SetAgentModelBinding service ctx (set_request [uuid 7]))
      alone refreshed_tables).1 as [b|e]; [by apply Hset|done].
Defined.

Lemma plan_resolved_witness :
  is_ok (plan_of bound_tables tenant agent tenant agent 1000000) = true ∧
  (run (ResolveInferencePlan tenant agent 1000000) bound_tables (world_env alone 0)).2
    = bound_tables.
Proof.
  split; [vm_compute; reflexivity|].
  apply (plan_resolved service tenant agent tenant agent 1000000 bound_tables (world_env alone 0)
           bound_served); [by eexists|reflexivity..].
Defined.

(** The catalog file no longer has one of the models. *)
Definition second_refresh : ApplyCatalogRefreshParams := {|
  apply_ActorUserID := user; apply_TenantID := tenant;
  apply_ConnectionID := platform_connection; apply_RefreshID := "";
  apply_Discovered := [static_discovered "openai" (static_model "gpt-4o")];
  apply_Source := OfferingSourcePlatformCatalog; apply_RefreshedAt := 9000000 |}.

Definition applied :=
  run (ApplyCatalogRefresh ctx (λ n, Some (uuid n)) second_refresh) bound_tables (world_env alone 0).

Lemma applied_ok : is_ok applied.1 = true.
Proof. vm_compute. reflexivity. Qed.

Lemma catalog_refreshed_witness :
  is_ok applied.1 = true ∧
  ∃ t c, uuid_in tenant = Some t ∧ uuid_in platform_connection = Some c ∧
    keyed (access_offerings applied.2).
Proof.
  split; [exact applied_ok|].
  destruct (catalog_refreshed service ctx (λ n, Some (uuid n)) second_refresh bound_tables
    (world_env alone 0) (get_ok applied.1 applied_ok) applied.2 bound_served)
    as (t & c & Ht & Hc & _ & _ & Hk & _).
  - fold applied. rewrite <-(get_ok_Ok applied.1 applied_ok). by destruct applied.
  - by exists t, c.
Defined.

(** A model that was withdrawn leaves the fallback without a route; the plan goes on without. *)
Example plan_after_withdrawal :
  match plan_of applied.2 tenant agent tenant agent 0 with
  | Ok plan => Some (route_ProviderModelID (plan_PrimaryRoute plan),
                     List.length (plan_FallbackRoutes plan))
  | Err _ => None
  end = Some ("gpt-4o", 0%nat).
Proof. vm_compute. reflexivity. Qed.

Lemma pending_refreshes_queued_witness :
  is_some (access_queue requested !! uuid 0) = true ∧
  ∀ t i c, access_refreshes requested !! (t, i) = Some c →
    refresh_Status c = CatalogRefreshPending →
    ∃ job, access_queue requested !! i = Some job ∧ queue_TenantID job = t.
Proof.
  split; [vm_compute; reflexivity|].
  exact (proj2 (pending_refreshes_queued service requested requested_served)).
Defined.

Definition byok_job : CatalogRefreshJob := {|
  job_RefreshID := uuid 0; job_TenantID := tenant; job_ActorUserID := user;
  job_ConnectionID := byok_connection; job_Attempts := 1 |}.

Definition whisper : DiscoveredModel := {|
  model_ProviderKey := "openai"; model_ProviderModelID := "whisper-1";
  model_DisplayName := "Whisper 1";
  model_Description := "OpenAI model whisper-1 (owned by openai)"; model_AgentUsable := false;
  model_Capabilities := None; model_InputModalities := None; model_OutputModalities := None;
  model_ContextWindowTokens := 0; model_MaxOutputTokens := 0 |}.

Lemma uncurated_model_blocks_refresh_witness :
  ∃ e, (ExecuteCatalogRefresh service ctx byok_job alone (0%nat, requested)).1 = Err e.
Proof.
  eapply (uncurated_model_blocks_refresh service ctx byok_job alone 0 requested providers tenant
    byok_connection byok_row byok_credential "sk-key"); try done.
  - exact requested_served.
  - instantiate (1 := whisper). by right; left.
  - reflexivity.
Defined.

(** After 34 attempts the wait before the next one is negative, and the job is due at once. *)
Example worker_backoff_overflows :
  (worker_backoff worker 1, worker_backoff worker 20, worker_backoff worker 34)
  = (2000000000, 300000000000, -1266874889709551616).
Proof. vm_compute. reflexivity. Qed.

(** The text of a failure is longer than the column of its code: the refresh of a provider that
    is not available cannot be recorded as failed. *)
Example failure_not_recorded :
  (run (FailCatalogRefresh ctx (uuid 0) tenant user
          ("discovery_failed: " +:+ text_ErrCredentialVerificationUnavailable) 0)
     requested (world_env alone 0)).1
  = Err ErrInvalidArgument.
Proof. vm_compute. reflexivity. Qed.
