(* ===== verification/WorkDomain.v ===== *)
(** * Work management: domain and lifecycles

    Models [services/work-management/internal/domain] ([models.go], [errors.go])
    and the lifecycle rules of [internal/application] ([goalCanTransition],
    [projectCanTransition], [taskCanTransition]). Comments, artifacts,
    assignments and schedules are not modelled. *)

From S2P Require Import Prelude GoStrings Postgres.
From stdpp Require Import strings list.
From Stdlib Require Import String Lia.
Open Scope string_scope.
Open Scope list_scope.
Open Scope Z_scope.

(** ** errors.go

    [ErrDatabase] is an error of the database that is passed on unmapped,
    [ErrInternal] every other failure without a sentinel. *)
Inductive error :=
| ErrInvalidArgument
| ErrNotFound
| ErrForbidden
| ErrTenantNotActive
| ErrConflict
| ErrVersionConflict
| ErrCompanyNotActive
| ErrAgentNotUsable
| ErrDependencyCycle
| ErrTaskBlocked
| ErrChecklistOpen
| ErrProjectOpenTasks
| ErrGoalOpenProjects
| ErrInvalidTransition
| ErrCommentOwnership
| ErrDatabase (e : db_error)
| ErrInternal.

#[global] Instance error_eq_dec : EqDecision error.
Proof. solve_decision. Defined.
#[global] Instance work_db_error : DbError error := ErrDatabase.

(** ** models.go *)

Definition GoalStatus := string.
Definition GoalStatusActive : GoalStatus := "active".
Definition GoalStatusCompleted : GoalStatus := "completed".
Definition GoalStatusCanceled : GoalStatus := "canceled".
Definition GoalStatusArchived : GoalStatus := "archived".

Definition ProjectStatus := string.
Definition ProjectStatusPlanned : ProjectStatus := "planned".
Definition ProjectStatusActive : ProjectStatus := "active".
Definition ProjectStatusOnHold : ProjectStatus := "on_hold".
Definition ProjectStatusCompleted : ProjectStatus := "completed".
Definition ProjectStatusCanceled : ProjectStatus := "canceled".
Definition ProjectStatusArchived : ProjectStatus := "archived".

Definition TaskStatus := string.
Definition TaskStatusBacklog : TaskStatus := "backlog".
Definition TaskStatusReady : TaskStatus := "ready".
Definition TaskStatusInProgress : TaskStatus := "in_progress".
Definition TaskStatusWaitingApproval : TaskStatus := "waiting_approval".
Definition TaskStatusCompleted : TaskStatus := "completed".
Definition TaskStatusCanceled : TaskStatus := "canceled".

Definition TaskPriority := string.
Definition TaskPriorityLow : TaskPriority := "low".
Definition TaskPriorityNormal : TaskPriority := "normal".
Definition TaskPriorityHigh : TaskPriority := "high".
Definition TaskPriorityUrgent : TaskPriority := "urgent".

(** [time.Time] values are instants, as an integer number of nanoseconds. *)
Definition Time := Z.

Record Goal := {
  goal_TenantID : string;
  goal_CompanyID : string;
  goal_ID : string;
  goal_Title : string;
  goal_Description : string;
  goal_Status : GoalStatus;
  goal_Version : Z;
  goal_CreatedByUserID : string;
  goal_CreatedAt : Time;
  goal_UpdatedAt : Time;
  goal_CompletedAt : option Time;
  goal_ArchivedAt : option Time;
}.

Record Project := {
  project_TenantID : string;
  project_CompanyID : string;
  project_GoalID : string;
  project_ID : string;
  project_Title : string;
  project_Description : string;
  project_Status : ProjectStatus;
  project_Version : Z;
  project_CreatedByUserID : string;
  project_CreatedAt : Time;
  project_UpdatedAt : Time;
  project_CompletedAt : option Time;
  project_ArchivedAt : option Time;
}.

(** The struct also has the fields [Blocked], [DependencyCount] and
    [IncompleteDependencyCount], which no code reads or writes: those of
    [TaskView] hide them. *)
Record Task := {
  task_TenantID : string;
  task_CompanyID : string;
  task_ProjectID : string;
  task_ID : string;
  task_ParentTaskID : option string;
  task_Title : string;
  task_Description : string;
  task_Status : TaskStatus;
  task_Priority : TaskPriority;
  task_Version : Z;
  task_CreatedByUserID : string;
  task_CreatedAt : Time;
  task_UpdatedAt : Time;
  task_CompletedAt : option Time;
  task_CanceledAt : option Time;
}.

Record TaskView := {
  view_Task : Task;
  view_Blocked : bool;
  view_DependencyCount : Z;
  view_IncompleteDependencyCount : Z;
}.

Record TaskDependency := {
  dep_TenantID : string;
  dep_ProjectID : string;
  dep_TaskID : string;
  dep_DependsOnTaskID : string;
  dep_CreatedByUserID : string;
  dep_CreatedAt : Time;
}.

Record ChecklistItem := {
  item_TenantID : string;
  item_TaskID : string;
  item_ID : string;
  item_Title : string;
  item_Completed : bool;
  item_Position : Z;
  item_Version : Z;
  item_CreatedAt : Time;
  item_UpdatedAt : Time;
}.

(** ** Lifecycles

    [slices.Contains(allowed[current], next)] *)
Definition goalCanTransition (current next : GoalStatus) : bool :=
  String.eqb current next
  || (if String.eqb current GoalStatusActive then
        slices_Contains [GoalStatusCompleted; GoalStatusCanceled; GoalStatusArchived] next
      else if String.eqb current GoalStatusCompleted then
        slices_Contains [GoalStatusActive; GoalStatusArchived] next
      else if String.eqb current GoalStatusCanceled then
        slices_Contains [GoalStatusActive; GoalStatusArchived] next
      else false).

Definition projectCanTransition (current next : ProjectStatus) : bool :=
  String.eqb current next
  || (if String.eqb current ProjectStatusPlanned then
        slices_Contains [ProjectStatusActive; ProjectStatusOnHold; ProjectStatusCompleted;
                         ProjectStatusCanceled; ProjectStatusArchived] next
      else if String.eqb current ProjectStatusActive then
        slices_Contains [ProjectStatusPlanned; ProjectStatusOnHold; ProjectStatusCompleted;
                         ProjectStatusCanceled; ProjectStatusArchived] next
      else if String.eqb current ProjectStatusOnHold then
        slices_Contains [ProjectStatusPlanned; ProjectStatusActive; ProjectStatusCompleted;
                         ProjectStatusCanceled; ProjectStatusArchived] next
      else if String.eqb current ProjectStatusCompleted then
        slices_Contains [ProjectStatusPlanned; ProjectStatusActive; ProjectStatusCanceled;
                         ProjectStatusArchived] next
      else if String.eqb current ProjectStatusCanceled then
        slices_Contains [ProjectStatusPlanned; ProjectStatusActive;
                         ProjectStatusArchived] next
      else false).

Definition taskCanTransition (current next : TaskStatus) : bool :=
  String.eqb current next
  || slices_Contains
       (if String.eqb current TaskStatusBacklog then
          [TaskStatusReady; TaskStatusInProgress; TaskStatusWaitingApproval;
           TaskStatusCompleted; TaskStatusCanceled]
        else if String.eqb current TaskStatusReady then
          [TaskStatusBacklog; TaskStatusInProgress; TaskStatusWaitingApproval;
           TaskStatusCompleted; TaskStatusCanceled]
        else if String.eqb current TaskStatusInProgress then
          [TaskStatusBacklog; TaskStatusReady; TaskStatusWaitingApproval;
           TaskStatusCompleted; TaskStatusCanceled]
        else if String.eqb current TaskStatusWaitingApproval then
          [TaskStatusBacklog; TaskStatusReady; TaskStatusInProgress;
           TaskStatusCompleted; TaskStatusCanceled]
        else if String.eqb current TaskStatusCompleted then
          [TaskStatusBacklog; TaskStatusCanceled]
        else if String.eqb current TaskStatusCanceled then
          [TaskStatusBacklog; TaskStatusReady; TaskStatusInProgress]
        else []) next.

(** task.go: [deriveBlocked] *)
Definition deriveBlocked (view : TaskView) : bool :=
  if String.eqb (task_Status (view_Task view)) TaskStatusCompleted
     || String.eqb (task_Status (view_Task view)) TaskStatusCanceled
  then false
  else 0 <? view_IncompleteDependencyCount view.

(** task.go: [taskView] *)
Definition taskView (task : Task) : TaskView :=
  let view := {| view_Task := task; view_Blocked := false; view_DependencyCount := 0;
                 view_IncompleteDependencyCount := 0 |} in
  {| view_Task := task; view_Blocked := deriveBlocked view; view_DependencyCount := 0;
     view_IncompleteDependencyCount := 0 |}.
