(* ===== verification/WorkStore.v ===== *)
(** * Work management: tables, row security and SQL statements

    Models the tables of goals, projects, tasks, dependencies and checklist items
    of [services/work-management/migrations] and, one definition per statement,
    the SQL of [goal.go], [project.go], [task.go], [dependency.go] and
    [checklist.go] in [services/work-management/internal/adapters/postgres]. *)

From S2P Require Import Prelude GoStrings Postgres Outbox WorkDomain.
From stdpp Require Import strings gmap list sorting.
From Stdlib Require Import String Ascii Lia.
Open Scope string_scope.
Open Scope list_scope.
Open Scope Z_scope.

(** repository.go. Serialization failures (40001) do not occur at the isolation
    level that the transactions run at. *)
Definition mapDatabaseError (err : error) : error :=
  match err with
  | ErrDatabase ErrNoRows => ErrNotFound
  | ErrDatabase (ErrUniqueViolation _) => ErrConflict
  | ErrDatabase (ErrForeignKeyViolation _) => ErrInvalidArgument
  | ErrDatabase (ErrCheckViolation _) => ErrInvalidArgument
  | _ => err
  end.

(** ** Checks of the schema *)

Definition goal_checks (g : Goal) : bool :=
  in_bounds 1 200 (char_length (goal_Title g))
  && (char_length (goal_Description g) <=? 8000)
  && slices_Contains [GoalStatusActive; GoalStatusCompleted; GoalStatusCanceled;
                      GoalStatusArchived] (goal_Status g)
  && (0 <? goal_Version g)
  && (String.eqb (goal_Status g) GoalStatusCompleted
        && is_some (goal_CompletedAt g) && negb (is_some (goal_ArchivedAt g))
      || String.eqb (goal_Status g) GoalStatusArchived && is_some (goal_ArchivedAt g)
      || slices_Contains [GoalStatusActive; GoalStatusCanceled] (goal_Status g)
           && negb (is_some (goal_CompletedAt g)) && negb (is_some (goal_ArchivedAt g))).

Definition project_checks (p : Project) : bool :=
  in_bounds 1 200 (char_length (project_Title p))
  && (char_length (project_Description p) <=? 8000)
  && slices_Contains [ProjectStatusPlanned; ProjectStatusActive; ProjectStatusOnHold;
                      ProjectStatusCompleted; ProjectStatusCanceled;
                      ProjectStatusArchived] (project_Status p)
  && (0 <? project_Version p)
  && (String.eqb (project_Status p) ProjectStatusCompleted
        && is_some (project_CompletedAt p) && negb (is_some (project_ArchivedAt p))
      || String.eqb (project_Status p) ProjectStatusArchived
         && is_some (project_ArchivedAt p)
      || slices_Contains [ProjectStatusPlanned; ProjectStatusActive; ProjectStatusOnHold;
                          ProjectStatusCanceled] (project_Status p)
           && negb (is_some (project_CompletedAt p))
           && negb (is_some (project_ArchivedAt p))).

Definition task_checks (t : Task) : bool :=
  match task_ParentTaskID t with
  | Some parent => negb (String.eqb parent (task_ID t)) | None => true end
  && in_bounds 1 300 (char_length (task_Title t))
  && (char_length (task_Description t) <=? 32000)
  && slices_Contains [TaskStatusBacklog; TaskStatusReady; TaskStatusInProgress;
                      TaskStatusWaitingApproval; TaskStatusCompleted;
                      TaskStatusCanceled] (task_Status t)
  && slices_Contains [TaskPriorityLow; TaskPriorityNormal; TaskPriorityHigh;
                      TaskPriorityUrgent] (task_Priority t)
  && (0 <? task_Version t)
  && (String.eqb (task_Status t) TaskStatusCompleted
        && is_some (task_CompletedAt t) && negb (is_some (task_CanceledAt t))
      || String.eqb (task_Status t) TaskStatusCanceled
         && is_some (task_CanceledAt t) && negb (is_some (task_CompletedAt t))
      || negb (slices_Contains [TaskStatusCompleted; TaskStatusCanceled] (task_Status t))
         && negb (is_some (task_CompletedAt t)) && negb (is_some (task_CanceledAt t))).

Definition item_checks (i : ChecklistItem) : bool :=
  in_bounds 1 500 (char_length (item_Title i)) && (0 <=? item_Position i)
  && (0 <? item_Version i).

Section Store.
Context `{Platform, Proto}.

(** ** Tables

    Rows by primary key: the tenant and the row's identifier; a dependency's key
    is the tenant, the task and its prerequisite. *)
Record work_tables := {
  work_goals : gmap (string * string) Goal;
  work_projects : gmap (string * string) Project;
  work_tasks : gmap (string * string) Task;
  work_dependencies : gmap (string * string * string) TaskDependency;
  work_checklist : gmap (string * string) ChecklistItem;
  work_outbox : outbox_table;
}.

Definition set_work_goals v (db : work_tables) : work_tables := {|
  work_goals := v; work_projects := work_projects db; work_tasks := work_tasks db;
  work_dependencies := work_dependencies db; work_checklist := work_checklist db;
  work_outbox := work_outbox db |}.
Definition set_work_projects v (db : work_tables) : work_tables := {|
  work_goals := work_goals db; work_projects := v; work_tasks := work_tasks db;
  work_dependencies := work_dependencies db; work_checklist := work_checklist db;
  work_outbox := work_outbox db |}.
Definition set_work_tasks v (db : work_tables) : work_tables := {|
  work_goals := work_goals db; work_projects := work_projects db; work_tasks := v;
  work_dependencies := work_dependencies db; work_checklist := work_checklist db;
  work_outbox := work_outbox db |}.
Definition set_work_dependencies v (db : work_tables) : work_tables := {|
  work_goals := work_goals db; work_projects := work_projects db;
  work_tasks := work_tasks db; work_dependencies := v;
  work_checklist := work_checklist db; work_outbox := work_outbox db |}.
Definition set_work_checklist v (db : work_tables) : work_tables := {|
  work_goals := work_goals db; work_projects := work_projects db;
  work_tasks := work_tasks db; work_dependencies := work_dependencies db;
  work_checklist := v; work_outbox := work_outbox db |}.
Definition set_work_outbox v (db : work_tables) : work_tables := {|
  work_goals := work_goals db; work_projects := work_projects db;
  work_tasks := work_tasks db; work_dependencies := work_dependencies db;
  work_checklist := work_checklist db; work_outbox := v |}.

Definition no_work_tables : work_tables := {|
  work_goals := ∅; work_projects := ∅; work_tasks := ∅; work_dependencies := ∅;
  work_checklist := ∅; work_outbox := {| outbox_rows := ∅; outbox_next := 1 |} |}.

(** A single row by its key. *)
Definition sql_row {R} (table : work_tables → gmap (string * string) R)
    (tenantID id : string) (sc : Scope) (db : work_tables) : result db_error R :=
  r ← rls_of sc; t ← cast tenantID; i ← cast id;
  match table db !! (t, i) with
  | Some row => if tenant_scoped r t then Ok row else Err ErrNoRows
  | None => Err ErrNoRows
  end.

(** The guarded updates: [SET ..., version = version + 1 ... WHERE tenant_id = $1
    AND id = $2 AND version = $3]. The value is the affected-row count. *)
Definition sql_versioned_update {R} (table : work_tables → gmap (string * string) R)
    (set : gmap (string * string) R → work_tables → work_tables) (version : R → Z)
    (checks : R → bool) (name tenantID id : string) (expected : Z) (change : R → R)
    (sc : Scope) (db : work_tables) : result db_error (Z * work_tables) :=
  r ← rls_of sc; t ← cast tenantID; i ← cast id;
  match table db !! (t, i) with
  | Some row =>
      if tenant_scoped r t && (version row =? expected) then
        fail_if (int64_max <? version row + 1) ErrOutOfRange;;
        fail_if (negb (checks (change row))) (ErrCheckViolation name);;
        Ok (1, set (<[(t, i) := change row]> (table db)) db)
      else Ok (0, db)
  | None => Ok (0, db)
  end.

(** ** goal.go *)

Definition sql_insert_goal (g : Goal) (sc : Scope) (db : work_tables)
  : result db_error (unit * work_tables) :=
  r ← rls_of sc; t ← cast (goal_TenantID g); c ← cast (goal_CompanyID g);
  i ← cast (goal_ID g); u ← cast (goal_CreatedByUserID g);
  let row := {|
    goal_TenantID := t; goal_CompanyID := c; goal_ID := i; goal_Title := goal_Title g;
    goal_Description := goal_Description g; goal_Status := goal_Status g;
    goal_Version := goal_Version g; goal_CreatedByUserID := u;
    goal_CreatedAt := timestamptz (goal_CreatedAt g);
    goal_UpdatedAt := timestamptz (goal_UpdatedAt g);
    goal_CompletedAt := timestamptz <$> goal_CompletedAt g;
    goal_ArchivedAt := timestamptz <$> goal_ArchivedAt g |} in
  fail_if (negb (tenant_scoped r t)) (ErrRowSecurity "work_goals");;
  fail_if (negb (goal_checks row)) (ErrCheckViolation "work_goals");;
  fail_if (is_some (work_goals db !! (t, i))) (ErrUniqueViolation "work_goals_pkey");;
  Ok (tt, set_work_goals (<[(t, i) := row]> (work_goals db)) db).

Definition sql_goal : string → string → Scope → work_tables → result db_error Goal :=
  sql_row work_goals.

Definition sql_list_goals (tenantID companyID : string) (limit : Z)
    (cursor : option string) (includeArchived : bool) (sc : Scope) (db : work_tables)
  : result db_error (list Goal) :=
  r ← rls_of sc; t ← cast tenantID; c ← cast companyID; from ← cast_option cursor;
  Ok (sql_page goal_ID limit (λ g,
        String.eqb (goal_TenantID g) t && tenant_scoped r t
        && String.eqb (goal_CompanyID g) c && after from (goal_ID g)
        && (includeArchived || negb (String.eqb (goal_Status g) GoalStatusArchived)))
       (snd <$> map_to_list (work_goals db))).

Definition sql_update_goal := sql_versioned_update work_goals set_work_goals goal_Version
  goal_checks "work_goals".

Definition goal_updated (g : Goal) (row : Goal) : Goal := {|
  goal_TenantID := goal_TenantID row; goal_CompanyID := goal_CompanyID row;
  goal_ID := goal_ID row; goal_Title := goal_Title g;
  goal_Description := goal_Description g; goal_Status := goal_Status row;
  goal_Version := goal_Version row + 1;
  goal_CreatedByUserID := goal_CreatedByUserID row; goal_CreatedAt := goal_CreatedAt row;
  goal_UpdatedAt := timestamptz (goal_UpdatedAt g);
  goal_CompletedAt := goal_CompletedAt row; goal_ArchivedAt := goal_ArchivedAt row |}.

Definition goal_status_changed (g : Goal) (row : Goal) : Goal := {|
  goal_TenantID := goal_TenantID row; goal_CompanyID := goal_CompanyID row;
  goal_ID := goal_ID row; goal_Title := goal_Title row;
  goal_Description := goal_Description row; goal_Status := goal_Status g;
  goal_Version := goal_Version row + 1;
  goal_CreatedByUserID := goal_CreatedByUserID row; goal_CreatedAt := goal_CreatedAt row;
  goal_UpdatedAt := timestamptz (goal_UpdatedAt g);
  goal_CompletedAt := timestamptz <$> goal_CompletedAt g;
  goal_ArchivedAt := timestamptz <$> goal_ArchivedAt g |}.

(** The open projects of the goal's company. *)
Definition sql_has_open_projects (tenantID companyID : string) (sc : Scope)
    (db : work_tables) : result db_error bool :=
  r ← rls_of sc; t ← cast tenantID; c ← cast companyID;
  Ok (table_any (λ p,
        String.eqb (project_TenantID p) t && tenant_scoped r t
        && String.eqb (project_CompanyID p) c
        && negb (slices_Contains [ProjectStatusCompleted; ProjectStatusCanceled;
                                  ProjectStatusArchived] (project_Status p)))
       (work_projects db)).

(** ** project.go *)

Definition sql_insert_project (p : Project) (sc : Scope) (db : work_tables)
  : result db_error (unit * work_tables) :=
  r ← rls_of sc; t ← cast (project_TenantID p); c ← cast (project_CompanyID p);
  g ← cast (project_GoalID p); i ← cast (project_ID p);
  u ← cast (project_CreatedByUserID p);
  let row := {|
    project_TenantID := t; project_CompanyID := c; project_GoalID := g; project_ID := i;
    project_Title := project_Title p; project_Description := project_Description p;
    project_Status := project_Status p; project_Version := project_Version p;
    project_CreatedByUserID := u; project_CreatedAt := timestamptz (project_CreatedAt p);
    project_UpdatedAt := timestamptz (project_UpdatedAt p);
    project_CompletedAt := timestamptz <$> project_CompletedAt p;
    project_ArchivedAt := timestamptz <$> project_ArchivedAt p |} in
  fail_if (negb (tenant_scoped r t)) (ErrRowSecurity "work_projects");;
  fail_if (negb (project_checks row)) (ErrCheckViolation "work_projects");;
  fail_if (is_some (work_projects db !! (t, i))) (ErrUniqueViolation "work_projects_pkey");;
  fail_if (match work_goals db !! (t, g) with
           | Some goal => negb (String.eqb (goal_CompanyID goal) c) | None => true end)
    (ErrForeignKeyViolation "work_projects");;
  Ok (tt, set_work_projects (<[(t, i) := row]> (work_projects db)) db).

Definition sql_project : string → string → Scope → work_tables → result db_error Project :=
  sql_row work_projects.

(** [goalID] is the empty string when there is no filter. *)
Definition sql_list_projects (tenantID companyID goalID : string) (limit : Z)
    (cursor : option string) (includeArchived : bool) (sc : Scope) (db : work_tables)
  : result db_error (list Project) :=
  r ← rls_of sc; t ← cast tenantID; c ← cast companyID;
  goal ← cast_option (if String.eqb goalID "" then None else Some goalID);
  from ← cast_option cursor;
  Ok (sql_page project_ID limit (λ p,
        String.eqb (project_TenantID p) t && tenant_scoped r t
        && String.eqb (project_CompanyID p) c
        && match goal with Some g => String.eqb (project_GoalID p) g | None => true end
        && after from (project_ID p)
        && (includeArchived || negb (String.eqb (project_Status p) ProjectStatusArchived)))
       (snd <$> map_to_list (work_projects db))).

Definition sql_update_project := sql_versioned_update work_projects set_work_projects
  project_Version project_checks "work_projects".

Definition project_updated (p : Project) (row : Project) : Project := {|
  project_TenantID := project_TenantID row; project_CompanyID := project_CompanyID row;
  project_GoalID := project_GoalID row; project_ID := project_ID row;
  project_Title := project_Title p; project_Description := project_Description p;
  project_Status := project_Status row; project_Version := project_Version row + 1;
  project_CreatedByUserID := project_CreatedByUserID row;
  project_CreatedAt := project_CreatedAt row;
  project_UpdatedAt := timestamptz (project_UpdatedAt p);
  project_CompletedAt := project_CompletedAt row;
  project_ArchivedAt := project_ArchivedAt row |}.

Definition project_status_changed (p : Project) (row : Project) : Project := {|
  project_TenantID := project_TenantID row; project_CompanyID := project_CompanyID row;
  project_GoalID := project_GoalID row; project_ID := project_ID row;
  project_Title := project_Title row; project_Description := project_Description row;
  project_Status := project_Status p; project_Version := project_Version row + 1;
  project_CreatedByUserID := project_CreatedByUserID row;
  project_CreatedAt := project_CreatedAt row;
  project_UpdatedAt := timestamptz (project_UpdatedAt p);
  project_CompletedAt := timestamptz <$> project_CompletedAt p;
  project_ArchivedAt := timestamptz <$> project_ArchivedAt p |}.

Definition sql_has_open_tasks (tenantID projectID : string) (sc : Scope)
    (db : work_tables) : result db_error bool :=
  r ← rls_of sc; t ← cast tenantID; p ← cast projectID;
  Ok (table_any (λ k,
        String.eqb (task_TenantID k) t && tenant_scoped r t
        && String.eqb (task_ProjectID k) p
        && negb (slices_Contains [TaskStatusCompleted; TaskStatusCanceled] (task_Status k)))
       (work_tasks db)).

(** ** task.go *)

Definition sql_insert_task (k : Task) (sc : Scope) (db : work_tables)
  : result db_error (unit * work_tables) :=
  r ← rls_of sc; t ← cast (task_TenantID k); c ← cast (task_CompanyID k);
  p ← cast (task_ProjectID k); i ← cast (task_ID k);
  parent ← cast_option (task_ParentTaskID k); u ← cast (task_CreatedByUserID k);
  let row := {|
    task_TenantID := t; task_CompanyID := c; task_ProjectID := p; task_ID := i;
    task_ParentTaskID := parent; task_Title := task_Title k;
    task_Description := task_Description k; task_Status := task_Status k;
    task_Priority := task_Priority k; task_Version := task_Version k;
    task_CreatedByUserID := u; task_CreatedAt := timestamptz (task_CreatedAt k);
    task_UpdatedAt := timestamptz (task_UpdatedAt k);
    task_CompletedAt := timestamptz <$> task_CompletedAt k;
    task_CanceledAt := timestamptz <$> task_CanceledAt k |} in
  fail_if (negb (tenant_scoped r t)) (ErrRowSecurity "work_tasks");;
  fail_if (negb (task_checks row)) (ErrCheckViolation "work_tasks");;
  fail_if (is_some (work_tasks db !! (t, i))) (ErrUniqueViolation "work_tasks_pkey");;
  fail_if (match work_projects db !! (t, p) with
           | Some project => negb (String.eqb (project_CompanyID project) c)
           | None => true end) (ErrForeignKeyViolation "work_tasks");;
  fail_if (match parent with
           | Some q => match work_tasks db !! (t, q) with
                       | Some k' => negb (String.eqb (task_CompanyID k') c
                                          && String.eqb (task_ProjectID k') p)
                       | None => true
                       end
           | None => false end) (ErrForeignKeyViolation "work_tasks");;
  Ok (tt, set_work_tasks (<[(t, i) := row]> (work_tasks db)) db).

Definition sql_task : string → string → Scope → work_tables → result db_error Task :=
  sql_row work_tasks.

(** The prerequisites of a task, and those that are not completed. *)
Definition dependency_rows (t i : string) (db : work_tables) : list TaskDependency :=
  List.filter (λ d, String.eqb (dep_TenantID d) t && String.eqb (dep_TaskID d) i)
    (snd <$> map_to_list (work_dependencies db)).

Definition incomplete_dependencies (t i : string) (db : work_tables) : list TaskDependency :=
  List.filter (λ d,
    match work_tasks db !! (t, dep_DependsOnTaskID d) with
    | Some k => negb (String.eqb (task_Status k) TaskStatusCompleted)
    | None => false
    end) (dependency_rows t i db).

(** [taskViewSelect] and [scanTaskView]: a row with its counts. *)
Definition view_of (db : work_tables) (k : Task) : TaskView :=
  let view := {|
    view_Task := k; view_Blocked := false;
    view_DependencyCount :=
      Z.of_nat (List.length (dependency_rows (task_TenantID k) (task_ID k) db));
    view_IncompleteDependencyCount :=
      Z.of_nat (List.length (incomplete_dependencies (task_TenantID k) (task_ID k) db)) |} in
  {| view_Task := k; view_Blocked := deriveBlocked view;
     view_DependencyCount := view_DependencyCount view;
     view_IncompleteDependencyCount := view_IncompleteDependencyCount view |}.

Definition sql_task_view (tenantID taskID : string) (sc : Scope) (db : work_tables)
  : result db_error TaskView :=
  k ← sql_task tenantID taskID sc db; Ok (view_of db k).

Definition sql_list_tasks (tenantID companyID projectID : string) (limit : Z)
    (cursor : option string) (includeCanceled : bool) (sc : Scope) (db : work_tables)
  : result db_error (list TaskView) :=
  r ← rls_of sc; t ← cast tenantID; c ← cast companyID; p ← cast projectID;
  from ← cast_option cursor;
  Ok (view_of db <$> sql_page task_ID limit (λ k,
        String.eqb (task_TenantID k) t && tenant_scoped r t
        && String.eqb (task_CompanyID k) c && String.eqb (task_ProjectID k) p
        && after from (task_ID k)
        && (includeCanceled || negb (String.eqb (task_Status k) TaskStatusCanceled)))
       (snd <$> map_to_list (work_tasks db))).

Definition sql_update_task := sql_versioned_update work_tasks set_work_tasks task_Version
  task_checks "work_tasks".

Definition task_updated (k : Task) (row : Task) : Task := {|
  task_TenantID := task_TenantID row; task_CompanyID := task_CompanyID row;
  task_ProjectID := task_ProjectID row; task_ID := task_ID row;
  task_ParentTaskID := task_ParentTaskID row; task_Title := task_Title k;
  task_Description := task_Description k; task_Status := task_Status row;
  task_Priority := task_Priority k; task_Version := task_Version row + 1;
  task_CreatedByUserID := task_CreatedByUserID row; task_CreatedAt := task_CreatedAt row;
  task_UpdatedAt := timestamptz (task_UpdatedAt k);
  task_CompletedAt := task_CompletedAt row; task_CanceledAt := task_CanceledAt row |}.

Definition task_status_changed (k : Task) (row : Task) : Task := {|
  task_TenantID := task_TenantID row; task_CompanyID := task_CompanyID row;
  task_ProjectID := task_ProjectID row; task_ID := task_ID row;
  task_ParentTaskID := task_ParentTaskID row; task_Title := task_Title row;
  task_Description := task_Description row; task_Status := task_Status k;
  task_Priority := task_Priority row; task_Version := task_Version row + 1;
  task_CreatedByUserID := task_CreatedByUserID row; task_CreatedAt := task_CreatedAt row;
  task_UpdatedAt := timestamptz (task_UpdatedAt k);
  task_CompletedAt := timestamptz <$> task_CompletedAt k;
  task_CanceledAt := timestamptz <$> task_CanceledAt k |}.

Definition sql_has_incomplete_dependencies (tenantID taskID : string) (sc : Scope)
    (db : work_tables) : result db_error bool :=
  r ← rls_of sc; t ← cast tenantID; i ← cast taskID;
  Ok (tenant_scoped r t
      && match incomplete_dependencies t i db with [] => false | _ => true end).

Definition sql_has_open_checklist (tenantID taskID : string) (sc : Scope)
    (db : work_tables) : result db_error bool :=
  r ← rls_of sc; t ← cast tenantID; i ← cast taskID;
  Ok (table_any (λ item,
        String.eqb (item_TenantID item) t && tenant_scoped r t
        && String.eqb (item_TaskID item) i && negb (item_Completed item))
       (work_checklist db)).

(** ** dependency.go *)

(** [SELECT 1 FROM work_projects ... FOR UPDATE]: waits for the row's lock. *)
Definition sql_lock_project (tenantID projectID : string) (sc : Scope) (db : work_tables)
  : result db_error unit :=
  _ ← rls_of sc; _ ← cast tenantID; _ ← cast projectID; Ok tt.

(** The prerequisites of the tasks in [from], in one tenant's graph. *)
Definition edges := list (string * string).

Definition tenant_edges (t : string) (db : work_tables) : edges :=
  (λ d, (dep_TaskID d, dep_DependsOnTaskID d)) <$>
    List.filter (λ d, String.eqb (dep_TenantID d) t)
      (snd <$> map_to_list (work_dependencies db)).

Definition prerequisites (es : edges) (from : gset string) : gset string :=
  list_to_set (snd <$> filter (λ e, e.1 ∈ from) es).

(** [WITH RECURSIVE ... UNION ...]: the rows found so far and the working table,
    whose prerequisites are the next rows; rows found before are discarded
    ([UNION], not [UNION ALL]) and the query ends when no new row is found.
    [None] when the fuel runs out. *)
Fixpoint recursive_union (fuel : nat) (es : edges) (found working : gset string)
  : option (gset string) :=
  match fuel with
  | O => None
  | S fuel' =>
      let new := prerequisites es working ∖ found in
      if decide (new = ∅) then Some found
      else recursive_union fuel' es (found ∪ new) new
  end.

(** As many rounds as there are edges, and the one that finds nothing. *)
Definition chain (es : edges) (from : string) : option (gset string) :=
  let start := prerequisites es {[from]} in
  recursive_union (S (List.length es)) es start start.

(** [dependencyCycleExists]'s query: is [taskID] in the chain of [prerequisiteID]? *)
Definition sql_dependency_cycle (tenantID prerequisiteID taskID : string) (sc : Scope)
    (db : work_tables) : result db_error bool :=
  r ← rls_of sc; t ← cast tenantID; p ← cast prerequisiteID; i ← cast taskID;
  let visible := if tenant_scoped r t then tenant_edges t db else [] in
  rows ← from_option_err ErrConnection (chain visible p);
  Ok (bool_decide (i ∈ rows)).

Definition sql_insert_dependency (projectID : string) (d : TaskDependency) (sc : Scope)
    (db : work_tables) : result db_error (unit * work_tables) :=
  r ← rls_of sc; t ← cast (dep_TenantID d); p ← cast projectID; i ← cast (dep_TaskID d);
  o ← cast (dep_DependsOnTaskID d); u ← cast (dep_CreatedByUserID d);
  let row := {|
    dep_TenantID := t; dep_ProjectID := p; dep_TaskID := i; dep_DependsOnTaskID := o;
    dep_CreatedByUserID := u; dep_CreatedAt := timestamptz (dep_CreatedAt d) |} in
  let in_project := λ k, match work_tasks db !! (t, k) with
    | Some task => String.eqb (task_ProjectID task) p | None => false end in
  fail_if (negb (tenant_scoped r t)) (ErrRowSecurity "work_task_dependencies");;
  fail_if (String.eqb i o) (ErrCheckViolation "work_task_dependencies_not_self");;
  fail_if (is_some (work_dependencies db !! (t, i, o)))
    (ErrUniqueViolation "work_task_dependencies_pkey");;
  fail_if (negb (in_project i && in_project o))
    (ErrForeignKeyViolation "work_task_dependencies");;
  Ok (tt, set_work_dependencies (<[(t, i, o) := row]> (work_dependencies db)) db).

Definition sql_delete_dependency (tenantID taskID dependsOnTaskID : string) (sc : Scope)
    (db : work_tables) : result db_error (Z * work_tables) :=
  r ← rls_of sc; t ← cast tenantID; i ← cast taskID; o ← cast dependsOnTaskID;
  if tenant_scoped r t && is_some (work_dependencies db !! (t, i, o)) then
    Ok (1, set_work_dependencies (delete (t, i, o) (work_dependencies db)) db)
  else Ok (0, db).

(** ** checklist.go *)

Definition sql_task_exists (tenantID taskID : string) (sc : Scope) (db : work_tables)
  : result db_error bool :=
  r ← rls_of sc; t ← cast tenantID; i ← cast taskID;
  Ok (tenant_scoped r t && is_some (work_tasks db !! (t, i))).

Definition sql_insert_item (item : ChecklistItem) (sc : Scope) (db : work_tables)
  : result db_error (unit * work_tables) :=
  r ← rls_of sc; t ← cast (item_TenantID item); k ← cast (item_TaskID item);
  i ← cast (item_ID item);
  let row := {|
    item_TenantID := t; item_TaskID := k; item_ID := i; item_Title := item_Title item;
    item_Completed := item_Completed item; item_Position := item_Position item;
    item_Version := item_Version item; item_CreatedAt := timestamptz (item_CreatedAt item);
    item_UpdatedAt := timestamptz (item_UpdatedAt item) |} in
  fail_if (negb (tenant_scoped r t)) (ErrRowSecurity "work_checklist_items");;
  fail_if (negb (item_checks row)) (ErrCheckViolation "work_checklist_items");;
  fail_if (is_some (work_checklist db !! (t, i)))
    (ErrUniqueViolation "work_checklist_items_pkey");;
  fail_if (negb (is_some (work_tasks db !! (t, k))))
    (ErrForeignKeyViolation "work_checklist_items");;
  Ok (tt, set_work_checklist (<[(t, i) := row]> (work_checklist db)) db).

(** The row of the item, of that task. *)
Definition sql_item (tenantID taskID itemID : string) (sc : Scope) (db : work_tables)
  : result db_error ChecklistItem :=
  row ← sql_row work_checklist tenantID itemID sc db; k ← cast taskID;
  if String.eqb (item_TaskID row) k then Ok row else Err ErrNoRows.

Definition item_updated (item : ChecklistItem) (row : ChecklistItem) : ChecklistItem := {|
  item_TenantID := item_TenantID row; item_TaskID := item_TaskID row;
  item_ID := item_ID row; item_Title := item_Title item;
  item_Completed := item_Completed item; item_Position := item_Position row;
  item_Version := item_Version row + 1; item_CreatedAt := item_CreatedAt row;
  item_UpdatedAt := timestamptz (item_UpdatedAt item) |}.

Definition sql_update_item (tenantID taskID itemID : string) (expected : Z)
    (change : ChecklistItem → ChecklistItem) (sc : Scope) (db : work_tables)
  : result db_error (Z * work_tables) :=
  match sql_item tenantID taskID itemID sc db with
  | Ok _ => sql_versioned_update work_checklist set_work_checklist item_Version item_checks
              "work_checklist_items" tenantID itemID expected change sc db
  | Err ErrNoRows => Ok (0, db)
  | Err e => Err e
  end.

Definition sql_delete_item (tenantID taskID itemID : string) (sc : Scope)
    (db : work_tables) : result db_error (Z * work_tables) :=
  t ← cast tenantID; i ← cast itemID;
  match sql_item tenantID taskID itemID sc db with
  | Ok _ => Ok (1, set_work_checklist (delete (t, i) (work_checklist db)) db)
  | Err ErrNoRows => Ok (0, db)
  | Err e => Err e
  end.

(** [ORDER BY position, item_id] *)
Definition item_le (a b : ChecklistItem) : Prop :=
  item_Position a < item_Position b ∨
  item_Position a = item_Position b ∧ String.leb (item_ID a) (item_ID b) = true.
#[export] Instance item_le_dec : RelDecision item_le.
Proof. intros a b. unfold item_le. apply _. Defined.

Definition sql_list_checklist (tenantID taskID : string) (sc : Scope) (db : work_tables)
  : result db_error (list ChecklistItem) :=
  r ← rls_of sc; t ← cast tenantID; k ← cast taskID;
  Ok (merge_sort item_le (List.filter (λ item,
        String.eqb (item_TenantID item) t && tenant_scoped r t
        && String.eqb (item_TaskID item) k) (snd <$> map_to_list (work_checklist db)))).

End Store.
