(* ===== verification/WorkRepository.v ===== *)
(** * Work management: the repository

    Models [services/work-management/internal/adapters/postgres] ([repository.go],
    [goal.go], [project.go], [task.go], [dependency.go], [checklist.go]) and the
    parameter structs of [internal/ports/repository.go]. *)

From S2P Require Import Prelude GoStrings Postgres Usecase Outbox.
From S2P Require Import WorkDomain WorkStore.
From stdpp Require Import strings gmap list.
From Stdlib Require Import String Lia.
Open Scope string_scope.
Open Scope list_scope.
Open Scope Z_scope.

Section Repository.
Context `{Platform, Proto}.

(** ** ports/repository.go *)

Record CreateGoalParams := {
  createGoal_ActorUserID : string;
  createGoal_Goal : Goal;
  createGoal_Event : OutboxEvent;
}.

Record UpdateGoalParams := {
  updateGoal_ActorUserID : string;
  updateGoal_Goal : Goal;
  updateGoal_ExpectedVersion : Z;
  updateGoal_Event : OutboxEvent;
}.

Record CreateProjectParams := {
  createProject_ActorUserID : string;
  createProject_Project : Project;
  createProject_Event : OutboxEvent;
}.

Record UpdateProjectParams := {
  updateProject_ActorUserID : string;
  updateProject_Project : Project;
  updateProject_ExpectedVersion : Z;
  updateProject_Event : OutboxEvent;
}.

Record CreateTaskParams := {
  createTask_ActorUserID : string;
  createTask_Task : Task;
  createTask_Event : OutboxEvent;
}.

Record UpdateTaskParams := {
  updateTask_ActorUserID : string;
  updateTask_Task : Task;
  updateTask_ExpectedVersion : Z;
  updateTask_Event : OutboxEvent;
}.

Record TaskChangeParams := {
  taskChange_ActorUserID : string;
  taskChange_Task : Task;
  taskChange_PreviousStatus : TaskStatus;
  taskChange_ExpectedVersion : Z;
  taskChange_Event : OutboxEvent;
}.

(** [AddDependencyParams] and [RemoveDependencyParams]. *)
Record DependencyParams := {
  dependency_ActorUserID : string;
  dependency_Dependency : TaskDependency;
  dependency_Event : OutboxEvent;
}.

(** [AddChecklistItemParams] and [DeleteChecklistItemParams]. *)
Record ChecklistItemParams := {
  checklist_ActorUserID : string;
  checklist_Item : ChecklistItem;
  checklist_Event : OutboxEvent;
}.

Record UpdateChecklistItemParams := {
  updateItem_ActorUserID : string;
  updateItem_Item : ChecklistItem;
  updateItem_ExpectedVersion : Z;
  updateItem_Event : OutboxEvent;
}.

(** ** repository.go *)

Definition repo (A : Type) : Type := tx work_tables error A.

Definition beginUserTenant (ctx : Ctx) (tenantID actorUserID : string)
    (read_only : bool) : repo unit :=
  Begin (TenantScope tenantID actorUserID (ctx_RequestID ctx) (ctx_CorrelationID ctx))
    read_only.

Definition insertOutbox (tenantID : string) (event : OutboxEvent) : repo unit :=
  map_err mapDatabaseError
    (now ← clock_timestamp;
     exec (λ _ db, ob ← sql_insert_outbox now tenantID event (work_outbox db);
                   Ok (tt, set_work_outbox ob db))).

(** [rejectGoalVersionOrMissing] and its copies: what zero affected rows mean. *)
Definition rejectVersionOrMissing {R} (row : Scope → work_tables → result db_error R)
  : repo unit :=
  _ ← map_err (λ e, match e with ErrDatabase ErrNoRows => ErrNotFound | _ => e end)
        (query row);
  lift (Err ErrVersionConflict).

(** A guarded update and the reading of its affected-row count. *)
Definition versioned {R} (update : Scope → work_tables → result db_error (Z * work_tables))
    (row : Scope → work_tables → result db_error R) : repo unit :=
  affected ← map_err mapDatabaseError (exec update);
  if affected =? 0 then rejectVersionOrMissing row else mret tt.

(** ** goal.go *)

Definition CreateGoal (ctx : Ctx) (params : CreateGoalParams) : repo Goal :=
  let goal := createGoal_Goal params in
  beginUserTenant ctx (goal_TenantID goal) (createGoal_ActorUserID params) false;;
  map_err mapDatabaseError (exec (sql_insert_goal goal));;
  insertOutbox (goal_TenantID goal) (createGoal_Event params);;
  commit;; mret goal.

Definition GetGoal (ctx : Ctx) (actorUserID tenantID goalID : string) : repo Goal :=
  beginUserTenant ctx tenantID actorUserID true;;
  goal ← map_err mapDatabaseError (query (sql_goal tenantID goalID));
  commit;; mret goal.

Definition ListGoals (ctx : Ctx) (actorUserID tenantID companyID : string) (limit : Z)
    (cursor : option string) (includeArchived : bool) : repo (list Goal) :=
  beginUserTenant ctx tenantID actorUserID true;;
  goals ← map_err mapDatabaseError
            (query (sql_list_goals tenantID companyID limit cursor includeArchived));
  commit;; mret goals.

Definition UpdateGoal (ctx : Ctx) (params : UpdateGoalParams) : repo Goal :=
  let goal := updateGoal_Goal params in
  let tenantID := goal_TenantID goal in
  beginUserTenant ctx tenantID (updateGoal_ActorUserID params) false;;
  versioned (sql_update_goal tenantID (goal_ID goal) (updateGoal_ExpectedVersion params)
               (goal_updated goal)) (sql_goal tenantID (goal_ID goal));;
  insertOutbox tenantID (updateGoal_Event params);;
  commit;; mret goal.

Definition ChangeGoalStatus (ctx : Ctx) (params : UpdateGoalParams) : repo Goal :=
  let goal := updateGoal_Goal params in
  let tenantID := goal_TenantID goal in
  beginUserTenant ctx tenantID (updateGoal_ActorUserID params) false;;
  (if String.eqb (goal_Status goal) GoalStatusCompleted
      || String.eqb (goal_Status goal) GoalStatusArchived
   then
     hasOpenProjects ← query (sql_has_open_projects tenantID (goal_CompanyID goal));
     lift (fail_if hasOpenProjects ErrGoalOpenProjects)
   else mret tt);;
  versioned (sql_update_goal tenantID (goal_ID goal) (updateGoal_ExpectedVersion params)
               (goal_status_changed goal)) (sql_goal tenantID (goal_ID goal));;
  insertOutbox tenantID (updateGoal_Event params);;
  commit;; mret goal.

(** ** project.go *)

Definition CreateProject (ctx : Ctx) (params : CreateProjectParams) : repo Project :=
  let project := createProject_Project params in
  beginUserTenant ctx (project_TenantID project) (createProject_ActorUserID params) false;;
  map_err mapDatabaseError (exec (sql_insert_project project));;
  insertOutbox (project_TenantID project) (createProject_Event params);;
  commit;; mret project.

Definition GetProject (ctx : Ctx) (actorUserID tenantID projectID : string)
  : repo Project :=
  beginUserTenant ctx tenantID actorUserID true;;
  project ← map_err mapDatabaseError (query (sql_project tenantID projectID));
  commit;; mret project.

Definition ListProjects (ctx : Ctx) (actorUserID tenantID companyID goalID : string)
    (limit : Z) (cursor : option string) (includeArchived : bool) : repo (list Project) :=
  beginUserTenant ctx tenantID actorUserID true;;
  projects ← map_err mapDatabaseError
    (query (sql_list_projects tenantID companyID goalID limit cursor includeArchived));
  commit;; mret projects.

Definition UpdateProject (ctx : Ctx) (params : UpdateProjectParams) : repo Project :=
  let project := updateProject_Project params in
  let tenantID := project_TenantID project in
  beginUserTenant ctx tenantID (updateProject_ActorUserID params) false;;
  versioned (sql_update_project tenantID (project_ID project)
               (updateProject_ExpectedVersion params) (project_updated project))
    (sql_project tenantID (project_ID project));;
  insertOutbox tenantID (updateProject_Event params);;
  commit;; mret project.

Definition ChangeProjectStatus (ctx : Ctx) (params : UpdateProjectParams) : repo Project :=
  let project := updateProject_Project params in
  let tenantID := project_TenantID project in
  beginUserTenant ctx tenantID (updateProject_ActorUserID params) false;;
  (if String.eqb (project_Status project) ProjectStatusCompleted
      || String.eqb (project_Status project) ProjectStatusArchived
   then
     hasOpenTasks ← query (sql_has_open_tasks tenantID (project_ID project));
     lift (fail_if hasOpenTasks ErrProjectOpenTasks)
   else mret tt);;
  versioned (sql_update_project tenantID (project_ID project)
               (updateProject_ExpectedVersion params) (project_status_changed project))
    (sql_project tenantID (project_ID project));;
  insertOutbox tenantID (updateProject_Event params);;
  commit;; mret project.

(** ** task.go *)

Definition CreateTask (ctx : Ctx) (params : CreateTaskParams) : repo TaskView :=
  let task := createTask_Task params in
  beginUserTenant ctx (task_TenantID task) (createTask_ActorUserID params) false;;
  map_err mapDatabaseError (exec (sql_insert_task task));;
  insertOutbox (task_TenantID task) (createTask_Event params);;
  commit;; mret (taskView task).

Definition GetTask (ctx : Ctx) (actorUserID tenantID taskID : string) : repo TaskView :=
  beginUserTenant ctx tenantID actorUserID true;;
  task ← map_err mapDatabaseError (query (sql_task_view tenantID taskID));
  commit;; mret task.

Definition ListTasks (ctx : Ctx) (actorUserID tenantID companyID projectID : string)
    (limit : Z) (cursor : option string) (includeCanceled : bool) : repo (list TaskView) :=
  beginUserTenant ctx tenantID actorUserID true;;
  tasks ← map_err mapDatabaseError
    (query (sql_list_tasks tenantID companyID projectID limit cursor includeCanceled));
  commit;; mret tasks.

Definition UpdateTask (ctx : Ctx) (params : UpdateTaskParams) : repo TaskView :=
  let task := updateTask_Task params in
  let tenantID := task_TenantID task in
  beginUserTenant ctx tenantID (updateTask_ActorUserID params) false;;
  versioned (sql_update_task tenantID (task_ID task) (updateTask_ExpectedVersion params)
               (task_updated task)) (sql_task tenantID (task_ID task));;
  insertOutbox tenantID (updateTask_Event params);;
  commit;; mret (taskView task).

Definition ChangeTaskStatus (ctx : Ctx) (params : TaskChangeParams) : repo TaskView :=
  let task := taskChange_Task params in
  let tenantID := task_TenantID task in
  beginUserTenant ctx tenantID (taskChange_ActorUserID params) false;;
  (if String.eqb (task_Status task) TaskStatusCompleted
      || String.eqb (task_Status task) TaskStatusInProgress
      || String.eqb (task_Status task) TaskStatusWaitingApproval
   then
     hasIncomplete ← query (sql_has_incomplete_dependencies tenantID (task_ID task));
     lift (fail_if hasIncomplete ErrTaskBlocked)
   else mret tt);;
  (if String.eqb (task_Status task) TaskStatusCompleted then
     hasOpenChecklist ← query (sql_has_open_checklist tenantID (task_ID task));
     lift (fail_if hasOpenChecklist ErrChecklistOpen)
   else mret tt);;
  versioned (sql_update_task tenantID (task_ID task) (taskChange_ExpectedVersion params)
               (task_status_changed task)) (sql_task tenantID (task_ID task));;
  insertOutbox tenantID (taskChange_Event params);;
  commit;; mret (taskView task).

(** ** dependency.go *)

Definition no_row_is_missing (e : error) : error :=
  match e with ErrDatabase ErrNoRows => ErrNotFound | _ => e end.

Definition sharedProject (tenantID taskID otherTaskID : string) : repo string :=
  task ← map_err no_row_is_missing (query (sql_task tenantID taskID));
  other ← map_err no_row_is_missing (query (sql_task tenantID otherTaskID));
  lift (fail_if (negb (String.eqb (task_ProjectID task) (task_ProjectID other)))
          ErrInvalidArgument);;
  mret (task_ProjectID task).

Definition dependencyCycleExists (tenantID prerequisiteID taskID : string) : repo bool :=
  query (sql_dependency_cycle tenantID prerequisiteID taskID).

Definition with_project (projectID : string) (d : TaskDependency) : TaskDependency := {|
  dep_TenantID := dep_TenantID d; dep_ProjectID := projectID; dep_TaskID := dep_TaskID d;
  dep_DependsOnTaskID := dep_DependsOnTaskID d;
  dep_CreatedByUserID := dep_CreatedByUserID d; dep_CreatedAt := dep_CreatedAt d |}.

(** [AddDependency] in the three parts between which other transactions can
    commit: the first reads the project of the tasks, the second waits for its
    lock and looks for a cycle, the third inserts the edge and commits. *)
Definition AddDependency_project (ctx : Ctx) (params : DependencyParams) : repo string :=
  let d := dependency_Dependency params in
  beginUserTenant ctx (dep_TenantID d) (dependency_ActorUserID params) false;;
  sharedProject (dep_TenantID d) (dep_TaskID d) (dep_DependsOnTaskID d).

Definition AddDependency_check (params : DependencyParams) (projectID : string)
  : repo unit :=
  let d := dependency_Dependency params in
  map_err mapDatabaseError (query (sql_lock_project (dep_TenantID d) projectID));;
  cycle ← dependencyCycleExists (dep_TenantID d) (dep_DependsOnTaskID d) (dep_TaskID d);
  lift (fail_if cycle ErrDependencyCycle).

Definition AddDependency_insert (params : DependencyParams) (projectID : string)
  : repo TaskDependency :=
  let d := dependency_Dependency params in
  map_err mapDatabaseError (exec (sql_insert_dependency projectID d));;
  insertOutbox (dep_TenantID d) (dependency_Event params);;
  commit;; mret (with_project projectID d).

Definition AddDependency (ctx : Ctx) (params : DependencyParams) : repo TaskDependency :=
  projectID ← AddDependency_project ctx params;
  AddDependency_check params projectID;;
  AddDependency_insert params projectID.

Definition RemoveDependency (ctx : Ctx) (params : DependencyParams) : repo unit :=
  let d := dependency_Dependency params in
  beginUserTenant ctx (dep_TenantID d) (dependency_ActorUserID params) false;;
  affected ← map_err mapDatabaseError
    (exec (sql_delete_dependency (dep_TenantID d) (dep_TaskID d) (dep_DependsOnTaskID d)));
  lift (fail_if (affected =? 0) ErrNotFound);;
  insertOutbox (dep_TenantID d) (dependency_Event params);;
  commit.

(** ** checklist.go *)

Definition taskExists (tenantID taskID : string) : repo unit :=
  exists_ ← query (sql_task_exists tenantID taskID);
  lift (fail_if (negb exists_) ErrNotFound).

Definition AddChecklistItem (ctx : Ctx) (params : ChecklistItemParams)
  : repo ChecklistItem :=
  let item := checklist_Item params in
  beginUserTenant ctx (item_TenantID item) (checklist_ActorUserID params) false;;
  taskExists (item_TenantID item) (item_TaskID item);;
  map_err mapDatabaseError (exec (sql_insert_item item));;
  insertOutbox (item_TenantID item) (checklist_Event params);;
  commit;; mret item.

Definition GetChecklistItem (ctx : Ctx) (actorUserID tenantID taskID itemID : string)
  : repo ChecklistItem :=
  beginUserTenant ctx tenantID actorUserID true;;
  item ← map_err mapDatabaseError (query (sql_item tenantID taskID itemID));
  commit;; mret item.

Definition UpdateChecklistItem (ctx : Ctx) (params : UpdateChecklistItemParams)
  : repo ChecklistItem :=
  let item := updateItem_Item params in
  let tenantID := item_TenantID item in
  beginUserTenant ctx tenantID (updateItem_ActorUserID params) false;;
  versioned (sql_update_item tenantID (item_TaskID item) (item_ID item)
               (updateItem_ExpectedVersion params) (item_updated item))
    (sql_item tenantID (item_TaskID item) (item_ID item));;
  insertOutbox tenantID (updateItem_Event params);;
  commit;; mret item.

Definition DeleteChecklistItem (ctx : Ctx) (params : ChecklistItemParams) : repo unit :=
  let item := checklist_Item params in
  beginUserTenant ctx (item_TenantID item) (checklist_ActorUserID params) false;;
  affected ← map_err mapDatabaseError
    (exec (sql_delete_item (item_TenantID item) (item_TaskID item) (item_ID item)));
  lift (fail_if (affected =? 0) ErrNotFound);;
  insertOutbox (item_TenantID item) (checklist_Event params);;
  commit.

Definition ListChecklist (ctx : Ctx) (actorUserID tenantID taskID : string)
  : repo (list ChecklistItem) :=
  beginUserTenant ctx tenantID actorUserID true;;
  taskExists tenantID taskID;;
  items ← map_err mapDatabaseError (query (sql_list_checklist tenantID taskID));
  commit;; mret items.

End Repository.
