(* ===== verification/WorkService.v ===== *)
(** * Work management: the application layer for goals and projects

    Models [validation.go], [pagination.go], [events.go], [service.go], [goal.go]
    and [project.go] of [services/work-management/internal/application], the
    mapping of [internal/protoutil] and the tenant authorizer
    ([internal/adapters/authorization/tenant.go]) and company client
    ([internal/adapters/organization/client.go]). *)

From S2P Require Import Prelude GoStrings Postgres Usecase Outbox.
From S2P Require TenantDomain.
From S2P Require Import WorkDomain WorkStore WorkRepository.
From stdpp Require Import strings gmap list.
From Stdlib Require Import String Lia.
Open Scope string_scope.
Open Scope list_scope.
Open Scope Z_scope.

#[local] Notation app := (Usecase.app work_tables error).
#[local] Notation world := (Usecase.world work_tables).

(** ** protoutil

    An enum constant of [gereh.work.v1] is named by the domain value it stands
    for, the unspecified one by the empty string. *)
Definition proto_enum (known : list string) (value : string) : string :=
  if slices_Contains known value then value else "".

Definition goal_statuses : list string :=
  [GoalStatusActive; GoalStatusCompleted; GoalStatusCanceled; GoalStatusArchived].
Definition project_statuses : list string :=
  [ProjectStatusPlanned; ProjectStatusActive; ProjectStatusOnHold; ProjectStatusCompleted;
   ProjectStatusCanceled; ProjectStatusArchived].
Definition task_statuses : list string :=
  [TaskStatusBacklog; TaskStatusReady; TaskStatusInProgress; TaskStatusWaitingApproval;
   TaskStatusCompleted; TaskStatusCanceled].
Definition task_priorities : list string :=
  [TaskPriorityLow; TaskPriorityNormal; TaskPriorityHigh; TaskPriorityUrgent].

Definition protoutil_GoalStatus := proto_enum goal_statuses.
Definition protoutil_ProjectStatus := proto_enum project_statuses.
Definition protoutil_TaskStatus := proto_enum task_statuses.
Definition protoutil_TaskPriority := proto_enum task_priorities.

(** The messages have the fields of the domain values. *)
Definition protoutil_Goal (g : Goal) : Goal := {|
  goal_TenantID := goal_TenantID g; goal_CompanyID := goal_CompanyID g;
  goal_ID := goal_ID g; goal_Title := goal_Title g;
  goal_Description := goal_Description g;
  goal_Status := protoutil_GoalStatus (goal_Status g); goal_Version := goal_Version g;
  goal_CreatedByUserID := goal_CreatedByUserID g; goal_CreatedAt := goal_CreatedAt g;
  goal_UpdatedAt := goal_UpdatedAt g; goal_CompletedAt := goal_CompletedAt g;
  goal_ArchivedAt := goal_ArchivedAt g |}.

Definition protoutil_Project (p : Project) : Project := {|
  project_TenantID := project_TenantID p; project_CompanyID := project_CompanyID p;
  project_GoalID := project_GoalID p; project_ID := project_ID p;
  project_Title := project_Title p; project_Description := project_Description p;
  project_Status := protoutil_ProjectStatus (project_Status p);
  project_Version := project_Version p;
  project_CreatedByUserID := project_CreatedByUserID p;
  project_CreatedAt := project_CreatedAt p; project_UpdatedAt := project_UpdatedAt p;
  project_CompletedAt := project_CompletedAt p;
  project_ArchivedAt := project_ArchivedAt p |}.

Definition protoutil_Task (view : TaskView) : TaskView :=
  let k := view_Task view in {|
  view_Task := {|
    task_TenantID := task_TenantID k; task_CompanyID := task_CompanyID k;
    task_ProjectID := task_ProjectID k; task_ID := task_ID k;
    task_ParentTaskID := task_ParentTaskID k; task_Title := task_Title k;
    task_Description := task_Description k;
    task_Status := protoutil_TaskStatus (task_Status k);
    task_Priority := protoutil_TaskPriority (task_Priority k);
    task_Version := task_Version k; task_CreatedByUserID := task_CreatedByUserID k;
    task_CreatedAt := task_CreatedAt k; task_UpdatedAt := task_UpdatedAt k;
    task_CompletedAt := task_CompletedAt k; task_CanceledAt := task_CanceledAt k |};
  view_Blocked := view_Blocked view; view_DependencyCount := view_DependencyCount view;
  view_IncompleteDependencyCount := view_IncompleteDependencyCount view |}.

(** The event payloads of [gereh.work.v1]. *)
Inductive WorkMessage :=
| GoalCreated (goal : Goal)
| GoalUpdated (goal : Goal) (updatedByUserID : string)
| GoalStatusChanged (goal : Goal) (previousStatus : GoalStatus) (changedByUserID : string)
| ProjectCreated (project : Project)
| ProjectUpdated (project : Project) (updatedByUserID : string)
| ProjectStatusChanged (project : Project) (previousStatus : ProjectStatus)
    (changedByUserID : string)
| TaskCreated (task : TaskView)
| TaskUpdated (task : TaskView) (updatedByUserID : string)
| TaskStatusChanged (task : TaskView) (previousStatus : TaskStatus)
    (changedByUserID : string)
| TaskDependencyAdded (dependency : TaskDependency)
| TaskDependencyRemoved (dependency : TaskDependency) (removedByUserID : string)
| TaskChecklistChanged (item : ChecklistItem) (changeKind : string).

(** [proto.Marshal] of the payloads. *)
Class WorkProto `{Proto} := { marshal_work_message : WorkMessage → option wire }.

Section Validation.
Context `{Platform}.

(** ** validation.go *)

Definition validateUUID (value : string) : result error unit :=
  fail_if (negb (is_some (uuid_Parse (TrimSpace value)))) ErrInvalidArgument.

(** The identifiers of a request, checked in the order of a map's iteration: every
    failure is the same error. *)
Definition validateUUIDs (values : list string) : result error unit :=
  fail_if (negb (forallb (λ v, is_some (uuid_Parse (TrimSpace v))) values))
    ErrInvalidArgument.

(** The length is in runes; a string of a message is valid UTF-8. *)
Definition boundedText (value : string) (minimum maximum : Z) : result error string :=
  let value := TrimSpace value in
  let length := char_length value in
  fail_if ((length <? minimum) || (maximum <? length)) ErrInvalidArgument;; Ok value.

(** [domainGoalStatus], [domainProjectStatus], [domainTaskStatus],
    [domainTaskPriority]. *)
Definition domain_enum (known : list string) (value : string) : result error string :=
  fail_if (negb (slices_Contains known value)) ErrInvalidArgument;; Ok value.

Definition domainGoalStatus := domain_enum goal_statuses.
Definition domainProjectStatus := domain_enum project_statuses.
Definition domainTaskStatus := domain_enum task_statuses.
Definition domainTaskPriority := domain_enum task_priorities.

(** ** pagination.go *)

Definition encodePageToken (value : string) : string :=
  if String.eqb value "" then "" else EncodeToString value.

Definition decodePageToken (value : string) : result error string :=
  let value := TrimSpace value in
  if String.eqb value "" then Ok ""
  else from_option_err ErrInvalidArgument (DecodeString value).

Definition normalizePageSize (value : Z) : Z :=
  if value <=? 0 then 50 else if 100 <? value then 100 else value.

(** The cursor of a list request and the token of its next page. *)
Definition page_cursor (pageToken : string) : result error (option string) :=
  cursorValue ← decodePageToken pageToken;
  if String.eqb cursorValue "" then Ok None
  else validateUUID cursorValue;; Ok (Some cursorValue).

Definition nextToken {A} (id : A → string) (limit : Z) (items : list A) : string :=
  match last items with
  | Some x => if Z.of_nat (List.length items) =? limit then encodePageToken (id x) else ""
  | None => ""
  end.

(** [if input.Title != nil { ... }] *)
Definition optionalText (value : option string) (minimum maximum : Z) (current : string)
  : result error string :=
  match value with
  | Some v => boundedText v minimum maximum
  | None => Ok current
  end.

End Validation.

Section Service.
Context `{Platform, WorkProto}.

(** ** events.go *)

Definition newOutboxEvent (eventID : option string) (ctx : Ctx)
    (topic key eventType tenantID aggregateType aggregateID : string)
    (aggregateVersion : Z) (payload : WorkMessage) (now : Time)
  : result error OutboxEvent :=
  eventID ← from_option_err ErrInternal eventID;
  payloadBytes ← from_option_err ErrInternal (marshal_work_message payload);
  envelopeBytes ← from_option_err ErrInternal (marshal_envelope {|
    envelope_EventId := eventID; envelope_EventType := eventType;
    envelope_EventVersion := 1; envelope_TenantId := tenantID;
    envelope_AggregateType := aggregateType; envelope_AggregateId := aggregateID;
    envelope_AggregateVersion := aggregateVersion mod 2 ^ 64;
    envelope_OccurredAt := Some now; envelope_Producer := "work-management";
    envelope_TraceId := ctx_TraceID ctx; envelope_CorrelationId := ctx_CorrelationID ctx;
    envelope_CausationId := ctx_RequestID ctx; envelope_Payload := payloadBytes |});
  Ok {| event_ID := eventID; event_Topic := topic; event_Key := key;
        event_Envelope := envelopeBytes; event_OccurredAt := now |}.

(** ** service.go *)

Record Config := { config_EventTopic : string }.

(** [New], with its collaborators present. *)
Definition New (config : Config) : result error Config :=
  fail_if (String.eqb (TrimSpace (config_EventTopic config)) "") ErrInternal;; Ok config.

(** A company as the organization service returns it, and the gRPC codes its client
    tells apart. *)
Inductive company_reply :=
| company_found (active : bool)
| company_missing
| company_none
| company_refused
| company_failed.

(** The collaborators of a call: the tenant service's [CheckAuthorization] and the
    organization service's [GetCompany] as their clients return them. *)
Record Clients := {
  CheckAuthorization : string → string → TenantDomain.Permission →
    result error (option TenantDomain.AuthorizationDecision);
  GetCompany : string → string → string → company_reply;
}.

Variables (config : Config) (clients : Clients).
Let topic := config_EventTopic config.

(** adapters/authorization/tenant.go *)
Definition Authorizer_Require (actorUserID tenantID : string)
    (permission : TenantDomain.Permission) : result error unit :=
  response ← CheckAuthorization clients actorUserID tenantID permission;
  decision ← from_option_err ErrInternal response;
  if TenantDomain.decision_Allowed decision then Ok tt
  else if String.eqb (TenantDomain.decision_DenialReason decision)
            TenantDomain.DenialReasonTenantNotActive
          || String.eqb (TenantDomain.decision_DenialReason decision)
               TenantDomain.DenialReasonTenantArchived
  then Err ErrTenantNotActive
  else Err ErrForbidden.

(** adapters/organization/client.go *)
Definition EnsureCompanyActive (actorUserID tenantID companyID : string)
  : result error unit :=
  match GetCompany clients actorUserID tenantID companyID with
  | company_found active => fail_if (negb active) ErrCompanyNotActive
  | company_missing => Err ErrNotFound
  | company_refused => Err ErrForbidden
  | company_none | company_failed => Err ErrInternal
  end.

(** ** goal.go *)

Record CreateGoalInput := {
  goalIn_ActorUserID : string;
  goalIn_TenantID : string;
  goalIn_CompanyID : string;
  goalIn_Title : string;
  goalIn_Description : string;
}.

(** [UpdateGoalInput] and [UpdateProjectInput]; the identifier is that of the goal
    or of the project. *)
Record UpdateInput := {
  update_ActorUserID : string;
  update_TenantID : string;
  update_ID : string;
  update_ExpectedVersion : Z;
  update_Title : option string;
  update_Description : option string;
}.

Definition CreateGoal_params (ctx : Ctx) (input : CreateGoalInput) (w : world)
  : result error CreateGoalParams :=
  validateUUIDs [goalIn_ActorUserID input; goalIn_TenantID input; goalIn_CompanyID input];;
  Authorizer_Require (goalIn_ActorUserID input) (goalIn_TenantID input)
    TenantDomain.PermissionGoalCreate;;
  EnsureCompanyActive (goalIn_ActorUserID input) (goalIn_TenantID input)
    (goalIn_CompanyID input);;
  title ← boundedText (goalIn_Title input) 1 200;
  description ← boundedText (goalIn_Description input) 0 8000;
  goalID ← from_option_err ErrInternal (world_ids w 0%nat);
  let now := world_now w 0%nat in
  let goal := {|
    goal_TenantID := goalIn_TenantID input; goal_CompanyID := goalIn_CompanyID input;
    goal_ID := goalID; goal_Title := title; goal_Description := description;
    goal_Status := GoalStatusActive; goal_Version := 1;
    goal_CreatedByUserID := goalIn_ActorUserID input; goal_CreatedAt := now;
    goal_UpdatedAt := now; goal_CompletedAt := None; goal_ArchivedAt := None |} in
  event ← newOutboxEvent (world_ids w 1%nat) ctx topic (goal_ID goal) "goal.created"
    (goal_TenantID goal) "goal" (goal_ID goal) (goal_Version goal)
    (GoalCreated (protoutil_Goal goal)) now;
  Ok {| createGoal_ActorUserID := goalIn_ActorUserID input; createGoal_Goal := goal;
        createGoal_Event := event |}.

Definition CreateGoal (ctx : Ctx) (input : CreateGoalInput) : app Goal :=
  params ← pure (CreateGoal_params ctx input);
  call (WorkRepository.CreateGoal ctx params).

Definition GetGoal (ctx : Ctx) (actorUserID tenantID goalID : string) : app Goal :=
  pure (λ _, validateUUIDs [actorUserID; tenantID; goalID];;
             Authorizer_Require actorUserID tenantID TenantDomain.PermissionWorkRead);;
  call (WorkRepository.GetGoal ctx actorUserID tenantID goalID).

Definition ListGoals (ctx : Ctx) (actorUserID tenantID companyID : string) (pageSize : Z)
    (pageToken : string) (includeArchived : bool) : app (list Goal * string) :=
  pure (λ _, validateUUIDs [actorUserID; tenantID; companyID];;
             Authorizer_Require actorUserID tenantID TenantDomain.PermissionWorkRead);;
  let limit := normalizePageSize pageSize in
  cursor ← pure (λ _, page_cursor pageToken);
  goals ← call (WorkRepository.ListGoals ctx actorUserID tenantID companyID limit cursor
                  includeArchived);
  mret (goals, nextToken goal_ID limit goals).

(** [UpdateGoal] between its two repository calls. *)
Definition UpdateGoal_params (ctx : Ctx) (input : UpdateInput) (goal : Goal) (w : world)
  : result error UpdateGoalParams :=
  fail_if (String.eqb (goal_Status goal) GoalStatusArchived) ErrInvalidTransition;;
  let now := world_now w 0%nat in
  title ← optionalText (update_Title input) 1 200 (goal_Title goal);
  description ← optionalText (update_Description input) 0 8000 (goal_Description goal);
  let goal := {|
    goal_TenantID := goal_TenantID goal; goal_CompanyID := goal_CompanyID goal;
    goal_ID := goal_ID goal; goal_Title := title; goal_Description := description;
    goal_Status := goal_Status goal; goal_Version := int64_incr (goal_Version goal);
    goal_CreatedByUserID := goal_CreatedByUserID goal;
    goal_CreatedAt := goal_CreatedAt goal; goal_UpdatedAt := now;
    goal_CompletedAt := goal_CompletedAt goal;
    goal_ArchivedAt := goal_ArchivedAt goal |} in
  event ← newOutboxEvent (world_ids w 0%nat) ctx topic (goal_ID goal) "goal.updated"
    (goal_TenantID goal) "goal" (goal_ID goal) (goal_Version goal)
    (GoalUpdated (protoutil_Goal goal) (update_ActorUserID input)) now;
  Ok {| updateGoal_ActorUserID := update_ActorUserID input; updateGoal_Goal := goal;
        updateGoal_ExpectedVersion := update_ExpectedVersion input;
        updateGoal_Event := event |}.

Definition UpdateGoal (ctx : Ctx) (input : UpdateInput) : app Goal :=
  pure (λ _,
    validateUUIDs [update_ActorUserID input; update_TenantID input; update_ID input];;
    Authorizer_Require (update_ActorUserID input) (update_TenantID input)
      TenantDomain.PermissionGoalUpdate);;
  goal ← call (WorkRepository.GetGoal ctx (update_ActorUserID input)
                 (update_TenantID input) (update_ID input));
  params ← pure (UpdateGoal_params ctx input goal);
  call (WorkRepository.UpdateGoal ctx params).

(** [ChangeGoalStatus] between its two repository calls. *)
Definition ChangeGoalStatus_params (ctx : Ctx) (actorUserID : string)
    (expectedVersion : Z) (statusValue : GoalStatus) (goal : Goal) (w : world)
  : result error UpdateGoalParams :=
  let previousStatus := goal_Status goal in
  fail_if (negb (goalCanTransition (goal_Status goal) statusValue)) ErrInvalidTransition;;
  let now := world_now w 0%nat in
  let goal := {|
    goal_TenantID := goal_TenantID goal; goal_CompanyID := goal_CompanyID goal;
    goal_ID := goal_ID goal; goal_Title := goal_Title goal;
    goal_Description := goal_Description goal; goal_Status := statusValue;
    goal_Version := int64_incr (goal_Version goal);
    goal_CreatedByUserID := goal_CreatedByUserID goal;
    goal_CreatedAt := goal_CreatedAt goal; goal_UpdatedAt := now;
    goal_CompletedAt :=
      if String.eqb statusValue GoalStatusCompleted then Some now else None;
    goal_ArchivedAt :=
      if String.eqb statusValue GoalStatusArchived then Some now else None |} in
  event ← newOutboxEvent (world_ids w 0%nat) ctx topic (goal_ID goal) "goal.status_changed"
    (goal_TenantID goal) "goal" (goal_ID goal) (goal_Version goal)
    (GoalStatusChanged (protoutil_Goal goal) (protoutil_GoalStatus previousStatus)
       actorUserID) now;
  Ok {| updateGoal_ActorUserID := actorUserID; updateGoal_Goal := goal;
        updateGoal_ExpectedVersion := expectedVersion; updateGoal_Event := event |}.

Definition ChangeGoalStatus (ctx : Ctx) (actorUserID tenantID goalID : string)
    (expectedVersion : Z) (status : GoalStatus) : app Goal :=
  statusValue ← pure (λ _,
    validateUUIDs [actorUserID; tenantID; goalID];;
    Authorizer_Require actorUserID tenantID TenantDomain.PermissionGoalUpdate;;
    domainGoalStatus status);
  goal ← call (WorkRepository.GetGoal ctx actorUserID tenantID goalID);
  params ← pure (ChangeGoalStatus_params ctx actorUserID expectedVersion statusValue goal);
  call (WorkRepository.ChangeGoalStatus ctx params).

(** ** project.go *)

Record CreateProjectInput := {
  projectIn_ActorUserID : string;
  projectIn_TenantID : string;
  projectIn_CompanyID : string;
  projectIn_GoalID : string;
  projectIn_Title : string;
  projectIn_Description : string;
}.

(** [CreateProject] after the goal was read. *)
Definition CreateProject_params (ctx : Ctx) (input : CreateProjectInput) (goal : Goal)
    (w : world) : result error CreateProjectParams :=
  fail_if (negb (String.eqb (goal_CompanyID goal) (projectIn_CompanyID input)))
    ErrNotFound;;
  fail_if (String.eqb (goal_Status goal) GoalStatusArchived) ErrInvalidTransition;;
  title ← boundedText (projectIn_Title input) 1 200;
  description ← boundedText (projectIn_Description input) 0 8000;
  projectID ← from_option_err ErrInternal (world_ids w 0%nat);
  let now := world_now w 0%nat in
  let project := {|
    project_TenantID := projectIn_TenantID input;
    project_CompanyID := projectIn_CompanyID input;
    project_GoalID := projectIn_GoalID input; project_ID := projectID;
    project_Title := title; project_Description := description;
    project_Status := ProjectStatusPlanned; project_Version := 1;
    project_CreatedByUserID := projectIn_ActorUserID input; project_CreatedAt := now;
    project_UpdatedAt := now; project_CompletedAt := None; project_ArchivedAt := None |} in
  event ← newOutboxEvent (world_ids w 1%nat) ctx topic (project_ID project)
    "project.created" (project_TenantID project) "project" (project_ID project)
    (project_Version project) (ProjectCreated (protoutil_Project project)) now;
  Ok {| createProject_ActorUserID := projectIn_ActorUserID input;
        createProject_Project := project; createProject_Event := event |}.

Definition CreateProject (ctx : Ctx) (input : CreateProjectInput) : app Project :=
  pure (λ _,
    validateUUIDs [projectIn_ActorUserID input; projectIn_TenantID input;
                   projectIn_CompanyID input; projectIn_GoalID input];;
    Authorizer_Require (projectIn_ActorUserID input) (projectIn_TenantID input)
      TenantDomain.PermissionProjectCreate;;
    EnsureCompanyActive (projectIn_ActorUserID input) (projectIn_TenantID input)
      (projectIn_CompanyID input));;
  goal ← call (WorkRepository.GetGoal ctx (projectIn_ActorUserID input)
                 (projectIn_TenantID input) (projectIn_GoalID input));
  params ← pure (CreateProject_params ctx input goal);
  call (WorkRepository.CreateProject ctx params).

Definition GetProject (ctx : Ctx) (actorUserID tenantID projectID : string)
  : app Project :=
  pure (λ _, validateUUIDs [actorUserID; tenantID; projectID];;
             Authorizer_Require actorUserID tenantID TenantDomain.PermissionWorkRead);;
  call (WorkRepository.GetProject ctx actorUserID tenantID projectID).

Definition ListProjects (ctx : Ctx) (actorUserID tenantID companyID goalID : string)
    (pageSize : Z) (pageToken : string) (includeArchived : bool)
  : app (list Project * string) :=
  pure (λ _, validateUUIDs [actorUserID; tenantID; companyID];;
             (if String.eqb goalID "" then Ok tt else validateUUID goalID);;
             Authorizer_Require actorUserID tenantID TenantDomain.PermissionWorkRead);;
  let limit := normalizePageSize pageSize in
  cursor ← pure (λ _, page_cursor pageToken);
  projects ← call (WorkRepository.ListProjects ctx actorUserID tenantID companyID goalID
                     limit cursor includeArchived);
  mret (projects, nextToken project_ID limit projects).

(** [UpdateProject] between its two repository calls. *)
Definition UpdateProject_params (ctx : Ctx) (input : UpdateInput) (project : Project)
    (w : world) : result error UpdateProjectParams :=
  fail_if (String.eqb (project_Status project) ProjectStatusArchived)
    ErrInvalidTransition;;
  let now := world_now w 0%nat in
  title ← optionalText (update_Title input) 1 200 (project_Title project);
  description ← optionalText (update_Description input) 0 8000
                  (project_Description project);
  let project := {|
    project_TenantID := project_TenantID project;
    project_CompanyID := project_CompanyID project;
    project_GoalID := project_GoalID project; project_ID := project_ID project;
    project_Title := title; project_Description := description;
    project_Status := project_Status project;
    project_Version := int64_incr (project_Version project);
    project_CreatedByUserID := project_CreatedByUserID project;
    project_CreatedAt := project_CreatedAt project; project_UpdatedAt := now;
    project_CompletedAt := project_CompletedAt project;
    project_ArchivedAt := project_ArchivedAt project |} in
  event ← newOutboxEvent (world_ids w 0%nat) ctx topic (project_ID project)
    "project.updated" (project_TenantID project) "project" (project_ID project)
    (project_Version project)
    (ProjectUpdated (protoutil_Project project) (update_ActorUserID input)) now;
  Ok {| updateProject_ActorUserID := update_ActorUserID input;
        updateProject_Project := project;
        updateProject_ExpectedVersion := update_ExpectedVersion input;
        updateProject_Event := event |}.

Definition UpdateProject (ctx : Ctx) (input : UpdateInput) : app Project :=
  pure (λ _,
    validateUUIDs [update_ActorUserID input; update_TenantID input; update_ID input];;
    Authorizer_Require (update_ActorUserID input) (update_TenantID input)
      TenantDomain.PermissionProjectUpdate);;
  project ← call (WorkRepository.GetProject ctx (update_ActorUserID input)
                    (update_TenantID input) (update_ID input));
  params ← pure (UpdateProject_params ctx input project);
  call (WorkRepository.UpdateProject ctx params).

(** [ChangeProjectStatus] between its two repository calls. *)
Definition ChangeProjectStatus_params (ctx : Ctx) (actorUserID : string)
    (expectedVersion : Z) (statusValue : ProjectStatus) (project : Project) (w : world)
  : result error UpdateProjectParams :=
  let previousStatus := project_Status project in
  fail_if (negb (projectCanTransition (project_Status project) statusValue))
    ErrInvalidTransition;;
  let now := world_now w 0%nat in
  let project := {|
    project_TenantID := project_TenantID project;
    project_CompanyID := project_CompanyID project;
    project_GoalID := project_GoalID project; project_ID := project_ID project;
    project_Title := project_Title project;
    project_Description := project_Description project; project_Status := statusValue;
    project_Version := int64_incr (project_Version project);
    project_CreatedByUserID := project_CreatedByUserID project;
    project_CreatedAt := project_CreatedAt project; project_UpdatedAt := now;
    project_CompletedAt :=
      if String.eqb statusValue ProjectStatusCompleted then Some now else None;
    project_ArchivedAt :=
      if String.eqb statusValue ProjectStatusArchived then Some now else None |} in
  event ← newOutboxEvent (world_ids w 0%nat) ctx topic (project_ID project)
    "project.status_changed" (project_TenantID project) "project" (project_ID project)
    (project_Version project)
    (ProjectStatusChanged (protoutil_Project project)
       (protoutil_ProjectStatus previousStatus) actorUserID) now;
  Ok {| updateProject_ActorUserID := actorUserID; updateProject_Project := project;
        updateProject_ExpectedVersion := expectedVersion;
        updateProject_Event := event |}.

Definition ChangeProjectStatus (ctx : Ctx) (actorUserID tenantID projectID : string)
    (expectedVersion : Z) (status : ProjectStatus) : app Project :=
  statusValue ← pure (λ _,
    validateUUIDs [actorUserID; tenantID; projectID];;
    Authorizer_Require actorUserID tenantID TenantDomain.PermissionProjectUpdate;;
    domainProjectStatus status);
  project ← call (WorkRepository.GetProject ctx actorUserID tenantID projectID);
  params ← pure (ChangeProjectStatus_params ctx actorUserID expectedVersion statusValue
                   project);
  call (WorkRepository.ChangeProjectStatus ctx params).

End Service.
