(* ===== verification/WorkTasks.v ===== *)
(** * Work management: the application layer for tasks

    Models [task.go] and, of [collaboration.go], the use cases on dependencies and
    checklists ([services/work-management/internal/application]). *)

From S2P Require Import Prelude GoStrings Postgres Usecase Outbox.
From S2P Require TenantDomain.
From S2P Require Import WorkDomain WorkStore WorkRepository WorkService.
From stdpp Require Import strings gmap list.
From Stdlib Require Import String Lia.
Open Scope string_scope.
Open Scope list_scope.
Open Scope Z_scope.

#[local] Notation app := (Usecase.app work_tables error).
#[local] Notation world := (Usecase.world work_tables).

Section Tasks.
Context `{Platform, WorkProto}.
Variables (config : Config) (clients : Clients).
Let topic := config_EventTopic config.

(** ** task.go *)

Record CreateTaskInput := {
  taskIn_ActorUserID : string;
  taskIn_TenantID : string;
  taskIn_CompanyID : string;
  taskIn_ProjectID : string;
  taskIn_ParentTaskID : option string;
  taskIn_Title : string;
  taskIn_Description : string;
  taskIn_Priority : TaskPriority;
}.

Record UpdateTaskInput := {
  taskUp_ActorUserID : string;
  taskUp_TenantID : string;
  taskUp_TaskID : string;
  taskUp_ExpectedVersion : Z;
  taskUp_Title : option string;
  taskUp_Description : option string;
  taskUp_Priority : option TaskPriority;
}.

Definition validateTaskParent (ctx : Ctx)
    (actorUserID tenantID companyID projectID parentTaskID : string) : app unit :=
  parent ← call (WorkRepository.GetTask ctx actorUserID tenantID parentTaskID);
  pure (λ _,
    fail_if (negb (String.eqb (task_CompanyID (view_Task parent)) companyID)
             || negb (String.eqb (task_ProjectID (view_Task parent)) projectID))
      ErrInvalidArgument).

(** [taskViewFromDomain] *)
Definition taskViewFromDomain (task : Task) : TaskView := {|
  view_Task := task; view_Blocked := false; view_DependencyCount := 0;
  view_IncompleteDependencyCount := 0 |}.

(** [CreateTask] from the validation of the title on. *)
Definition CreateTask_params (ctx : Ctx) (input : CreateTaskInput)
    (priority : TaskPriority) (w : world) : result error CreateTaskParams :=
  title ← boundedText (taskIn_Title input) 1 300;
  description ← boundedText (taskIn_Description input) 0 32000;
  taskID ← from_option_err ErrInternal (world_ids w 0%nat);
  let now := world_now w 0%nat in
  let task := {|
    task_TenantID := taskIn_TenantID input; task_CompanyID := taskIn_CompanyID input;
    task_ProjectID := taskIn_ProjectID input; task_ID := taskID;
    task_ParentTaskID := taskIn_ParentTaskID input; task_Title := title;
    task_Description := description; task_Status := TaskStatusBacklog;
    task_Priority := priority; task_Version := 1;
    task_CreatedByUserID := taskIn_ActorUserID input; task_CreatedAt := now;
    task_UpdatedAt := now; task_CompletedAt := None; task_CanceledAt := None |} in
  event ← newOutboxEvent (world_ids w 1%nat) ctx topic (task_ID task) "task.created"
    (task_TenantID task) "task" (task_ID task) (task_Version task)
    (TaskCreated (protoutil_Task (taskViewFromDomain task))) now;
  Ok {| createTask_ActorUserID := taskIn_ActorUserID input; createTask_Task := task;
        createTask_Event := event |}.

Definition CreateTask (ctx : Ctx) (input : CreateTaskInput) : app TaskView :=
  pure (λ _,
    validateUUIDs [taskIn_ActorUserID input; taskIn_TenantID input;
                   taskIn_CompanyID input; taskIn_ProjectID input];;
    match taskIn_ParentTaskID input with
    | Some parent => validateUUID parent | None => Ok tt end;;
    Authorizer_Require clients (taskIn_ActorUserID input) (taskIn_TenantID input)
      TenantDomain.PermissionTaskCreate;;
    EnsureCompanyActive clients (taskIn_ActorUserID input) (taskIn_TenantID input)
      (taskIn_CompanyID input));;
  project ← call (WorkRepository.GetProject ctx (taskIn_ActorUserID input)
                    (taskIn_TenantID input) (taskIn_ProjectID input));
  priority ← pure (λ _,
    fail_if (negb (String.eqb (project_CompanyID project) (taskIn_CompanyID input)))
      ErrNotFound;;
    fail_if (String.eqb (project_Status project) ProjectStatusArchived)
      ErrInvalidTransition;;
    domainTaskPriority (taskIn_Priority input));
  match taskIn_ParentTaskID input with
  | Some parent =>
      validateTaskParent ctx (taskIn_ActorUserID input) (taskIn_TenantID input)
        (taskIn_CompanyID input) (taskIn_ProjectID input) parent
  | None => mret tt
  end;;
  params ← pure (CreateTask_params ctx input priority);
  call (WorkRepository.CreateTask ctx params).

Definition GetTask (ctx : Ctx) (actorUserID tenantID taskID : string) : app TaskView :=
  pure (λ _, validateUUIDs [actorUserID; tenantID; taskID];;
             Authorizer_Require clients actorUserID tenantID
               TenantDomain.PermissionWorkRead);;
  call (WorkRepository.GetTask ctx actorUserID tenantID taskID).

Definition ListTasks (ctx : Ctx) (actorUserID tenantID companyID projectID : string)
    (pageSize : Z) (pageToken : string) (includeCanceled : bool)
  : app (list TaskView * string) :=
  pure (λ _, validateUUIDs [actorUserID; tenantID; companyID; projectID];;
             Authorizer_Require clients actorUserID tenantID
               TenantDomain.PermissionWorkRead);;
  let limit := normalizePageSize pageSize in
  cursor ← pure (λ _, page_cursor pageToken);
  tasks ← call (WorkRepository.ListTasks ctx actorUserID tenantID companyID projectID
                  limit cursor includeCanceled);
  mret (tasks, nextToken (λ v, task_ID (view_Task v)) limit tasks).

Definition with_task (task : Task) (view : TaskView) : TaskView := {|
  view_Task := task; view_Blocked := view_Blocked view;
  view_DependencyCount := view_DependencyCount view;
  view_IncompleteDependencyCount := view_IncompleteDependencyCount view |}.

(** [UpdateTask] between its two repository calls. *)
Definition UpdateTask_params (ctx : Ctx) (input : UpdateTaskInput) (view : TaskView)
    (w : world) : result error UpdateTaskParams :=
  let task := view_Task view in
  fail_if (String.eqb (task_Status task) TaskStatusCompleted
           || String.eqb (task_Status task) TaskStatusCanceled) ErrInvalidTransition;;
  let now := world_now w 0%nat in
  title ← optionalText (taskUp_Title input) 1 300 (task_Title task);
  description ← optionalText (taskUp_Description input) 0 32000 (task_Description task);
  let task := {|
    task_TenantID := task_TenantID task; task_CompanyID := task_CompanyID task;
    task_ProjectID := task_ProjectID task; task_ID := task_ID task;
    task_ParentTaskID := task_ParentTaskID task; task_Title := title;
    task_Description := description; task_Status := task_Status task;
    task_Priority := default (task_Priority task) (taskUp_Priority input);
    task_Version := int64_incr (task_Version task);
    task_CreatedByUserID := task_CreatedByUserID task;
    task_CreatedAt := task_CreatedAt task; task_UpdatedAt := now;
    task_CompletedAt := task_CompletedAt task;
    task_CanceledAt := task_CanceledAt task |} in
  event ← newOutboxEvent (world_ids w 0%nat) ctx topic (task_ID task) "task.updated"
    (task_TenantID task) "task" (task_ID task) (task_Version task)
    (TaskUpdated (protoutil_Task (with_task task view)) (taskUp_ActorUserID input)) now;
  Ok {| updateTask_ActorUserID := taskUp_ActorUserID input; updateTask_Task := task;
        updateTask_ExpectedVersion := taskUp_ExpectedVersion input;
        updateTask_Event := event |}.

Definition UpdateTask (ctx : Ctx) (input : UpdateTaskInput) : app TaskView :=
  pure (λ _,
    validateUUIDs [taskUp_ActorUserID input; taskUp_TenantID input;
                   taskUp_TaskID input];;
    Authorizer_Require clients (taskUp_ActorUserID input) (taskUp_TenantID input)
      TenantDomain.PermissionTaskUpdate);;
  view ← call (WorkRepository.GetTask ctx (taskUp_ActorUserID input)
                 (taskUp_TenantID input) (taskUp_TaskID input));
  params ← pure (UpdateTask_params ctx input view);
  call (WorkRepository.UpdateTask ctx params).

(** [ChangeTaskStatus] between its two repository calls. *)
Definition ChangeTaskStatus_params (ctx : Ctx) (actorUserID : string)
    (expectedVersion : Z) (statusValue : TaskStatus) (view : TaskView) (w : world)
  : result error TaskChangeParams :=
  let task := view_Task view in
  let previousStatus := task_Status task in
  fail_if (negb (taskCanTransition (task_Status task) statusValue)) ErrInvalidTransition;;
  let now := world_now w 0%nat in
  let task := {|
    task_TenantID := task_TenantID task; task_CompanyID := task_CompanyID task;
    task_ProjectID := task_ProjectID task; task_ID := task_ID task;
    task_ParentTaskID := task_ParentTaskID task; task_Title := task_Title task;
    task_Description := task_Description task; task_Status := statusValue;
    task_Priority := task_Priority task; task_Version := int64_incr (task_Version task);
    task_CreatedByUserID := task_CreatedByUserID task;
    task_CreatedAt := task_CreatedAt task; task_UpdatedAt := now;
    task_CompletedAt :=
      if String.eqb statusValue TaskStatusCompleted then Some now else None;
    task_CanceledAt :=
      if String.eqb statusValue TaskStatusCanceled then Some now else None |} in
  event ← newOutboxEvent (world_ids w 0%nat) ctx topic (task_ID task)
    "task.status_changed" (task_TenantID task) "task" (task_ID task) (task_Version task)
    (TaskStatusChanged (protoutil_Task (with_task task view))
       (protoutil_TaskStatus previousStatus) actorUserID) now;
  Ok {| taskChange_ActorUserID := actorUserID; taskChange_Task := task;
        taskChange_PreviousStatus := previousStatus;
        taskChange_ExpectedVersion := expectedVersion; taskChange_Event := event |}.

Definition ChangeTaskStatus (ctx : Ctx) (actorUserID tenantID taskID : string)
    (expectedVersion : Z) (status : TaskStatus) : app TaskView :=
  statusValue ← pure (λ _,
    validateUUIDs [actorUserID; tenantID; taskID];;
    Authorizer_Require clients actorUserID tenantID
      TenantDomain.PermissionTaskStatusUpdate;;
    domainTaskStatus status);
  view ← call (WorkRepository.GetTask ctx actorUserID tenantID taskID);
  params ← pure (ChangeTaskStatus_params ctx actorUserID expectedVersion statusValue
                   view);
  call (WorkRepository.ChangeTaskStatus ctx params).

(** ** collaboration.go: dependencies

    [AddDependencyInput] and [RemoveDependencyInput]. *)
Record DependencyInput := {
  depIn_ActorUserID : string;
  depIn_TenantID : string;
  depIn_TaskID : string;
  depIn_DependsOnTaskID : string;
}.

Definition dependency_ids (input : DependencyInput) : list string :=
  [depIn_ActorUserID input; depIn_TenantID input; depIn_TaskID input;
   depIn_DependsOnTaskID input].

Definition AddTaskDependency_params (ctx : Ctx) (input : DependencyInput)
    (task : TaskView) (w : world) : result error DependencyParams :=
  let now := world_now w 0%nat in
  let dependency := {|
    dep_TenantID := depIn_TenantID input;
    dep_ProjectID := task_ProjectID (view_Task task); dep_TaskID := depIn_TaskID input;
    dep_DependsOnTaskID := depIn_DependsOnTaskID input;
    dep_CreatedByUserID := depIn_ActorUserID input; dep_CreatedAt := now |} in
  event ← newOutboxEvent (world_ids w 0%nat) ctx topic (dep_TaskID dependency)
    "task.dependency_added" (dep_TenantID dependency) "task" (dep_TaskID dependency) 0
    (TaskDependencyAdded dependency) now;
  Ok {| dependency_ActorUserID := depIn_ActorUserID input;
        dependency_Dependency := dependency; dependency_Event := event |}.

Definition AddTaskDependency (ctx : Ctx) (input : DependencyInput) : app TaskDependency :=
  pure (λ _,
    validateUUIDs (dependency_ids input);;
    fail_if (String.eqb (depIn_TaskID input) (depIn_DependsOnTaskID input))
      ErrInvalidArgument;;
    Authorizer_Require clients (depIn_ActorUserID input) (depIn_TenantID input)
      TenantDomain.PermissionTaskDependencyManage);;
  task ← call (WorkRepository.GetTask ctx (depIn_ActorUserID input)
                 (depIn_TenantID input) (depIn_TaskID input));
  params ← pure (AddTaskDependency_params ctx input task);
  call (WorkRepository.AddDependency ctx params).

Definition RemoveTaskDependency_params (ctx : Ctx) (input : DependencyInput)
    (task : TaskView) (w : world) : result error DependencyParams :=
  let now := world_now w 0%nat in
  let dependency := {|
    dep_TenantID := depIn_TenantID input;
    dep_ProjectID := task_ProjectID (view_Task task); dep_TaskID := depIn_TaskID input;
    dep_DependsOnTaskID := depIn_DependsOnTaskID input;
    dep_CreatedByUserID := ""; dep_CreatedAt := now |} in
  event ← newOutboxEvent (world_ids w 0%nat) ctx topic (dep_TaskID dependency)
    "task.dependency_removed" (dep_TenantID dependency) "task" (dep_TaskID dependency) 0
    (TaskDependencyRemoved dependency (depIn_ActorUserID input)) now;
  Ok {| dependency_ActorUserID := depIn_ActorUserID input;
        dependency_Dependency := dependency; dependency_Event := event |}.

Definition RemoveTaskDependency (ctx : Ctx) (input : DependencyInput) : app unit :=
  pure (λ _,
    validateUUIDs (dependency_ids input);;
    Authorizer_Require clients (depIn_ActorUserID input) (depIn_TenantID input)
      TenantDomain.PermissionTaskDependencyManage);;
  task ← call (WorkRepository.GetTask ctx (depIn_ActorUserID input)
                 (depIn_TenantID input) (depIn_TaskID input));
  params ← pure (RemoveTaskDependency_params ctx input task);
  call (WorkRepository.RemoveDependency ctx params).

(** ** collaboration.go: checklists *)

Record AddChecklistItemInput := {
  itemIn_ActorUserID : string;
  itemIn_TenantID : string;
  itemIn_TaskID : string;
  itemIn_Title : string;
}.

Record UpdateChecklistItemInput := {
  itemUp_ActorUserID : string;
  itemUp_TenantID : string;
  itemUp_TaskID : string;
  itemUp_ItemID : string;
  itemUp_ExpectedVersion : Z;
  itemUp_Title : option string;
  itemUp_Completed : option bool;
}.

Record DeleteChecklistItemInput := {
  itemDel_ActorUserID : string;
  itemDel_TenantID : string;
  itemDel_TaskID : string;
  itemDel_ItemID : string;
  itemDel_ExpectedVersion : Z;
}.

Definition checklist_event (eventID : option string) (ctx : Ctx) (item : ChecklistItem)
    (changeKind : string) (now : Time) : result error OutboxEvent :=
  newOutboxEvent eventID ctx topic (item_TaskID item) "task.checklist_changed"
    (item_TenantID item) "task" (item_TaskID item) 0
    (TaskChecklistChanged item changeKind) now.

(** [int32(len(items))] *)
Definition int32_wrap (z : Z) : Z := (z + 2 ^ 31) mod 2 ^ 32 - 2 ^ 31.

Definition AddChecklistItem_params (ctx : Ctx) (input : AddChecklistItemInput)
    (title : string) (items : list ChecklistItem) (w : world)
  : result error ChecklistItemParams :=
  itemID ← from_option_err ErrInternal (world_ids w 0%nat);
  let now := world_now w 0%nat in
  let item := {|
    item_TenantID := itemIn_TenantID input; item_TaskID := itemIn_TaskID input;
    item_ID := itemID; item_Title := title; item_Completed := false;
    item_Position := int32_wrap (Z.of_nat (List.length items)); item_Version := 1;
    item_CreatedAt := now; item_UpdatedAt := now |} in
  event ← checklist_event (world_ids w 1%nat) ctx item "added" now;
  Ok {| checklist_ActorUserID := itemIn_ActorUserID input; checklist_Item := item;
        checklist_Event := event |}.

Definition AddChecklistItem (ctx : Ctx) (input : AddChecklistItemInput)
  : app ChecklistItem :=
  title ← pure (λ _,
    validateUUIDs [itemIn_ActorUserID input; itemIn_TenantID input;
                   itemIn_TaskID input];;
    Authorizer_Require clients (itemIn_ActorUserID input) (itemIn_TenantID input)
      TenantDomain.PermissionTaskChecklistManage;;
    boundedText (itemIn_Title input) 1 500);
  items ← call (WorkRepository.ListChecklist ctx (itemIn_ActorUserID input)
                  (itemIn_TenantID input) (itemIn_TaskID input));
  params ← pure (AddChecklistItem_params ctx input title items);
  call (WorkRepository.AddChecklistItem ctx params).

Definition UpdateChecklistItem_params (ctx : Ctx) (input : UpdateChecklistItemInput)
    (item : ChecklistItem) (w : world) : result error UpdateChecklistItemParams :=
  title ← optionalText (itemUp_Title input) 1 500 (item_Title item);
  let now := world_now w 0%nat in
  let item := {|
    item_TenantID := item_TenantID item; item_TaskID := item_TaskID item;
    item_ID := item_ID item; item_Title := title;
    item_Completed := default (item_Completed item) (itemUp_Completed input);
    item_Position := item_Position item; item_Version := int64_incr (item_Version item);
    item_CreatedAt := item_CreatedAt item; item_UpdatedAt := now |} in
  event ← checklist_event (world_ids w 0%nat) ctx item "updated" now;
  Ok {| updateItem_ActorUserID := itemUp_ActorUserID input; updateItem_Item := item;
        updateItem_ExpectedVersion := itemUp_ExpectedVersion input;
        updateItem_Event := event |}.

Definition UpdateChecklistItem (ctx : Ctx) (input : UpdateChecklistItemInput)
  : app ChecklistItem :=
  pure (λ _,
    validateUUIDs [itemUp_ActorUserID input; itemUp_TenantID input;
                   itemUp_TaskID input; itemUp_ItemID input];;
    Authorizer_Require clients (itemUp_ActorUserID input) (itemUp_TenantID input)
      TenantDomain.PermissionTaskChecklistManage);;
  item ← call (WorkRepository.GetChecklistItem ctx (itemUp_ActorUserID input)
                 (itemUp_TenantID input) (itemUp_TaskID input) (itemUp_ItemID input));
  params ← pure (UpdateChecklistItem_params ctx input item);
  call (WorkRepository.UpdateChecklistItem ctx params).

(** [input.ExpectedVersion] is not read. *)
Definition DeleteChecklistItem_params (ctx : Ctx) (input : DeleteChecklistItemInput)
    (item : ChecklistItem) (w : world) : result error ChecklistItemParams :=
  event ← checklist_event (world_ids w 0%nat) ctx item "deleted" (world_now w 0%nat);
  Ok {| checklist_ActorUserID := itemDel_ActorUserID input; checklist_Item := item;
        checklist_Event := event |}.

Definition DeleteChecklistItem (ctx : Ctx) (input : DeleteChecklistItemInput)
  : app unit :=
  pure (λ _,
    validateUUIDs [itemDel_ActorUserID input; itemDel_TenantID input;
                   itemDel_TaskID input; itemDel_ItemID input];;
    Authorizer_Require clients (itemDel_ActorUserID input) (itemDel_TenantID input)
      TenantDomain.PermissionTaskChecklistManage);;
  item ← call (WorkRepository.GetChecklistItem ctx (itemDel_ActorUserID input)
                 (itemDel_TenantID input) (itemDel_TaskID input)
                 (itemDel_ItemID input));
  params ← pure (DeleteChecklistItem_params ctx input item);
  call (WorkRepository.DeleteChecklistItem ctx params).

Definition ListChecklist (ctx : Ctx) (actorUserID tenantID taskID : string)
  : app (list ChecklistItem) :=
  pure (λ _, validateUUIDs [actorUserID; tenantID; taskID];;
             Authorizer_Require clients actorUserID tenantID
               TenantDomain.PermissionWorkRead);;
  call (WorkRepository.ListChecklist ctx actorUserID tenantID taskID).

End Tasks.
