(* ===== verification/WorkDependencies.v ===== *)
(** * Work management: dependencies

    What the recursive query of [dependencyCycleExists] computes, that it ends on
    every graph, and what an edge that passes it does to the graph; then the operations that add and
    remove dependencies. *)

From S2P Require Import Prelude GoStrings Postgres Usecase Graph Outbox WorkDomain WorkStore.
From S2P Require Import WorkRepository.
From stdpp Require Import strings gmap fin_sets list relations fin_maps.
From Stdlib Require Import String Lia.
Open Scope string_scope.
Open Scope list_scope.
Open Scope Z_scope.
Open Scope nat_scope.

#[global] Arguments chain _ _ : simpl never.

Definition edge (es : edges) : relation string := λ a b, (a, b) ∈ es.

(** ** The recursive query *)

Section Query.
Context (es : edges).

Definition targets : gset string := list_to_set es.*2.

Lemma elem_of_prerequisites from d :
  d ∈ prerequisites es from ↔ ∃ a, a ∈ from ∧ edge es a d.
Proof.
  unfold prerequisites, edge. rewrite elem_of_list_to_set, list_elem_of_fmap.
  setoid_rewrite list_elem_of_filter. split.
  - intros ([a b] & -> & ? & ?). eauto.
  - intros (a & ? & ?). by exists (a, d).
Qed.

Lemma prerequisites_targets from : prerequisites es from ⊆ targets.
Proof.
  intros d (a & _ & He)%elem_of_prerequisites. apply elem_of_list_to_set, list_elem_of_fmap.
  by exists (a, d).
Qed.

Lemma size_targets : size targets ≤ List.length es.
Proof.
  unfold targets. rewrite <-(length_fmap snd es). induction (es.*2) as [|d l IH]; cbn.
  - by rewrite size_empty.
  - rewrite size_union_alt, size_singleton. apply le_n_S. etrans; [|exact IH].
    apply subseteq_size. set_solver.
Qed.

(** Every round that does not end the query finds a target not found before. *)
Lemma recursive_union_total fuel found working :
  found ⊆ targets → size (targets ∖ found) < fuel →
  is_Some (recursive_union fuel es found working).
Proof.
  revert found working. induction fuel as [|fuel IH]; intros found working Hf Hfuel; [lia|].
  cbn. case_decide as Hnew; [done|]. set (new := prerequisites es working ∖ found) in *.
  assert (new ⊆ targets) as Hnt by (pose proof (prerequisites_targets working); set_solver).
  apply IH; [set_solver|]. apply set_choose_L in Hnew as [x Hx].
  enough (size (targets ∖ (found ∪ new)) < size (targets ∖ found)) by lia.
  apply subset_size. set_solver.
Qed.

(** The rows found are those behind one or more edges: [found] is closed but for
    the working table, whose edges the next round follows. *)
Lemma recursive_union_reaches fuel found working from rows :
  working ⊆ found → (∀ d, d ∈ found → tc (edge es) from d) →
  (∀ d, edge es from d → d ∈ found) →
  (∀ a d, a ∈ found → a ∉ working → edge es a d → d ∈ found) →
  recursive_union fuel es found working = Some rows →
  ∀ d, d ∈ rows ↔ tc (edge es) from d.
Proof.
  revert found working. induction fuel as [|fuel IH];
    intros found working Hw Hsound Hfirst Hclosed; [done|].
  cbn. set (new := prerequisites es working ∖ found). case_decide as Hnew.
  - intros [= <-] d. split; [apply Hsound|].
    assert (∀ a b, edge es a b → a ∈ found → b ∈ found) as Hstep.
    { intros a b Hab Ha. destruct (decide (a ∈ working)) as [Haw|Haw]; [|by eapply Hclosed].
      destruct (decide (b ∈ found)) as [|Hb]; [done|]. exfalso. subst new.
      enough (b ∈ prerequisites es working ∖ found) by set_solver.
      apply elem_of_difference. split; [|done]. apply elem_of_prerequisites. eauto. }
    inversion 1 as [? ? Hd|? y ? Hy Hd]; subst; [by apply Hfirst|].
    eapply (tc_invariant (edge es) (.∈ found)); eauto.
  - apply IH.
    + set_solver.
    + intros d [Hd|Hd]%elem_of_union; [by apply Hsound|].
      apply elem_of_difference in Hd as [(a & Ha & Hd)%elem_of_prerequisites _].
      eapply tc_r; [apply Hsound|done]. set_solver.
    + set_solver.
    + intros a d Ha Hnotin Hd. apply elem_of_union in Ha as [Ha|]; [|done].
      destruct (decide (a ∈ working)) as [Haw|Haw]; [|set_solver].
      destruct (decide (d ∈ found)) as [|Hdf]; [set_solver|]. apply elem_of_union_r.
      apply elem_of_difference. split; [|done]. apply elem_of_prerequisites. eauto.
Qed.

Lemma chain_total from : is_Some (chain es from).
Proof.
  unfold chain. apply recursive_union_total; [apply prerequisites_targets|].
  pose proof size_targets. enough (size (targets ∖ prerequisites es {[from]}) ≤ size targets)
    by lia. apply subseteq_size. set_solver.
Qed.

Lemma chain_reaches from rows :
  chain es from = Some rows → ∀ d, d ∈ rows ↔ tc (edge es) from d.
Proof.
  apply recursive_union_reaches.
  - done.
  - intros d (a & ->%elem_of_singleton & Hd)%elem_of_prerequisites. by apply tc_once.
  - intros d Hd. apply elem_of_prerequisites. set_solver.
  - set_solver.
Qed.

End Query.

(** ** Concurrent changes of the dependency graph

    [AddDependency] looks for a cycle and inserts its edge in two statements;
    between them other transactions commit. The transactions that add edges are
    followed statement by statement, at PostgreSQL's default isolation level: a
    statement sees what was committed before it, and the row lock that the
    transaction takes on the project is held until it ends. *)

Section System.
Context `{Platform, Proto}.
Implicit Types (ctx : Ctx) (ev : env) (db : work_tables).

(** ** The transition system *)

(** The repository's other methods that change tables. Each is one step: it changes
    at most one row besides the outbox, with one guarded statement. *)
Inductive other_method ctx : ∀ {A}, repo A → Prop :=
| other_CreateGoal params : other_method ctx (CreateGoal ctx params)
| other_UpdateGoal params : other_method ctx (UpdateGoal ctx params)
| other_ChangeGoalStatus params : other_method ctx (ChangeGoalStatus ctx params)
| other_CreateProject params : other_method ctx (CreateProject ctx params)
| other_UpdateProject params : other_method ctx (UpdateProject ctx params)
| other_ChangeProjectStatus params : other_method ctx (ChangeProjectStatus ctx params)
| other_CreateTask params : other_method ctx (CreateTask ctx params)
| other_UpdateTask params : other_method ctx (UpdateTask ctx params)
| other_ChangeTaskStatus params : other_method ctx (ChangeTaskStatus ctx params)
| other_RemoveDependency params : other_method ctx (RemoveDependency ctx params)
| other_AddChecklistItem params : other_method ctx (AddChecklistItem ctx params)
| other_UpdateChecklistItem params : other_method ctx (UpdateChecklistItem ctx params)
| other_DeleteChecklistItem params : other_method ctx (DeleteChecklistItem ctx params).

(** A transaction of [AddDependency] after it read the project of its tasks, and
    whether it has passed the cycle check. *)
Record running := {
  run_params : DependencyParams;
  run_session : session work_tables;
  run_project : string;
  run_checked : bool;
}.

(** The committed tables, the transactions under way, and which of them holds the
    lock of a row of [work_projects]. *)
Record system := {
  sys_tables : work_tables;
  sys_running : gmap nat running;
  sys_locks : gmap (string * string) nat;
}.

(** A statement that starts now sees the tables committed so far. *)
Definition resume {A} (m : repo A) (db : work_tables) (s : session work_tables)
  : result error A * session work_tables :=
  m {| session_db := db; session_committed := session_committed s;
       session_scope := session_scope s; session_read_only := session_read_only s;
       session_clock := session_clock s; session_budget := session_budget s |}.

(** The row that [SELECT ... FOR UPDATE] locks, when it selects one. *)
Definition locked_row (db : work_tables) (r : running) : option (string * string) :=
  match rls_of (session_scope (run_session r)),
        uuid_in (dep_TenantID (dependency_Dependency (run_params r))),
        uuid_in (run_project r) with
  | Ok sc, Some t, Some p =>
      if tenant_scoped sc t && is_some (work_projects db !! (t, p)) then Some (t, p)
      else None
  | _, _, _ => None
  end.

Definition lock (id : nat) (row : option (string * string))
    (locks : gmap (string * string) nat) : gmap (string * string) nat :=
  match row with Some k => <[k := id]> locks | None => locks end.

Definition is_free (row : option (string * string)) (locks : gmap (string * string) nat)
  : bool :=
  match row with Some k => negb (is_some (locks !! k)) | None => true end.

(** The end of a transaction releases its locks. *)
Definition unlock (id : nat) (locks : gmap (string * string) nat)
  : gmap (string * string) nat := filter (λ kv, kv.2 ≠ id) locks.

Inductive step (σ : system) : system → Prop :=
| step_begin id ctx params ev projectID s :
    sys_running σ !! id = None →
    AddDependency_project ctx params (new_session (sys_tables σ) ev) = (Ok projectID, s) →
    step σ {|
      sys_tables := sys_tables σ; sys_locks := sys_locks σ;
      sys_running := <[id := {| run_params := params; run_session := s;
                                run_project := projectID; run_checked := false |}]>
                       (sys_running σ) |}
| step_check id r s :
    sys_running σ !! id = Some r → run_checked r = false →
    is_free (locked_row (sys_tables σ) r) (sys_locks σ) = true →
    resume (AddDependency_check (run_params r) (run_project r)) (sys_tables σ)
      (run_session r) = (Ok tt, s) →
    step σ {|
      sys_tables := sys_tables σ;
      sys_locks := lock id (locked_row (sys_tables σ) r) (sys_locks σ);
      sys_running := <[id := {| run_params := run_params r; run_session := s;
                                run_project := run_project r; run_checked := true |}]>
                       (sys_running σ) |}
| step_insert id r result s :
    sys_running σ !! id = Some r → run_checked r = true →
    resume (AddDependency_insert (run_params r) (run_project r)) (sys_tables σ)
      (run_session r) = (result, s) →
    step σ {|
      sys_tables := default (sys_tables σ) (session_committed s);
      sys_locks := unlock id (sys_locks σ); sys_running := delete id (sys_running σ) |}
| step_fail id :
    step σ {|
      sys_tables := sys_tables σ; sys_locks := unlock id (sys_locks σ);
      sys_running := delete id (sys_running σ) |}
| step_other ctx {A} (m : repo A) ev :
    other_method ctx m →
    step σ {|
      sys_tables := (run m (sys_tables σ) ev).2; sys_locks := sys_locks σ;
      sys_running := sys_running σ |}
| step_relay ob :
    step σ {|
      sys_tables := set_work_outbox ob (sys_tables σ); sys_locks := sys_locks σ;
      sys_running := sys_running σ |}.

Definition start : system := {|
  sys_tables := no_work_tables; sys_running := ∅; sys_locks := ∅ |}.

Definition reachable : system → Prop := rtc step start.

(** [b] is a prerequisite of [a]. *)
Definition depends (db : work_tables) (t : string) : relation string :=
  λ a b, is_Some (work_dependencies db !! (t, a, b)).

End System.

(** ** The dependency graph stays acyclic

    Every interleaving of the transactions that add dependencies with each other
    and with the rest of the service. *)

#[local] Open Scope Z_scope.

Section Dependencies.
Context `{PlatformLaws, Proto}.
Implicit Types (ctx : Ctx) (ev : env) (db : work_tables).

(** The task [i] exists and belongs to the project [p]. *)
Definition in_project db (t p i : string) : Prop :=
  ∃ task, work_tasks db !! (t, i) = Some task ∧ task_ProjectID task = p.

(** Rows are stored under their identifiers, which are [uuid] values, and refer to a
    project of their tenant. *)
Record task_ok db (t i : string) (task : Task) : Prop := {
  task_key : (task_TenantID task, task_ID task) = (t, i);
  task_key_tenant : uuid_in t = Some t;
  task_key_id : uuid_in i = Some i;
  task_project_id : uuid_in (task_ProjectID task) = Some (task_ProjectID task);
  task_project : is_Some (work_projects db !! (t, task_ProjectID task));
}.

Definition tasks_ok db : Prop := ∀ t i task,
  work_tasks db !! (t, i) = Some task → task_ok db t i task.

Lemma task_ok_projects db db' t i task :
  (∀ k, is_Some (work_projects db !! k) → is_Some (work_projects db' !! k)) →
  task_ok db t i task → task_ok db' t i task.
Proof. intros Hp []. split; auto. Qed.

(** A task is never removed, and a change of it raises its version. *)
Definition evolves db db' : Prop := ∀ k task, work_tasks db !! k = Some task →
  ∃ task', work_tasks db' !! k = Some task' ∧
    (task' = task ∨ task_Version task < task_Version task').

#[global] Instance evolves_preorder : PreOrder evolves.
Proof.
  split; [intros db k task; eauto|].
  intros db1 db2 db3 H12 H23 k task (t2 & Ht2 & Hv2)%H12.
  apply H23 in Ht2 as (t3 & Ht3 & Hv3). exists t3. split; [done|].
  destruct Hv2 as [->|?], Hv3 as [->|?]; auto; right; lia.
Qed.

(** ** What the other methods do to the graph *)

Record keeps_graph db db' : Prop := {
  keeps_dependencies : work_dependencies db' ⊆ work_dependencies db;
  keeps_projects : ∀ t p i, in_project db t p i → in_project db' t p i;
  keeps_rows : ∀ k, is_Some (work_projects db !! k) → is_Some (work_projects db' !! k);
  keeps_tasks : tasks_ok db → tasks_ok db';
  keeps_versions : evolves db db';
}.

#[global] Instance keeps_graph_preorder : PreOrder keeps_graph.
Proof.
  split.
  - intros db. split; auto. reflexivity.
  - intros db1 db2 db3 [] []. split; auto; [by trans (work_dependencies db2)|].
    by trans db2.
Qed.

(** Tables that differ elsewhere. *)
Lemma keeps_graph_same db db' :
  work_dependencies db' = work_dependencies db → work_tasks db' = work_tasks db →
  work_projects db' = work_projects db → keeps_graph db db'.
Proof.
  intros Hd Ht Hp.
  assert (∀ t i task, task_ok db t i task → task_ok db' t i task) as Hok
    by (intros t i task; apply task_ok_projects; by rewrite Hp).
  split; unfold tasks_ok, in_project, evolves; rewrite ?Hd, ?Ht, ?Hp; eauto.
Qed.

Lemma keeps_graph_project k row db :
  keeps_graph db (set_work_projects (<[k := row]> (work_projects db)) db).
Proof.
  assert (∀ k', is_Some (work_projects db !! k') →
    is_Some (<[k := row]> (work_projects db) !! k')) as Hrows.
  { intros k' Hk. destruct (decide (k = k')) as [->|?].
    - rewrite lookup_insert_eq. eauto.
    - by rewrite lookup_insert_ne. }
  split; cbn; auto; [|intros ?; cbn; eauto].
  intros Hok t i task Ht. by eapply task_ok_projects, Hok.
Qed.

Lemma keeps_graph_task t i row db :
  task_ok db t i row → work_tasks db !! (t, i) = None →
  keeps_graph db (set_work_tasks (<[(t, i) := row]> (work_tasks db)) db).
Proof.
  intros Hrow Hold.
  assert (∀ k task, work_tasks db !! k = Some task →
    <[(t, i) := row]> (work_tasks db) !! k = Some task) as Hkeep.
  { intros k task Hk. rewrite lookup_insert_ne; [done|]. intros <-. congruence. }
  split; cbn; auto.
  - intros t' p i' (task & Ht%Hkeep & <-). by exists task.
  - intros Hok t' i' task. cbn.
    intros [[[= <- <-] <-]|[_ Ht]]%lookup_insert_Some; (eapply task_ok_projects; [|eauto]); done.
  - intros k task Hk%Hkeep. eauto.
Qed.

(** A guarded update that changes the graph only as allowed. *)
Lemma keeps_versioned {R} (table : work_tables → gmap (string * string) R) set version
    checks name tenantID id expected change (row : Scope → work_tables → result db_error R) :
  (∀ db t i old, table db !! (t, i) = Some old →
     keeps_graph db (set (<[(t, i) := change old]> (table db)) db)) →
  along keeps_graph
    (versioned (sql_versioned_update table set version checks name tenantID id expected
                  change) row).
Proof.
  intros Hset. unfold versioned, rejectVersionOrMissing. apply along_bind; [|apply _].
  apply along_map_err, (along_exec keeps_graph). intros sc db n db' Hu.
  unfold sql_versioned_update in Hu. do 3 (apply result_bind_Ok in Hu as (? & ? & Hu)).
  repeat case_match; simplify_eq; try reflexivity. result_inv Hu. simplify_eq. eauto.
Qed.

#[global] Instance keeps_outbox t e : along keeps_graph (insertOutbox t e).
Proof.
  apply along_map_err, along_bind; [apply _|intros now]. apply (along_exec keeps_graph).
  intros sc db u db' Hi. result_inv Hi. simplify_eq. by apply keeps_graph_same.
Qed.

Lemma keeps_task_update change tenantID id expected
    (row : Scope → work_tables → result db_error Task) :
  (∀ old, (task_TenantID (change old), task_ID (change old), task_ProjectID (change old))
            = (task_TenantID old, task_ID old, task_ProjectID old) ∧
          task_Version (change old) = task_Version old + 1) →
  along keeps_graph (versioned (sql_update_task tenantID id expected change) row).
Proof.
  intros Hc. apply keeps_versioned. intros db t i old Hold.
  split; cbn; auto.
  - intros t' p i' (task & Ht & <-). unfold in_project. cbn.
    destruct (decide ((t, i) = (t', i'))) as [[= -> ->]|?].
    + rewrite lookup_insert_eq. simplify_eq. eexists. split; [done|].
      by destruct (Hc old) as [[= ? ? ?] _].
    + rewrite lookup_insert_ne by done. eauto.
  - intros Hok t' i' task. cbn. destruct (decide ((t, i) = (t', i'))) as [[= -> ->]|?].
    + rewrite lookup_insert_eq. intros [= <-]. destruct (Hok t' i' old Hold) as [Hk ????].
      destruct (Hc old) as [[= Ht1 Hi1 Hp1] _]. split; cbn; rewrite ?Ht1, ?Hi1, ?Hp1; done.
    + rewrite lookup_insert_ne by done. intros Ht. eapply task_ok_projects, Hok, Ht. done.
  - intros k task Hk. cbn. destruct (decide ((t, i) = k)) as [<-|?].
    + rewrite lookup_insert_eq. simplify_eq. eexists. split; [done|]. right.
      rewrite (proj2 (Hc _)). lia.
    + rewrite lookup_insert_ne by done. eauto.
Qed.

Lemma keeps_item_update tenantID taskID id expected change
    (row : Scope → work_tables → result db_error ChecklistItem) :
  along keeps_graph (versioned (sql_update_item tenantID taskID id expected change) row).
Proof.
  unfold versioned, rejectVersionOrMissing. apply along_bind; [|apply _].
  apply along_map_err, (along_exec keeps_graph). intros sc db n db' Hu.
  unfold sql_update_item, sql_versioned_update in Hu. repeat case_match; simplify_eq;
    repeat (apply result_bind_Ok in Hu as (? & ? & Hu)); repeat case_match; simplify_eq;
    try reflexivity; repeat (apply result_bind_Ok in Hu as (? & ? & Hu)); simplify_eq;
    by apply keeps_graph_same.
Qed.

(** The statements, one by one. *)
Ltac keeps_exec :=
  apply (along_exec keeps_graph); intros sc db u db' Hw; result_inv Hw;
  injection Hw as _ <-.

#[local] Instance keeps_insert_goal g : along keeps_graph (exec (sql_insert_goal g)).
Proof. unfold sql_insert_goal. keeps_exec. by apply keeps_graph_same. Qed.
#[local] Instance keeps_insert_project p : along keeps_graph (exec (sql_insert_project p)).
Proof. unfold sql_insert_project. keeps_exec. apply keeps_graph_project. Qed.
#[local] Instance keeps_insert_item item : along keeps_graph (exec (sql_insert_item item)).
Proof. unfold sql_insert_item. keeps_exec. by apply keeps_graph_same. Qed.

#[local] Instance keeps_insert_task k : along keeps_graph (exec (sql_insert_task k)).
Proof.
  unfold sql_insert_task. keeps_exec. apply keeps_graph_task; [split; cbn|].
  - done.
  - by eapply uuid_in_canonical.
  - by eapply uuid_in_canonical.
  - by eapply uuid_in_canonical.
  - by destruct (work_projects db !! _).
  - by destruct (work_tasks db !! _).
Qed.

#[local] Instance keeps_delete_dependency t i o :
  along keeps_graph (exec (sql_delete_dependency t i o)).
Proof.
  apply (along_exec keeps_graph); intros sc db u db' Hw. unfold sql_delete_dependency in Hw.
  do 4 (apply result_bind_Ok in Hw as (? & ? & Hw)). case_match; injection Hw as _ <-;
    [|reflexivity]. split; cbn; auto; [apply delete_subseteq|..]; [|intros k; cbn; eauto].
  intros Hok t' i' task Ht. by eapply task_ok_projects, Hok.
Qed.

#[local] Instance keeps_delete_item t i o : along keeps_graph (exec (sql_delete_item t i o)).
Proof.
  apply (along_exec keeps_graph); intros sc db u db' Hw. unfold sql_delete_item in Hw.
  do 2 (apply result_bind_Ok in Hw as (? & ? & Hw)). repeat case_match; simplify_eq;
    [by apply keeps_graph_same|reflexivity].
Qed.

#[local] Hint Extern 1 (along keeps_graph (versioned (sql_update_goal _ _ _ _) _)) =>
  apply keeps_versioned; intros; by apply keeps_graph_same : typeclass_instances.
#[local] Hint Extern 1 (along keeps_graph (versioned (sql_update_project _ _ _ _) _)) =>
  apply keeps_versioned; intros; apply keeps_graph_project : typeclass_instances.
#[local] Hint Extern 1 (along keeps_graph (versioned (sql_update_task _ _ _ _) _)) =>
  by apply keeps_task_update; intros ?; split : typeclass_instances.
#[local] Hint Extern 1 (along keeps_graph (versioned (sql_update_item _ _ _ _ _) _)) =>
  apply keeps_item_update : typeclass_instances.

Lemma other_keeps_graph ctx {A} (m : repo A) db ev :
  other_method ctx m → keeps_graph db (run m db ev).2.
Proof.
  intros Hm. apply (run_along keeps_graph). revert Hm.
  destruct 1; unfold CreateGoal, UpdateGoal, ChangeGoalStatus, CreateProject, UpdateProject,
    ChangeProjectStatus, CreateTask, UpdateTask, ChangeTaskStatus, RemoveDependency,
    AddChecklistItem, UpdateChecklistItem, DeleteChecklistItem, beginUserTenant, taskExists;
    apply _.
Qed.

(** ** The invariant *)

Record graph_ok db : Prop := {
  graph_tasks : tasks_ok db;
  graph_rows : ∀ t a b d, work_dependencies db !! (t, a, b) = Some d →
    (dep_TenantID d, dep_TaskID d, dep_DependsOnTaskID d) = (t, a, b) ∧
    in_project db t (dep_ProjectID d) a ∧ in_project db t (dep_ProjectID d) b;
  graph_acyclic : ∀ t, acyclic (depends db t);
}.

(** The edges that the query of a tenant sees are the tenant's. *)
Lemma tenant_edges_depends db t a b :
  graph_ok db → edge (tenant_edges t db) a b ↔ depends db t a b.
Proof.
  intros Hok. unfold edge, tenant_edges, depends.
  rewrite list_elem_of_fmap. split.
  - intros (d & [= -> ->] & Hd). apply list_elem_of_In, filter_In in Hd as [Hd Ht].
    apply list_elem_of_In, list_elem_of_fmap in Hd as ([[[t' a'] b'] d'] & -> & Hd).
    apply elem_of_map_to_list in Hd. apply (graph_rows _ Hok) in Hd as Hr.
    destruct Hr as [[= <- <- <-] _]. apply String.eqb_eq in Ht. cbn in *. subst t. eauto.
  - intros [d Hd]. destruct (graph_rows _ Hok _ _ _ _ Hd) as [[= Ht Ha Hb] _].
    exists d. split; [by rewrite Ha, Hb|]. apply list_elem_of_In, filter_In.
    rewrite Ht, String.eqb_refl. split; [|done]. apply list_elem_of_In, list_elem_of_fmap.
    exists (t, a, b, d). by rewrite elem_of_map_to_list.
Qed.

(** The two ends of an edge, hence of a path, are in one project. *)
Lemma depends_project db t p a b :
  graph_ok db → depends db t a b → in_project db t p a → in_project db t p b.
Proof.
  intros Hok [d Hd] (task & Ht & <-).
  destruct (graph_rows _ Hok _ _ _ _ Hd) as (_ & (task' & Ht' & <-) & Hb). by simplify_eq.
Qed.

Lemma in_project_functional db t p p' i :
  in_project db t p i → in_project db t p' i → p = p'.
Proof. intros (? & ? & <-) (? & ? & <-). by simplify_eq. Qed.

Lemma keeps_depends db db' t a b :
  keeps_graph db db' → depends db' t a b → depends db t a b.
Proof. intros Hk [d Hd]. exists d. by eapply lookup_weaken, keeps_dependencies. Qed.

Lemma keeps_graph_ok db db' : keeps_graph db db' → graph_ok db → graph_ok db'.
Proof.
  intros Hk Hok. split.
  - by apply Hk, Hok.
  - intros t a b d Hd. eapply lookup_weaken in Hd; [|by apply keeps_dependencies].
    apply (graph_rows _ Hok) in Hd as (? & ? & ?). split_and!; [done|by apply Hk..].
  - intros t. eapply acyclic_subrel; [|by apply Hok]. intros a b. by apply keeps_depends.
Qed.

(** A transaction under way: its session belongs to the tenant of its tasks, which
    are in the project it read, and once it has passed the check it holds the
    project's lock and its edge still closes no cycle. *)
Definition running_ok db (locks : gmap (string * string) nat) (id : nat) (r : running)
  : Prop :=
  ∃ sc t i o, let d := dependency_Dependency (run_params r) in let p := run_project r in
    rls_of (session_scope (run_session r)) = Ok sc ∧ tenant_scoped sc t = true ∧
    session_committed (run_session r) = None ∧
    uuid_in (dep_TenantID d) = Some t ∧ uuid_in (dep_TaskID d) = Some i ∧
    uuid_in (dep_DependsOnTaskID d) = Some o ∧ uuid_in p = Some p ∧
    is_Some (work_projects db !! (t, p)) ∧ in_project db t p i ∧ in_project db t p o ∧
    (run_checked r = true → locks !! (t, p) = Some id ∧ ¬ tc (depends db t) o i).

Record sys_ok (σ : system) : Prop := {
  ok_graph : graph_ok (sys_tables σ);
  ok_running : ∀ id r, sys_running σ !! id = Some r →
    running_ok (sys_tables σ) (sys_locks σ) id r;
}.

Lemma running_ok_keeps db db' locks id r :
  keeps_graph db db' → running_ok db locks id r → running_ok db' locks id r.
Proof.
  intros Hk (sc & t & i & o & ? & ? & ? & ? & ? & ? & ? & ? & ? & ? & Hc).
  exists sc, t, i, o. split_and!; try done; [by apply Hk..|].
  intros [Hl Hn]%Hc. split; [done|]. contradict Hn. eapply tc_subrel; [|exact Hn].
  intros a b. by apply keeps_depends.
Qed.

(** *** The steps *)

Lemma sql_task_Ok tenantID taskID sc db task :
  sql_task tenantID taskID sc db = Ok task →
  ∃ r t i, rls_of sc = Ok r ∧ tenant_scoped r t = true ∧ uuid_in tenantID = Some t ∧
    uuid_in taskID = Some i ∧ work_tasks db !! (t, i) = Some task.
Proof.
  unfold sql_task, sql_row, cast. intros Hq. result_inv Hq. repeat case_match; simplify_eq.
  eauto 10.
Qed.

Lemma sql_dependency_cycle_Ok tenantID prerequisiteID taskID sc db found :
  sql_dependency_cycle tenantID prerequisiteID taskID sc db = Ok found →
  ∃ r t o i rows, rls_of sc = Ok r ∧ uuid_in tenantID = Some t ∧
    uuid_in prerequisiteID = Some o ∧ uuid_in taskID = Some i ∧
    chain (if tenant_scoped r t then tenant_edges t db else []) o = Some rows ∧
    found = bool_decide (i ∈ rows).
Proof.
  unfold sql_dependency_cycle, cast. intros Hq. result_inv Hq. injection Hq as <-.
  eexists _, _, _, _, _. by split_and!.
Qed.

Lemma sql_insert_dependency_Ok projectID d sc db u db' :
  sql_insert_dependency projectID d sc db = Ok (u, db') →
  ∃ t p i o row,
    uuid_in (dep_TenantID d) = Some t ∧ uuid_in projectID = Some p ∧
    uuid_in (dep_TaskID d) = Some i ∧ uuid_in (dep_DependsOnTaskID d) = Some o ∧
    i ≠ o ∧ in_project db t p i ∧ in_project db t p o ∧
    work_dependencies db !! (t, i, o) = None ∧
    (dep_TenantID row, dep_ProjectID row, dep_TaskID row, dep_DependsOnTaskID row)
      = (t, p, i, o) ∧
    db' = set_work_dependencies (<[(t, i, o) := row]> (work_dependencies db)) db.
Proof.
  unfold sql_insert_dependency, cast. intros Hi. result_inv Hi. injection Hi as _ <-.
  bool_facts.
  repeat match goal with
  | E : match work_tasks db !! ?k with _ => _ end = true |- _ =>
      let Hk := fresh "Hk" in destruct (work_tasks db !! k) eqn:Hk; [|done]
  end.
  bool_facts. unfold in_project. eexists _, _, _, _, _. split_and!; eauto; try done.
  by destruct (work_dependencies db !! _).
Qed.

Lemma project_read ctx params db ev projectID s locks id :
  graph_ok db → AddDependency_project ctx params (new_session db ev) = (Ok projectID, s) →
  running_ok db locks id
    {| run_params := params; run_session := s; run_project := projectID;
       run_checked := false |}.
Proof.
  intros Hok Hr. unfold AddDependency_project, sharedProject, beginUserTenant in Hr.
  tx_inv_core Hr.
  select (sql_task _ (dep_TaskID _) _ _ = _) (fun E =>
    apply sql_task_Ok in E as (r & t & i & ? & ? & ? & ? & ?)).
  select (sql_task _ (dep_DependsOnTaskID _) _ _ = _) (fun E =>
    apply sql_task_Ok in E as (? & ? & o & ? & ? & ? & ? & ?)).
  bool_facts. simplify_eq. unfold running_ok, in_project.
  select (work_tasks _ !! (_, i) = _) (fun E =>
    destruct (graph_tasks _ Hok _ _ _ E)).
  exists r, t, i, o. cbn. split_and!; naive_solver.
Qed.

Lemma locked_row_ok db r sc t :
  rls_of (session_scope (run_session r)) = Ok sc → tenant_scoped sc t = true →
  uuid_in (dep_TenantID (dependency_Dependency (run_params r))) = Some t →
  uuid_in (run_project r) = Some (run_project r) →
  is_Some (work_projects db !! (t, run_project r)) →
  locked_row db r = Some (t, run_project r).
Proof.
  intros Hsc Hs Ht Hp [row Hrow]. unfold locked_row. by rewrite Hsc, Ht, Hp, Hs, Hrow.
Qed.

Lemma check_passed db locks id r s :
  graph_ok db → running_ok db locks id r →
  resume (AddDependency_check (run_params r) (run_project r)) db (run_session r)
    = (Ok tt, s) →
  running_ok db (lock id (locked_row db r) locks) id
    {| run_params := run_params r; run_session := s; run_project := run_project r;
       run_checked := true |}.
Proof.
  intros Hok (sc & t & i & o & Hsc & Hs & Hn & Ht & Hi & Ho & Hp & Hrow & Hpi & Hpo & _) Hr.
  unfold resume, AddDependency_check, dependencyCycleExists in Hr. tx_inv_core Hr.
  exists sc, t, i, o. cbn. split_and!; try done. intros _.
  rewrite (locked_row_ok db r sc t) by done. cbn. split; [apply lookup_insert_eq|].
  select (sql_dependency_cycle _ _ _ _ _ = _) (fun E =>
    apply sql_dependency_cycle_Ok in E as (? & ? & ? & ? & rows & ? & ? & ? & ? & ? & ?)).
  simplify_eq. match goal with Hx : rls_of _ = Ok ?x |- _ =>
    assert (x = sc) as -> by congruence end.
  rewrite Hs in *. apply bool_decide_eq_false in Hr. contradict Hr.
  eapply chain_reaches; [done|]. eapply tc_subrel; [|exact Hr].
  intros x y. by apply tenant_edges_depends.
Qed.

Lemma work_outbox_Ok tenantID event s u s' :
  insertOutbox tenantID event s = (Ok u, s') →
  ∃ clock ob, sql_insert_outbox clock tenantID event (work_outbox (session_db s)) = Ok ob ∧
    session_db s' = set_work_outbox ob (session_db s).
Proof.
  unfold insertOutbox. intros Hi%map_err_Ok.
  apply tx_bind_Ok in Hi as (now & s1 & ->%clock_Ok & Hi).
  apply exec_Ok in Hi as (_ & Hi & _). result_inv Hi. simplify_eq. eauto.
Qed.

(** What the insertion of the edge commits. *)
Lemma edge_inserted params projectID db s db' sc t i o p :
  let d := dependency_Dependency params in
  rls_of (session_scope s) = Ok sc → session_committed s = None →
  uuid_in (dep_TenantID d) = Some t → uuid_in (dep_TaskID d) = Some i →
  uuid_in (dep_DependsOnTaskID d) = Some o → uuid_in projectID = Some p →
  session_committed (resume (AddDependency_insert params projectID) db s).2 = Some db' →
  i ≠ o ∧ in_project db t p i ∧ in_project db t p o ∧
  work_tasks db' = work_tasks db ∧ work_projects db' = work_projects db ∧
  ∃ row, work_dependencies db' = <[(t, i, o) := row]> (work_dependencies db) ∧
    (dep_TenantID row, dep_ProjectID row, dep_TaskID row, dep_DependsOnTaskID row)
      = (t, p, i, o).
Proof.
  intros d Hsc Hn Ht Hi Ho Hp Hc. subst d. destruct s; cbn in *; subst. unfold resume, AddDependency_insert in Hc.
  match type of Hc with session_committed (?m ?s0).2 = _ =>
    change (committed_by m s0 db') in Hc end.
  committed_inv Hc.
  apply committed_commit_then in Hc as ->; [|intros ?; apply _|done].
  apply work_outbox_Ok in E0 as (clock & ob & _ & ->).
  apply sql_insert_dependency_Ok in E
    as (? & ? & ? & ? & row & ? & ? & ? & ? & ? & ? & ? & _ & ? & ->).
  simplify_eq. eauto 10.
Qed.

Lemma insert_acyclic db db' t i o row :
  work_dependencies db' = <[(t, i, o) := row]> (work_dependencies db) →
  ∀ t' a b, depends db' t' a b → depends db t' a b ∨ (t', a, b) = (t, i, o).
Proof.
  intros Hd t' a b [d Hr]. rewrite Hd in Hr.
  apply lookup_insert_Some in Hr as [[[= -> -> ->] _]|[_ Hr]]; [by right|].
  left. by exists d.
Qed.

Lemma graph_ok_insert db db' t i o p row :
  graph_ok db → ¬ tc (depends db t) o i →
  i ≠ o → in_project db t p i → in_project db t p o →
  work_tasks db' = work_tasks db → work_projects db' = work_projects db →
  work_dependencies db' = <[(t, i, o) := row]> (work_dependencies db) →
  (dep_TenantID row, dep_ProjectID row, dep_TaskID row, dep_DependsOnTaskID row)
    = (t, p, i, o) → graph_ok db'.
Proof.
  intros Hok Hn Hne Hi Ho Htasks Hprojects Hdeps [= Hrt Hrp Hri Hro].
  assert (∀ t p i, in_project db t p i → in_project db' t p i) as Hin.
  { unfold in_project. by rewrite Htasks. }
  split.
  - intros t' i' task. rewrite Htasks. intros Ht%(graph_tasks _ Hok).
    eapply task_ok_projects; [|done]. by rewrite Hprojects.
  - intros t' a b d Hd. rewrite Hdeps in Hd.
    apply lookup_insert_Some in Hd as [[[= <- <- <-] <-]|[_ Hd]].
    + rewrite Hrt, Hrp, Hri, Hro. auto.
    + apply (graph_rows _ Hok) in Hd as (? & ? & ?). auto.
  - intros t'. destruct (decide (t = t')) as [<-|Ht].
    + eapply acyclic_subrel; [|apply (acyclic_new_edge (depends db t) i o); [apply Hok|done..]].
      intros a b [?|[= -> ->]]%(insert_acyclic _ _ _ _ _ _ Hdeps); auto.
    + eapply acyclic_subrel; [|apply Hok].
      intros a b [?|[= <- _ _]]%(insert_acyclic _ _ _ _ _ _ Hdeps); [done|by destruct Ht].
Qed.

(** An edge added in another project, or another tenant, closes no cycle here: a path
    never leaves its project. *)
Lemma running_ok_insert db db' locks id id' r t i o p row :
  graph_ok db → running_ok db locks id r → id ≠ id' → locks !! (t, p) = Some id' →
  in_project db t p i → work_tasks db' = work_tasks db →
  work_projects db' = work_projects db →
  work_dependencies db' = <[(t, i, o) := row]> (work_dependencies db) →
  running_ok db' (unlock id' locks) id r.
Proof.
  intros Hok (sc & t1 & i1 & o1 & Hsc & Hs & Hn & Ht & Hi & Ho & Hp & Hrow & Hpi & Hpo & Hc)
    Hne Hl Hin Htasks Hprojects Hdeps.
  exists sc, t1, i1, o1. cbn. rewrite Hprojects. unfold in_project in *. rewrite Htasks.
  split_and!; try done. intros [Hl1 Hnc]%Hc. split.
  { apply map_lookup_filter_Some. split; [done|]. cbn. done. }
  contradict Hnc. destruct (decide (t1 = t)) as [->|Htne].
  - assert (run_project r ≠ p) as Hpne by (intros Heq; rewrite Heq in Hl1; congruence).
    apply (tc_avoids_edge _ (in_project db t (run_project r)) i o).
    + intros a b. by apply depends_project.
    + done.
    + intros Hi'. by apply Hpne, (in_project_functional db t _ _ i).
    + eapply tc_subrel; [|exact Hnc].
      intros a b [?|[= -> ->]]%(insert_acyclic _ _ _ _ _ _ Hdeps); auto.
  - eapply tc_subrel; [|exact Hnc].
    intros a b [?|[= ? _ _]]%(insert_acyclic _ _ _ _ _ _ Hdeps); done.
Qed.

Lemma running_ok_locks db locks locks' id r :
  (∀ k, locks !! k = Some id → locks' !! k = Some id) →
  running_ok db locks id r → running_ok db locks' id r.
Proof.
  intros Hl (sc & t & i & o & ? & ? & ? & ? & ? & ? & ? & ? & ? & ? & Hc).
  exists sc, t, i, o. split_and!; try done. intros [? ?]%Hc. auto.
Qed.

Lemma unlock_other id id' locks k :
  id ≠ id' → locks !! k = Some id → unlock id' locks !! k = Some id.
Proof. intros. by apply map_lookup_filter_Some. Qed.

Lemma lock_other id id' row locks k :
  is_free row locks = true → locks !! k = Some id → lock id' row locks !! k = Some id.
Proof.
  destruct row as [k'|]; cbn; [|done]. intros Hf Hk.
  rewrite lookup_insert_ne; [done|]. intros ->. by rewrite Hk in Hf.
Qed.

Lemma step_ok σ σ' : step σ σ' → sys_ok σ → sys_ok σ'.
Proof.
  intros Hstep [Hok Hrun]. destruct Hstep as [id ctx params ev projectID s Hid Hr
    |id r s Hid Hnc Hf Hr|id r result s Hid Hck Hr|id|ctx A m ev Hm|ob]; split; cbn; try done.
  - intros id' r' [[<- <-]|[? ?]]%lookup_insert_Some; [by eapply project_read|by apply Hrun].
  - intros id' r' [[<- <-]|[? ?]]%lookup_insert_Some.
    + apply check_passed; auto.
    + eapply running_ok_locks; [|by apply Hrun]. intros k. by apply lock_other.
  - destruct (session_committed s) as [db'|] eqn:Hs; [|done]. cbn.
    destruct (Hrun _ _ Hid) as (sc & t & i & o & ? & ? & ? & ? & ? & ? & ? & ? & ? & ? & Hc).
    destruct (Hc Hck) as [Hl Hnc]. edestruct edge_inserted as (? & ? & ? & ? & ? & row & ? & ?);
      [eassumption..|by rewrite Hr|]. by eapply graph_ok_insert.
  - intros id' r' [Hne Hr']%lookup_delete_Some. apply Hrun in Hr'.
    assert (running_ok (sys_tables σ) (unlock id (sys_locks σ)) id' r') as Hr2.
    { eapply running_ok_locks; [|done]. intros k. apply unlock_other. done. }
    destruct (session_committed s) as [db'|] eqn:Hs; [cbn|done].
    destruct (Hrun _ _ Hid) as (sc & t & i & o & ? & ? & ? & ? & ? & ? & ? & ? & ? & ? & Hc).
    destruct (Hc Hck) as [Hl Hnc]. edestruct edge_inserted as (? & ? & ? & ? & ? & row & ? & ?);
      [eassumption..|by rewrite Hr|].
    by eapply (running_ok_insert (sys_tables σ) db' _ _ _ _ t i o).
  - intros id' r' [Hne Hr']%lookup_delete_Some. eapply running_ok_locks; [|by apply Hrun].
    intros k. by apply unlock_other.
  - eapply keeps_graph_ok; [by eapply other_keeps_graph|done].
  - intros id r Hr. eapply running_ok_keeps; [|by apply Hrun]. by eapply other_keeps_graph.
  - eapply keeps_graph_ok; [|done]. by apply keeps_graph_same.
Qed.

Lemma start_ok : sys_ok start.
Proof.
  split; [split|]; cbn.
  - intros t i task. cbn. by rewrite lookup_empty.
  - intros t a b d. cbn. by rewrite lookup_empty.
  - intros t x Hx. assert (∃ y, depends no_work_tables t x y) as [y [d Hd]]
      by (inversion Hx; eauto). cbn in Hd. by rewrite lookup_empty in Hd.
  - intros id r. by rewrite lookup_empty.
Qed.

Lemma reachable_ok σ : reachable σ → sys_ok σ.
Proof.
  unfold reachable. intros Hr. apply (rtc_ind_r (R:=step) sys_ok start); [apply start_ok|..|done].
  intros σ1 σ2 _ Hs Hok. by eapply step_ok.
Qed.

End Dependencies.
