(* ===== verification/WorkProperties.v ===== *)
(** * Work management: properties

    The dependency graph, the guards of status changes and the versions of rows. *)

From S2P Require Import Prelude GoStrings Postgres Usecase Outbox.
From S2P Require Import OutboxProperties.
From S2P Require TenantDomain.
From S2P Require Import Graph WorkDomain WorkStore WorkDependencies WorkService WorkTasks.
From S2P Require Import WorkRepository.
From stdpp Require Import strings gmap fin_maps list relations.
From Stdlib Require Import String Lia.
Open Scope string_scope.
Open Scope list_scope.
Open Scope Z_scope.

Section Properties.
Context `{PlatformLaws, Proto}.
Implicit Types (ctx : Ctx) (ev : env) (db : work_tables).

(** C3 (no task ever waits for itself). Transactions that add dependencies run
    concurrently, statement by statement, with one another and with every other
    operation of the service, and fail anywhere: in every committed state no task is,
    directly or through other tasks, its own prerequisite, and both ends of a
    dependency are tasks of the dependency's project. *)
Theorem dependencies_acyclic (σ : system) t :
  reachable σ →
  (∀ x, ¬ tc (depends (sys_tables σ) t) x x) ∧
  (∀ a b d, work_dependencies (sys_tables σ) !! (t, a, b) = Some d →
     in_project (sys_tables σ) t (dep_ProjectID d) a ∧
     in_project (sys_tables σ) t (dep_ProjectID d) b).
Proof.
  intros [Hok _]%reachable_ok. split; [apply Hok|].
  intros a b d Hd. by apply (graph_rows _ Hok) in Hd as [_ ?].
Qed.

(** C21 (the cycle query ends, and finds exactly the chain). On every set of
    dependencies, cyclic ones included, the recursive query ends after at most one
    round more than there are dependencies, and its rows are exactly the tasks that
    the given one depends on, directly or through others. *)
Theorem cycle_query_total (es : edges) (from : string) :
  ∃ rows, chain es from = Some rows ∧ ∀ d, d ∈ rows ↔ tc (edge es) from d.
Proof.
  destruct (chain_total es from) as [rows Hrows]. exists rows. split; [done|].
  by apply chain_reaches.
Qed.

(** ** Adding a dependency *)

(** What [AddDependency] found and did when it returns a dependency. *)
Lemma AddDependency_Ok ctx params db ev dependency db' :
  run (AddDependency ctx params) db ev = (Ok dependency, db') →
  ∃ t i o p rows row,
    let d := dependency_Dependency params in
    uuid_in (dep_TenantID d) = Some t ∧ uuid_in (dep_TaskID d) = Some i ∧
    uuid_in (dep_DependsOnTaskID d) = Some o ∧
    chain (tenant_edges t db) o = Some rows ∧ i ∉ rows ∧
    i ≠ o ∧ in_project db t p i ∧ in_project db t p o ∧
    work_dependencies db !! (t, i, o) = None ∧
    work_dependencies db' = <[(t, i, o) := row]> (work_dependencies db) ∧
    work_tasks db' = work_tasks db ∧ dep_ProjectID row = p.
Proof.
  intros (s & Hr & ->)%run_Ok. unfold AddDependency in Hr.
  apply tx_bind_Ok in Hr as (projectID & s1 & E1 & Hr).
  apply tx_bind_Ok in Hr as (u & s2 & E2 & Hr).
  unfold AddDependency_project, sharedProject, beginUserTenant in E1. tx_inv_core E1.
  unfold AddDependency_check, dependencyCycleExists in E2. tx_inv_core E2.
  unfold AddDependency_insert in Hr. tx_inv_core Hr.
  match goal with Hi : insertOutbox _ _ _ = _ |- _ => apply work_outbox_Ok in Hi as (clock & ob & _ & Hob) end.
  cbn in *. rewrite Hob. clear Hob.
  select (sql_task _ (dep_TaskID _) _ _ = _) (fun E =>
    apply sql_task_Ok in E as (sc & t & i & ? & ? & ? & ? & ?)).
  select (sql_task _ (dep_DependsOnTaskID _) _ _ = _) (fun E =>
    apply sql_task_Ok in E as (? & ? & o & ? & ? & ? & ? & ?)).
  select (sql_dependency_cycle _ _ _ _ _ = _) (fun E =>
    apply sql_dependency_cycle_Ok in E as (? & ? & ? & ? & rows & ? & ? & ? & ? & ? & Hf)).
  select (sql_insert_dependency _ _ _ _ = _) (fun E => apply sql_insert_dependency_Ok in E
    as (? & p & ? & ? & row & ? & ? & ? & ? & ? & ? & ? & ? & ? & ->)).
  simplify_eq. repeat match goal with
  | Hx : rls_of ?s = Ok ?x, Hy : rls_of ?s = Ok ?y |- _ =>
      rewrite Hx in Hy; injection Hy as <-
  end.
  match goal with Hs : tenant_scoped ?r ?t = true, Hc : chain _ _ = _ |- _ =>
    rewrite Hs in Hc; symmetry in Hf; apply bool_decide_eq_false in Hf end.
  do 3 eexists. exists (dep_ProjectID row), rows, row. by split_and!.
Qed.

(** The row security setting of a request's scope. *)
Lemma rls_of_user tenantID actorUserID ctx t a :
  uuid_in tenantID = Some t → uuid_in actorUserID = Some a →
  rls_of (TenantScope tenantID actorUserID (ctx_RequestID ctx) (ctx_CorrelationID ctx))
    = Ok {| rls_kind := ScopeKindTenant; rls_tenant := Some t; rls_principal := Some a;
            rls_type := PrincipalTypeUser |}.
Proof.
  intros Ht Ha. assert (∀ s u, uuid_in s = Some u → rls_setting (TrimSpace s) = Ok (Some u))
    as Hset.
  { intros s u Hs. unfold rls_setting. rewrite (uuid_in_trimmed _ _ Hs), Hs.
    destruct (String.eqb_spec s "") as [->|]; [by rewrite uuid_in_empty in Hs|done]. }
  unfold rls_of. cbn. by rewrite (Hset _ _ Ht), (Hset _ _ Ha).
Qed.

(** The three parts of [AddDependency] for two tasks of one project. *)
Section Decides.
Context (ctx : Ctx) (params : DependencyParams) (db : work_tables) (clock : Z).
Context (t i o p a : string) (ki ko : Task).
Let d := dependency_Dependency params.
Let scope := TenantScope (dep_TenantID d) (dependency_ActorUserID params)
  (ctx_RequestID ctx) (ctx_CorrelationID ctx).
Context (Hscope : Scope_Validate scope = Ok tt).
Context (Ht : uuid_in (dep_TenantID d) = Some t)
  (Ha : uuid_in (dependency_ActorUserID params) = Some a)
  (Hi : uuid_in (dep_TaskID d) = Some i) (Ho : uuid_in (dep_DependsOnTaskID d) = Some o)
  (Hu : uuid_in (dep_CreatedByUserID d) = Some a) (Hp : uuid_in p = Some p).
Context (Hki : work_tasks db !! (t, i) = Some ki) (Hko : work_tasks db !! (t, o) = Some ko)
  (Hpi : task_ProjectID ki = p) (Hpo : task_ProjectID ko = p).

Let Hrls := rls_of_user _ _ ctx _ _ Ht Ha.

Lemma sql_task_found taskID k task :
  uuid_in taskID = Some k → work_tasks db !! (t, k) = Some task →
  sql_task (dep_TenantID d) taskID scope db = Ok task.
Proof.
  intros Hk Htask. unfold sql_task, sql_row, cast, scope, d in *.
  rewrite Hrls, Ht, Hk. cbn. rewrite Htask. unfold tenant_scoped. cbn.
  by rewrite String.eqb_refl.
Qed.

Lemma project_part :
  AddDependency_project ctx params (at_work db no_scope true clock)
    = (Ok p, at_work db scope false clock).
Proof.
  unfold AddDependency_project, sharedProject, beginUserTenant. fold d. fold scope.
  at_work_step; [done|]. at_work_step; [by eapply sql_task_found|].
  at_work_step; [by eapply sql_task_found|]. rewrite Hpi, Hpo, String.eqb_refl. done.
Qed.

Lemma check_part rows :
  chain (tenant_edges t db) o = Some rows →
  AddDependency_check params p (at_work db scope false clock)
    = (fail_if (bool_decide (i ∈ rows)) ErrDependencyCycle, at_work db scope false clock).
Proof.
  intros Hrows. unfold AddDependency_check, dependencyCycleExists. fold d.
  at_work_step.
  { unfold sql_lock_project, cast, scope, d in *. by rewrite Hrls, Ht, Hp. }
  at_work_step; [|done]. unfold sql_dependency_cycle, cast, scope, d in *.
  rewrite Hrls, Ht, Ho, Hi. cbn. unfold tenant_scoped. cbn. rewrite String.eqb_refl.
  cbn. by rewrite Hrows.
Qed.

Lemma insert_part ob :
  i ≠ o → work_dependencies db !! (t, i, o) = None →
  sql_insert_outbox clock (dep_TenantID d) (dependency_Event params) (work_outbox db)
    = Ok ob →
  ∃ row, dep_ProjectID row = p ∧
    AddDependency_insert params p (at_work db scope false clock)
      = (commit;; mret (with_project p d)) (at_work (set_work_outbox ob
           (set_work_dependencies (<[(t, i, o) := row]> (work_dependencies db)) db))
           scope false clock).
Proof.
  intros Hne Hnew Hob. eexists {| dep_ProjectID := p |}. split; [done|].
  unfold AddDependency_insert. fold d. at_work_step.
  { unfold sql_insert_dependency, cast, scope, d in *. rewrite Hrls, Ht, Hp, Hi, Ho, Hu.
    cbn. unfold tenant_scoped. cbn. rewrite String.eqb_refl, Hnew, Hki, Hko, Hpi, Hpo.
    rewrite String.eqb_refl. apply String.eqb_neq in Hne as ->. cbn. reflexivity. }
  unfold insertOutbox. at_work_step; [|done]. cbn in *. by rewrite Hob.
Qed.

End Decides.

(** C15 (a dependency is accepted exactly when it closes no cycle). On a working
    connection, for two different tasks of one project that are not linked yet:
    [AddDependency] is refused with a cycle error, changing nothing, when the
    prerequisite depends on the task, directly or through others; otherwise it adds
    this one edge, under the project of the tasks, and its event. *)
Theorem add_dependency_decides (σ : system) ctx params ev t i o p a ob :
  let d := dependency_Dependency params in
  let db := sys_tables σ in
  reachable σ → env_budget ev = None →
  Scope_Validate (TenantScope (dep_TenantID d) (dependency_ActorUserID params)
    (ctx_RequestID ctx) (ctx_CorrelationID ctx)) = Ok tt →
  uuid_in (dep_TenantID d) = Some t → uuid_in (dependency_ActorUserID params) = Some a →
  uuid_in (dep_TaskID d) = Some i → uuid_in (dep_DependsOnTaskID d) = Some o →
  uuid_in (dep_CreatedByUserID d) = Some a → i ≠ o →
  in_project db t p i → in_project db t p o → work_dependencies db !! (t, i, o) = None →
  sql_insert_outbox (env_clock ev) (dep_TenantID d) (dependency_Event params)
    (work_outbox db) = Ok ob →
  tc (depends db t) o i ∧ run (AddDependency ctx params) db ev = (Err ErrDependencyCycle, db)
  ∨ ¬ tc (depends db t) o i ∧ ∃ row,
      run (AddDependency ctx params) db ev
        = (Ok (with_project p d), set_work_outbox ob
             (set_work_dependencies (<[(t, i, o) := row]> (work_dependencies db)) db)) ∧
      dep_ProjectID row = p.
Proof.
  intros d db [Hok _]%reachable_ok Hev Hv Ht Ha Hi Ho Hu Hne (ki & Hki & Hpi)
    (ko & Hko & Hpo) Hnew Hob.
  assert (uuid_in p = Some p) as Hp by (rewrite <-Hpi; by apply (graph_tasks _ Hok) in Hki as []).
  destruct (chain_total (tenant_edges t db) o) as [rows Hrows].
  assert (i ∈ rows ↔ tc (depends db t) o i) as Hcycle.
  { rewrite (chain_reaches _ _ _ Hrows).
    split; apply tc_subrel; intros x y; by apply tenant_edges_depends. }
  destruct (decide (i ∈ rows)) as [Hin|Hin]; [left|right].
  - split; [by apply Hcycle|]. eapply run_fails; [|done|]; cycle 1.
    + unfold AddDependency. etrans; [eapply tx_bind_step, (project_part _ _ db); eauto|].
      apply tx_bind_stop. etrans; [by eapply (check_part _ _ db)|].
      by rewrite bool_decide_eq_true_2.
    + done.
  - split; [by rewrite <-Hcycle|].
    edestruct (insert_part ctx params db) as (row & Hrow & Hins); [eassumption..|].
    exists row. split; [|done]. eapply run_commits; [done|done|].
    unfold AddDependency. etrans; [eapply tx_bind_step, (project_part _ _ db); eauto|].
    etrans; [eapply tx_bind_step; etrans; [by eapply (check_part _ _ db)|]
            |exact Hins]. by rewrite bool_decide_eq_false_2.
Qed.

End Properties.
