(* ===== verification/WorkLifecycle.v ===== *)
(** * Work management: changes of status

    What a committed change of a task's, project's or goal's status went through, and
    how the rows' versions tie the two transactions of a use case together. *)

From S2P Require Import Prelude GoStrings Postgres Usecase Graph Outbox OutboxProperties.
From S2P Require TenantDomain.
From S2P Require Import WorkDomain WorkStore WorkRepository WorkService WorkTasks.
From S2P Require Import WorkDependencies.
From stdpp Require Import strings gmap fin_maps list relations.
From Stdlib Require Import String Lia.
Open Scope string_scope.
Open Scope list_scope.
Open Scope Z_scope.

#[local] Notation world := (Usecase.world work_tables).
#[local] Notation app := (Usecase.app work_tables error).

(** ** Guarded updates *)

Section Updates.
Context `{PlatformLaws, Proto}.
Implicit Types (ctx : Ctx) (ev : env) (db : work_tables).

(** A guarded update that succeeds changed the row of the expected version. *)
Lemma versioned_Ok {R} (table : work_tables → gmap (string * string) R) set version checks
    name tenantID id expected change (row : Scope → work_tables → result db_error R) s u s' :
  versioned (sql_versioned_update table set version checks name tenantID id expected change)
    row s = (Ok u, s') →
  ∃ r t i old, rls_of (session_scope s) = Ok r ∧ tenant_scoped r t = true ∧
    uuid_in tenantID = Some t ∧ uuid_in id = Some i ∧
    table (session_db s) !! (t, i) = Some old ∧ version old = expected ∧
    version old + 1 ≤ int64_max ∧ checks (change old) = true ∧
    session_db s' = set (<[(t, i) := change old]> (table (session_db s))) (session_db s).
Proof.
  unfold versioned, rejectVersionOrMissing. intros Hv.
  apply tx_bind_Ok in Hv as (n & s1 & (_ & E & _)%map_err_Ok%exec_Ok & Hv).
  assert (n ≠ 0 ∧ session_db s' = session_db s1) as [Hn ->].
  { destruct (Z.eqb_spec n 0) as [->|]; [exfalso|by apply ret_Ok in Hv as [_ ->]].
    apply tx_bind_Ok in Hv as (? & s2 & _ & [Hl _]%lift_Ok). done. }
  unfold sql_versioned_update, cast in E. do 3 (apply result_bind_Ok in E as (? & ? & E)).
  destruct (table _ !! _) as [old|] eqn:Hold; [|by simplify_eq].
  destruct (_ && _) eqn:Hv1; [|by simplify_eq]. result_inv E. bool_facts.
  injection E as _ <-.
  repeat match goal with Hc : from_option_err _ _ = Ok _ |- _ => apply from_option_err_Ok in Hc end.
  eauto 15.
Qed.

(** A check that guards a method in some of its cases. *)
Lemma guard_Ok (b : bool) (q : Scope → work_tables → result db_error bool) e s u s' :
  (if b then found ← query q; lift (fail_if found e) else mret tt : repo unit) s
    = (Ok u, s') →
  session_db s' = session_db s ∧ session_scope s' = session_scope s ∧
  session_committed s' = session_committed s ∧
  (b = true → q (session_scope s) (session_db s) = Ok false).
Proof.
  destruct b; intros Hg; [|by apply ret_Ok in Hg as [_ ->]].
  apply tx_bind_Ok in Hg as (found & s1 & (Hq & ? & ? & ? & _)%query_Ok & [Hf ->]%lift_Ok).
  apply fail_if_Ok in Hf as ->. auto.
Qed.

(** An event appended to the outbox is there. *)
Lemma insert_outbox_holds clock tenantID event ob ob' :
  sql_insert_outbox clock tenantID event ob = Ok ob' →
  ∃ t eid, uuid_in tenantID = Some t ∧
    holds (λ t' e, t' = t ∧ e = stored_event eid event) ob'.
Proof.
  unfold sql_insert_outbox. intros Hob. result_inv Hob. simplify_eq.
  do 2 eexists. split; [done|]. exists (outbox_next ob). eexists. cbn.
  by rewrite lookup_insert_eq.
Qed.

(** The statuses that a task enters only when its prerequisites are completed. *)
Definition needs_prerequisites (status : TaskStatus) : bool :=
  String.eqb status TaskStatusCompleted || String.eqb status TaskStatusInProgress
  || String.eqb status TaskStatusWaitingApproval.

Lemma ChangeTaskStatus_Ok ctx params db ev view db' :
  run (WorkRepository.ChangeTaskStatus ctx params) db ev = (Ok view, db') →
  let k := taskChange_Task params in
  ∃ t i old clock ob, uuid_in (task_TenantID k) = Some t ∧ uuid_in (task_ID k) = Some i ∧
    work_tasks db !! (t, i) = Some old ∧ task_Version old = taskChange_ExpectedVersion params ∧
    0 < task_Version old + 1 ≤ int64_max ∧
    (needs_prerequisites (task_Status k) = true → incomplete_dependencies t i db = []) ∧
    (task_Status k = TaskStatusCompleted → ∀ key item, work_checklist db !! key = Some item →
       item_TenantID item = t → item_TaskID item = i → item_Completed item = true) ∧
    sql_insert_outbox clock (task_TenantID k) (taskChange_Event params) (work_outbox db)
      = Ok ob ∧
    view = taskView k ∧
    db' = set_work_outbox ob (set_work_tasks
            (<[(t, i) := task_status_changed k old]> (work_tasks db)) db).
Proof.
  intros (s & Hr & ->)%run_Ok. unfold WorkRepository.ChangeTaskStatus, beginUserTenant in Hr.
  tx_inv_core Hr.
  apply guard_Ok in E as (Hd0 & Hs0 & _ & Hpre), E0 as (Hd1 & Hs1 & _ & Hcheck).
  apply versioned_Ok in E1 as (r & t & i & old & Hr & Hsc & Ht & Hi & Hold & Hv & Hmax & Hchecks & Hd2).
  apply work_outbox_Ok in E2 as (clock & ob & Hob & Hd3). cbn in *.
  rewrite Hd1, Hd0, Hs1, Hs0 in *. rewrite Hd2 in Hob, Hd3.
  exists t, i, old, clock, ob. split_and!; try done.
  - unfold task_checks in Hchecks. cbn in Hchecks. bool_facts. lia.
  - intros Hb%Hpre. unfold sql_has_incomplete_dependencies, cast in Hb.
    rewrite Hr, Ht, Hi in Hb. cbn in Hb. rewrite Hsc in Hb. by repeat case_match.
  - intros Hb. rewrite Hb, String.eqb_refl in Hcheck. specialize (Hcheck eq_refl).
    unfold sql_has_open_checklist, cast in Hcheck.
    rewrite Hr, Ht, Hi in Hcheck. cbn in Hcheck. injection Hcheck as Hnone.
    intros key item Hitem Hit Hii. apply (table_any_false _ _ _ _ Hnone) in Hitem.
    rewrite Hit, Hii, !String.eqb_refl, Hsc in Hitem. by apply negb_false_iff in Hitem.
Qed.

Definition closed_project_statuses : list string :=
  [ProjectStatusCompleted; ProjectStatusCanceled; ProjectStatusArchived].
Definition closed_task_statuses : list string := [TaskStatusCompleted; TaskStatusCanceled].

(** A closed project has no open task. When the repository commits a project as
    completed or archived, every task of the project is completed or canceled. *)
Theorem project_closing_guarded ctx params db ev project db' :
  run (WorkRepository.ChangeProjectStatus ctx params) db ev = (Ok project, db') →
  project_Status project ∈ [ProjectStatusCompleted; ProjectStatusArchived] →
  ∃ t p row, uuid_in (project_TenantID project) = Some t ∧
    uuid_in (project_ID project) = Some p ∧ work_projects db' !! (t, p) = Some row ∧
    project_Status row = project_Status project ∧
    ∀ key task, work_tasks db' !! key = Some task → task_TenantID task = t →
      task_ProjectID task = p → task_Status task ∈ closed_task_statuses.
Proof.
  intros (s & Hr & ->)%run_Ok. unfold WorkRepository.ChangeProjectStatus, beginUserTenant in Hr.
  tx_inv_core Hr. intros Hclosing.
  apply guard_Ok in E as (Hd0 & Hs0 & _ & Hg). apply versioned_Ok in E0
    as (r & t & p & old & Hr & Hsc & Ht & Hp & Hold & _ & _ & _ & Hd1).
  apply work_outbox_Ok in E1 as (clock & ob & _ & Hd2). cbn in *.
  rewrite Hs0 in Hr. rewrite Hd1, Hd0 in Hd2.
  assert (Hopen := Hg ltac:(set_unfold; by destruct Hclosing as [->|[->|]])).
  unfold sql_has_open_tasks, cast in Hopen. rewrite Hr, Ht, Hp in Hopen.
  injection Hopen as Hopen. eexists t, p, _. rewrite Hd2. cbn.
  split_and!; [done|done|by rewrite lookup_insert_eq|done|].
  intros key task Htask Htt Htp. apply (table_any_false _ _ _ _ Hopen) in Htask.
  rewrite Htt, Htp, !String.eqb_refl, Hsc in Htask. apply slices_Contains_true.
  by apply negb_false_iff in Htask.
Qed.

(** A goal is closed only with its whole company. When the repository commits a
    goal as completed or archived, every project of the goal's company is completed,
    canceled or archived, those of the company's other goals included: an open project
    of another goal keeps this one open. *)
Theorem goal_closing_guarded ctx params db ev goal db' :
  run (WorkRepository.ChangeGoalStatus ctx params) db ev = (Ok goal, db') →
  goal_Status goal ∈ [GoalStatusCompleted; GoalStatusArchived] →
  ∃ t c g row, uuid_in (goal_TenantID goal) = Some t ∧
    uuid_in (goal_CompanyID goal) = Some c ∧ uuid_in (goal_ID goal) = Some g ∧
    work_goals db' !! (t, g) = Some row ∧ goal_Status row = goal_Status goal ∧
    ∀ key p, work_projects db' !! key = Some p → project_TenantID p = t →
      project_CompanyID p = c → project_Status p ∈ closed_project_statuses.
Proof.
  intros (s & Hr & ->)%run_Ok. unfold WorkRepository.ChangeGoalStatus, beginUserTenant in Hr.
  tx_inv_core Hr. intros Hclosing.
  apply guard_Ok in E as (Hd0 & Hs0 & _ & Hg). apply versioned_Ok in E0
    as (r & t & g & old & Hr & Hsc & Ht & Hi & Hold & _ & _ & _ & Hd1).
  apply work_outbox_Ok in E1 as (clock & ob & _ & Hd2). cbn in *.
  rewrite Hs0 in Hr. rewrite Hd1, Hd0 in Hd2.
  assert (Hopen := Hg ltac:(set_unfold; by destruct Hclosing as [->|[->|]])).
  unfold sql_has_open_projects, cast in Hopen. rewrite Hr, Ht in Hopen.
  destruct (uuid_in (goal_CompanyID _)) as [c|] eqn:Hc; [|done]. injection Hopen as Hopen.
  eexists t, c, g, _. rewrite Hd2. cbn.
  split_and!; [done|done|done|by rewrite lookup_insert_eq|done|].
  intros key p Hp Hpt Hpc. apply (table_any_false _ _ _ _ Hopen) in Hp.
  rewrite Hpt, Hpc, !String.eqb_refl, Hsc in Hp. apply slices_Contains_true.
  by apply negb_false_iff in Hp.
Qed.

(** The rows that the dependency check of a task looks at. *)
Lemma no_incomplete_dependencies db t i o :
  graph_ok db → incomplete_dependencies t i db = [] → depends db t i o →
  ∃ ko, work_tasks db !! (t, o) = Some ko ∧ task_Status ko = TaskStatusCompleted.
Proof.
  intros Hok Hnone [d Hd]. destruct (graph_rows _ Hok _ _ _ _ Hd) as ([= Ht Hi Ho] & _ & Hp).
  destruct Hp as (ko & Hko & _). exists ko. split; [done|].
  apply String.eqb_eq, not_false_is_true. intros Hopen.
  enough (d ∈ incomplete_dependencies t i db) as Hin by (by rewrite Hnone in Hin; inversion Hin).
  unfold incomplete_dependencies, dependency_rows. apply list_elem_of_In, filter_In.
  rewrite Ho, Hko, Hopen. split; [|done]. apply filter_In. rewrite Ht, Hi, !String.eqb_refl.
  split; [|done]. apply list_elem_of_In, list_elem_of_fmap. exists (t, i, o, d).
  by rewrite elem_of_map_to_list.
Qed.

(** C17 (a status is committed over its prerequisites and its checklist). When the
    repository's [ChangeTaskStatus], run as one atomic step from a reachable state,
    commits a status: if that is in progress, waiting for approval or completed, all
    prerequisites the task has in the tables of the commit are completed, and if it is
    completed, all its checklist items there are. Nothing is said of prerequisites and
    items added later, or by a transaction that overlaps this one: the service reads them
    without a lock. *)
Theorem task_status_guarded (σ : system) ctx params ev view db' :
  reachable σ →
  run (WorkRepository.ChangeTaskStatus ctx params) (sys_tables σ) ev = (Ok view, db') →
  ∃ t i new, uuid_in (task_TenantID (taskChange_Task params)) = Some t ∧
    uuid_in (task_ID (taskChange_Task params)) = Some i ∧
    work_tasks db' !! (t, i) = Some new ∧
    task_Status new = task_Status (taskChange_Task params) ∧
    (task_Status new ∈ [TaskStatusInProgress; TaskStatusWaitingApproval;
                        TaskStatusCompleted] →
     ∀ o, depends db' t i o → ∃ ko, work_tasks db' !! (t, o) = Some ko ∧
       task_Status ko = TaskStatusCompleted) ∧
    (task_Status new = TaskStatusCompleted →
     ∀ key item, work_checklist db' !! key = Some item → item_TenantID item = t →
       item_TaskID item = i → item_Completed item = true).
Proof.
  intros [Hok _]%reachable_ok
    (t & i & old & clock & ob & Ht & Hi & Hold & _ & _ & Hpre & Hcheck & _ & _ & ->)
    %ChangeTaskStatus_Ok.
  exists t, i, (task_status_changed (taskChange_Task params) old). cbn.
  split_and!; try done; [by rewrite lookup_insert_eq|].
  intros Hstatus o Ho. destruct (no_incomplete_dependencies (sys_tables σ) t i o) as (ko & ? & ?).
  - done.
  - apply Hpre. unfold needs_prerequisites. by set_unfold; destruct Hstatus as [->|[->|[->|]]].
  - done.
  - exists ko. rewrite lookup_insert_ne; [done|]. intros [= <-].
    by apply (graph_acyclic _ Hok t i), tc_once.
Qed.

End Updates.

(** ** Use cases among other transactions *)

Section UseCases.
Context `{PlatformLaws, WorkProto} `{!ProtoLaws}.
Variables (config : Config) (clients : Clients).
Implicit Types (ctx : Ctx) (ev : env) (db : work_tables) (w : world).

(** A transaction of the service, or of the relay. *)
Inductive peer_step db : work_tables → Prop :=
| peer_other ctx {A} (m : repo A) ev : other_method ctx m → peer_step db (run m db ev).2
| peer_dependency ctx params ev :
    peer_step db (run (WorkRepository.AddDependency ctx params) db ev).2
| peer_relay ob : peer_step db (set_work_outbox ob db).

(** Between two calls of a use case other transactions of the service run. *)
Definition peers w : Prop := ∀ n db, rtc peer_step db (world_interfere w n db).

(** What [AddDependency] leaves alone. *)
Definition same_tasks db db' : Prop :=
  work_tasks db' = work_tasks db ∧ work_projects db' = work_projects db.

#[local] Instance same_tasks_preorder : PreOrder same_tasks.
Proof. split; [done|]. intros ??? [] []. split; congruence. Qed.

Lemma dependency_same_tasks ctx params db ev :
  same_tasks db (run (WorkRepository.AddDependency ctx params) db ev).2.
Proof.
  assert (∀ t e, along same_tasks (insertOutbox t e)).
  { intros t e. apply along_map_err, along_bind; [apply _|intros now].
    apply (along_exec same_tasks). intros sc db0 u db1 Hi. result_inv Hi. by simplify_eq. }
  assert (∀ p d, along same_tasks (exec (sql_insert_dependency p d))).
  { intros p d. apply (along_exec same_tasks). intros sc db0 u db1 Hi.
    by apply sql_insert_dependency_Ok in Hi
      as (? & ? & ? & ? & row & ? & ? & ? & ? & ? & ? & ? & ? & ? & ->). }
  apply (run_along same_tasks). unfold WorkRepository.AddDependency, AddDependency_project,
    AddDependency_check, AddDependency_insert, sharedProject, dependencyCycleExists,
    beginUserTenant. apply _.
Qed.

Lemma peer_step_tasks db db' :
  peer_step db db' → evolves db db' ∧ (tasks_ok db → tasks_ok db').
Proof.
  destruct 1 as [ctx A m ev Hm|ctx params ev|ob].
  - pose proof (other_keeps_graph ctx m db ev Hm) as Hk. split; apply Hk.
  - destruct (dependency_same_tasks ctx params db ev) as [Ht Hp]. split.
    + intros k task Hk. rewrite Ht. eauto.
    + intros Hok t i task. rewrite Ht. intros Hk%Hok.
      eapply task_ok_projects; [|done]. by rewrite Hp.
  - split; [intros k; cbn; eauto|]. intros Hok t i task Hk. by eapply task_ok_projects, Hok.
Qed.

Lemma peers_tasks db db' :
  rtc peer_step db db' → evolves db db' ∧ (tasks_ok db → tasks_ok db').
Proof.
  induction 1 as [db|db1 db2 db3 Hs _ [IH1 IH2]]; [split; [reflexivity|done]|].
  apply peer_step_tasks in Hs as [Hs1 Hs2]. split; [by trans db2|auto].
Qed.

#[export] Instance readonly_GetTask ctx actorUserID tenantID taskID :
  readonly (WorkRepository.GetTask ctx actorUserID tenantID taskID).
Proof. unfold WorkRepository.GetTask, beginUserTenant. apply _. Qed.

Lemma GetTask_Ok ctx actorUserID tenantID taskID db ev view db' :
  run (WorkRepository.GetTask ctx actorUserID tenantID taskID) db ev = (Ok view, db') →
  ∃ t i, uuid_in tenantID = Some t ∧ uuid_in taskID = Some i ∧
    work_tasks db !! (t, i) = Some (view_Task view).
Proof.
  intros (s & Hr & ->)%run_Ok. unfold WorkRepository.GetTask, beginUserTenant in Hr.
  tx_inv_core Hr.
  match goal with Hv : sql_task_view _ _ _ _ = _ |- _ =>
    apply result_bind_Ok in Hv as (k & Hk & [= <-]) end.
  apply sql_task_Ok in Hk as (? & t & i & _ & _ & ? & ? & ?). by exists t, i.
Qed.

(** The event [e] of the tenant [t] announces the change of a task to [status]. *)
Definition announces_status (t i : string) (previous status : TaskStatus) (version : Z)
    (t' : string) (e : OutboxEvent) : Prop :=
  t' = t ∧ ∃ envelope view actorUserID,
    unmarshal_envelope (event_Envelope e) = Some envelope ∧
    envelope_EventType envelope = "task.status_changed" ∧
    envelope_AggregateId envelope = i ∧ envelope_AggregateVersion envelope = version ∧
    marshal_work_message (TaskStatusChanged view (protoutil_TaskStatus previous) actorUserID)
      = Some (envelope_Payload envelope) ∧
    task_Status (view_Task view) = status.

Lemma newOutboxEvent_Ok eventID ctx topic key eventType tenantID aggregateType aggregateID
    version payload now event :
  newOutboxEvent eventID ctx topic key eventType tenantID aggregateType aggregateID version
    payload now = Ok event →
  ∃ envelope, unmarshal_envelope (event_Envelope event) = Some envelope ∧
    envelope_EventType envelope = eventType ∧ envelope_AggregateId envelope = aggregateID ∧
    envelope_AggregateVersion envelope = version mod 2 ^ 64 ∧
    marshal_work_message payload = Some (envelope_Payload envelope).
Proof.
  unfold newOutboxEvent. intros He. result_inv He. injection He as <-.
  select (marshal_envelope _ = _) (fun Hm => apply unmarshal_marshal in Hm).
  eexists. by split_and!.
Qed.

(** What [ChangeTaskStatus] hands to the repository. *)
Lemma ChangeTaskStatus_params_Ok ctx actorUserID expected status view w params :
  ChangeTaskStatus_params config ctx actorUserID expected status view w = Ok params →
  status ∈ task_statuses →
  let seen := view_Task view in let k := taskChange_Task params in
  taskCanTransition (task_Status seen) status = true ∧
  task_TenantID k = task_TenantID seen ∧ task_ID k = task_ID seen ∧
  task_Status k = status ∧ taskChange_ExpectedVersion params = expected ∧
  ∀ t eid, announces_status t (task_ID seen) (task_Status seen) status
    (int64_incr (task_Version seen) mod 2 ^ 64) t
    (stored_event eid (taskChange_Event params)).
Proof.
  intros Hp Hstatus. unfold ChangeTaskStatus_params in Hp.
  apply result_bind_Ok in Hp as (? & Hcan%fail_if_Ok%negb_false_iff & Hp).
  apply result_bind_Ok in Hp as (event & He & [= <-]). cbn in *.
  split_and!; try done. intros t eid. split; [done|].
  apply newOutboxEvent_Ok in He as (envelope & ? & ? & ? & ? & Hm).
  eexists envelope, _, _. cbn. split_and!; [done..|exact Hm|]. cbn.
  unfold protoutil_TaskStatus, proto_enum. by apply slices_Contains_true in Hstatus as ->.
Qed.

(** C16 (a status change is lawful for the row it changes). When [ChangeTaskStatus]
    returns a task, whatever other transactions of the service ran before and between
    its own two: the actor had the permission; the lifecycle allows the change from
    the status of the task as the use case read it; the row that was changed had the
    expected version, and now has the next one and the new status. If the caller
    expected a version that the task had already reached when it was read, the row
    read is the row changed, and the event in the outbox announces the change with the
    version of the new row. *)
Theorem task_status_lifecycle (σ : system) ctx actorUserID tenantID taskID expected status
    w view db' :
  reachable σ → peers w →
  perform (WorkTasks.ChangeTaskStatus config clients ctx actorUserID tenantID taskID
    expected status) w (sys_tables σ) = (Ok view, db') →
  Authorizer_Require clients actorUserID tenantID TenantDomain.PermissionTaskStatusUpdate
    = Ok tt ∧
  ∃ t i seen old new,
    let found := world_interfere w 0 (sys_tables σ) in
    uuid_in tenantID = Some t ∧ uuid_in taskID = Some i ∧
    work_tasks found !! (t, i) = Some seen ∧
    taskCanTransition (task_Status seen) status = true ∧
    work_tasks (world_interfere w 1 found) !! (t, i) = Some old ∧
    task_Version old = expected ∧
    work_tasks db' !! (t, i) = Some new ∧
    task_Status new = status ∧ task_Version new = expected + 1 ∧
    (expected ≤ task_Version seen → old = seen ∧
       holds (announces_status t i (task_Status seen) status (expected + 1))
         (work_outbox db')).
Proof.
  intros [Hok _]%reachable_ok Hw (s & Hr & <-)%perform_Ok.
  unfold WorkTasks.ChangeTaskStatus in Hr. app_inv Hr.
  apply result_bind_Ok in E as (? & _ & E).
  apply result_bind_Ok in E as ([] & Hauth & E). split; [done|].
  apply result_bind_Ok in E as (? & Hstatus%fail_if_Ok%negb_false_iff & [= <-]).
  apply slices_Contains_true in Hstatus. cbn in E0.
  set (found := world_interfere w 0 (sys_tables σ)) in *.
  pose proof (run_readonly (WorkRepository.GetTask ctx actorUserID tenantID taskID) found
    (world_env w 0) _) as Hro. rewrite E0 in Hro. cbn in Hro.
  apply GetTask_Ok in E0 as (t & i & Ht & Hi & Hseen).
  assert (tasks_ok found) as Hfound by (apply (peers_tasks _ _ (Hw _ _)), Hok).
  destruct (Hfound _ _ _ Hseen) as [[= Htk Hik] Hct Hci _ _].
  apply call_run in Hr as [Hr _]. rewrite H4, Hro in Hr. cbn in Hr.
  apply ChangeTaskStatus_params_Ok in E1 as (Hcan & Htid & Hid & Hst & Hexp & Hev); [|done].
  apply ChangeTaskStatus_Ok in Hr as (t' & i' & old & clock & ob & Ht' & Hi' & Hold & Hv &
    Hmax & _ & _ & Hob & _ & Hdb).
  rewrite Htid, Htk, Hct in Ht'. rewrite Hid, Hik, Hci in Hi'.
  injection Ht' as <-. injection Hi' as <-.
  exists t, i, (view_Task a0), old, (task_status_changed (taskChange_Task a1) old).
  rewrite Hdb. cbn. split_and!; try done.
  - congruence.
  - by rewrite lookup_insert_eq.
  - congruence.
  - intros Hle. destruct (proj1 (peers_tasks _ _ (Hw 1%nat found)) _ _ Hseen)
      as (old' & Hold' & [->|Hlt]); simplify_eq; [|lia]. split; [done|].
    apply insert_outbox_holds in Hob as (t1 & eid & Ht1 & Hh).
    rewrite Htid, Hct in Ht1. injection Ht1 as <-.
    destruct Hh as (k & row & Hk & Hrt & Hre). exists k, row. split; [done|].
    rewrite Hrt, Hre. specialize (Hev (task_TenantID (view_Task a0)) eid). revert Hev.
    unfold int64_incr. rewrite int64_wrap_small, Z.mod_small, Hv; [done|..];
      unfold int64_min, int64_max in *; lia.
Qed.

End UseCases.

(** ** The use cases as runs of the system

    Every use case of the service, run with no dependency transaction open, takes
    reachable tables to reachable tables: what holds of the transition system of
    [WorkDependencies] holds of the service. *)

Section Operations.
Context `{PlatformLaws, WorkProto}.
Variables (config : Config) (clients : Clients).
Implicit Types (ctx : Ctx) (ev : env) (db : work_tables) (w : world).

(** Every use case of the service that is modelled. *)
Inductive operation :=
| OpCreateGoal (input : CreateGoalInput)
| OpGetGoal (actorUserID tenantID goalID : string)
| OpListGoals (actorUserID tenantID companyID : string) (pageSize : Z)
    (pageToken : string) (includeArchived : bool)
| OpUpdateGoal (input : UpdateInput)
| OpChangeGoalStatus (actorUserID tenantID goalID : string) (expectedVersion : Z)
    (status : GoalStatus)
| OpCreateProject (input : CreateProjectInput)
| OpGetProject (actorUserID tenantID projectID : string)
| OpListProjects (actorUserID tenantID companyID goalID : string) (pageSize : Z)
    (pageToken : string) (includeArchived : bool)
| OpUpdateProject (input : UpdateInput)
| OpChangeProjectStatus (actorUserID tenantID projectID : string) (expectedVersion : Z)
    (status : ProjectStatus)
| OpCreateTask (input : CreateTaskInput)
| OpGetTask (actorUserID tenantID taskID : string)
| OpListTasks (actorUserID tenantID companyID projectID : string) (pageSize : Z)
    (pageToken : string) (includeCanceled : bool)
| OpUpdateTask (input : UpdateTaskInput)
| OpChangeTaskStatus (actorUserID tenantID taskID : string) (expectedVersion : Z)
    (status : TaskStatus)
| OpAddTaskDependency (input : DependencyInput)
| OpRemoveTaskDependency (input : DependencyInput)
| OpAddChecklistItem (input : AddChecklistItemInput)
| OpUpdateChecklistItem (input : WorkTasks.UpdateChecklistItemInput)
| OpDeleteChecklistItem (input : DeleteChecklistItemInput)
| OpListChecklist (actorUserID tenantID taskID : string).

Definition operate ctx (op : operation) : app unit :=
  match op with
  | OpCreateGoal i => WorkService.CreateGoal config clients ctx i;; mret tt
  | OpGetGoal a t g => WorkService.GetGoal clients ctx a t g;; mret tt
  | OpListGoals a t c n k r => WorkService.ListGoals clients ctx a t c n k r;; mret tt
  | OpUpdateGoal i => WorkService.UpdateGoal config clients ctx i;; mret tt
  | OpChangeGoalStatus a t g v s =>
      WorkService.ChangeGoalStatus config clients ctx a t g v s;; mret tt
  | OpCreateProject i => WorkService.CreateProject config clients ctx i;; mret tt
  | OpGetProject a t p => WorkService.GetProject clients ctx a t p;; mret tt
  | OpListProjects a t c g n k r =>
      WorkService.ListProjects clients ctx a t c g n k r;; mret tt
  | OpUpdateProject i => WorkService.UpdateProject config clients ctx i;; mret tt
  | OpChangeProjectStatus a t p v s =>
      WorkService.ChangeProjectStatus config clients ctx a t p v s;; mret tt
  | OpCreateTask i => WorkTasks.CreateTask config clients ctx i;; mret tt
  | OpGetTask a t k => WorkTasks.GetTask clients ctx a t k;; mret tt
  | OpListTasks a t c p n k r => WorkTasks.ListTasks clients ctx a t c p n k r;; mret tt
  | OpUpdateTask i => WorkTasks.UpdateTask config clients ctx i;; mret tt
  | OpChangeTaskStatus a t k v s =>
      WorkTasks.ChangeTaskStatus config clients ctx a t k v s;; mret tt
  | OpAddTaskDependency i => AddTaskDependency config clients ctx i;; mret tt
  | OpRemoveTaskDependency i => RemoveTaskDependency config clients ctx i;; mret tt
  | OpAddChecklistItem i => WorkTasks.AddChecklistItem config clients ctx i;; mret tt
  | OpUpdateChecklistItem i => WorkTasks.UpdateChecklistItem config clients ctx i;; mret tt
  | OpDeleteChecklistItem i => WorkTasks.DeleteChecklistItem config clients ctx i;; mret tt
  | OpListChecklist a t k => WorkTasks.ListChecklist clients ctx a t k;; mret tt
  end.

(** Tables reachable with no dependency transaction open. *)
Definition quiet db : system :=
  {| sys_tables := db; sys_running := ∅; sys_locks := ∅ |}.
Definition settled db : Prop := reachable (quiet db).

(** Between two calls of a use case other transactions run, and end. *)
Definition keeps_settled w : Prop := ∀ n db, settled db → settled (world_interfere w n db).

(** ** Methods that only read *)

#[local] Instance readonly_taskExists t k : readonly (taskExists t k).
Proof. unfold taskExists. apply _. Qed.

#[export] Instance readonly_GetGoal c a t g : readonly (WorkRepository.GetGoal c a t g).
Proof. unfold GetGoal, beginUserTenant. apply _. Qed.
#[export] Instance readonly_ListGoals c a t o l k i :
  readonly (WorkRepository.ListGoals c a t o l k i).
Proof. unfold ListGoals, beginUserTenant. apply _. Qed.
#[export] Instance readonly_GetProject c a t p : readonly (WorkRepository.GetProject c a t p).
Proof. unfold GetProject, beginUserTenant. apply _. Qed.
#[export] Instance readonly_ListProjects c a t o g l k i :
  readonly (WorkRepository.ListProjects c a t o g l k i).
Proof. unfold ListProjects, beginUserTenant. apply _. Qed.
#[export] Instance readonly_ListTasks c a t o p l k i :
  readonly (WorkRepository.ListTasks c a t o p l k i).
Proof. unfold ListTasks, beginUserTenant. apply _. Qed.
#[export] Instance readonly_GetChecklistItem c a t k i :
  readonly (WorkRepository.GetChecklistItem c a t k i).
Proof. unfold GetChecklistItem, beginUserTenant. apply _. Qed.
#[export] Instance readonly_ListChecklist c a t k :
  readonly (WorkRepository.ListChecklist c a t k).
Proof. unfold ListChecklist, beginUserTenant. apply _. Qed.

(** ** [AddDependency] alone is the three steps of the system *)

#[local] Instance readonly_dependency_project ctx params :
  readonly (AddDependency_project ctx params).
Proof. unfold AddDependency_project, sharedProject, beginUserTenant. apply _. Qed.
#[local] Instance readonly_dependency_check params p :
  readonly (AddDependency_check params p).
Proof. unfold AddDependency_check, dependencyCycleExists. apply _. Qed.
#[local] Instance commit_free_insertOutbox t e : commit_free (insertOutbox t e).
Proof. unfold insertOutbox. apply _. Qed.
#[local] Instance commit_last_AddDependency ctx params :
  commit_last (AddDependency ctx params).
Proof.
  unfold AddDependency, AddDependency_project, AddDependency_check, AddDependency_insert,
    sharedProject, dependencyCycleExists, beginUserTenant. apply _.
Qed.

Lemma readonly_session {A} (m : repo A) db s :
  readonly m → session_db s = db → session_committed s = None →
  session_db (m s).2 = db.
Proof.
  intros Hm Hs Hc. symmetry. by apply (Hm db s); split; [|left].
Qed.

Lemma resume_same {A} (m : repo A) db s : session_db s = db → resume m db s = m s.
Proof. intros <-. by destruct s. Qed.

Lemma AddDependency_settled ctx params db ev :
  settled db → settled (run (AddDependency ctx params) db ev).2.
Proof.
  intros Hdb. destruct (run (AddDependency ctx params) db ev) as [[d|e] db'] eqn:Hr; cbn;
    [|apply run_Err in Hr as ->; [done|apply _]].
  apply run_Ok in Hr as (s & Hr & ->). unfold AddDependency in Hr.
  apply tx_bind_Ok in Hr as (p & s1 & E1 & Hr).
  apply tx_bind_Ok in Hr as ([] & s2 & E2 & E3).
  assert (session_db s1 = db ∧ session_committed s1 = None) as [Hs1 Hc1].
  { change s1 with ((Ok p : result error string, s1).2). rewrite <-E1. split.
    - apply readonly_session; [apply _|done..].
    - unfold AddDependency_project, sharedProject, beginUserTenant.
      by rewrite (commit_free_spec (new_session db ev)). }
  assert (session_db s2 = db) as Hs2.
  { change s2 with ((Ok tt : result error unit, s2).2). rewrite <-E2.
    by apply readonly_session; [apply _|..]. }
  set (r1 := {| run_params := params; run_session := s1; run_project := p;
                run_checked := false |}).
  set (r2 := {| run_params := params; run_session := s2; run_project := p;
                run_checked := true |}).
  set (σ1 := {| sys_tables := db; sys_running := <[0%nat := r1]> ∅; sys_locks := ∅ |}).
  set (σ2 := {| sys_tables := db; sys_running := <[0%nat := r2]> (<[0%nat := r1]> ∅);
                sys_locks := lock 0 (locked_row db r1) ∅ |}).
  assert (rtc step start σ2) as Hσ2.
  { apply (rtc_r start σ1).
    - eapply rtc_r; [exact Hdb|]. by eapply (step_begin (quiet db)).
    - apply (step_check σ1 0%nat r1 s2); [apply lookup_insert_eq|done| |].
      + by destruct (locked_row _ _).
      + by rewrite resume_same. }
  unfold settled, reachable.
  replace (quiet (default db (session_committed s))) with {|
    sys_tables := default db (session_committed s);
    sys_running := delete 0%nat (sys_running σ2); sys_locks := unlock 0 (sys_locks σ2) |}.
  - eapply rtc_r; [exact Hσ2|]. eapply (step_insert σ2 0%nat r2);
      [apply lookup_insert_eq|done|]. rewrite resume_same by done. exact E3.
  - unfold quiet, σ2. f_equal; cbn -[delete insert unlock lock].
    apply map_empty. intros k. apply eq_None_not_Some. intros [id Hk].
    apply map_lookup_filter_Some in Hk as [Hk Hne]. cbn in Hne. unfold lock in Hk.
    destruct (locked_row db r1); [|done]. by apply lookup_insert_Some in Hk as [[_ <-]|[_ ?]].
Qed.

(** ** Every use case *)

Definition settles {A} w (m : app A) : Prop := triple settled w m (λ _, True).

Lemma settles_read {A} w (m : repo A) : keeps_settled w → readonly m → settles w (call m).
Proof.
  intros Hw Hm. apply triple_call; [exact Hw|]. intros db ev Hdb. by rewrite run_readonly.
Qed.

Lemma settles_other {A} w ctx (m : repo A) :
  keeps_settled w → other_method ctx m → settles w (call m).
Proof.
  intros Hw Hm. apply triple_call; [exact Hw|]. intros db ev Hdb. split; [|done].
  eapply rtc_r; [exact Hdb|]. by eapply (step_other (quiet db)).
Qed.

Lemma settles_dependency w ctx params :
  keeps_settled w → settles w (call (AddDependency ctx params)).
Proof.
  intros Hw. apply triple_call; [exact Hw|]. intros db ev Hdb. split; [|done].
  by apply AddDependency_settled.
Qed.

#[local] Opaque WorkRepository.CreateGoal WorkRepository.GetGoal WorkRepository.ListGoals
  WorkRepository.UpdateGoal WorkRepository.ChangeGoalStatus WorkRepository.CreateProject
  WorkRepository.GetProject WorkRepository.ListProjects WorkRepository.UpdateProject
  WorkRepository.ChangeProjectStatus WorkRepository.CreateTask WorkRepository.GetTask
  WorkRepository.ListTasks WorkRepository.UpdateTask WorkRepository.ChangeTaskStatus
  AddDependency RemoveDependency WorkRepository.AddChecklistItem
  WorkRepository.GetChecklistItem WorkRepository.UpdateChecklistItem
  WorkRepository.DeleteChecklistItem WorkRepository.ListChecklist.

Ltac settle :=
  match goal with
  | Hw : keeps_settled _ |- triple settled _ (call _) _ =>
      first [ eapply settles_other; [exact Hw|constructor]
            | by apply settles_dependency
            | apply settles_read; [exact Hw|apply _] ]
  end.

Lemma operate_settles ctx op w : keeps_settled w → settles w (operate ctx op).
Proof.
  intros Hw. unfold settles. destruct op; cbn; apply (triple_bind _ _ _ _ (λ _, True));
    try (intros; by apply triple_ret).
  all: unfold WorkService.CreateGoal, WorkService.GetGoal, WorkService.ListGoals,
    WorkService.UpdateGoal, WorkService.ChangeGoalStatus, WorkService.CreateProject,
    WorkService.GetProject, WorkService.ListProjects, WorkService.UpdateProject,
    WorkService.ChangeProjectStatus, WorkTasks.CreateTask, WorkTasks.GetTask,
    WorkTasks.ListTasks, WorkTasks.UpdateTask, WorkTasks.ChangeTaskStatus,
    AddTaskDependency, RemoveTaskDependency, WorkTasks.AddChecklistItem,
    WorkTasks.UpdateChecklistItem, WorkTasks.DeleteChecklistItem,
    WorkTasks.ListChecklist; use_case; try settle.
  apply (triple_bind _ _ _ _ (λ _, True)); [|intros _ _; use_case; settle].
  destruct (taskIn_ParentTaskID input); [|by apply triple_ret].
  unfold validateTaskParent. use_case. settle.
Qed.

Lemma operate_settled ctx op w db :
  keeps_settled w → settled db → settled (perform (operate ctx op) w db).2.
Proof. intros Hw Hdb. by apply (triple_perform settled w _ (λ _, True)); [apply operate_settles|]. Qed.

End Operations.
