(* ===== verification/WorkExamples.v ===== *)
(** * Work management: concrete runs

    An instance of the foreign code, a tenant's goal, project and tasks created by the
    service, two transactions that try to close a cycle at once, and the properties of
    [WorkProperties] and [WorkLifecycle] at these tables. *)

From S2P Require Import Prelude GoStrings Postgres Usecase Outbox.
From S2P Require Import OutboxProperties Concrete.
From S2P Require TenantDomain.
From S2P Require Import Graph WorkDomain WorkStore WorkDependencies WorkService WorkTasks.
From S2P Require Import WorkRepository WorkProperties.
From S2P Require Import WorkLifecycle.
From stdpp Require Import strings gmap list relations.
From Stdlib Require Import String Ascii Lia.
Open Scope string_scope.
Open Scope list_scope.
Open Scope Z_scope.

#[local] Notation world := (Usecase.world work_tables).

#[local] Existing Instance concrete_platform.
#[local] Existing Instance concrete_platform_laws.

Inductive work_wire :=
| WorkBytes (m : WorkMessage)
| WorkEnvelopeBytes (e : EventEnvelope work_wire).

#[local] Instance work_proto : Proto := {|
  wire := work_wire;
  marshal_envelope e := Some (WorkEnvelopeBytes e);
  unmarshal_envelope w := match w with WorkEnvelopeBytes e => Some e | _ => None end;
  timestamp_valid _ := true |}.

#[local] Instance work_proto_laws : ProtoLaws.
Proof. by intros e w [= <-]. Qed.

#[local] Instance work_messages : WorkProto := {|
  marshal_work_message m := Some (WorkBytes m) |}.

(** ** A service and its world *)

Definition config : Config := {| config_EventTopic := "gereh.work.events.v1" |}.

Example config_accepted : New config = Ok config.
Proof. vm_compute. reflexivity. Qed.

Definition clients : Clients := {|
  CheckAuthorization actorUserID tenantID permission := Ok (Some {|
    TenantDomain.decision_Allowed := true; TenantDomain.decision_TenantID := tenantID;
    TenantDomain.decision_ActorUserID := actorUserID;
    TenantDomain.decision_Permission := permission;
    TenantDomain.decision_Role := TenantDomain.RoleOwner;
    TenantDomain.decision_TenantVersion := 1; TenantDomain.decision_MembershipVersion := 1;
    TenantDomain.decision_DenialReason := "" |});
  GetCompany _ _ _ := company_found true |}.

Definition ctx : Ctx :=
  {| ctx_RequestID := "request-1"; ctx_CorrelationID := ""; ctx_TraceID := "" |}.

Definition server : env := {| env_clock := 1000; env_budget := None |}.

(** The [m]th request obtains the identifiers [uuid2 m 0], [uuid2 m 1], ... *)
Definition request (m : nat) : world := {|
  world_env _ := server; world_interfere _ db := db;
  world_ids n := Some (uuid2 m n); world_now _ := 5000000 |}.

Definition actor : string := uuid 1.
Definition tenant : string := uuid 2.
Definition company : string := uuid 3.

(** The tables after the [m]th request. *)
Definition serve (m : nat) (op : operation) (db : work_tables) : work_tables :=
  (perform (operate config clients ctx op) (request m) db).2.

Lemma serve_settled m op db : settled db → settled (serve m op db).
Proof. apply operate_settled. by intros n db'. Qed.

(** Computing only whether a run succeeds. *)
Definition is_Ok {E A} (r : result E A) : bool :=
  match r with Ok _ => true | Err _ => false end.

Lemma returns_Ok {E A B} (r : result E A * B) :
  is_Ok r.1 = true → ∃ a b, r = (Ok a, b).
Proof. destruct r as [[a|e] b]; cbn; intros; [eauto|done]. Qed.

(** ** A goal, a project and two tasks *)

Definition goal_input : CreateGoalInput := {|
  goalIn_ActorUserID := actor; goalIn_TenantID := tenant; goalIn_CompanyID := company;
  goalIn_Title := " Launch "; goalIn_Description := "" |}.
Definition goal_id : string := uuid2 1 0.

Definition tables1 : work_tables := serve 1 (OpCreateGoal goal_input) no_work_tables.

Definition project_input : CreateProjectInput := {|
  projectIn_ActorUserID := actor; projectIn_TenantID := tenant;
  projectIn_CompanyID := company; projectIn_GoalID := goal_id;
  projectIn_Title := "Website"; projectIn_Description := "" |}.
Definition project_id : string := uuid2 2 0.

Definition tables2 : work_tables := serve 2 (OpCreateProject project_input) tables1.

Definition task_input (title : string) : CreateTaskInput := {|
  taskIn_ActorUserID := actor; taskIn_TenantID := tenant; taskIn_CompanyID := company;
  taskIn_ProjectID := project_id; taskIn_ParentTaskID := None; taskIn_Title := title;
  taskIn_Description := ""; taskIn_Priority := TaskPriorityNormal |}.

Definition design : string := uuid2 3 0.
Definition build : string := uuid2 4 0.
Definition tables3 : work_tables := serve 3 (OpCreateTask (task_input "Design")) tables2.
Definition tables4 : work_tables := serve 4 (OpCreateTask (task_input "Build")) tables3.

Example tasks_created : (map_to_list (work_tasks tables4)).*1 = [(tenant, design); (tenant, build)].
Proof. vm_compute. reflexivity. Qed.

Lemma start_settled : settled no_work_tables.
Proof. apply rtc_refl. Qed.
Lemma tables4_settled : settled tables4.
Proof. do 4 apply serve_settled. exact start_settled. Qed.

(** ** Two transactions that would close a cycle

    One makes the building wait for the design, the other the design for the
    building. Both have read the project when the first one checks and commits. *)
Definition link (task prerequisite : string) : DependencyInput := {|
  depIn_ActorUserID := actor; depIn_TenantID := tenant; depIn_TaskID := task;
  depIn_DependsOnTaskID := prerequisite |}.

Definition link_params (m : nat) (task prerequisite : string) : DependencyParams := {|
  dependency_ActorUserID := actor;
  dependency_Dependency := {|
    dep_TenantID := tenant; dep_ProjectID := project_id; dep_TaskID := task;
    dep_DependsOnTaskID := prerequisite; dep_CreatedByUserID := actor;
    dep_CreatedAt := 5000000 |};
  dependency_Event := {|
    event_ID := uuid2 m 0; event_Topic := "gereh.work.events.v1"; event_Key := task;
    event_Envelope := WorkBytes (TaskDependencyAdded {|
      dep_TenantID := tenant; dep_ProjectID := project_id; dep_TaskID := task;
      dep_DependsOnTaskID := prerequisite; dep_CreatedByUserID := actor;
      dep_CreatedAt := 5000000 |});
    event_OccurredAt := 5000000 |} |}.

Definition forth : DependencyParams := link_params 5 build design.
Definition back : DependencyParams := link_params 6 design build.

Definition opened (db : work_tables) (params : DependencyParams) : running := {|
  run_params := params;
  run_session := (AddDependency_project ctx params (new_session db server)).2;
  run_project := project_id; run_checked := false |}.

Definition checked (db : work_tables) (r : running) : running := {|
  run_params := run_params r;
  run_session := (resume (AddDependency_check (run_params r) (run_project r)) db
                    (run_session r)).2;
  run_project := run_project r; run_checked := true |}.

Definition inserted (db : work_tables) (r : running) : work_tables :=
  default db (session_committed
    (resume (AddDependency_insert (run_params r) (run_project r)) db (run_session r)).2).

(** The three steps, by computation of what they return. *)
Lemma reachable_opened db running locks id params :
  reachable {| sys_tables := db; sys_running := running; sys_locks := locks |} →
  running !! id = None →
  (AddDependency_project ctx params (new_session db server)).1 = Ok project_id →
  reachable {| sys_tables := db; sys_running := <[id := opened db params]> running;
               sys_locks := locks |}.
Proof.
  intros Hr Hid Hp. eapply rtc_r; [exact Hr|]. set (s := (AddDependency_project ctx params (new_session db server)).2).
  apply (step_begin {| sys_tables := db; sys_running := running; sys_locks := locks |} id ctx
    params server project_id s); [done|]. cbn.
  by rewrite (surjective_pairing (AddDependency_project _ _ _)), Hp.
Qed.

Lemma reachable_checked db running locks id r :
  reachable {| sys_tables := db; sys_running := running; sys_locks := locks |} →
  running !! id = Some r → run_checked r = false →
  is_free (locked_row db r) locks = true →
  (resume (AddDependency_check (run_params r) (run_project r)) db (run_session r)).1 = Ok tt →
  reachable {| sys_tables := db; sys_running := <[id := checked db r]> running;
               sys_locks := lock id (locked_row db r) locks |}.
Proof.
  intros Hr Hid Hnc Hf Hc. eapply rtc_r; [exact Hr|]. apply (step_check {| sys_tables := db; sys_running := running; sys_locks := locks |} id r);
    [done..|]. cbn. by rewrite (surjective_pairing (resume _ _ _)), Hc.
Qed.

Lemma reachable_inserted db running locks id r :
  reachable {| sys_tables := db; sys_running := running; sys_locks := locks |} →
  running !! id = Some r → run_checked r = true →
  reachable {| sys_tables := inserted db r; sys_running := delete id running;
               sys_locks := unlock id locks |}.
Proof.
  intros Hr Hid Hc. eapply rtc_r; [exact Hr|]. eapply (step_insert
    {| sys_tables := db; sys_running := running; sys_locks := locks |} id r); [done|done|].
  apply surjective_pairing.
Qed.

Definition first : running := opened tables4 forth.
Definition second : running := opened tables4 back.
Definition tables5 : work_tables := inserted tables4 (checked tables4 first).

(** The first transaction has committed; the second waits for its lock. *)
Definition raced : system := {|
  sys_tables := tables5;
  sys_running := delete 1%nat (<[1%nat := checked tables4 first]>
    (<[2%nat := second]> (<[1%nat := first]> ∅)));
  sys_locks := unlock 1 (lock 1 (locked_row tables4 first) ∅) |}.

Lemma raced_reachable : reachable raced.
Proof.
  apply reachable_inserted; [|apply lookup_insert_eq|done].
  apply reachable_checked; [|by rewrite lookup_insert_ne, lookup_insert_eq|done|..].
  - apply reachable_opened; [|by rewrite lookup_insert_ne|vm_compute; reflexivity].
    apply reachable_opened; [exact tables4_settled|done|vm_compute; reflexivity].
  - vm_compute. reflexivity.
  - vm_compute. reflexivity.
Qed.

(** The first edge is there, and the second transaction finds the cycle. *)
Example raced_edge : depends (sys_tables raced) tenant build design.
Proof. unfold depends. vm_compute. eauto. Qed.
Example raced_refused :
  (resume (AddDependency_check back project_id) tables5 (run_session second)).1
    = Err ErrDependencyCycle.
Proof. vm_compute. reflexivity. Qed.
(** Without waiting for the lock it would have seen no cycle. *)
Example race_unlocked :
  (resume (AddDependency_check back project_id) tables4 (run_session second)).1 = Ok tt.
Proof. vm_compute. reflexivity. Qed.

Lemma dependencies_acyclic_witness :
  depends (sys_tables raced) tenant build design ∧
  ((∀ x, ¬ tc (depends (sys_tables raced) tenant) x x) ∧
   (∀ a b d, work_dependencies (sys_tables raced) !! (tenant, a, b) = Some d →
      in_project (sys_tables raced) tenant (dep_ProjectID d) a ∧
      in_project (sys_tables raced) tenant (dep_ProjectID d) b)).
Proof.
  split; [exact raced_edge|]. exact (dependencies_acyclic raced tenant raced_reachable).
Defined.

(** ** Adding a dependency, accepted and refused *)

Lemma add_dependency_decides_witness :
  tc (depends (sys_tables raced) tenant) build design ∧
  run (AddDependency ctx back) (sys_tables raced) server
    = (Err ErrDependencyCycle, sys_tables raced).
Proof.
  destruct (sql_insert_outbox (env_clock server) (dep_TenantID (dependency_Dependency back))
    (dependency_Event back) (work_outbox (sys_tables raced))) as [ob|e] eqn:Hob;
    [|by vm_compute in Hob].
  assert (in_project (sys_tables raced) tenant project_id design) as Hdesign
    by (unfold in_project; vm_compute; eauto).
  assert (in_project (sys_tables raced) tenant project_id build) as Hbuild
    by (unfold in_project; vm_compute; eauto).
  destruct (add_dependency_decides raced ctx back server tenant design build project_id
    actor ob raced_reachable eq_refl ltac:(vm_compute; reflexivity)
    ltac:(vm_compute; reflexivity) ltac:(vm_compute; reflexivity)
    ltac:(vm_compute; reflexivity) ltac:(vm_compute; reflexivity)
    ltac:(vm_compute; reflexivity) ltac:(vm_compute; discriminate) Hdesign Hbuild
    ltac:(vm_compute; reflexivity) Hob) as [Hcycle|[Hn _]]; [exact Hcycle|].
  exfalso. apply Hn, tc_once, raced_edge.
Defined.

Example link_accepted :
  (run (AddDependency ctx forth) tables4 server).1
    = Ok (with_project project_id (dependency_Dependency forth)).
Proof. vm_compute. reflexivity. Qed.

(** ** Work on the linked tasks *)

Definition linked : work_tables := serve 5 (OpAddTaskDependency (link build design)) tables4.
Definition designed : work_tables :=
  serve 6 (OpChangeTaskStatus actor tenant design 1 TaskStatusCompleted) linked.

Lemma designed_reachable : reachable (quiet designed).
Proof. do 2 apply serve_settled. exact tables4_settled. Qed.

Example build_blocked :
  (perform (WorkTasks.ChangeTaskStatus config clients ctx actor tenant build 1
     TaskStatusInProgress) (request 7) linked).1 = Err ErrTaskBlocked.
Proof. vm_compute. reflexivity. Qed.

Definition build_started : TaskChangeParams := {|
  taskChange_ActorUserID := actor;
  taskChange_Task := {|
    task_TenantID := tenant; task_CompanyID := company; task_ProjectID := project_id;
    task_ID := build; task_ParentTaskID := None; task_Title := "Build";
    task_Description := ""; task_Status := TaskStatusInProgress;
    task_Priority := TaskPriorityNormal; task_Version := 2;
    task_CreatedByUserID := actor; task_CreatedAt := 5000000; task_UpdatedAt := 5000000;
    task_CompletedAt := None; task_CanceledAt := None |};
  taskChange_PreviousStatus := TaskStatusBacklog; taskChange_ExpectedVersion := 1;
  taskChange_Event := dependency_Event (link_params 7 build design) |}.

Example build_starts : is_Ok (run (WorkRepository.ChangeTaskStatus ctx build_started)
  (sys_tables (quiet designed)) server).1 = true.
Proof. vm_compute. reflexivity. Qed.

Lemma task_status_guarded_witness : ∃ view db',
  run (WorkRepository.ChangeTaskStatus ctx build_started) (sys_tables (quiet designed)) server
    = (Ok view, db') ∧
  ∃ t i new, uuid_in (task_TenantID (taskChange_Task build_started)) = Some t ∧
    uuid_in (task_ID (taskChange_Task build_started)) = Some i ∧
    work_tasks db' !! (t, i) = Some new ∧
    task_Status new = task_Status (taskChange_Task build_started) ∧
    (task_Status new ∈ [TaskStatusInProgress; TaskStatusWaitingApproval;
                        TaskStatusCompleted] →
     ∀ o, depends db' t i o → ∃ ko, work_tasks db' !! (t, o) = Some ko ∧
       task_Status ko = TaskStatusCompleted) ∧
    (task_Status new = TaskStatusCompleted →
     ∀ key item, work_checklist db' !! key = Some item → item_TenantID item = t →
       item_TaskID item = i → item_Completed item = true).
Proof.
  destruct (returns_Ok _ build_starts) as (view & db' & Hrun).
  exists view, db'. split; [exact Hrun|].
  exact (task_status_guarded (quiet designed) ctx build_started server view db'
           designed_reachable Hrun).
Defined.

Lemma peers_request m : peers (request m).
Proof. intros n db. apply rtc_refl. Qed.

Example build_served : is_Ok (perform (WorkTasks.ChangeTaskStatus config clients ctx actor tenant build 1
    TaskStatusInProgress) (request 7) (sys_tables (quiet designed))).1 = true.
Proof. vm_compute. reflexivity. Qed.

Lemma task_status_lifecycle_witness : ∃ view db',
  perform (WorkTasks.ChangeTaskStatus config clients ctx actor tenant build 1
    TaskStatusInProgress) (request 7) (sys_tables (quiet designed)) = (Ok view, db') ∧
  Authorizer_Require clients actor tenant TenantDomain.PermissionTaskStatusUpdate = Ok tt ∧
  ∃ t i seen old new,
    let found := world_interfere (request 7) 0 (sys_tables (quiet designed)) in
    uuid_in tenant = Some t ∧ uuid_in build = Some i ∧
    work_tasks found !! (t, i) = Some seen ∧
    taskCanTransition (task_Status seen) TaskStatusInProgress = true ∧
    work_tasks (world_interfere (request 7) 1 found) !! (t, i) = Some old ∧
    task_Version old = 1 ∧
    work_tasks db' !! (t, i) = Some new ∧
    task_Status new = TaskStatusInProgress ∧ task_Version new = 1 + 1 ∧
    (1 ≤ task_Version seen → old = seen ∧
       holds (announces_status t i (task_Status seen) TaskStatusInProgress (1 + 1))
         (work_outbox db')).
Proof.
  destruct (returns_Ok _ build_served) as (view & db' & Hrun). exists view, db'.
  split; [exact Hrun|].
  exact (task_status_lifecycle config clients (quiet designed) ctx actor tenant build 1
    TaskStatusInProgress (request 7) view db' designed_reachable (peers_request 7) Hrun).
Defined.

(** ** Closing the project and the goal *)

Definition project_closed : UpdateProjectParams := {|
  updateProject_ActorUserID := actor;
  updateProject_Project := {|
    project_TenantID := tenant; project_CompanyID := company; project_GoalID := goal_id;
    project_ID := project_id; project_Title := "Website"; project_Description := "";
    project_Status := ProjectStatusCompleted; project_Version := 2;
    project_CreatedByUserID := actor; project_CreatedAt := 5000000;
    project_UpdatedAt := 5000000; project_CompletedAt := Some 5000000;
    project_ArchivedAt := None |};
  updateProject_ExpectedVersion := 1;
  updateProject_Event := dependency_Event (link_params 8 build design) |}.

Example project_closes : is_Ok (run (WorkRepository.ChangeProjectStatus ctx project_closed) tables2 server).1 = true.
Proof. vm_compute. reflexivity. Qed.

Lemma project_closing_guarded_witness : ∃ project db',
  run (WorkRepository.ChangeProjectStatus ctx project_closed) tables2 server
    = (Ok project, db') ∧
  (project_Status project ∈ [ProjectStatusCompleted; ProjectStatusArchived] →
   ∃ t p row, uuid_in (project_TenantID project) = Some t ∧
    uuid_in (project_ID project) = Some p ∧ work_projects db' !! (t, p) = Some row ∧
    project_Status row = project_Status project ∧
    ∀ key task, work_tasks db' !! key = Some task → task_TenantID task = t →
      task_ProjectID task = p → task_Status task ∈ closed_task_statuses).
Proof.
  destruct (returns_Ok _ project_closes) as (project & db' & Hrun).
  exists project, db'. split; [exact Hrun|].
  exact (project_closing_guarded ctx project_closed tables2 server project db' Hrun).
Defined.

(** With tasks that are not done the project stays open. *)
Example project_open :
  (run (WorkRepository.ChangeProjectStatus ctx project_closed) tables4 server).1
    = Err ErrProjectOpenTasks.
Proof. vm_compute. reflexivity. Qed.

Definition goal_closed (goalID : string) : UpdateGoalParams := {|
  updateGoal_ActorUserID := actor;
  updateGoal_Goal := {|
    goal_TenantID := tenant; goal_CompanyID := company; goal_ID := goalID;
    goal_Title := "Launch"; goal_Description := ""; goal_Status := GoalStatusCompleted;
    goal_Version := 2; goal_CreatedByUserID := actor; goal_CreatedAt := 5000000;
    goal_UpdatedAt := 5000000; goal_CompletedAt := Some 5000000;
    goal_ArchivedAt := None |};
  updateGoal_ExpectedVersion := 1;
  updateGoal_Event := dependency_Event (link_params 9 build design) |}.

Example goal_closes : is_Ok (run (WorkRepository.ChangeGoalStatus ctx (goal_closed goal_id)) tables1 server).1 = true.
Proof. vm_compute. reflexivity. Qed.

Lemma goal_closing_guarded_witness : ∃ goal db',
  run (WorkRepository.ChangeGoalStatus ctx (goal_closed goal_id)) tables1 server
    = (Ok goal, db') ∧
  (goal_Status goal ∈ [GoalStatusCompleted; GoalStatusArchived] →
   ∃ t c g row, uuid_in (goal_TenantID goal) = Some t ∧
    uuid_in (goal_CompanyID goal) = Some c ∧ uuid_in (goal_ID goal) = Some g ∧
    work_goals db' !! (t, g) = Some row ∧ goal_Status row = goal_Status goal ∧
    ∀ key p, work_projects db' !! key = Some p → project_TenantID p = t →
      project_CompanyID p = c → project_Status p ∈ closed_project_statuses).
Proof.
  destruct (returns_Ok _ goal_closes) as (goal & db' & Hrun).
  exists goal, db'. split; [exact Hrun|].
  exact (goal_closing_guarded ctx (goal_closed goal_id) tables1 server goal db' Hrun).
Defined.

(** A second goal, without any project, cannot be completed while the first one has an
    open project. *)
Example other_goal_blocked :
  (run (WorkRepository.ChangeGoalStatus ctx (goal_closed (uuid2 8 0)))
     (serve 8 (OpCreateGoal goal_input) tables2) server).1 = Err ErrGoalOpenProjects.
Proof. vm_compute. reflexivity. Qed.
